(* ===== verification/_CoqProject ===== *)
-Q . S2P
Prelude.v
Endian.v
Varint.v
ByteArray.v
ByteArrayFacts.v
ByteArrayCodec.v
ByteArraySpec.v
ByteArrayIO.v
ByteArrayTheorems.v
Timer.v
TimerTheorems.v
FdManager.v
Http.v
HttpTheorems.v
Servlet.v
Stream.v
HttpParser.v
Ragel.v
Http11Code.v
Http11.v
HttpClientCode.v
HttpClientParser.v
HttpSession.v
HttpConnection.v
HttpServer.v
HttpWire.v
HttpClientWire.v
HttpRoundtrip.v
HttpClientRoundtrip.v
UriCode.v
Uri.v
UriTheorems.v
Address.v
AddressTheorems.v
Lookup.v
Fiber.v
Scheduler.v
SchedulerTheorems.v
IOManager.v
IOManagerTheorems.v
IOLoop.v
Hook.v
HookSystem.v
HookWakeups.v
HookTheorems.v
Socket.v
SocketTheorems.v
HookNet.v
TcpServer.v
HttpClient.v
HttpPool.v
Config.v
ConfigTheorems.v
LogFormat.v
LogPattern.v
Log.v
LogConfig.v
LogTheorems.v
LogResults.v
Mutex.v
Thread.v
Util.v
Env.v
Daemon.v
FiberSwitch.v
SchedulerLife.v
HttpLimits.v
