(* ===== verification/Prelude.v ===== *)
(** * A verification library for the [sylar] C++ server framework

    [sylar] (under [src/sylar/]) is a coroutine server framework: an N:M
    scheduler of fibers, an epoll loop and timers on top of it, byte buffers
    and streams, and an HTTP server.  This library models its core as
    executable definitions, one file per component, and proves what makes the
    components correct; where the code does not do what it is meant to do, the
    exact behaviour is proved instead.

    ** The program and the files

    - [Prelude.v]: outcomes of C++ code (a value, an exception, a failed
      [SYLAR_ASSERT] of [macro.h], undefined behaviour), fixed-width integers,
      strings sized by a number that was read ([Memory]), list splicing, tactics
      and hint databases.
    - Buffers.  [Endian.v] is [endian.h]; [Varint.v] the zigzag and base-128
      loops of [bytearray.cc]; [ByteArray.v] the chain of nodes with its cursor
      ([write], [read], [setPosition], [addCapacity], [getReadBuffers], ...);
      [ByteArrayCodec.v] the typed readers and writers; [ByteArrayIO.v] files,
      hexadecimal text and [iovec] views.  [ByteArrayFacts.v] relates the chain
      to a flat list, [ByteArraySpec.v] states the abstract vector with a
      cursor and the wire format, [ByteArrayTheorems.v] the results.
    - Timers.  [Timer.v] is [timer.cc]: timers in a heap by address, the
      [std::set] as the list of addresses in the order of
      [Timer::Comparator]; [TimerTheorems.v] runs its locked sections in any
      order.
    - Descriptors.  [FdManager.v] is [fd_manager.cc].
    - Fibers and scheduling.  [Fiber.v] is the life cycle in [fiber.cc];
      [Scheduler.v] the [run] loop of [scheduler.cc] as a transition system of
      worker threads; [SchedulerTheorems.v] its invariants.  [FiberSwitch.v] has
      all fibers and threads of a process with the thread-local pointers of
      [fiber.cc] and [scheduler.cc]; [SchedulerLife.v] the constructor, [Start]
      and [Stop] around the workers' loop.
    - The event loop.  [IOManager.v] is the registration table of
      [iomanager.cc] with [addEvent], [delEvent], [cancelEvent], [cancelAll]
      and the handling of a report; [IOManagerTheorems.v] its invariant under
      every interleaving; [IOLoop.v] one turn of [IOManager::idle], where
      timers, scheduler and table meet.
    - Hooked calls.  [Hook.v] is [hook.cc], each call cut where its fiber
      yields; [HookSystem.v] a worker that runs such calls, its timers, its
      queue and the reports of epoll; [HookWakeups.v] reads the table as a map
      from descriptors and events to fibers, [HookTheorems.v] is the invariant.
    - Generated machines.  [Ragel.v] says what code generated by ragel does
      (labels, ranges of characters, actions, [fbreak], the end of the text);
      [Http11Code.v], [HttpClientCode.v] and [UriCode.v] hold the labels of
      [http11_parser.rl.cc], [httpclient_parser.rl.cc] and [uri.rl.cc], one
      definition per stretch of the source, and [Http11.v],
      [HttpClientParser.v] and [Uri.v] the actions and functions around them.
    - HTTP.  [Http.v] is [http/http.h] and [http.cc]; [HttpParser.v] the parser
      objects and callbacks of [http_parser.cc]; [Stream.v] is [stream.cc] and
      [socket_stream.cc]; [HttpSession.v] is [http_session.cc];
      [HttpConnection.v] the receiving half of [http_connection.cc];
      [Servlet.v] is [servlet.cc]; [HttpServer.v] is [http_server.cc];
      [HttpLimits.v] the configured sizes of messages.
      [HttpWire.v] and [HttpClientWire.v] run the machines on printed messages,
      [HttpRoundtrip.v] and [HttpClientRoundtrip.v] state the results, and
      [UriTheorems.v] those on URIs.
    - Sockets.  [Socket.v] is [socket.cc] over the class [Net] of system calls;
      [HookNet.v] is the instance made of the hooked calls; [SocketTheorems.v]
      follows the descriptors; [TcpServer.v] is [tcp_server.cc], the sockets of
      a server shared with the tasks it schedules.
    - The HTTP client.  [HttpClient.v] is [DoGet], [DoPost], [DoRequest] of
      [http_connection.cc], [HttpPool.v] its connection pool.
    - [Address.v] is the part of [address.cc] that computes: masks, derived
      addresses, text, order, Unix paths, the splitting of a host;
      [Lookup.v] the part that asks the system: [Create], [Lookup],
      [GetInterfaceAddresses], and [Uri::createAddress].
    - Configuration.  [Config.v] is [config.h] and [config.cc] over the class
      [Config.Yaml] of what yaml-cpp does; [ConfigTheorems.v] the results.
    - Logging.  [LogFormat.v] has the levels, events and the loop that cuts a
      pattern into items, [LogPattern.v] its grammar; [Log.v] the appenders,
      loggers and their manager in heaps; [LogConfig.v] the definitions of
      loggers, their YAML text and the listener that applies them;
      [LogTheorems.v] the invariant and the effect of each operation,
      [LogResults.v] the results.
    - Threads and the process.  [Mutex.v] has the scoped locks over the class
      [Mutex.Lockable] with its laws, and read-write locks; [Thread.v] a thread
      and its maker; [Util.v], [Env.v] and [Daemon.v] are [util.cc], [env.cc]
      and [daemon.cc].

    A component sees another through its interface: streams are the class
    [Stream.Stream] with its laws, the system calls sockets use the class
    [Socket.Net] with its laws and the instance [HookNet.HookNet], the request machine the class
    [HttpParser.Machine] with the instance [Http11.http11_machine], and the
    scheduler, timers and table are joined only
    in [IOLoop.v].

    ** What the theorems show

    - Buffers: any sequence of writes, reads of at least one byte, seeks inside
      the data and clears refines a growable vector
      ([bytearray_refines_vector]); any sequence of fields
      reads back as written, for every block size and byte order
      ([bytearray_roundtrip]); the bytes are the documented wire format
      (lemma [write_field_wire_format]); filling write views is [write]
      (lemma [getWriteBuffers_scatter_is_write]); the lemmas
      [file_roundtrip] and [zigzag_domain] on files and on where zigzag
      overflows.
    - Timers: exactly the expired timers fire, in order
      ([listExpiredCb_exact]); the wait is the least one
      (lemma [getNextTimer_earliest]); over any interleaving a cancelled timer never
      fires, a one-shot timer fires at most once, and the calls are defined
      ([cancelled_never_fires], lemmas [one_shot_fires_once],
      [timer_calls_total]).
    - Scheduling: with clients that never schedule a pending fiber, no
      assertion fails and no stack is entered twice in any interleaving
      ([scheduler_safe]); the counters count ([scheduler_counters]), so
      [stopping] means quiescence; tasks are taken in order (lemma [pick_fifo]);
      when [Stop] returns no task is left ([stop_drains]).  The pointers that
      say which fiber is current are right ([fiber_switching]), and the
      switches through them are those of [Fiber.v] ([fibers_refine]).
    - Event loop: counter and slots agree with the registrations in every
      interleaving ([io_invariant]); a report hands out each waiting task once
      (lemma [process_event_exactly_once]); cancelling and stopping
      (lemmas [cancel_semantics], [io_stopping_quiescent]); a turn of [idle]
      schedules exactly the due callbacks and reported tasks
      ([idle_turn_delivers]); [get] keeps handing out one context per
      descriptor (lemma [fd_manager_get_stable]).
    - Hooked calls: in every run of a worker a waiting call is registered or
      queued, never both and never twice, and every next step is defined
      ([hook_wakeups]); from every reachable state a run of at most four steps
      ends a call with a timeout ([hook_times_out]); the lemmas beside them give the calls that miss a
      timeout, wrap it, or return too early.
    - HTTP: header maps refine finite maps on case-folded names
      ([header_map_refines]); printed messages read back
      (lemma [response_text_roundtrip]) and come back through the generated machines,
      the callbacks and the receiving loops ([request_wire_roundtrip],
      [response_wire_roundtrip], [chunked_response_decoded]), which end on every
      stream that ends ([recvResponse_terminates]); a received body is exactly the announced bytes however the stream cuts
      them, unless an exception ends it ([recvRequest_framed], lemma [readFixSize_exact]);
      dispatching after any registrations and removals ([dispatch_priority]) and a round of the server
      (lemma [server_round]); the sizes follow the configuration (lemma
      [sizes_follow_config]).
    - Sockets and servers: every operation acts on the descriptor its object
      owns and on no other ([frames]), so descriptors neither leak nor are
      closed twice over any number of sockets ([sockets_own_descriptors]), in
      every run of a server ([tcp_server_owns], [tcp_stop_closes]) and for all
      users of a connection pool ([pool_accounts], lemma [pool_reuses]); timeouts
      reach the hooked calls (lemma [socket_timeout_roundtrip]).
    - The HTTP client: the request it makes (lemma [client_request_text]), and that
      it never gets a response ([client_never_answered]).
    - URIs: printed URIs with names for user and host read back
      ([uri_text_roundtrip]); on every other text the mark is set where it is
      used, but for texts that may have an empty port
      ([uri_create_safe]).
    - Addresses: subnets (lemma [ipv4_subnet]), interfaces and their prefix lengths
      (lemma [interface_addresses]), the text of an
      IPv6 address and port ([ipv6_text_roundtrip]).
    - Configuration: loading a tree gives each variable the value its node
      says ([config_load]); containers survive their YAML text
      ([config_value_roundtrip]); listeners see every change
      (lemma [config_listener_follows]).
    - Logging: every use keeps loggers and appenders well formed, and its calls
      return while dates fit their buffers ([logging_safe]); accepted patterns are those of the grammar
      ([log_pattern]); an event reaches its appenders once ([log_delivered]);
      the loggers follow the configuration ([log_config_followed]), whose text
      loses some of it (lemma [log_defines_roundtrip]); a log file covers three
      seconds ([log_file_recent]).
    - Locks and threads: sections under a lock are single steps
      ([sections_atomic]), which is how the other files model them; readers see
      no change ([rw_exclusion]); a thread has taken over its callback when its
      constructor returns ([thread_hand_over]).
    - The process: which arguments are accepted ([env_arguments]), what is
      listed and removed ([file_utilities]); the lemmas [Mkdir_made] and
      [daemon_restarts].
    - Defects: the lemmas [unix_sockets_fault],
      [writeFixSize_never_succeeds], [concurrent_resize_loses_context],
      [terminated_fiber_rerun] and others named after races and off-by-one
      cases in the component files.

    ** Modelling choices

    - Concurrency: a section under a mutex, or an access to an atomic, is one
      step (by [sections_atomic] of [Mutex.v]); a thread is the program counter between steps; theorems quantify
      over all sequences of steps.  An operation that releases its lock midway
      is several steps.  A thread that only joins the scheduler in [stop]
      ([use_caller]) is a worker that takes no step before that; [SchedulerLife.v]
      has its steps.
    - Hooked calls run on one worker: between two switches a fiber runs alone,
      so a step is what a call does up to its next yield.  The fuel of
      [call_io] is the number of [EINTR] a call may meet in a row.
    - Shared objects ([Timer], [FdContext], [FdCtx], fibers, sockets of a
      server, pooled connections) live in heaps and
      are referred to by address, so aliasing is as in the code.
    - Integers are [Z] with their wrap-around written out where it matters;
      lengths and indices that cannot wrap are [nat].  Signed overflow, shifts
      out of range, null and out-of-range accesses are the error [UB].
    - Loops run on fuel where the recursion is not structural: the chain loops
      of [ByteArray] have the bytes left as fuel, [CountBytes] the 64 bits of
      its argument, the reading loops of [Stream.v] and [HttpSession.v] the
      length or the reads left.  Running out is the error [NoFuel], and
      the theorems state that the result is [Ok] or a real error, never that
      but for a system call that is interrupted for ever ([hook_wakeups]).
    - Memory: making an object succeeds, except a string whose size was read
      from a message or a buffer ([make_string]), which throws [length_error]
      beyond [max_size] and [bad_alloc] where [can_make] says so.
    - System calls ([epoll_ctl], [fcntl], [fstat], [recv], [send]),
      [getaddrinfo], [getifaddrs], [strerror], [boost::lexical_cast], yaml-cpp and [fnmatch] are parameters; the hypotheses on
      them are their documented behaviour, [strftime], which fails when a date
      does not fit, included.  Uninitialised memory holds arbitrary bytes.

    ** Not modelled

    [http11_parser.cc], which is [http11_parser.rl.cc] with other line
    directives; the saving of registers in [ucontext]; getters and wrappers of one system call. *)

From stdpp Require Import base list gmap strings.
From Stdlib Require Import ZArith Lia.

(** ** Outcomes of C++ code

    An operation either returns, throws a C++ exception, trips a
    [SYLAR_ASSERT], or runs into undefined behaviour.  The last three are
    values, so that theorems can state both that they do not happen and,
    for the inputs on which they do, that they happen. *)

Inductive exn :=
  | out_of_range
  | invalid_argument
  | logic_error
  | length_error
  | bad_alloc
  | bad_function_call.

Inductive ub :=
  | null_deref
  | index_oob
  | signed_overflow
  | bad_iterator
  | bad_shift
  | div_zero.

Inductive error :=
  | Throws (e : exn)
  | AssertFails
  | UB (u : ub)
  | NoFuel.

Inductive outcome (A : Type) :=
  | Ok (a : A)
  | Err (e : error).
Arguments Ok {A} a.
Arguments Err {A} e.

#[export] Instance exn_eq_dec : EqDecision exn.
Proof. solve_decision. Defined.
#[export] Instance ub_eq_dec : EqDecision ub.
Proof. solve_decision. Defined.
#[export] Instance error_eq_dec : EqDecision error.
Proof. solve_decision. Defined.
#[export] Instance outcome_eq_dec {A} `{EqDecision A} : EqDecision (outcome A).
Proof. solve_decision. Defined.

#[export] Instance outcome_ret : MRet outcome := fun _ a => Ok a.
#[export] Instance outcome_bind : MBind outcome := fun _ _ f m =>
  match m with Ok a => f a | Err e => Err e end.
Arguments outcome_bind _ _ _ !_ /.

Lemma bind_Ok {A B} (a : A) (f : A -> outcome B) : (Ok a ≫= f) = f a.
Proof. reflexivity. Qed.
Arguments outcome_ret _ _ /.

(** [assert b] is [SYLAR_ASSERT(b)]. *)
Definition assert (b : bool) : outcome unit :=
  if b then Ok tt else Err AssertFails.

(** Dereferencing a pointer or an iterator. *)
Definition deref {A} (u : ub) (o : option A) : outcome A :=
  match o with Some a => Ok a | None => Err (UB u) end.

Lemma deref_Some {A} u (a : A) : deref u (Some a) = Ok a.
Proof. reflexivity. Qed.

Lemma bind_ok {A B} (m : outcome A) (f : A -> outcome B) b :
  (m ≫= f) = Ok b <-> exists a, m = Ok a /\ f a = Ok b.
Proof.
  destruct m as [a|e]; simpl; split.
  - eauto.
  - intros (? & [= <-] & H); exact H.
  - discriminate.
  - intros (? & [=] & _).
Qed.

Lemma bind_assoc {A B C} (m : outcome A) (f : A -> outcome B) (g : B -> outcome C) :
  ((m ≫= f) ≫= g) = (m ≫= fun a => f a ≫= g).
Proof. by destruct m. Qed.

Lemma assert_ok b : assert b = Ok tt <-> b = true.
Proof. destruct b; split; done. Qed.

(** ** Memory

    [std::string::max_size], and whether a string of so many bytes can be
    made, for the code that sizes a string by a number it has read. *)

Definition max_size : Z := 2 ^ 63 - 1.
Class Memory := can_make : Z -> bool.

(** [resize(n)] of an empty string. *)
Definition make_string `{!Memory} (n : Z) : outcome unit :=
  if (max_size <? n)%Z then Err (Throws length_error)
  else if can_make n then Ok tt else Err (Throws bad_alloc).
Definition has_room `{!Memory} (n : Z) : Prop := (n <= max_size)%Z /\ can_make n = true.

(** Memory for a terabyte. *)
Definition plenty : Memory := fun n => (n <? 2 ^ 40)%Z.

Lemma make_string_cases `{!Memory} n :
  make_string n = Err (Throws length_error) \/ make_string n = Err (Throws bad_alloc) \/ make_string n = Ok tt.
Proof. unfold make_string. destruct (_ <? _)%Z; [|destruct (can_make n)]; auto. Qed.

Lemma make_string_room `{!Memory} n : has_room n -> make_string n = Ok tt.
Proof. intros [H1 H2]. unfold make_string. rewrite H2. by rewrite (proj2 (Z.ltb_ge _ _)). Qed.

(** ** Machine integers

    A C++ integer of width [w] is a [Z]; unsigned arithmetic wraps modulo
    [2^w], a conversion to a signed type wraps into the two's complement
    range, and signed arithmetic that leaves the range is undefined. *)

Definition wrapu (w z : Z) : Z := (z mod 2 ^ w)%Z.
Definition wraps (w z : Z) : Z := ((z + 2 ^ (w - 1)) mod 2 ^ w - 2 ^ (w - 1))%Z.

Definition u8 := wrapu 8.
Definition u16 := wrapu 16.
Definition u32 := wrapu 32.
Definition u64 := wrapu 64.
Definition i32 := wraps 32.
Definition i64 := wraps 64.

Definition in_u (w z : Z) : Prop := (0 <= z < 2 ^ w)%Z.
Definition in_s (w z : Z) : Prop := (- 2 ^ (w - 1) <= z < 2 ^ (w - 1))%Z.

#[export] Instance in_u_dec w z : Decision (in_u w z).
Proof. unfold in_u. apply _. Defined.
#[export] Instance in_s_dec w z : Decision (in_s w z).
Proof. unfold in_s. apply _. Defined.

(** The result of a signed computation of width [w]. *)
Definition sarith (w z : Z) : outcome Z :=
  if decide (in_s w z) then Ok z else Err (UB signed_overflow).

Lemma wrapu_small w z : in_u w z -> wrapu w z = z.
Proof. apply Z.mod_small. Qed.

Lemma wraps_small w z : (0 < w)%Z -> in_s w z -> wraps w z = z.
Proof.
  unfold in_s, wraps. intros Hw Hz.
  assert (2 ^ w = 2 * 2 ^ (w - 1))%Z as E.
  { rewrite <- Z.pow_succ_r by lia. f_equal. lia. }
  rewrite Z.mod_small; lia.
Qed.

Lemma wrapu_range w z : (0 <= w)%Z -> in_u w (wrapu w z).
Proof. intros. apply Z.mod_pos_bound. apply Z.pow_pos_nonneg; lia. Qed.

Lemma wrapu_wrapu w z : (0 <= w)%Z -> wrapu w (wrapu w z) = wrapu w z.
Proof. intros. by apply wrapu_small, wrapu_range. Qed.

Lemma i32_small z : in_s 32 z -> i32 z = z.
Proof. intros. by apply wraps_small. Qed.

Lemma wraps_wrapu w z : (0 < w)%Z -> wraps w (wrapu w z) = wraps w z.
Proof.
  intros. unfold wraps, wrapu.
  rewrite Z.add_mod_idemp_l; [done|]. apply Z.pow_nonzero; lia.
Qed.

Lemma wraps_range w z : (0 < w)%Z -> in_s w (wraps w z).
Proof.
  intros. unfold in_s, wraps.
  assert (2 ^ w = 2 * 2 ^ (w - 1))%Z as E by (rewrite <- Z.pow_succ_r by lia; f_equal; lia).
  pose proof (Z.mod_pos_bound (z + 2 ^ (w - 1)) (2 ^ w) ltac:(apply Z.pow_pos_nonneg; lia)). lia.
Qed.

Lemma sarith_small w z : in_s w z -> sarith w z = Ok z.
Proof. intros H. unfold sarith. by rewrite decide_True. Qed.

(** Checking a decidable property on an interval by evaluation. *)
Lemma interval_check (P : Z -> Prop) `{!forall z, Decision (P z)} lo n :
  bool_decide (Forall P (seqZ lo n)) = true -> forall z, (lo <= z < lo + n)%Z -> P z.
Proof.
  intros Hb z Hz. apply bool_decide_eq_true in Hb. rewrite Forall_forall in Hb.
  by apply Hb, elem_of_seqZ.
Qed.

(** ** Slices of lists *)

Section slices.
Context {A : Type}.
Implicit Types l b : list A.

(** [slice p n l] is [l[p .. p+n)]. *)
Definition slice (p n : nat) l : list A := take n (drop p l).

(** [splice p b l] overwrites [l[p .. p+length b)] with [b]
    ([memcpy (l + p, b, length b)]). *)
Definition splice (p : nat) b l : list A := take p l ++ b ++ drop (p + length b) l.

Lemma length_slice p n l : p + n <= length l -> length (slice p n l) = n.
Proof. intros. unfold slice. rewrite length_take, length_drop. lia. Qed.

Lemma length_splice p b l : p + length b <= length l -> length (splice p b l) = length l.
Proof.
  intros. unfold splice. rewrite !length_app, length_take, length_drop. lia.
Qed.

Lemma splice_nil p l : splice p [] l = l.
Proof. unfold splice. simpl. rewrite Nat.add_0_r. apply take_drop. Qed.

Lemma lookup_splice p b l i :
  p + length b <= length l ->
  splice p b l !! i =
    if decide (p <= i < p + length b) then b !! (i - p) else l !! i.
Proof.
  intros Hl. unfold splice.
  destruct (decide (i < p)) as [Hi|Hi].
  - rewrite decide_False by lia.
    rewrite lookup_app_l by (rewrite length_take; lia).
    by rewrite lookup_take_lt by lia.
  - rewrite lookup_app_r by (rewrite length_take; lia).
    rewrite length_take, Nat.min_l by lia.
    case_decide.
    + by rewrite lookup_app_l by lia.
    + rewrite lookup_app_r by lia. rewrite lookup_drop. f_equal. lia.
Qed.

Lemma lookup_slice p n l i :
  slice p n l !! i = if decide (i < n) then l !! (p + i) else None.
Proof.
  unfold slice. case_decide.
  - by rewrite lookup_take_lt, lookup_drop by lia.
  - by rewrite lookup_take_ge by lia.
Qed.

Lemma splice_splice p b1 b2 l :
  p <= length l -> splice (p + length b1) b2 (splice p b1 l) = splice p (b1 ++ b2) l.
Proof.
  intros Hl. unfold splice. rewrite length_app.
  assert (length (take p l) = p) as Ht by (rewrite length_take; lia).
  rewrite (app_assoc (take p l)).
  assert (length (take p l ++ b1) = p + length b1) as Hb by (rewrite length_app; lia).
  rewrite <- Hb, take_app_length, <- drop_drop, drop_app_length, drop_drop, Hb.
  by rewrite <- !app_assoc, Nat.add_assoc.
Qed.

Lemma length_splice_max p b l :
  p <= length l -> length (splice p b l) = length l `max` (p + length b).
Proof.
  intros. unfold splice. rewrite !length_app, length_take, length_drop. lia.
Qed.

Lemma slice_splice_eq' p b l :
  p <= length l -> slice p (length b) (splice p b l) = b.
Proof.
  intros. unfold slice, splice.
  assert (length (take p l) = p) as Ht by (rewrite length_take; lia).
  rewrite <- Ht at 1. by rewrite drop_app_length, take_app_length.
Qed.

Lemma slice_splice_eq p b l :
  p + length b <= length l -> slice p (length b) (splice p b l) = b.
Proof.
  intros Hl. apply list_eq; intros i. rewrite lookup_slice.
  case_decide.
  - rewrite lookup_splice by done. rewrite decide_True by lia. f_equal. lia.
  - symmetry. apply lookup_ge_None. lia.
Qed.

Lemma slice_splice_ne p b l q n :
  p + length b <= length l -> q + n <= p \/ p + length b <= q ->
  slice q n (splice p b l) = slice q n l.
Proof.
  intros Hl Hd. apply list_eq; intros i. rewrite !lookup_slice.
  case_decide; [|done]. rewrite lookup_splice by done.
  by rewrite decide_False by lia.
Qed.

Lemma slice_app_split p n m l : slice p (n + m) l = slice p n l ++ slice (p + n) m l.
Proof.
  unfold slice. rewrite <- drop_drop.
  generalize (drop p l) as k. intros k. revert n.
  induction k as [|x k IH]; intros n; [by destruct n, m|].
  destruct n; simpl; [done|]. by rewrite IH.
Qed.

Lemma slice_take p n q l : p + n <= q -> slice p n (take q l) = slice p n l.
Proof.
  intros. apply list_eq; intros i. rewrite !lookup_slice.
  case_decide; [|done]. by rewrite lookup_take_lt by lia.
Qed.

Lemma slice_app_l p n l k : p + n <= length l -> slice p n (l ++ k) = slice p n l.
Proof.
  intros. apply list_eq; intros i. rewrite !lookup_slice.
  case_decide; [|done]. by rewrite lookup_app_l by lia.
Qed.

Lemma take_splice p b l n :
  p <= n -> n <= length l -> p + length b <= length l ->
  take (n `max` (p + length b)) (splice p b l) = splice p b (take n l).
Proof.
  intros. unfold splice. rewrite take_take, Nat.min_l by lia.
  rewrite take_app_ge by (rewrite length_take; lia). f_equal.
  rewrite length_take, Nat.min_l by lia.
  rewrite take_app_ge by lia. f_equal. rewrite skipn_firstn_comm. f_equal. lia.
Qed.

Lemma drop_splice p b l : p <= length l -> drop p (splice p b l) = b ++ drop (p + length b) l.
Proof.
  intros. unfold splice. rewrite drop_app_ge by (rewrite length_take; lia).
  rewrite length_take, Nat.min_l by lia. by rewrite Nat.sub_diag, drop_0.
Qed.

(** The front of a list after a splice, split anywhere. *)
Lemma splice_front n p b l :
  n <= p + length b -> p <= length l ->
  take n (splice p b l) ++ slice n (p + length b - n) (splice p b l) = take p l ++ b.
Proof.
  intros Hn Ho. change (take n (splice p b l)) with (slice 0 n (splice p b l)).
  pose proof (slice_app_split 0 n (p + length b - n) (splice p b l)) as E. simpl in E.
  rewrite <- E. replace (n + (p + length b - n)) with (p + length b) by lia.
  unfold slice, splice. simpl. rewrite app_assoc. apply take_app_length'.
  rewrite length_app, length_take. lia.
Qed.

Lemma splice_whole b l : length b = length l -> splice 0 b l = b.
Proof. intros H. unfold splice. simpl. rewrite drop_ge by lia. apply app_nil_r. Qed.

Lemma splice_fill a b l :
  length l = length a + length b -> splice (length a) b (splice 0 a l) = a ++ b.
Proof.
  intros H. unfold splice at 1. unfold splice at 1. simpl. rewrite take_app_length.
  f_equal. rewrite drop_ge; [apply app_nil_r|].
  unfold splice. simpl. rewrite length_app, length_drop. lia.
Qed.

Lemma slice_all l : slice 0 (length l) l = l.
Proof. unfold slice. rewrite drop_0. apply take_ge. lia. Qed.

Lemma slice_0 p l : slice p 0 l = [].
Proof. done. Qed.

Lemma splice_app_l p b l k :
  p + length b <= length l -> splice p b (l ++ k) = splice p b l ++ k.
Proof.
  intros. unfold splice.
  rewrite take_app_le, drop_app_le by lia. by rewrite <- !app_assoc.
Qed.
End slices.

#[global] Arguments slice : simpl never.
#[global] Arguments splice : simpl never.

Lemma filter_id {A} (P : A -> Prop) `{!forall x, Decision (P x)} (l : list A) :
  Forall P l -> filter P l = l.
Proof. induction 1 as [|x l Hx Hl IH]; [done|]. by rewrite filter_cons_True, IH. Qed.

Lemma filter_none {A} (P : A -> Prop) `{!forall x, Decision (P x)} (l : list A) :
  Forall (fun x => ~ P x) l -> filter P l = [].
Proof. induction 1 as [|x l Hx Hl IH]; [done|]. by rewrite filter_cons_False. Qed.

(** ** Blocks of equal length *)

Section blocks.
Context {A : Type} (k : nat).
Implicit Types ls : list (list A).

Definition uniform ls : Prop := Forall (fun n => length n = k) ls.

Lemma length_concat_uniform ls : uniform ls -> length (concat ls) = length ls * k.
Proof.
  induction 1 as [|x ls Hx Hls IH]; simpl; [done|].
  rewrite length_app, IH, Hx. lia.
Qed.

Lemma uniform_take n ls : uniform ls -> uniform (take n ls).
Proof. apply Forall_take. Qed.

Lemma uniform_app ls1 ls2 : uniform ls1 -> uniform ls2 -> uniform (ls1 ++ ls2).
Proof. by apply Forall_app_2. Qed.

Lemma uniform_insert ls i x : uniform ls -> length x = k -> uniform (<[i:=x]> ls).
Proof. intros. by apply Forall_insert. Qed.

Lemma uniform_lookup ls i x : uniform ls -> ls !! i = Some x -> length x = k.
Proof. intros H1 H2. by eapply Forall_lookup_1 in H1. Qed.

Lemma concat_middle ls i x :
  ls !! i = Some x ->
  concat ls = concat (take i ls) ++ x ++ concat (drop (S i) ls).
Proof.
  intros H. rewrite <- (take_drop_middle ls i x H) at 1.
  by rewrite concat_app.
Qed.

Lemma length_concat_take ls i :
  uniform ls -> i <= length ls -> length (concat (take i ls)) = i * k.
Proof.
  intros. rewrite length_concat_uniform by by apply uniform_take.
  rewrite length_take. by rewrite Nat.min_l by lia.
Qed.

(** Writing inside one block is writing in the concatenation. *)
Lemma concat_insert_splice ls i x p b :
  uniform ls -> ls !! i = Some x -> p + length b <= k ->
  concat (<[i := splice p b x]> ls) = splice (i * k + p) b (concat ls).
Proof.
  intros Hu Hi Hp.
  assert (i < length ls) by by eapply lookup_lt_Some.
  pose proof (uniform_lookup _ _ _ Hu Hi) as Hx.
  pose proof (length_concat_take ls i Hu ltac:(lia)) as Ht.
  rewrite (concat_middle ls i x Hi).
  rewrite (concat_middle (<[i:=splice p b x]> ls) i (splice p b x))
    by (apply list_lookup_insert_eq; lia).
  rewrite take_insert_ge by lia. rewrite drop_insert_lt by lia.
  unfold splice at 2.
  rewrite take_app_ge by lia. rewrite drop_app_ge by lia.
  rewrite Ht. replace (i * k + p - i * k) with p by lia.
  replace (i * k + p + length b - i * k) with (p + length b) by lia.
  rewrite take_app_le, drop_app_le by lia.
  unfold splice. by rewrite <- !app_assoc.
Qed.

(** Reading inside one block is reading in the concatenation. *)
Lemma concat_slice ls i x p n :
  uniform ls -> ls !! i = Some x -> p + n <= k ->
  slice p n x = slice (i * k + p) n (concat ls).
Proof.
  intros Hu Hi Hp.
  assert (i < length ls) by by eapply lookup_lt_Some.
  pose proof (uniform_lookup _ _ _ Hu Hi) as Hx.
  pose proof (length_concat_take ls i Hu ltac:(lia)) as Ht.
  rewrite (concat_middle ls i x Hi).
  unfold slice. rewrite drop_app_ge by lia.
  rewrite Ht. replace (i * k + p - i * k) with p by lia.
  rewrite drop_app_le by lia. rewrite take_app_le; [done|].
  rewrite length_drop. lia.
Qed.
End blocks.

(** ** Automation

    [outcomes] opens the successful runs in the context, one bind at a time. *)

Ltac outcomes :=
  repeat match goal with
  | H : (_ ≫= _) = Ok _ |- _ => apply bind_ok in H as (? & ? & H)
  | H : Ok _ = Ok _ |- _ => injection H as H; subst
  | H : Err _ = Ok _ |- _ => discriminate H
  | H : assert _ = Ok _ |- _ => apply assert_ok in H
  | H : (if ?b then _ else _) = Ok _ |- _ => destruct b eqn:?
  end.

Create HintDb sylar.
#[export] Hint Resolve uniform_take uniform_app uniform_insert : sylar.
Create Rewrite HintDb sylar_len.
#[export] Hint Rewrite @length_splice @length_slice using lia : sylar_len.
