(* ===== verification/Endian.v ===== *)
(** * Byte order: [sylar/endian.h] and the object representation of integers

    A C++ integer type is described by its size and signedness.  [byteswap]
    is the overloaded template of [endian.h]; [SYLAR_BYTE_ORDER] is the
    parameter [host], so every statement holds on both kinds of machine. *)

From stdpp Require Import base list.
From Stdlib Require Import ZArith Lia.
From S2P Require Import Prelude.

Local Open Scope Z_scope.

(** ** Integer types *)

Record ctype := CType { ct_size : nat; ct_signed : bool }.

Definition int8_t := CType 1 true.
Definition uint8_t := CType 1 false.
Definition int16_t := CType 2 true.
Definition uint16_t := CType 2 false.
Definition int32_t := CType 4 true.
Definition uint32_t := CType 4 false.
Definition int64_t := CType 8 true.
Definition uint64_t := CType 8 false.

Definition ct_width (T : ctype) : Z := 8 * Z.of_nat (ct_size T).

(** Conversion of an integer to type [T]. *)
Definition cast (T : ctype) (z : Z) : Z :=
  if ct_signed T then wraps (ct_width T) z else wrapu (ct_width T) z.

Definition in_ctype (T : ctype) (z : Z) : Prop :=
  if ct_signed T then in_s (ct_width T) z else in_u (ct_width T) z.

#[export] Instance in_ctype_dec T z : Decision (in_ctype T z).
Proof. unfold in_ctype. destruct (ct_signed T); apply _. Defined.

Definition is_byte (b : Z) : Prop := in_u 8 b.

(** ** Little-endian digits *)

Fixpoint le_bytes (n : nat) (z : Z) : list Z :=
  match n with
  | O => []
  | S n => z mod 256 :: le_bytes n (z / 256)
  end.

Fixpoint le_value (l : list Z) : Z :=
  match l with
  | [] => 0
  | b :: l => b + 256 * le_value l
  end.

(** [bswap_16], [bswap_32], [bswap_64] of <byteswap.h>: reverse the bytes. *)
Definition bswap (n : nat) (z : Z) : Z := le_value (rev (le_bytes n z)).

(** ** [sylar::byteswap] *)

Definition byteswap (T : ctype) (v : Z) : Z :=
  cast T (bswap (ct_size T) (wrapu (ct_width T) v)).

(** [SYLAR_LITTLE_ENDIAN] and [SYLAR_BIG_ENDIAN]. *)
Inductive endian := SYLAR_LITTLE_ENDIAN | SYLAR_BIG_ENDIAN.

#[export] Instance endian_eq_dec : EqDecision endian.
Proof. solve_decision. Defined.

Definition byteswapOnLittleEndian (host : endian) (T : ctype) (t : Z) : Z :=
  match host with SYLAR_BIG_ENDIAN => t | SYLAR_LITTLE_ENDIAN => byteswap T t end.

Definition byteswapOnBigEndian (host : endian) (T : ctype) (t : Z) : Z :=
  match host with SYLAR_BIG_ENDIAN => byteswap T t | SYLAR_LITTLE_ENDIAN => t end.

(** ** Object representation: what [memcpy(&value)] sees *)

Definition obj_bytes (host : endian) (T : ctype) (v : Z) : list Z :=
  let l := le_bytes (ct_size T) (wrapu (ct_width T) v) in
  match host with SYLAR_LITTLE_ENDIAN => l | SYLAR_BIG_ENDIAN => rev l end.

Definition of_obj_bytes (host : endian) (T : ctype) (l : list Z) : Z :=
  cast T (le_value (match host with SYLAR_LITTLE_ENDIAN => l | SYLAR_BIG_ENDIAN => rev l end)).

(** The bytes of [v] on the wire, in byte order [e]. *)
Definition wire (e : endian) (T : ctype) (v : Z) : list Z := obj_bytes e T v.

(** ** Facts *)

Lemma length_le_bytes n z : length (le_bytes n z) = n.
Proof. revert z; induction n; intros; simpl; auto. Qed.

Lemma le_bytes_is_byte n z : Forall is_byte (le_bytes n z).
Proof.
  revert z; induction n as [|n IH]; intros z; simpl; constructor; auto.
  unfold is_byte, in_u. apply Z.mod_pos_bound. lia.
Qed.

Lemma pow256_succ n : 256 ^ Z.of_nat (S n) = 256 * 256 ^ Z.of_nat n.
Proof. rewrite Nat2Z.inj_succ, Z.pow_succ_r by lia. done. Qed.

Lemma le_value_le_bytes n z : le_value (le_bytes n z) = z mod 256 ^ Z.of_nat n.
Proof.
  revert z; induction n as [|n IH]; intros z.
  - simpl. by rewrite Z.mod_1_r.
  - rewrite pow256_succ. simpl. rewrite IH.
    rewrite Z.rem_mul_r by (try apply Z.pow_pos_nonneg; lia). lia.
Qed.

Lemma le_bytes_le_value l : Forall is_byte l -> le_bytes (length l) (le_value l) = l.
Proof.
  induction 1 as [|b l Hb Hl IH]; simpl; [done|].
  unfold is_byte, in_u in Hb. change (2 ^ 8) with 256 in Hb.
  replace (b + 256 * le_value l) with (b + le_value l * 256) by lia.
  rewrite Z.mod_add, Z.div_add, Z.mod_small, Z.div_small by lia.
  f_equal. by rewrite Z.add_0_l.
Qed.

Lemma le_value_range l : Forall is_byte l -> 0 <= le_value l < 256 ^ Z.of_nat (length l).
Proof.
  intros H. rewrite <- (le_bytes_le_value l H) at 1 2.
  rewrite le_value_le_bytes. apply Z.mod_pos_bound, Z.pow_pos_nonneg; lia.
Qed.

Lemma pow_width T : 2 ^ ct_width T = 256 ^ Z.of_nat (ct_size T).
Proof. unfold ct_width. by rewrite Z.pow_mul_r by lia. Qed.

Lemma cast_wrapu T v : (0 < ct_size T)%nat -> cast T (wrapu (ct_width T) v) = cast T v.
Proof.
  intros. unfold cast. assert (0 < ct_width T) by (unfold ct_width; lia).
  destruct (ct_signed T); [apply wraps_wrapu | apply wrapu_wrapu]; lia.
Qed.

Lemma cast_small T v : (0 < ct_size T)%nat -> in_ctype T v -> cast T v = v.
Proof.
  intros. unfold cast, in_ctype in *. assert (0 < ct_width T) by (unfold ct_width; lia).
  destruct (ct_signed T); [by apply wraps_small | by apply wrapu_small].
Qed.

Lemma wrapu_cast T v : (0 < ct_size T)%nat -> wrapu (ct_width T) (cast T v) = wrapu (ct_width T) v.
Proof.
  intros. unfold cast. assert (0 < ct_width T) by (unfold ct_width; lia).
  destruct (ct_signed T); [|apply wrapu_wrapu; lia].
  unfold wraps, wrapu. rewrite Zminus_mod_idemp_l. f_equal. lia.
Qed.

Lemma length_obj_bytes host T v : length (obj_bytes host T v) = ct_size T.
Proof. destruct host; unfold obj_bytes; rewrite ?length_rev; apply length_le_bytes. Qed.

Lemma obj_bytes_is_byte host T v : Forall is_byte (obj_bytes host T v).
Proof. destruct host; unfold obj_bytes; [|apply Forall_rev]; apply le_bytes_is_byte. Qed.

Lemma of_obj_bytes_obj_bytes host T v :
  (0 < ct_size T)%nat -> of_obj_bytes host T (obj_bytes host T v) = cast T v.
Proof.
  intros HT. unfold of_obj_bytes, obj_bytes.
  assert (le_value (le_bytes (ct_size T) (wrapu (ct_width T) v)) = wrapu (ct_width T) v) as E.
  { rewrite le_value_le_bytes, <- pow_width. apply wrapu_wrapu. unfold ct_width; lia. }
  destruct host; [|rewrite rev_involutive]; rewrite E; by apply cast_wrapu.
Qed.

(** The bytes of a swapped value are the bytes of the value, reversed. *)
Lemma le_bytes_byteswap T v :
  (0 < ct_size T)%nat ->
  le_bytes (ct_size T) (wrapu (ct_width T) (byteswap T v)) =
  rev (le_bytes (ct_size T) (wrapu (ct_width T) v)).
Proof.
  intros HT. unfold byteswap. rewrite wrapu_cast by done. unfold bswap.
  set (l := rev (le_bytes (ct_size T) (wrapu (ct_width T) v))).
  assert (Forall is_byte l) as Hl by (subst l; apply Forall_rev, le_bytes_is_byte).
  assert (length l = ct_size T) as Hn by (subst l; rewrite length_rev; apply length_le_bytes).
  rewrite wrapu_small.
  - rewrite <- Hn. by apply le_bytes_le_value.
  - unfold in_u. rewrite pow_width, <- Hn. by apply le_value_range.
Qed.

Lemma byteswap_range T v : (0 < ct_size T)%nat -> in_ctype T (byteswap T v).
Proof.
  intros HT. unfold byteswap, cast, in_ctype.
  assert (0 < ct_width T) by (unfold ct_width; lia).
  destruct (ct_signed T); [|apply wrapu_range; lia].
  unfold wraps, in_s.
  assert (2 ^ ct_width T = 2 * 2 ^ (ct_width T - 1)) as E.
  { rewrite <- Z.pow_succ_r by lia. f_equal. lia. }
  pose proof (Z.mod_pos_bound (bswap (ct_size T) (wrapu (ct_width T) v) + 2 ^ (ct_width T - 1))
    (2 ^ ct_width T) ltac:(apply Z.pow_pos_nonneg; lia)). lia.
Qed.

(** Swapping when the byte orders differ produces the wire order, whatever
    the host. *)
Lemma obj_bytes_swapped host e T v :
  (0 < ct_size T)%nat ->
  obj_bytes host T (if decide (e = host) then v else byteswap T v) = wire e T v.
Proof.
  intros HT. unfold wire, obj_bytes.
  case_decide as E; [by subst|].
  rewrite (le_bytes_byteswap T v HT).
  destruct host, e; try done. by rewrite rev_involutive.
Qed.

Lemma byteswap_involutive T v :
  (0 < ct_size T)%nat -> in_ctype T v -> byteswap T (byteswap T v) = v.
Proof.
  intros HT Hv.
  assert (forall a b, in_ctype T a -> in_ctype T b ->
    le_bytes (ct_size T) (wrapu (ct_width T) a) = le_bytes (ct_size T) (wrapu (ct_width T) b) ->
    a = b) as Hinj.
  { intros a b Ha Hb E.
    rewrite <- (cast_small T a), <- (cast_small T b) by done.
    rewrite <- (of_obj_bytes_obj_bytes SYLAR_LITTLE_ENDIAN T a),
      <- (of_obj_bytes_obj_bytes SYLAR_LITTLE_ENDIAN T b) by done.
    unfold obj_bytes. by rewrite E. }
  apply Hinj; [by apply byteswap_range|done|].
  by rewrite !le_bytes_byteswap, rev_involutive by done.
Qed.

(** ** Swapping commutes with bitwise operations *)

(** An operation that acts on each bit alone, and keeps zero. *)
Definition bitwise (op : Z -> Z -> Z) : Prop :=
  exists f, f false false = false
    /\ forall x y n, 0 <= n -> Z.testbit (op x y) n = f (Z.testbit x n) (Z.testbit y n).

Lemma bitwise_lor : bitwise Z.lor.
Proof. exists orb. split; [done|]. intros. apply Z.lor_spec. Qed.
Lemma bitwise_land : bitwise Z.land.
Proof. exists andb. split; [done|]. intros. apply Z.land_spec. Qed.
Lemma bitwise_lxor : bitwise Z.lxor.
Proof. exists xorb. split; [done|]. intros. apply Z.lxor_spec. Qed.

Section bitwise.
Context (op : Z -> Z -> Z) (Hop : bitwise op).

Lemma bitwise_mod k x y : 0 <= k -> op x y mod 2 ^ k = op (x mod 2 ^ k) (y mod 2 ^ k).
Proof using Hop.
  intros Hk. destruct Hop as (f & Hf & Hb). apply Z.bits_inj'. intros n Hn.
  destruct (Z.ltb_spec n k).
  - by rewrite Z.mod_pow2_bits_low, !Hb, !Z.mod_pow2_bits_low by lia.
  - by rewrite Z.mod_pow2_bits_high, Hb, !Z.mod_pow2_bits_high by lia.
Qed.

Lemma bitwise_div k x y : 0 <= k -> op x y / 2 ^ k = op (x / 2 ^ k) (y / 2 ^ k).
Proof using Hop.
  intros Hk. destruct Hop as (f & Hf & Hb). apply Z.bits_inj'. intros n Hn.
  by rewrite Z.div_pow2_bits, !Hb, !Z.div_pow2_bits by lia.
Qed.

Lemma bitwise_range w x y : 0 <= w -> in_u w x -> in_u w y -> in_u w (op x y).
Proof using Hop.
  intros Hw Hx Hy. rewrite <- (wrapu_small w x), <- (wrapu_small w y) by done.
  unfold wrapu. rewrite <- bitwise_mod by done. apply wrapu_range. done.
Qed.

Lemma le_bytes_bitwise n x y :
  le_bytes n (op x y) = zip_with op (le_bytes n x) (le_bytes n y).
Proof using Hop.
  revert x y. induction n as [|n IH]; intros x y; [done|]. simpl.
  change 256 with (2 ^ 8). rewrite bitwise_mod, bitwise_div by lia. by rewrite IH.
Qed.

Lemma rev_zip_with l1 l2 :
  length l1 = length l2 -> rev (zip_with op l1 l2) = zip_with op (rev l1) (rev l2).
Proof using.
  revert l2. induction l1 as [|a l1 IH]; intros [|b l2] H; try done. injection H as H. simpl.
  rewrite IH, zip_with_app by (rewrite ?length_rev; done). done.
Qed.

Lemma le_value_bitwise l1 l2 :
  length l1 = length l2 -> Forall is_byte l1 -> Forall is_byte l2 ->
  le_value (zip_with op l1 l2) = op (le_value l1) (le_value l2).
Proof using Hop.
  intros Hl H1 H2. pose proof (le_value_range l1 H1) as R1. pose proof (le_value_range l2 H2) as R2.
  rewrite <- Hl in R2. replace (256 ^ Z.of_nat (length l1)) with (2 ^ (8 * Z.of_nat (length l1))) in R1, R2
    by (by rewrite Z.pow_mul_r by lia).
  rewrite <- (le_bytes_le_value l1 H1) at 1. rewrite <- (le_bytes_le_value l2 H2) at 1.
  rewrite <- Hl, <- le_bytes_bitwise, le_value_le_bytes.
  replace (256 ^ Z.of_nat (length l1)) with (2 ^ (8 * Z.of_nat (length l1)))
    by (by rewrite Z.pow_mul_r by lia).
  apply wrapu_small, bitwise_range; [lia|done|done].
Qed.

(** For an unsigned type. *)
Lemma byteswap_bitwise T x y :
  ct_signed T = false -> in_ctype T x -> in_ctype T y -> byteswap T (op x y) = op (byteswap T x) (byteswap T y).
Proof using Hop.
  intros HT Hx Hy. unfold byteswap, cast, bswap, in_ctype in *. rewrite HT in *.
  assert (0 <= ct_width T) as Hw by (unfold ct_width; lia).
  rewrite (wrapu_small _ (op x y)), (wrapu_small _ x), (wrapu_small _ y)
    by (done || by apply bitwise_range).
  rewrite le_bytes_bitwise, rev_zip_with, le_value_bitwise
    by (rewrite ?length_rev, ?length_le_bytes; auto using Forall_rev, le_bytes_is_byte).
  unfold wrapu. by apply bitwise_mod.
Qed.

(** Storing both operands in network order. *)
Lemma net_bitwise host T x y :
  (0 < ct_size T)%nat -> ct_signed T = false -> in_ctype T x -> in_ctype T y ->
  byteswapOnLittleEndian host T
    (op (byteswapOnLittleEndian host T x) (byteswapOnLittleEndian host T y)) = op x y.
Proof using Hop.
  intros Hn HT Hx Hy. destruct host; [|done]. simpl.
  rewrite byteswap_bitwise by (done || by apply byteswap_range). by rewrite !byteswap_involutive.
Qed.
End bitwise.

Lemma net_involutive host T x :
  (0 < ct_size T)%nat -> in_ctype T x ->
  byteswapOnLittleEndian host T (byteswapOnLittleEndian host T x) = x.
Proof. intros. destruct host; [by apply byteswap_involutive|done]. Qed.

#[export] Hint Resolve obj_bytes_is_byte le_bytes_is_byte : sylar.
#[export] Hint Rewrite length_obj_bytes length_le_bytes : sylar_len.
