(* ===== verification/Varint.v ===== *)
(** * Variable-length integers: the zigzag and base-128 codecs of
      [sylar/bytearray.cc]

    The encoders are the loops of [writeUint32]/[writeUint64] (their result
    is the array [tmp] that is then written), the decoders the loops of
    [readUint32]/[readUint64] over an arbitrary byte source. *)

From stdpp Require Import base list.
From Stdlib Require Import ZArith Lia.
From S2P Require Import Prelude Endian.

Local Open Scope Z_scope.

(** ** Zigzag *)

(** [EncodeZigzag32] ([w = 32]) and [EncodeZigzag64] ([w = 64]).  The
    negation and the doubling are signed computations of width [w]. *)
Definition EncodeZigzag (w v : Z) : outcome Z :=
  if v <? 0 then
    n ← sarith w (- v);
    Ok (wrapu w (wrapu w (wrapu w n * 2) - 1))
  else
    d ← sarith w (v * 2);
    Ok (wrapu w d).

Definition DecodeZigzag (w v : Z) : Z :=
  wraps w (Z.lxor (Z.shiftr v 1) (wrapu w (- Z.land v 1))).

Definition EncodeZigzag32 := EncodeZigzag 32.
Definition EncodeZigzag64 := EncodeZigzag 64.
Definition DecodeZigzag32 := DecodeZigzag 32.
Definition DecodeZigzag64 := DecodeZigzag 64.

(** ** Base-128 digits *)

(** The loop of [writeUint32] ([room = 5]) and [writeUint64] ([room = 10]):
    [room] is what is left of the array [tmp], and storing past its end is
    undefined. *)
Fixpoint encode_varint (room : nat) (value : Z) : outcome (list Z) :=
  match room with
  | O => Err (UB index_oob)
  | S room =>
      if 0x80 <=? value then
        tmp ← encode_varint room (Z.shiftr value 7);
        Ok (Z.lor (Z.land value 0x7F) 0x80 :: tmp)
      else Ok [value]
  end.

Definition varint_tmp32 (value : Z) := encode_varint 5 value.
Definition varint_tmp64 (value : Z) := encode_varint 10 value.

(** The loop of [readUint32]/[readUint64]; [iters] is the number of
    iterations [for (i = 0; i < w; i += 7)] still makes. *)
Fixpoint decode_varint {St} (rd : St -> outcome (Z * St)) (w : Z)
    (iters : nat) (i result : Z) (s : St) : outcome (Z * St) :=
  match iters with
  | O => Ok (result, s)
  | S iters =>
      '(b, s) ← rd s;
      if b <? 0x80 then
        Ok (Z.lor result (wrapu w (Z.shiftl b i)), s)
      else
        decode_varint rd w iters (i + 7)
          (Z.lor result (wrapu w (Z.shiftl (Z.land b 0x7f) i))) s
  end.

Definition varint_iters (w : Z) : nat := Z.to_nat ((w + 6) / 7).

(** ** Bit facts *)

Lemma land_shiftl_small a b i : 0 <= i -> in_u i a -> Z.land a (Z.shiftl b i) = 0.
Proof.
  intros Hi Ha. apply Z.bits_inj'. intros n Hn.
  rewrite Z.land_spec, Z.bits_0.
  destruct (Z.ltb_spec n i).
  - rewrite Z.shiftl_spec_low by lia. by rewrite andb_false_r.
  - replace a with (a mod 2 ^ i) by (by apply Z.mod_small).
    by rewrite Z.mod_pow2_bits_high by lia.
Qed.

Lemma lor_shiftl_add a b i :
  0 <= i -> in_u i a -> Z.lor a (Z.shiftl b i) = a + b * 2 ^ i.
Proof.
  intros Hi Ha. pose proof (Z.add_lor_land a (Z.shiftl b i)) as H.
  rewrite (land_shiftl_small a b i Hi Ha), Z.add_0_r in H.
  by rewrite H, Z.shiftl_mul_pow2.
Qed.

Lemma lxor_ones_small w a : 0 <= w -> in_u w a -> Z.lxor a (2 ^ w - 1) = 2 ^ w - 1 - a.
Proof.
  intros Hw Ha. replace (2 ^ w - 1) with (Z.ones w) by (rewrite Z.ones_equiv; lia).
  assert (Z.land a (Z.ones w) = a) as Hl.
  { rewrite Z.land_ones by done. by apply Z.mod_small. }
  assert (Z.lxor a (Z.ones w) = Z.ldiff (Z.ones w) a) as ->.
  { apply Z.bits_inj'. intros n Hn. rewrite Z.lxor_spec, Z.ldiff_spec.
    assert (Z.testbit a n = Z.testbit a n && Z.testbit (Z.ones w) n) as E
      by (rewrite <- Z.land_spec; by rewrite Hl).
    rewrite E. destruct (Z.testbit a n), (Z.testbit (Z.ones w) n); done. }
  rewrite <- Hl at 2. symmetry. rewrite Z.land_comm. 
  rewrite Z.sub_nocarry_ldiff.
  - apply Z.bits_inj'. intros n Hn. rewrite !Z.ldiff_spec, Z.land_spec.
    destruct (Z.testbit (Z.ones w) n), (Z.testbit a n); done.
  - apply Z.bits_inj'. intros n Hn. rewrite Z.ldiff_spec, Z.land_spec, Z.bits_0.
    destruct (Z.testbit (Z.ones w) n), (Z.testbit a n); done.
Qed.

Lemma land_127 v : Z.land v 0x7F = v mod 128.
Proof. change 0x7F with (Z.ones 7). by rewrite Z.land_ones by lia. Qed.

Lemma land_1 v : Z.land v 1 = v mod 2.
Proof. change 1 with (Z.ones 1). by rewrite Z.land_ones by lia. Qed.

Lemma lor_128 v : Z.lor (Z.land v 0x7F) 0x80 = v mod 128 + 128.
Proof.
  rewrite land_127. change 0x80 with (Z.shiftl 1 7).
  rewrite lor_shiftl_add; [done|lia|]. unfold in_u. apply Z.mod_pos_bound. lia.
Qed.

(** ** Zigzag round trip *)

(** The signed values both computations of the encoder stay in range for. *)
Definition zigzag_safe (w v : Z) : Prop := - 2 ^ (w - 1) < v < 2 ^ (w - 2).

#[export] Instance zigzag_safe_dec w v : Decision (zigzag_safe w v).
Proof. unfold zigzag_safe. apply _. Defined.

Lemma pow_pred w : 2 <= w -> 2 ^ w = 4 * 2 ^ (w - 2) /\ 2 ^ (w - 1) = 2 * 2 ^ (w - 2).
Proof.
  intros. split.
  - replace w with (2 + (w - 2)) at 1 by lia. by rewrite Z.pow_add_r by lia.
  - replace (w - 1) with (1 + (w - 2)) by lia. by rewrite Z.pow_add_r by lia.
Qed.

Lemma EncodeZigzag_spec w v :
  2 <= w -> zigzag_safe w v ->
  EncodeZigzag w v = Ok (if v <? 0 then - 2 * v - 1 else 2 * v).
Proof.
  unfold zigzag_safe, EncodeZigzag, sarith. intros Hw Hv.
  destruct (pow_pred w Hw) as [E1 E2].
  assert (0 < 2 ^ (w - 2)) by (apply Z.pow_pos_nonneg; lia).
  destruct (Z.ltb_spec v 0).
  - rewrite decide_True by (unfold in_s; lia). simpl. f_equal.
    rewrite (wrapu_small w (- v)) by (unfold in_u; lia).
    rewrite (wrapu_small w (- v * 2)) by (unfold in_u; lia).
    rewrite wrapu_small by (unfold in_u; lia). lia.
  - rewrite decide_True by (unfold in_s; lia). simpl. f_equal.
    rewrite wrapu_small by (unfold in_u; lia). lia.
Qed.

Lemma EncodeZigzag_unsafe w v :
  2 <= w -> in_s w v -> ~ zigzag_safe w v ->
  EncodeZigzag w v = Err (UB signed_overflow).
Proof.
  unfold zigzag_safe, EncodeZigzag, sarith, in_s. intros Hw Hv Hu.
  destruct (pow_pred w Hw) as [E1 E2].
  assert (0 < 2 ^ (w - 2)) by (apply Z.pow_pos_nonneg; lia).
  destruct (Z.ltb_spec v 0); by rewrite decide_False by lia.
Qed.

Lemma EncodeZigzag_range w v e :
  2 <= w -> zigzag_safe w v -> EncodeZigzag w v = Ok e -> in_u w e.
Proof.
  intros Hw Hv He. rewrite EncodeZigzag_spec in He by done. injection He as <-.
  destruct (pow_pred w Hw). unfold zigzag_safe, in_u in *.
  destruct (Z.ltb_spec v 0); lia.
Qed.

Lemma DecodeZigzag_EncodeZigzag w v e :
  2 <= w -> zigzag_safe w v -> EncodeZigzag w v = Ok e -> DecodeZigzag w e = v.
Proof.
  intros Hw Hv He. rewrite EncodeZigzag_spec in He by done. injection He as <-.
  destruct (pow_pred w Hw) as [E1 E2]. unfold zigzag_safe in Hv. unfold DecodeZigzag.
  assert (0 < 2 ^ (w - 2)) by (apply Z.pow_pos_nonneg; lia).
  rewrite Z.shiftr_div_pow2, land_1 by lia. change (2 ^ 1) with 2.
  destruct (Z.ltb_spec v 0).
  - replace (- 2 * v - 1) with (1 + (- v - 1) * 2) by lia.
    rewrite Z.div_add, Z.mod_add by lia. change (1 / 2) with 0. change (- (1 mod 2)) with (-1).
    replace (wrapu w (-1)) with (2 ^ w - 1).
    + rewrite lxor_ones_small by (unfold in_u; lia).
      unfold wraps. replace (2 ^ w - 1 - (0 + (- v - 1)) + 2 ^ (w - 1))
        with (v + 2 ^ (w - 1) + 1 * 2 ^ w) by lia.
      rewrite Z.mod_add by lia. rewrite Z.mod_small; lia.
    + unfold wrapu. apply Z.mod_unique with (q := -1); lia.
  - rewrite Z.mul_comm, Z.div_mul, Z.mod_mul by lia.
    change (wrapu w (- 0)) with (0 mod 2 ^ w). rewrite Z.mod_0_l, Z.lxor_0_r by lia.
    apply wraps_small; unfold in_s; lia.
Qed.

(** ** Base-128 round trip *)

Lemma encode_varint_total room v :
  in_u (7 * Z.of_nat room) v -> (0 < room)%nat ->
  exists l, encode_varint room v = Ok l /\ (0 < length l <= room)%nat /\ Forall is_byte l.
Proof.
  revert v. induction room as [|room IH]; intros v Hv Hr; [lia|].
  unfold in_u in Hv. cbn [encode_varint]. destruct (Z.leb_spec 0x80 v) as [H|H].
  - rewrite Z.shiftr_div_pow2 by lia. change (2 ^ 7) with 128.
    assert (0 <= v / 128 < 2 ^ (7 * Z.of_nat room)) as Hd.
    { split; [apply Z.div_pos; lia|]. apply Z.div_lt_upper_bound; [lia|].
      replace (7 * Z.of_nat (S room)) with (7 + 7 * Z.of_nat room) in Hv by lia.
      rewrite Z.pow_add_r in Hv by lia. lia. }
    assert (0 < room)%nat.
    { destruct room; [|lia]. simpl in Hd. assert (1 <= v / 128); [|lia].
      apply Z.div_le_lower_bound; lia. }
    destruct (IH _ Hd ltac:(done)) as (l & -> & Hlen & Hb).
    eexists; split; [reflexivity|]. split; [simpl; lia|]. constructor; [|done].
    rewrite lor_128. unfold is_byte, in_u.
    pose proof (Z.mod_pos_bound v 128). lia.
  - eexists; split; [reflexivity|]. split; [simpl; lia|].
    repeat constructor; unfold is_byte, in_u; lia.
Qed.

(** A byte source reads the bytes [l] off [s] and ends in [s']. *)
Inductive yields {St} (rd : St -> outcome (Z * St)) : St -> list Z -> St -> Prop :=
  | yields_nil s : yields rd s [] s
  | yields_cons s b s1 l s2 :
      rd s = Ok (b, s1) -> yields rd s1 l s2 -> yields rd s (b :: l) s2.

Lemma decode_encode_varint {St} (rd : St -> outcome (Z * St)) w room iters i acc v l s s' :
  encode_varint room v = Ok l -> yields rd s l s' ->
  (length l <= iters)%nat -> 0 <= i -> 0 <= w -> in_u i acc -> 0 <= v -> v * 2 ^ i < 2 ^ w ->
  decode_varint rd w iters i acc s = Ok (acc + v * 2 ^ i, s').
Proof.
  revert iters i acc v l s. induction room as [|room IH];
    intros iters i acc v l s He Hy Hit Hi Hw Hacc Hv Hlt; [discriminate He|].
  cbn [encode_varint] in He. assert (0 < 2 ^ i) by (apply Z.pow_pos_nonneg; lia).
  destruct (Z.leb_spec 0x80 v) as [H80|H80].
  - apply bind_ok in He as (tl & He & [= <-]).
    inversion Hy as [|? b s1 ? ? Hrd Hy']; subst.
    destruct iters as [|iters]; [simpl in Hit; lia|].
    cbn [decode_varint]. rewrite Hrd. cbn [mbind outcome_bind].
    rewrite lor_128. pose proof (Z.mod_pos_bound v 128 ltac:(lia)).
    destruct (Z.ltb_spec (v mod 128 + 128) 0x80); [lia|].
    rewrite land_127.
    replace ((v mod 128 + 128) mod 128) with (v mod 128)
      by (replace (v mod 128 + 128) with (v mod 128 + 1 * 128) by lia;
          rewrite Z.mod_add, Z.mod_mod by lia; done).
    pose proof (Z.div_mod v 128 ltac:(lia)) as Hdm.
    rewrite Z.shiftr_div_pow2 in He by lia. change (2 ^ 7) with 128 in He.
    assert (v mod 128 * 2 ^ i <= v * 2 ^ i).
    { apply Z.mul_le_mono_nonneg_r; [lia|]. pose proof (Z.div_pos v 128). lia. }
    assert (0 <= v mod 128 * 2 ^ i) by (apply Z.mul_nonneg_nonneg; lia).
    rewrite (wrapu_small w (Z.shiftl (v mod 128) i))
      by (rewrite Z.shiftl_mul_pow2 by lia; unfold in_u; lia).
    rewrite lor_shiftl_add by done.
    assert (2 ^ (i + 7) = 128 * 2 ^ i) as Ep by (rewrite Z.pow_add_r by lia; lia).
    rewrite (IH iters (i + 7) _ (v / 128) tl s1 He Hy').
    + f_equal. f_equal. rewrite Ep. rewrite Hdm at 3. ring.
    + simpl in Hit. lia.
    + lia.
    + done.
    + unfold in_u in *. rewrite Ep.
      assert (v mod 128 * 2 ^ i <= 127 * 2 ^ i) by (apply Z.mul_le_mono_nonneg_r; lia). lia.
    + apply Z.div_pos; lia.
    + rewrite Ep.
      assert (v / 128 * (128 * 2 ^ i) <= v * 2 ^ i); [|lia].
      rewrite Z.mul_assoc. apply Z.mul_le_mono_nonneg_r; lia.
  - injection He as <-. inversion Hy as [|? b s1 ? ? Hrd Hy']; subst.
    inversion Hy'; subst. destruct iters as [|iters]; [simpl in Hit; lia|].
    cbn [decode_varint]. rewrite Hrd. cbn [mbind outcome_bind].
    destruct (Z.ltb_spec v 0x80); [|lia].
    rewrite wrapu_small by (rewrite Z.shiftl_mul_pow2 by lia; unfold in_u; lia).
    by rewrite lor_shiftl_add by done.
Qed.
