(* ===== verification/ByteArray.v ===== *)
(** * [sylar::ByteArray]: [sylar/bytearray.h], [sylar/bytearray.cc]

    A growable buffer kept as a chain of equally sized nodes with a cursor.

    The chain [m_root -> next -> ...] is the list [m_nodes] of the nodes'
    bytes, a [Node*] is an index into it ([None] is the null pointer), and
    [ptr]/[size] of a node are the list and its length.  Freshly allocated
    memory is not initialised: [junk i j] is the value of byte [j] of the
    node that becomes the [i]-th of the chain, and is arbitrary.  Sizes and
    positions are natural numbers; the one subtraction on them that can wrap
    around is computed modulo [2^64]. *)

From stdpp Require Import base list.
From Stdlib Require Import ZArith Lia.
From S2P Require Import Prelude Endian Varint.

Record bytearray := BA {
  m_baseSize : nat;
  m_position : nat;
  m_capacity : nat;
  m_size : nat;
  m_endian : endian;
  m_nodes : list (list Z);
  m_cur : option nat;
}.

(** ** The operations on the chain *)

Section chain.
Context (junk : nat -> nat -> Z).

(** [new Node(s)] *)
Definition new_node (i s : nat) : list Z := map (junk i) (seq 0 s).

Definition mkByteArray (base_size : nat) : bytearray :=
  BA base_size 0 base_size 0 SYLAR_BIG_ENDIAN [new_node 0 base_size] (Some 0).

Definition isLittleEndian (s : bytearray) : bool :=
  bool_decide (m_endian s = SYLAR_LITTLE_ENDIAN).

Definition setLittleEndian (val : bool) (s : bytearray) : bytearray :=
  BA (m_baseSize s) (m_position s) (m_capacity s) (m_size s)
     (if val then SYLAR_LITTLE_ENDIAN else SYLAR_BIG_ENDIAN) (m_nodes s) (m_cur s).

Definition getReadSize (s : bytearray) : nat := m_size s - m_position s.
Definition getCapacity (s : bytearray) : nat := m_capacity s - m_position s.

(** [p->next] and [*p] for a node pointer [p]. *)
Definition next_node (nodes : list (list Z)) (i : nat) : option nat :=
  if S i <? length nodes then Some (S i) else None.

Definition node_of (nodes : list (list Z)) (cur : option nat) : outcome (nat * list Z) :=
  i ← deref null_deref cur;
  n ← deref null_deref (nodes !! i);
  Ok (i, n).

Definition memcpy_to (node : list Z) (npos : nat) (b : list Z) : outcome (list Z) :=
  if npos + length b <=? length node then Ok (splice npos b node) else Err (UB index_oob).

Definition memcpy_from (node : list Z) (npos n : nat) : outcome (list Z) :=
  if npos + n <=? length node then Ok (slice npos n node) else Err (UB index_oob).

Definition clear (s : bytearray) : bytearray :=
  BA (m_baseSize s) 0 (m_baseSize s) 0 (m_endian s) (take 1 (m_nodes s)) (Some 0).

(** [addCapacity]: [ceil(1.0 * size / m_baseSize)] is computed in double
    precision and is the integer quotient rounded up for every size below
    [2^53]. *)
Definition addCapacity (size : nat) (s : bytearray) : outcome bytearray :=
  if size =? 0 then Ok s else
  let old_cap := getCapacity s in
  if size <=? old_cap then Ok s else
  if m_baseSize s =? 0 then Err (UB div_zero) else
  let size := size - old_cap in
  let count := (size + m_baseSize s - 1) / m_baseSize s in
  let len := length (m_nodes s) in
  let fresh := map (fun k => new_node (len + k) (m_baseSize s)) (seq 0 count) in
  let first := if 0 <? count then Some len else None in
  Ok (BA (m_baseSize s) (m_position s) (m_capacity s + count * m_baseSize s) (m_size s)
        (m_endian s) (m_nodes s ++ fresh)
        (if old_cap =? 0 then first else m_cur s)).

(** The copying loop of [write]; [fuel] bounds its iterations. *)
Fixpoint write_loop (fuel : nat) (nodes : list (list Z)) (cur : option nat)
    (position npos ncap : nat) (buf : list Z) : outcome (list (list Z) * option nat * nat) :=
  let size := length buf in
  if size =? 0 then Ok (nodes, cur, position) else
  match fuel with
  | O => Err NoFuel
  | S fuel =>
      '(i, node) ← node_of nodes cur;
      if size <=? ncap then
        node' ← memcpy_to node npos buf;
        Ok (<[i := node']> nodes,
            if length node =? npos + size then next_node nodes i else cur,
            position + size)
      else
        node' ← memcpy_to node npos (take ncap buf);
        let nodes := <[i := node']> nodes in
        let cur := next_node nodes i in
        '(_, node) ← node_of nodes cur;
        write_loop fuel nodes cur (position + ncap) 0 (length node) (drop ncap buf)
  end.

Definition write (buf : list Z) (s : bytearray) : outcome bytearray :=
  if length buf =? 0 then Ok s else
  s ← addCapacity (length buf) s;
  if m_baseSize s =? 0 then Err (UB div_zero) else
  let npos := m_position s mod m_baseSize s in
  '(_, node) ← node_of (m_nodes s) (m_cur s);
  let ncap := length node - npos in
  '(nodes, cur, position) ←
    write_loop (length buf) (m_nodes s) (m_cur s) (m_position s) npos ncap buf;
  Ok (BA (m_baseSize s) position (m_capacity s)
        (if m_size s <? position then position else m_size s) (m_endian s) nodes cur).

(** The copying loop of both [read]s: the bytes copied, and the cursor and
    the position it leaves. *)
Fixpoint read_loop (fuel : nat) (nodes : list (list Z)) (cur : option nat)
    (position npos ncap size : nat) : outcome (list Z * option nat * nat) :=
  if size =? 0 then Ok ([], cur, position) else
  match fuel with
  | O => Err NoFuel
  | S fuel =>
      '(i, node) ← node_of nodes cur;
      if size <=? ncap then
        b ← memcpy_from node npos size;
        Ok (b, if length node =? npos + size then next_node nodes i else cur, position + size)
      else
        b ← memcpy_from node npos ncap;
        let cur := next_node nodes i in
        '(_, node) ← node_of nodes cur;
        '(b', cur, position) ←
          read_loop fuel nodes cur (position + ncap) 0 (length node) (size - ncap);
        Ok (b ++ b', cur, position)
  end.

Definition read (size : nat) (s : bytearray) : outcome (list Z * bytearray) :=
  if getReadSize s <? size then Err (Throws out_of_range) else
  if m_baseSize s =? 0 then Err (UB div_zero) else
  let npos := m_position s mod m_baseSize s in
  '(_, node) ← node_of (m_nodes s) (m_cur s);
  let ncap := length node - npos in
  '(b, cur, position) ← read_loop size (m_nodes s) (m_cur s) (m_position s) npos ncap size;
  Ok (b, BA (m_baseSize s) position (m_capacity s) (m_size s) (m_endian s) (m_nodes s) cur).

(** [read(buf, size, position) const]: [m_size - position] is a [size_t],
    and the walk starts at [m_cur] whatever the position. *)
Definition read_at (size position : nat) (s : bytearray) : outcome (list Z) :=
  if (u64 (Z.of_nat (m_size s) - Z.of_nat position) <? Z.of_nat size)%Z
  then Err (Throws out_of_range) else
  if m_baseSize s =? 0 then Err (UB div_zero) else
  let npos := position mod m_baseSize s in
  '(_, node) ← node_of (m_nodes s) (m_cur s);
  let ncap := length node - npos in
  '(b, _, _) ← read_loop size (m_nodes s) (m_cur s) position npos ncap size;
  Ok b.

(** The walk of [setPosition] from [m_root]. *)
Fixpoint seek_loop (fuel : nat) (nodes : list (list Z)) (cur : option nat) (v : nat)
    : outcome (option nat) :=
  '(i, node) ← node_of nodes cur;
  if length node <? v then
    match fuel with
    | O => Err NoFuel
    | S fuel => seek_loop fuel nodes (next_node nodes i) (v - length node)
    end
  else Ok (if v =? length node then next_node nodes i else cur).

Definition setPosition (v : nat) (s : bytearray) : outcome bytearray :=
  if m_capacity s <? v then Err (Throws out_of_range) else
  cur ← seek_loop (length (m_nodes s)) (m_nodes s) (Some 0) v;
  Ok (BA (m_baseSize s) v (m_capacity s) (if m_size s <? v then v else m_size s)
        (m_endian s) (m_nodes s) cur).

Definition toString (s : bytearray) : outcome (list Z) :=
  if getReadSize s =? 0 then Ok [] else read_at (getReadSize s) (m_position s) s.

(** ** Scatter/gather views: an [iovec] is a node, an offset and a length *)

Record iovec := Iov { iov_node : nat; iov_off : nat; iov_len : nat }.

Fixpoint iov_loop (fuel : nat) (nodes : list (list Z)) (cur : option nat)
    (npos ncap len : nat) : outcome (list iovec) :=
  if len =? 0 then Ok [] else
  match fuel with
  | O => Err NoFuel
  | S fuel =>
      '(i, node) ← node_of nodes cur;
      if len <=? ncap then Ok [Iov i npos len]
      else
        let cur := next_node nodes i in
        '(_, node) ← node_of nodes cur;
        iovs ← iov_loop fuel nodes cur 0 (length node) (len - ncap);
        Ok (Iov i npos ncap :: iovs)
  end.

(** [getReadBuffers(buffers, len)]; [len] is a [uint64_t], by default
    [~0ull]. *)
Definition getReadBuffers (len : Z) (s : bytearray) : outcome (list iovec * nat) :=
  let len := if (Z.of_nat (getReadSize s) <? len)%Z then getReadSize s else Z.to_nat len in
  if len =? 0 then Ok ([], 0) else
  if m_baseSize s =? 0 then Err (UB div_zero) else
  let npos := m_position s mod m_baseSize s in
  '(_, node) ← node_of (m_nodes s) (m_cur s);
  iovs ← iov_loop len (m_nodes s) (m_cur s) npos (length node - npos) len;
  Ok (iovs, len).

(** The walk [while (count > 0) { cur = cur->next; --count; }]. *)
Fixpoint skip_nodes (nodes : list (list Z)) (cur : option nat) (count : nat)
    : outcome (option nat) :=
  match count with
  | O => Ok cur
  | S count =>
      '(i, _) ← node_of nodes cur;
      skip_nodes nodes (next_node nodes i) count
  end.

(** [getReadBuffers(buffers, len, position)] *)
Definition getReadBuffers_at (len : Z) (position : nat) (s : bytearray)
    : outcome (list iovec * nat) :=
  let len := if (Z.of_nat (getReadSize s) <? len)%Z then getReadSize s else Z.to_nat len in
  if len =? 0 then Ok ([], 0) else
  if m_baseSize s =? 0 then Err (UB div_zero) else
  let npos := position mod m_baseSize s in
  cur ← skip_nodes (m_nodes s) (Some 0) (position / m_baseSize s);
  '(_, node) ← node_of (m_nodes s) cur;
  iovs ← iov_loop len (m_nodes s) cur npos (length node - npos) len;
  Ok (iovs, len).

Definition getWriteBuffers (len : nat) (s : bytearray)
    : outcome (list iovec * nat * bytearray) :=
  if len =? 0 then Ok ([], 0, s) else
  s ← addCapacity len s;
  if m_baseSize s =? 0 then Err (UB div_zero) else
  let npos := m_position s mod m_baseSize s in
  '(_, node) ← node_of (m_nodes s) (m_cur s);
  iovs ← iov_loop len (m_nodes s) (m_cur s) npos (length node - npos) len;
  Ok (iovs, len, s).
End chain.
