(* ===== verification/ByteArrayFacts.v ===== *)
(** * The chain of nodes implements a flat byte vector

    [wf] is the representation invariant of [ByteArray.v]; [flat] forgets the
    node boundaries.  Every operation is characterised on [flat]. *)

From stdpp Require Import base list.
From Stdlib Require Import ZArith Lia.
From S2P Require Import Prelude Endian Varint ByteArray.

(** ** The representation invariant *)

(** The node pointer that belongs to position [p]. *)
Definition cur_of (k n p : nat) : option nat :=
  if p / k <? n then Some (p / k) else None.

Record wf (s : bytearray) : Prop := {
  wf_base : 0 < m_baseSize s;
  wf_nodes : 0 < length (m_nodes s);
  wf_uniform : uniform (m_baseSize s) (m_nodes s);
  wf_capacity : m_capacity s = length (m_nodes s) * m_baseSize s;
  wf_position : m_position s <= m_size s;
  wf_size : m_size s <= m_capacity s;
  wf_cur : m_cur s = cur_of (m_baseSize s) (length (m_nodes s)) (m_position s);
}.

Definition flat (s : bytearray) : list Z := concat (m_nodes s).

(** ** Positions, node indices and offsets *)

Lemma div_index k i q : q < k -> (i * k + q) / k = i.
Proof. intros. symmetry. apply Nat.div_unique with q; lia. Qed.

Lemma mod_index k i q : q < k -> (i * k + q) mod k = q.
Proof. intros. symmetry. apply Nat.mod_unique with i; lia. Qed.

Lemma split_position k p : 0 < k -> exists i q, p = i * k + q /\ q < k.
Proof.
  intros. exists (p / k), (p mod k). split.
  - rewrite (Nat.div_mod_eq p k) at 1. lia.
  - apply Nat.mod_upper_bound. lia.
Qed.

Lemma cur_of_index k n i q : q < k -> i < n -> cur_of k n (i * k + q) = Some i.
Proof. intros. unfold cur_of. rewrite div_index by done. case_match eqn:E; [done|].
  apply Nat.ltb_ge in E. lia. Qed.

Lemma index_bound k n i q : q < k -> i * k + q < n * k -> i < n.
Proof. intros. nia. Qed.

Lemma index_bound_inv k n i q : q < k -> i < n -> i * k + q < n * k.
Proof. intros. nia. Qed.

Lemma cur_of_next k (nodes : list (list Z)) i :
  0 < k -> cur_of k (length nodes) (i * k + k) = next_node nodes i.
Proof.
  intros. unfold cur_of, next_node.
  replace (i * k + k) with (S i * k + 0) by lia. by rewrite div_index by lia.
Qed.

(** The pointer left by a step that ends [q + n] bytes into node [i]. *)
Lemma cur_after k (nodes : list (list Z)) i q n :
  0 < k -> i < length nodes -> q + n <= k ->
  (if k =? q + n then next_node nodes i else Some i) =
  cur_of k (length nodes) (i * k + q + n).
Proof.
  intros. destruct (Nat.eqb_spec k (q + n)) as [E|E].
  - rewrite <- (cur_of_next k) by lia. f_equal. lia.
  - symmetry. rewrite <- Nat.add_assoc. apply cur_of_index; lia.
Qed.

Lemma node_of_Some nodes i : i < length nodes ->
  exists n, nodes !! i = Some n /\ node_of nodes (Some i) = Ok (i, n).
Proof.
  intros H. apply lookup_lt_is_Some_2 in H as [n Hn].
  exists n. split; [done|]. unfold node_of. simpl. by rewrite Hn.
Qed.

Lemma next_node_Some (nodes : list (list Z)) i : S i < length nodes -> next_node nodes i = Some (S i).
Proof. intros. unfold next_node. by rewrite (proj2 (Nat.ltb_lt _ _)) by lia. Qed.

(** ** The copying loops *)

Section loops.
Context (k : nat).

Lemma write_loop_spec fuel nodes i q buf :
  0 < k -> uniform k nodes -> i < length nodes -> q < k ->
  length buf <= fuel -> i * k + q + length buf <= length nodes * k -> 0 < length buf ->
  exists nodes',
    write_loop fuel nodes (Some i) (i * k + q) q (k - q) buf =
      Ok (nodes', cur_of k (length nodes) (i * k + q + length buf), i * k + q + length buf)
    /\ concat nodes' = splice (i * k + q) buf (concat nodes)
    /\ uniform k nodes' /\ length nodes' = length nodes.
Proof.
  intros Hk. revert nodes i q buf.
  induction fuel as [|fuel IH]; intros nodes i q buf Hu Hi Hq Hf Hc Hb; [lia|].
  destruct (node_of_Some nodes i Hi) as (node & Hn & Hno).
  pose proof (uniform_lookup _ _ _ _ Hu Hn) as Hlen.
  cbn [write_loop]. destruct (Nat.eqb_spec (length buf) 0); [lia|].
  rewrite Hno. cbn [mbind outcome_bind]. unfold memcpy_to.
  destruct (Nat.leb_spec (length buf) (k - q)) as [Hfit|Hfit].
  - rewrite (proj2 (Nat.leb_le _ _)) by lia. cbn [mbind outcome_bind].
    eexists. split; [|split; [|split]].
    + rewrite Hlen, cur_after by lia. reflexivity.
    + apply concat_insert_splice; [done..|lia].
    + apply uniform_insert; [done|]. rewrite length_splice; lia.
    + apply length_insert.
  - rewrite (proj2 (Nat.leb_le _ _)) by (rewrite length_take; lia).
    cbn [mbind outcome_bind].
    set (nodes1 := <[i := splice q (take (k - q) buf) node]> nodes).
    assert (uniform k nodes1) as Hu1.
    { apply uniform_insert; [done|]. rewrite length_splice; [lia|].
      rewrite length_take; lia. }
    assert (length nodes1 = length nodes) as Hl1 by apply length_insert.
    assert (S i < length nodes) as HSi by (apply (index_bound k _ _ 0); lia).
    rewrite next_node_Some by lia.
    destruct (node_of_Some nodes1 (S i)) as (node1 & Hn1 & Hno1); [lia|].
    rewrite Hno1. cbn [mbind outcome_bind].
    rewrite (uniform_lookup _ _ _ _ Hu1 Hn1).
    specialize (IH nodes1 (S i) 0 (drop (k - q) buf)).
    rewrite Nat.sub_0_r, length_drop in IH.
    replace (i * k + q + (k - q)) with (S i * k + 0) by lia.
    destruct IH as (nodes2 & -> & Hcat & Hu2 & Hl2); [done|lia..|].
    exists nodes2. rewrite Hl1. split; [|split; [|split]]; [| |done|lia].
    + by replace (S i * k + 0 + (length buf - (k - q))) with (i * k + q + length buf) by lia.
    + rewrite Hcat. subst nodes1.
      rewrite (concat_insert_splice k) by (rewrite ?length_take; done || lia).
      replace (S i * k + 0) with (i * k + q + length (take (k - q) buf))
        by (rewrite length_take; lia).
      rewrite splice_splice; [by rewrite take_drop|].
      rewrite length_concat_uniform with (k := k) by done. lia.
Qed.

Lemma read_loop_spec fuel nodes i q size :
  0 < k -> uniform k nodes -> i < length nodes -> q < k ->
  size <= fuel -> i * k + q + size <= length nodes * k -> 0 < size ->
  read_loop fuel nodes (Some i) (i * k + q) q (k - q) size =
    Ok (slice (i * k + q) size (concat nodes),
        cur_of k (length nodes) (i * k + q + size), i * k + q + size).
Proof.
  intros Hk Hu. revert i q size.
  induction fuel as [|fuel IH]; intros i q size Hi Hq Hf Hc Hb; [lia|].
  destruct (node_of_Some nodes i Hi) as (node & Hn & Hno).
  pose proof (uniform_lookup _ _ _ _ Hu Hn) as Hlen.
  cbn [read_loop]. destruct (Nat.eqb_spec size 0); [lia|].
  rewrite Hno. cbn [mbind outcome_bind]. unfold memcpy_from.
  destruct (Nat.leb_spec size (k - q)) as [Hfit|Hfit].
  - rewrite (proj2 (Nat.leb_le _ _)) by lia. cbn [mbind outcome_bind].
    rewrite Hlen, cur_after by lia. by erewrite concat_slice by (done || lia).
  - rewrite (proj2 (Nat.leb_le _ _)) by lia. cbn [mbind outcome_bind].
    assert (S i < length nodes) as HSi by (apply (index_bound k _ _ 0); lia).
    rewrite next_node_Some by lia.
    destruct (node_of_Some nodes (S i)) as (node1 & Hn1 & Hno1); [lia|].
    rewrite Hno1. cbn [mbind outcome_bind].
    rewrite (uniform_lookup _ _ _ _ Hu Hn1).
    specialize (IH (S i) 0 (size - (k - q))). rewrite Nat.sub_0_r in IH.
    replace (i * k + q + (k - q)) with (S i * k + 0) by lia.
    rewrite IH by lia. cbn [mbind outcome_bind].
    erewrite (concat_slice k nodes i node) by (done || lia).
    replace (S i * k + 0) with (i * k + q + (k - q)) by lia.
    rewrite <- slice_app_split.
    replace (k - q + (size - (k - q))) with size by lia.
    by replace (i * k + q + (k - q) + (size - (k - q))) with (i * k + q + size) by lia.
Qed.

(** The bytes an [iovec] array designates, in order. *)
Definition iov_data (nodes : list (list Z)) (v : iovec) : list Z :=
  slice (iov_off v) (iov_len v) (default [] (nodes !! iov_node v)).

Lemma iov_loop_spec fuel nodes i q len :
  0 < k -> uniform k nodes -> i < length nodes -> q < k ->
  len <= fuel -> i * k + q + len <= length nodes * k -> 0 < len ->
  exists iovs,
    iov_loop fuel nodes (Some i) q (k - q) len = Ok iovs
    /\ (forall nodes', uniform k nodes' -> length nodes' = length nodes ->
         concat (map (iov_data nodes') iovs) = slice (i * k + q) len (concat nodes'))
    /\ sum_list (map iov_len iovs) = len
    /\ Forall (fun v => iov_node v < length nodes /\ 0 < iov_len v
                        /\ iov_off v + iov_len v <= k) iovs.
Proof.
  intros Hk Hu. revert i q len.
  induction fuel as [|fuel IH]; intros i q len Hi Hq Hf Hc Hb; [lia|].
  destruct (node_of_Some nodes i Hi) as (node & Hn & Hno).
  cbn [iov_loop]. destruct (Nat.eqb_spec len 0); [lia|].
  rewrite Hno. cbn [mbind outcome_bind].
  assert (forall nodes' n, uniform k nodes' -> length nodes' = length nodes -> q + n <= k ->
    iov_data nodes' (Iov i q n) = slice (i * k + q) n (concat nodes')) as Hdata.
  { intros nodes' m Hu' Hl' Hm. unfold iov_data. simpl.
    destruct (lookup_lt_is_Some_2 nodes' i) as [x Hx]; [lia|]. rewrite Hx. simpl.
    by apply concat_slice. }
  destruct (Nat.leb_spec len (k - q)) as [Hfit|Hfit].
  - eexists. split; [reflexivity|]. split; [|split].
    + intros. simpl. rewrite app_nil_r. apply Hdata; done || lia.
    + simpl. lia.
    + repeat constructor; simpl; lia.
  - assert (S i < length nodes) as HSi by (apply (index_bound k _ _ 0); lia).
    rewrite next_node_Some by lia.
    destruct (node_of_Some nodes (S i)) as (node1 & Hn1 & Hno1); [lia|].
    rewrite Hno1. cbn [mbind outcome_bind].
    rewrite (uniform_lookup _ _ _ _ Hu Hn1).
    specialize (IH (S i) 0 (len - (k - q))). rewrite Nat.sub_0_r in IH.
    destruct IH as (iovs & -> & Hd & Hs & Hf'); try lia.
    eexists. split; [reflexivity|]. split; [|split].
    + intros nodes' Hu' Hl'. simpl. rewrite Hd, Hdata by (done || lia).
      replace (S i * k + 0) with (i * k + q + (k - q)) by lia.
      rewrite <- slice_app_split. f_equal. lia.
    + simpl. rewrite Hs. lia.
    + constructor; [simpl; lia|done].
Qed.

Lemma seek_loop_spec fuel nodes i v :
  0 < k -> uniform k nodes -> i < length nodes ->
  i * k + v <= length nodes * k -> length nodes <= i + fuel ->
  seek_loop fuel nodes (Some i) v = Ok (cur_of k (length nodes) (i * k + v)).
Proof.
  intros Hk Hu. revert i v.
  induction fuel as [|fuel IH]; intros i v Hi Hv Hf; [lia|].
  destruct (node_of_Some nodes i Hi) as (node & Hn & Hno).
  pose proof (uniform_lookup _ _ _ _ Hu Hn) as Hlen.
  cbn [seek_loop]. rewrite Hno. cbn [mbind outcome_bind]. rewrite Hlen.
  destruct (Nat.ltb_spec k v) as [H|H].
  - assert (S i < length nodes) by (apply (index_bound k _ _ 0); lia).
    rewrite next_node_Some by lia. rewrite IH by lia. do 2 f_equal. lia.
  - rewrite (Nat.eqb_sym v k). replace v with (0 + v) by lia.
    rewrite cur_after by lia. do 2 f_equal. lia.
Qed.

Lemma skip_nodes_spec nodes i count :
  i + count < length nodes -> skip_nodes nodes (Some i) count = Ok (Some (i + count)).
Proof.
  revert i. induction count as [|count IH]; intros i Hi; cbn [skip_nodes].
  - do 2 f_equal. lia.
  - destruct (node_of_Some nodes i) as (n & _ & ->); [lia|]. cbn [mbind outcome_bind].
    rewrite next_node_Some, IH by lia. do 2 f_equal. lia.
Qed.
End loops.

(** ** The operations *)

Section ops.
Context (junk : nat -> nat -> Z).
Implicit Types s : bytearray.

Lemma length_new_node i n : length (new_node junk i n) = n.
Proof. unfold new_node. by rewrite length_map, length_seq. Qed.

Lemma length_flat s : wf s -> length (flat s) = m_capacity s.
Proof. intros [? ? Hu Hc ? ? ?]. unfold flat. by rewrite (length_concat_uniform _ _ Hu), Hc. Qed.

Lemma wf_mkByteArray k : 0 < k -> wf (mkByteArray junk k).
Proof.
  intros. constructor; simpl; try lia.
  - repeat constructor. apply length_new_node.
  - unfold cur_of. rewrite Nat.Div0.div_0_l. done.
Qed.

Lemma wf_setLittleEndian b s : wf s -> wf (setLittleEndian b s).
Proof. by intros []; constructor. Qed.

Lemma wf_clear s : wf s -> wf (clear s).
Proof.
  intros [Hb Hn Hu Hc Hp Hs Hcur]. constructor; simpl; try lia.
  - rewrite length_take. lia.
  - by apply uniform_take.
  - rewrite length_take, Nat.min_l by lia. lia.
  - unfold cur_of. rewrite Nat.Div0.div_0_l, length_take.
    by rewrite (proj2 (Nat.ltb_lt _ _)) by lia.
Qed.

(** A well-formed cursor in range points at the node of its position. *)
Lemma wf_cur_Some s :
  wf s -> m_position s < m_capacity s ->
  exists i q, m_position s = i * m_baseSize s + q /\ q < m_baseSize s
    /\ i < length (m_nodes s) /\ m_cur s = Some i.
Proof.
  intros [Hb Hn Hu Hc Hp Hs Hcur] Hlt.
  destruct (split_position (m_baseSize s) (m_position s) Hb) as (i & q & E & Hq).
  assert (i < length (m_nodes s)) by (apply (index_bound (m_baseSize s) _ _ q); lia).
  exists i, q. split_and!; [done..|]. rewrite Hcur, E. by apply cur_of_index.
Qed.

Lemma wf_cur_None s : wf s -> m_position s = m_capacity s -> m_cur s = None.
Proof.
  intros [Hb Hn Hu Hc Hp Hs Hcur] E. rewrite Hcur. unfold cur_of.
  rewrite E, Hc, Nat.div_mul by lia. by rewrite Nat.ltb_irrefl.
Qed.

Lemma ceil_div_enough a k : 0 < k -> 0 < a -> a <= (a + k - 1) / k * k /\ 0 < (a + k - 1) / k.
Proof.
  intros. pose proof (Nat.div_mod_eq (a + k - 1) k).
  pose proof (Nat.mod_upper_bound (a + k - 1) k). split; nia.
Qed.

(** [addCapacity] makes room and keeps everything else. *)
Lemma addCapacity_spec n s :
  wf s -> exists s' extra,
    addCapacity junk n s = Ok s' /\ wf s'
    /\ m_baseSize s' = m_baseSize s /\ m_position s' = m_position s
    /\ m_size s' = m_size s /\ m_endian s' = m_endian s
    /\ flat s' = flat s ++ extra /\ m_position s + n <= m_capacity s'
    /\ (n <= getCapacity s -> s' = s).
Proof.
  intros Hwf. pose proof Hwf as [Hb Hn Hu Hc Hp Hs Hcur].
  unfold addCapacity, getCapacity.
  destruct (Nat.eqb_spec n 0) as [->|Hn0].
  { exists s, []. rewrite app_nil_r. split_and!; try done; lia. }
  destruct (Nat.leb_spec n (m_capacity s - m_position s)).
  { exists s, []. rewrite app_nil_r. split_and!; try done; lia. }
  destruct (Nat.eqb_spec (m_baseSize s) 0); [lia|].
  set (count := (n - (m_capacity s - m_position s) + m_baseSize s - 1) / m_baseSize s).
  destruct (ceil_div_enough (n - (m_capacity s - m_position s)) (m_baseSize s))
    as [Hen Hpos]; [lia..|]. fold count in Hen, Hpos.
  set (fresh := map (fun j => new_node junk (length (m_nodes s) + j) (m_baseSize s)) (seq 0 count)).
  assert (length fresh = count) as Hlf by (subst fresh; by rewrite length_map, length_seq).
  assert (uniform (m_baseSize s) fresh) as Huf.
  { apply Forall_fmap, Forall_forall. intros x _. apply length_new_node. }
  eexists _, (concat fresh). split; [reflexivity|]. split; [|split_and!; simpl; try done].
  - constructor; simpl; try done.
    + rewrite length_app. lia.
    + by apply uniform_app.
    + rewrite length_app, Hlf, Hc. lia.
    + lia.
    + rewrite (proj2 (Nat.ltb_lt _ _)) by done. rewrite length_app, Hlf.
      destruct (Nat.eqb_spec (m_capacity s - m_position s) 0) as [E|E].
      * replace (m_position s) with (length (m_nodes s) * m_baseSize s + 0) by lia.
        by rewrite cur_of_index by lia.
      * destruct (wf_cur_Some s Hwf) as (i & q & Ep & Hq & Hi & ->); [lia|].
        rewrite Ep. by rewrite cur_of_index by lia.
  - unfold flat. simpl. apply concat_app.
  - lia.
  - lia.
Qed.

(** [write] overwrites the bytes at the cursor, growing the chain with
    uninitialised memory first when they do not fit. *)
Lemma write_spec buf s :
  wf s -> exists s' extra,
    write junk buf s = Ok s' /\ wf s'
    /\ m_baseSize s' = m_baseSize s /\ m_endian s' = m_endian s
    /\ m_position s' = m_position s + length buf
    /\ m_size s' = m_size s `max` (m_position s + length buf)
    /\ m_position s + length buf <= length (flat s ++ extra)
    /\ flat s' = splice (m_position s) buf (flat s ++ extra).
Proof.
  intros Hwf. unfold write.
  destruct (Nat.eqb_spec (length buf) 0) as [E|E].
  { exists s, []. pose proof Hwf as [? ? ? ? ? ? ?]. apply nil_length_inv in E as ->.
    rewrite splice_nil, app_nil_r, length_flat by done. simpl. split_and!; try done; lia. }
  destruct (addCapacity_spec (length buf) s Hwf)
    as (s1 & extra & -> & Hwf1 & Eb & Ep & Es & Ee & Ef & Hcap & _).
  cbn [mbind outcome_bind]. pose proof Hwf1 as [Hb1 Hn1 Hu1 Hc1 Hp1 Hs1 Hcur1].
  destruct (Nat.eqb_spec (m_baseSize s1) 0); [lia|].
  destruct (wf_cur_Some s1 Hwf1) as (i & q & Epos & Hq & Hi & ->); [lia|].
  destruct (node_of_Some (m_nodes s1) i Hi) as (node & Hnode & ->).
  cbn [mbind outcome_bind]. rewrite (uniform_lookup _ _ _ _ Hu1 Hnode).
  rewrite Epos, mod_index by done.
  destruct (write_loop_spec (m_baseSize s1) (length buf) (m_nodes s1) i q buf)
    as (nodes' & -> & Hcat & Hu' & Hl'); try done; [lia..|].
  cbn [mbind outcome_bind]. eexists _, extra. split; [reflexivity|].
  assert (length (flat s ++ extra) = m_capacity s1) as Hlen
    by (rewrite <- Ef; by apply length_flat).
  split; [|split_and!; simpl; try done; try lia].
  - constructor; simpl; try done; try lia.
    + destruct (Nat.ltb_spec (m_size s1) (i * m_baseSize s1 + q + length buf)); lia.
    + destruct (Nat.ltb_spec (m_size s1) (i * m_baseSize s1 + q + length buf)); lia.
    + by rewrite Hl'.
  - destruct (Nat.ltb_spec (m_size s1) (i * m_baseSize s1 + q + length buf)); lia.
  - unfold flat at 1. simpl. rewrite Hcat. fold (flat s1). rewrite Ef. f_equal. lia.
Qed.

(** [read] returns the bytes at the cursor and advances it. *)
Lemma read_spec n s :
  wf s -> n <= getReadSize s -> m_position s < m_capacity s ->
  exists s', read n s = Ok (slice (m_position s) n (flat s), s') /\ wf s'
    /\ m_position s' = m_position s + n /\ m_size s' = m_size s
    /\ m_endian s' = m_endian s /\ m_baseSize s' = m_baseSize s
    /\ m_capacity s' = m_capacity s /\ m_nodes s' = m_nodes s.
Proof.
  intros Hwf Hn Hlt. pose proof Hwf as [Hb Hnn Hu Hc Hp Hs Hcur].
  unfold read, getReadSize in *.
  destruct (Nat.ltb_spec (m_size s - m_position s) n); [lia|].
  destruct (Nat.eqb_spec (m_baseSize s) 0); [lia|].
  destruct (wf_cur_Some s Hwf Hlt) as (i & q & Ep & Hq & Hi & Ec).
  rewrite Ec. destruct (node_of_Some (m_nodes s) i Hi) as (node & Hnode & ->).
  cbn [mbind outcome_bind]. rewrite (uniform_lookup _ _ _ _ Hu Hnode).
  rewrite Ep, mod_index by done.
  destruct (decide (n = 0)) as [->|Hn0].
  { cbn. eexists. split; [reflexivity|]. simpl. split_and!; try done; try lia.
    constructor; simpl; try done; try lia. by rewrite cur_of_index. }
  rewrite (read_loop_spec (m_baseSize s)) by (done || lia).
  cbn [mbind outcome_bind].
  eexists. split; [reflexivity|]. simpl. split_and!; try done.
  constructor; simpl; try done; lia.
Qed.

Lemma read_too_long n s : getReadSize s < n -> read n s = Err (Throws out_of_range).
Proof. intros. unfold read. by rewrite (proj2 (Nat.ltb_lt _ _)). Qed.

(** At the end of the chain there is no node under the cursor, and even an
    empty read dereferences it. *)
Lemma read_at_end s :
  wf s -> m_position s = m_capacity s -> read 0 s = Err (UB null_deref).
Proof.
  intros Hwf E. unfold read. simpl.
  destruct (Nat.eqb_spec (m_baseSize s) 0); [destruct Hwf; lia|].
  by rewrite (wf_cur_None s Hwf E).
Qed.

Lemma setPosition_spec v s :
  wf s -> v <= m_capacity s ->
  exists s', setPosition v s = Ok s' /\ wf s' /\ m_position s' = v
    /\ m_size s' = m_size s `max` v /\ m_nodes s' = m_nodes s
    /\ m_endian s' = m_endian s /\ m_baseSize s' = m_baseSize s
    /\ m_capacity s' = m_capacity s.
Proof.
  intros Hwf Hv. pose proof Hwf as [Hb Hn Hu Hc Hp Hs Hcur].
  unfold setPosition. destruct (Nat.ltb_spec (m_capacity s) v); [lia|].
  rewrite (seek_loop_spec (m_baseSize s)) by (done || lia).
  cbn [mbind outcome_bind]. eexists. split; [reflexivity|]. simpl.
  assert ((if m_size s <? v then v else m_size s) = m_size s `max` v) as ->
    by (destruct (Nat.ltb_spec (m_size s) v); lia).
  split_and!; try done. constructor; simpl; try done; lia.
Qed.

Lemma setPosition_out_of_range v s :
  m_capacity s < v -> setPosition v s = Err (Throws out_of_range).
Proof. intros. unfold setPosition. by rewrite (proj2 (Nat.ltb_lt _ _)). Qed.

Lemma toString_spec s :
  wf s -> (Z.of_nat (m_size s) < 2 ^ 64)%Z ->
  toString s = Ok (slice (m_position s) (getReadSize s) (flat s)).
Proof.
  intros Hwf H64. pose proof Hwf as [Hb Hn Hu Hc Hp Hs Hcur].
  unfold toString. destruct (Nat.eqb_spec (getReadSize s) 0) as [->|E]; [done|].
  unfold getReadSize in *. unfold read_at.
  rewrite (wrapu_small 64) by (unfold in_u; lia).
  rewrite (proj2 (Z.ltb_ge _ _)) by lia.
  destruct (Nat.eqb_spec (m_baseSize s) 0); [lia|].
  destruct (wf_cur_Some s Hwf) as (i & q & Ep & Hq & Hi & Ec); [lia|].
  rewrite Ec. destruct (node_of_Some (m_nodes s) i Hi) as (node & Hnode & ->).
  cbn [mbind outcome_bind]. rewrite (uniform_lookup _ _ _ _ Hu Hnode).
  rewrite Ep, mod_index by done.
  rewrite (read_loop_spec (m_baseSize s)) by (done || lia).
  done.
Qed.
End ops.

#[export] Hint Resolve wf_mkByteArray wf_clear wf_setLittleEndian : sylar.
