(* ===== verification/ByteArrayCodec.v ===== *)
(** * The typed readers and writers of [sylar::ByteArray]

    [host] is [SYLAR_BYTE_ORDER].  A [float] or [double] is its object
    representation, an unsigned integer of 32 or 64 bits; a [std::string] is
    the list of its bytes. *)

From stdpp Require Import base list.
From Stdlib Require Import ZArith Lia.
From S2P Require Import Prelude Endian Varint ByteArray.

Section codec.
Context (host : endian) (junk : nat -> nat -> Z).
Implicit Types s : bytearray.

(** ** Fixed width *)

Definition writeFint8 (value : Z) s := write junk (obj_bytes host int8_t value) s.
Definition writeFuint8 (value : Z) s := write junk (obj_bytes host uint8_t value) s.

(** The common body of [writeFint16] ... [writeFuint64]. *)
Definition writeFixed (T : ctype) (value : Z) s : outcome bytearray :=
  let value := if decide (m_endian s = host) then value else byteswap T value in
  write junk (obj_bytes host T value) s.

Definition writeFint16 := writeFixed int16_t.
Definition writeFuint16 := writeFixed uint16_t.
Definition writeFint32 := writeFixed int32_t.
Definition writeFuint32 := writeFixed uint32_t.
Definition writeFint64 := writeFixed int64_t.
Definition writeFuint64 := writeFixed uint64_t.

(** ** Variable width *)

Definition writeUint32 (value : Z) s : outcome bytearray :=
  tmp ← varint_tmp32 value; write junk tmp s.
Definition writeInt32 (value : Z) s : outcome bytearray :=
  v ← EncodeZigzag32 value; writeUint32 v s.
Definition writeUint64 (value : Z) s : outcome bytearray :=
  tmp ← varint_tmp64 value; write junk tmp s.
Definition writeInt64 (value : Z) s : outcome bytearray :=
  v ← EncodeZigzag64 value; writeUint64 v s.

(** ** Floating point and strings *)

Definition writeFloat (bits : Z) s := writeFuint32 bits s.
Definition writeDouble (bits : Z) s := writeFuint64 bits s.

Definition zlen (l : list Z) : Z := Z.of_nat (length l).

Definition writeStringF16 (value : list Z) s : outcome bytearray :=
  s ← writeFuint16 (cast uint16_t (zlen value)) s; write junk value s.
Definition writeStringF32 (value : list Z) s : outcome bytearray :=
  s ← writeFuint32 (cast uint32_t (zlen value)) s; write junk value s.
Definition writeStringF64 (value : list Z) s : outcome bytearray :=
  s ← writeFuint64 (zlen value) s; write junk value s.
Definition writeStringVint (value : list Z) s : outcome bytearray :=
  s ← writeUint64 (zlen value) s; write junk value s.
Definition writeStringWithoutLength (value : list Z) s := write junk value s.

(** ** Readers *)

Definition readFint8 s : outcome (Z * bytearray) :=
  '(l, s) ← read 1 s; Ok (of_obj_bytes host int8_t l, s).
Definition readFuint8 s : outcome (Z * bytearray) :=
  '(l, s) ← read 1 s; Ok (of_obj_bytes host uint8_t l, s).

(** The macro [XX(type)]. *)
Definition readFixed (T : ctype) s : outcome (Z * bytearray) :=
  '(l, s) ← read (ct_size T) s;
  let v := of_obj_bytes host T l in
  Ok (if decide (m_endian s = host) then v else byteswap T v, s).

Definition readFint16 := readFixed int16_t.
Definition readFuint16 := readFixed uint16_t.
Definition readFint32 := readFixed int32_t.
Definition readFuint32 := readFixed uint32_t.
Definition readFint64 := readFixed int64_t.
Definition readFuint64 := readFixed uint64_t.

Definition readUint32 s : outcome (Z * bytearray) :=
  decode_varint readFuint8 32 (varint_iters 32) 0 0 s.
Definition readInt32 s : outcome (Z * bytearray) :=
  '(v, s) ← readUint32 s; Ok (DecodeZigzag32 v, s).
Definition readUint64 s : outcome (Z * bytearray) :=
  decode_varint readFuint8 64 (varint_iters 64) 0 0 s.
Definition readInt64 s : outcome (Z * bytearray) :=
  '(v, s) ← readUint64 s; Ok (DecodeZigzag64 v, s).

Definition readFloat s := readFuint32 s.
Definition readDouble s := readFuint64 s.

(** The string is sized before it is filled. *)
Definition readStringF16 `{!Memory} s : outcome (list Z * bytearray) :=
  '(len, s) ← readFuint16 s; _ ← make_string len; read (Z.to_nat len) s.
Definition readStringF32 `{!Memory} s : outcome (list Z * bytearray) :=
  '(len, s) ← readFuint32 s; _ ← make_string len; read (Z.to_nat len) s.
Definition readStringF64 `{!Memory} s : outcome (list Z * bytearray) :=
  '(len, s) ← readFuint64 s; _ ← make_string len; read (Z.to_nat len) s.
Definition readStringVint `{!Memory} s : outcome (list Z * bytearray) :=
  '(len, s) ← readUint64 s; _ ← make_string len; read (Z.to_nat len) s.
End codec.

(** ** A record as a sequence of typed fields

    The clients of [ByteArray] write a sequence of values and read a sequence
    of the same types; a [field] is one such value with its encoding. *)

Inductive field :=
  | Fint8 (v : Z) | Fuint8 (v : Z)
  | Fint16 (v : Z) | Fuint16 (v : Z)
  | Fint32 (v : Z) | Fuint32 (v : Z)
  | Fint64 (v : Z) | Fuint64 (v : Z)
  | Int32 (v : Z) | Uint32 (v : Z)
  | Int64 (v : Z) | Uint64 (v : Z)
  | Float (bits : Z) | Double (bits : Z)
  | StringF16 (l : list Z) | StringF32 (l : list Z)
  | StringF64 (l : list Z) | StringVint (l : list Z).

Definition write_field host junk (f : field) : bytearray -> outcome bytearray :=
  match f with
  | Fint8 v => writeFint8 host junk v
  | Fuint8 v => writeFuint8 host junk v
  | Fint16 v => writeFint16 host junk v
  | Fuint16 v => writeFuint16 host junk v
  | Fint32 v => writeFint32 host junk v
  | Fuint32 v => writeFuint32 host junk v
  | Fint64 v => writeFint64 host junk v
  | Fuint64 v => writeFuint64 host junk v
  | Int32 v => writeInt32 junk v
  | Uint32 v => writeUint32 junk v
  | Int64 v => writeInt64 junk v
  | Uint64 v => writeUint64 junk v
  | Float v => writeFloat host junk v
  | Double v => writeDouble host junk v
  | StringF16 l => writeStringF16 host junk l
  | StringF32 l => writeStringF32 host junk l
  | StringF64 l => writeStringF64 host junk l
  | StringVint l => writeStringVint junk l
  end.

(** The reader of the type of [f]. *)
Definition read_field `{!Memory} host (f : field) (s : bytearray) : outcome (field * bytearray) :=
  let as_ {A} (C : A -> field) (m : outcome (A * bytearray)) : outcome (field * bytearray) :=
    '(a, s) ← m; Ok (C a, s) in
  match f with
  | Fint8 _ => as_ Fint8 (readFint8 host s)
  | Fuint8 _ => as_ Fuint8 (readFuint8 host s)
  | Fint16 _ => as_ Fint16 (readFint16 host s)
  | Fuint16 _ => as_ Fuint16 (readFuint16 host s)
  | Fint32 _ => as_ Fint32 (readFint32 host s)
  | Fuint32 _ => as_ Fuint32 (readFuint32 host s)
  | Fint64 _ => as_ Fint64 (readFint64 host s)
  | Fuint64 _ => as_ Fuint64 (readFuint64 host s)
  | Int32 _ => as_ Int32 (readInt32 host s)
  | Uint32 _ => as_ Uint32 (readUint32 host s)
  | Int64 _ => as_ Int64 (readInt64 host s)
  | Uint64 _ => as_ Uint64 (readUint64 host s)
  | Float _ => as_ Float (readFloat host s)
  | Double _ => as_ Double (readDouble host s)
  | StringF16 _ => as_ StringF16 (readStringF16 host s)
  | StringF32 _ => as_ StringF32 (readStringF32 host s)
  | StringF64 _ => as_ StringF64 (readStringF64 host s)
  | StringVint _ => as_ StringVint (readStringVint host s)
  end.

Fixpoint write_fields host junk (fs : list field) (s : bytearray) : outcome bytearray :=
  match fs with
  | [] => Ok s
  | f :: fs => s ← write_field host junk f s; write_fields host junk fs s
  end.

Fixpoint read_fields `{!Memory} host (fs : list field) (s : bytearray) : outcome (list field * bytearray) :=
  match fs with
  | [] => Ok ([], s)
  | f :: fs =>
      '(x, s) ← read_field host f s;
      '(xs, s) ← read_fields host fs s;
      Ok (x :: xs, s)
  end.

(** The values each writer is specified for: in the range of its type, for
    the zigzag encoders also in the range of the encoder's own arithmetic,
    for strings short enough for the length prefix and not empty. *)
Definition valid_field (f : field) : Prop :=
  match f with
  | Fint8 v => in_ctype int8_t v
  | Fuint8 v => in_ctype uint8_t v
  | Fint16 v => in_ctype int16_t v
  | Fuint16 v => in_ctype uint16_t v
  | Fint32 v => in_ctype int32_t v
  | Fuint32 v | Uint32 v | Float v => in_ctype uint32_t v
  | Fint64 v => in_ctype int64_t v
  | Fuint64 v | Uint64 v | Double v => in_ctype uint64_t v
  | Int32 v => zigzag_safe 32 v
  | Int64 v => zigzag_safe 64 v
  | StringF16 l => (0 < length l)%nat /\ in_u 16 (zlen l)
  | StringF32 l => (0 < length l)%nat /\ in_u 32 (zlen l)
  | StringF64 l | StringVint l => (0 < length l)%nat /\ in_u 64 (zlen l)
  end.

(** Memory for the string a reader makes. *)
Definition field_room `{!Memory} (f : field) : Prop :=
  match f with
  | StringF16 l | StringF32 l | StringF64 l | StringVint l => has_room (zlen l)
  | _ => True
  end.

#[export] Instance valid_field_dec f : Decision (valid_field f).
Proof. destruct f; simpl; apply _. Defined.
