(* ===== verification/ByteArraySpec.v ===== *)
(** * [ByteArray] against a flat vector with a cursor

    The abstract view [vec] of a byte array forgets the chain: it is the
    written bytes, the position in them and the byte order.  The operations on
    the chain refine the operations on [vec], one by one and in sequences, and
    the typed writers and readers refine a wire format that mentions neither
    the chain nor the byte order of the host. *)

From stdpp Require Import base list.
From Stdlib Require Import ZArith Lia.
From S2P Require Import Prelude Endian Varint ByteArray ByteArrayFacts ByteArrayCodec.

Record vec := Vec { v_bytes : list Z; v_pos : nat; v_order : endian }.

Definition data (s : bytearray) : list Z := take (m_size s) (flat s).
Definition abs (s : bytearray) : vec := Vec (data s) (m_position s) (m_endian s).

(** ** Operations on a vector *)

Definition vec_write (b : list Z) (v : vec) : vec :=
  Vec (splice (v_pos v) b (v_bytes v)) (v_pos v + length b) (v_order v).

Definition vec_rest (v : vec) : list Z := drop (v_pos v) (v_bytes v).

Definition vec_read (n : nat) (v : vec) : outcome (list Z * vec) :=
  if length (vec_rest v) <? n then Err (Throws out_of_range)
  else Ok (take n (vec_rest v), Vec (v_bytes v) (v_pos v + n) (v_order v)).

Definition vec_seek (p : nat) (v : vec) : vec := Vec (v_bytes v) p (v_order v).
Definition vec_clear (v : vec) : vec := Vec [] 0 (v_order v).
Definition vec_order (b : bool) (v : vec) : vec :=
  Vec (v_bytes v) (v_pos v) (if b then SYLAR_LITTLE_ENDIAN else SYLAR_BIG_ENDIAN).

(** ** Refinement of the untyped operations *)

Section refinement.
Context (junk : nat -> nat -> Z).
Implicit Types s : bytearray.

Lemma length_data s : wf s -> length (data s) = m_size s.
Proof.
  intros Hwf. unfold data. rewrite length_take, length_flat by done.
  destruct Hwf. lia.
Qed.

Lemma length_rest s : wf s -> length (vec_rest (abs s)) = getReadSize s.
Proof. intros. unfold vec_rest. simpl. by rewrite length_drop, length_data. Qed.

Lemma write_refines b s :
  wf s -> exists s', write junk b s = Ok s' /\ wf s' /\ abs s' = vec_write b (abs s).
Proof.
  intros Hwf. destruct (write_spec junk b s Hwf)
    as (s' & extra & -> & Hwf' & Eb & Ee & Ep & Es & Hl & Ef).
  exists s'. split_and!; [done..|]. unfold abs, vec_write, data. simpl.
  rewrite Es, Ef, Ep, Ee, take_splice, take_app_le;
    rewrite ?length_app, ?length_flat in * by done; destruct Hwf; done || lia.
Qed.

Lemma read_refines n s :
  wf s -> 0 < n -> n <= getReadSize s ->
  exists s', read n s = Ok (take n (vec_rest (abs s)), s') /\ wf s'
    /\ abs s' = Vec (data s) (m_position s + n) (m_endian s).
Proof.
  intros Hwf Hn0 Hn. unfold getReadSize in Hn.
  destruct (read_spec n s) as (s' & -> & Hwf' & Ep & Es & Ee & Eb & Ec & En);
    [done..|destruct Hwf; lia|].
  exists s'. split_and!; [|done|].
  - do 2 f_equal. symmetry. apply slice_take. lia.
  - unfold abs, data, flat. by rewrite Es, En, Ep, Ee.
Qed.

Lemma setPosition_refines p s :
  wf s -> p <= m_size s ->
  exists s', setPosition p s = Ok s' /\ wf s' /\ abs s' = vec_seek p (abs s).
Proof.
  intros Hwf Hp. destruct (setPosition_spec p s Hwf)
    as (s' & -> & Hwf' & Ep & Es & En & Ee & _); [destruct Hwf; lia|].
  exists s'. split_and!; [done..|].
  unfold abs, data, flat, vec_seek. simpl. rewrite Es, En, Ep, Ee.
  by rewrite Nat.max_l by lia.
Qed.

Lemma slice_rest s :
  wf s -> slice (m_position s) (getReadSize s) (flat s) = vec_rest (abs s).
Proof.
  intros Hwf. pose proof (wf_position s Hwf).
  rewrite <- (slice_take _ _ (m_size s)) by (unfold getReadSize; lia).
  unfold slice. apply take_ge. change (length (vec_rest (abs s)) <= getReadSize s).
  by rewrite length_rest.
Qed.

Lemma toString_refines s :
  wf s -> (Z.of_nat (m_size s) < 2 ^ 64)%Z -> toString s = Ok (vec_rest (abs s)).
Proof. intros. by rewrite toString_spec, slice_rest. Qed.

(** *** Sequences of operations *)

Inductive op :=
  | OWrite (b : list Z)
  | ORead (n : nat)
  | OSeek (p : nat)
  | OClear
  | OSetLittleEndian (b : bool)
  | OToString.

(** A call returns its result and leaves a state; a call that throws leaves
    the state as it was. *)
Definition call {S} (s : S) (m : outcome (list Z * S)) : outcome (list Z) * S :=
  match m with Ok (b, s') => (Ok b, s') | Err e => (Err e, s) end.

Definition exec (o : op) s : outcome (list Z) * bytearray :=
  call s match o with
  | OWrite b => s' ← write junk b s; Ok ([], s')
  | ORead n => read n s
  | OSeek p => s' ← setPosition p s; Ok ([], s')
  | OClear => Ok ([], clear s)
  | OSetLittleEndian b => Ok ([], setLittleEndian b s)
  | OToString => b ← toString s; Ok (b, s)
  end.

Definition vec_exec (o : op) (v : vec) : outcome (list Z) * vec :=
  call v match o with
  | OWrite b => Ok ([], vec_write b v)
  | ORead n => vec_read n v
  | OSeek p => Ok ([], vec_seek p v)
  | OClear => Ok ([], vec_clear v)
  | OSetLittleEndian b => Ok ([], vec_order b v)
  | OToString => Ok (vec_rest v, v)
  end.

(** Calls whose outcome the flat view determines: reads of at least one
    byte, and seeks inside the written data (beyond it the bytes are
    uninitialised). *)
Definition specified (o : op) (v : vec) : Prop :=
  match o with
  | ORead n => 0 < n
  | OSeek p => p <= length (v_bytes v)
  | OToString => (zlen (v_bytes v) < 2 ^ 64)%Z
  | _ => True
  end.

#[export] Instance specified_dec o v : Decision (specified o v).
Proof. destruct o; simpl; apply _. Defined.

Fixpoint run {S} (ex : op -> S -> outcome (list Z) * S) (os : list op) (s : S)
    : list (outcome (list Z)) * S :=
  match os with
  | [] => ([], s)
  | o :: os => let '(r, s) := ex o s in let '(rs, s) := run ex os s in (r :: rs, s)
  end.

Fixpoint specified_run (os : list op) (v : vec) : Prop :=
  match os with
  | [] => True
  | o :: os => specified o v /\ specified_run os (vec_exec o v).2
  end.

#[export] Instance specified_run_dec os : forall v, Decision (specified_run os v).
Proof. induction os; intros v; simpl; apply _. Defined.

Lemma exec_refines o s :
  wf s -> specified o (abs s) ->
  wf (exec o s).2 /\ (exec o s).1 = (vec_exec o (abs s)).1
  /\ abs (exec o s).2 = (vec_exec o (abs s)).2.
Proof.
  intros Hwf Ho. unfold exec, vec_exec. destruct o as [b|n|p| |b|]; simpl in *.
  - destruct (write_refines b s Hwf) as (s' & -> & ? & ?). done.
  - unfold vec_read. rewrite length_rest by done.
    destruct (Nat.ltb_spec (getReadSize s) n) as [Hlt|Hge].
    + by rewrite read_too_long.
    + destruct (read_refines n s) as (s' & -> & ? & ?); done.
  - rewrite length_data in Ho by done.
    destruct (setPosition_refines p s Hwf Ho) as (s' & -> & ? & ?). done.
  - by split_and!; [apply wf_clear| |].
  - split_and!; try done. by apply wf_setLittleEndian.
  - unfold zlen in Ho. rewrite length_data in Ho by done.
    by rewrite toString_refines by done.
Qed.

Lemma run_refines os s :
  wf s -> specified_run os (abs s) ->
  wf (run exec os s).2 /\ (run exec os s).1 = (run vec_exec os (abs s)).1
  /\ abs (run exec os s).2 = (run vec_exec os (abs s)).2.
Proof.
  revert s. induction os as [|o os IH]; intros s Hwf Hs; simpl; [done|].
  destruct Hs as [Ho Hs]. destruct (exec_refines o s Hwf Ho) as (Hwf' & Er & Ea).
  rewrite <- Ea in Hs. specialize (IH _ Hwf' Hs) as (IHw & IHr & IHa).
  destruct (exec o s) as [r s'], (vec_exec o (abs s)) as [r' v']. simpl in *. subst.
  destruct (run exec os s') as [rs s2], (run vec_exec os (abs s')) as [rs' v2].
  simpl in *. by subst.
Qed.
End refinement.

(** ** The wire format of the typed fields *)

Definition field_bytes (e : endian) (f : field) : outcome (list Z) :=
  match f with
  | Fint8 v => Ok (wire e int8_t v)
  | Fuint8 v => Ok (wire e uint8_t v)
  | Fint16 v => Ok (wire e int16_t v)
  | Fuint16 v => Ok (wire e uint16_t v)
  | Fint32 v => Ok (wire e int32_t v)
  | Fuint32 v | Float v => Ok (wire e uint32_t v)
  | Fint64 v => Ok (wire e int64_t v)
  | Fuint64 v | Double v => Ok (wire e uint64_t v)
  | Int32 v => z ← EncodeZigzag 32 v; encode_varint 5 z
  | Uint32 v => encode_varint 5 v
  | Int64 v => z ← EncodeZigzag 64 v; encode_varint 10 z
  | Uint64 v => encode_varint 10 v
  | StringF16 l => Ok (wire e uint16_t (zlen l) ++ l)
  | StringF32 l => Ok (wire e uint32_t (zlen l) ++ l)
  | StringF64 l => Ok (wire e uint64_t (zlen l) ++ l)
  | StringVint l => p ← encode_varint 10 (zlen l); Ok (p ++ l)
  end.

Fixpoint fields_bytes (e : endian) (fs : list field) : outcome (list Z) :=
  match fs with
  | [] => Ok []
  | f :: fs => b ← field_bytes e f; b' ← fields_bytes e fs; Ok (b ++ b')
  end.

Lemma splice_rest_app v b1 b2 :
  v_pos v <= length (v_bytes v) -> vec_write b2 (vec_write b1 v) = vec_write (b1 ++ b2) v.
Proof.
  intros. unfold vec_write. simpl. rewrite splice_splice, length_app by done.
  f_equal. lia.
Qed.

Lemma wf_abs_pos s : wf s -> v_pos (abs s) <= length (v_bytes (abs s)).
Proof. intros. simpl. rewrite length_data by done. by apply wf_position. Qed.

Section writers.
Context (host : endian) (junk : nat -> nat -> Z).

(** [m] appends at the cursor of any array of byte order [e] the bytes [b]. *)
Definition writes_as (e : endian) (m : bytearray -> outcome bytearray) (b : list Z) : Prop :=
  forall s, wf s -> m_endian s = e ->
    exists s', m s = Ok s' /\ wf s' /\ abs s' = vec_write b (abs s).

Lemma abs_endian s s' b : abs s' = vec_write b (abs s) -> m_endian s' = m_endian s.
Proof. intros H. by apply (f_equal v_order) in H. Qed.

Lemma writes_as_write e b : writes_as e (write junk b) b.
Proof. intros s Hwf _. by apply write_refines. Qed.

Lemma writes_as_seq e m1 m2 b1 b2 :
  writes_as e m1 b1 -> writes_as e m2 b2 ->
  writes_as e (fun s => s ← m1 s; m2 s) (b1 ++ b2).
Proof.
  intros H1 H2 s Hwf He. destruct (H1 s Hwf He) as (s1 & -> & Hwf1 & Ha1).
  simpl. pose proof (abs_endian _ _ _ Ha1) as E1. rewrite He in E1.
  destruct (H2 s1 Hwf1 E1) as (s2 & -> & Hwf2 & Ha2).
  exists s2. split_and!; [done..|]. rewrite Ha2, Ha1.
  apply splice_rest_app. by apply wf_abs_pos.
Qed.

Lemma writes_as_Fixed e T v :
  0 < ct_size T -> writes_as e (writeFixed host junk T v) (wire e T v).
Proof.
  intros HT s Hwf <-. unfold writeFixed. rewrite obj_bytes_swapped by done.
  by apply write_refines.
Qed.

(** One byte reads the same in both orders. *)
Lemma obj_bytes_8 T v e : ct_size T = 1 -> obj_bytes host T v = wire e T v.
Proof. intros HT. unfold wire, obj_bytes. rewrite HT. by destruct host, e. Qed.

Lemma writes_as_varint e room v b :
  encode_varint room v = Ok b ->
  writes_as e (fun s => tmp ← encode_varint room v; write junk tmp s) b.
Proof. intros ->. apply writes_as_write. Qed.

Lemma writes_as_field e f b :
  valid_field f -> field_bytes e f = Ok b -> writes_as e (write_field host junk f) b.
Proof.
  intros Hv Hb.
  assert (forall n, in_u 16 n -> cast uint16_t n = n) as C16 by (intros; by apply cast_small; [simpl; lia|]).
  assert (forall n, in_u 32 n -> cast uint32_t n = n) as C32 by (intros; by apply cast_small; [simpl; lia|]).
  destruct f; cbn [field_bytes write_field valid_field] in *;
    try (injection Hb as <-);
    try (apply writes_as_Fixed; simpl; lia).
  - unfold writeFint8. rewrite (obj_bytes_8 _ _ e) by done. apply writes_as_write.
  - unfold writeFuint8. rewrite (obj_bytes_8 _ _ e) by done. apply writes_as_write.
  - apply bind_ok in Hb as (z & Hz & Hb). unfold writeInt32, EncodeZigzag32.
    rewrite Hz. by apply writes_as_varint.
  - by apply writes_as_varint.
  - apply bind_ok in Hb as (z & Hz & Hb). unfold writeInt64, EncodeZigzag64.
    rewrite Hz. by apply writes_as_varint.
  - by apply writes_as_varint.
  - apply writes_as_seq; [|apply writes_as_write].
    rewrite C16 by apply Hv. apply writes_as_Fixed. simpl. lia.
  - apply writes_as_seq; [|apply writes_as_write].
    rewrite C32 by apply Hv. apply writes_as_Fixed. simpl. lia.
  - apply writes_as_seq; [|apply writes_as_write]. apply writes_as_Fixed. simpl. lia.
  - apply bind_ok in Hb as (p & Hp & [= <-]).
    apply writes_as_seq; [|apply writes_as_write]. by apply writes_as_varint.
Qed.

Lemma writes_as_fields e fs b :
  Forall valid_field fs -> fields_bytes e fs = Ok b ->
  writes_as e (write_fields host junk fs) b.
Proof.
  revert b. induction fs as [|f fs IH]; intros b Hv Hb; simpl in Hb.
  - injection Hb as <-. intros s Hwf _. exists s. split_and!; [done..|].
    unfold vec_write. simpl. rewrite splice_nil, Nat.add_0_r. done.
  - apply Forall_cons in Hv as [Hf Hv].
    apply bind_ok in Hb as (b1 & Hb1 & Hb). apply bind_ok in Hb as (b2 & Hb2 & [= <-]).
    apply writes_as_seq; [by apply writes_as_field|by apply IH].
Qed.
End writers.

Lemma encode_varint_fits w room v :
  (w <= 7 * Z.of_nat room)%Z -> 0 < room -> in_u w v ->
  exists b, encode_varint room v = Ok b /\ 0 < length b.
Proof.
  intros Hw Hr Hv. destruct (encode_varint_total room v) as (b & ? & ? & _); [|done|].
  - unfold in_u in *. pose proof (Z.pow_le_mono_r 2 w (7 * Z.of_nat room)). lia.
  - exists b. split; [done|lia].
Qed.

(** Every valid field has an encoding, of at least one byte. *)
Lemma field_bytes_total e f :
  valid_field f -> exists b, field_bytes e f = Ok b /\ 0 < length b.
Proof.
  assert (forall T v, 0 < ct_size T ->
    exists b, Ok (wire e T v) = Ok b /\ 0 < length b) as Hw.
  { intros T v HT. eexists. split; [done|]. unfold wire. by rewrite length_obj_bytes. }
  assert (forall T v l, 0 < length l ->
    exists b, Ok (wire e T v ++ l) = Ok b /\ 0 < length b) as Hs.
  { intros T v l Hl. eexists. split; [done|]. rewrite length_app. lia. }
  pose proof (encode_varint_fits 32 5) as H5. pose proof (encode_varint_fits 64 10) as H10.
  destruct f; cbn [field_bytes valid_field]; intros Hv;
    match goal with
    | |- context [wire _ _ _ ++ _] => by apply Hs, Hv
    | |- context [wire _ _ _] => apply Hw; simpl; lia
    | |- context [EncodeZigzag _ _] => idtac
    | |- context [zlen _] => idtac
    | |- context [encode_varint 5 _] => by apply H5; [lia..|]
    | |- _ => by apply H10; [lia..|]
    end.
  - rewrite EncodeZigzag_spec by done. cbn [mbind outcome_bind]. eapply H5; [lia..|]. eapply EncodeZigzag_range;
      [|done|by apply EncodeZigzag_spec]. done.
  - rewrite EncodeZigzag_spec by done. cbn [mbind outcome_bind]. eapply H10; [lia..|]. eapply EncodeZigzag_range;
      [|done|by apply EncodeZigzag_spec]. done.
  - destruct (H10 (zlen l)) as (b & -> & Hb); [lia..|apply Hv|]. cbn [mbind outcome_bind]. eexists. split; [done|].
    rewrite length_app. lia.
Qed.

Lemma fields_bytes_total e fs : Forall valid_field fs -> exists b, fields_bytes e fs = Ok b.
Proof.
  induction 1 as [|f fs Hf _ (b' & IH)]; simpl; [eauto|].
  destruct (field_bytes_total e f Hf) as (b & -> & _). simpl. rewrite IH. simpl. eauto.
Qed.

Section readers.
Context (host : endian) {MM : Memory}.

(** [rd] reads [x] off the bytes [b] at the cursor of an array of byte order
    [e], and moves the cursor past them. *)
Definition reads_as {A} (e : endian) (rd : bytearray -> outcome (A * bytearray))
    (b : list Z) (x : A) : Prop :=
  forall s r, wf s -> m_endian s = e -> vec_rest (abs s) = b ++ r ->
    exists s', rd s = Ok (x, s') /\ wf s'
      /\ abs s' = Vec (data s) (m_position s + length b) (m_endian s).

Lemma rest_advanced s s' b r :
  vec_rest (abs s) = b ++ r ->
  abs s' = Vec (data s) (m_position s + length b) (m_endian s) -> vec_rest (abs s') = r.
Proof.
  intros Hr ->. unfold vec_rest in *. simpl in *.
  by rewrite <- drop_drop, Hr, drop_app_length.
Qed.

Lemma reads_as_read e b : 0 < length b -> reads_as e (read (length b)) b b.
Proof.
  intros Hb s r Hwf He Hr.
  destruct (read_refines (length b) s) as (s' & -> & Hwf' & Ha); [done..| |].
  - rewrite <- length_rest, Hr, length_app by done. lia.
  - exists s'. by rewrite Hr, take_app_length.
Qed.

Lemma reads_as_map {A B} e (rd : bytearray -> outcome (A * bytearray)) (g : A -> B) b x :
  reads_as e rd b x -> reads_as e (fun s => '(a, s) ← rd s; Ok (g a, s)) b (g x).
Proof. intros H s r Hwf He Hr. destruct (H s r Hwf He Hr) as (s' & -> & ? & ?). eauto. Qed.

Lemma reads_as_seq {A B} e (rd : bytearray -> outcome (A * bytearray))
    (k : A -> bytearray -> outcome (B * bytearray)) b1 b2 x y :
  reads_as e rd b1 x -> reads_as e (k x) b2 y ->
  reads_as e (fun s => '(a, s) ← rd s; k a s) (b1 ++ b2) y.
Proof.
  intros H1 H2 s r Hwf He Hr. rewrite <- app_assoc in Hr.
  destruct (H1 s _ Hwf He Hr) as (s1 & -> & Hwf1 & Ha1).
  pose proof (rest_advanced _ _ _ _ Hr Ha1) as Hr1.
  injection Ha1 as Ed Ep Ee. cbn [mbind outcome_bind].
  destruct (H2 s1 r Hwf1) as (s2 & -> & Hwf2 & Ha2); [congruence|done|].
  exists s2. split_and!; [done..|]. rewrite Ha2, Ed, Ep, Ee, length_app. f_equal. lia.
Qed.

Lemma reads_as_Fixed e T v :
  0 < ct_size T -> in_ctype T v -> reads_as e (readFixed host T) (wire e T v) v.
Proof.
  intros HT Hv s r Hwf He Hr.
  destruct (reads_as_read e (wire e T v)) with (s := s) (r := r)
    as (s' & Hrd & Hwf' & Ha); try done; [unfold wire; by rewrite length_obj_bytes|].
  unfold wire in Hrd at 1. rewrite length_obj_bytes in Hrd.
  unfold readFixed. rewrite Hrd. cbn [mbind outcome_bind].
  exists s'. split_and!; [|done..]. do 2 f_equal.
  assert (m_endian s' = e) as -> by (injection Ha; congruence).
  rewrite <- (obj_bytes_swapped host), of_obj_bytes_obj_bytes by done.
  case_decide; [by apply cast_small|].
  rewrite cast_small by (done || by apply byteswap_range). by apply byteswap_involutive.
Qed.

Lemma reads_as_8 e T v :
  ct_size T = 1 -> in_ctype T v ->
  reads_as e (fun s => '(l, s) ← read 1 s; Ok (of_obj_bytes host T l, s)) (wire e T v) v.
Proof.
  intros HT Hv. rewrite <- (cast_small T v) at 2 by (done || lia).
  rewrite <- (of_obj_bytes_obj_bytes host T v) by lia.
  rewrite (obj_bytes_8 host T v e) by done.
  apply (reads_as_map e (read 1) (of_obj_bytes host T)).
  assert (length (wire e T v) = 1) as E by (unfold wire; by rewrite length_obj_bytes).
  rewrite <- E at 1. apply reads_as_read. lia.
Qed.

Lemma wire_byte e b : is_byte b -> wire e uint8_t b = [b].
Proof.
  intros Hb. unfold wire, obj_bytes. cbn [ct_size uint8_t le_bytes rev app].
  replace (wrapu _ b mod 256)%Z with b; [by destruct e|].
  unfold is_byte, in_u in Hb. unfold wrapu. change (2 ^ ct_width uint8_t)%Z with 256%Z.
  rewrite Zmod_mod, Z.mod_small; lia.
Qed.

(** The byte source of the varint decoder. *)
Lemma yields_readFuint8 b s r :
  Forall is_byte b -> wf s -> vec_rest (abs s) = b ++ r ->
  exists s', yields (readFuint8 host) s b s' /\ wf s'
    /\ abs s' = Vec (data s) (m_position s + length b) (m_endian s).
Proof.
  intros Hb. revert s. induction Hb as [|x b Hx Hb IH]; intros s Hwf Hr.
  - exists s. split_and!; [constructor|done|]. simpl. by rewrite Nat.add_0_r.
  - destruct (reads_as_8 (m_endian s) uint8_t x) with (s := s) (r := b ++ r)
      as (s1 & Hrd & Hwf1 & Ha1); try done.
    { by rewrite wire_byte. }
    rewrite wire_byte in Ha1 by done.
    pose proof (rest_advanced _ _ [x] _ Hr Ha1) as Hr1.
    destruct (IH s1 Hwf1 Hr1) as (s2 & Hy & Hwf2 & Ha2).
    injection Ha1 as Ed Ep Ee. simpl in Ep.
    exists s2. split_and!; [by econstructor|done|].
    rewrite Ha2, Ed, Ep, Ee. simpl. f_equal. lia.
Qed.

Lemma reads_as_varint e w room v b :
  (0 <= w <= 7 * Z.of_nat room)%Z -> room <= varint_iters w -> in_u w v -> 0 < room ->
  encode_varint room v = Ok b ->
  reads_as e (fun s => decode_varint (readFuint8 host) w (varint_iters w) 0 0 s) b v.
Proof.
  intros Hw Hi Hv Hr0 Hb s r Hwf He Hr. unfold in_u in Hv.
  destruct (encode_varint_total room v) as (b' & Hb' & Hlen & Hbytes); [|done|].
  { unfold in_u. pose proof (Z.pow_le_mono_r 2 w (7 * Z.of_nat room)). lia. }
  rewrite Hb in Hb'. injection Hb' as <-.
  destruct (yields_readFuint8 b s r Hbytes Hwf Hr) as (s' & Hy & Hwf' & Ha).
  exists s'. split_and!; [|done..].
  rewrite (decode_encode_varint _ w room _ 0 0 v b s s' Hb Hy);
    [do 2 f_equal; lia|lia..|unfold in_u; lia|lia|lia].
Qed.

Lemma reads_as_string {e n l p rdlen} :
  0 < length l -> n = zlen l -> has_room n -> reads_as e rdlen p n ->
  reads_as e (fun s => '(len, s) ← rdlen s; _ ← make_string len; read (Z.to_nat len) s) (p ++ l) l.
Proof.
  intros Hl -> Hm Hp. apply (reads_as_seq e rdlen _ p l (zlen l)); [done|].
  rewrite make_string_room by done. cbn [mbind outcome_bind]. unfold zlen. rewrite Nat2Z.id. by apply reads_as_read.
Qed.

Lemma reads_as_field e f b :
  valid_field f -> field_room f -> field_bytes e f = Ok b -> reads_as e (read_field host f) b f.
Proof.
  intros Hv Hm Hb. destruct f; cbn [field_bytes read_field valid_field] in *;
    try (injection Hb as <-);
    try (by apply (reads_as_map e (readFixed host _)), reads_as_Fixed; [simpl; lia|]).
  - by apply (reads_as_map e (readFint8 host)), reads_as_8.
  - by apply (reads_as_map e (readFuint8 host)), reads_as_8.
  - apply bind_ok in Hb as (z & Hz & Hb).
    rewrite <- (DecodeZigzag_EncodeZigzag 32 v z) by done.
    apply (reads_as_map e (readInt32 host) Int32), (reads_as_map e (readUint32 host) DecodeZigzag32).
    apply (reads_as_varint e 32 5); [done|by vm_compute; lia| |lia|done].
    by eapply EncodeZigzag_range.
  - apply (reads_as_map e (readUint32 host) Uint32).
    by apply (reads_as_varint e 32 5); [|vm_compute; lia| |lia|].
  - apply bind_ok in Hb as (z & Hz & Hb).
    rewrite <- (DecodeZigzag_EncodeZigzag 64 v z) by done.
    apply (reads_as_map e (readInt64 host) Int64), (reads_as_map e (readUint64 host) DecodeZigzag64).
    apply (reads_as_varint e 64 10); [done|by vm_compute; lia| |lia|done].
    by eapply EncodeZigzag_range.
  - apply (reads_as_map e (readUint64 host) Uint64).
    by apply (reads_as_varint e 64 10); [|vm_compute; lia| |lia|].
  - apply (reads_as_map e (readStringF16 host) StringF16), (reads_as_string (proj1 Hv) eq_refl Hm).
    by apply reads_as_Fixed; [simpl; lia|apply Hv].
  - apply (reads_as_map e (readStringF32 host) StringF32), (reads_as_string (proj1 Hv) eq_refl Hm).
    by apply reads_as_Fixed; [simpl; lia|apply Hv].
  - apply (reads_as_map e (readStringF64 host) StringF64), (reads_as_string (proj1 Hv) eq_refl Hm).
    by apply reads_as_Fixed; [simpl; lia|apply Hv].
  - apply bind_ok in Hb as (p & Hp & [= <-]).
    apply (reads_as_map e (readStringVint host) StringVint), (reads_as_string (proj1 Hv) eq_refl Hm).
    by apply (reads_as_varint e 64 10); [|vm_compute; lia|apply Hv|lia|].
Qed.

Lemma reads_as_fields e fs b :
  Forall valid_field fs -> Forall field_room fs -> fields_bytes e fs = Ok b -> reads_as e (read_fields host fs) b fs.
Proof.
  revert b. induction fs as [|f fs IH]; intros b Hv Hm Hb; simpl in Hb.
  - injection Hb as <-. intros s r Hwf _ _. exists s. split_and!; [done..|].
    simpl. by rewrite Nat.add_0_r.
  - apply Forall_cons in Hv as [Hf Hv], Hm as [Hmf Hm].
    apply bind_ok in Hb as (b1 & Hb1 & Hb). apply bind_ok in Hb as (b2 & Hb2 & [= <-]).
    apply (reads_as_seq e (read_field host f)
             (fun x s => '(xs, s) ← read_fields host fs s; Ok (x :: xs, s)) b1 b2 f);
      [by apply reads_as_field|].
    by apply (reads_as_map e (read_fields host fs) (cons f)), IH.
Qed.
End readers.

(** Writing a sequence of fields, seeking back and reading the same types
    gives the fields, on hosts of any byte order. *)
Lemma roundtrip `{!Memory} host junk fs s :
  wf s -> Forall valid_field fs -> Forall field_room fs ->
  exists s1 s2 s3, write_fields host junk fs s = Ok s1
    /\ setPosition (m_position s) s1 = Ok s2
    /\ read_fields host fs s2 = Ok (fs, s3) /\ m_position s3 = m_position s1.
Proof.
  intros Hwf Hv Hm. destruct (fields_bytes_total (m_endian s) fs Hv) as (b & Hb).
  destruct (writes_as_fields host junk _ fs b Hv Hb s Hwf eq_refl) as (s1 & H1 & Hwf1 & Ha1).
  pose proof (wf_abs_pos s Hwf) as Hpos. simpl in Hpos. rewrite length_data in Hpos by done.
  assert (data s1 = splice (m_position s) b (data s)) as Ed by (by injection Ha1).
  destruct (setPosition_refines (m_position s) s1) as (s2 & H2 & Hwf2 & Ha2); [done| |].
  { rewrite <- (length_data s1), Ed by done.
    rewrite length_splice_max by by rewrite length_data. lia. }
  destruct (reads_as_fields host (m_endian s) fs b Hv Hm Hb s2 (drop (m_position s + length b) (data s)))
    as (s3 & H3 & Hwf3 & Ha3); [done| | |].
  - injection Ha2 as _ _ ->. by injection Ha1.
  - rewrite Ha2. unfold vec_rest. simpl. rewrite Ed, drop_splice; [done|by rewrite length_data].
  - exists s1, s2, s3. split_and!; [done..|].
    injection Ha3 as _ -> _. injection Ha2 as _ -> _. by injection Ha1.
Qed.
