(* ===== verification/ByteArrayIO.v ===== *)
(** * [ByteArray]: files, hexadecimal dumps and scatter/gather

    The remaining operations of [sylar/bytearray.cc], over the contents of a
    file instead of its name, with the facts about the [iovec] views that the
    stream classes rely on. *)

From stdpp Require Import base list strings.
From Stdlib Require Import ZArith Lia.
From S2P Require Import Prelude Endian ByteArray ByteArrayFacts ByteArraySpec.

(** ** [toHexString] *)

Definition hex_digit (d : Z) : Z := if (d <? 10)%Z then (48 + d)%Z else (87 + d)%Z.

(** [setw(2) << setfill('0') << hex << (int)(uint8_t)c << " "] *)
Definition hex_byte (c : Z) : list Z :=
  let c := u8 c in [hex_digit (c / 16); hex_digit (c mod 16); 32%Z].

Fixpoint hex_loop (i : nat) (str : list Z) : list Z :=
  match str with
  | [] => []
  | c :: str =>
      (if (0 <? i) && (i mod 32 =? 0) then [10%Z] else []) ++ hex_byte c ++ hex_loop (S i) str
  end.

Definition toHexString (s : bytearray) : outcome (list Z) :=
  str ← toString s; Ok (hex_loop 0 str).

(** ** Files *)

(** The loop of [writeToFile]: [ofs.write] of a negative length is
    undefined. *)
Fixpoint file_loop (fuel k : nat) (nodes : list (list Z)) (cur : option nat)
    (pos : nat) (read_size : Z) : outcome (list Z) :=
  if (read_size <=? 0)%Z then Ok [] else
  match fuel with
  | O => Err NoFuel
  | S fuel =>
      let diff := pos mod k in
      let len := ((if (Z.of_nat k <? read_size)%Z then Z.of_nat k else read_size)
                  - Z.of_nat diff)%Z in
      '(i, node) ← node_of nodes cur;
      if (len <? 0)%Z then Err (UB index_oob) else
      b ← memcpy_from node diff (Z.to_nat len);
      rest ← file_loop fuel k nodes (next_node nodes i) (pos + Z.to_nat len) (read_size - len)%Z;
      Ok (b ++ rest)
  end.

(** The bytes [writeToFile] puts in the file it has opened; each iteration
    moves one node on. *)
Definition writeToFile (s : bytearray) : outcome (list Z) :=
  file_loop (S (length (m_nodes s))) (m_baseSize s) (m_nodes s) (m_cur s) (m_position s)
    (Z.of_nat (getReadSize s)).

(** [readFromFile] of a file with the given contents: blocks of [m_baseSize]
    bytes until one comes short. *)
Fixpoint readFromFile_loop (junk : nat -> nat -> Z) (fuel : nat) (contents : list Z)
    (s : bytearray) : outcome bytearray :=
  match fuel with
  | O => Err NoFuel
  | S fuel =>
      let buff := take (m_baseSize s) contents in
      s' ← write junk buff s;
      if length buff <? m_baseSize s then Ok s'
      else readFromFile_loop junk fuel (drop (m_baseSize s) contents) s'
  end.

Definition readFromFile junk (contents : list Z) (s : bytearray) : outcome bytearray :=
  readFromFile_loop junk (S (length contents)) contents s.

(** ** Scatter and gather

    [gather] is what [writev]/[sendmsg] sends, [scatter] what
    [readv]/[recvmsg] stores when [b] arrives. *)

Definition gather (nodes : list (list Z)) (iovs : list iovec) : list Z :=
  concat (map (iov_data nodes) iovs).

Fixpoint scatter (iovs : list iovec) (b : list Z) (nodes : list (list Z)) : list (list Z) :=
  match iovs with
  | [] => nodes
  | v :: iovs =>
      scatter iovs (drop (iov_len v) b)
        (alter (splice (iov_off v) (take (iov_len v) b)) (iov_node v) nodes)
  end.

Definition set_nodes (nodes : list (list Z)) (s : bytearray) : bytearray :=
  BA (m_baseSize s) (m_position s) (m_capacity s) (m_size s) (m_endian s) nodes (m_cur s).

(** ** Facts *)

Lemma scatter_nil iovs nodes : scatter iovs [] nodes = nodes.
Proof.
  revert nodes. induction iovs as [|v iovs IH]; intros nodes; simpl; [done|].
  rewrite take_nil, drop_nil, IH. apply list_alter_id. intros. apply splice_nil.
Qed.

Lemma scatter_spec k fuel nodes i q len iovs :
  0 < k -> i < length nodes -> q < k ->
  iov_loop fuel nodes (Some i) q (k - q) len = Ok iovs ->
  uniform k nodes -> i * k + q + len <= length nodes * k ->
  forall b nodes', length b <= len -> uniform k nodes' -> length nodes' = length nodes ->
    concat (scatter iovs b nodes') = splice (i * k + q) b (concat nodes')
    /\ uniform k (scatter iovs b nodes') /\ length (scatter iovs b nodes') = length nodes.
Proof.
  intros Hk. revert i q len iovs.
  induction fuel as [|fuel IH]; intros i q len iovs Hi Hq Hl Hu Hc b nodes' Hb Hu' Hl'.
  { cbn [iov_loop] in Hl. destruct (Nat.eqb_spec len 0); [|done]. injection Hl as <-.
    destruct b; [|simpl in *; lia]. simpl. by rewrite splice_nil. }
  cbn [iov_loop] in Hl. destruct (Nat.eqb_spec len 0) as [->|].
  { injection Hl as <-. destruct b; [|simpl in *; lia]. simpl. by rewrite splice_nil. }
  destruct (node_of_Some nodes i Hi) as (node & Hn & Hno). rewrite Hno in Hl.
  cbn [mbind outcome_bind] in Hl.
  destruct (lookup_lt_is_Some_2 nodes' i) as [x Hx]; [lia|].
  assert (forall c, q + length c <= k ->
    let n1 := alter (splice q c) i nodes' in
    concat n1 = splice (i * k + q) c (concat nodes') /\ uniform k n1 /\ length n1 = length nodes)
    as Hone.
  { intros c Hcl.
    replace (alter (splice q c) i nodes') with (<[i := splice q c x]> nodes').
    2: { rewrite list_insert_alter. apply list_alter_ext; [|done]. intros. by simplify_eq. }
    simpl. split_and!.
    - by apply concat_insert_splice.
    - apply uniform_insert; [done|]. pose proof (uniform_lookup _ _ _ _ Hu' Hx).
      rewrite length_splice; lia.
    - by rewrite length_insert. }
  destruct (Nat.leb_spec len (k - q)) as [Hfit|Hfit].
  - injection Hl as <-. cbn [scatter iov_len iov_off iov_node].
    rewrite (take_ge b) by lia. apply Hone. lia.
  - assert (S i < length nodes) as HSi by (apply (index_bound k _ _ 0); lia).
    rewrite next_node_Some in Hl by lia.
    destruct (node_of_Some nodes (S i)) as (node1 & Hn1 & Hno1); [lia|].
    rewrite Hno1 in Hl. cbn [mbind outcome_bind] in Hl.
    rewrite (uniform_lookup _ _ _ _ Hu Hn1) in Hl.
    apply bind_ok in Hl as (iovs' & Hl & [= <-]).
    cbn [scatter iov_len iov_off iov_node].
    destruct (Hone (take (k - q) b)) as (Hcat & Hu1 & Hl1); [rewrite length_take; lia|].
    destruct (IH (S i) 0 (len - (k - q)) iovs') with (b := drop (k - q) b)
      (nodes' := alter (splice q (take (k - q) b)) i nodes') as (Hcat2 & Hu2 & Hl2);
      try done; try lia; [by rewrite Nat.sub_0_r|rewrite length_drop; lia|].
    split_and!; [|done..]. rewrite Hcat2, Hcat.
    destruct (decide (k - q <= length b)) as [Hge|Hlt].
    + replace (S i * k + 0) with (i * k + q + length (take (k - q) b))
        by (rewrite length_take; lia).
      rewrite splice_splice; [by rewrite take_drop|].
      rewrite length_concat_uniform with (k := k) by done. lia.
    + rewrite (drop_ge b), (take_ge b) by lia. by rewrite splice_nil.
Qed.

Section views.
Context (junk : nat -> nat -> Z).
Implicit Types s : bytearray.

(** The views of a well-formed array start at the cursor. *)
Lemma iov_loop_at_cursor len s :
  wf s -> 0 < len -> m_position s + len <= m_capacity s ->
  exists i q node iovs,
    m_position s = i * m_baseSize s + q /\ q < m_baseSize s /\ i < length (m_nodes s)
    /\ node_of (m_nodes s) (m_cur s) = Ok (i, node) /\ m_cur s = Some i
    /\ length node = m_baseSize s
    /\ iov_loop len (m_nodes s) (Some i) q (m_baseSize s - q) len = Ok iovs
    /\ gather (m_nodes s) iovs = slice (m_position s) len (flat s)
    /\ sum_list (map iov_len iovs) = len.
Proof.
  intros Hwf Hl Hc. pose proof Hwf as [Hb Hn Hu Hcap Hp Hs Hcur].
  destruct (wf_cur_Some s Hwf) as (i & q & Ep & Hq & Hi & Ec); [lia|].
  destruct (node_of_Some (m_nodes s) i Hi) as (node & Hnode & Hno).
  destruct (iov_loop_spec (m_baseSize s) len (m_nodes s) i q len)
    as (iovs & Hiov & Hd & Hsum & _); try done; try lia.
  exists i, q, node, iovs. rewrite Ec, Ep. split_and!; try done.
  - by apply (uniform_lookup _ _ _ _ Hu Hnode).
  - by apply Hd.
Qed.

Lemma getReadBuffers_spec len s :
  wf s -> (0 <= len)%Z ->
  let n := Nat.min (Z.to_nat len) (getReadSize s) in
  exists iovs, getReadBuffers len s = Ok (iovs, n)
    /\ gather (m_nodes s) iovs = take n (vec_rest (abs s))
    /\ sum_list (map iov_len iovs) = n.
Proof.
  intros Hwf Hlen n. unfold getReadBuffers.
  assert ((if (Z.of_nat (getReadSize s) <? len)%Z then getReadSize s else Z.to_nat len) = n) as ->
    by (subst n; destruct (Z.ltb_spec (Z.of_nat (getReadSize s)) len); lia).
  destruct (Nat.eqb_spec n 0) as [->|Hn]; [by exists []|].
  pose proof Hwf as [Hb _ _ _ Hp Hs _]. destruct (Nat.eqb_spec (m_baseSize s) 0); [lia|].
  assert (n <= getReadSize s) as Hle by lia. unfold getReadSize in Hle.
  destruct (iov_loop_at_cursor n s Hwf) as (i & q & node & iovs & Ep & Hq & Hi & -> & Ec & El & Hiov & Hg & Hsum);
    [lia..|].
  cbn [mbind outcome_bind]. rewrite El, Ec, Ep, mod_index, Hiov by done.
  exists iovs. split_and!; [done| |done]. rewrite Hg. symmetry. apply slice_take. lia.
Qed.

(** [recvmsg] into the write buffers followed by [setPosition] is [write]. *)
Lemma getWriteBuffers_spec len s :
  wf s -> exists iovs s1,
    getWriteBuffers junk len s = Ok (iovs, len, s1) /\ wf s1 /\ abs s1 = abs s
    /\ sum_list (map iov_len iovs) = len
    /\ forall b, length b <= len ->
         exists s2, setPosition (m_position s + length b)
                      (set_nodes (scatter iovs b (m_nodes s1)) s1) = Ok s2
           /\ wf s2 /\ abs s2 = vec_write b (abs s).
Proof.
  intros Hwf. unfold getWriteBuffers.
  assert (forall s1 iovs b, wf s1 -> abs s1 = abs s -> m_position s + length b <= m_capacity s1 ->
    concat (scatter iovs b (m_nodes s1)) = splice (m_position s) b (flat s1) ->
    uniform (m_baseSize s1) (scatter iovs b (m_nodes s1)) ->
    length (scatter iovs b (m_nodes s1)) = length (m_nodes s1) ->
    exists s2, setPosition (m_position s + length b)
                 (set_nodes (scatter iovs b (m_nodes s1)) s1) = Ok s2
      /\ wf s2 /\ abs s2 = vec_write b (abs s)) as Hfin.
  { intros s1 iovs b Hwf1 Ha Hcap Hcat Hu Hl.
    assert (wf (set_nodes (scatter iovs b (m_nodes s1)) s1)) as Hwf1'
      by (destruct Hwf1; constructor; simpl; congruence || lia || done).
    destruct (setPosition_spec (m_position s + length b) _ Hwf1' Hcap)
      as (s2 & -> & Hwf2 & Ep & Es & En & Ee & _).
    exists s2. split_and!; [done..|]. rewrite <- Ha.
    assert (m_position s1 = m_position s) as Ep1 by (by injection Ha).
    unfold abs, data, flat, vec_write. simpl. rewrite Es, En, Ep, Ee. simpl.
    rewrite Ep1, Hcat. change (concat (m_nodes s1)) with (flat s1).
    f_equal. apply take_splice;
      rewrite ?length_flat by done; destruct Hwf1; lia. }
  destruct (Nat.eqb_spec len 0) as [->|Hlen].
  { exists [], s. split_and!; try done. intros b Hb. destruct b; [|simpl in Hb; lia].
    apply Hfin; simpl; rewrite ?splice_nil; try done; [destruct Hwf; lia|apply Hwf]. }
  destruct (addCapacity_spec junk len s Hwf)
    as (s1 & extra & -> & Hwf1 & Eb & Ep & Es & Ee & Ef & Hcap & _).
  cbn [mbind outcome_bind]. pose proof Hwf1 as [Hb1 Hn1 Hu1 Hc1 Hp1 Hs1 Hcur1].
  destruct (Nat.eqb_spec (m_baseSize s1) 0); [lia|].
  destruct (iov_loop_at_cursor len s1 Hwf1)
    as (i & q & node & iovs & Epos & Hq & Hi & -> & Ec & El & Hiov & _ & Hsum); [lia..|].
  cbn [mbind outcome_bind]. rewrite El, Ec, Epos, mod_index, Hiov by done. cbn [mbind outcome_bind].
  assert (abs s1 = abs s) as Ha.
  { unfold abs, data. rewrite Es, Ep, Ee, Ef, take_app_le; [done|].
    rewrite length_flat by done. apply Hwf. }
  exists iovs, s1. split_and!; [done..|]. intros b Hb.
  destruct (scatter_spec (m_baseSize s1) len (m_nodes s1) i q len iovs) with (b := b) (nodes' := m_nodes s1)
    as (Hcat & Hu2 & Hl2); try done; [lia|].
  apply Hfin; try done; [lia|]. rewrite Hcat. unfold flat. f_equal. lia.
Qed.
End views.

(** ** Files *)

Lemma file_loop_aligned k nodes fuel i read_size :
  0 < k -> uniform k nodes -> i * k + read_size <= length nodes * k -> length nodes < i + fuel ->
  file_loop fuel k nodes (cur_of k (length nodes) (i * k)) (i * k) (Z.of_nat read_size) =
    Ok (slice (i * k) read_size (concat nodes)).
Proof.
  intros Hk Hu. revert i read_size. induction fuel as [|fuel IH]; intros i n Hn Hf.
  { assert (n = 0) as -> by nia. done. }
  cbn [file_loop]. destruct (Z.leb_spec (Z.of_nat n) 0).
  { by replace n with 0 by lia. }
  assert (i < length nodes) as Hi by (apply (index_bound k _ _ 0); lia).
  replace (cur_of k (length nodes) (i * k)) with (Some i)
    by (replace (i * k) with (i * k + 0) by lia; by rewrite cur_of_index).
  destruct (node_of_Some nodes i Hi) as (node & Hnode & ->). cbn [mbind outcome_bind].
  rewrite Nat.Div0.mod_mul. set (m := Nat.min k n).
  replace ((if (Z.of_nat k <? Z.of_nat n)%Z then Z.of_nat k else Z.of_nat n) - Z.of_nat 0)%Z
    with (Z.of_nat m) by (destruct (Z.ltb_spec (Z.of_nat k) (Z.of_nat n)); lia).
  destruct (Z.ltb_spec (Z.of_nat m) 0); [lia|]. rewrite Nat2Z.id.
  pose proof (uniform_lookup _ _ _ _ Hu Hnode). unfold memcpy_from.
  rewrite (proj2 (Nat.leb_le _ _)) by lia. cbn [mbind outcome_bind].
  rewrite (concat_slice k nodes i node) by (done || lia). rewrite Nat.add_0_r.
  destruct (decide (n <= k)) as [Hle|Hgt].
  - replace m with n by lia. rewrite Z.sub_diag.
    destruct fuel; simpl; by rewrite app_nil_r.
  - replace m with k by lia. rewrite <- (cur_of_next k nodes i) by done.
    replace (i * k + k) with (S i * k) by lia.
    replace (Z.of_nat n - Z.of_nat k)%Z with (Z.of_nat (n - k)) by lia.
    rewrite IH by lia. cbn [mbind outcome_bind]. f_equal.
    replace n with (k + (n - k)) at 2 by lia. rewrite slice_app_split.
    do 2 f_equal. lia.
Qed.

(** [writeToFile] stores the readable bytes when the cursor is at a node
    boundary or at least a node's worth of bytes is readable. *)
Lemma writeToFile_spec s :
  wf s -> m_position s mod m_baseSize s = 0 \/ m_baseSize s <= getReadSize s ->
  writeToFile s = Ok (vec_rest (abs s)).
Proof.
  intros Hwf Hd. pose proof Hwf as [Hb Hn Hu Hcap Hp Hs Hcur]. unfold writeToFile.
  assert (forall n, n = getReadSize s -> slice (m_position s) n (flat s) = vec_rest (abs s)) as Hrest.
  { intros n ->. by apply slice_rest. }
  destruct (split_position (m_baseSize s) (m_position s) Hb) as (i & q & Ep & Hq).
  destruct (decide (q = 0)) as [->|Hq0].
  - rewrite Hcur, Ep, Nat.add_0_r, file_loop_aligned; try done.
    + rewrite <- (Hrest (getReadSize s)) by done. do 2 f_equal. lia.
    + unfold getReadSize. lia.
    + lia.
  - rewrite Ep, mod_index in Hd by done. destruct Hd as [|Hd]; [lia|].
    unfold getReadSize in *. rewrite Hcur, Ep. cbn [file_loop].
    destruct (Z.leb_spec (Z.of_nat (m_size s - (i * m_baseSize s + q))) 0); [lia|].
    assert (i < length (m_nodes s)) as Hi by (apply (index_bound (m_baseSize s) _ _ q); lia).
    rewrite cur_of_index by done.
    destruct (node_of_Some (m_nodes s) i Hi) as (node & Hnode & ->). cbn [mbind outcome_bind].
    rewrite mod_index by done. set (n := m_size s - _).
    replace ((if (Z.of_nat (m_baseSize s) <? Z.of_nat n)%Z then Z.of_nat (m_baseSize s) else Z.of_nat n)
             - Z.of_nat q)%Z with (Z.of_nat (m_baseSize s - q))
      by (destruct (Z.ltb_spec (Z.of_nat (m_baseSize s)) (Z.of_nat n)); lia).
    destruct (Z.ltb_spec (Z.of_nat (m_baseSize s - q)) 0); [lia|]. rewrite Nat2Z.id.
    pose proof (uniform_lookup _ _ _ _ Hu Hnode). unfold memcpy_from.
    rewrite (proj2 (Nat.leb_le _ _)) by lia. cbn [mbind outcome_bind].
    rewrite (concat_slice (m_baseSize s) (m_nodes s) i node) by (done || lia).
    rewrite <- (cur_of_next (m_baseSize s)) by done.
    replace (i * m_baseSize s + q + (m_baseSize s - q)) with (S i * m_baseSize s) by lia.
    replace (i * m_baseSize s + m_baseSize s) with (S i * m_baseSize s) by lia.
    replace (Z.of_nat n - Z.of_nat (m_baseSize s - q))%Z
      with (Z.of_nat (n - (m_baseSize s - q))) by lia.
    rewrite file_loop_aligned by (done || lia). cbn [mbind outcome_bind]. f_equal.
    rewrite <- (Hrest n) by lia. rewrite Ep.
    replace n with ((m_baseSize s - q) + (n - (m_baseSize s - q))) at 2 by lia.
    rewrite slice_app_split. unfold flat. do 2 f_equal. lia.
Qed.

(** [readFromFile] appends the contents of the file at the cursor. *)
Lemma readFromFile_spec junk contents s :
  wf s -> exists s', readFromFile junk contents s = Ok s' /\ wf s'
    /\ abs s' = vec_write contents (abs s) /\ m_baseSize s' = m_baseSize s.
Proof.
  unfold readFromFile.
  assert (forall fuel c s, length c < fuel -> wf s ->
    exists s', readFromFile_loop junk fuel c s = Ok s' /\ wf s' /\ abs s' = vec_write c (abs s)
      /\ m_baseSize s' = m_baseSize s) as H.
  { clear. induction fuel as [|fuel IH]; intros c s Hf Hwf; [lia|]. cbn [readFromFile_loop].
    destruct (write_spec junk (take (m_baseSize s) c) s Hwf) as (s1' & ? & E1 & _ & Eb & _).
    destruct (write_refines junk (take (m_baseSize s) c) s Hwf) as (s1 & Hw & Hwf1 & Ha).
    rewrite Hw in E1. injection E1 as <-. rewrite Hw. cbn [mbind outcome_bind].
    pose proof (wf_base s Hwf).
    destruct (Nat.ltb_spec (length (take (m_baseSize s) c)) (m_baseSize s)) as [Hlt|Hge];
      rewrite length_take in *.
    - exists s1. split_and!; [done..| |done]. by rewrite Ha, take_ge by lia.
    - destruct (IH (drop (m_baseSize s) c) s1) as (s2 & -> & Hwf2 & Ha2 & Eb2); [rewrite length_drop; lia|done|].
      exists s2. split_and!; [done..| |congruence].
      rewrite Ha2, Ha, splice_rest_app, take_drop by by apply wf_abs_pos. done. }
  intros. apply H; [lia|done].
Qed.

(** ** Hexadecimal *)

(** What a reader of the dump does: skip line ends, read two digits. *)
Definition digit_value (c : Z) : Z := if (c <? 58)%Z then (c - 48)%Z else (c - 87)%Z.

Fixpoint unhex (l : list Z) : list Z :=
  match l with
  | [] => []
  | c :: l1 =>
      if (c =? 10)%Z then unhex l1 else
      match l1 with
      | d :: _ :: l2 => (16 * digit_value c + digit_value d)%Z :: unhex l2
      | _ => []
      end
  end.

Lemma digit_value_hex_digit d : (0 <= d < 16)%Z ->
  digit_value (hex_digit d) = d /\ hex_digit d <> 10%Z.
Proof.
  intros. unfold digit_value, hex_digit. destruct (Z.ltb_spec d 10).
  - destruct (Z.ltb_spec (48 + d) 58); lia.
  - destruct (Z.ltb_spec (87 + d) 58); lia.
Qed.

Lemma unhex_hex_byte c l : is_byte c -> unhex (hex_byte c ++ l) = c :: unhex l.
Proof.
  intros Hc. unfold hex_byte, u8. rewrite (wrapu_small 8 c Hc). unfold is_byte, in_u in Hc.
  pose proof (Z.mod_pos_bound c 16). pose proof (Z.div_mod c 16).
  destruct (digit_value_hex_digit (c / 16)) as [E1 N1].
  { split; [apply Z.div_pos; lia|apply Z.div_lt_upper_bound; lia]. }
  destruct (digit_value_hex_digit (c mod 16)) as [E2 N2]; [lia|].
  cbn [app unhex]. destruct (Z.eqb_spec (hex_digit (c / 16)) 10); [done|].
  rewrite E1, E2. f_equal. lia.
Qed.

Lemma unhex_hex_loop i str : Forall is_byte str -> unhex (hex_loop i str) = str.
Proof.
  intros H. revert i. induction H as [|c str Hc Hs IH]; intros i; [done|]. cbn [hex_loop].
  destruct ((0 <? i) && (i mod 32 =? 0)).
  - change (unhex (hex_byte c ++ hex_loop (S i) str) = c :: str).
    by rewrite unhex_hex_byte, IH.
  - by rewrite app_nil_l, unhex_hex_byte, IH.
Qed.
