(* ===== verification/ByteArrayTheorems.v ===== *)
(** * What [sylar::ByteArray] guarantees

    The properties of the byte array, with a concrete instance of each: an
    array of four-byte nodes, so that every value below straddles nodes. *)

From stdpp Require Import base list.
From Stdlib Require Import ZArith Lia.
From S2P Require Import Prelude Endian Varint ByteArray ByteArrayFacts ByteArrayCodec ByteArraySpec ByteArrayIO.

Definition junk0 (i j : nat) : Z := 204.

Definition sample_fields : list field :=
  [Fint8 (-3); Fuint16 65000; Int32 (-70000); Uint64 (2 ^ 63); StringVint [104; 105; 33]%Z;
   Fint64 (-1); Float 1078530011; StringF16 [7]%Z].

(** C1: Any sequence of fields written to a well-formed [ByteArray] with the
    matching writers and read back with the matching readers after seeking to
    where it began gives the same sequence and ends at the same position, for
    every block size, host byte order and stream byte order and whatever
    uninitialised memory holds. A field is a value in the range of its type, for
    the zigzag encoders in the range of their own arithmetic, or a string that
    is not empty, fits its length prefix and has room in memory when it is read.
    *)
Theorem bytearray_roundtrip `{!Memory} host junk fs s :
  wf s -> Forall valid_field fs -> Forall field_room fs ->
  exists s1 s2 s3, write_fields host junk fs s = Ok s1
    /\ setPosition (m_position s) s1 = Ok s2
    /\ read_fields host fs s2 = Ok (fs, s3) /\ m_position s3 = m_position s1.
Proof. apply roundtrip. Qed.

Lemma bytearray_roundtrip_witness :
  let M : Memory := plenty in
  exists s1 s2 s3,
    write_fields SYLAR_LITTLE_ENDIAN junk0 sample_fields (mkByteArray junk0 4) = Ok s1
    /\ setPosition 0 s1 = Ok s2
    /\ read_fields SYLAR_LITTLE_ENDIAN sample_fields s2 = Ok (sample_fields, s3)
    /\ m_position s3 = m_position s1.
Proof.
  intros M. apply (bytearray_roundtrip SYLAR_LITTLE_ENDIAN junk0 sample_fields (mkByteArray junk0 4)).
  - apply wf_mkByteArray. lia.
  - apply (bool_decide_unpack (Forall valid_field sample_fields)). vm_compute. exact I.
  - repeat constructor; discriminate.
Defined.

(** C2: A run of [write], [read], [setPosition], [clear], [setIsLittleEndian]
    and [toString] calls on the chained blocks refines a growable byte vector
    with a cursor (same results, the [out_of_range] of a [read] beyond the data
    included, and corresponding states) if every [read] asks for at least one
    byte, every seek goes to a place inside the written data and every
    [toString] finds less than 2^64 bytes. A [read] of no bytes at the capacity,
    which is undefined, and seeks beyond the data, with the exception of
    [setPosition] beyond the capacity, are outside this theorem. *)
Theorem bytearray_refines_vector junk os s :
  wf s -> specified_run os (abs s) ->
  wf (run (exec junk) os s).2
  /\ (run (exec junk) os s).1 = (run vec_exec os (abs s)).1
  /\ abs (run (exec junk) os s).2 = (run vec_exec os (abs s)).2.
Proof. apply run_refines. Qed.

Definition sample_ops : list op :=
  [OWrite [1; 2; 3; 4; 5; 6]%Z; OSeek 3; ORead 2; ORead 9; OWrite [7; 8; 9]%Z; OSeek 0; OToString].

Lemma bytearray_refines_vector_witness :
  (run (exec junk0) sample_ops (mkByteArray junk0 4)).1 =
    [Ok []; Ok []; Ok [4; 5]%Z; Err (Throws out_of_range); Ok []; Ok [];
     Ok [1; 2; 3; 4; 5; 7; 8; 9]%Z].
Proof.
  destruct (bytearray_refines_vector junk0 sample_ops (mkByteArray junk0 4)) as (_ & E & _).
  - apply wf_mkByteArray. lia.
  - apply (bool_decide_unpack (specified_run sample_ops (abs (mkByteArray junk0 4)))).
    vm_compute. exact I.
  - rewrite E. vm_compute. reflexivity.
Defined.

(** The bytes a typed writer stores depend on the byte order of the
    array only: on every host, [write_field] writes the wire format
    [field_bytes] of the field at the cursor. *)
Theorem write_field_wire_format host junk f s b :
  wf s -> valid_field f -> field_bytes (m_endian s) f = Ok b ->
  exists s', write_field host junk f s = Ok s' /\ wf s' /\ abs s' = vec_write b (abs s).
Proof. intros Hwf Hv Hb. by eapply writes_as_field. Qed.

Lemma write_field_wire_format_witness :
  exists s', write_field SYLAR_LITTLE_ENDIAN junk0 (Fint32 (-2)) (mkByteArray junk0 4) = Ok s'
    /\ wf s' /\ abs s' = vec_write [255; 255; 255; 254]%Z (abs (mkByteArray junk0 4)).
Proof.
  apply (write_field_wire_format SYLAR_LITTLE_ENDIAN junk0 (Fint32 (-2)) (mkByteArray junk0 4)).
  - apply wf_mkByteArray. lia.
  - apply (bool_decide_unpack (valid_field (Fint32 (-2)))). vm_compute. exact I.
  - vm_compute. reflexivity.
Defined.

(** Storing [b] through the buffers of [getWriteBuffers] and then moving
    the position past it is the same as [write(b)], also when fewer bytes
    arrive than there is room for; handing out the buffers changes nothing
    that can be read. *)
Theorem getWriteBuffers_scatter_is_write junk len s :
  wf s -> exists iovs s1,
    getWriteBuffers junk len s = Ok (iovs, len, s1) /\ wf s1 /\ abs s1 = abs s
    /\ sum_list (map iov_len iovs) = len
    /\ forall b, length b <= len ->
         exists s2, setPosition (m_position s + length b)
                      (set_nodes (scatter iovs b (m_nodes s1)) s1) = Ok s2
           /\ wf s2 /\ abs s2 = vec_write b (abs s).
Proof. apply getWriteBuffers_spec. Qed.

Lemma getWriteBuffers_scatter_is_write_witness :
  exists iovs s1, getWriteBuffers junk0 10 (mkByteArray junk0 4) = Ok (iovs, 10, s1)
    /\ wf s1 /\ abs s1 = abs (mkByteArray junk0 4) /\ sum_list (map iov_len iovs) = 10
    /\ forall b, length b <= 10 ->
         exists s2, setPosition (0 + length b)
                      (set_nodes (scatter iovs b (m_nodes s1)) s1) = Ok s2
           /\ wf s2 /\ abs s2 = vec_write b (abs (mkByteArray junk0 4)).
Proof.
  apply (getWriteBuffers_scatter_is_write junk0 10 (mkByteArray junk0 4)).
  apply wf_mkByteArray. lia.
Defined.

(** The buffers of [getReadBuffers(len)] designate, in order, exactly the
    next [min(len, getReadSize())] readable bytes, and their lengths add up to
    the number returned. *)
Theorem getReadBuffers_gather len s :
  wf s -> (0 <= len)%Z ->
  exists iovs,
    getReadBuffers len s = Ok (iovs, Nat.min (Z.to_nat len) (getReadSize s))
    /\ gather (m_nodes s) iovs = take (Nat.min (Z.to_nat len) (getReadSize s)) (vec_rest (abs s))
    /\ sum_list (map iov_len iovs) = Nat.min (Z.to_nat len) (getReadSize s).
Proof. apply getReadBuffers_spec. Qed.

Lemma getReadBuffers_gather_witness :
  exists iovs,
    getReadBuffers 100 (mkByteArray junk0 4) = Ok (iovs, 0)
    /\ gather (m_nodes (mkByteArray junk0 4)) iovs = []
    /\ sum_list (map iov_len iovs) = 0.
Proof.
  apply (getReadBuffers_gather 100 (mkByteArray junk0 4)); [|lia].
  apply wf_mkByteArray. lia.
Defined.

(** [readFromFile] appends the whole file at the cursor, and
    [writeToFile] stores exactly the readable bytes when the cursor is at a
    node boundary or at least a node's worth of bytes is readable; so a file
    read into an array at a node boundary, sought back and written is the same
    file. *)
Theorem file_roundtrip junk contents s :
  wf s -> m_position s = m_size s -> m_position s mod m_baseSize s = 0 ->
  exists s1 s2, readFromFile junk contents s = Ok s1
    /\ setPosition (m_position s) s1 = Ok s2 /\ writeToFile s2 = Ok contents.
Proof.
  intros Hwf Hend Hmod. pose proof (wf_abs_pos s Hwf) as Hpos. simpl in Hpos.
  destruct (readFromFile_spec junk contents s Hwf) as (s1 & H1 & Hwf1 & Ha1 & Eb).
  assert (data s1 = splice (m_position s) contents (data s)) as Ed by (by injection Ha1).
  destruct (setPosition_refines (m_position s) s1) as (s2 & H2 & Hwf2 & Ha2); [done| |].
  { rewrite <- (length_data s1), Ed by done. rewrite length_splice_max by done. lia. }
  assert (m_position s2 = m_position s /\ m_baseSize s2 = m_baseSize s) as [Ep2 Eb2].
  { destruct (setPosition_spec (m_position s) s1 Hwf1) as (s2' & H2' & _ & ? & _ & _ & _ & Eb1 & _).
    - injection Ha1 as _ Ep1 _. destruct Hwf1. lia.
    - rewrite H2 in H2'. injection H2' as <-. split; congruence. }
  exists s1, s2. split_and!; [done..|].
  rewrite writeToFile_spec; [|done|left; by rewrite Ep2, Eb2].
  rewrite Ha2. unfold vec_rest. simpl. rewrite Ed, drop_splice by done.
  rewrite drop_ge, app_nil_r; [done|]. rewrite length_data by done. lia.
Qed.

Lemma file_roundtrip_witness :
  exists s1 s2, readFromFile junk0 [1; 2; 3; 4; 5]%Z (mkByteArray junk0 4) = Ok s1
    /\ setPosition 0 s1 = Ok s2 /\ writeToFile s2 = Ok [1; 2; 3; 4; 5]%Z.
Proof.
  apply (file_roundtrip junk0 [1; 2; 3; 4; 5]%Z (mkByteArray junk0 4)); [|done..].
  apply wf_mkByteArray. lia.
Defined.

(** [writeToFile] from the middle of a node with fewer readable bytes
    than the node's size does not store the readable bytes: with "abc" in one
    four-byte node and the position at 1 it stores one byte and then
    dereferences the null [next] of the last node. *)
Theorem writeToFile_mid_node :
  match (s ← write junk0 [97; 98; 99]%Z (mkByteArray junk0 4); setPosition 1 s) with
  | Ok s => toString s = Ok [98; 99]%Z /\ writeToFile s = Err (UB null_deref)
  | Err _ => False
  end.
Proof. vm_compute. split; reflexivity. Qed.

(** When the written bytes fill the chain exactly, even a read of zero
    bytes dereferences the null cursor: an empty string written at such a
    place cannot be read back. *)
Theorem empty_read_at_capacity s :
  wf s -> m_position s = m_capacity s -> read 0 s = Err (UB null_deref).
Proof. apply read_at_end. Qed.

Lemma empty_read_at_capacity_witness :
  match write_fields SYLAR_LITTLE_ENDIAN junk0 [Fuint16 7; StringF16 []] (mkByteArray junk0 4) with
  | Ok s => read 0 s = Err (UB null_deref)
  | Err _ => False
  end.
Proof.
  destruct (write_spec junk0 [0; 7; 0; 0]%Z (mkByteArray junk0 4)) as (s & x & E & Hwf & _);
    [apply wf_mkByteArray; lia|].
  vm_compute in E. injection E as <-.
  exact (empty_read_at_capacity _ Hwf eq_refl).
Defined.

(** The zigzag encoders are defined exactly on [-2^(w-1) < v < 2^(w-2)]:
    outside it, for representable [v], the doubling or the negation overflows a
    signed integer, which is undefined; inside it decoding inverts encoding. *)
Theorem zigzag_domain w v :
  (2 <= w)%Z -> in_s w v ->
  (zigzag_safe w v -> exists e, EncodeZigzag w v = Ok e /\ in_u w e /\ DecodeZigzag w e = v)
  /\ (~ zigzag_safe w v -> EncodeZigzag w v = Err (UB signed_overflow)).
Proof.
  intros Hw Hv. split.
  - intros Hs. eexists. split; [by apply EncodeZigzag_spec|].
    split; [by eapply EncodeZigzag_range, EncodeZigzag_spec|].
    by eapply DecodeZigzag_EncodeZigzag, EncodeZigzag_spec.
  - by apply EncodeZigzag_unsafe.
Qed.

Lemma zigzag_domain_witness :
  (exists e, EncodeZigzag 32 (-70000) = Ok e /\ in_u 32 e /\ DecodeZigzag 32 e = (-70000)%Z)
  /\ EncodeZigzag 32 (2 ^ 30) = Err (UB signed_overflow).
Proof.
  split.
  - apply (zigzag_domain 32 (-70000)); [lia|unfold in_s; lia|unfold zigzag_safe; lia].
  - apply (zigzag_domain 32 (2 ^ 30)); [lia|unfold in_s; lia|unfold zigzag_safe; lia].
Defined.

(** The hexadecimal dump is faithful: reading the pairs of digits of
    [toHexString] back gives the readable bytes. *)
Theorem toHexString_faithful s :
  wf s -> (Z.of_nat (m_size s) < 2 ^ 64)%Z -> Forall is_byte (vec_rest (abs s)) ->
  exists h, toHexString s = Ok h /\ unhex h = vec_rest (abs s).
Proof.
  intros Hwf H64 Hb. unfold toHexString. rewrite toString_refines by done.
  eexists. split; [reflexivity|]. by apply unhex_hex_loop.
Qed.

Lemma toHexString_faithful_witness :
  exists h, toHexString (mkByteArray junk0 4) = Ok h /\ unhex h = [].
Proof.
  apply (toHexString_faithful (mkByteArray junk0 4)); [apply wf_mkByteArray; lia|simpl; lia|].
  constructor.
Defined.
