(* ===== verification/Timer.v ===== *)
(** * [sylar::Timer] and [sylar::TimerManager]: [sylar/timer.h], [sylar/timer.cc]

    [Timer] objects live on the heap and are shared; [heap] maps the address
    of each to its fields, and the [std::set] ordered by [Timer::Comparator]
    is the list of the addresses in iteration order.  The comparator reads the
    heap, so an operation that changes [m_next] while the timer is in the set
    would break the order: that none does is part of the invariant.

    Every operation runs under [m_mutex] and is one atomic step, except
    [listExpiredCb], which releases the lock between its emptiness test and
    its body, and is two.  The current time [GetCurrentMS()] an operation
    reads is its argument [now]; [onTimerInsertedtAtFront] is a result bit. *)

From stdpp Require Import base list gmap.
From Stdlib Require Import ZArith Lia Sorted.
From S2P Require Import Prelude.

(** A [std::function<void()>]: a client's function, or the closure
    [std::bind(&OnTimer, weak_cond, cb)]; [None] is the empty function. *)
Inductive callback :=
  | Fn (id : nat)
  | OnTimer (weak_cond : nat) (cb : option callback).

Record timer := Timer {
  m_recurring : bool;
  m_ms : Z;
  m_next : Z;
  m_cb : option callback;
}.

Record manager := TM {
  heap : gmap nat timer;
  m_timers : list nat;
  m_tickled : bool;
  m_previouseTime : Z;
}.

(** ** The ordered set *)

Definition next_of (h : gmap nat timer) (a : nat) : Z :=
  match h !! a with Some t => m_next t | None => 0%Z end.

(** [Timer::Comparator] on pointers that are not null compares these. *)
Definition key_lt (k1 k2 : Z * nat) : bool :=
  if (k1.1 <? k2.1)%Z then true else
  if (k2.1 <? k1.1)%Z then false else k1.2 <? k2.2.

Definition Comparator (h : gmap nat timer) (lhs rhs : option nat) : bool :=
  match lhs, rhs with
  | None, None => false
  | None, Some _ => true
  | Some _, None => false
  | Some a, Some b => key_lt (next_of h a, a) (next_of h b, b)
  end.

Definition less (h : gmap nat timer) (a b : nat) : bool := Comparator h (Some a) (Some b).

(** [m_timers.insert(x)] *)
Fixpoint set_insert (h : gmap nat timer) (x : nat) (l : list nat) : list nat :=
  match l with
  | [] => [x]
  | y :: l' =>
      if less h x y then x :: l
      else if less h y x then y :: set_insert h x l'
      else l
  end.

(** [m_timers.find(x)]: the element equivalent to [x], as an iterator. *)
Definition set_find (h : gmap nat timer) (x : nat) (l : list nat) : option nat :=
  fst <$> list_find (fun y => less h x y = false /\ less h y x = false) l.

(** The number of leading elements that satisfy [P]. *)
Fixpoint count_while {A} (P : A -> bool) (l : list A) : nat :=
  match l with
  | [] => 0
  | x :: l => if P x then S (count_while P l) else 0
  end.

(** ** [Timer] *)

Definition timer_at (a : nat) (s : manager) : outcome timer := deref null_deref (heap s !! a).

Definition set_heap (a : nat) (t : timer) (s : manager) : manager :=
  TM (<[a := t]> (heap s)) (m_timers s) (m_tickled s) (m_previouseTime s).
Definition set_timers (l : list nat) (s : manager) : manager :=
  TM (heap s) l (m_tickled s) (m_previouseTime s).

Definition cancel (a : nat) (s : manager) : outcome (bool * manager) :=
  t ← timer_at a s;
  match m_cb t with
  | Some _ =>
      let s := set_heap a (Timer (m_recurring t) (m_ms t) (m_next t) None) s in
      it ← deref bad_iterator (set_find (heap s) a (m_timers s));
      Ok (true, set_timers (delete it (m_timers s)) s)
  | None => Ok (false, s)
  end.

Definition refresh (now : Z) (a : nat) (s : manager) : outcome (bool * manager) :=
  t ← timer_at a s;
  if decide (m_cb t = None) then Ok (false, s) else
  match set_find (heap s) a (m_timers s) with
  | None => Ok (false, s)
  | Some it =>
      let s := set_timers (delete it (m_timers s)) s in
      let s := set_heap a (Timer (m_recurring t) (m_ms t) (u64 (now + m_ms t)) (m_cb t)) s in
      Ok (true, set_timers (set_insert (heap s) a (m_timers s)) s)
  end.

(** [TimerManager::addTimer(Timer::ptr, lock)]: whether
    [onTimerInsertedtAtFront] is called, and the state. *)
Definition addTimer_locked (a : nat) (s : manager) : bool * manager :=
  let l := set_insert (heap s) a (m_timers s) in
  let at_front := bool_decide (head l = Some a) && negb (m_tickled s) in
  (at_front, TM (heap s) l (if at_front then true else m_tickled s) (m_previouseTime s)).

(** [Timer::reset]: its result, whether the front callback runs, the state. *)
Definition reset (now ms : Z) (from_now : bool) (a : nat) (s : manager)
    : outcome (bool * bool * manager) :=
  t ← timer_at a s;
  if (ms =? m_ms t)%Z && negb from_now then Ok (true, false, s) else
  if decide (m_cb t = None) then Ok (false, false, s) else
  match set_find (heap s) a (m_timers s) with
  | None => Ok (false, false, s)
  | Some it =>
      let s := set_timers (delete it (m_timers s)) s in
      let start := if from_now then now else u64 (m_next t - m_ms t) in
      let s := set_heap a (Timer (m_recurring t) ms (u64 (start + ms)) (m_cb t)) s in
      let '(front, s) := addTimer_locked a s in
      Ok (true, front, s)
  end.

(** ** [TimerManager] *)

Definition mkTimerManager (now : Z) : manager := TM ∅ [] false now.

(** [addTimer(ms, cb, recurring)]; [a] is the address [new Timer] returns. *)
Definition addTimer (a : nat) (now ms : Z) (cb : option callback) (recurring : bool)
    (s : manager) : bool * manager :=
  addTimer_locked a (set_heap a (Timer recurring ms (u64 (now + ms)) cb) s).

Definition addConditionTimer (a : nat) (now ms : Z) (cb : option callback) (weak_cond : nat)
    (recurring : bool) (s : manager) : bool * manager :=
  addTimer a now ms (Some (OnTimer weak_cond cb)) recurring s.

(** Calling a [std::function]: the client functions that run, in order, when
    the weak pointers that can be locked are those in [alive]. *)
Fixpoint invoke (alive : nat -> bool) (cb : callback) : outcome (list nat) :=
  match cb with
  | Fn id => Ok [id]
  | OnTimer weak_cond cb =>
      if alive weak_cond then
        match cb with Some cb => invoke alive cb | None => Err (Throws bad_function_call) end
      else Ok []
  end.

Definition getNextTimer (now : Z) (s : manager) : Z * manager :=
  let s := TM (heap s) (m_timers s) false (m_previouseTime s) in
  match m_timers s with
  | [] => (2 ^ 64 - 1, s)%Z
  | next :: _ =>
      (if (next_of (heap s) next <=? now)%Z then 0 else u64 (next_of (heap s) next - now), s)%Z
  end.

Definition hasTimer (s : manager) : bool := match m_timers s with [] => false | _ => true end.

Definition detectClockRollover (now : Z) (s : manager) : bool * manager :=
  ((now <? m_previouseTime s)%Z && (now <? u64 (m_previouseTime s - 60 * 60 * 1000))%Z,
   TM (heap s) (m_timers s) (m_tickled s) now).

(** The iterator [it] of [listExpiredCb]: how many timers it takes.  [a] is
    the address of [now_timer]. *)
Definition expired_end (rollover : bool) (a : nat) (now : Z) (s : manager) : nat :=
  let l := m_timers s in
  let it := if rollover then length l
            else count_while (fun y => key_lt (next_of (heap s) y, y) (now, a)) l in
  it + count_while (fun y => next_of (heap s) y =? now)%Z (drop it l).

(** The loop over [expried]. *)
Fixpoint fire_loop (now : Z) (expried : list nat) (s : manager)
    : outcome (list (option callback) * manager) :=
  match expried with
  | [] => Ok ([], s)
  | a :: expried =>
      t ← timer_at a s;
      let s :=
        if m_recurring t then
          let s := set_heap a (Timer true (m_ms t) (u64 (now + m_ms t)) (m_cb t)) s in
          set_timers (set_insert (heap s) a (m_timers s)) s
        else set_heap a (Timer false (m_ms t) (m_next t) None) s in
      '(cbs, s) ← fire_loop now expried s;
      Ok (m_cb t :: cbs, s)
  end.

(** The part of [listExpiredCb] under the write lock. *)
Definition listExpiredCb_body (a : nat) (now : Z) (s : manager)
    : outcome (list (option callback) * manager) :=
  let '(rollover, s) := detectClockRollover now s in
  none ← (if rollover then Ok false else
           first ← deref bad_iterator (head (m_timers s));
           Ok (now <? next_of (heap s) first)%Z);
  if (none : bool) then Ok ([], s) else
  let it := expired_end rollover a now s in
  let expried := take it (m_timers s) in
  fire_loop now expried (set_timers (drop it (m_timers s)) s).

(** [listExpiredCb] when no other thread runs between its two locks. *)
Definition listExpiredCb (a : nat) (now : Z) (s : manager)
    : outcome (list (option callback) * manager) :=
  if hasTimer s then listExpiredCb_body a now s else Ok ([], s).

(** ** The order *)

Lemma less_irrefl h a : less h a a = false.
Proof. unfold less, Comparator, key_lt. simpl. rewrite !Z.ltb_irrefl. apply Nat.ltb_irrefl. Qed.

Lemma key_lt_spec k1 k2 :
  key_lt k1 k2 = true <-> (k1.1 < k2.1)%Z \/ k1.1 = k2.1 /\ k1.2 < k2.2.
Proof.
  unfold key_lt. destruct (Z.ltb_spec k1.1 k2.1); [split; [by left|done]|].
  destruct (Z.ltb_spec k2.1 k1.1); [split; [done|lia]|].
  rewrite Nat.ltb_lt. split; [right|]; lia.
Qed.

Lemma less_spec h a b :
  less h a b = true <-> (next_of h a < next_of h b)%Z \/ next_of h a = next_of h b /\ a < b.
Proof. apply key_lt_spec. Qed.

Lemma less_trans h a b c : less h a b = true -> less h b c = true -> less h a c = true.
Proof. rewrite !less_spec. lia. Qed.

Lemma less_total h a b : less h a b = false -> less h b a = false -> a = b.
Proof. rewrite <- !not_true_iff_false, !less_spec. lia. Qed.

(** Strictly increasing lists of timers. *)
Definition sorted (h : gmap nat timer) : list nat -> Prop :=
  StronglySorted (fun a b => less h a b = true).

Lemma sorted_cons h a l :
  sorted h (a :: l) <-> sorted h l /\ Forall (fun b => less h a b = true) l.
Proof. split; [by inversion 1|intros []; by constructor]. Qed.

Lemma less_ext h h' a b :
  next_of h' a = next_of h a -> next_of h' b = next_of h b -> less h' a b = less h a b.
Proof. intros E1 E2. unfold less, Comparator. by rewrite E1, E2. Qed.

Lemma sorted_ext h h' l :
  (forall a, a ∈ l -> next_of h' a = next_of h a) -> sorted h l -> sorted h' l.
Proof.
  intros E. induction 1 as [|a l Hs IH Hf]; [constructor|].
  constructor; [apply IH; intros; apply E; by right|].
  rewrite Forall_forall in *. intros b Hb.
  rewrite (less_ext h h'); [by apply Hf|apply E; by left|apply E; by right].
Qed.

Lemma sorted_NoDup h l : sorted h l -> NoDup l.
Proof.
  induction 1 as [|a l Hs IH Hf]; constructor; [|done].
  intros Ha. rewrite Forall_forall in Hf. specialize (Hf _ Ha). by rewrite less_irrefl in Hf.
Qed.

Lemma set_insert_perm h x l : x ∉ l -> set_insert h x l ≡ₚ x :: l.
Proof.
  induction l as [|y l IH]; intros Hx; simpl; [done|].
  apply not_elem_of_cons in Hx as [Hxy Hx].
  destruct (less h x y) eqn:E1; [done|].
  destruct (less h y x) eqn:E2; [|by apply (less_total h) in E2].
  rewrite IH by done. constructor.
Qed.

Lemma set_insert_sorted h x l : sorted h l -> x ∉ l -> sorted h (set_insert h x l).
Proof.
  intros Hs Hx. induction Hs as [|y l Hs IH Hf]; simpl; [repeat constructor|].
  apply not_elem_of_cons in Hx as [Hxy Hx].
  destruct (less h x y) eqn:E1.
  - apply sorted_cons. split; [by constructor|]. constructor; [done|].
    rewrite Forall_forall in *. intros b Hb. eapply less_trans; [done|]. by apply Hf.
  - destruct (less h y x) eqn:E2; [|by apply (less_total h) in E2].
    apply sorted_cons. split; [by apply IH|].
    rewrite Forall_forall in *. intros b Hb. rewrite set_insert_perm in Hb by done.
    apply elem_of_cons in Hb as [->|Hb]; [done|by apply Hf].
Qed.

Lemma set_find_elem h x l : x ∈ l -> exists i, set_find h x l = Some i /\ l !! i = Some x.
Proof.
  intros Hx. unfold set_find.
  destruct (list_find_elem_of (fun y => less h x y = false /\ less h y x = false) l x)
    as [[i y] Hf]; [done|by rewrite less_irrefl|].
  rewrite Hf. exists i. split; [done|].
  apply list_find_Some in Hf as (Hi & [H1 H2] & _). by rewrite (less_total h x y).
Qed.

Lemma set_find_None h x l : x ∉ l -> set_find h x l = None.
Proof.
  intros Hx. unfold set_find.
  destruct (list_find _ l) as [[i y]|] eqn:Hf; [|done].
  apply list_find_Some in Hf as (Hi & [H1 H2] & _). rewrite (less_total h x y) in Hx by done.
  destruct Hx. by eapply list_elem_of_lookup_2.
Qed.

Lemma sorted_delete h i l : sorted h l -> sorted h (delete i l).
Proof.
  intros Hs. revert i. induction Hs as [|y l Hs IH Hf]; intros [|i]; simpl; try done;
    try constructor; [apply IH|].
  rewrite Forall_forall in *. intros b Hb. apply Hf. by eapply list_elem_of_delete_inv.
Qed.

Lemma perm_delete_iff {l : list nat} {i x} :
  NoDup l -> l !! i = Some x -> forall b, b ∈ delete i l <-> b ∈ l /\ b <> x.
Proof.
  intros Hn Hi b. pose proof (delete_Permutation l i x Hi) as Hp.
  rewrite Hp in Hn. apply NoDup_cons in Hn as [Hx Hn].
  assert (b ∈ l <-> b = x \/ b ∈ delete i l) as ->.
  { rewrite <- elem_of_cons. by rewrite <- Hp. }
  naive_solver.
Qed.

(** ** Splitting a sorted set at a bound *)

Section split.
Context {A : Type} (R : A -> A -> Prop).

Lemma count_while_le (P : A -> bool) l : count_while P l <= length l.
Proof. induction l as [|x l IH]; simpl; [lia|]. destruct (P x); lia. Qed.

Definition downward (P : A -> bool) : Prop := forall x y, R x y -> P y = true -> P x = true.

Lemma count_while_none (P : A -> bool) x l :
  downward P -> Forall (R x) l -> P x = false -> filter (fun y => P y = true) l = [].
Proof.
  intros HP Hf Hx. apply filter_none. eapply Forall_impl; [done|].
  intros y Hy Hp. rewrite (HP x y) in Hx; done.
Qed.

Lemma count_while_filter (P : A -> bool) l :
  StronglySorted R l -> downward P ->
  take (count_while P l) l = filter (fun y => P y = true) l
  /\ drop (count_while P l) l = filter (fun y => P y = false) l.
Proof.
  intros Hs HP. induction Hs as [|x l Hs IH Hf]; [done|]. cbn [count_while].
  destruct (P x) eqn:Hx.
  - rewrite filter_cons_True, (filter_cons_False _ x) by congruence. simpl.
    destruct IH as [-> ->]. done.
  - rewrite filter_cons_False, (filter_cons_True _ x) by congruence. simpl.
    rewrite (count_while_none P x) by done. split; [done|]. f_equal. symmetry.
    apply filter_id. eapply Forall_impl; [done|]. intros y Hr.
    destruct (P y) eqn:Hy; [|done]. rewrite (HP x y) in Hx; done.
Qed.

(** Counting a downward closed prefix and then more is counting once. *)
Lemma count_while_or (P Q : A -> bool) l :
  StronglySorted R l -> downward P ->
  count_while P l + count_while Q (drop (count_while P l) l) =
  count_while (fun y => P y || Q y) l.
Proof.
  intros Hs HP. induction Hs as [|x l Hs IH Hf]; [done|]. cbn [count_while].
  destruct (P x) eqn:Hx; cbn [orb drop]; [lia|]. simpl.
  destruct (Q x); [|done]. f_equal.
  assert (forall y, y ∈ l -> P y = false) as Hn.
  { intros y Hy. rewrite Forall_forall in Hf. specialize (Hf _ Hy).
    destruct (P y) eqn:E; [|done]. rewrite (HP x y) in Hx; done. }
  clear IH Hs Hf. induction l as [|y l IH]; [done|]. simpl.
  rewrite (Hn y) by by left. simpl. rewrite IH by (intros; apply Hn; by right). done.
Qed.
End split.

Definition due (h : gmap nat timer) (now : Z) (a : nat) : bool := (next_of h a <=? now)%Z.

Lemma count_while_ext {A} (P Q : A -> bool) l :
  (forall x, x ∈ l -> P x = Q x) -> count_while P l = count_while Q l.
Proof.
  induction l as [|x l IH]; intros H; simpl; [done|].
  rewrite (H x) by by left. rewrite IH; [done|]. intros. apply H. by right.
Qed.

(** The iterator separates the timers that are due from the others, wherever
    [now_timer] happens to be allocated. *)
Lemma expired_end_spec a now s :
  sorted (heap s) (m_timers s) ->
  take (expired_end false a now s) (m_timers s) =
    filter (fun b => due (heap s) now b = true) (m_timers s)
  /\ drop (expired_end false a now s) (m_timers s) =
    filter (fun b => due (heap s) now b = false) (m_timers s).
Proof.
  intros Hs. unfold expired_end.
  rewrite (count_while_or (fun a b => less (heap s) a b = true)); [|done|].
  - rewrite (count_while_ext _ (due (heap s) now)).
    + apply (count_while_filter (fun a b => less (heap s) a b = true)); [done|].
      intros x y Hxy. unfold due. rewrite !Z.leb_le. apply less_spec in Hxy. lia.
    + intros x _. unfold due. apply eq_true_iff_eq.
      rewrite orb_true_iff, key_lt_spec, Z.eqb_eq, Z.leb_le. simpl. lia.
  - intros x y Hxy. rewrite !key_lt_spec. apply less_spec in Hxy. simpl. lia.
Qed.

Lemma expired_end_rollover a now s :
  take (expired_end true a now s) (m_timers s) = m_timers s
  /\ drop (expired_end true a now s) (m_timers s) = [].
Proof.
  unfold expired_end. rewrite drop_all. simpl. rewrite Nat.add_0_r.
  by rewrite firstn_all, drop_all.
Qed.

(** ** The invariant *)

Record timers_wf (s : manager) : Prop := {
  tw_sorted : sorted (heap s) (m_timers s);
  tw_heap : forall a, a ∈ m_timers s -> is_Some (heap s !! a);
  tw_armed : forall a t, heap s !! a = Some t -> m_cb t <> None -> a ∈ m_timers s;
}.

Lemma next_of_insert_ne h a b t : a <> b -> next_of (<[a := t]> h) b = next_of h b.
Proof. intros. unfold next_of. by rewrite lookup_insert_ne. Qed.

Lemma next_of_insert h a t : next_of (<[a := t]> h) a = m_next t.
Proof. unfold next_of. by rewrite lookup_insert_eq. Qed.

Lemma sorted_insert_heap h a t l : a ∉ l -> sorted h l -> sorted (<[a := t]> h) l.
Proof.
  intros Ha. apply sorted_ext. intros b Hb. apply next_of_insert_ne. by intros ->.
Qed.

Lemma timers_wf_init now : timers_wf (mkTimerManager now).
Proof. constructor; simpl; [constructor|by intros ? ?%elem_of_nil|done]. Qed.

(** Putting a timer that is not in the set into it, with any fields. *)
Lemma timers_wf_insert a t l h tick prev :
  sorted h l -> (forall b, b ∈ l -> is_Some (h !! b)) ->
  (forall b u, h !! b = Some u -> m_cb u <> None -> b <> a -> b ∈ l) -> a ∉ l ->
  timers_wf (TM (<[a := t]> h) (set_insert (<[a := t]> h) a l) tick prev).
Proof.
  intros Hs Hh Ha Hn. constructor; simpl.
  - apply set_insert_sorted; [|done]. by apply sorted_insert_heap.
  - intros b. rewrite set_insert_perm, elem_of_cons by done. intros [->|Hb].
    + by rewrite lookup_insert_eq.
    + rewrite lookup_insert_ne; [by apply Hh|by intros ->].
  - intros b u. rewrite set_insert_perm, elem_of_cons by done.
    destruct (decide (b = a)) as [->|Hne]; [by left|].
    rewrite lookup_insert_ne by done. intros. right. eauto.
Qed.

Lemma addTimer_locked_state a s :
  (addTimer_locked a s).2 =
    TM (heap s) (set_insert (heap s) a (m_timers s))
       (if (addTimer_locked a s).1 then true else m_tickled s) (m_previouseTime s).
Proof. done. Qed.

Lemma addTimer_wf a now ms cb rec s :
  timers_wf s -> heap s !! a = None -> timers_wf (addTimer a now ms cb rec s).2.
Proof.
  intros [Hs Hh Ha] Hn. unfold addTimer. rewrite addTimer_locked_state. simpl.
  apply timers_wf_insert; try done; [by eauto|].
  intros Hin. destruct (Hh _ Hin). congruence.
Qed.

Lemma elem_of_m_timers_dec (a : nat) s : a ∈ m_timers s \/ a ∉ m_timers s.
Proof. destruct (decide (a ∈ m_timers s)); auto. Qed.

Lemma delete_facts a i s :
  timers_wf s -> m_timers s !! i = Some a ->
  sorted (heap s) (delete i (m_timers s)) /\ (a ∉ delete i (m_timers s))
  /\ (forall b, b ∈ delete i (m_timers s) <-> b ∈ m_timers s /\ b <> a).
Proof.
  intros [Hs Hh Ha] Hi. pose proof (perm_delete_iff (sorted_NoDup _ _ Hs) Hi) as Hd.
  split_and!; [by apply sorted_delete| |done]. rewrite Hd. naive_solver.
Qed.

(** ** The operations keep the invariant *)

Lemma cancel_spec a t s :
  timers_wf s -> heap s !! a = Some t ->
  exists s', cancel a s = Ok (bool_decide (m_cb t <> None), s') /\ timers_wf s'
    /\ (m_cb t = None -> s' = s)
    /\ (m_cb t <> None ->
          heap s' = <[a := Timer (m_recurring t) (m_ms t) (m_next t) None]> (heap s)
          /\ (forall b, b ∈ m_timers s' <-> b ∈ m_timers s /\ b <> a)).
Proof.
  intros Hwf Ht. unfold cancel, timer_at. rewrite Ht. cbn [deref mbind outcome_bind].
  destruct (m_cb t) as [cb|] eqn:Hcb.
  2: { exists s. by split_and!. }
  assert (a ∈ m_timers s) as Hin by (eapply tw_armed; [done..|congruence]).
  cbn [set_heap heap m_timers]. set (h := <[a := _]> (heap s)).
  destruct (set_find_elem h a (m_timers s) Hin) as (i & Hf & Hi).
  destruct (delete_facts a i s Hwf Hi) as (Hs & Hna & Hd).
  rewrite Hf. cbn [deref mbind outcome_bind].
  eexists. split; [reflexivity|]. split; [|by split_and!].
  destruct Hwf as [Hso Hh Ha]. constructor; simpl.
  - by apply sorted_insert_heap.
  - intros b [Hb Hne]%Hd. rewrite lookup_insert_ne by done. by apply Hh.
  - intros b u. destruct (decide (b = a)) as [->|Hne].
    + rewrite lookup_insert_eq. by intros [= <-].
    + rewrite lookup_insert_ne by done. intros. apply Hd. eauto.
Qed.

(** What [refresh] and [reset] do to a timer they rearm. *)
Lemma rearm_wf a i u s :
  timers_wf s -> m_timers s !! i = Some a ->
  let h := <[a := u]> (heap s) in
  (forall tick, timers_wf (TM h (set_insert h a (delete i (m_timers s))) tick (m_previouseTime s)))
  /\ (forall b, b ∈ set_insert h a (delete i (m_timers s)) <-> b ∈ m_timers s).
Proof.
  intros Hwf Hi h. destruct (delete_facts a i s Hwf Hi) as (Hs & Hna & Hd).
  destruct Hwf as [Hso Hh Ha]. split.
  - intros tick. apply timers_wf_insert; try done.
    + intros b [Hb _]%Hd. by apply Hh.
    + intros b v Hb Hv Hne. apply Hd. eauto.
  - intros b. rewrite set_insert_perm, elem_of_cons, Hd by done.
    split; [|destruct (decide (b = a)); naive_solver].
    intros [->|[? _]]; [|done]. by eapply list_elem_of_lookup_2.
Qed.

Lemma refresh_spec now a t s :
  timers_wf s -> heap s !! a = Some t ->
  exists s', refresh now a s = Ok (bool_decide (m_cb t <> None), s') /\ timers_wf s'
    /\ (m_cb t = None -> s' = s)
    /\ (m_cb t <> None ->
          heap s' = <[a := Timer (m_recurring t) (m_ms t) (u64 (now + m_ms t)) (m_cb t)]> (heap s)
          /\ (forall b, b ∈ m_timers s' <-> b ∈ m_timers s)).
Proof.
  intros Hwf Ht. unfold refresh, timer_at. rewrite Ht. cbn [deref mbind outcome_bind].
  destruct (decide (m_cb t = None)) as [Hcb|Hcb].
  { exists s. rewrite bool_decide_eq_false_2 by naive_solver. by split_and!. }
  assert (a ∈ m_timers s) as Hin by by eapply tw_armed.
  destruct (set_find_elem (heap s) a (m_timers s) Hin) as (i & -> & Hi).
  rewrite bool_decide_eq_true_2 by done.
  destruct (rearm_wf a i (Timer (m_recurring t) (m_ms t) (u64 (now + m_ms t)) (m_cb t)) s Hwf Hi)
    as [Hw Hm].
  eexists. split; [reflexivity|]. split; [apply Hw|]. split; [done|]. done.
Qed.

Lemma reset_spec now ms from_now a t s :
  timers_wf s -> heap s !! a = Some t ->
  exists front s',
    reset now ms from_now a s =
      Ok ((ms =? m_ms t)%Z && negb from_now || bool_decide (m_cb t <> None), front, s')
    /\ timers_wf s'
    /\ (ms = m_ms t /\ from_now = false \/ m_cb t = None -> s' = s /\ front = false)
    /\ (~ (ms = m_ms t /\ from_now = false) -> m_cb t <> None ->
          heap s' = <[a := Timer (m_recurring t) ms
                       (u64 ((if from_now then now else u64 (m_next t - m_ms t)) + ms))
                       (m_cb t)]> (heap s)
          /\ (forall b, b ∈ m_timers s' <-> b ∈ m_timers s)
          /\ front = bool_decide (head (m_timers s') = Some a) && negb (m_tickled s)).
Proof.
  intros Hwf Ht. unfold reset, timer_at. rewrite Ht. cbn [deref mbind outcome_bind].
  destruct ((ms =? m_ms t)%Z && negb from_now) eqn:Heq.
  { exists false, s. apply andb_true_iff in Heq as [?%Z.eqb_eq ?%negb_true_iff].
    split_and!; try done. tauto. }
  assert (~ (ms = m_ms t /\ from_now = false)) as Hne.
  { intros [-> ->]. by rewrite Z.eqb_refl in Heq. }
  destruct (decide (m_cb t = None)) as [Hcb|Hcb].
  { exists false, s. rewrite bool_decide_eq_false_2 by naive_solver. by split_and!. }
  assert (a ∈ m_timers s) as Hin by by eapply tw_armed.
  destruct (set_find_elem (heap s) a (m_timers s) Hin) as (i & -> & Hi).
  rewrite bool_decide_eq_true_2 by done. set (u := Timer _ ms _ _).
  destruct (rearm_wf a i u s Hwf Hi) as [Hw Hm].
  eexists _, _. split; [reflexivity|]. split; [apply Hw|]. split; [tauto|].
  intros _ _. by split_and!.
Qed.

(** ** Expiry *)

Definition cb_of (h : gmap nat timer) (a : nat) : option callback :=
  t ← h !! a; m_cb t.

Definition recurs (h : gmap nat timer) (a : nat) : bool :=
  match h !! a with Some t => m_recurring t | None => false end.

(** A timer after it has fired at [now]. *)
Definition fired (now : Z) (t : timer) : timer :=
  if m_recurring t then Timer true (m_ms t) (u64 (now + m_ms t)) (m_cb t)
  else Timer false (m_ms t) (m_next t) None.

Lemma fire_loop_spec now E s :
  NoDup E -> sorted (heap s) (m_timers s) ->
  (forall a, a ∈ E -> (a ∉ m_timers s) /\ is_Some (heap s !! a)) ->
  exists s',
    fire_loop now E s = Ok (map (cb_of (heap s)) E, s')
    /\ sorted (heap s') (m_timers s')
    /\ (forall b, b ∈ m_timers s' <-> b ∈ m_timers s \/ b ∈ E /\ recurs (heap s) b = true)
    /\ (forall b, heap s' !! b = if decide (b ∈ E) then fired now <$> heap s !! b else heap s !! b)
    /\ m_tickled s' = m_tickled s /\ m_previouseTime s' = m_previouseTime s.
Proof.
  revert s. induction E as [|a E IH]; intros s Hnd Hs HE.
  { exists s. simpl. split_and!; try done. set_solver. }
  apply NoDup_cons in Hnd as [Ha Hnd].
  destruct (HE a) as [Hna [t Ht]]; [by left|]. cbn [fire_loop]. unfold timer_at.
  rewrite Ht. cbn [deref mbind outcome_bind].
  set (s1 := if m_recurring t then _ else _).
  assert (heap s1 = <[a := fired now t]> (heap s)) as Hh1
    by (subst s1; unfold fired; by destruct (m_recurring t)).
  assert (forall b, b ∈ m_timers s1 <-> b ∈ m_timers s \/ b = a /\ m_recurring t = true) as Hm1.
  { intros b. subst s1. destruct (m_recurring t); simpl; [|naive_solver].
    rewrite set_insert_perm, elem_of_cons by done. naive_solver. }
  destruct (IH s1) as (s' & -> & Hs' & Hm' & Hh' & Ht' & Hp'); [done| | |].
  - rewrite Hh1. subst s1. destruct (m_recurring t) eqn:Hr; simpl.
    + unfold fired. rewrite Hr. by apply set_insert_sorted; [apply sorted_insert_heap|].
    + by apply sorted_insert_heap.
  - intros b Hb. assert (b <> a) by (by intros ->). rewrite Hm1, Hh1, lookup_insert_ne by done.
    destruct (HE b); [by right|]. naive_solver.
  - assert (forall b, b ∈ E -> heap s1 !! b = heap s !! b) as Hsame.
    { intros b Hb. rewrite Hh1, lookup_insert_ne; [done|by intros ->]. }
    exists s'. split; [|split_and!; [done| | | |]].
    + cbn [mbind outcome_bind map]. unfold cb_of at 2. rewrite Ht. simpl. do 3 f_equal.
      apply map_ext_in. intros b Hb%list_elem_of_In. unfold cb_of. by rewrite Hsame.
    + intros b. rewrite Hm', Hm1, elem_of_cons. unfold recurs.
      destruct (decide (b ∈ E)) as [Hb|Hb]; [rewrite Hsame by done|]; destruct (decide (b = a)) as [->|];
        rewrite ?Ht; naive_solver.
    + intros b. rewrite Hh', Hh1. destruct (decide (b = a)) as [->|Hne].
      * rewrite decide_False, lookup_insert_eq, decide_True, Ht by (done || by left). done.
      * rewrite lookup_insert_ne by done.
        rewrite (decide_ext (b ∈ a :: E) (b ∈ E)) by set_solver. done.
    + rewrite Ht'. subst s1. by destruct (m_recurring t).
    + rewrite Hp'. subst s1. by destruct (m_recurring t).
Qed.

Definition rollover (now : Z) (s : manager) : bool := (detectClockRollover now s).1.

(** The timers [listExpiredCb] takes out at [now], in the order of the set. *)
Definition expired_at (now : Z) (s : manager) : list nat :=
  if rollover now s then m_timers s
  else filter (fun b => due (heap s) now b = true) (m_timers s).
