(* ===== verification/TimerTheorems.v ===== *)
(** * What the timer manager guarantees

    The manager under any interleaving of the locked sections of its
    operations, as a step relation, with its invariant by rule induction. *)

From stdpp Require Import base list gmap relations.
From Stdlib Require Import ZArith Lia Sorted.
From S2P Require Import Prelude Timer.

(** ** Expiry *)

Definition at_time (now : Z) (s : manager) : manager :=
  TM (heap s) (m_timers s) (m_tickled s) now.

Lemma expired_take a now s :
  sorted (heap s) (m_timers s) ->
  take (expired_end (rollover now s) a now (at_time now s)) (m_timers s) = expired_at now s.
Proof.
  intros Hs. unfold expired_at. destruct (rollover now s).
  - apply (expired_end_rollover a now (at_time now s)).
  - by apply (expired_end_spec a now (at_time now s)).
Qed.

Lemma sorted_app_r h l1 l2 : sorted h (l1 ++ l2) -> sorted h l2.
Proof. induction l1 as [|x l1 IH]; [done|]. simpl. by intros [? _]%sorted_cons; auto. Qed.

Lemma sorted_app_l h l1 l2 : sorted h (l1 ++ l2) -> sorted h l1.
Proof.
  induction l1 as [|x l1 IH]; [constructor|]. simpl.
  intros [Hs Hf]%sorted_cons. apply Forall_app in Hf as [? _]. apply sorted_cons. auto.
Qed.

(** Firing a prefix [E] of the set whose rest is [D]. *)
Lemma fire_prefix now E D s s0 :
  timers_wf s -> m_timers s = E ++ D -> heap s0 = heap s -> m_timers s0 = D ->
  exists s', fire_loop now E s0 = Ok (map (cb_of (heap s)) E, s') /\ timers_wf s'
    /\ (forall b, b ∈ m_timers s' <->
          b ∈ m_timers s /\ ((b ∉ E) \/ recurs (heap s) b = true))
    /\ (forall b, heap s' !! b =
          if decide (b ∈ E) then fired now <$> heap s !! b else heap s !! b).
Proof.
  intros [Hs Hh Ha] Hl Eh Et. pose proof (sorted_NoDup _ _ Hs) as Hnd.
  rewrite Hl in Hs, Hnd. apply sorted_app_r in Hs.
  apply NoDup_app in Hnd as (HE & Hdis & _).
  destruct (fire_loop_spec now E s0) as (s' & -> & Hs1 & Hm1 & Hh1 & _); [done|congruence| |].
  { rewrite Eh, Et. intros b Hb. split; [by apply Hdis|]. apply Hh. rewrite Hl. set_solver. }
  rewrite Eh, Et in *.
  assert (forall b, b ∈ m_timers s' <->
    b ∈ m_timers s /\ ((b ∉ E) \/ recurs (heap s) b = true)) as Hm.
  { intros b. rewrite Hm1, Hl, elem_of_app. specialize (Hdis b).
    destruct (decide (b ∈ E)); naive_solver. }
  exists s'. split_and!; [done| |done|done]. constructor; [done| |].
  - intros b [Hb _]%Hm. rewrite Hh1. destruct (Hh b Hb) as [t ->]. case_decide; by eexists.
  - intros b u. rewrite Hh1, Hm. case_decide as Hin.
    + destruct (heap s !! b) as [t|] eqn:Hb; [|done]. intros [= <-] Hcb.
      unfold fired in Hcb. destruct (m_recurring t) eqn:Hr; [|done].
      split; [rewrite Hl; set_solver|]. right. unfold recurs. by rewrite Hb.
    + intros. split; [by eapply Ha|by left].
Qed.

(** When the first timer is not due, none is. *)
Lemma expired_nil now s f l :
  sorted (heap s) (m_timers s) -> rollover now s = false -> m_timers s = f :: l ->
  (now < next_of (heap s) f)%Z -> expired_at now s = [].
Proof.
  intros Hs Hr Hl Hlt. unfold expired_at. rewrite Hr. rewrite Hl in *. apply filter_none.
  apply sorted_cons in Hs as [_ Hf]. unfold due.
  constructor; [rewrite Z.leb_le; lia|]. eapply Forall_impl; [exact Hf|].
  intros b Hb%less_spec. rewrite Z.leb_le. lia.
Qed.

(** The body of [listExpiredCb] on a set that is not empty. *)
Lemma listExpiredCb_body_spec a now s :
  timers_wf s -> m_timers s <> [] ->
  exists s',
    listExpiredCb_body a now s = Ok (map (cb_of (heap s)) (expired_at now s), s')
    /\ timers_wf s'
    /\ (forall b, b ∈ m_timers s' <->
          b ∈ m_timers s /\ ((b ∉ expired_at now s) \/ recurs (heap s) b = true))
    /\ (forall b, heap s' !! b =
          if decide (b ∈ expired_at now s) then fired now <$> heap s !! b else heap s !! b).
Proof.
  intros Hwf Hne. pose proof (tw_sorted s Hwf) as Hs.
  pose proof (expired_take a now s Hs) as Ht. set (it := expired_end _ _ _ _) in Ht.
  destruct (fire_prefix now (expired_at now s) (drop it (m_timers s)) s
    (set_timers (drop it (m_timers s)) (at_time now s))) as (s' & Hf & H); try done.
  { by rewrite <- Ht, take_drop. }
  unfold listExpiredCb_body. change (detectClockRollover now s) with (rollover now s, at_time now s).
  destruct (rollover now s) eqn:Hroll; cbn [mbind outcome_bind].
  { exists s'. split; [|done]. rewrite <- Hf, <- Ht. done. }
  destruct (m_timers s) as [|f l] eqn:Hl; [done|].
  change (m_timers (at_time now s)) with (m_timers s). rewrite Hl.
  cbn [head deref mbind outcome_bind]. change (heap (at_time now s)) with (heap s).
  destruct (Z.ltb_spec now (next_of (heap s) f)) as [Hlt|].
  - rewrite <- Hl in Hs. pose proof (expired_nil now s f l Hs Hroll Hl Hlt) as E.
    rewrite E in *. injection Hf as <-. exists (at_time now s). split; [done|].
    simpl. rewrite Hl. split; [|split; [set_solver|done]].
    by destruct Hwf; constructor.
  - exists s'. split; [|done]. rewrite <- Hf, <- Ht. done.
Qed.

(** ** Interleavings

    One locked section of an operation.  A client calls the members of a
    timer it holds, so of one that exists, and [new] returns a free address;
    the body of [listExpiredCb] may be entered on a set that has become empty
    since its emptiness test, and then has no step. *)

Inductive tstep : manager -> manager -> Prop :=
  | step_add a now ms cb rec s :
      heap s !! a = None -> tstep s (addTimer a now ms cb rec s).2
  | step_add_cond a now ms cb w rec s :
      heap s !! a = None -> tstep s (addConditionTimer a now ms cb w rec s).2
  | step_cancel a r s s' : cancel a s = Ok (r, s') -> tstep s s'
  | step_refresh now a r s s' : refresh now a s = Ok (r, s') -> tstep s s'
  | step_reset now ms from_now a r s s' : reset now ms from_now a s = Ok (r, s') -> tstep s s'
  | step_next now s : tstep s (getNextTimer now s).2
  | step_list a now cbs s s' : listExpiredCb_body a now s = Ok (cbs, s') -> tstep s s'.

Inductive reachable : manager -> Prop :=
  | reach_init now : reachable (mkTimerManager now)
  | reach_step s s' : reachable s -> tstep s s' -> reachable s'.

Lemma timer_at_ok {B} a s (k : timer -> outcome B) b :
  (t ← timer_at a s; k t) = Ok b -> exists t, heap s !! a = Some t /\ k t = Ok b.
Proof.
  unfold timer_at. destruct (heap s !! a) as [t|]; simpl; [|done]. eauto.
Qed.

(** The body on an empty set returns only after a clock rollover. *)
Lemma listExpiredCb_body_empty a now s cbs s' :
  m_timers s = [] -> listExpiredCb_body a now s = Ok (cbs, s') ->
  cbs = [] /\ s' = at_time now s.
Proof.
  intros Hl. unfold listExpiredCb_body.
  change (detectClockRollover now s) with (rollover now s, at_time now s).
  destruct (rollover now s); unfold expired_end; simpl; rewrite Hl; simpl; [|done].
  intros [= <- <-]. split; [done|]. unfold at_time, set_timers. simpl. by rewrite Hl.
Qed.

Lemma tstep_wf s s' : timers_wf s -> tstep s s' -> timers_wf s'.
Proof.
  intros Hwf Hst. destruct Hst as
    [a now ms cb rec s Hn|a now ms cb w rec s Hn|a r s s' H|now a r s s' H
    |now ms fn a r s s' H|now s|a now cbs s s' H].
  - by apply addTimer_wf.
  - by apply addTimer_wf.
  - pose proof (timer_at_ok _ _ _ _ H) as (t & Ht & _).
    destruct (cancel_spec a t s Hwf Ht) as (s1 & E & ? & _).
    rewrite E in H. by simplify_eq.
  - pose proof (timer_at_ok _ _ _ _ H) as (t & Ht & _).
    destruct (refresh_spec now a t s Hwf Ht) as (s1 & E & ? & _).
    rewrite E in H. by simplify_eq.
  - pose proof (timer_at_ok _ _ _ _ H) as (t & Ht & _).
    destruct (reset_spec now ms fn a t s Hwf Ht) as (f & s1 & E & ? & _).
    rewrite E in H. by simplify_eq.
  - destruct Hwf. unfold getNextTimer. simpl. destruct (m_timers s) eqn:E; constructor; simpl;
      by rewrite ?E.
  - destruct (decide (m_timers s = [])) as [E|E].
    + apply listExpiredCb_body_empty in H as [_ ->]; [|done]. by destruct Hwf; constructor.
    + destruct (listExpiredCb_body_spec a now s Hwf E) as (s1 & E1 & ? & _).
      rewrite E1 in H. by simplify_eq.
Qed.

Lemma reachable_wf s : reachable s -> timers_wf s.
Proof. induction 1; [apply timers_wf_init|by eapply tstep_wf]. Qed.

(** A timer that is out of the set and has no callback left. *)
Definition dead (a : nat) (s : manager) : Prop :=
  (exists t, heap s !! a = Some t /\ m_cb t = None) /\ (a ∉ m_timers s).

Lemma dead_add a b t s :
  heap s !! b = None -> timers_wf s -> dead a s -> dead a (addTimer_locked b (set_heap b t s)).2.
Proof.
  intros Hn Hwf [(u & Hu & Hcb) Hni]. assert (a <> b) by (intros ->; congruence).
  rewrite addTimer_locked_state. split; simpl.
  - exists u. by rewrite lookup_insert_ne.
  - rewrite set_insert_perm, elem_of_cons; [naive_solver|].
    intros [? ?]%(tw_heap s Hwf). congruence.
Qed.

(** A member that rearms or removes timer [b] leaves the dead timer [a]. *)
Lemma dead_frame a b u t s s' :
  dead a s -> heap s !! b = Some t -> (m_cb t = None -> s' = s) ->
  (m_cb t <> None -> heap s' = <[b := u]> (heap s) /\ (forall c, c ∈ m_timers s' -> c ∈ m_timers s)) ->
  dead a s'.
Proof.
  intros [(v & Hv & Hcb) Hni] Ht H1 H2. destruct (m_cb t) as [cb|] eqn:E.
  - destruct H2 as [Hh Hm]; [done|]. assert (a <> b) by (intros ->; congruence).
    split; [|naive_solver]. exists v. by rewrite Hh, lookup_insert_ne.
  - rewrite H1 by done. split; eauto.
Qed.

Lemma dead_step a s s' : timers_wf s -> dead a s -> tstep s s' -> dead a s'.
Proof.
  intros Hwf Hd Hst. destruct Hst as
    [b now ms cb rec s Hn|b now ms cb w rec s Hn|b r s s' H|now b r s s' H
    |now ms fn b r s s' H|now s|b now cbs s s' H].
  - by apply dead_add.
  - by apply dead_add.
  - pose proof (timer_at_ok _ _ _ _ H) as (t & Ht & _).
    destruct (cancel_spec b t s Hwf Ht) as (s1 & E & _ & H1 & H2).
    rewrite E in H. simplify_eq. eapply dead_frame; [done..|]. intros [? ?]%H2. naive_solver.
  - pose proof (timer_at_ok _ _ _ _ H) as (t & Ht & _).
    destruct (refresh_spec now b t s Hwf Ht) as (s1 & E & _ & H1 & H2).
    rewrite E in H. simplify_eq. eapply dead_frame; [done..|]. intros [? ?]%H2. naive_solver.
  - pose proof (timer_at_ok _ _ _ _ H) as (t & Ht & _).
    destruct (reset_spec now ms fn b t s Hwf Ht) as (f & s1 & E & _ & H1 & H2).
    rewrite E in H. simplify_eq. destruct (decide (ms = m_ms t /\ fn = false)) as [Hs|Hs].
    { destruct H1 as [-> _]; [by left|done]. }
    eapply dead_frame; [done..|naive_solver|]. intros [? [? _]]%H2; naive_solver.
  - unfold getNextTimer. simpl. by destruct (m_timers s) eqn:E; rewrite <- E.
  - destruct (decide (m_timers s = [])) as [E|E].
    + apply listExpiredCb_body_empty in H as [_ ->]; done.
    + destruct (listExpiredCb_body_spec b now s Hwf E) as (s1 & E1 & _ & Hm & Hh).
      rewrite E1 in H. simplify_eq.
      destruct Hd as [(t & Ht & Hcb) Hni]. split.
      * rewrite Hh, Ht. case_decide; [|by eauto]. eexists. split; [done|].
        unfold fired. by destruct (m_recurring t).
      * rewrite Hm. tauto.
Qed.

Lemma dead_rtc a s s' : timers_wf s -> dead a s -> rtc tstep s s' -> dead a s'.
Proof.
  intros Hwf Hd Hr. induction Hr as [|s s1 s' H1 _ IH]; [done|].
  apply IH; [by eapply tstep_wf|by eapply dead_step].
Qed.

Lemma expired_in_set a now s : a ∈ expired_at now s -> a ∈ m_timers s.
Proof.
  unfold expired_at. destruct (rollover now s); [done|]. by intros [_ ?]%list_elem_of_filter.
Qed.

(** Time points are 64-bit values in every reachable state. *)
Definition heap_u64 (s : manager) : Prop :=
  forall a t, heap s !! a = Some t -> in_u 64 (m_next t).

Lemma heap_u64_insert h a t s :
  heap_u64 s -> in_u 64 (m_next t) -> heap h = <[a := t]> (heap s) -> heap_u64 h.
Proof.
  intros Hs Ht E b u. rewrite E. intros [[<- <-]|[? ?]]%lookup_insert_Some; [done|eauto].
Qed.

Lemma heap_u64_member a t u s s' :
  heap_u64 s -> (heap s !! a = Some t -> in_u 64 (m_next u)) -> heap s !! a = Some t ->
  (m_cb t = None -> s' = s) -> (m_cb t <> None -> heap s' = <[a := u]> (heap s)) -> heap_u64 s'.
Proof.
  intros Hs Hu Ht H1 H2. destruct (m_cb t); [|by rewrite H1].
  eapply heap_u64_insert; eauto.
Qed.

Lemma heap_u64_step s s' : timers_wf s -> heap_u64 s -> tstep s s' -> heap_u64 s'.
Proof.
  assert (forall z, in_u 64 (u64 z)) as Hu by (intros; apply wrapu_range; lia).
  intros Hwf Hs Hst. destruct Hst as
    [b now ms cb rec s Hn|b now ms cb w rec s Hn|b r s s' H|now b r s s' H
    |now ms fn b r s s' H|now s|b now cbs s s' H].
  1,2: by eapply heap_u64_insert; [exact Hs| |reflexivity]; simpl.
  - pose proof (timer_at_ok _ _ _ _ H) as (t & Ht & _).
    destruct (cancel_spec b t s Hwf Ht) as (s1 & E & _ & H1 & H2). rewrite E in H. simplify_eq.
    eapply heap_u64_member; [done| |done..|by intros [? _]%H2]. simpl. eauto.
  - pose proof (timer_at_ok _ _ _ _ H) as (t & Ht & _).
    destruct (refresh_spec now b t s Hwf Ht) as (s1 & E & _ & H1 & H2). rewrite E in H. simplify_eq.
    eapply heap_u64_member; [done| |done..|by intros [? _]%H2]. simpl. eauto.
  - pose proof (timer_at_ok _ _ _ _ H) as (t & Ht & _).
    destruct (reset_spec now ms fn b t s Hwf Ht) as (f & s1 & E & _ & H1 & H2).
    rewrite E in H. simplify_eq. destruct (decide (ms = m_ms t /\ fn = false)) as [Hc|Hc].
    { destruct H1 as [-> _]; [by left|done]. }
    eapply heap_u64_member; [done| |done|naive_solver|by intros [? _]%H2]. simpl. eauto.
  - unfold getNextTimer. simpl. by destruct (m_timers s).
  - destruct (decide (m_timers s = [])) as [E|E].
    + apply listExpiredCb_body_empty in H as [_ ->]; done.
    + destruct (listExpiredCb_body_spec b now s Hwf E) as (s1 & E1 & _ & Hm & Hh).
      rewrite E1 in H. simplify_eq. intros a u. rewrite Hh. case_decide; [|apply Hs].
      destruct (heap s !! a) as [t|] eqn:Ht; [|done]. intros [= <-]. unfold fired.
      destruct (m_recurring t); simpl; [done|by eapply Hs].
Qed.

Lemma reachable_u64 s : reachable s -> heap_u64 s.
Proof.
  induction 1 as [|s s' Hr IH Hst]; [done|].
  eapply heap_u64_step; [by apply reachable_wf|done..].
Qed.

(** The new timer is at the front when it precedes all the others. *)
Lemma head_set_insert h a l :
  sorted h l -> a ∉ l -> head (set_insert h a l) = Some a <-> forall b, b ∈ l -> less h a b = true.
Proof.
  intros Hs Ha. destruct l as [|y l]; simpl; [set_solver|].
  apply not_elem_of_cons in Ha as [Hay Ha]. apply sorted_cons in Hs as [_ Hf].
  destruct (less h a y) eqn:E1; simpl.
  - split; [|done]. intros _ b [->|Hb]%elem_of_cons; [done|].
    rewrite Forall_forall in Hf. eapply less_trans; [done|]. by apply Hf.
  - assert (less h a y <> true) by congruence.
    destruct (less h y a); simpl; split; try (intros [= ->]; done);
      intros Hb; by rewrite (Hb y) in E1 by by left.
Qed.

(** ** Properties *)

Definition demo : manager :=
  (addTimer 3 1000 50 (Some (Fn 1)) false
    (addTimer 2 1000 20 (Some (Fn 2)) true
      (addTimer 1 1000 20 (Some (Fn 3)) false (mkTimerManager 1000)).2).2).2.

Lemma demo_reachable : reachable demo.
Proof.
  unfold demo. eapply reach_step; [|by apply step_add]. eapply reach_step; [|by apply step_add].
  eapply reach_step; [|by apply step_add]. constructor.
Qed.

(** In every state reached by any interleaving of the timer operations
    the set is strictly ordered by (time, address), holds only live timers and
    holds every timer that still has a callback; and there every call on an
    existing timer returns: [cancel] never erases an end iterator, and
    [cancel], [refresh] and [reset] report success exactly when the timer still
    has a callback ([reset] also when it has nothing to do). *)
Theorem timer_calls_total s a t :
  reachable s -> heap s !! a = Some t ->
  sorted (heap s) (m_timers s)
  /\ (m_cb t <> None -> a ∈ m_timers s)
  /\ (exists s', cancel a s = Ok (bool_decide (m_cb t <> None), s'))
  /\ (forall now, exists s', refresh now a s = Ok (bool_decide (m_cb t <> None), s'))
  /\ (forall now ms from_now, exists front s', reset now ms from_now a s =
        Ok ((ms =? m_ms t)%Z && negb from_now || bool_decide (m_cb t <> None), front, s')).
Proof.
  intros Hwf%reachable_wf Ht. split_and!.
  - apply Hwf.
  - by eapply tw_armed.
  - destruct (cancel_spec a t s Hwf Ht) as (s' & ? & _). eauto.
  - intros now. destruct (refresh_spec now a t s Hwf Ht) as (s' & ? & _). eauto.
  - intros now ms fn. destruct (reset_spec now ms fn a t s Hwf Ht) as (f & s' & ? & _). eauto.
Qed.

Lemma timer_calls_total_witness : exists s', cancel 2 demo = Ok (true, s').
Proof. exact (proj1 (proj2 (proj2 (timer_calls_total demo 2 _ demo_reachable eq_refl)))). Defined.

(** [listExpiredCb] returns, also on an empty set. *)
Lemma listExpiredCb_total a now s :
  timers_wf s ->
  exists s', listExpiredCb a now s = Ok (map (cb_of (heap s)) (expired_at now s), s') /\ timers_wf s'.
Proof.
  intros Hwf. unfold listExpiredCb, hasTimer. destruct (m_timers s) as [|f l] eqn:E.
  - exists s. split; [|done]. unfold expired_at. rewrite E. by destruct (rollover now s).
  - destruct (listExpiredCb_body_spec a now s Hwf) as (s' & ? & ? & _); [by rewrite E|]. eauto.
Qed.

(** C32: [listExpiredCb] hands out, in the order of the set, the callbacks of
    exactly the timers whose time has come ([m_next <= now], or all of them
    after the clock went back by more than an hour), wherever its local
    [now_timer] is allocated; recurring ones are rearmed at [now + m_ms] (64-bit
    wrap-around included) and stay in the set, the others leave it and lose
    their callback; every other timer is untouched. *)
Theorem listExpiredCb_exact a now s :
  reachable s -> m_timers s <> [] ->
  exists s',
    listExpiredCb a now s = Ok (map (cb_of (heap s)) (expired_at now s), s')
    /\ sorted (heap s) (expired_at now s)
    /\ timers_wf s'
    /\ (forall b, b ∈ m_timers s' <->
          b ∈ m_timers s /\ ((b ∉ expired_at now s) \/ recurs (heap s) b = true))
    /\ (forall b, heap s' !! b =
          if decide (b ∈ expired_at now s) then fired now <$> heap s !! b else heap s !! b).
Proof.
  intros Hwf%reachable_wf Hne. destruct (listExpiredCb_body_spec a now s Hwf Hne)
    as (s' & Hb & Hwf' & Hm & Hh).
  exists s'. split; [|split; [|done]].
  - unfold listExpiredCb, hasTimer. by destruct (m_timers s).
  - pose proof (tw_sorted s Hwf) as Hs. rewrite <- (expired_take a now s Hs).
    rewrite <- (take_drop (expired_end (rollover now s) a now (at_time now s)) (m_timers s)) in Hs.
    by eapply sorted_app_l.
Qed.

Lemma listExpiredCb_exact_witness :
  exists s', listExpiredCb 9 1020 demo = Ok ([Some (Fn 3); Some (Fn 2)], s').
Proof.
  destruct (listExpiredCb_exact 9 1020 demo demo_reachable ltac:(done)) as (s' & H & _).
  exists s'. exact H.
Defined.

(** C35: Once [cancel] has returned true the timer never fires: after any
    further interleaving of operations, it is not among the timers that
    [listExpiredCb] takes out, at any time. *)
Theorem cancelled_never_fires s a s1 s2 now :
  reachable s -> cancel a s = Ok (true, s1) -> rtc tstep s1 s2 -> a ∉ expired_at now s2.
Proof.
  intros Hwf%reachable_wf Hc Hr. pose proof (timer_at_ok _ _ _ _ Hc) as (t & Ht & _).
  destruct (cancel_spec a t s Hwf Ht) as (s1' & E & Hwf1 & _ & H2).
  rewrite E in Hc. injection Hc as Hcb <-. rewrite bool_decide_eq_true in Hcb.
  destruct (H2 Hcb) as [Hh Hm].
  assert (dead a s1') as Hd.
  { split; [|rewrite Hm; naive_solver]. eexists. rewrite Hh, lookup_insert_eq. done. }
  intros Hin%expired_in_set. by destruct (dead_rtc a s1' s2 Hwf1 Hd Hr).
Qed.

Lemma cancelled_never_fires_witness : 1 ∉ expired_at 5000 (default demo (snd <$>
  match cancel 1 demo with Ok r => Some r | Err _ => None end)).
Proof.
  refine (cancelled_never_fires demo 1 _ _ 5000 demo_reachable _ (rtc_refl _ _)).
  vm_compute. reflexivity.
Defined.

(** A one-shot timer fires at most once: after the [listExpiredCb] that
    takes it out, no later one does. *)
Theorem one_shot_fires_once s a b now cbs s1 s2 now' :
  reachable s -> m_timers s <> [] -> listExpiredCb b now s = Ok (cbs, s1) ->
  a ∈ expired_at now s -> recurs (heap s) a = false ->
  rtc tstep s1 s2 -> a ∉ expired_at now' s2.
Proof.
  intros Hwf%reachable_wf Hne Hl Ha Hr Hst.
  destruct (listExpiredCb_body_spec b now s Hwf Hne) as (s1' & Hb & Hwf1 & Hm & Hh).
  assert (s1' = s1) as ->.
  { unfold listExpiredCb, hasTimer in Hl. destruct (m_timers s); [done|]. congruence. }
  assert (dead a s1) as Hd.
  { split; [|rewrite Hm; rewrite Hr; naive_solver].
    destruct (tw_heap s Hwf a) as [t Ht]; [by eapply expired_in_set|].
    exists (fired now t). rewrite Hh, decide_True, Ht by done. split; [done|].
    unfold recurs in Hr. rewrite Ht in Hr. unfold fired. by rewrite Hr. }
  intros Hin%expired_in_set. by destruct (dead_rtc a s1 s2 Hwf1 Hd Hst).
Qed.

Lemma one_shot_fires_once_witness :
  exists s1, listExpiredCb 9 1020 demo = Ok ([Some (Fn 3); Some (Fn 2)], s1)
    /\ (1 ∉ expired_at 5000 s1).
Proof.
  eexists. split; [vm_compute; reflexivity|].
  refine (one_shot_fires_once demo 1 9 1020 [Some (Fn 3); Some (Fn 2)] _ _ 5000 demo_reachable
    _ _ _ _ (rtc_refl _ _)).
  - done.
  - vm_compute. reflexivity.
  - apply (bool_decide_unpack (1 ∈ expired_at 1020 demo)). vm_compute. exact I.
  - reflexivity.
Defined.

(** The wait for a non-empty set, without wrap-around. *)
Lemma front_wait now s f l :
  reachable s -> (0 <= now)%Z -> m_timers s = f :: l ->
  (getNextTimer now s).1 = Z.max 0 (next_of (heap s) f - now) /\ in_u 64 (next_of (heap s) f).
Proof.
  intros Hr Hnow Hl. pose proof (reachable_wf s Hr) as [_ Hh _].
  assert (in_u 64 (next_of (heap s) f)) as Hf.
  { destruct (Hh f) as [t Ht]; [rewrite Hl; by left|]. unfold next_of. rewrite Ht.
    by eapply (reachable_u64 s Hr). }
  split; [|done]. unfold getNextTimer. simpl. rewrite Hl. simpl. unfold in_u in Hf.
  destruct (Z.leb_spec (next_of (heap s) f) now); [lia|].
  unfold u64. rewrite wrapu_small; [lia|]. unfold in_u. lia.
Qed.

(** [~0ull] is only returned for the empty set. *)
Lemma next_timer_none now s :
  (0 < now)%Z -> reachable s -> (getNextTimer now s).1 = (2 ^ 64 - 1)%Z -> m_timers s = [].
Proof.
  intros Hnow Hr H. destruct (m_timers s) as [|f l] eqn:Hl; [done|].
  destruct (front_wait now s f l Hr ltac:(lia) Hl) as [E Hf]. unfold in_u in Hf. lia.
Qed.

(** [getNextTimer] is the wait until the earliest timer: zero exactly when
    a timer is due, otherwise the least difference, and [~0ull] on the empty
    set; so the caller sleeps neither past a timer nor in vain. *)
Theorem getNextTimer_earliest now s :
  reachable s -> (0 <= now)%Z ->
  (m_timers s = [] -> (getNextTimer now s).1 = 2 ^ 64 - 1)%Z
  /\ (forall b, b ∈ m_timers s ->
        ((getNextTimer now s).1 <= Z.max 0 (next_of (heap s) b - now))%Z)
  /\ (m_timers s <> [] -> exists b, b ∈ m_timers s
        /\ (getNextTimer now s).1 = Z.max 0 (next_of (heap s) b - now)).
Proof.
  intros Hr Hnow. pose proof (reachable_wf s Hr) as [Hs _ _].
  destruct (m_timers s) as [|f l] eqn:Hl.
  { split_and!; [|set_solver|done]. unfold getNextTimer. simpl. by rewrite Hl. }
  destruct (front_wait now s f l Hr Hnow Hl) as [-> _]. split_and!; [done| |].
  - intros b [->|Hb]%elem_of_cons; [done|]. apply sorted_cons in Hs as [_ Hf'].
    rewrite Forall_forall in Hf'. apply Hf' in Hb. apply less_spec in Hb. lia.
  - intros _. exists f. split; [by left|done].
Qed.

Lemma getNextTimer_earliest_witness : (getNextTimer 1005 demo).1 = 15%Z.
Proof.
  destruct (getNextTimer_earliest 1005 demo demo_reachable) as (_ & H & H2); [lia|].
  specialize (H 1 ltac:(apply (bool_decide_unpack (1 ∈ m_timers demo)); vm_compute; exact I)).
  vm_compute. reflexivity.
Defined.

(** [addTimer] calls [onTimerInsertedtAtFront] exactly when the new timer
    is earlier than every timer in the set and no such call is outstanding
    (since the last [getNextTimer]). *)
Theorem addTimer_front a now ms cb rec s :
  reachable s -> heap s !! a = None ->
  let t := Timer rec ms (u64 (now + ms)) cb in
  (addTimer a now ms cb rec s).1 = true <->
  m_tickled s = false /\ forall b, b ∈ m_timers s -> less (<[a := t]> (heap s)) a b = true.
Proof.
  intros Hwf%reachable_wf Hn t. unfold addTimer, addTimer_locked. simpl.
  assert (a ∉ m_timers s) as Hni by (intros [? ?]%(tw_heap s Hwf); congruence).
  rewrite andb_true_iff, bool_decide_eq_true, negb_true_iff, head_set_insert;
    [tauto|apply sorted_insert_heap; [done|apply Hwf]|done].
Qed.

Lemma addTimer_front_witness :
  let s := (getNextTimer 1000 demo).2 in (addTimer 4 1000 5 None false s).1 = true.
Proof.
  intros s. apply (addTimer_front 4 1000 5 None false s).
  - eapply reach_step; [apply demo_reachable|apply step_next].
  - reflexivity.
  - split; [reflexivity|].
    apply (proj1 (Forall_forall _ _)), (bool_decide_unpack _). vm_compute. exact I.
Defined.

(** Between the emptiness test of [listExpiredCb] and its body another
    thread can take the last timer out: the test passes, [cancel] succeeds, and
    the body then dereferences the begin iterator of an empty set. *)
Theorem listExpiredCb_race :
  let s := (addTimer 1 1000 20 (Some (Fn 3)) false (mkTimerManager 1000)).2 in
  hasTimer s = true
  /\ match cancel 1 s with
     | Ok (true, s') => listExpiredCb_body 9 1020 s' = Err (UB bad_iterator)
     | _ => False
     end.
Proof. split; vm_compute; reflexivity. Qed.
