(* ===== verification/FdManager.v ===== *)
(** * [sylar::FdCtx] and [sylar::FdManager]: [sylar/fd_manager.h], [sylar/fd_manager.cc]

    The table of descriptor contexts the hooked system calls consult.  A
    context is shared between the table and its users, so contexts live in a
    heap and the table holds their addresses.  The kernel is a parameter:
    [fstat] tells whether a descriptor exists and is a socket, and [getfl],
    [setfl] are [fcntl_f(fd, F_GETFL)] and [fcntl_f(fd, F_SETFL, flags)] on an
    abstract kernel state.

    [get] holds the read lock for its test and the write lock for the rest; it
    is two atomic steps, [get_read] and [get_write]. *)

From stdpp Require Import base list gmap.
From Stdlib Require Import ZArith Lia.
From S2P Require Import Prelude.

Record FdCtx := mkFdCtx {
  m_isInit : bool;
  m_isSocket : bool;
  m_sysNonblock : bool;
  m_userNonblock : bool;
  m_isClosed : bool;
  m_fd : Z;
  m_recvTimeout : Z;
  m_sendTimeout : Z;
}.

Definition O_NONBLOCK : Z := 2048.
Definition SO_RCVTIMEO : Z := 20.
Definition SO_SNDTIMEO : Z := 21.

Definition setUserNonblock (v : bool) (c : FdCtx) : FdCtx :=
  mkFdCtx (m_isInit c) (m_isSocket c) (m_sysNonblock c) v (m_isClosed c) (m_fd c)
    (m_recvTimeout c) (m_sendTimeout c).

Definition setSysNonblock (v : bool) (c : FdCtx) : FdCtx :=
  mkFdCtx (m_isInit c) (m_isSocket c) v (m_userNonblock c) (m_isClosed c) (m_fd c)
    (m_recvTimeout c) (m_sendTimeout c).

Definition setTimeout (type v : Z) (c : FdCtx) : FdCtx :=
  let '(r, s) := if (type =? SO_RCVTIMEO)%Z then (u64 v, m_sendTimeout c)
                 else (m_recvTimeout c, u64 v) in
  mkFdCtx (m_isInit c) (m_isSocket c) (m_sysNonblock c) (m_userNonblock c) (m_isClosed c)
    (m_fd c) r s.

Definition getTimeout (type : Z) (c : FdCtx) : Z :=
  if (type =? SO_RCVTIMEO)%Z then m_recvTimeout c else m_sendTimeout c.

Section kernel.
Context {K : Type}.
Context (fstat : K -> Z -> option bool).
Context (getfl : K -> Z -> Z) (setfl : Z -> Z -> K -> K).

(** [FdCtx::init] *)
Definition init (c : FdCtx) (k : K) : bool * FdCtx * K :=
  if m_isInit c then (true, c, k) else
  let '(isInit, isSocket) :=
    match fstat k (m_fd c) with None => (false, false) | Some sock => (true, sock) end in
  let k' :=
    if isSocket then
      let flags := getfl k (m_fd c) in
      if (Z.land flags O_NONBLOCK =? 0)%Z then setfl (m_fd c) (Z.lor flags O_NONBLOCK) k else k
    else k in
  (isInit,
   mkFdCtx isInit isSocket isSocket false false (m_fd c) (u64 (-1)) (u64 (-1)), k').

(** [FdCtx(fd)] *)
Definition newFdCtx (fd : Z) (k : K) : FdCtx * K :=
  let '(_, c, k) := init (mkFdCtx false false false false false fd (u64 (-1)) (u64 (-1))) k in
  (c, k).

Record fds := FDS {
  ctxs : gmap nat FdCtx;
  m_datas : list (option nat);
}.

Definition mkFdManager : fds := FDS ∅ [].

(** [m_datas[fd]]: an index outside the vector is undefined. *)
Definition data_at (fd : Z) (s : fds) : outcome (option nat) :=
  if (fd <? 0)%Z then Err (UB index_oob) else deref index_oob (m_datas s !! Z.to_nat fd).

(** The part of [get] under the read lock: [Some r] when it returns [r]. *)
Definition get_read (fd : Z) (auto_create : bool) (s : fds) : outcome (option (option nat)) :=
  if (fd =? -1)%Z then Ok (Some None) else
  if (Z.of_nat (length (m_datas s)) <=? fd)%Z then
    Ok (if auto_create then None else Some None)
  else
    p ← data_at fd s;
    Ok (match p with
        | Some _ => Some p
        | None => if auto_create then None else Some None
        end).

(** [m_datas.resize(fd * 1.5)]: the product is exact in a [double] and its
    conversion to [size_t] truncates. *)
Definition resize (n : nat) (l : list (option nat)) : list (option nat) :=
  take n l ++ replicate (n - length l) None.

(** The rest of [get]; [a] is the address [new FdCtx] returns. *)
Definition get_write (a : nat) (fd : Z) (s : fds) (k : K) : outcome (nat * fds * K) :=
  let '(c, k) := newFdCtx fd k in
  let d := if (Z.of_nat (length (m_datas s)) <=? fd)%Z
           then resize (Z.to_nat (fd * 3 / 2)) (m_datas s) else m_datas s in
  _ ← data_at fd (FDS (ctxs s) d);
  Ok (a, FDS (<[a := c]> (ctxs s)) (<[Z.to_nat fd := Some a]> d), k).

(** [get] when no other thread runs between the two locks. *)
Definition get (a : nat) (fd : Z) (auto_create : bool) (s : fds) (k : K)
    : outcome (option nat * fds * K) :=
  r ← get_read fd auto_create s;
  match r with
  | Some r => Ok (r, s, k)
  | None => '(p, s, k) ← get_write a fd s k; Ok (Some p, s, k)
  end.

Definition delFd (fd : Z) (s : fds) : outcome fds :=
  if (Z.of_nat (length (m_datas s)) <=? fd)%Z then Ok s else
  _ ← data_at fd s;
  Ok (FDS (ctxs s) (<[Z.to_nat fd := None]> (m_datas s))).

(** ** The table as a partial map from descriptors *)

Definition lookup_fd (s : fds) (fd : Z) : option nat :=
  if (fd <? 0)%Z then None else mjoin (m_datas s !! Z.to_nat fd).

Lemma length_resize n l : length l <= n -> length (resize n l) = n.
Proof. intros. unfold resize. rewrite length_app, length_take, length_replicate. lia. Qed.

Lemma mjoin_resize n l i :
  length l <= n -> mjoin (resize n l !! i) = mjoin (l !! i).
Proof.
  intros. unfold resize. rewrite take_ge by lia.
  destruct (decide (i < length l)) as [Hi|Hi].
  - by rewrite lookup_app_l.
  - rewrite lookup_app_r, (lookup_ge_None_2 l) by lia.
    destruct (replicate _ _ !! _) as [x|] eqn:E; [|done].
    apply lookup_replicate in E as [-> _]. done.
Qed.

Lemma data_at_ok fd s :
  (0 <= fd < Z.of_nat (length (m_datas s)))%Z -> data_at fd s = Ok (lookup_fd s fd).
Proof.
  intros. unfold data_at, lookup_fd. destruct (Z.ltb_spec fd 0); [lia|].
  destruct (lookup_lt_is_Some_2 (m_datas s) (Z.to_nat fd)) as [x ->]; [lia|done].
Qed.

Lemma data_at_oob fd s :
  (fd < 0 \/ Z.of_nat (length (m_datas s)) <= fd)%Z -> data_at fd s = Err (UB index_oob).
Proof.
  intros. unfold data_at. destruct (Z.ltb_spec fd 0); [done|].
  by rewrite lookup_ge_None_2 by lia.
Qed.

Lemma lookup_fd_oob fd s :
  (Z.of_nat (length (m_datas s)) <= fd)%Z -> lookup_fd s fd = None.
Proof.
  intros. unfold lookup_fd. destruct (Z.ltb_spec fd 0); [done|].
  by rewrite lookup_ge_None_2 by lia.
Qed.

(** Storing into the table changes one descriptor. *)
Lemma lookup_fd_insert c d fd p fd' :
  (0 <= fd < Z.of_nat (length d))%Z ->
  lookup_fd (FDS c (<[Z.to_nat fd := p]> d)) fd' =
    if decide (fd' = fd) then p else mjoin (if (fd' <? 0)%Z then None else d !! Z.to_nat fd').
Proof.
  intros Hfd. unfold lookup_fd. simpl. destruct (Z.ltb_spec fd' 0).
  - by rewrite decide_False by lia.
  - case_decide as E.
    + subst. by rewrite list_lookup_insert_eq by lia.
    + by rewrite list_lookup_insert_ne by lia.
Qed.

(** [get(fd, false)] on any table: what the table holds. *)
Lemma get_existing a fd s k :
  (-1 <= fd)%Z -> get a fd false s k = Ok (lookup_fd s fd, s, k).
Proof.
  intros Hfd. unfold get, get_read. destruct (Z.eqb_spec fd (-1)) as [->|]; [done|].
  destruct (Z.leb_spec (Z.of_nat (length (m_datas s))) fd).
  - by rewrite lookup_fd_oob.
  - rewrite data_at_ok by lia. simpl. by destruct (lookup_fd s fd).
Qed.

Lemma get_present a fd b p s k :
  lookup_fd s fd = Some p -> get a fd b s k = Ok (Some p, s, k).
Proof.
  intros Hp. unfold get, get_read.
  assert (0 <= fd < Z.of_nat (length (m_datas s)))%Z as Hfd.
  { split.
    - unfold lookup_fd in Hp. destruct (Z.ltb_spec fd 0); [done|lia].
    - destruct (Z.ltb_spec fd (Z.of_nat (length (m_datas s)))); [done|].
      by rewrite lookup_fd_oob in Hp. }
  destruct (Z.eqb_spec fd (-1)); [lia|].
  destruct (Z.leb_spec (Z.of_nat (length (m_datas s))) fd); [lia|].
  rewrite data_at_ok, Hp by lia. done.
Qed.

(** Creation: the new context is for [fd], is in the table, and every other
    descriptor keeps its context. *)
Lemma get_write_spec a fd s k :
  (0 <= fd)%Z -> (2 <= fd \/ fd < Z.of_nat (length (m_datas s)))%Z -> ctxs s !! a = None ->
  exists s', get_write a fd s k = Ok (a, s', (newFdCtx fd k).2)
    /\ ctxs s' = <[a := (newFdCtx fd k).1]> (ctxs s)
    /\ (forall fd', lookup_fd s' fd' = if decide (fd' = fd) then Some a else lookup_fd s fd')
    /\ length (m_datas s) <= length (m_datas s').
Proof.
  intros H0 Hfd Ha. unfold get_write. destruct (newFdCtx fd k) as [c k'].
  set (d := if (_ <=? _)%Z then _ else _).
  assert ((fd < Z.of_nat (length d))%Z /\ length (m_datas s) <= length d
    /\ forall i, mjoin (d !! i) = mjoin (m_datas s !! i)) as (Hlen & Hge & Hd).
  { subst d. destruct (Z.leb_spec (Z.of_nat (length (m_datas s))) fd).
    - assert (fd + 1 <= fd * 3 / 2)%Z by (apply Z.div_le_lower_bound; lia).
      rewrite length_resize by lia. split_and!; [lia..|].
      intros i. apply mjoin_resize. lia.
    - done. }
  rewrite data_at_ok by (simpl; lia). simpl.
  eexists. split; [reflexivity|]. simpl. split_and!; [done| |rewrite length_insert; lia].
  intros fd'. rewrite lookup_fd_insert by lia. case_decide; [done|]. unfold lookup_fd.
  destruct (fd' <? 0)%Z; [done|]. apply Hd.
Qed.

Lemma delFd_spec fd s :
  (0 <= fd)%Z ->
  exists s', delFd fd s = Ok s' /\ ctxs s' = ctxs s
    /\ forall fd', lookup_fd s' fd' = if decide (fd' = fd) then None else lookup_fd s fd'.
Proof.
  intros H0. unfold delFd. destruct (Z.leb_spec (Z.of_nat (length (m_datas s))) fd).
  - exists s. split_and!; [done..|]. intros fd'. case_decide; [subst|done].
    by rewrite lookup_fd_oob.
  - rewrite data_at_ok by lia. simpl. eexists. split_and!; [done..|].
    intros fd'. rewrite lookup_fd_insert by lia. case_decide; [done|]. unfold lookup_fd.
    by destruct (fd' <? 0)%Z.
Qed.
End kernel.

(** ** Properties *)

Section properties.
Context {K : Type} (fstat : K -> Z -> option bool).
Context (getfl : K -> Z -> Z) (setfl : Z -> Z -> K -> K).

(** For a descriptor from 2 up (or any the table already covers),
    [get(fd, true)] returns a context built for that descriptor and leaves
    every other descriptor's context alone, and later calls return the same
    context until [delFd(fd)], after which [get(fd)] is null and the others
    are still untouched. *)
Theorem fd_manager_get_stable a fd s k :
  (2 <= fd \/ 0 <= fd < Z.of_nat (length (m_datas s)))%Z -> ctxs s !! a = None ->
  lookup_fd s fd = None ->
  exists s1 k1 s2,
    get fstat getfl setfl a fd true s k = Ok (Some a, s1, k1)
    /\ ctxs s1 !! a = Some (newFdCtx fstat getfl setfl fd k).1
    /\ (forall a' b, get fstat getfl setfl a' fd b s1 k1 = Ok (Some a, s1, k1))
    /\ (forall fd', fd' <> fd -> lookup_fd s1 fd' = lookup_fd s fd')
    /\ delFd fd s1 = Ok s2
    /\ (forall a', get fstat getfl setfl a' fd false s2 k1 = Ok (None, s2, k1))
    /\ (forall fd', fd' <> fd -> lookup_fd s2 fd' = lookup_fd s fd').
Proof.
  intros Hfd Ha Hn. assert (0 <= fd)%Z as H0 by lia.
  destruct (get_write_spec fstat getfl setfl a fd s k) as (s1 & Hw & Hc & Hl & _);
    [lia|lia|done|].
  destruct (delFd_spec fd s1 H0) as (s2 & Hdel & _ & Hl2).
  exists s1, (newFdCtx fstat getfl setfl fd k).2, s2. split_and!.
  - unfold get, get_read. destruct (Z.eqb_spec fd (-1)); [lia|].
    destruct (Z.leb_spec (Z.of_nat (length (m_datas s))) fd); simpl.
    + by rewrite Hw.
    + rewrite data_at_ok, Hn by lia. simpl. by rewrite Hw.
  - rewrite Hc. apply lookup_insert_eq.
  - intros a' b. apply get_present. by rewrite Hl, decide_True.
  - intros fd' Hne. by rewrite Hl, decide_False.
  - done.
  - intros a'. rewrite get_existing by lia. by rewrite Hl2, decide_True.
  - intros fd' Hne. by rewrite Hl2, Hl, !decide_False.
Qed.

(** On an empty table [get(0, true)] and [get(1, true)] store past the
    end of the vector ([0 * 1.5] and [1 * 1.5] truncate to sizes that do not
    cover the index), and so does every call with a descriptor below -1. *)
Theorem fd_manager_small_fd_oob a fd b k :
  (fd = 0 \/ fd = 1 \/ fd < -1)%Z ->
  get fstat getfl setfl a fd (if (fd <? -1)%Z then b else true) mkFdManager k =
    Err (UB index_oob).
Proof.
  intros Hfd. unfold get, get_read. destruct (Z.eqb_spec fd (-1)); [lia|].
  destruct Hfd as [->|[->|Hfd]].
  - cbn -[get_write]. unfold get_write. destruct (newFdCtx _ _ _ _ _). reflexivity.
  - cbn -[get_write]. unfold get_write. destruct (newFdCtx _ _ _ _ _). reflexivity.
  - destruct (Z.ltb_spec fd (-1)); [|lia]. simpl.
    destruct (Z.leb_spec (Z.of_nat 0) fd); [lia|]. by rewrite data_at_oob by lia.
Qed.

(** [fcntl]: the flags set are the flags got. *)
Hypothesis getfl_setfl : forall k fd fl, getfl (setfl fd fl k) fd = fl.

(** A context built for a socket has switched the descriptor to
    non-blocking in the kernel and records that as the system's setting, not
    the user's; for anything else the kernel is left alone and the context
    is not a socket; both timeouts start as "none" ([~0]). *)
Theorem fdctx_init_nonblock fd k :
  let '(c, k') := newFdCtx fstat getfl setfl fd k in
  m_fd c = fd /\ m_userNonblock c = false
  /\ getTimeout SO_RCVTIMEO c = (2 ^ 64 - 1)%Z /\ getTimeout SO_SNDTIMEO c = (2 ^ 64 - 1)%Z
  /\ m_isInit c = bool_decide (fstat k fd <> None)
  /\ (fstat k fd = Some true ->
        m_isSocket c = true /\ m_sysNonblock c = true
        /\ Z.land (getfl k' fd) O_NONBLOCK <> 0%Z)
  /\ (fstat k fd <> Some true -> m_isSocket c = false /\ m_sysNonblock c = false /\ k' = k).
Proof.
  unfold newFdCtx, init. simpl. destruct (fstat k fd) as [[|]|] eqn:E; simpl;
    split_and!; try done.
  intros _. split_and!; try done.
  destruct (Z.eqb_spec (Z.land (getfl k fd) O_NONBLOCK) 0) as [Hz|Hz]; [|done].
  rewrite getfl_setfl, Z.land_lor_distr_l, Hz. done.
Qed.
End properties.

Lemma fd_manager_get_stable_witness :
  exists s1 k1 s2,
    get (fun (_ : unit) _ => Some true) (fun _ _ => 0%Z) (fun _ _ k => k) 7 5 true mkFdManager tt
      = Ok (Some 7, s1, k1) /\ delFd 5 s1 = Ok s2 /\ lookup_fd s2 5 = None.
Proof.
  destruct (fd_manager_get_stable (fun (_ : unit) _ => Some true) (fun _ _ => 0%Z)
    (fun _ _ k => k) 7 5 mkFdManager tt ltac:(lia) eq_refl eq_refl)
    as (s1 & k1 & s2 & H1 & _ & _ & _ & H2 & H3 & _).
  exists s1, k1, s2. split; [exact H1|]. split; [exact H2|].
  specialize (H3 0). rewrite get_existing in H3 by lia. by injection H3.
Defined.

Lemma fd_manager_small_fd_oob_witness :
  get (fun (_ : unit) _ => Some false) (fun _ _ => 0%Z) (fun _ _ k => k) 7 1 true mkFdManager tt
    = Err (UB index_oob).
Proof.
  apply (fd_manager_small_fd_oob (fun (_ : unit) _ => Some false) (fun _ _ => 0%Z)
    (fun _ _ k => k) 7 1 true tt). lia.
Defined.

(** A kernel with one flag word per descriptor. *)
Lemma fdctx_init_nonblock_witness :
  let '(c, k') := newFdCtx (fun (_ : Z -> Z) fd => Some (fd =? 5)%Z) (fun k fd => k fd)
    (fun fd fl k fd' => if (fd' =? fd)%Z then fl else k fd') 5 (fun _ => 0%Z) in
  m_sysNonblock c = true /\ Z.land (k' 5%Z) O_NONBLOCK <> 0%Z.
Proof.
  pose proof (fdctx_init_nonblock (fun (_ : Z -> Z) fd => Some (fd =? 5)%Z) (fun k fd => k fd)
    (fun fd fl k fd' => if (fd' =? fd)%Z then fl else k fd')
    ltac:(intros; simpl; by rewrite Z.eqb_refl) 5 (fun _ => 0%Z)) as H.
  destruct (newFdCtx _ _ _ _ _) as [c k']. destruct H as (_ & _ & _ & _ & _ & H & _).
  destruct (H eq_refl) as (_ & H1 & H2). split; [exact H1|exact H2].
Defined.

(** [get] does not test again under the write lock: when two threads pass
    the test for the same new descriptor, both create a context, and the first
    thread's context is no longer the one the table returns. *)
Theorem fd_manager_double_create :
  let g := get_write (fun (_ : unit) _ => Some true) (fun _ _ => 0%Z) (fun _ _ k => k) in
  get_read 5 true mkFdManager = Ok None
  /\ match g 1 5%Z mkFdManager tt with
     | Ok (p, s, k) =>
         match g 2 5%Z s k with
         | Ok (_, s', _) => p = 1 /\ lookup_fd s' 5 = Some 2
         | _ => False
         end
     | _ => False
     end.
Proof. split; [reflexivity|]. vm_compute. split; reflexivity. Qed.
