(* ===== verification/Http.v ===== *)
(** * [sylar/http/http.h], [sylar/http/http.cc]

    The HTTP data model: the method and status tables, the case-insensitive
    header maps, [HttpRequest], [HttpResponse] and their text form.

    A [std::string] is a [string]; the C functions see it up to its first NUL.
    A [std::map] ordered by [CaseInsensitiveLess] is the list of its entries in
    iteration order.  [HttpStatus] is its numeric value, since the parsers
    convert any integer to it.  [boost::lexical_cast] is a parameter. *)

From stdpp Require Import base list strings.
From Stdlib Require Import ZArith Lia Ascii String.
From S2P Require Import Prelude.

Open Scope string_scope.

(** ** Methods *)

Inductive HttpMethod :=
  | DELETE
  | GET
  | HEAD
  | POST
  | PUT
  | CONNECT
  | OPTIONS
  | TRACE
  | COPY
  | LOCK
  | MKCOL
  | MOVE
  | PROPFIND
  | PROPPATCH
  | SEARCH
  | UNLOCK
  | BIND
  | REBIND
  | UNBIND
  | ACL
  | REPORT
  | MKACTIVITY
  | CHECKOUT
  | MERGE
  | MSEARCH
  | NOTIFY
  | SUBSCRIBE
  | UNSUBSCRIBE
  | PATCH
  | PURGE
  | MKCALENDAR
  | LINK
  | UNLINK
  | SOURCE
  | INVAILD_METHOD.

#[export] Instance HttpMethod_eq_dec : EqDecision HttpMethod.
Proof. solve_decision. Defined.

(** The rows of [HTTP_METHOD_MAP]; the preprocessor writes the third column
    [M - SEARCH] with its blanks. *)
Definition HTTP_METHOD_MAP : list (HttpMethod * string) :=
  [(DELETE, "DELETE");
   (GET, "GET");
   (HEAD, "HEAD");
   (POST, "POST");
   (PUT, "PUT");
   (CONNECT, "CONNECT");
   (OPTIONS, "OPTIONS");
   (TRACE, "TRACE");
   (COPY, "COPY");
   (LOCK, "LOCK");
   (MKCOL, "MKCOL");
   (MOVE, "MOVE");
   (PROPFIND, "PROPFIND");
   (PROPPATCH, "PROPPATCH");
   (SEARCH, "SEARCH");
   (UNLOCK, "UNLOCK");
   (BIND, "BIND");
   (REBIND, "REBIND");
   (UNBIND, "UNBIND");
   (ACL, "ACL");
   (REPORT, "REPORT");
   (MKACTIVITY, "MKACTIVITY");
   (CHECKOUT, "CHECKOUT");
   (MERGE, "MERGE");
   (MSEARCH, "M - SEARCH");
   (NOTIFY, "NOTIFY");
   (SUBSCRIBE, "SUBSCRIBE");
   (UNSUBSCRIBE, "UNSUBSCRIBE");
   (PATCH, "PATCH");
   (PURGE, "PURGE");
   (MKCALENDAR, "MKCALENDAR");
   (LINK, "LINK");
   (UNLINK, "UNLINK");
   (SOURCE, "SOURCE")].

(** The rows of [HTTP_STATUS_MAP]. *)
Definition HTTP_STATUS_MAP : list (Z * string) :=
  [(100%Z, "Continue");
   (101%Z, "Switching Protocols");
   (102%Z, "Processing");
   (200%Z, "OK");
   (201%Z, "Created");
   (202%Z, "Accepted");
   (203%Z, "Non - Authoritative Information");
   (204%Z, "No Content");
   (205%Z, "Reset Content");
   (206%Z, "Partial Content");
   (207%Z, "Multi - Status");
   (208%Z, "Already Reported");
   (226%Z, "IM Used");
   (300%Z, "Multiple Choices");
   (301%Z, "Moved Permanently");
   (302%Z, "Found");
   (303%Z, "See Other");
   (304%Z, "Not Modified");
   (305%Z, "Use Proxy");
   (307%Z, "Temporary Redirect");
   (308%Z, "Permanent Redirect");
   (400%Z, "Bad Request");
   (401%Z, "Unauthorized");
   (402%Z, "Payment Required");
   (403%Z, "Forbidden");
   (404%Z, "Not Found");
   (405%Z, "Method Not Allowed");
   (406%Z, "Not Acceptable");
   (407%Z, "Proxy Authentication Required");
   (408%Z, "Request Timeout");
   (409%Z, "Conflict");
   (410%Z, "Gone");
   (411%Z, "Length Required");
   (412%Z, "Precondition Failed");
   (413%Z, "Payload Too Large");
   (414%Z, "URI Too Long");
   (415%Z, "Unsupported Media Type");
   (416%Z, "Range Not Satisfiable");
   (417%Z, "Expectation Failed");
   (421%Z, "Misdirected Request");
   (422%Z, "Unprocessable Entity");
   (423%Z, "Locked");
   (424%Z, "Failed Dependency");
   (426%Z, "Upgrade Required");
   (428%Z, "Precondition Required");
   (429%Z, "Too Many Requests");
   (431%Z, "Request Header Fields Too Large");
   (451%Z, "Unavailable For Legal Reasons");
   (500%Z, "Internal Server Error");
   (501%Z, "Not Implemented");
   (502%Z, "Bad Gateway");
   (503%Z, "Service Unavailable");
   (504%Z, "Gateway Timeout");
   (505%Z, "HTTP Version Not Supported");
   (506%Z, "Variant Also Negotiates");
   (507%Z, "Insufficient Storage");
   (508%Z, "Loop Detected");
   (510%Z, "Not Extended");
   (511%Z, "Network Authentication Required")].

(** ** C strings *)

Definition NUL : ascii := "000"%char.

(** What a C function sees of a [std::string]. *)
Fixpoint c_str (s : string) : string :=
  match s with
  | "" => ""
  | String c s => if Ascii.eqb c NUL then "" else String c (c_str s)
  end.

(** [strncmp(p, m, strlen(p)) == 0] *)
Fixpoint starts_with (p m : string) : bool :=
  match p, m with
  | "", _ => true
  | String a p, String b m => Ascii.eqb a b && starts_with p m
  | String _ _, "" => false
  end.

(** [tolower] in the C locale. *)
Definition tolower (c : ascii) : Z :=
  let n := Z.of_nat (nat_of_ascii c) in
  if ((65 <=? n) && (n <=? 90))%Z then (n + 32)%Z else n.

(** [strcasecmp]: the difference at the first place where the lower-cased
    characters differ; the end of a string is the character 0. *)
Fixpoint strcasecmp (l r : string) : Z :=
  match l, r with
  | "", "" => 0%Z
  | "", String b _ => (- tolower b)%Z
  | String a _, "" => tolower a
  | String a l, String b r =>
      if (tolower a =? tolower b)%Z then
        if (tolower a =? 0)%Z then 0%Z else strcasecmp l r
      else (tolower a - tolower b)%Z
  end.

(** ** Methods and statuses as text *)

Definition find_method (test : string -> bool) : HttpMethod :=
  match list_find (fun row => test row.2 = true) HTTP_METHOD_MAP with
  | Some (_, (m, _)) => m
  | None => INVAILD_METHOD
  end.

Definition StringToHttpMethod (m : string) : HttpMethod :=
  find_method (fun s => String.eqb s (c_str m)).

Definition CharsToHttpMethod (m : string) : HttpMethod :=
  find_method (fun s => starts_with s (c_str m)).

(** [(uint32_t)m] *)
Definition method_index (m : HttpMethod) : nat :=
  match list_find (fun row => row.1 = m) HTTP_METHOD_MAP with
  | Some (i, _) => i
  | None => List.length HTTP_METHOD_MAP
  end.

Definition HttpMethodToString (m : HttpMethod) : string :=
  match HTTP_METHOD_MAP !! method_index m with
  | Some (_, s) => s
  | None => "<unknown>"
  end.

Definition HttpStatusToString (s : Z) : string :=
  match list_find (fun row => row.1 = s) HTTP_STATUS_MAP with
  | Some (_, (_, msg)) => msg
  | None => "<unknown>"
  end.

Definition OK : Z := 200.
Definition NOT_FOUND : Z := 404.

(** ** Header maps *)

Definition CaseInsensitiveLess (lhs rhs : string) : bool := (strcasecmp lhs rhs <? 0)%Z.

Definition MapType := list (string * string).

Definition key_equiv (a b : string) : bool :=
  negb (CaseInsensitiveLess a b) && negb (CaseInsensitiveLess b a).

Fixpoint map_find (key : string) (m : MapType) : option string :=
  match m with
  | [] => None
  | (k, v) :: m => if key_equiv k key then Some v else map_find key m
  end.

(** [m[key] = val]: an equivalent key keeps its spelling. *)
Fixpoint map_set (key val : string) (m : MapType) : MapType :=
  match m with
  | [] => [(key, val)]
  | (k, v) :: m' =>
      if CaseInsensitiveLess key k then (key, val) :: m
      else if CaseInsensitiveLess k key then (k, v) :: map_set key val m'
      else (k, val) :: m'
  end.

(** [m.erase(key)] *)
Fixpoint map_erase (key : string) (m : MapType) : MapType :=
  match m with
  | [] => []
  | (k, v) :: m' => if key_equiv k key then m' else (k, v) :: map_erase key m'
  end.

(** [checkGetAs]: whether it succeeded, and the value stored. *)
Definition checkGetAs {T} (lexical_cast : string -> option T) (m : MapType) (key : string)
    (def : T) : bool * T :=
  match map_find key m with
  | None => (false, def)
  | Some s => match lexical_cast s with Some v => (true, v) | None => (false, def) end
  end.

Definition getAs {T} (lexical_cast : string -> option T) (m : MapType) (key : string)
    (def : T) : T :=
  match map_find key m with
  | None => def
  | Some s => match lexical_cast s with Some v => v | None => def end
  end.

(** ** [HttpRequest] *)

Record HttpRequest := mkReq {
  m_method : HttpMethod;
  m_version : Z;
  m_close : bool;
  m_path : string;
  m_query : string;
  m_body : string;
  m_fragment : string;
  m_headers : MapType;
  m_params : MapType;
  m_cookies : MapType;
}.

Definition newHttpRequest (version : Z) (close : bool) : HttpRequest :=
  mkReq GET version close "/" "" "" "" [] [] [].

Definition with_close (v : bool) (r : HttpRequest) : HttpRequest :=
  mkReq (m_method r) (m_version r) v (m_path r) (m_query r) (m_body r) (m_fragment r)
    (m_headers r) (m_params r) (m_cookies r).
Definition with_maps (h p c : MapType) (r : HttpRequest) : HttpRequest :=
  mkReq (m_method r) (m_version r) (m_close r) (m_path r) (m_query r) (m_body r) (m_fragment r)
    h p c.

Definition getHeader (key def : string) (r : HttpRequest) : string :=
  default def (map_find key (m_headers r)).
Definition getParam (key def : string) (r : HttpRequest) : string :=
  default def (map_find key (m_params r)).
Definition getCookie (key def : string) (r : HttpRequest) : string :=
  default def (map_find key (m_cookies r)).

Definition setHeader (key val : string) (r : HttpRequest) : HttpRequest :=
  with_maps (map_set key val (m_headers r)) (m_params r) (m_cookies r) r.
Definition setParam (key val : string) (r : HttpRequest) : HttpRequest :=
  with_maps (m_headers r) (map_set key val (m_params r)) (m_cookies r) r.
Definition setCookie (key val : string) (r : HttpRequest) : HttpRequest :=
  with_maps (m_headers r) (m_params r) (map_set key val (m_cookies r)) r.

Definition delHeader (key : string) (r : HttpRequest) : HttpRequest :=
  with_maps (map_erase key (m_headers r)) (m_params r) (m_cookies r) r.
Definition delParam (key : string) (r : HttpRequest) : HttpRequest :=
  with_maps (m_headers r) (map_erase key (m_params r)) (m_cookies r) r.
Definition delCookie (key : string) (r : HttpRequest) : HttpRequest :=
  with_maps (m_headers r) (m_params r) (map_erase key (m_cookies r)) r.

(** [has*(key, val)]: the result, and what [*val] is assigned, if anything. *)
Definition hasIn (key : string) (m : MapType) : bool * option string :=
  match map_find key m with None => (false, None) | Some v => (true, Some v) end.
Definition hasHeader (key : string) (r : HttpRequest) := hasIn key (m_headers r).
Definition hasParam (key : string) (r : HttpRequest) := hasIn key (m_params r).
Definition hasCookie (key : string) (r : HttpRequest) := hasIn key (m_cookies r).

Section as_.
Context {T : Type} (lexical_cast : string -> option T).
Definition checkGetHeaderAs key (def : T) r := checkGetAs lexical_cast (m_headers r) key def.
Definition getHeaderAs key (def : T) r := getAs lexical_cast (m_headers r) key def.
Definition checkGetParamAs key (def : T) r := checkGetAs lexical_cast (m_params r) key def.
Definition getParamAs key (def : T) r := getAs lexical_cast (m_headers r) key def.
Definition checkGetCookieAs key (def : T) r := checkGetAs lexical_cast (m_cookies r) key def.
Definition getCookieAs key (def : T) r := getAs lexical_cast (m_headers r) key def.
End as_.

Definition init (r : HttpRequest) : HttpRequest :=
  let conn := getHeader "connection" "" r in
  if String.eqb conn "" then r
  else if (strcasecmp (c_str conn) "keep-alive" =? 0)%Z then with_close false r
  else with_close true r.

(** ** Text form *)

Definition CR : ascii := "013"%char.
Definition LF : ascii := "010"%char.
Definition CRLF : string := String CR (String LF "").

(** [os << n] for an unsigned [n]. *)
Definition digit (d : Z) : ascii := ascii_of_nat (48 + Z.to_nat d).

Fixpoint dec_digits (fuel : nat) (n : Z) (acc : string) : string :=
  match fuel with
  | O => acc
  | S fuel =>
      let acc := String (digit (n mod 10)) acc in
      if (n <? 10)%Z then acc else dec_digits fuel (n / 10) acc
  end.

Definition decimal (n : Z) : string := dec_digits (S (Z.to_nat (Z.log2 n))) n "".

(** The loop over [m_headers] of both [dump]s; [sep] is [":"] in a request
    and [": "] in a response. *)
Fixpoint dump_headers (sep : string) (m : MapType) : string :=
  match m with
  | [] => ""
  | (k, v) :: m =>
      if (strcasecmp k "connection" =? 0)%Z then dump_headers sep m
      else k ++ sep ++ v ++ CRLF ++ dump_headers sep m
  end.

Definition dump_body (body : string) : string :=
  if String.eqb body "" then CRLF
  else "content-length: " ++ decimal (Z.of_nat (String.length body)) ++ CRLF ++ CRLF ++ body.

Definition dump_connection (close : bool) : string :=
  "connection: " ++ (if close then "close" else "keep-alive") ++ CRLF.

Definition dump_version (v : Z) : string :=
  "HTTP/" ++ decimal (Z.shiftr v 4) ++ "." ++ decimal (Z.land v 15).

(** [HttpRequest::dump] *)
Definition dump_request (r : HttpRequest) : string :=
  HttpMethodToString (m_method r) ++ " "
  ++ m_path r
  ++ (if String.eqb (m_query r) "" then "" else "?") ++ m_query r
  ++ (if String.eqb (m_fragment r) "" then "" else "#") ++ m_fragment r
  ++ " " ++ dump_version (m_version r) ++ CRLF
  ++ dump_connection (m_close r)
  ++ dump_headers ":" (m_headers r)
  ++ dump_body (m_body r).

(** ** [HttpResponse] *)

Record HttpResponse := mkRsp {
  r_status : Z;
  r_version : Z;
  r_close : bool;
  r_body : string;
  r_reason : string;
  r_headers : MapType;
}.

Definition newHttpResponse (version : Z) (close : bool) : HttpResponse :=
  mkRsp OK version close "" "" [].

Definition rsp_setStatus (v : Z) (r : HttpResponse) : HttpResponse :=
  mkRsp v (r_version r) (r_close r) (r_body r) (r_reason r) (r_headers r).
Definition rsp_setBody (v : string) (r : HttpResponse) : HttpResponse :=
  mkRsp (r_status r) (r_version r) (r_close r) v (r_reason r) (r_headers r).
Definition rsp_with_headers (m : MapType) (r : HttpResponse) : HttpResponse :=
  mkRsp (r_status r) (r_version r) (r_close r) (r_body r) (r_reason r) m.

Definition rsp_getHeader (key def : string) (r : HttpResponse) : string :=
  default def (map_find key (r_headers r)).
Definition rsp_setHeader (key val : string) (r : HttpResponse) : HttpResponse :=
  rsp_with_headers (map_set key val (r_headers r)) r.
Definition rsp_delHeader (key : string) (r : HttpResponse) : HttpResponse :=
  rsp_with_headers (map_erase key (r_headers r)) r.

Definition status_reason (r : HttpResponse) : string :=
  if String.eqb (r_reason r) "" then HttpStatusToString (r_status r) else r_reason r.

(** [HttpResponse::dump]; [(uint32_t)m_status] wraps. *)
Definition dump_response (r : HttpResponse) : string :=
  dump_version (r_version r) ++ " " ++ decimal (u32 (r_status r)) ++ " " ++ status_reason r ++ CRLF
  ++ dump_headers ": " (r_headers r)
  ++ dump_connection (r_close r)
  ++ dump_body (r_body r).
