(* ===== verification/HttpTheorems.v ===== *)
(** * What the HTTP data model guarantees

    [CaseInsensitiveLess] as an order, the header maps as finite maps on
    case-folded names, the method table, and the text form of a message read
    back by a reader of the HTTP syntax. *)

From stdpp Require Import base list gmap strings.
From Stdlib Require Import ZArith Lia Ascii String Sorted.
From S2P Require Import Prelude Http.

Open Scope string_scope.

(** ** The order on header names *)

(** The case-folded characters of a name, up to its first NUL. *)
Fixpoint ckey (s : string) : list Z :=
  match s with
  | "" => []
  | String c s => if (tolower c =? 0)%Z then [] else tolower c :: ckey s
  end.

Fixpoint lex_lt (a b : list Z) : Prop :=
  match a, b with
  | [], [] => False
  | [], _ :: _ => True
  | _ :: _, [] => False
  | x :: a, y :: b => (x < y)%Z \/ x = y /\ lex_lt a b
  end.

Lemma lex_lt_irrefl a : ~ lex_lt a a.
Proof. induction a as [|x a IH]; intros H; [done|]. destruct H as [?|[_ ?]]; [lia|done]. Qed.

Lemma lex_lt_trans a b c : lex_lt a b -> lex_lt b c -> lex_lt a c.
Proof.
  revert b c. induction a as [|x a IH]; intros [|y b] [|z c]; simpl; try done.
  intros [?|[-> ?]] [?|[-> ?]]; [left; lia..|right; eauto].
Qed.

Lemma lex_lt_total a b : ~ lex_lt a b -> ~ lex_lt b a -> a = b.
Proof.
  revert b. induction a as [|x a IH]; intros [|y b]; simpl; try tauto.
  intros H1 H2. assert (x = y) as -> by lia. f_equal. apply IH; tauto.
Qed.

Lemma tolower_nonneg c : (0 <= tolower c)%Z.
Proof. unfold tolower. destruct (_ && _); lia. Qed.

Lemma strcasecmp_spec l r :
  ((strcasecmp l r < 0)%Z <-> lex_lt (ckey l) (ckey r))
  /\ (strcasecmp l r = 0%Z <-> ckey l = ckey r).
Proof.
  revert r. induction l as [|a l IH]; intros [|b r]; cbn [strcasecmp ckey lex_lt].
  - split; [lia|done].
  - pose proof (tolower_nonneg b). destruct (Z.eqb_spec (tolower b) 0); simpl;
      split; split; try done; lia.
  - pose proof (tolower_nonneg a). destruct (Z.eqb_spec (tolower a) 0); simpl;
      split; split; try done; lia.
  - pose proof (tolower_nonneg a). pose proof (tolower_nonneg b). destruct (IH r) as [H1 H2].
    destruct (Z.eqb_spec (tolower a) (tolower b)) as [E|E].
    + rewrite <- E. destruct (Z.eqb_spec (tolower a) 0); simpl; [split; split; try done; lia|].
      rewrite H1, H2. split; split; [by right|intros [?|[_ ?]]; [lia|done]|congruence|congruence].
    + destruct (Z.eqb_spec (tolower a) 0), (Z.eqb_spec (tolower b) 0); simpl;
        (split; split; try done; try lia; try (intros; left; lia); try (intros [?|[? _]]; lia);
         intros [= ? ?]; lia).
Qed.

Lemma ci_less_spec l r : CaseInsensitiveLess l r = true <-> lex_lt (ckey l) (ckey r).
Proof. unfold CaseInsensitiveLess. rewrite Z.ltb_lt. apply strcasecmp_spec. Qed.

Lemma key_equiv_spec l r : key_equiv l r = true <-> ckey l = ckey r.
Proof.
  unfold key_equiv. rewrite andb_true_iff, !negb_true_iff, <- !not_true_iff_false, !ci_less_spec.
  split; [intros []; by apply lex_lt_total|intros ->; split; apply lex_lt_irrefl].
Qed.

Lemma key_equiv_false l r : key_equiv l r = false <-> ckey l <> ckey r.
Proof. by rewrite <- not_true_iff_false, key_equiv_spec. Qed.

(** ** Header maps are finite maps *)

Definition to_map (m : MapType) : gmap (list Z) string :=
  list_to_map (map (fun e => (ckey e.1, e.2)) m).

Definition map_sorted (m : MapType) : Prop :=
  StronglySorted (fun a b => lex_lt (ckey a.1) (ckey b.1)) m.

Lemma to_map_cons k v m : to_map ((k, v) :: m) = <[ckey k := v]> (to_map m).
Proof. done. Qed.

Lemma map_find_spec key m : map_find key m = to_map m !! ckey key.
Proof.
  induction m as [|[k v] m IH]; [done|]. cbn [map_find]. rewrite to_map_cons.
  destruct (key_equiv k key) eqn:E.
  - apply key_equiv_spec in E. by rewrite E, lookup_insert_eq.
  - apply key_equiv_false in E. by rewrite lookup_insert_ne.
Qed.

Lemma map_set_spec key val m : to_map (map_set key val m) = <[ckey key := val]> (to_map m).
Proof.
  induction m as [|[k v] m IH]; [done|]. cbn [map_set].
  destruct (CaseInsensitiveLess key k) eqn:E1; [done|].
  destruct (CaseInsensitiveLess k key) eqn:E2.
  - rewrite !to_map_cons, IH. apply insert_insert_ne.
    apply ci_less_spec in E2. intros E. rewrite E in E2. by apply lex_lt_irrefl in E2.
  - assert (ckey k = ckey key) as E.
    { apply key_equiv_spec. unfold key_equiv. by rewrite E1, E2. }
    by rewrite !to_map_cons, E, insert_insert_eq.
Qed.

Lemma to_map_None k (m : MapType) :
  Forall (fun e => lex_lt k (ckey e.1)) m -> to_map m !! k = None.
Proof.
  induction 1 as [|[k' v] m H Hf IH]; [done|]. rewrite to_map_cons, lookup_insert_ne; [done|].
  simpl in H. intros E. rewrite E in H. by apply lex_lt_irrefl in H.
Qed.

Lemma map_erase_spec key m :
  map_sorted m -> to_map (map_erase key m) = delete (ckey key) (to_map m).
Proof.
  induction 1 as [|[k v] m Hs IH Hf]; [done|]. cbn [map_erase]. rewrite to_map_cons.
  destruct (key_equiv k key) eqn:E.
  - apply key_equiv_spec in E. rewrite <- E, delete_insert_id; [done|]. by apply to_map_None.
  - apply key_equiv_false in E. by rewrite to_map_cons, IH, delete_insert_ne by congruence.
Qed.

Lemma map_set_Forall (P : string * string -> Prop) key val m :
  P (key, val) -> (forall k v, P (k, v) -> P (k, val)) -> Forall P m -> Forall P (map_set key val m).
Proof.
  intros Hk Hv. induction 1 as [|[k v] m H Hf IH]; [by repeat constructor|]. cbn [map_set].
  destruct (CaseInsensitiveLess key k); [by repeat constructor|].
  destruct (CaseInsensitiveLess k key); constructor; eauto.
Qed.

Lemma map_set_sorted key val m : map_sorted m -> map_sorted (map_set key val m).
Proof.
  induction 1 as [|[k v] m Hs IH Hf]; [repeat constructor|]. cbn [map_set].
  destruct (CaseInsensitiveLess key k) eqn:E1.
  - apply ci_less_spec in E1. constructor; [by constructor|]. constructor; [done|].
    eapply Forall_impl; [exact Hf|]. intros [k' v'] H. by eapply lex_lt_trans.
  - destruct (CaseInsensitiveLess k key) eqn:E2.
    + apply ci_less_spec in E2. constructor; [done|]. by apply map_set_Forall.
    + by constructor.
Qed.

Lemma map_erase_sorted key m : map_sorted m -> map_sorted (map_erase key m).
Proof.
  induction 1 as [|[k v] m Hs IH Hf]; [constructor|]. cbn [map_erase].
  destruct (key_equiv k key); [done|]. constructor; [done|].
  clear -Hf. induction Hf as [|[k' v'] m H Hf IH]; [constructor|]. simpl.
  destruct (key_equiv k' key); [done|]. by constructor.
Qed.

(** ** Decimal numbers read back *)

Fixpoint read_dec (a : Z) (s : string) : Z :=
  match s with
  | "" => a
  | String c s => read_dec (10 * a + (Z.of_nat (nat_of_ascii c) - 48)) s
  end.

Lemma nat_of_digit d : (0 <= d < 10)%Z -> nat_of_ascii (digit d) = 48 + Z.to_nat d.
Proof. intros. unfold digit. apply nat_ascii_embedding. lia. Qed.

Lemma read_dec_digits fuel n acc :
  (0 <= n < 10 ^ Z.of_nat fuel)%Z -> 0 < fuel ->
  exists k, forall a, read_dec a (dec_digits fuel n acc) = read_dec (a * 10 ^ k + n) acc.
Proof.
  revert n acc. induction fuel as [|fuel IH]; intros n acc Hn Hf; [lia|]. cbn [dec_digits].
  pose proof (Z.mod_pos_bound n 10 ltac:(lia)). pose proof (Z.div_mod n 10 ltac:(lia)).
  destruct (Z.ltb_spec n 10).
  - exists 1%Z. intros a. cbn [read_dec]. rewrite nat_of_digit by lia. f_equal.
    rewrite (Z.mod_small n 10) by lia. lia.
  - destruct (IH (n / 10)%Z (String (digit (n mod 10)) acc)) as [k Hk].
    + rewrite Nat2Z.inj_succ, Z.pow_succ_r in Hn by lia.
      split; [apply Z.div_pos; lia|apply Z.div_lt_upper_bound; lia].
    + destruct fuel; [|lia]. simpl in Hn. lia.
    + destruct (decide (0 <= k)%Z) as [Hk0|Hk0].
      * exists (k + 1)%Z. intros a. rewrite Hk. cbn [read_dec]. rewrite nat_of_digit by lia.
        f_equal. rewrite Z.pow_add_r by lia. lia.
      * exists k. intros a. rewrite Hk. cbn [read_dec]. rewrite nat_of_digit by lia.
        f_equal. rewrite Z.pow_neg_r by lia. lia.
Qed.

Lemma read_decimal n : (0 <= n)%Z -> read_dec 0 (decimal n) = n.
Proof.
  intros Hn. unfold decimal.
  destruct (read_dec_digits (S (Z.to_nat (Z.log2 n))) n "") as [k Hk]; [|lia|by rewrite Hk].
  split; [done|]. destruct (decide (n = 0)%Z) as [->|]; [done|].
  rewrite Nat2Z.inj_succ, Z2Nat.id by apply Z.log2_nonneg.
  pose proof (Z.log2_spec n ltac:(lia)).
  pose proof (Z.pow_le_mono_l 2 10 (Z.succ (Z.log2 n))). lia.
Qed.

(** ** Lines *)

(** A string without the character [c]. *)
Fixpoint no_char (c : ascii) (s : string) : bool :=
  match s with "" => true | String d s => negb (Ascii.eqb d c) && no_char c s end.

Lemma app_String c s t : String c s ++ t = String c (s ++ t).
Proof. done. Qed.

Lemma app_empty s : "" ++ s = s.
Proof. done. Qed.

Lemma no_char_app c s t : no_char c (s ++ t) = no_char c s && no_char c t.
Proof. induction s as [|d s IH]; [done|]. rewrite app_String. cbn. by rewrite IH, andb_assoc. Qed.

Lemma no_char_digits c fuel n acc :
  (0 <= n)%Z -> (nat_of_ascii c < 48 \/ 57 < nat_of_ascii c) ->
  no_char c acc = true -> no_char c (dec_digits fuel n acc) = true.
Proof.
  intros Hn Hc. revert n acc Hn. induction fuel as [|fuel IH]; intros n acc Hn Ha; [done|].
  assert (no_char c (String (digit (n mod 10)) acc) = true) as H.
  { cbn [no_char]. rewrite Ha, andb_true_r, negb_true_iff, Ascii.eqb_neq. intros <-.
    pose proof (Z.mod_pos_bound n 10). rewrite nat_of_digit in Hc by lia. lia. }
  cbn [dec_digits]. destruct (n <? 10)%Z; [done|]. apply IH; [apply Z.div_pos; lia|done].
Qed.

Lemma no_char_decimal c n :
  (0 <= n)%Z -> (nat_of_ascii c < 48 \/ 57 < nat_of_ascii c) -> no_char c (decimal n) = true.
Proof. intros. by apply no_char_digits. Qed.

(** The reader: a line ends at its first CR, which a LF follows. *)
Fixpoint read_line (s : string) : option (string * string) :=
  match s with
  | "" => None
  | String c s =>
      if Ascii.eqb c CR then
        match s with String d s => if Ascii.eqb d LF then Some ("", s) else None | "" => None end
      else '(l, r) ← read_line s; Some (String c l, r)
  end.

(** Lines up to the empty one, and what follows it. *)
Fixpoint read_lines (fuel : nat) (s : string) : option (list string * string) :=
  match fuel with
  | O => None
  | S fuel =>
      '(l, r) ← read_line s;
      if String.eqb l "" then Some ([], r)
      else '(ls, b) ← read_lines fuel r; Some (l :: ls, b)
  end.

(** [name ":" [blank] value] *)
Fixpoint split_colon (s : string) : option (string * string) :=
  match s with
  | "" => None
  | String c s =>
      if Ascii.eqb c ":"%char then Some ("", s)
      else '(l, r) ← split_colon s; Some (String c l, r)
  end.

Definition read_header (s : string) : option (string * string) :=
  '(k, v) ← split_colon s;
  Some (k, match v with
           | String c v' => if Ascii.eqb c " "%char then v' else v
           | "" => v
           end).

(** A message is a start line, header lines, an empty line and a body. *)
Definition read_message (s : string) : option (string * list (string * string) * string) :=
  '(start, s) ← read_line s;
  '(ls, body) ← read_lines (S (String.length s)) s;
  hs ← mapM read_header ls;
  Some (start, hs, body).

Lemma string_app_assoc (s t u : string) : (s ++ t) ++ u = s ++ t ++ u.
Proof. induction s as [|c s IH]; [done|]. rewrite !app_String. congruence. Qed.

Lemma read_line_app l r : no_char CR l = true -> read_line (l ++ CRLF ++ r) = Some (l, r).
Proof.
  induction l as [|c l IH]; [done|]. cbn [no_char]. intros [Hc Hl]%andb_true_iff.
  apply negb_true_iff in Hc. rewrite app_String. cbn [read_line]. by rewrite Hc, IH.
Qed.

Definition unlines (ls : list string) (r : string) : string :=
  foldr (fun l r => l ++ CRLF ++ r) r ls.

Lemma unlines_cons l ls r : unlines (l :: ls) r = l ++ CRLF ++ unlines ls r.
Proof. done. Qed.

Lemma length_string_app s t : String.length (s ++ t) = String.length s + String.length t.
Proof. induction s as [|c s IH]; [done|]. rewrite app_String. simpl. lia. Qed.

Lemma read_lines_app ls body fuel :
  Forall (fun l => no_char CR l = true /\ l <> "") ls -> List.length ls < fuel ->
  read_lines fuel (unlines ls (CRLF ++ body)) = Some (ls, body).
Proof.
  intros Hls. revert fuel. induction Hls as [|l ls [Hl Hne] Hls IH]; intros [|fuel] Hf;
    try (simpl in Hf; lia); [done|].
  cbn [unlines foldr]. cbn [read_lines]. rewrite read_line_app by done.
  cbn [mbind option_bind]. destruct (String.eqb_spec l ""); [done|].
  fold (unlines ls (CRLF ++ body)). rewrite IH by (simpl in Hf; lia). done.
Qed.

Lemma length_unlines ls r : List.length ls <= String.length (unlines ls r).
Proof.
  induction ls as [|l ls IH]; simpl; [lia|]. fold (unlines ls r).
  rewrite !length_string_app. simpl. lia.
Qed.

Lemma split_colon_app k v : no_char ":"%char k = true -> split_colon (k ++ String ":"%char v) = Some (k, v).
Proof.
  induction k as [|c k IH]; [done|]. cbn [no_char]. intros [Hc Hk]%andb_true_iff.
  apply negb_true_iff in Hc. rewrite app_String. cbn [split_colon]. by rewrite Hc, IH.
Qed.

(** ** The text of a message *)

Definition header_line (sep : string) (e : string * string) : string := e.1 ++ sep ++ e.2.

(** The stored headers that are written: all but [connection]. *)
Definition kept (m : list (string * string)) : list (string * string) :=
  filter (fun e => strcasecmp e.1 "connection" <> 0%Z) m.

Definition connection_header (close : bool) : string * string :=
  ("connection", if close then "close" else "keep-alive").

Definition length_header (body : string) : MapType :=
  if String.eqb body "" then []
  else [("content-length", decimal (Z.of_nat (String.length body)))].

(** A header a reader can tell apart: no line ends, no colon in the name and,
    when the separator is a bare colon, no blank in front of the value. *)
Definition clean_header (sep : string) (e : string * string) : bool :=
  no_char CR e.1 && no_char ":"%char e.1 && no_char CR e.2
  && (String.eqb sep ": " || negb (starts_with " " e.2)).

Lemma dump_headers_lines sep m r :
  dump_headers sep m ++ r = unlines (map (header_line sep) (kept m)) r.
Proof.
  induction m as [|[k v] m IH]; [done|]. cbn [dump_headers]. unfold kept.
  destruct (Z.eqb_spec (strcasecmp k "connection") 0).
  - by rewrite filter_cons_False by tauto.
  - rewrite filter_cons_True by done. fold (kept m). rewrite map_cons, unlines_cons, <- IH.
    unfold header_line. by rewrite !string_app_assoc.
Qed.

Lemma dump_body_lines body :
  dump_body body = unlines (map (header_line ": ") (length_header body)) (CRLF ++ body).
Proof.
  unfold dump_body, length_header. destruct (String.eqb_spec body "") as [->|]; [done|].
  rewrite map_cons, unlines_cons. unfold header_line.
  change "content-length: " with ("content-length" ++ ": "). by rewrite !string_app_assoc.
Qed.

Lemma unlines_app l1 l2 r : unlines (l1 ++ l2) r = unlines l1 (unlines l2 r).
Proof. apply foldr_app. Qed.

Lemma read_header_line sep e :
  sep = ":" \/ sep = ": " -> clean_header sep e = true -> read_header (header_line sep e) = Some e.
Proof.
  destruct e as [k v]. unfold clean_header, header_line, read_header. simpl.
  intros Hsep [[[Hk Hc]%andb_true_iff Hv]%andb_true_iff Hb]%andb_true_iff.
  destruct Hsep as [->| ->].
  - change (":" ++ v) with (String ":"%char v). rewrite split_colon_app by done.
    cbn [mbind option_bind]. simpl in Hb. destruct v as [|c v]; [done|].
    destruct (Ascii.eqb_spec c " "%char) as [->|]; [by destruct v|done].
  - change (": " ++ v) with (String ":"%char (String " "%char v)).
    by rewrite split_colon_app by done.
Qed.

Lemma header_line_clean sep e :
  sep = ":" \/ sep = ": " -> clean_header sep e = true ->
  no_char CR (header_line sep e) = true /\ header_line sep e <> "".
Proof.
  destruct e as [k v]. unfold clean_header, header_line. simpl.
  intros Hsep [[[Hk Hc]%andb_true_iff Hv]%andb_true_iff Hb]%andb_true_iff. split.
  - rewrite !no_char_app, Hk, Hv. by destruct Hsep as [->| ->].
  - destruct k; [|done]. by destruct Hsep as [->| ->].
Qed.

(** A message made of a start line, header lines and a body reads back. *)
Lemma read_message_lines start (hs : list (string * (string * string))) body :
  no_char CR start = true ->
  Forall (fun h => (h.1 = ":" \/ h.1 = ": ") /\ clean_header h.1 h.2 = true) hs ->
  read_message (start ++ CRLF ++ unlines (map (fun h => header_line h.1 h.2) hs) (CRLF ++ body))
    = Some (start, map snd hs, body).
Proof.
  intros Hst Hhs. unfold read_message. rewrite read_line_app by done. cbn [mbind option_bind].
  rewrite read_lines_app.
  - cbn [mbind option_bind].
    assert (mapM read_header (map (fun h => header_line h.1 h.2) hs) = Some (map snd hs)) as ->; [|done].
    apply mapM_Some. clear -Hhs. induction Hhs as [|[sep e] hs [H1 H2] _ IH]; constructor; [|done].
    by apply read_header_line.
  - clear -Hhs. induction Hhs as [|[sep e] hs [H1 H2] _ IH]; constructor; [|done].
    by apply header_line_clean.
  - rewrite length_map. pose proof (length_unlines (map (fun h => header_line h.1 h.2) hs) (CRLF ++ body)).
    rewrite length_map in *. lia.
Qed.

Definition tagged (sep : string) (m : MapType) : list (string * (string * string)) :=
  map (fun e => (sep, e)) m.

Lemma tagged_lines sep m : map (fun h => header_line h.1 h.2) (tagged sep m) = map (header_line sep) m.
Proof. unfold tagged. by rewrite map_map. Qed.

Lemma tagged_snd sep m : map snd (tagged sep m) = m.
Proof. unfold tagged. rewrite map_map. apply map_id. Qed.

Lemma tagged_clean sep m :
  sep = ":" \/ sep = ": " -> Forall (fun e => clean_header sep e = true) m ->
  Forall (fun h => (h.1 = ":" \/ h.1 = ": ") /\ clean_header h.1 h.2 = true) (tagged sep m).
Proof. intros Hs. induction 1; constructor; done. Qed.

Lemma kept_clean sep m :
  Forall (fun e => clean_header sep e = true) m ->
  Forall (fun e => clean_header sep e = true) (kept m).
Proof. rewrite !Forall_forall. intros H e [_ He]%list_elem_of_filter. auto. Qed.

Lemma length_header_clean body :
  Forall (fun e => clean_header ": " e = true) (length_header body).
Proof.
  unfold length_header. destruct (String.eqb body ""); constructor; [|constructor].
  unfold clean_header. simpl. rewrite no_char_decimal; [done|lia|]. vm_compute. lia.
Qed.

Lemma connection_clean close : clean_header ": " (connection_header close) = true.
Proof. by destruct close. Qed.

Lemma version_clean v : (0 <= v)%Z -> no_char CR (dump_version v) = true.
Proof.
  intros. unfold dump_version. rewrite !no_char_app, !no_char_decimal.
  - done.
  - by apply Z.land_nonneg; right.
  - vm_compute. lia.
  - by apply Z.shiftr_nonneg.
  - vm_compute. lia.
Qed.

Lemma status_text_clean s : no_char CR (HttpStatusToString s) = true.
Proof.
  unfold HttpStatusToString. destruct (list_find _ _) as [[i [c msg]]|] eqn:E; [|done].
  apply list_find_Some in E as (E & _ & _). apply list_elem_of_lookup_2 in E.
  assert (Forall (fun row => no_char CR row.2 = true) HTTP_STATUS_MAP) as HF
    by (apply (bool_decide_unpack _); vm_compute; exact I).
  rewrite Forall_forall in HF. by apply (HF (c, msg)).
Qed.

Definition clean_response (r : HttpResponse) : Prop :=
  (0 <= r_version r)%Z /\ no_char CR (r_reason r) = true
  /\ Forall (fun e => clean_header ": " e = true) (r_headers r).

#[export] Instance clean_response_dec r : Decision (clean_response r).
Proof. apply _. Defined.

Definition response_start (r : HttpResponse) : string :=
  dump_version (r_version r) ++ " " ++ decimal (u32 (r_status r)) ++ " " ++ status_reason r.

Lemma response_lines r :
  dump_response r = response_start r ++ CRLF ++ unlines
    (map (fun h => header_line h.1 h.2)
       (tagged ": " (kept (r_headers r) ++ [connection_header (r_close r)] ++ length_header (r_body r))%list))
    (CRLF ++ r_body r).
Proof.
  unfold dump_response, response_start. rewrite tagged_lines, !map_app, !unlines_app.
  rewrite <- dump_body_lines, <- dump_headers_lines. rewrite !string_app_assoc.
  do 6 f_equal. rewrite map_cons, unlines_cons. unfold dump_connection, header_line, connection_header.
  cbn [fst snd]. change "connection: " with ("connection" ++ ": "). by rewrite !string_app_assoc.
Qed.

Lemma response_start_clean r :
  clean_response r -> no_char CR (response_start r) = true.
Proof.
  intros (Hv & Hr & _). unfold response_start. rewrite !no_char_app, version_clean by done.
  rewrite no_char_decimal; [|apply wrapu_range; lia|vm_compute; lia]. simpl.
  unfold status_reason. destruct (String.eqb (r_reason r) ""); [apply status_text_clean|done].
Qed.

Definition clean_request (r : HttpRequest) : Prop :=
  (0 <= m_version r)%Z /\ no_char CR (m_path r) = true /\ no_char CR (m_query r) = true
  /\ no_char CR (m_fragment r) = true
  /\ Forall (fun e => clean_header ":" e = true) (m_headers r).

#[export] Instance clean_request_dec r : Decision (clean_request r).
Proof. apply _. Defined.

Definition request_start (r : HttpRequest) : string :=
  HttpMethodToString (m_method r) ++ " " ++ m_path r
  ++ (if String.eqb (m_query r) "" then "" else "?") ++ m_query r
  ++ (if String.eqb (m_fragment r) "" then "" else "#") ++ m_fragment r
  ++ " " ++ dump_version (m_version r).

Lemma request_start_clean r : clean_request r -> no_char CR (request_start r) = true.
Proof.
  intros (Hv & Hp & Hq & Hf & _). unfold request_start.
  rewrite !no_char_app, version_clean, Hp, Hq, Hf by done.
  assert (no_char CR (HttpMethodToString (m_method r)) = true) as -> by (by destruct (m_method r)).
  by destruct (String.eqb (m_query r) ""), (String.eqb (m_fragment r) "").
Qed.

Lemma request_lines r :
  dump_request r = request_start r ++ CRLF ++ unlines
    (map (fun h => header_line h.1 h.2)
       (tagged ": " [connection_header (m_close r)] ++ tagged ":" (kept (m_headers r))
        ++ tagged ": " (length_header (m_body r)))%list)
    (CRLF ++ m_body r).
Proof.
  unfold dump_request, request_start. rewrite !map_app, !tagged_lines, !unlines_app.
  rewrite <- dump_body_lines, <- dump_headers_lines. rewrite !string_app_assoc.
  do 9 f_equal. rewrite map_cons, unlines_cons. unfold dump_connection, header_line, connection_header.
  cbn [fst snd]. change "connection: " with ("connection" ++ ": "). by rewrite !string_app_assoc.
Qed.

(** ** Properties *)

(** The text of a response is read back by an HTTP reader: the status
    line, the stored headers except [connection], then one [connection] header
    that states [m_close], then (exactly when there is a body) a
    [content-length] whose value reads as the length of the body, and the body
    itself, byte for byte, whatever bytes it holds. *)
Theorem response_text_roundtrip r :
  clean_response r ->
  read_message (dump_response r) =
    Some (response_start r,
          (kept (r_headers r) ++ [connection_header (r_close r)] ++ length_header (r_body r))%list,
          r_body r)
  /\ Forall (fun e => read_dec 0 e.2 = Z.of_nat (String.length (r_body r))) (length_header (r_body r)).
Proof.
  intros Hr. pose proof (response_start_clean r Hr) as Hs. destruct Hr as (_ & _ & Hh). split.
  - rewrite response_lines, read_message_lines; [by rewrite tagged_snd|done|].
    apply tagged_clean; [by right|]. rewrite !Forall_app. split_and!.
    + by apply kept_clean.
    + constructor; [apply connection_clean|done].
    + apply length_header_clean.
  - unfold length_header. destruct (String.eqb _ _); constructor; [|done].
    simpl. apply read_decimal. lia.
Qed.

Definition sample_response : HttpResponse :=
  rsp_setBody ("hello" ++ CRLF ++ "world")
    (rsp_setHeader "CONNECTION" "x" (rsp_setHeader "Server" "sylar" (newHttpResponse 17 false))).

Lemma response_text_roundtrip_witness :
  read_message (dump_response sample_response) =
    Some ("HTTP/1.1 200 OK",
          [("Server", "sylar"); ("connection", "keep-alive"); ("content-length", "12")],
          "hello" ++ CRLF ++ "world").
Proof.
  destruct (response_text_roundtrip sample_response) as [H _].
  - apply (bool_decide_unpack (clean_response sample_response)). vm_compute. exact I.
  - rewrite H. vm_compute. reflexivity.
Defined.

(** The text of a request is read back likewise: the request line
    (method, path, "?" and query when there is one, "#" and fragment when there
    is one, version), the [connection] header that states [m_close], the stored
    headers except [connection], and the body with its length. *)
Theorem request_text_roundtrip r :
  clean_request r ->
  read_message (dump_request r) =
    Some (request_start r,
          (connection_header (m_close r) :: kept (m_headers r) ++ length_header (m_body r))%list,
          m_body r).
Proof.
  intros Hr. pose proof (request_start_clean r Hr) as Hs. destruct Hr as (_ & _ & _ & _ & Hh).
  rewrite request_lines, read_message_lines; [by rewrite !map_app, !tagged_snd|done|].
  rewrite !Forall_app. split_and!.
  - apply tagged_clean; [by right|]. constructor; [apply connection_clean|done].
  - apply tagged_clean; [by left|]. by apply kept_clean.
  - apply tagged_clean; [by right|]. apply length_header_clean.
Qed.

Definition sample_request : HttpRequest :=
  setHeader "Host" "www.sylar.top" (mkReq POST 16 true "/a" "x=1" "data" "" [] [] []).

Lemma request_text_roundtrip_witness :
  read_message (dump_request sample_request) =
    Some ("POST /a?x=1 HTTP/1.0",
          [("connection", "close"); ("Host", "www.sylar.top"); ("content-length", "4")], "data").
Proof.
  rewrite (request_text_roundtrip sample_request).
  - vm_compute. reflexivity.
  - apply (bool_decide_unpack (clean_request sample_request)). vm_compute. exact I.
Defined.

(** C37: The header map of a request refines a finite map keyed by the
    case-folded name: [setHeader], [getHeader] and [delHeader] are insert,
    lookup and delete, and keep the entries strictly ordered. *)
Theorem header_map_refines r key val def :
  map_sorted (m_headers r) ->
  getHeader key def r = default def (to_map (m_headers r) !! ckey key)
  /\ to_map (m_headers (setHeader key val r)) = <[ckey key := val]> (to_map (m_headers r))
  /\ to_map (m_headers (delHeader key r)) = delete (ckey key) (to_map (m_headers r))
  /\ map_sorted (m_headers (setHeader key val r)) /\ map_sorted (m_headers (delHeader key r)).
Proof.
  intros Hs. split_and!.
  - unfold getHeader. by rewrite map_find_spec.
  - apply map_set_spec.
  - by apply map_erase_spec.
  - by apply map_set_sorted.
  - by apply map_erase_sorted.
Qed.

Lemma header_map_refines_witness :
  getHeader "HOST" "" sample_request = "www.sylar.top".
Proof.
  destruct (header_map_refines sample_request "HOST" "" "") as [H _];
    [repeat constructor|]. rewrite H. vm_compute. reflexivity.
Defined.

(** [CaseInsensitiveLess] is a strict weak order, as [std::map] requires:
    irreflexive, transitive, and with a transitive incomparability, which is
    equality of the case-folded names. *)
Theorem CaseInsensitiveLess_strict_weak_order a b c :
  CaseInsensitiveLess a a = false
  /\ (CaseInsensitiveLess a b = true -> CaseInsensitiveLess b c = true ->
      CaseInsensitiveLess a c = true)
  /\ (key_equiv a b = true -> key_equiv b c = true -> key_equiv a c = true)
  /\ (key_equiv a b = true <-> ckey a = ckey b).
Proof.
  rewrite <- not_true_iff_false, !ci_less_spec, !key_equiv_spec.
  split_and!; [apply lex_lt_irrefl|apply lex_lt_trans|congruence|done].
Qed.

(** Every method's name converts back to the method, with
    [StringToHttpMethod] exactly and with [CharsToHttpMethod] whatever follows
    the name in the buffer. *)
Theorem method_name_roundtrip m rest :
  m <> INVAILD_METHOD ->
  StringToHttpMethod (HttpMethodToString m) = m
  /\ CharsToHttpMethod (HttpMethodToString m ++ rest) = m.
Proof. intros Hm. destruct m; try done; split; reflexivity. Qed.

Lemma method_name_roundtrip_witness :
  StringToHttpMethod "PROPPATCH" = PROPPATCH /\ CharsToHttpMethod "PROPPATCH /x" = PROPPATCH.
Proof. apply (method_name_roundtrip PROPPATCH " /x"). discriminate. Defined.

(** The method of RFC 2616's M-SEARCH requests is not recognised, because
    its table entry reads "M - SEARCH" with blanks; likewise two status texts
    are written with blanks around their hyphens. *)
Theorem hyphenated_names_have_blanks :
  StringToHttpMethod "M-SEARCH" = INVAILD_METHOD
  /\ HttpMethodToString MSEARCH = "M - SEARCH"
  /\ HttpStatusToString 203 = "Non - Authoritative Information"
  /\ HttpStatusToString 207 = "Multi - Status".
Proof. repeat split; reflexivity. Qed.

(** [getParamAs] and [getCookieAs] read the headers: whatever the
    parameters and cookies are, they do not influence the result, unlike
    [checkGetParamAs] and [checkGetCookieAs], which find a stored parameter or
    cookie. *)
Theorem getParamAs_reads_headers {T} (lexical_cast : string -> option T) key def r p c v :
  getParamAs lexical_cast key def (with_maps (m_headers r) p c r) = getHeaderAs lexical_cast key def r
  /\ getCookieAs lexical_cast key def (with_maps (m_headers r) p c r) = getHeaderAs lexical_cast key def r
  /\ checkGetParamAs lexical_cast key def (setParam key v r) =
       (match lexical_cast v with Some x => (true, x) | None => (false, def) end)
  /\ checkGetCookieAs lexical_cast key def (setCookie key v r) =
       (match lexical_cast v with Some x => (true, x) | None => (false, def) end).
Proof.
  split_and!; [done..| |]; unfold checkGetParamAs, checkGetCookieAs, checkGetAs; simpl;
    by rewrite map_find_spec, map_set_spec, lookup_insert_eq.
Qed.

(** [HttpRequest::init] derives [m_close] from the [connection] header:
    unchanged without one, [false] exactly for "keep-alive" in any case. *)
Theorem init_connection r :
  m_close (init r) =
    match map_find "connection" (m_headers r) with
    | None | Some "" => m_close r
    | Some v => negb (bool_decide (ckey (c_str v) = ckey "keep-alive"))
    end.
Proof.
  unfold init, getHeader. destruct (map_find "connection" (m_headers r)) as [[|c v]|]; [done| |done].
  change (default "" (Some (String c v))) with (String c v). cbn [String.eqb].
  destruct (Z.eqb_spec (strcasecmp (c_str (String c v)) "keep-alive") 0) as [E|E].
  - apply (proj2 (strcasecmp_spec _ _)) in E. by rewrite bool_decide_eq_true_2.
  - rewrite (proj2 (strcasecmp_spec _ _)) in E. by rewrite bool_decide_eq_false_2.
Qed.
