(* ===== verification/Servlet.v ===== *)
(** * [sylar/http/servlet.h], [sylar/http/servlet.cc]

    The dispatcher from request paths to servlets.  A servlet is what its
    [handle] does to the request, the response and the session, together with
    the value it returns; a [Servlet::ptr] may be null.  The session is an
    abstract state and [fnmatch] a parameter (true when it returns 0). *)

From stdpp Require Import base list gmap strings sorting.
From Stdlib Require Import ZArith Lia Ascii String.
From S2P Require Import Prelude Http HttpTheorems.

Open Scope string_scope.

Section servlets.
Context {S : Type}.
Context (fnmatch : string -> string -> bool).

Definition call_state : Type := HttpRequest * HttpResponse * S.
Definition callback := call_state -> Z * call_state.

Record Servlet := mkServlet { m_name : string; servlet_handle : callback }.

Definition FunctionServlet (cb : callback) : Servlet := mkServlet "FunctionServlet" cb.

(** [NotFoundServlet]; a member [m_name] of its own hides the one of
    [Servlet], which stays "NotFoundServlet". *)
Definition not_found_content (name : string) : string :=
  "<html><head><title>404 Not Found" ++
  "</title></head><body><center><h1>404 Not Found</h1></center>" ++
  "<hr><center>" ++ name ++ "</center></body></html>".

Definition not_found_handle (content : string) : callback :=
  fun '(req, rsp, s) =>
    let rsp := rsp_setStatus NOT_FOUND rsp in
    let rsp := rsp_setHeader "Server" "sylar/1.0.0" rsp in
    let rsp := rsp_setHeader "Content-Type" "text/html" rsp in
    (0%Z, (req, rsp_setBody content rsp, s)).

Definition NotFoundServlet (name : string) : Servlet :=
  mkServlet "NotFoundServlet" (not_found_handle (not_found_content name)).

(** ** [ServletDispatch] *)

Record ServletDispatch := mkDispatch {
  m_datas : gmap string (option Servlet);
  m_globs : list (string * option Servlet);
  m_default : option Servlet;
}.

Definition newServletDispatch : ServletDispatch :=
  mkDispatch ∅ [] (Some (NotFoundServlet "sylar/1.0")).

Definition addServlet (uri : string) (slt : option Servlet) (d : ServletDispatch) :=
  mkDispatch (<[uri := slt]> (m_datas d)) (m_globs d) (m_default d).
Definition addServlet_cb (uri : string) (cb : callback) (d : ServletDispatch) :=
  addServlet uri (Some (FunctionServlet cb)) d.
Definition delServlet (uri : string) (d : ServletDispatch) :=
  mkDispatch (delete uri (m_datas d)) (m_globs d) (m_default d).
Definition setDefault (v : option Servlet) (d : ServletDispatch) :=
  mkDispatch (m_datas d) (m_globs d) v.

(** The erasing loop: the first entry for [uri] goes. *)
Fixpoint erase_glob (uri : string) (l : list (string * option Servlet)) :=
  match l with
  | [] => []
  | (u, s) :: l => if String.eqb u uri then l else (u, s) :: erase_glob uri l
  end.

Definition addGlobServlet (uri : string) (slt : option Servlet) (d : ServletDispatch) :=
  mkDispatch (m_datas d) (erase_glob uri (m_globs d) ++ [(uri, slt)])%list (m_default d).
Definition addGlobServlet_cb (uri : string) (cb : callback) (d : ServletDispatch) :=
  addGlobServlet uri (Some (FunctionServlet cb)) d.
Definition delGlobServlet (uri : string) (d : ServletDispatch) :=
  mkDispatch (m_datas d) (erase_glob uri (m_globs d)) (m_default d).

Definition getServlet (uri : string) (d : ServletDispatch) : option Servlet :=
  match m_datas d !! uri with None => None | Some s => s end.

Fixpoint find_glob (test : string -> bool) (l : list (string * option Servlet))
    : option (option Servlet) :=
  match l with
  | [] => None
  | (u, s) :: l => if test u then Some s else find_glob test l
  end.

Definition getGlobServlet (uri : string) (d : ServletDispatch) : option Servlet :=
  match find_glob (fun u => String.eqb u uri) (m_globs d) with None => None | Some s => s end.

Definition getMatchedServlet (uri : string) (d : ServletDispatch) : option Servlet :=
  match m_datas d !! uri with
  | Some s => s
  | None =>
      match find_glob (fun u => fnmatch u uri) (m_globs d) with
      | Some s => s
      | None => m_default d
      end
  end.

(** [ServletDispatch::handle]: the value the servlet returns is dropped. *)
Definition dispatch_handle (d : ServletDispatch) : callback :=
  fun '(req, rsp, s) =>
    match getMatchedServlet (m_path req) d with
    | Some slt => (0%Z, (servlet_handle slt (req, rsp, s)).2)
    | None => (0%Z, (req, rsp, s))
    end.

End servlets.

(** ** Facts *)

Section facts.
Context {S : Type}.
Implicit Types l : list (string * option (Servlet (S:=S))).
Implicit Types d : ServletDispatch (S:=S).

Lemma find_glob_erase uri test l :
  test uri = false -> find_glob test (erase_glob uri l) = find_glob test l.
Proof.
  intros Ht. induction l as [|[u s] l IH]; [done|]. simpl.
  destruct (String.eqb_spec u uri) as [->|]; simpl; [by rewrite Ht|by rewrite IH].
Qed.

Lemma find_glob_app test l1 l2 :
  find_glob test (l1 ++ l2)%list =
    match find_glob test l1 with Some s => Some s | None => find_glob test l2 end.
Proof. induction l1 as [|[u s] l1 IH]; [done|]. simpl. by destruct (test u). Qed.

Lemma erase_glob_keys uri l :
  NoDup l.*1 -> NoDup (erase_glob uri l).*1
  /\ (forall u, u ∈ (erase_glob uri l).*1 <-> u ∈ l.*1 /\ u <> uri).
Proof.
  induction l as [|[u s] l IH]; intros Hnd; simpl in *; [set_solver|].
  apply NoDup_cons in Hnd as [Hu Hnd]. destruct (IH Hnd) as [IH1 IH2].
  destruct (String.eqb_spec u uri) as [->|Hne].
  - split; [done|]. intros u. rewrite elem_of_cons. split.
    + intros Hin. split; [by right|]. by intros ->.
    + intros [[->|?] ?]; done.
  - simpl. split.
    + apply NoDup_cons. split; [|done]. rewrite IH2. tauto.
    + intros w. rewrite !elem_of_cons, IH2. naive_solver.
Qed.

Lemma find_glob_None_eq uri l :
  uri ∉ l.*1 -> find_glob (fun u => String.eqb u uri) l = None.
Proof.
  induction l as [|[u s] l IH]; intros Hn; [done|]. simpl in *.
  apply not_elem_of_cons in Hn as [Hne Hn].
  destruct (String.eqb_spec u uri); [congruence|auto].
Qed.

(** No pattern is registered twice. *)
Definition globs_wf (d : ServletDispatch (S:=S)) : Prop := NoDup (m_globs d).*1.

Lemma addGlob_wf uri slt d : globs_wf d -> globs_wf (addGlobServlet uri slt d).
Proof.
  intros Hd. unfold globs_wf. simpl. rewrite fmap_app. simpl.
  destruct (erase_glob_keys uri _ Hd) as [H1 H2].
  apply NoDup_app. split_and!; [done| |apply NoDup_singleton].
  intros u Hu ->%list_elem_of_singleton. apply H2 in Hu. tauto.
Qed.

Lemma delGlob_wf uri d : globs_wf d -> globs_wf (delGlobServlet uri d).
Proof. intros Hd. by apply erase_glob_keys. Qed.
End facts.

(** ** Properties *)

(** *** Histories

    The calls a dispatcher has seen say which servlet it chooses. *)

Section histories.
Context {S : Type}.
Notation slt := (option (Servlet (S:=S))).

Inductive op :=
  | AddServlet (uri : string) (s : slt)
  | DelServlet (uri : string)
  | AddGlob (uri : string) (s : slt)
  | DelGlob (uri : string)
  | SetDefault (s : slt).

Definition do_op (d : ServletDispatch (S:=S)) (o : op) : ServletDispatch :=
  match o with
  | AddServlet uri s => addServlet uri s d
  | DelServlet uri => delServlet uri d
  | AddGlob uri s => addGlobServlet uri s d
  | DelGlob uri => delGlobServlet uri d
  | SetDefault s => setDefault s d
  end.
Definition do_ops (os : list op) : ServletDispatch := foldl do_op newServletDispatch os.

(** Operation [i] of [os] is the last one of those that [about] selects. *)
Definition last_about (about : op -> Prop) (os : list op) (i : nat) (o : op) : Prop :=
  os !! i = Some o /\ about o /\ forall k o', os !! k = Some o' -> about o' -> k <= i.

Definition about_path (uri : string) (o : op) : Prop :=
  match o with AddServlet u _ | DelServlet u => u = uri | _ => False end.
Definition about_glob (pat : string) (o : op) : Prop :=
  match o with AddGlob u _ | DelGlob u => u = pat | _ => False end.
Definition about_default (o : op) : Prop := match o with SetDefault _ => True | _ => False end.

(** The servlet of a path, of a pattern registered by operation [i], and the
    default, by the history alone. *)
Definition exact_servlet (os : list op) (uri : string) (s : slt) : Prop :=
  exists i, last_about (about_path uri) os i (AddServlet uri s).
Definition glob_servlet (os : list op) (i : nat) (pat : string) (s : slt) : Prop :=
  last_about (about_glob pat) os i (AddGlob pat s).
Definition default_servlet (os : list op) (s : slt) : Prop :=
  (exists i, last_about about_default os i (SetDefault s))
  \/ (Forall (fun o => ~ about_default o) os /\ s = Some (NotFoundServlet "sylar/1.0")).

(** The choice: the exact path, else the matching pattern registered first,
    else the default. *)
Inductive chosen (fnmatch : string -> string -> bool) (os : list op) (uri : string) : slt -> Prop :=
  | by_path s : exact_servlet os uri s -> chosen fnmatch os uri s
  | by_glob i pat s : (forall s', ~ exact_servlet os uri s') -> glob_servlet os i pat s -> fnmatch pat uri = true ->
      (forall i' pat' s', glob_servlet os i' pat' s' -> fnmatch pat' uri = true -> i <= i') -> chosen fnmatch os uri s
  | by_default s : (forall s', ~ exact_servlet os uri s') ->
      (forall i pat s', glob_servlet os i pat s' -> fnmatch pat uri = false) -> default_servlet os s -> chosen fnmatch os uri s.

Lemma last_about_snoc about os o i o' :
  last_about about (os ++ [o])%list i o' <-> (about o /\ i = List.length os /\ o' = o) \/ (~ about o /\ last_about about os i o').
Proof.
  unfold last_about. split.
  - intros (Hi & Ha & Hm). apply lookup_app_Some in Hi as [Hi|[Hl Hi]].
    + right. assert (i < List.length os) by (by eapply lookup_lt_Some). split.
      * intros Ho. specialize (Hm (List.length os) o). rewrite lookup_app_r, Nat.sub_diag in Hm by done. specialize (Hm eq_refl Ho). lia.
      * split_and!; [done..|]. intros k o1 Hk. apply Hm. by apply lookup_app_l_Some.
    + apply list_lookup_singleton_Some in Hi as [Hi ->]. left. split_and!; [done|lia|done].
  - intros [(Ho & -> & ->)|(Ho & Hi & Ha & Hm)].
    + split_and!; [by rewrite lookup_app_r, Nat.sub_diag by done|done|].
      intros k o' Hk _. apply lookup_lt_Some in Hk. rewrite length_app in Hk. cbn in Hk. lia.
    + split_and!; [by apply lookup_app_l_Some|done|]. intros k o1 Hk Ha1.
      apply lookup_app_Some in Hk as [Hk|[_ Hk]]; [by eapply Hm|]. by apply list_lookup_singleton_Some in Hk as [_ ->].
Qed.

Lemma last_about_fun about os i o i' o' : last_about about os i o -> last_about about os i' o' -> i = i' /\ o = o'.
Proof.
  intros (H1 & A1 & M1) (H2 & A2 & M2). assert (i = i') as -> by (apply Nat.le_antisymm; eauto). split; [done|congruence].
Qed.

(** The exact paths and the default. *)
Lemma datas_history os uri s : m_datas (do_ops os) !! uri = Some s <-> exact_servlet os uri s.
Proof.
  unfold exact_servlet. induction os as [|o os IH] using rev_ind.
  { cbn. rewrite lookup_empty. split; [done|]. by intros (i & H & _). }
  setoid_rewrite last_about_snoc. unfold do_ops in *. rewrite foldl_snoc. set (d := foldl do_op newServletDispatch os) in *.
  assert (Hkeep : ~ about_path uri o -> m_datas d !! uri = Some s <->
    exists i, (about_path uri o /\ i = List.length os /\ AddServlet uri s = o) \/ (~ about_path uri o /\ last_about (about_path uri) os i (AddServlet uri s))).
  { intros Hn. rewrite IH. naive_solver. }
  destruct o as [u s'|u|u s'|u|s']; cbn [do_op addServlet delServlet addGlobServlet delGlobServlet setDefault m_datas]; try (apply Hkeep; tauto).
  - destruct (decide (u = uri)) as [->|Hu]; [rewrite lookup_insert_eq|rewrite lookup_insert_ne by done; by apply Hkeep].
    cbn. naive_solver.
  - destruct (decide (u = uri)) as [->|Hu]; [rewrite lookup_delete_eq|rewrite lookup_delete_ne by done; by apply Hkeep].
    cbn. naive_solver.
Qed.

Lemma default_history os : default_servlet os (m_default (do_ops os)).
Proof.
  induction os as [|o os IH] using rev_ind; [right; by split|]. unfold do_ops in *. rewrite foldl_snoc.
  set (d := foldl do_op newServletDispatch os) in *. unfold default_servlet. setoid_rewrite last_about_snoc.
  assert (Hkeep : ~ about_default o -> default_servlet os (m_default d) ->
    (exists i, (about_default o /\ i = List.length os /\ SetDefault (m_default d) = o) \/ (~ about_default o /\ last_about about_default os i (SetDefault (m_default d))))
    \/ (Forall (fun o => ~ about_default o) (os ++ [o])%list /\ m_default d = Some (NotFoundServlet "sylar/1.0"))).
  { intros Hn [[i Hi]|[Hf Hd]]; [left; eauto|right]. split; [|done]. apply Forall_app. split; [done|by repeat constructor]. }
  destruct o; try (apply Hkeep; [cbn; tauto|exact IH]). left. exists (List.length os). left. by split_and!.
Qed.

(** The patterns with the operations that registered them, in order. *)
Definition earlier (x y : nat * (string * slt)) : Prop := x.1 < y.1.
Definition tagged (os : list op) (tl : list (nat * (string * slt))) : Prop :=
  StronglySorted earlier tl /\ forall i pat s, (i, (pat, s)) ∈ tl <-> glob_servlet os i pat s.

Definition other_pattern (pat : string) (x : nat * (string * slt)) : Prop := x.2.1 <> pat.
#[local] Instance other_pattern_dec pat x : Decision (other_pattern pat x) := decide (x.2.1 <> pat).

Lemma filter_others pat (tl : list (nat * (string * slt))) : (forall x, x ∈ tl -> other_pattern pat x) -> filter (other_pattern pat) tl = tl.
Proof.
  induction tl as [|x tl IH]; intros H; [done|]. rewrite filter_cons_True by (apply H; by left).
  rewrite IH; [done|]. intros y Hy. apply H. by right.
Qed.

Lemma erase_glob_filter pat (tl : list (nat * (string * slt))) : NoDup tl.*2.*1 -> erase_glob pat tl.*2 = (filter (other_pattern pat) tl).*2.
Proof.
  induction tl as [|[i [u s]] tl IH]; intros Hnd; [done|]. cbn in Hnd. apply NoDup_cons in Hnd as [Hu Hnd].
  cbn [fmap list_fmap snd erase_glob]. rewrite filter_cons. unfold other_pattern at 1. cbn [snd fst].
  destruct (String.eqb_spec u pat) as [->|Hne]; case_decide as D; try done; cbn [fmap list_fmap snd].
  - rewrite filter_others; [done|]. intros x Hx. unfold other_pattern. intros E. apply Hu. rewrite <- E.
    by do 2 apply list_elem_of_fmap_2.
  - by rewrite IH.
Qed.

Lemma sorted_filter pat tl : StronglySorted earlier tl -> StronglySorted earlier (filter (other_pattern pat) tl).
Proof.
  induction 1 as [|x tl _ IH Hx]; [constructor|]. rewrite filter_cons. case_decide; [|done]. constructor; [done|].
  apply Forall_forall. intros y [_ Hy]%list_elem_of_filter. rewrite Forall_forall in Hx. by apply Hx.
Qed.

Lemma globs_wf_ops os : globs_wf (do_ops os).
Proof.
  induction os as [|o os IH] using rev_ind; [apply NoDup_nil_2|]. unfold do_ops in *. rewrite foldl_snoc.
  destruct o; try exact IH; [by apply addGlob_wf|by apply delGlob_wf].
Qed.

(** What an operation about [pat] does to the tags. *)
Lemma tagged_erase os o pat tl : (o = DelGlob pat \/ exists s, o = AddGlob pat s) -> tagged os tl ->
  forall i q r, ~ (about_glob q o /\ i = List.length os /\ AddGlob q r = o) ->
  (i, (q, r)) ∈ filter (other_pattern pat) tl <-> glob_servlet (os ++ [o])%list i q r.
Proof.
  intros Ho [_ Ht] i q r Hn. rewrite list_elem_of_filter, Ht. unfold glob_servlet, other_pattern. rewrite last_about_snoc. cbn.
  assert (Ha : about_glob q o <-> q = pat) by (destruct Ho as [->|[s ->]]; cbn; naive_solver). naive_solver.
Qed.

Lemma globs_history os : exists tl, tagged os tl /\ m_globs (do_ops os) = tl.*2.
Proof.
  induction os as [|o os (tl & Htl & Hg)] using rev_ind.
  { exists []. split; [|done]. split; [constructor|]. intros i pat s. rewrite elem_of_nil. split; [done|]. by intros (H & _). }
  pose proof (globs_wf_ops os) as Hw. unfold globs_wf in Hw. rewrite Hg in Hw.
  assert (Hkeep : (forall pat, ~ about_glob pat o) -> tagged (os ++ [o])%list tl).
  { intros Hn. split; [apply Htl|]. intros i pat s. rewrite (proj2 Htl). unfold glob_servlet. rewrite last_about_snoc.
    specialize (Hn pat). tauto. }
  unfold do_ops in *. rewrite foldl_snoc.
  destruct o as [u s|u|u s|u|s]; cbn [do_op addServlet delServlet addGlobServlet delGlobServlet setDefault m_globs]; rewrite ?Hg;
    try (exists tl; split; [apply Hkeep; intros pat Hp; exact Hp|done]).
  - exists (filter (other_pattern u) tl ++ [(List.length os, (u, s))])%list. rewrite erase_glob_filter, fmap_app by done. split; [|done].
    pose proof (tagged_erase os (AddGlob u s) u tl (or_intror (ex_intro _ s eq_refl)) Htl) as Hf. split.
    + apply StronglySorted_app_2; [|by apply sorted_filter, Htl|by repeat constructor].
      intros x y Hx Hy. apply list_elem_of_singleton in Hy as ->. unfold earlier. cbn.
      apply list_elem_of_filter in Hx as [_ Hx]. destruct x as [i [q r]]. apply (proj2 Htl) in Hx as (Hx & _). cbn. by eapply lookup_lt_Some.
    + intros i q r. rewrite elem_of_app, list_elem_of_singleton. destruct (decide (i = List.length os)) as [->|Hi].
      * split.
        -- intros [Hin|[= -> ->]].
           ++ apply list_elem_of_filter in Hin as [_ Hin]. apply (proj2 Htl) in Hin as (Hx & _). apply lookup_lt_Some in Hx. lia.
           ++ apply last_about_snoc. left. by split_and!.
        -- intros [(_ & _ & [= -> ->])|(_ & Hx & _)]%last_about_snoc; [by right|]. apply lookup_lt_Some in Hx. lia.
      * rewrite <- Hf by tauto. split; [intros [?|[= ? _ _]]; done|by left].
  - exists (filter (other_pattern u) tl). rewrite erase_glob_filter by done. split; [|done].
    split; [by apply sorted_filter, Htl|]. intros i q r. apply (tagged_erase os (DelGlob u)); [by left|done|]. intros (_ & _ & [=]).
Qed.

(** The search takes the entry registered first. *)
Lemma find_glob_first test tl : StronglySorted earlier tl ->
  match find_glob test tl.*2 with
  | Some s => exists i pat, (i, (pat, s)) ∈ tl /\ test pat = true
      /\ forall i' pat' s', (i', (pat', s')) ∈ tl -> test pat' = true -> i <= i'
  | None => forall i pat s, (i, (pat, s)) ∈ tl -> test pat = false
  end.
Proof.
  induction 1 as [|[i [u s]] tl _ IH Hx]; cbn; [intros i pat s; by rewrite elem_of_nil|]. rewrite Forall_forall in Hx.
  destruct (test u) eqn:Eu.
  - exists i, u. split_and!; [by left|done|]. intros i' pat' s' [[= -> _ _]|Hin]%elem_of_cons _; [lia|].
    specialize (Hx _ Hin). unfold earlier in Hx. cbn in Hx. lia.
  - destruct (find_glob test tl.*2) as [s0|].
    + destruct IH as (i0 & p0 & H1 & H2 & H3). exists i0, p0. split_and!; [by right|done|].
      intros i' pat' s' [[= -> -> ->]|Hin]%elem_of_cons Ht; [congruence|by eapply H3].
    + intros i' pat' s' [[= -> -> ->]|Hin]%elem_of_cons; [done|by eapply IH].
Qed.

(** The history says exactly one servlet. *)
Lemma default_servlet_fun os s s' : default_servlet os s -> default_servlet os s' -> s = s'.
Proof.
  intros [[i Hi]|[Hf ->]] [[i' Hi']|[Hf' ->]]; [| | |done].
  - by destruct (last_about_fun _ _ _ _ _ _ Hi Hi') as [_ [= ->]].
  - destruct Hi as (Hi & _). rewrite Forall_forall in Hf'. apply list_elem_of_lookup_2 in Hi. by destruct (Hf' _ Hi).
  - destruct Hi' as (Hi & _). rewrite Forall_forall in Hf. apply list_elem_of_lookup_2 in Hi. by destruct (Hf _ Hi).
Qed.

Lemma chosen_fun fnmatch os uri s s' : chosen fnmatch os uri s -> chosen fnmatch os uri s' -> s = s'.
Proof.
  intros [s1 [i Hi]|i pat s1 Hn Hg Hm Hf|s1 Hn Hg Hd] [s2 [i' Hi']|i' pat' s2 Hn' Hg' Hm' Hf'|s2 Hn' Hg' Hd'];
    try (by edestruct Hn; eexists); try (by edestruct Hn'; eexists).
  - by destruct (last_about_fun _ _ _ _ _ _ Hi Hi') as [_ [= ->]].
  - assert (i = i') as -> by (apply Nat.le_antisymm; eauto). destruct Hg as (E & _), Hg' as (E' & _). congruence.
  - rewrite (Hg' _ _ _ Hg) in Hm. done.
  - rewrite (Hg _ _ _ Hg') in Hm'. done.
  - by eapply default_servlet_fun.
Qed.
End histories.


(** C36: Whatever servlets were registered, removed and made the default, in
    whatever order, a path is served by the one last registered for exactly that
    path and not removed since; if there is none by the matching pattern that,
    of those registered and not removed since, was registered first, a
    registration again counting as a new one; and else by the default last set,
    initially the 404 servlet. *)
Theorem dispatch_priority {S} fnmatch (os : list (op (S:=S))) uri s :
  getMatchedServlet fnmatch uri (do_ops os) = s <-> chosen fnmatch os uri s.
Proof.
  enough (H : chosen fnmatch os uri (getMatchedServlet fnmatch uri (do_ops os))).
  { split; [by intros <-|]. intros Hs. by eapply chosen_fun. }
  unfold getMatchedServlet. destruct (m_datas (do_ops os) !! uri) as [s1|] eqn:E; [by apply by_path, datas_history|].
  assert (Hn : forall s', ~ exact_servlet os uri s') by (intros s' Hs%datas_history; congruence).
  destruct (globs_history os) as (tl & [Hs Ht] & ->). pose proof (find_glob_first (fun u => fnmatch u uri) tl Hs) as Hf.
  destruct (find_glob (fun u => fnmatch u uri) tl.*2) as [s1|].
  - destruct Hf as (i & pat & H1 & H2 & H3). eapply by_glob; [done|by apply Ht|done|]. intros i' pat' s' H'%Ht. by eapply H3.
  - apply by_default; [done| |apply default_history]. intros i pat s1 H%Ht. by eapply Hf.
Qed.

(** What one registration or removal of a pattern changes. *)
Lemma dispatch_updates {S} fnmatch uri pat (slt : option (Servlet (S:=S))) d :
  globs_wf d ->
  getMatchedServlet fnmatch uri (addServlet uri slt d) = slt
  /\ (m_datas d !! uri = None -> fnmatch pat uri = true ->
      getMatchedServlet fnmatch uri (addGlobServlet pat slt d) =
        match find_glob (fun u => fnmatch u uri) (erase_glob pat (m_globs d)) with
        | Some s => s
        | None => slt
        end)
  /\ (fnmatch pat uri = false ->
      getMatchedServlet fnmatch uri (addGlobServlet pat slt d) = getMatchedServlet fnmatch uri d
      /\ getMatchedServlet fnmatch uri (delGlobServlet pat d) = getMatchedServlet fnmatch uri d)
  /\ globs_wf (addGlobServlet pat slt d) /\ globs_wf (delGlobServlet pat d)
  /\ getGlobServlet pat (addGlobServlet pat slt d) = slt
  /\ getGlobServlet pat (delGlobServlet pat d) = None.
Proof.
  intros Hd. unfold getMatchedServlet, getGlobServlet. simpl.
  destruct (erase_glob_keys pat _ Hd) as [_ Hk].
  assert (find_glob (fun u => u =? pat) (erase_glob pat (m_globs d)) = None) as Hnone
    by (apply find_glob_None_eq; rewrite Hk; tauto).
  split_and!.
  - by rewrite lookup_insert_eq.
  - intros -> Hf. rewrite find_glob_app. simpl. rewrite Hf. by destruct (find_glob (fun u => fnmatch u uri) _).
  - intros Hf. rewrite find_glob_app, find_glob_erase by done. simpl. rewrite Hf.
    split; [|done]. destruct (m_datas d !! uri); [done|].
    by destruct (find_glob (fun u => fnmatch u uri) (m_globs d)).
  - by apply addGlob_wf.
  - by apply delGlob_wf.
  - rewrite find_glob_app, Hnone. simpl. by rewrite String.eqb_refl.
  - by rewrite Hnone.
Qed.

(** A path no servlet is registered for gets the 404 answer of the
    default servlet: status, [Content-Type], a [Server] header and the page
    that names the server, on whatever response the caller prepared; other
    header names keep their values. *)
Theorem unmatched_path_404 {S} fnmatch (d : ServletDispatch (S:=S)) req rsp s name :
  m_datas d !! m_path req = None ->
  find_glob (fun u => fnmatch u (m_path req)) (m_globs d) = None ->
  m_default d = Some (NotFoundServlet name) ->
  exists rsp', dispatch_handle fnmatch d (req, rsp, s) = (0%Z, (req, rsp', s))
    /\ r_status rsp' = 404%Z /\ r_body rsp' = not_found_content name
    /\ rsp_getHeader "server" "" rsp' = "sylar/1.0.0"
    /\ rsp_getHeader "content-type" "" rsp' = "text/html"
    /\ (forall key def, ckey key <> ckey "server" -> ckey key <> ckey "content-type" ->
          rsp_getHeader key def rsp' = rsp_getHeader key def rsp).
Proof.
  intros H1 H2 H3. unfold dispatch_handle, getMatchedServlet. rewrite H1, H2, H3.
  eexists. split; [reflexivity|]. unfold rsp_getHeader. simpl. split_and!; try done.
  - rewrite map_find_spec, !map_set_spec. rewrite lookup_insert_ne by done.
    change (ckey "Server") with (ckey "server"). by rewrite lookup_insert_eq.
  - rewrite map_find_spec, !map_set_spec.
    change (ckey "Content-Type") with (ckey "content-type"). by rewrite lookup_insert_eq.
  - intros key def Hs Hc. rewrite !map_find_spec, !map_set_spec.
    change (ckey "Content-Type") with (ckey "content-type").
    change (ckey "Server") with (ckey "server"). by rewrite !lookup_insert_ne.
Qed.

Lemma unmatched_path_404_witness :
  exists rsp', dispatch_handle (S:=unit) (fun _ _ => false) newServletDispatch
      (newHttpRequest 17 true, newHttpResponse 17 true, tt) = (0%Z, (newHttpRequest 17 true, rsp', tt))
    /\ r_status rsp' = 404%Z.
Proof.
  destruct (unmatched_path_404 (S:=unit) (fun _ _ => false) newServletDispatch
    (newHttpRequest 17 true) (newHttpResponse 17 true) tt "sylar/1.0" eq_refl eq_refl eq_refl)
    as (rsp' & H & H404 & _).
  exists rsp'. split; [exact H|exact H404].
Defined.
