(* ===== verification/Stream.v ===== *)
(** * [sylar/stream.cc], [sylar/streams/socket_stream.cc]

    Reading and writing a fixed number of bytes over a stream that may deliver
    fewer than asked for.  [Stream]'s virtual [read] and [write] are an
    interface, a class of operations with their laws; the theorems about the
    fixed-size loops are proved against it, and [SocketStream] over a byte
    array implements its buffer side with the views of [ByteArray]. *)

From stdpp Require Import base list.
From Stdlib Require Import ZArith Lia.
From S2P Require Import Prelude ByteArray ByteArrayFacts ByteArraySpec ByteArrayIO.

(** ** The interface

    [sread n] is [read(buffer, n)]: its result, the bytes stored at the front
    of the buffer, the new state.  [swrite b] is [write(b, length b)]. *)

Class Stream (St : Type) := {
  sread : nat -> St -> Z * list Z * St;
  swrite : list Z -> St -> Z * St;
}.

Class StreamLaws (St : Type) `{!Stream St} := {
  sread_bound n st : let '(r, b, _) := sread n st in
    (r <= Z.of_nat n)%Z /\ length b = Z.to_nat r /\ in_s 32 r;
  swrite_bound b st : let '(r, _) := swrite b st in
    (r <= Z.of_nat (length b))%Z /\ in_s 32 r;
}.

(** ** [Stream] *)

Section fixed.
Context {St : Type} `{!Stream St}.

(** The loop of [readFixSize(buffer, length)]: the result, the bytes now at
    the front of the buffer. *)
Fixpoint readFixSize_loop (fuel : nat) (length left : nat) (st : St)
    : outcome (Z * list Z * St) :=
  if left =? 0 then Ok (i32 (Z.of_nat length), [], st) else
  match fuel with
  | O => Err NoFuel
  | S fuel =>
      let '(len, b, st) := sread left st in
      if (len <=? 0)%Z then Ok (i32 len, [], st) else
      '(r, b', st) ← readFixSize_loop fuel length (left - Z.to_nat len) st;
      Ok (r, b ++ b', st)
  end.

Definition readFixSize (length : nat) (st : St) : outcome (Z * list Z * St) :=
  readFixSize_loop length length length st.

(** The loop of [writeFixSize(buffer, length)]: [len -= left] leaves [left]
    as it was.  Passing bytes beyond the buffer is undefined. *)
Fixpoint writeFixSize_loop (fuel : nat) (buffer : list Z) (offset length left : nat) (st : St)
    : outcome (Z * St) :=
  if left =? 0 then Ok (i32 (Z.of_nat length), st) else
  match fuel with
  | O => Err NoFuel
  | S fuel =>
      if Datatypes.length buffer <? offset + left then Err (UB index_oob) else
      let '(len, st) := swrite (slice offset left buffer) st in
      if (len <=? 0)%Z then Ok (i32 len, st) else
      writeFixSize_loop fuel buffer (offset + Z.to_nat len) length left st
  end.

(** Every round moves the offset, so the buffer's length bounds the rounds. *)
Definition writeFixSize (buffer : list Z) (length : nat) (st : St) : outcome (Z * St) :=
  writeFixSize_loop (S (Datatypes.length buffer)) buffer 0 length length st.

(** The bytes a sequence of successful reads delivers. *)
Inductive delivers : St -> list Z -> St -> Prop :=
  | delivers_nil st : delivers st [] st
  | delivers_cons n st r b st1 b' st2 :
      sread n st = (r, b, st1) -> (0 < r)%Z -> delivers st1 b' st2 ->
      delivers st (b ++ b') st2.

Context `{!StreamLaws St}.

Lemma readFixSize_loop_spec fuel length left st :
  left <= fuel ->
  exists r b st',
    readFixSize_loop fuel length left st = Ok (r, b, st')
    /\ ((r = i32 (Z.of_nat length) /\ Datatypes.length b = left /\ delivers st b st')
        \/ ((r <= 0)%Z /\ Datatypes.length b < left /\ exists st1, delivers st b st1
            /\ exists n, sread n st1 = (r, [], st'))).
Proof.
  revert left st. induction fuel as [|fuel IH]; intros left st Hf; cbn [readFixSize_loop].
  { destruct (Nat.eqb_spec left 0) as [->|]; [|lia].
    eexists _, _, _. split; [done|]. left. split_and!; try done. constructor. }
  destruct (Nat.eqb_spec left 0) as [->|Hne].
  { eexists _, _, _. split; [done|]. left. split_and!; try done. constructor. }
  pose proof (sread_bound left st) as Hb. destruct (sread left st) as [[len b] st1] eqn:Hr.
  destruct Hb as (Hle & Hlen & Hint). destruct (Z.leb_spec len 0) as [Hz|Hz].
  - eexists _, _, _. split; [done|]. right. rewrite i32_small by done. simpl.
    split_and!; [done|lia|]. exists st. split; [constructor|]. exists left.
    destruct b; [done|]. simpl in Hlen. lia.
  - destruct (IH (left - Z.to_nat len) st1) as (r & b' & st' & -> & Hcase); [lia|].
    cbn [mbind outcome_bind]. eexists _, _, _. split; [done|]. rewrite length_app.
    destruct Hcase as [(-> & Hl & Hd)|(Hneg & Hl & st2 & Hd & Hn)].
    + left. split_and!; [done|lia|]. by econstructor.
    + right. split_and!; [done|lia|]. exists st2. split; [by econstructor|done].
Qed.

(** A successful first write is followed by a read past the buffer. *)
Lemma writeFixSize_overrun buffer st :
  let '(len, _) := swrite buffer st in
  buffer <> [] -> (0 < len)%Z ->
  writeFixSize buffer (length buffer) st = Err (UB index_oob).
Proof.
  destruct (swrite buffer st) as [len st1] eqn:Hw. intros Hne Hlen.
  assert (0 < length buffer) by (destruct buffer; [done|simpl; lia]).
  unfold writeFixSize. cbn [writeFixSize_loop].
  destruct (Nat.eqb_spec (length buffer) 0); [lia|].
  rewrite (proj2 (Nat.ltb_ge _ _)) by lia. rewrite slice_all, Hw.
  destruct (Z.leb_spec len 0); [lia|].
  destruct (length buffer) as [|m] eqn:E; [lia|]. cbn [writeFixSize_loop].
  destruct (Nat.eqb_spec (S m) 0); [lia|].
  by rewrite E, (proj2 (Nat.ltb_lt _ _)) by lia.
Qed.

Lemma writeFixSize_loop_never fuel buffer offset length left st r st' :
  0 < left -> writeFixSize_loop fuel buffer offset length left st = Ok (r, st') -> (r <= 0)%Z.
Proof.
  intros Hl. revert offset st. induction fuel as [|fuel IH]; intros offset st;
    cbn [writeFixSize_loop]; destruct (Nat.eqb_spec left 0); try lia; [done|].
  destruct (_ <? _); [done|].
  pose proof (swrite_bound (slice offset left buffer) st) as Hb.
  destruct (swrite _ st) as [len st1]. destruct Hb as [_ Hint].
  destruct (Z.leb_spec len 0); [|apply IH].
  intros [= <- _]. by rewrite i32_small.
Qed.
End fixed.

(** ** [SocketStream] over a byte array *)

Section socket.
Context {St : Type} (junk : nat -> nat -> Z).
Context (isConnected : St -> bool).
(** [m_sock->recv(iovs)]: its result and the bytes it scatters;
    [m_sock->send(iovs)] is offered the bytes gathered. *)
Context (recv : nat -> St -> Z * list Z * St) (send : list Z -> St -> Z * St).

Definition total (iovs : list iovec) : nat := sum_list (map iov_len iovs).

(** [read(ba, length)] *)
Definition read_ba (len : nat) (ba : bytearray) (st : St) : outcome (Z * bytearray * St) :=
  if negb (isConnected st) then Ok ((-1)%Z, ba, st) else
  '(iovs, _, ba) ← getWriteBuffers junk len ba;
  _ ← deref index_oob (head iovs);
  let '(ret, b, st) := recv (total iovs) st in
  let ba := set_nodes (scatter iovs b (m_nodes ba)) ba in
  if (0 <? ret)%Z then
    ba ← setPosition (m_position ba + Z.to_nat ret) ba; Ok (ret, ba, st)
  else Ok (ret, ba, st).

(** [write(ba, length)]: the bytes offered to [send] as well. *)
Definition write_ba (len : nat) (ba : bytearray) (st : St)
    : outcome (Z * list Z * bytearray * St) :=
  if negb (isConnected st) then Ok ((-1)%Z, [], ba, st) else
  '(iovs, _, ba) ← getWriteBuffers junk len ba;
  _ ← deref index_oob (head iovs);
  let b := gather (m_nodes ba) iovs in
  let '(ret, st) := send b st in
  if (0 <? ret)%Z then
    ba ← setPosition (m_position ba + Z.to_nat ret) ba; Ok (ret, b, ba, st)
  else Ok (ret, b, ba, st).

(** [readFixSize(ba, length)] *)
Fixpoint readFixSize_ba (fuel length left : nat) (ba : bytearray) (st : St)
    : outcome (Z * bytearray * St) :=
  if left =? 0 then Ok (i32 (Z.of_nat length), ba, st) else
  match fuel with
  | O => Err NoFuel
  | S fuel =>
      '(len, ba, st) ← read_ba left ba st;
      if (len <=? 0)%Z then Ok (i32 len, ba, st)
      else readFixSize_ba fuel length (left - Z.to_nat len) ba st
  end.

(** [writeFixSize(ba, length)]: this loop does decrease [left]. *)
Fixpoint writeFixSize_ba (fuel length left : nat) (ba : bytearray) (st : St)
    : outcome (Z * bytearray * St) :=
  if left =? 0 then Ok (i32 (Z.of_nat length), ba, st) else
  match fuel with
  | O => Err NoFuel
  | S fuel =>
      '(len, _, ba, st) ← write_ba left ba st;
      if (len <=? 0)%Z then Ok (i32 len, ba, st)
      else writeFixSize_ba fuel length (left - Z.to_nat len) ba st
  end.

(** The documented results of [recvmsg] and [sendmsg]. *)
Hypothesis recv_bound : forall n st, let '(r, b, _) := recv n st in
  (r <= Z.of_nat n)%Z /\ length b = Z.to_nat r /\ in_s 32 r.
Hypothesis send_bound : forall b st, let '(r, _) := send b st in
  (r <= Z.of_nat (length b))%Z /\ in_s 32 r.

(** What [read(buffer, n)] of the socket stream does, as a [Stream]. *)
Definition sock_read (n : nat) (st : St) : Z * list Z * St :=
  if negb (isConnected st) then ((-1)%Z, [], st) else recv n st.
Definition sock_write (b : list Z) (st : St) : Z * St :=
  if negb (isConnected st) then ((-1)%Z, st) else send b st.

#[local] Instance SocketStream : Stream St := {| sread := sock_read; swrite := sock_write |}.

#[local] Instance SocketStreamLaws : StreamLaws St.
Proof using recv_bound send_bound.
  constructor.
  - intros n st. simpl. unfold sock_read.
    destruct (isConnected st); [apply recv_bound|]. simpl. unfold in_s. split_and!; try done; lia.
  - intros b st. simpl. unfold sock_write.
    destruct (isConnected st); [apply send_bound|]. simpl. unfold in_s. split_and!; lia.
Qed.

Lemma getWriteBuffers_head len ba :
  wf ba -> 0 < len -> exists iovs ba1,
    getWriteBuffers junk len ba = Ok (iovs, len, ba1) /\ wf ba1 /\ abs ba1 = abs ba
    /\ total iovs = len /\ is_Some (head iovs)
    /\ forall b, length b <= len ->
         exists ba2, setPosition (m_position ba + length b)
                      (set_nodes (scatter iovs b (m_nodes ba1)) ba1) = Ok ba2
           /\ wf ba2 /\ abs ba2 = vec_write b (abs ba).
Proof.
  intros Hwf Hl. destruct (getWriteBuffers_spec junk len ba Hwf)
    as (iovs & ba1 & Hg & Hwf1 & Ha & Hs & Hsc).
  exists iovs, ba1. split_and!; try done.
  destruct iovs; [simpl in Hs; lia|]. by eexists.
Qed.

(** [read(ba, n)] appends to the array what [read(buffer, n)] delivers. *)
Lemma read_ba_spec len ba st :
  wf ba -> 0 < len ->
  let '(r, b, st') := sock_read len st in
  exists ba', read_ba len ba st = Ok (r, ba', st') /\ wf ba' /\ abs ba' = vec_write b (abs ba).
Proof using recv_bound.
  intros Hwf Hl. unfold sock_read, read_ba.
  assert (forall v : vec, vec_write [] v = v) as Hnil.
  { intros [bs p e]. unfold vec_write. simpl. by rewrite splice_nil, Nat.add_0_r. }
  destruct (isConnected st); simpl.
  2: { exists ba. by rewrite Hnil. }
  destruct (getWriteBuffers_head len ba Hwf Hl)
    as (iovs & ba1 & -> & Hwf1 & Ha & Ht & [v Hv] & Hsc).
  cbn [mbind outcome_bind]. rewrite Hv. cbn [deref mbind outcome_bind]. rewrite Ht.
  pose proof (recv_bound len st) as Hb. destruct (recv len st) as [[ret b] st'].
  destruct Hb as (Hle & Hlen & _).
  assert (m_position ba1 = m_position ba) as Ep by (by injection Ha).
  destruct (Z.ltb_spec 0 ret) as [Hr|Hr].
  - destruct (Hsc b) as (ba2 & Hset & Hwf2 & Ha2); [lia|].
    change (m_position (set_nodes _ ba1)) with (m_position ba1). rewrite Ep.
    rewrite Hlen in Hset. rewrite Hset. simpl. by exists ba2.
  - destruct b as [|x b]; [|simpl in Hlen; lia]. rewrite scatter_nil.
    replace (set_nodes (m_nodes ba1) ba1) with ba1 by by destruct ba1.
    exists ba1. by rewrite Hnil, Ha.
Qed.

Lemma readFixSize_ba_spec fuel length left ba st :
  wf ba -> left <= fuel ->
  exists r b ba' st',
    readFixSize_loop fuel length left st = Ok (r, b, st')
    /\ readFixSize_ba fuel length left ba st = Ok (r, ba', st')
    /\ wf ba' /\ abs ba' = vec_write b (abs ba).
Proof using recv_bound send_bound.
  revert left ba st. induction fuel as [|fuel IH]; intros left ba st Hwf Hf;
    cbn [readFixSize_loop readFixSize_ba].
  all: assert (abs ba = vec_write [] (abs ba)) as Hnil
    by (unfold vec_write; simpl; by rewrite splice_nil, Nat.add_0_r).
  { destruct (Nat.eqb_spec left 0); [|lia]. by eexists _, [], ba, _. }
  destruct (Nat.eqb_spec left 0); [by eexists _, [], ba, _|].
  pose proof (read_ba_spec left ba st Hwf ltac:(lia)) as Hr.
  pose proof (sread_bound left st) as Hb. cbn [sread SocketStream] in *.
  destruct (sock_read left st) as [[len b] st1]. destruct Hb as (Hle & Hlen & _).
  destruct Hr as (ba1 & -> & Hwf1 & Ha1). cbn [mbind outcome_bind].
  destruct (Z.leb_spec len 0).
  - destruct b; [|simpl in Hlen; lia]. exists (i32 len), [], ba1, st1. split_and!; try done.
  - destruct (IH (left - Z.to_nat len) ba1 st1 Hwf1) as (r & b' & ba' & st' & -> & -> & Hwf' & Ha');
      [lia|]. cbn [mbind outcome_bind]. exists r, (b ++ b'), ba', st'. split_and!; try done.
    rewrite Ha', Ha1. apply splice_rest_app. by apply wf_abs_pos.
Qed.

(** [write(ba, n)] with at least [n] readable bytes offers exactly those. *)
Lemma write_ba_spec len ba st :
  wf ba -> 0 < len <= getReadSize ba -> isConnected st = true ->
  let b := take len (vec_rest (abs ba)) in
  let '(r, st') := send b st in
  exists ba', write_ba len ba st = Ok (r, b, ba', st') /\ wf ba'
    /\ abs ba' = vec_seek (m_position ba + Z.to_nat r) (abs ba).
Proof using send_bound.
  intros Hwf [Hl Hle] Hc. unfold write_ba. rewrite Hc. simpl.
  unfold getReadSize in Hle. pose proof Hwf as [_ _ _ _ Hp Hs _].
  unfold getWriteBuffers. destruct (Nat.eqb_spec len 0); [lia|].
  destruct (addCapacity_spec junk len ba Hwf) as (s1 & _ & -> & _ & _ & _ & _ & _ & _ & _ & Hid).
  rewrite Hid by (unfold getCapacity; lia). cbn [mbind outcome_bind].
  pose proof (wf_base ba Hwf). destruct (Nat.eqb_spec (m_baseSize ba) 0); [lia|].
  destruct (iov_loop_at_cursor len ba Hwf)
    as (i & q & node & iovs & Epos & Hq & Hi & -> & Ec & El & Hiov & Hg & Hsum); [lia..|].
  cbn [mbind outcome_bind]. rewrite El, Ec, Epos, mod_index, Hiov by done. cbn [mbind outcome_bind].
  destruct iovs as [|v iovs]; [simpl in Hsum; lia|]. cbn [head deref mbind outcome_bind].
  rewrite Hg, <- Epos.
  assert (slice (m_position ba) len (flat ba) = take len (vec_rest (abs ba))) as ->
    by (symmetry; apply slice_take; lia).
  set (b := take len _). assert (length b = len) as Hlb
    by (subst b; rewrite length_take, length_rest by done; unfold getReadSize; lia).
  pose proof (send_bound b st) as Hb. destruct (send b st) as [r st']. destruct Hb as [Hrb _].
  destruct (Z.ltb_spec 0 r).
  - destruct (setPosition_refines (m_position ba + Z.to_nat r) ba) as (ba' & -> & Hwf' & Ha');
      [done|lia|]. by exists ba'.
  - exists ba. split_and!; try done. replace (Z.to_nat r) with 0 by lia.
    unfold vec_seek. simpl. by rewrite Nat.add_0_r.
Qed.
End socket.

(** ** A stream on a tape

    The bytes still to come and the sizes of the pieces they come in; it
    satisfies the laws. *)

Definition tape : Type := list Z * list nat.

Definition tape_recv (n : nat) (t : tape) : Z * list Z * tape :=
  match t.2 with
  | [] => (0%Z, [], t)
  | c :: cs =>
      let k := Nat.min (Nat.min c n) (Nat.min (length t.1) 1000) in
      (Z.of_nat k, take k t.1, (drop k t.1, cs))
  end.

Definition tape_send (b : list Z) (t : tape) : Z * tape :=
  match t.2 with
  | [] => ((-1)%Z, t)
  | c :: cs =>
      let k := Nat.min c (Nat.min (length b) 1000) in
      (Z.of_nat k, (t.1 ++ take k b, cs))
  end.

Lemma tape_recv_bound n t : let '(r, b, _) := tape_recv n t in
  (r <= Z.of_nat n)%Z /\ length b = Z.to_nat r /\ in_s 32 r.
Proof.
  unfold tape_recv. destruct t as [l [|c cs]]; cbn -[Nat.min take].
  - unfold in_s. split_and!; lia.
  - rewrite length_take. unfold in_s. split_and!; lia.
Qed.

Lemma tape_send_bound b t : let '(r, _) := tape_send b t in
  (r <= Z.of_nat (length b))%Z /\ in_s 32 r.
Proof.
  unfold tape_send. destruct t as [l [|c cs]]; cbn -[Nat.min take]; unfold in_s; split_and!; lia.
Qed.

#[export] Instance tape_stream : Stream tape := {| sread := tape_recv; swrite := tape_send |}.
#[export] Instance tape_stream_laws : StreamLaws tape :=
  {| sread_bound := tape_recv_bound; swrite_bound := tape_send_bound |}.

(** ** Properties *)

(** Over any stream that keeps the interface's laws, [readFixSize] returns
    after at most [length] rounds: either it has stored exactly [length] bytes,
    those the reads delivered in order, and returns [length] as an [int]; or a
    read failed and it returns that read's result, not positive, with what had
    arrived before in the buffer. *)
Theorem readFixSize_exact {St} `{!Stream St} `{!StreamLaws St} n (st : St) :
  exists r b st',
    readFixSize n st = Ok (r, b, st')
    /\ ((r = i32 (Z.of_nat n) /\ length b = n /\ delivers st b st')
        \/ ((r <= 0)%Z /\ length b < n /\ exists st1, delivers st b st1
            /\ exists m, sread m st1 = (r, [], st'))).
Proof. by apply readFixSize_loop_spec. Qed.

Lemma readFixSize_exact_witness :
  exists st', readFixSize 3 ([7; 8; 9; 10]%Z, [2; 5]) = Ok (3%Z, [7; 8; 9]%Z, st').
Proof.
  destruct (readFixSize_exact 3 ([7; 8; 9; 10]%Z, [2; 5])) as (r & b & st' & H & _).
  vm_compute in H. injection H as <- <- <-. eexists. vm_compute. reflexivity.
Defined.

(** Reading into a byte array with [readFixSize(ba, n)] over a socket
    returns the same result as reading into a buffer, and appends the bytes
    received, all of them and nothing else, at the array's cursor. *)
Theorem readFixSize_ba_appends {St} junk conn recv send n ba (st : St) :
  (forall n st, let '(r, b, _) := recv n st in
     (r <= Z.of_nat n)%Z /\ length b = Z.to_nat r /\ in_s 32 r) ->
  (forall b st, let '(r, _) := send b st in (r <= Z.of_nat (length b))%Z /\ in_s 32 r) ->
  wf ba ->
  exists r b ba' st',
    readFixSize (Stream0 := SocketStream conn recv send) n st = Ok (r, b, st')
    /\ readFixSize_ba junk conn recv n n n ba st = Ok (r, ba', st')
    /\ wf ba' /\ abs ba' = vec_write b (abs ba).
Proof. intros Hr Hs Hwf. by eapply readFixSize_ba_spec. Qed.

Lemma readFixSize_ba_appends_witness :
  exists ba', readFixSize_ba (fun _ _ => 0%Z) (fun _ => true) tape_recv 5 5 5
      (mkByteArray (fun _ _ => 0%Z) 2) ([1; 2; 3; 4; 5; 6]%Z, [2; 1; 4]) = Ok (5%Z, ba', ([6]%Z, []))
    /\ data ba' = [1; 2; 3; 4; 5]%Z.
Proof.
  destruct (readFixSize_ba_appends (fun _ _ => 0%Z) (fun _ => true) tape_recv tape_send 5
    (mkByteArray (fun _ _ => 0%Z) 2) ([1; 2; 3; 4; 5; 6]%Z, [2; 1; 4])
    tape_recv_bound tape_send_bound ltac:(apply wf_mkByteArray; lia))
    as (r & b & ba' & st' & H1 & H2 & _ & H3).
  assert (readFixSize (Stream0 := SocketStream (fun _ => true) tape_recv tape_send) 5
    ([1; 2; 3; 4; 5; 6]%Z, [2; 1; 4]) = Ok (5%Z, [1; 2; 3; 4; 5]%Z, ([6]%Z, []))) as E
    by reflexivity.
  rewrite E in H1. injection H1 as <- <- <-. exists ba'. split; [exact H2|].
  by apply (f_equal v_bytes) in H3.
Defined.

(** [writeFixSize(buffer, length)] never reports success for a non-empty
    buffer: it decreases the wrong variable, so when it returns it returns a
    failed write's result, and after a first write of any size it passes
    memory beyond the end of the buffer to [write]. *)
Theorem writeFixSize_never_succeeds {St} `{!Stream St} `{!StreamLaws St} buffer (st : St) :
  buffer <> [] ->
  (forall r st', writeFixSize buffer (length buffer) st = Ok (r, st') -> (r <= 0)%Z)
  /\ ((0 < (swrite buffer st).1)%Z ->
      writeFixSize buffer (length buffer) st = Err (UB index_oob)).
Proof.
  intros Hne. split.
  - intros r st' H. eapply writeFixSize_loop_never; [|exact H]. destruct buffer; [done|simpl; lia].
  - intros Hw. pose proof (writeFixSize_overrun buffer st) as H.
    destruct (swrite buffer st) as [len st1]. by apply H.
Qed.

Lemma writeFixSize_never_succeeds_witness :
  writeFixSize (Stream0 := tape_stream) [72; 84; 84; 80]%Z 4 ([], [4; 4]) = Err (UB index_oob).
Proof.
  apply (writeFixSize_never_succeeds [72; 84; 84; 80]%Z (([], [4; 4]) : tape)); [done|].
  vm_compute. reflexivity.
Defined.

(** [SocketStream::write(ba, n)] sends the next [n] readable bytes and
    moves the cursor by what was sent, provided that many are readable; asked
    for more it sends uninitialised memory, since it takes the array's write
    buffers, and moves the end of the data over it. *)
Theorem write_ba_readable {St} junk conn send len ba (st : St) :
  (forall b st, let '(r, _) := send b st in (r <= Z.of_nat (length b))%Z /\ in_s 32 r) ->
  wf ba -> 0 < len <= getReadSize ba -> conn st = true ->
  (let b := take len (vec_rest (abs ba)) in
   let '(r, st') := send b st in
   exists ba', write_ba junk conn send len ba st = Ok (r, b, ba', st') /\ wf ba'
     /\ abs ba' = vec_seek (m_position ba + Z.to_nat r) (abs ba))
  /\ match write_ba (fun _ _ => 204%Z) (fun _ => true) tape_send 3
             (mkByteArray (fun _ _ => 204%Z) 4) ([], [3]) with
     | Ok (r, b, ba', _) => r = 3%Z /\ b = [204; 204; 204]%Z /\ m_size ba' = 3
     | Err _ => False
     end.
Proof. intros Hs Hwf Hl Hc. split; [by eapply write_ba_spec|]. vm_compute. done. Qed.

Lemma write_ba_readable_witness :
  match write (fun _ _ => 0%Z) [9; 8; 7]%Z (mkByteArray (fun _ _ => 0%Z) 2) with
  | Ok ba =>
      match setPosition 0 ba with
      | Ok ba => exists ba', write_ba (fun _ _ => 0%Z) (fun _ => true) tape_send 3 ba ([], [2]) =
                   Ok (2%Z, [9; 8; 7]%Z, ba', ([9; 8]%Z, [])) /\ m_position ba' = 2
      | Err _ => False
      end
  | Err _ => False
  end.
Proof.
  destruct (write_refines (fun _ _ => 0%Z) [9; 8; 7]%Z (mkByteArray (fun _ _ => 0%Z) 2))
    as (ba & E & Hwf & _); [apply wf_mkByteArray; lia|]. rewrite E.
  destruct (setPosition_refines 0 ba Hwf) as (ba0 & E0 & Hwf0 & _); [lia|]. rewrite E0.
  vm_compute in E. injection E as <-. vm_compute in E0. injection E0 as <-.
  destruct (write_ba_readable (fun _ _ => 0%Z) (fun _ => true) tape_send 3 _ (([], [2]) : tape)
    tape_send_bound Hwf0) as [(ba' & H & _ & Ha) _]; [vm_compute; lia|done|].
  exists ba'. split; [exact H|]. by apply (f_equal v_pos) in Ha.
Defined.
