(* ===== verification/HttpParser.v ===== *)
(** * [sylar/http/http_parser.h], [sylar/http/http_parser.cc]

    The parser objects around the machines that ragel generates.  A machine
    is an interface: its state, and what [http_parser_execute] makes of a
    buffer, namely the callbacks it calls, with positions in the buffer, and
    how many bytes it has consumed; [Http11.v] implements it.  Positions and
    lengths are [size_t] values: a length computed from a position that belongs
    to an earlier buffer wraps around. *)

From stdpp Require Import base list strings.
From Stdlib Require Import ZArith Lia Ascii String.
From S2P Require Import Prelude Http.

Local Open Scope string_scope.
Local Open Scope nat_scope.

(** ** Bytes as characters *)

Definition char_of (b : Z) : ascii := ascii_of_nat (Z.to_nat (u8 b)).
Definition byte_of (c : ascii) : Z := Z.of_nat (nat_of_ascii c).

(** [std::string(p, n)] of the bytes at [p]. *)
Fixpoint string_of (l : list Z) : string :=
  match l with [] => "" | b :: l => String (char_of b) (string_of l) end.

Fixpoint bytes_of (s : string) : list Z :=
  match s with "" => [] | String c s => byte_of c :: bytes_of s end.

Lemma char_of_byte_of c : char_of (byte_of c) = c.
Proof.
  unfold char_of, byte_of. unfold u8. rewrite wrapu_small.
  - rewrite Nat2Z.id. apply ascii_nat_embedding.
  - unfold in_u. pose proof (nat_ascii_bounded c). lia.
Qed.

Lemma string_of_bytes_of s l : string_of (bytes_of s ++ l)%list = s ++ string_of l.
Proof. induction s as [|c s IH]; [done|]. simpl. by rewrite char_of_byte_of, IH. Qed.

Lemma length_bytes_of s : List.length (bytes_of s) = String.length s.
Proof. induction s; simpl; congruence. Qed.

Lemma string_cons_app c s t : String c s ++ t = String c (s ++ t).
Proof. done. Qed.

Lemma bytes_of_app s t : bytes_of (s ++ t) = (bytes_of s ++ bytes_of t)%list.
Proof. induction s as [|c s IH]; [done|]. rewrite string_cons_app. simpl. by rewrite IH. Qed.

Lemma string_bytes s : string_of (bytes_of s) = s.
Proof. induction s as [|c s IH]; [done|]. simpl. by rewrite char_of_byte_of, IH. Qed.

(** [strncmp(a, b, n) == 0]; the end of a string is the character 0. *)
Fixpoint strncmp_eq (n : nat) (a b : string) : bool :=
  match n with
  | O => true
  | S n =>
      match a, b with
      | "", "" => true
      | "", String y _ => Ascii.eqb y NUL
      | String x _, "" => Ascii.eqb x NUL
      | String x a, String y b => Ascii.eqb x y && (Ascii.eqb x NUL || strncmp_eq n a b)
      end
  end.

(** [atoi]: white space, a sign, digits; a value that is no [int] is
    undefined. *)
Definition isspace (c : ascii) : bool :=
  let n := nat_of_ascii c in (n =? 32) || ((9 <=? n) && (n <=? 13)).
Definition digit_of (c : ascii) : option Z :=
  let n := nat_of_ascii c in
  if (48 <=? n) && (n <=? 57) then Some (Z.of_nat n - 48)%Z else None.
Fixpoint atoi_digits (a : Z) (s : string) : Z :=
  match s with
  | "" => a
  | String c s => match digit_of c with Some d => atoi_digits (10 * a + d) s | None => a end
  end.
Definition atoi_sign (s : string) : Z :=
  match s with
  | String c s' =>
      if Ascii.eqb c "-" then (- atoi_digits 0 s')%Z
      else if Ascii.eqb c "+" then atoi_digits 0 s' else atoi_digits 0 s
  | "" => 0%Z
  end.
Fixpoint atoi (s : string) : outcome Z :=
  match s with
  | String c s' => if isspace c then atoi s' else sarith 32 (atoi_sign s)
  | "" => Ok 0%Z
  end.

(** ** Machines *)

(** A callback the machine calls: an element or a header field, as positions
    and lengths in the buffer. *)
Inductive call (E : Type) :=
  | Elem (e : E) (at_ len : Z)
  | Field (field flen value vlen : Z).
Arguments Elem {E} e at_ len.
Arguments Field {E} field flen value vlen.

Class Machine (E M : Type) := {
  mach_init : M;
  mach_execute : list Z -> M -> outcome (list (call E) * nat * M);
  mach_has_error : M -> bool;
  mach_is_finished : M -> bool;
}.

(** A piece is inside the [n] bytes the machine was given, or its length has
    wrapped around and is more than any string can have. *)
Definition piece_in (n : nat) (at_ len : Z) : Prop :=
  (0 <= at_ /\ 0 <= len /\ at_ + len <= Z.of_nat n \/ 0 <= at_ /\ max_size < len)%Z.

Definition call_in {E} (n : nat) (c : call E) : Prop :=
  match c with
  | Elem _ at_ len => piece_in n at_ len
  | Field f fl v vl => piece_in n f fl /\ piece_in n v vl
  end.

(** What the parser objects rely on, as long as the machine is neither
    finished nor in error; the C code takes lengths for [int]s. *)
Class MachineLaws (E M : Type) `{!Machine E M} := {
  mach_inv : M -> Prop;
  mach_inv_init : mach_inv mach_init;
  mach_execute_ok buf m :
    mach_inv m -> (Z.of_nat (List.length buf) < 2 ^ 31)%Z ->
    exists cs n m', mach_execute buf m = Ok (cs, n, m') /\ n <= List.length buf
      /\ Forall (call_in (List.length buf)) cs
      /\ (mach_has_error m' = false -> mach_is_finished m' = false -> mach_inv m');
}.

(** [std::string(data + at, len)], and what a C function sees from
    [data + at] on. *)
Definition text (data : list Z) (at_ len : Z) : outcome string :=
  if (max_size <? len)%Z then Err (Throws length_error)
  else if (Z.of_nat (List.length data) <? at_ + len)%Z then Err (UB index_oob)
  else Ok (string_of (slice (Z.to_nat at_) (Z.to_nat len) data)).
Definition ctext (data : list Z) (at_ : Z) : string := string_of (drop (Z.to_nat at_) data).

(** The version callbacks: [None] is error 1001.  [strncmp] looks at no more
    than the literal's eight characters and the zero after them. *)
Definition version_of (at_ : string) (len : Z) : option Z :=
  let n := Z.to_nat (len `min` 9) in
  if strncmp_eq n at_ "HTTP/1.1" then Some 17%Z
  else if strncmp_eq n at_ "HTTP/1.0" then Some 16%Z
  else None.

(** ** [HttpRequestParser] *)

Inductive request_elem :=
  | RequestMethod | RequestUri | Fragment | RequestPath | QueryString | HttpVersion | HeaderDone.

(** The setters of [HttpRequest] the callbacks use. *)
Definition setMethod (v : HttpMethod) (r : HttpRequest) : HttpRequest :=
  mkReq v (m_version r) (m_close r) (m_path r) (m_query r) (m_body r) (m_fragment r)
    (m_headers r) (m_params r) (m_cookies r).
Definition setVersion (v : Z) (r : HttpRequest) : HttpRequest :=
  mkReq (m_method r) v (m_close r) (m_path r) (m_query r) (m_body r) (m_fragment r)
    (m_headers r) (m_params r) (m_cookies r).
Definition setPath (v : string) (r : HttpRequest) : HttpRequest :=
  mkReq (m_method r) (m_version r) (m_close r) v (m_query r) (m_body r) (m_fragment r)
    (m_headers r) (m_params r) (m_cookies r).
Definition setQuery (v : string) (r : HttpRequest) : HttpRequest :=
  mkReq (m_method r) (m_version r) (m_close r) (m_path r) v (m_body r) (m_fragment r)
    (m_headers r) (m_params r) (m_cookies r).
Definition setBody (v : string) (r : HttpRequest) : HttpRequest :=
  mkReq (m_method r) (m_version r) (m_close r) (m_path r) (m_query r) v (m_fragment r)
    (m_headers r) (m_params r) (m_cookies r).
Definition setFragment (v : string) (r : HttpRequest) : HttpRequest :=
  mkReq (m_method r) (m_version r) (m_close r) (m_path r) (m_query r) (m_body r) v
    (m_headers r) (m_params r) (m_cookies r).

Section request.
Context {M : Type} `{!Machine request_elem M}.

Record HttpRequestParser := mkParser {
  p_parser : M;
  p_data : HttpRequest;
  p_error : Z;
}.

Definition newHttpRequestParser : HttpRequestParser :=
  mkParser mach_init (newHttpRequest 17 true) 0.

Definition setError (v : Z) (p : HttpRequestParser) := mkParser (p_parser p) (p_data p) v.
Definition update (f : HttpRequest -> HttpRequest) (p : HttpRequestParser) :=
  mkParser (p_parser p) (f (p_data p)) (p_error p).

(** The log lines of the two errors print the text, which is made for them (the
    logger lets warnings through). *)
Definition on_request_method (data : list Z) (at_ len : Z) (p : HttpRequestParser) : outcome HttpRequestParser :=
  let m := CharsToHttpMethod (ctext data at_) in
  if decide (m = INVAILD_METHOD) then _ ← text data at_ len; Ok (setError 1000 p) else Ok (update (setMethod m) p).

Definition on_request_version (data : list Z) (at_ len : Z) (p : HttpRequestParser) : outcome HttpRequestParser :=
  match version_of (ctext data at_) len with
  | Some v => Ok (update (setVersion v) p)
  | None => _ ← text data at_ len; Ok (setError 1001 p)
  end.

Definition on_request_http_field (data : list Z) (field flen value vlen : Z)
    (p : HttpRequestParser) : outcome HttpRequestParser :=
  if (flen =? 0)%Z then Ok p else
  f ← text data field flen;
  v ← text data value vlen;
  Ok (update (setHeader f v) p).

Definition on_request_call (data : list Z) (c : call request_elem) (p : HttpRequestParser)
    : outcome HttpRequestParser :=
  match c with
  | Elem RequestMethod at_ len => on_request_method data at_ len p
  | Elem RequestUri _ _ => Ok p
  | Elem Fragment at_ len => s ← text data at_ len; Ok (update (setFragment s) p)
  | Elem RequestPath at_ len => s ← text data at_ len; Ok (update (setPath s) p)
  | Elem QueryString at_ len => s ← text data at_ len; Ok (update (setQuery s) p)
  | Elem HttpVersion at_ len => on_request_version data at_ len p
  | Elem HeaderDone _ _ => Ok p
  | Field f fl v vl => on_request_http_field data f fl v vl p
  end.

Fixpoint on_request_calls (data : list Z) (cs : list (call request_elem)) (p : HttpRequestParser)
    : outcome HttpRequestParser :=
  match cs with
  | [] => Ok p
  | c :: cs => p ← on_request_call data c p; on_request_calls data cs p
  end.

(** [execute(data, len)]: the bytes parsed, and the buffer with the rest moved
    to its front. *)
Definition execute (data : list Z) (len : nat) (p : HttpRequestParser)
    : outcome (nat * list Z * HttpRequestParser) :=
  '(cs, offset, m) ← mach_execute (take len data) (p_parser p);
  p ← on_request_calls data cs (mkParser m (p_data p) (p_error p));
  if len <? offset then Err (UB index_oob) else
  Ok (offset, splice 0 (slice offset (len - offset) data) data, p).

(** [http_parser_finish] *)
Definition isFinished (p : HttpRequestParser) : Z :=
  if mach_has_error (p_parser p) then (-1)%Z
  else if mach_is_finished (p_parser p) then 1%Z else 0%Z.

Definition hasError (p : HttpRequestParser) : bool :=
  negb (p_error p =? 0)%Z || mach_has_error (p_parser p).

Definition getContentLength (lexical_cast : string -> option Z) (p : HttpRequestParser) : Z :=
  getHeaderAs lexical_cast "content-length" 0%Z (p_data p).
End request.
Arguments HttpRequestParser M : clear implicits.

(** ** Facts *)

Section facts.
Context {M : Type} `{!Machine request_elem M} `{!MachineLaws request_elem M}.
Implicit Types p : HttpRequestParser M.

Lemma text_ok data at_ len :
  (0 <= at_)%Z -> (0 <= len <= max_size)%Z -> (at_ + len <= Z.of_nat (List.length data))%Z ->
  text data at_ len = Ok (string_of (slice (Z.to_nat at_) (Z.to_nat len) data)).
Proof. intros. unfold text. by rewrite !(proj2 (Z.ltb_ge _ _)) by lia. Qed.

(** [std::string] of a piece either is the text or throws. *)
Lemma text_in n data at_ len :
  n <= List.length data -> (Z.of_nat n < 2 ^ 31)%Z -> piece_in n at_ len ->
  text data at_ len = Err (Throws length_error) \/ exists s, text data at_ len = Ok s.
Proof.
  intros Hn Hb [(H1 & H2 & H3)|[H1 H2]].
  - right. rewrite text_ok by (unfold max_size; lia). eauto.
  - left. unfold text. by rewrite (proj2 (Z.ltb_lt _ _)).
Qed.

Ltac text_cases n data :=
  match goal with
  | |- context [text data ?a ?l] =>
      destruct (text_in n data a l) as [->|[? ->]]; [done|done|tauto|by left|]; simpl
  end.

Lemma on_request_call_ok data n c p :
  n <= List.length data -> (Z.of_nat n < 2 ^ 31)%Z -> call_in n c ->
  on_request_call data c p = Err (Throws length_error)
  \/ exists p', on_request_call data c p = Ok p' /\ p_parser p' = p_parser p.
Proof.
  intros Hn Hb Hc. destruct c as [e a l|f fl v vl]; simpl in *.
  - destruct e; simpl; try text_cases n data; try (right; by eauto).
    + unfold on_request_method. destruct (decide _); [text_cases n data|]; right; eauto.
    + unfold on_request_version. destruct (version_of _ _); [|text_cases n data]; right; eauto.
  - unfold on_request_http_field. destruct (fl =? 0)%Z; [right; by eauto|].
    destruct Hc as [Hc1 Hc2]. text_cases n data. text_cases n data. right. eauto.
Qed.

Lemma on_request_calls_ok data n cs p :
  n <= List.length data -> (Z.of_nat n < 2 ^ 31)%Z -> Forall (call_in n) cs ->
  on_request_calls data cs p = Err (Throws length_error)
  \/ exists p', on_request_calls data cs p = Ok p' /\ p_parser p' = p_parser p.
Proof.
  intros Hn Hb Hcs. revert p. induction Hcs as [|c cs Hc _ IH]; intros p; [right; by exists p|]. simpl.
  destruct (on_request_call_ok data n c p Hn Hb Hc) as [->|(p1 & -> & H1)]; [by left|]. simpl.
  destruct (IH p1) as [->|(p2 & -> & H2)]; [by left|]. right. exists p2. split; [done|congruence].
Qed.

(** [execute] never leaves the buffer, and moves what it did not parse to the
    front; it throws only for a length that wrapped around. *)
Lemma execute_spec data len p :
  len <= List.length data -> (Z.of_nat len < 2 ^ 31)%Z -> mach_inv (p_parser p) ->
  execute data len p = Err (Throws length_error)
  \/ exists offset data' p', execute data len p = Ok (offset, data', p')
    /\ offset <= len /\ List.length data' = List.length data
    /\ take (len - offset) data' = slice offset (len - offset) data
    /\ (mach_has_error (p_parser p') = false -> mach_is_finished (p_parser p') = false ->
         mach_inv (p_parser p'))
    /\ exists cs, mach_execute (take len data) (p_parser p) = Ok (cs, offset, p_parser p').
Proof.
  intros Hl Hb Hinv. unfold execute.
  destruct (mach_execute_ok (take len data) (p_parser p) Hinv) as (cs & n & m & Hx & Hn & Hc & Hi).
  { rewrite length_take. lia. }
  rewrite length_take, Nat.min_l in Hn, Hc by done. rewrite Hx. cbn [mbind outcome_bind].
  destruct (on_request_calls_ok data len cs (mkParser m (p_data p) (p_error p)) Hl Hb Hc)
    as [->|(p' & -> & Hp)]; [by left|right]. simpl in *.
  rewrite (proj2 (Nat.ltb_ge _ _)) by done.
  assert (List.length (slice n (len - n) data) = len - n) as Hs by (apply length_slice; lia).
  eexists n, _, p'. split_and!; [done|done| | |by rewrite Hp|exists cs; congruence].
  - apply length_splice. lia.
  - rewrite <- Hs at 1. apply (slice_splice_eq 0). lia.
Qed.
End facts.
