(* ===== verification/Ragel.v ===== *)
(** * Machines generated by ragel

    The C code ragel writes for a machine is a [switch] over the current state
    with labels: [case N] looks at the character and jumps, [trN] runs actions
    and goes on to a state, [stN] advances the pointer.  Here that code is a
    list of blocks in the order of the source, and [run] is what executing it
    means.  A [char] is signed, so a character is a value from -128 to 127. *)

From stdpp Require Import base list.
From Stdlib Require Import ZArith Lia.
From S2P Require Import Prelude.

Local Open Scope Z_scope.

(** The targets of [goto]. *)
Inductive label := tr (n : Z) | st (n : Z).

(** The code at [trN] and at [case N].  A case may test [parser->uri_relaxed],
    its first argument. *)
Inductive block (A : Type) :=
  | Tr (n : Z) (actions : list A) (to : Z)
  | Case (n : Z) (f : bool -> Z -> label).
Arguments Tr {A} n actions to.
Arguments Case {A} n f.

Fixpoint switch (c : Z) (cases : list (Z * label)) (default : label) : label :=
  match cases with
  | [] => default
  | (k, l) :: cases => if c =? k then l else switch c cases default
  end.

Definition within (lo hi c : Z) : bool := (lo <=? c) && (c <=? hi).

(** [_widec] for a character under the condition [uri_relaxed]: the character
    moved to a range of its own, one of two by the condition. *)
Definition widec (r : bool) (c : Z) : Z := 128 + (c - -128) + (if r then 256 else 0).

Section machine.
Context {A S : Type} (code : list (block A)).
(** An action at position [p] of a buffer that ends at [pe]; [breaks] is the
    state an action leaves the loop with ([fbreak]). *)
Context (act : A -> nat -> nat -> S -> S) (breaks : A -> option Z).
Context (relaxed : bool).

Fixpoint find_case (n : Z) (l : list (block A)) : option (bool -> Z -> label) :=
  match l with
  | [] => None
  | Case k f :: l => if n =? k then Some f else find_case n l
  | Tr _ _ _ :: l => find_case n l
  end.

Fixpoint find_tr (n : Z) (l : list (block A)) : option (list A * Z) :=
  match l with
  | [] => None
  | Tr k acts to :: l => if n =? k then Some (acts, to) else find_tr n l
  | Case _ _ :: l => find_tr n l
  end.

(** The actions on character [c] in state [cs] and the state they lead to;
    [None] when the [switch] has no such case. *)
Definition next (cs c : Z) : option (list A * Z) :=
  match find_case cs code with
  | None => None
  | Some f =>
      match f relaxed c with
      | st n => Some ([], n)
      | tr n => find_tr n code
      end
  end.

Definition run_actions (acts : list A) (p pe : nat) (s : S) : S :=
  foldl (fun s a => act a p pe s) s acts.

Definition break_of (acts : list A) : option Z := head (omap breaks acts).

(** From state [cs] at position [p], with [rest] before [pe].  The state 0 is
    left without moving on; a state without a case runs into the first label
    after the [switch], [_test_eof2]. *)
Fixpoint run (cs : Z) (p : nat) (rest : list Z) (s : S) : Z * nat * S :=
  match rest with
  | [] => (cs, p, s)
  | b :: rest' =>
      match next cs (wraps 8 b) with
      | None => (2, p, s)
      | Some (acts, n) =>
          let s := run_actions acts p (p + length rest) s in
          match break_of acts with
          | Some cs => (cs, Datatypes.S p, s)
          | None => if n =? 0 then (0, p, s) else run n (Datatypes.S p) rest' s
          end
      end
  end.
End machine.

(** ** Reasoning about a run *)

Section progress.
Context {A S : Type} (code : list (block A)) (act : A -> nat -> nat -> S -> S).
Context (breaks : A -> option Z) (relaxed : bool).

Lemma run_bounds rest cs p s :
  let '(_, p', _) := run code act breaks relaxed cs p rest s in
  (p <= p' <= p + length rest)%nat.
Proof.
  revert cs p s. induction rest as [|b rest IH]; intros cs p s; simpl; [lia|].
  destruct (next _ _ _ _) as [[acts n]|]; [|lia]. destruct (break_of _ _); [lia|].
  destruct (n =? 0); [lia|].
  match goal with |- context [run _ _ _ _ n ?q rest ?t] => specialize (IH n q t) end.
  destruct (run _ _ _ _ _ _ _ _) as [[? p'] ?]. lia.
Qed.

(** Where the code has an edge, a run fails or moves on. *)
Lemma run_moves cs p b rest s :
  is_Some (next code relaxed cs (wraps 8 b)) ->
  let '(cs', p', _) := run code act breaks relaxed cs p (b :: rest) s in
  cs' = 0 \/ (p < p')%nat.
Proof.
  intros [[acts n] Hn]. simpl. rewrite Hn.
  destruct (break_of _ _); [right; lia|]. destruct (n =? 0); [by left|].
  match goal with |- context [run _ _ _ _ n ?q rest ?t] => pose proof (run_bounds rest n q t) end.
  destruct (run _ _ _ _ _ _ _ _) as [[? p'] ?]. right. lia.
Qed.
End progress.

(** The characters and the states of a machine, to check by computation. *)
Definition chars : list Z := map (fun n => Z.of_nat n - 128) (seq 0 256).

Lemma wraps8_chars b : wraps 8 b ∈ chars.
Proof.
  unfold chars. apply list_elem_of_fmap. exists (Z.to_nat (wraps 8 b + 128)).
  unfold wraps. change (2 ^ (8 - 1)) with 128. change (2 ^ 8) with 256.
  pose proof (Z.mod_pos_bound (b + 128) 256 ltac:(lia)). split; [lia|].
  apply elem_of_seq. lia.
Qed.

Section invariant.
Context {A S : Type} (code : list (block A)) (act : A -> nat -> nat -> S -> S).
Context (breaks : A -> option Z) (relaxed : bool).

(** A check of every case of the code on every character. *)
Definition check_edges (check : Z -> Z -> list A -> Z -> bool) : bool :=
  forallb (fun b =>
    match b with
    | Tr _ _ _ => true
    | Case n f =>
        forallb (fun c =>
          match f relaxed c with
          | st m => check n c [] m
          | tr k => match find_tr k code with Some (acts, m) => check n c acts m | None => true end
          end) chars
    end) code.

Definition check_code (check : Z -> list A -> Z -> bool) : bool := check_edges (fun n _ => check n).

Lemma find_case_elem n l f : find_case n l = Some f -> Case n f ∈ (l : list (block A)).
Proof.
  induction l as [|[k acts to|k g] l IH]; simpl; [done|intros; right; auto|].
  destruct (Z.eqb_spec n k) as [->|]; [intros [= ->]; by left|intros; right; auto].
Qed.

Lemma check_edges_next check cs b acts n :
  check_edges check = true -> next code relaxed cs (wraps 8 b) = Some (acts, n) ->
  check cs (wraps 8 b) acts n = true.
Proof.
  intros Hc Hn. unfold next in Hn. destruct (find_case cs code) as [f|] eqn:Hf; [|done].
  apply find_case_elem in Hf. unfold check_edges in Hc. rewrite forallb_forall in Hc.
  specialize (Hc _ (proj1 (list_elem_of_In _ _) Hf)). cbv beta iota in Hc. rewrite forallb_forall in Hc.
  specialize (Hc _ (proj1 (list_elem_of_In _ _) (wraps8_chars b))).
  destruct (f relaxed (wraps 8 b)) as [k|m]; [by rewrite Hn in Hc|]. by injection Hn as <- <-.
Qed.

Lemma check_code_next check cs b acts n :
  check_code check = true -> next code relaxed cs (wraps 8 b) = Some (acts, n) ->
  check cs acts n = true.
Proof. apply (check_edges_next (fun n _ => check n)). Qed.

(** An invariant of the states of a run over a buffer that ends at [pe], with
    what holds when it stops. *)
Lemma run_invariant (I : Z -> nat -> S -> Prop) (F : Z -> nat -> S -> Prop) pe :
  (forall cs p s, I cs p s -> (p <= pe)%nat -> F cs p s) ->
  (forall cs p s, I cs p s -> (p < pe)%nat -> F 2 p s) ->
  (forall cs p b s acts n, I cs p s -> (p < pe)%nat ->
    next code relaxed cs (wraps 8 b) = Some (acts, n) ->
    let s' := run_actions act acts p pe s in
    match break_of breaks acts with
    | Some cs' => F cs' (Datatypes.S p) s'
    | None => F 0 p s' /\ I n (Datatypes.S p) s'
    end) ->
  forall rest cs p s, I cs p s -> (p + length rest = pe)%nat ->
  let '(cs', p', s') := run code act breaks relaxed cs p rest s in
  F cs' p' s' /\ (p' <= pe)%nat.
Proof.
  intros HF H2 Hstep rest. induction rest as [|b rest IH]; intros cs p s HI Hlen; simpl.
  { split; [|simpl in *; lia]. apply HF; [done|simpl in *; lia]. }
  simpl in Hlen. rewrite Hlen.
  destruct (next code relaxed cs (wraps 8 b)) as [[acts n]|] eqn:Hn.
  - specialize (Hstep cs p b s acts n HI ltac:(lia) Hn). cbv zeta in Hstep.
    destruct (break_of breaks acts) as [cs'|]; [split; [done|lia]|].
    destruct Hstep as [H0 HI']. destruct (n =? 0); [split; [done|lia]|].
    apply IH; [done|lia].
  - split; [|lia]. apply (H2 cs); [done|lia].
Qed.
End invariant.

(** ** Running over a text *)

Section follow.
Context {A S : Type} `{!EqDecision A} (code : list (block A)) (act : A -> nat -> nat -> S -> S).
Context (breaks : A -> option Z) (relaxed : bool).

Notation run := (run code act breaks relaxed).
Notation next := (next code relaxed).

(** Every character of a class leads from [cs] to [n] with these actions. *)
Definition edge (cs : Z) (ok : Z -> bool) (acts : list A) (n : Z) : bool :=
  forallb (fun c => implb (ok c) (bool_decide (next cs c = Some (acts, n)))) chars.

Lemma edge_next cs ok acts n b :
  edge cs ok acts n = true -> ok (wraps 8 b) = true -> next cs (wraps 8 b) = Some (acts, n).
Proof.
  intros He Hb. unfold edge in He. rewrite forallb_forall in He.
  specialize (He _ (proj1 (list_elem_of_In _ _) (wraps8_chars b))). rewrite Hb in He.
  by apply bool_decide_eq_true in He.
Qed.

Lemma run_edge cs ok acts n b rest p s :
  edge cs ok acts n = true -> ok (wraps 8 b) = true -> break_of breaks acts = None -> n <> 0 ->
  run cs p (b :: rest) s =
    run n (Datatypes.S p) rest (run_actions act acts p (p + Datatypes.S (length rest)) s).
Proof.
  intros He Hb Hbr Hn. simpl. rewrite (edge_next _ _ _ _ _ He Hb), Hbr.
  by rewrite (proj2 (Z.eqb_neq _ _)).
Qed.

Lemma run_edge_break cs ok acts n b rest p s cs' :
  edge cs ok acts n = true -> ok (wraps 8 b) = true -> break_of breaks acts = Some cs' ->
  run cs p (b :: rest) s =
    (cs', Datatypes.S p, run_actions act acts p (p + Datatypes.S (length rest)) s).
Proof. intros He Hb Hbr. simpl. by rewrite (edge_next _ _ _ _ _ He Hb), Hbr. Qed.

(** A class that stays in its state. *)
Lemma run_loop cs ok l rest p s :
  edge cs ok [] cs = true -> cs <> 0 -> forallb (fun b => ok (wraps 8 b)) l = true ->
  run cs p (l ++ rest) s = run cs (p + length l) rest s.
Proof.
  intros He Hcs. revert p. induction l as [|b l IH]; intros p Hl; simpl in Hl.
  { by rewrite Nat.add_0_r. }
  apply andb_true_iff in Hl as [Hb Hl]. cbn [app].
  rewrite (run_edge cs ok [] cs b (l ++ rest) p s He Hb eq_refl Hcs), IH by done.
  simpl. f_equal. lia.
Qed.

(** A text of characters of a class and of "%" with two hexadecimal digits. *)
Definition xdigit (c : Z) : bool := within 48 57 c || within 65 70 c || within 97 102 c.

Fixpoint pct_text (ok : Z -> bool) (l : list Z) : bool :=
  match l with
  | [] => true
  | b :: l' =>
      if wraps 8 b =? 37 then
        match l' with
        | x :: y :: l' => xdigit (wraps 8 x) && xdigit (wraps 8 y) && pct_text ok l'
        | _ => false
        end
      else ok (wraps 8 b) && pct_text ok l'
  end.

Lemma run_pct cs c1 c2 ok l rest p s :
  edge cs ok [] cs = true -> edge cs (Z.eqb 37) [] c1 = true -> edge c1 xdigit [] c2 = true ->
  edge c2 xdigit [] cs = true -> cs <> 0 -> c1 <> 0 -> c2 <> 0 -> pct_text ok l = true ->
  run cs p (l ++ rest) s = run cs (p + length l) rest s.
Proof.
  intros He H1 H2 H3 Hcs Hc1 Hc2. remember (length l) as n eqn:Hn. revert l Hn p.
  induction (lt_wf n) as [n _ IH]. intros l -> p Hl.
  destruct l as [|b l]; [by rewrite Nat.add_0_r|]. cbn [pct_text] in Hl. cbn [app].
  destruct (Z.eqb_spec (wraps 8 b) 37) as [E|E].
  - destruct l as [|x [|y l]]; [done..|].
    apply andb_true_iff in Hl as [Hl Hr]. apply andb_true_iff in Hl as [Hx Hy].
    rewrite (run_edge _ _ _ _ _ _ _ _ H1 (proj2 (Z.eqb_eq _ _) (eq_sym E)) eq_refl Hc1).
    cbn [app]. rewrite (run_edge _ _ _ _ _ _ _ _ H2 Hx eq_refl Hc2).
    rewrite (run_edge _ _ _ _ _ _ _ _ H3 Hy eq_refl Hcs). cbn [run_actions foldl].
    rewrite (IH (length l)); [|simpl; lia|done|done]. f_equal. simpl. lia.
  - apply andb_true_iff in Hl as [Hb Hl].
    rewrite (run_edge _ _ _ _ _ _ _ _ He Hb eq_refl Hcs). cbn [run_actions foldl].
    rewrite (IH (length l)); [|simpl; lia|done|done]. f_equal. simpl. lia.
Qed.

(** The same, entered from [e] with actions on the first character. *)
Lemma run_pct_from e acts cs c1 c2 ok1 ok l rest p s :
  edge e ok1 acts cs = true -> edge e (Z.eqb 37) acts c1 = true ->
  edge cs ok [] cs = true -> edge cs (Z.eqb 37) [] c1 = true -> edge c1 xdigit [] c2 = true ->
  edge c2 xdigit [] cs = true -> cs <> 0 -> c1 <> 0 -> c2 <> 0 -> break_of breaks acts = None ->
  match l with b :: _ => wraps 8 b = 37 \/ ok1 (wraps 8 b) = true | [] => False end ->
  pct_text ok l = true ->
  run e p (l ++ rest) s =
    run cs (p + length l) rest (run_actions act acts p (p + length (l ++ rest)) s).
Proof.
  intros Hf Hf1 He H1 H2 H3 Hcs Hc1 Hc2 Hbr Hfirst Hl.
  destruct l as [|b l]; [done|]. cbn [pct_text] in Hl. cbn [app].
  destruct (Z.eqb_spec (wraps 8 b) 37) as [E|E].
  - destruct l as [|x [|y l]]; [done..|].
    apply andb_true_iff in Hl as [Hl Hr]. apply andb_true_iff in Hl as [Hx Hy].
    rewrite (run_edge _ _ _ _ _ _ _ _ Hf1 (proj2 (Z.eqb_eq _ _) (eq_sym E)) Hbr Hc1).
    cbn [app]. rewrite (run_edge _ _ _ _ _ _ _ _ H2 Hx eq_refl Hc2).
    rewrite (run_edge _ _ _ _ _ _ _ _ H3 Hy eq_refl Hcs).
    change (run_actions act [] ?p ?q ?s) with s.
    rewrite (run_pct cs c1 c2 ok) by done. f_equal. simpl. lia.
  - apply andb_true_iff in Hl as [Hb Hl]. destruct Hfirst as [?|Hb1]; [done|].
    rewrite (run_edge _ _ _ _ _ _ _ _ Hf Hb1 Hbr Hcs).
    rewrite (run_pct cs c1 c2 ok) by done. f_equal. simpl. lia.
Qed.

(** The same for sets of states: from any state of [ns] a character of the
    class leads, with these actions, into [ms]. *)
Definition mem (k : Z) (l : list Z) : bool := existsb (Z.eqb k) l.

Lemma mem_elem k l : mem k l = true <-> k ∈ l.
Proof.
  unfold mem. rewrite existsb_exists, list_elem_of_In. split; [intros (x & H & <-%Z.eqb_eq); done|].
  exists k. by rewrite Z.eqb_refl.
Qed.

Definition edges (ns : list Z) (ok : Z -> bool) (acts : list A) (ms : list Z) : bool :=
  forallb (fun n => forallb (fun c => implb (ok c)
    match next n c with
    | Some (al, k) => bool_decide (al = acts) && mem k ms && negb (k =? 0)
    | None => false
    end) chars) ns.

Lemma run_edges ns ok acts ms n b rest p s :
  edges ns ok acts ms = true -> n ∈ ns -> ok (wraps 8 b) = true -> break_of breaks acts = None ->
  exists k, k ∈ ms /\ run n p (b :: rest) s =
    run k (Datatypes.S p) rest (run_actions act acts p (p + Datatypes.S (length rest)) s).
Proof.
  intros Hl Hn Hb Hbr. unfold edges in Hl. rewrite forallb_forall in Hl.
  specialize (Hl _ (proj1 (list_elem_of_In _ _) Hn)). rewrite forallb_forall in Hl.
  specialize (Hl _ (proj1 (list_elem_of_In _ _) (wraps8_chars b))). rewrite Hb in Hl. simpl in Hl.
  destruct (next n (wraps 8 b)) as [[al k]|] eqn:E; [|done].
  apply andb_true_iff in Hl as [[Ha HP]%andb_true_iff Hk].
  apply bool_decide_eq_true in Ha as ->. apply negb_true_iff in Hk. apply mem_elem in HP.
  exists k. split; [done|]. simpl. by rewrite E, Hbr, Hk.
Qed.

Lemma run_edges_loop ns ok l n rest p s :
  edges ns ok [] ns = true -> n ∈ ns -> forallb (fun b => ok (wraps 8 b)) l = true ->
  exists k, k ∈ ns /\ run n p (l ++ rest) s = run k (p + length l) rest s.
Proof.
  intros He. revert n p. induction l as [|b l IH]; intros n p Hn Hl.
  { exists n. by rewrite Nat.add_0_r. }
  simpl in Hl. apply andb_true_iff in Hl as [Hb Hl]. cbn [app].
  destruct (run_edges ns ok [] ns n b (l ++ rest) p s He Hn Hb eq_refl) as (k & Hk & ->).
  destruct (IH k (Datatypes.S p) Hk Hl) as (k2 & Hk2 & E). exists k2. split; [done|].
  change (run_actions act [] ?x ?y s) with s. rewrite E. f_equal. simpl. lia.
Qed.
End follow.
