(* ===== verification/Http11Code.v ===== *)
(** * The code of the request machine: [sylar/http/http11_parser.rl.cc]

    The labels of [http_parser_execute] in the order of the source, in pieces
    named after the line they start at.  [http11_parser.cc] is the same code
    with other [#line] directives. *)

From stdpp Require Import base list.
From Stdlib Require Import ZArith.
From S2P Require Import Prelude Ragel.

Local Open Scope Z_scope.

(** The actions of the grammar.  [a_done] ends with [fbreak], into the state
    it names. *)
Inductive action :=
  | a_mark | a_start_field | a_write_field | a_write_value
  | a_request_method | a_request_uri | a_fragment | a_start_query | a_query_string
  | a_http_version | a_request_path | a_xml | a_json | a_done (cs : Z).

#[export] Instance action_eq_dec : EqDecision action.
Proof. solve_decision. Defined.

Definition http_parser_117 : list (block action) := [
  Case 1 (fun r c => switch c [(60, tr 2); (64, tr 3)]
      (if 57 <? c then (if within 65 90 c then tr 0 else st 0) else (if 48 <=? c then tr 0 else st 0)));
  Tr 0 [a_mark] 2;
  Case 2 (fun r c => if c =? 32 then tr 4 else (if 57 <? c then (if within 65 90 c then st 175 else st 0)
        else (if 48 <=? c then st 175 else st 0)));
  Tr 4 [a_request_method] 3;
  Case 3 (fun r c => let w := if c <? 123 then (if within 94 94 c then widec r c else c) else (if 123 <? c
        then (if within 125 125 c then widec r c else c) else widec r c) in
      switch w [(32, tr 6); (33, tr 7); (35, tr 8); (37, tr 9); (47, tr 10); (59, tr 7); (61, tr 7); (63,
        tr 11); (64, tr 7); (95, tr 7); (126, tr 7); (606, tr 7); (635, tr 7); (637, tr 7)]
      (if w <? 65 then (if within 36 57 w then tr 7 else st 0) else (if 90 <? w then (if within 97 122 w then
        tr 12 else st 0) else tr 12)));
  Tr 6 [a_mark; a_request_path; a_request_uri] 4;
  Tr 37 [a_request_path; a_request_uri] 4;
  Tr 44 [a_mark; a_fragment] 4;
  Tr 47 [a_fragment] 4
].

Definition http_parser_248 : list (block action) := [
  Tr 54 [a_start_query; a_query_string; a_request_uri] 4;
  Tr 58 [a_query_string; a_request_uri] 4;
  Case 4 (fun r c => if c =? 72 then tr 13 else st 0);
  Tr 13 [a_mark] 5;
  Case 5 (fun r c => if c =? 84 then st 6 else st 0);
  Case 6 (fun r c => if c =? 84 then st 7 else st 0);
  Case 7 (fun r c => if c =? 80 then st 8 else st 0);
  Case 8 (fun r c => if c =? 47 then st 9 else st 0);
  Case 9 (fun r c => if c =? 49 then st 10 else st 0);
  Case 10 (fun r c => if c =? 46 then st 11 else st 0);
  Case 11 (fun r c => if within 48 49 c then st 12 else st 0);
  Case 12 (fun r c => switch c [(10, tr 21); (13, tr 22)]
      (st 0));
  Tr 21 [a_http_version] 13;
  Tr 30 [a_mark; a_write_value] 13;
  Tr 33 [a_write_value] 13
].

Definition http_parser_370 : list (block action) := [
  Case 13 (fun r c => switch c [(10, tr 24); (13, tr 25); (33, tr 23); (124, tr 23); (126, tr 23)]
      (if c <? 42 then (if c <? 11 then (if within 1 8 c then tr 23 else st 0) else (if 31 <? c then (if
        within 35 39 c then tr 23 else st 0) else tr 23)) else (if 43 <? c then (if c <? 48 then (if within
        45 46 c then tr 23 else st 0) else (if 57 <? c then (if 90 <? c then (if within 94 122 c then tr 23
        else st 0) else (if 65 <=? c then tr 23 else st 0)) else tr 23)) else tr 23)));
  Tr 23 [a_start_field] 14;
  Case 14 (fun r c => switch c [(33, st 14); (58, tr 27); (124, st 14); (126, st 14)]
      (if c <? 42 then (if c <? 10 then (if within 1 8 c then st 14 else st 0) else (if 31 <? c then (if
        within 35 39 c then st 14 else st 0) else st 14)) else (if 43 <? c then (if c <? 48 then (if within
        45 46 c then st 14 else st 0) else (if 57 <? c then (if 90 <? c then (if within 94 122 c then st 14
        else st 0) else (if 65 <=? c then st 14 else st 0)) else st 14)) else st 14)));
  Tr 27 [a_write_field] 15;
  Tr 29 [a_mark] 15;
  Case 15 (fun r c => switch c [(0, st 0); (9, tr 29); (10, tr 30); (13, tr 31); (32, tr 29); (127, st 0)]
      (tr 28));
  Tr 28 [a_mark] 16;
  Case 16 (fun r c => switch c [(0, st 0); (10, tr 33); (13, tr 34); (127, st 0)]
      (st 16));
  Tr 22 [a_http_version] 17;
  Tr 31 [a_mark; a_write_value] 17;
  Tr 34 [a_write_value] 17
].

Definition http_parser_510 : list (block action) := [
  Case 17 (fun r c => if c =? 10 then st 13 else st 0);
  Tr 24 [a_start_field; a_done 348] 348;
  Tr 36 [a_done 348] 348;
  Case 348 (fun r c => switch c [(33, st 14); (58, tr 27); (124, st 14); (126, st 14)]
      (if c <? 42 then (if c <? 10 then (if within 1 8 c then st 14 else st 0) else (if 31 <? c then (if
        within 35 39 c then st 14 else st 0) else st 14)) else (if 43 <? c then (if c <? 48 then (if within
        45 46 c then st 14 else st 0) else (if 57 <? c then (if 90 <? c then (if within 94 122 c then st 14
        else st 0) else (if 65 <=? c then st 14 else st 0)) else st 14)) else st 14)));
  Tr 25 [a_start_field] 18;
  Case 18 (fun r c => switch c [(10, tr 36); (33, st 14); (58, tr 27); (124, st 14); (126, st 14)]
      (if c <? 42 then (if c <? 11 then (if within 1 8 c then st 14 else st 0) else (if 31 <? c then (if
        within 35 39 c then st 14 else st 0) else st 14)) else (if 43 <? c then (if c <? 48 then (if within
        45 46 c then st 14 else st 0) else (if 57 <? c then (if 90 <? c then (if within 94 122 c then st 14
        else st 0) else (if 65 <=? c then st 14 else st 0)) else st 14)) else st 14)));
  Tr 7 [a_mark] 19
].

Definition http_parser_633 : list (block action) := [
  Case 19 (fun r c => let w := if c <? 123 then (if within 94 94 c then widec r c else c) else (if 123 <? c
        then (if within 125 125 c then widec r c else c) else widec r c) in
      switch w [(32, tr 37); (33, st 19); (35, tr 39); (37, st 24); (47, st 26); (59, st 19); (61, st 19);
        (63, tr 42); (95, st 19); (126, st 19); (606, st 19); (635, st 19); (637, st 19)]
      (if w <? 64 then (if within 36 57 w then st 19 else st 0) else (if 90 <? w then (if within 97 122 w
        then st 19 else st 0) else st 19)));
  Tr 8 [a_mark; a_request_path; a_request_uri] 20;
  Tr 39 [a_request_path; a_request_uri] 20;
  Tr 55 [a_start_query; a_query_string; a_request_uri] 20;
  Tr 59 [a_query_string; a_request_uri] 20
].

Definition http_parser_735 : list (block action) := [
  Case 20 (fun r c => let w := if c <? 123 then (if within 94 94 c then widec r c else c) else (if 123 <? c
        then (if within 125 125 c then widec r c else c) else widec r c) in
      switch w [(32, tr 44); (33, tr 43); (37, tr 45); (61, tr 43); (95, tr 43); (126, tr 43); (606, tr 43);
        (635, tr 43); (637, tr 43)]
      (if w <? 36 then (if w <=? (-1) then tr 43 else st 0) else (if 59 <? w then (if 90 <? w then (if within
        97 122 w then tr 43 else st 0) else (if 63 <=? w then tr 43 else st 0)) else tr 43)));
  Tr 43 [a_mark] 21;
  Case 21 (fun r c => let w := if c <? 123 then (if within 94 94 c then widec r c else c) else (if 123 <? c
        then (if within 125 125 c then widec r c else c) else widec r c) in
      switch w [(32, tr 47); (33, st 21); (37, st 22); (61, st 21); (95, st 21); (126, st 21); (606, st 21);
        (635, st 21); (637, st 21)]
      (if w <? 36 then (if w <=? (-1) then st 21 else st 0) else (if 59 <? w then (if 90 <? w then (if within
        97 122 w then st 21 else st 0) else (if 63 <=? w then st 21 else st 0)) else st 21)));
  Tr 45 [a_mark] 22;
  Case 22 (fun r c => if c <? 65 then (if within 48 57 c then st 23 else st 0) else (if 70 <? c then (if
        within 97 102 c then st 23 else st 0) else st 23));
  Case 23 (fun r c => if c <? 65 then (if within 48 57 c then st 21 else st 0) else (if 70 <? c then (if
        within 97 102 c then st 21 else st 0) else st 21));
  Tr 9 [a_mark] 24
].

Definition http_parser_872 : list (block action) := [
  Case 24 (fun r c => if c <? 65 then (if within 48 57 c then st 25 else st 0) else (if 70 <? c then (if
        within 97 102 c then st 25 else st 0) else st 25));
  Case 25 (fun r c => if c <? 65 then (if within 48 57 c then st 19 else st 0) else (if 70 <? c then (if
        within 97 102 c then st 19 else st 0) else st 19));
  Tr 203 [a_mark] 26;
  Case 26 (fun r c => let w := if c <? 123 then (if within 94 94 c then widec r c else c) else (if 123 <? c
        then (if within 125 125 c then widec r c else c) else widec r c) in
      switch w [(32, tr 37); (33, st 26); (35, tr 39); (37, st 27); (61, st 26); (63, tr 42); (95, st 26);
        (126, st 26); (606, st 26); (635, st 26); (637, st 26)]
      (if w <? 36 then (if w <=? (-1) then st 26 else st 0) else (if 59 <? w then (if 90 <? w then (if within
        97 122 w then st 26 else st 0) else (if 64 <=? w then st 26 else st 0)) else st 26)));
  Tr 204 [a_mark] 27;
  Case 27 (fun r c => if c <? 65 then (if within 48 57 c then st 28 else st 0) else (if 70 <? c then (if
        within 97 102 c then st 28 else st 0) else st 28));
  Case 28 (fun r c => if c <? 65 then (if within 48 57 c then st 26 else st 0) else (if 70 <? c then (if
        within 97 102 c then st 26 else st 0) else st 26));
  Tr 11 [a_mark; a_request_path] 29;
  Tr 42 [a_request_path] 29
].

Definition http_parser_1001 : list (block action) := [
  Case 29 (fun r c => let w := if c <? 123 then (if within 94 94 c then widec r c else c) else (if 123 <? c
        then (if within 125 125 c then widec r c else c) else widec r c) in
      switch w [(32, tr 54); (33, tr 53); (35, tr 55); (37, tr 56); (61, tr 53); (95, tr 53); (126, tr 53);
        (606, tr 53); (635, tr 53); (637, tr 53)]
      (if w <? 36 then (if w <=? (-1) then tr 53 else st 0) else (if 59 <? w then (if 90 <? w then (if within
        97 122 w then tr 53 else st 0) else (if 63 <=? w then tr 53 else st 0)) else tr 53)));
  Tr 53 [a_start_query] 30;
  Case 30 (fun r c => let w := if c <? 123 then (if within 94 94 c then widec r c else c) else (if 123 <? c
        then (if within 125 125 c then widec r c else c) else widec r c) in
      switch w [(32, tr 58); (33, st 30); (35, tr 59); (37, st 31); (61, st 30); (95, st 30); (126, st 30);
        (606, st 30); (635, st 30); (637, st 30)]
      (if w <? 36 then (if w <=? (-1) then st 30 else st 0) else (if 59 <? w then (if 90 <? w then (if within
        97 122 w then st 30 else st 0) else (if 63 <=? w then st 30 else st 0)) else st 30)));
  Tr 56 [a_start_query] 31;
  Case 31 (fun r c => if c <? 65 then (if within 48 57 c then st 32 else st 0) else (if 70 <? c then (if
        within 97 102 c then st 32 else st 0) else st 32));
  Case 32 (fun r c => if c <? 65 then (if within 48 57 c then st 30 else st 0) else (if 70 <? c then (if
        within 97 102 c then st 30 else st 0) else st 30));
  Tr 10 [a_mark] 33
].

Definition http_parser_1140 : list (block action) := [
  Case 33 (fun r c => let w := if c <? 123 then (if within 94 94 c then widec r c else c) else (if 123 <? c
        then (if within 125 125 c then widec r c else c) else widec r c) in
      switch w [(32, tr 37); (33, st 26); (35, tr 39); (37, st 27); (47, st 34); (61, st 26); (63, tr 42);
        (95, st 26); (126, st 26); (606, st 26); (635, st 26); (637, st 26)]
      (if w <? 36 then (if w <=? (-1) then st 26 else st 0) else (if 59 <? w then (if 90 <? w then (if within
        97 122 w then st 26 else st 0) else (if 64 <=? w then st 26 else st 0)) else st 26)));
  Case 34 (fun r c => let w := if c <? 123 then (if within 94 94 c then widec r c else c) else (if 123 <? c
        then (if within 125 125 c then widec r c else c) else widec r c) in
      switch w [(32, tr 37); (33, st 35); (35, tr 39); (37, st 36); (47, st 26); (58, st 38); (61, st 35);
        (63, tr 42); (64, st 42); (91, st 47); (95, st 35); (126, st 35); (606, st 35); (635, st 35); (637,
        st 35)]
      (if w <? 65 then (if within 36 59 w then st 35 else st 0) else (if 90 <? w then (if within 97 122 w
        then st 35 else st 0) else st 35)))
].

Definition http_parser_1243 : list (block action) := [
  Case 35 (fun r c => let w := if c <? 123 then (if within 94 94 c then widec r c else c) else (if 123 <? c
        then (if within 125 125 c then widec r c else c) else widec r c) in
      switch w [(32, tr 37); (33, st 35); (35, tr 39); (37, st 36); (47, st 26); (58, st 38); (61, st 35);
        (63, tr 42); (64, st 42); (95, st 35); (126, st 35); (606, st 35); (635, st 35); (637, st 35)]
      (if w <? 65 then (if within 36 59 w then st 35 else st 0) else (if 90 <? w then (if within 97 122 w
        then st 35 else st 0) else st 35)));
  Case 36 (fun r c => if c <? 65 then (if within 48 57 c then st 37 else st 0) else (if 70 <? c then (if
        within 97 102 c then st 37 else st 0) else st 37));
  Case 37 (fun r c => if c <? 65 then (if within 48 57 c then st 35 else st 0) else (if 70 <? c then (if
        within 97 102 c then st 35 else st 0) else st 35));
  Case 38 (fun r c => let w := if c <? 123 then (if within 94 94 c then widec r c else c) else (if 123 <? c
        then (if within 125 125 c then widec r c else c) else widec r c) in
      switch w [(32, tr 37); (33, st 39); (35, tr 39); (37, st 40); (47, st 26); (61, st 39); (63, tr 42);
        (64, st 42); (95, st 39); (126, st 39); (606, st 39); (635, st 39); (637, st 39)]
      (if w <? 58 then (if 46 <? w then (if within 48 57 w then st 38 else st 0) else (if 36 <=? w then st 39
        else st 0)) else (if 59 <? w then (if 90 <? w then (if within 97 122 w then st 39 else st 0) else (if
        65 <=? w then st 39 else st 0)) else st 39)))
].

Definition http_parser_1374 : list (block action) := [
  Case 39 (fun r c => let w := if c <? 123 then (if within 94 94 c then widec r c else c) else (if 123 <? c
        then (if within 125 125 c then widec r c else c) else widec r c) in
      switch w [(33, st 39); (37, st 40); (61, st 39); (64, st 42); (95, st 39); (126, st 39); (606, st 39);
        (635, st 39); (637, st 39)]
      (if w <? 48 then (if within 36 46 w then st 39 else st 0) else (if 59 <? w then (if 90 <? w then (if
        within 97 122 w then st 39 else st 0) else (if 65 <=? w then st 39 else st 0)) else st 39)));
  Case 40 (fun r c => if c <? 65 then (if within 48 57 c then st 41 else st 0) else (if 70 <? c then (if
        within 97 102 c then st 41 else st 0) else st 41));
  Case 41 (fun r c => if c <? 65 then (if within 48 57 c then st 39 else st 0) else (if 70 <? c then (if
        within 97 102 c then st 39 else st 0) else st 39));
  Case 42 (fun r c => let w := if c <? 123 then (if within 94 94 c then widec r c else c) else (if 123 <? c
        then (if within 125 125 c then widec r c else c) else widec r c) in
      switch w [(32, tr 37); (33, st 43); (35, tr 39); (37, st 44); (47, st 26); (58, st 46); (61, st 43);
        (63, tr 42); (91, st 47); (95, st 43); (126, st 43); (606, st 43); (635, st 43); (637, st 43)]
      (if w <? 65 then (if within 36 59 w then st 43 else st 0) else (if 90 <? w then (if within 97 122 w
        then st 43 else st 0) else st 43)))
].

Definition http_parser_1498 : list (block action) := [
  Case 43 (fun r c => let w := if c <? 123 then (if within 94 94 c then widec r c else c) else (if 123 <? c
        then (if within 125 125 c then widec r c else c) else widec r c) in
      switch w [(32, tr 37); (33, st 43); (35, tr 39); (37, st 44); (47, st 26); (58, st 46); (61, st 43);
        (63, tr 42); (95, st 43); (126, st 43); (606, st 43); (635, st 43); (637, st 43)]
      (if w <? 65 then (if within 36 59 w then st 43 else st 0) else (if 90 <? w then (if within 97 122 w
        then st 43 else st 0) else st 43)));
  Case 44 (fun r c => if c <? 65 then (if within 48 57 c then st 45 else st 0) else (if 70 <? c then (if
        within 97 102 c then st 45 else st 0) else st 45));
  Case 45 (fun r c => if c <? 65 then (if within 48 57 c then st 43 else st 0) else (if 70 <? c then (if
        within 97 102 c then st 43 else st 0) else st 43));
  Case 46 (fun r c => switch c [(32, tr 37); (35, tr 39); (47, st 26); (63, tr 42)]
      (if within 48 57 c then st 46 else st 0));
  Case 47 (fun r c => switch c [(6, st 48); (58, st 167); (118, st 169)]
      (if c <? 65 then (if within 48 57 c then st 91 else st 0) else (if 70 <? c then (if within 97 102 c
        then st 91 else st 0) else st 91)));
  Case 48 (fun r c => if c <? 65 then (if within 48 57 c then st 49 else st 0) else (if 70 <? c then (if
        within 97 102 c then st 49 else st 0) else st 49));
  Case 49 (fun r c => if c =? 58 then st 53 else (if c <? 65 then (if within 48 57 c then st 50 else st 0)
        else (if 70 <? c then (if within 97 102 c then st 50 else st 0) else st 50)))
].

Definition http_parser_1632 : list (block action) := [
  Case 50 (fun r c => if c =? 58 then st 53 else (if c <? 65 then (if within 48 57 c then st 51 else st 0)
        else (if 70 <? c then (if within 97 102 c then st 51 else st 0) else st 51)));
  Case 51 (fun r c => if c =? 58 then st 53 else (if c <? 65 then (if within 48 57 c then st 52 else st 0)
        else (if 70 <? c then (if within 97 102 c then st 52 else st 0) else st 52)));
  Case 52 (fun r c => if c =? 58 then st 53 else st 0);
  Case 53 (fun r c => switch c [(49, st 84); (50, st 87)]
      (if c <? 65 then (if within 48 57 c then st 54 else st 0) else (if 70 <? c then (if within 97 102 c
        then st 90 else st 0) else st 90)));
  Case 54 (fun r c => switch c [(46, st 55); (58, st 80)]
      (if c <? 65 then (if within 48 57 c then st 77 else st 0) else (if 70 <? c then (if within 97 102 c
        then st 77 else st 0) else st 77)));
  Case 55 (fun r c => switch c [(49, st 72); (50, st 74)]
      (if within 48 57 c then st 56 else st 0));
  Case 56 (fun r c => if c =? 46 then st 57 else st 0);
  Case 57 (fun r c => switch c [(49, st 67); (50, st 69)]
      (if within 48 57 c then st 58 else st 0));
  Case 58 (fun r c => if c =? 46 then st 59 else st 0);
  Case 59 (fun r c => switch c [(49, st 62); (50, st 64)]
      (if within 48 57 c then st 60 else st 0));
  Case 60 (fun r c => if c =? 93 then st 61 else st 0);
  Case 61 (fun r c => switch c [(32, tr 37); (35, tr 39); (47, st 26); (58, st 46); (63, tr 42)]
      (st 0))
].

Definition http_parser_1769 : list (block action) := [
  Case 62 (fun r c => if c =? 93 then st 61 else (if within 48 57 c then st 63 else st 0));
  Case 63 (fun r c => if c =? 93 then st 61 else (if within 48 57 c then st 60 else st 0));
  Case 64 (fun r c => switch c [(48, st 65); (53, st 66); (93, st 61)]
      (st 0));
  Case 65 (fun r c => if within 48 57 c then st 60 else st 0);
  Case 66 (fun r c => if c =? 48 then st 60 else st 0);
  Case 67 (fun r c => if c =? 46 then st 59 else (if within 48 57 c then st 68 else st 0));
  Case 68 (fun r c => if c =? 46 then st 59 else (if within 48 57 c then st 58 else st 0));
  Case 69 (fun r c => switch c [(46, st 59); (48, st 70); (53, st 71)]
      (st 0));
  Case 70 (fun r c => if within 48 57 c then st 58 else st 0);
  Case 71 (fun r c => if c =? 48 then st 58 else st 0);
  Case 72 (fun r c => if c =? 46 then st 57 else (if within 48 57 c then st 73 else st 0));
  Case 73 (fun r c => if c =? 46 then st 57 else (if within 48 57 c then st 56 else st 0));
  Case 74 (fun r c => switch c [(46, st 57); (48, st 75); (53, st 76)]
      (st 0));
  Case 75 (fun r c => if within 48 57 c then st 56 else st 0);
  Case 76 (fun r c => if c =? 48 then st 56 else st 0)
].

Definition http_parser_1895 : list (block action) := [
  Case 77 (fun r c => if c =? 58 then st 80 else (if c <? 65 then (if within 48 57 c then st 78 else st 0)
        else (if 70 <? c then (if within 97 102 c then st 78 else st 0) else st 78)));
  Case 78 (fun r c => if c =? 58 then st 80 else (if c <? 65 then (if within 48 57 c then st 79 else st 0)
        else (if 70 <? c then (if within 97 102 c then st 79 else st 0) else st 79)));
  Case 79 (fun r c => if c =? 58 then st 80 else st 0);
  Case 80 (fun r c => if c <? 65 then (if within 48 57 c then st 81 else st 0) else (if 70 <? c then (if
        within 97 102 c then st 81 else st 0) else st 81));
  Case 81 (fun r c => if c =? 93 then st 61 else (if c <? 65 then (if within 48 57 c then st 82 else st 0)
        else (if 70 <? c then (if within 97 102 c then st 82 else st 0) else st 82)));
  Case 82 (fun r c => if c =? 93 then st 61 else (if c <? 65 then (if within 48 57 c then st 83 else st 0)
        else (if 70 <? c then (if within 97 102 c then st 83 else st 0) else st 83)));
  Case 83 (fun r c => if c =? 93 then st 61 else (if c <? 65 then (if within 48 57 c then st 60 else st 0)
        else (if 70 <? c then (if within 97 102 c then st 60 else st 0) else st 60)));
  Case 84 (fun r c => switch c [(46, st 55); (58, st 80)]
      (if c <? 65 then (if within 48 57 c then st 85 else st 0) else (if 70 <? c then (if within 97 102 c
        then st 77 else st 0) else st 77)));
  Case 85 (fun r c => switch c [(46, st 55); (58, st 80)]
      (if c <? 65 then (if within 48 57 c then st 86 else st 0) else (if 70 <? c then (if within 97 102 c
        then st 78 else st 0) else st 78)))
].

Definition http_parser_2024 : list (block action) := [
  Case 86 (fun r c => switch c [(46, st 55); (58, st 80)]
      (if c <? 65 then (if within 48 57 c then st 79 else st 0) else (if 70 <? c then (if within 97 102 c
        then st 79 else st 0) else st 79)));
  Case 87 (fun r c => switch c [(46, st 55); (48, st 88); (53, st 89); (58, st 80)]
      (if c <? 65 then (if within 49 57 c then st 77 else st 0) else (if 70 <? c then (if within 97 102 c
        then st 77 else st 0) else st 77)));
  Case 88 (fun r c => if c =? 58 then st 80 else (if c <? 65 then (if within 48 57 c then st 86 else st 0)
        else (if 70 <? c then (if within 97 102 c then st 78 else st 0) else st 78)));
  Case 89 (fun r c => switch c [(48, st 86); (58, st 80)]
      (if c <? 65 then (if within 49 57 c then st 78 else st 0) else (if 70 <? c then (if within 97 102 c
        then st 78 else st 0) else st 78)));
  Case 90 (fun r c => if c =? 58 then st 80 else (if c <? 65 then (if within 48 57 c then st 77 else st 0)
        else (if 70 <? c then (if within 97 102 c then st 77 else st 0) else st 77)));
  Case 91 (fun r c => if c =? 58 then st 95 else (if c <? 65 then (if within 48 57 c then st 92 else st 0)
        else (if 70 <? c then (if within 97 102 c then st 92 else st 0) else st 92)));
  Case 92 (fun r c => if c =? 58 then st 95 else (if c <? 65 then (if within 48 57 c then st 93 else st 0)
        else (if 70 <? c then (if within 97 102 c then st 93 else st 0) else st 93)));
  Case 93 (fun r c => if c =? 58 then st 95 else (if c <? 65 then (if within 48 57 c then st 94 else st 0)
        else (if 70 <? c then (if within 97 102 c then st 94 else st 0) else st 94)));
  Case 94 (fun r c => if c =? 58 then st 95 else st 0)
].

Definition http_parser_2159 : list (block action) := [
  Case 95 (fun r c => if c =? 58 then st 166 else (if c <? 65 then (if within 48 57 c then st 96 else st 0)
        else (if 70 <? c then (if within 97 102 c then st 96 else st 0) else st 96)));
  Case 96 (fun r c => if c =? 58 then st 100 else (if c <? 65 then (if within 48 57 c then st 97 else st 0)
        else (if 70 <? c then (if within 97 102 c then st 97 else st 0) else st 97)));
  Case 97 (fun r c => if c =? 58 then st 100 else (if c <? 65 then (if within 48 57 c then st 98 else st 0)
        else (if 70 <? c then (if within 97 102 c then st 98 else st 0) else st 98)));
  Case 98 (fun r c => if c =? 58 then st 100 else (if c <? 65 then (if within 48 57 c then st 99 else st 0)
        else (if 70 <? c then (if within 97 102 c then st 99 else st 0) else st 99)));
  Case 99 (fun r c => if c =? 58 then st 100 else st 0);
  Case 100 (fun r c => if c =? 58 then st 165 else (if c <? 65 then (if within 48 57 c then st 101 else st 0)
        else (if 70 <? c then (if within 97 102 c then st 101 else st 0) else st 101)));
  Case 101 (fun r c => if c =? 58 then st 105 else (if c <? 65 then (if within 48 57 c then st 102 else st 0)
        else (if 70 <? c then (if within 97 102 c then st 102 else st 0) else st 102)));
  Case 102 (fun r c => if c =? 58 then st 105 else (if c <? 65 then (if within 48 57 c then st 103 else st 0)
        else (if 70 <? c then (if within 97 102 c then st 103 else st 0) else st 103)));
  Case 103 (fun r c => if c =? 58 then st 105 else (if c <? 65 then (if within 48 57 c then st 104 else st 0)
        else (if 70 <? c then (if within 97 102 c then st 104 else st 0) else st 104)));
  Case 104 (fun r c => if c =? 58 then st 105 else st 0)
].

Definition http_parser_2293 : list (block action) := [
  Case 105 (fun r c => if c =? 58 then st 164 else (if c <? 65 then (if within 48 57 c then st 106 else st 0)
        else (if 70 <? c then (if within 97 102 c then st 106 else st 0) else st 106)));
  Case 106 (fun r c => if c =? 58 then st 110 else (if c <? 65 then (if within 48 57 c then st 107 else st 0)
        else (if 70 <? c then (if within 97 102 c then st 107 else st 0) else st 107)));
  Case 107 (fun r c => if c =? 58 then st 110 else (if c <? 65 then (if within 48 57 c then st 108 else st 0)
        else (if 70 <? c then (if within 97 102 c then st 108 else st 0) else st 108)));
  Case 108 (fun r c => if c =? 58 then st 110 else (if c <? 65 then (if within 48 57 c then st 109 else st 0)
        else (if 70 <? c then (if within 97 102 c then st 109 else st 0) else st 109)));
  Case 109 (fun r c => if c =? 58 then st 110 else st 0);
  Case 110 (fun r c => if c =? 58 then st 163 else (if c <? 65 then (if within 48 57 c then st 111 else st 0)
        else (if 70 <? c then (if within 97 102 c then st 111 else st 0) else st 111)));
  Case 111 (fun r c => if c =? 58 then st 115 else (if c <? 65 then (if within 48 57 c then st 112 else st 0)
        else (if 70 <? c then (if within 97 102 c then st 112 else st 0) else st 112)));
  Case 112 (fun r c => if c =? 58 then st 115 else (if c <? 65 then (if within 48 57 c then st 113 else st 0)
        else (if 70 <? c then (if within 97 102 c then st 113 else st 0) else st 113)));
  Case 113 (fun r c => if c =? 58 then st 115 else (if c <? 65 then (if within 48 57 c then st 114 else st 0)
        else (if 70 <? c then (if within 97 102 c then st 114 else st 0) else st 114)));
  Case 114 (fun r c => if c =? 58 then st 115 else st 0)
].

Definition http_parser_2427 : list (block action) := [
  Case 115 (fun r c => if c =? 58 then st 151 else (if c <? 65 then (if within 48 57 c then st 116 else st 0)
        else (if 70 <? c then (if within 97 102 c then st 116 else st 0) else st 116)));
  Case 116 (fun r c => if c =? 58 then st 120 else (if c <? 65 then (if within 48 57 c then st 117 else st 0)
        else (if 70 <? c then (if within 97 102 c then st 117 else st 0) else st 117)));
  Case 117 (fun r c => if c =? 58 then st 120 else (if c <? 65 then (if within 48 57 c then st 118 else st 0)
        else (if 70 <? c then (if within 97 102 c then st 118 else st 0) else st 118)));
  Case 118 (fun r c => if c =? 58 then st 120 else (if c <? 65 then (if within 48 57 c then st 119 else st 0)
        else (if 70 <? c then (if within 97 102 c then st 119 else st 0) else st 119)));
  Case 119 (fun r c => if c =? 58 then st 120 else st 0);
  Case 120 (fun r c => if c =? 58 then st 150 else (if c <? 65 then (if within 48 57 c then st 121 else st 0)
        else (if 70 <? c then (if within 97 102 c then st 121 else st 0) else st 121)));
  Case 121 (fun r c => if c =? 58 then st 125 else (if c <? 65 then (if within 48 57 c then st 122 else st 0)
        else (if 70 <? c then (if within 97 102 c then st 122 else st 0) else st 122)));
  Case 122 (fun r c => if c =? 58 then st 125 else (if c <? 65 then (if within 48 57 c then st 123 else st 0)
        else (if 70 <? c then (if within 97 102 c then st 123 else st 0) else st 123)));
  Case 123 (fun r c => if c =? 58 then st 125 else (if c <? 65 then (if within 48 57 c then st 124 else st 0)
        else (if 70 <? c then (if within 97 102 c then st 124 else st 0) else st 124)));
  Case 124 (fun r c => if c =? 58 then st 125 else st 0)
].

Definition http_parser_2561 : list (block action) := [
  Case 125 (fun r c => if c =? 58 then st 126 else (if c <? 65 then (if within 48 57 c then st 121 else st 0)
        else (if 70 <? c then (if within 97 102 c then st 121 else st 0) else st 121)));
  Case 126 (fun r c => switch c [(49, st 143); (50, st 146); (93, st 61)]
      (if c <? 48 then (if within 2 3 c then st 48 else st 0) else (if 57 <? c then (if 70 <? c then (if
        within 97 102 c then st 149 else st 0) else (if 65 <=? c then st 149 else st 0)) else st 127)));
  Case 127 (fun r c => switch c [(46, st 55); (58, st 131); (93, st 61)]
      (if c <? 65 then (if within 48 57 c then st 128 else st 0) else (if 70 <? c then (if within 97 102 c
        then st 128 else st 0) else st 128)));
  Case 128 (fun r c => switch c [(58, st 131); (93, st 61)]
      (if c <? 65 then (if within 48 57 c then st 129 else st 0) else (if 70 <? c then (if within 97 102 c
        then st 129 else st 0) else st 129)));
  Case 129 (fun r c => switch c [(58, st 131); (93, st 61)]
      (if c <? 65 then (if within 48 57 c then st 130 else st 0) else (if 70 <? c then (if within 97 102 c
        then st 130 else st 0) else st 130)));
  Case 130 (fun r c => switch c [(58, st 131); (93, st 61)]
      (st 0));
  Case 131 (fun r c => switch c [(49, st 136); (50, st 139)]
      (if c <? 65 then (if within 48 57 c then st 132 else st 0) else (if 70 <? c then (if within 97 102 c
        then st 142 else st 0) else st 142)));
  Case 132 (fun r c => switch c [(46, st 55); (58, st 80); (93, st 61)]
      (if c <? 65 then (if within 48 57 c then st 133 else st 0) else (if 70 <? c then (if within 97 102 c
        then st 133 else st 0) else st 133)))
].

Definition http_parser_2693 : list (block action) := [
  Case 133 (fun r c => switch c [(58, st 80); (93, st 61)]
      (if c <? 65 then (if within 48 57 c then st 134 else st 0) else (if 70 <? c then (if within 97 102 c
        then st 134 else st 0) else st 134)));
  Case 134 (fun r c => switch c [(58, st 80); (93, st 61)]
      (if c <? 65 then (if within 48 57 c then st 135 else st 0) else (if 70 <? c then (if within 97 102 c
        then st 135 else st 0) else st 135)));
  Case 135 (fun r c => switch c [(58, st 80); (93, st 61)]
      (st 0));
  Case 136 (fun r c => switch c [(46, st 55); (58, st 80); (93, st 61)]
      (if c <? 65 then (if within 48 57 c then st 137 else st 0) else (if 70 <? c then (if within 97 102 c
        then st 133 else st 0) else st 133)));
  Case 137 (fun r c => switch c [(46, st 55); (58, st 80); (93, st 61)]
      (if c <? 65 then (if within 48 57 c then st 138 else st 0) else (if 70 <? c then (if within 97 102 c
        then st 134 else st 0) else st 134)));
  Case 138 (fun r c => switch c [(46, st 55); (58, st 80); (93, st 61)]
      (if c <? 65 then (if within 48 57 c then st 135 else st 0) else (if 70 <? c then (if within 97 102 c
        then st 135 else st 0) else st 135)));
  Case 139 (fun r c => switch c [(46, st 55); (48, st 140); (53, st 141); (58, st 80); (93, st 61)]
      (if c <? 65 then (if within 49 57 c then st 133 else st 0) else (if 70 <? c then (if within 97 102 c
        then st 133 else st 0) else st 133)));
  Case 140 (fun r c => switch c [(58, st 80); (93, st 61)]
      (if c <? 65 then (if within 48 57 c then st 138 else st 0) else (if 70 <? c then (if within 97 102 c
        then st 134 else st 0) else st 134)))
].

Definition http_parser_2827 : list (block action) := [
  Case 141 (fun r c => switch c [(48, st 138); (58, st 80); (93, st 61)]
      (if c <? 65 then (if within 49 57 c then st 134 else st 0) else (if 70 <? c then (if within 97 102 c
        then st 134 else st 0) else st 134)));
  Case 142 (fun r c => switch c [(58, st 80); (93, st 61)]
      (if c <? 65 then (if within 48 57 c then st 133 else st 0) else (if 70 <? c then (if within 97 102 c
        then st 133 else st 0) else st 133)));
  Case 143 (fun r c => switch c [(46, st 55); (58, st 131); (93, st 61)]
      (if c <? 65 then (if within 48 57 c then st 144 else st 0) else (if 70 <? c then (if within 97 102 c
        then st 128 else st 0) else st 128)));
  Case 144 (fun r c => switch c [(46, st 55); (58, st 131); (93, st 61)]
      (if c <? 65 then (if within 48 57 c then st 145 else st 0) else (if 70 <? c then (if within 97 102 c
        then st 129 else st 0) else st 129)));
  Case 145 (fun r c => switch c [(46, st 55); (58, st 131); (93, st 61)]
      (if c <? 65 then (if within 48 57 c then st 130 else st 0) else (if 70 <? c then (if within 97 102 c
        then st 130 else st 0) else st 130)));
  Case 146 (fun r c => switch c [(46, st 55); (48, st 147); (53, st 148); (58, st 131); (93, st 61)]
      (if c <? 65 then (if within 49 57 c then st 128 else st 0) else (if 70 <? c then (if within 97 102 c
        then st 128 else st 0) else st 128)));
  Case 147 (fun r c => switch c [(58, st 131); (93, st 61)]
      (if c <? 65 then (if within 48 57 c then st 145 else st 0) else (if 70 <? c then (if within 97 102 c
        then st 129 else st 0) else st 129)))
].

Definition http_parser_2953 : list (block action) := [
  Case 148 (fun r c => switch c [(48, st 145); (58, st 131); (93, st 61)]
      (if c <? 65 then (if within 49 57 c then st 129 else st 0) else (if 70 <? c then (if within 97 102 c
        then st 129 else st 0) else st 129)));
  Case 149 (fun r c => switch c [(58, st 131); (93, st 61)]
      (if c <? 65 then (if within 48 57 c then st 128 else st 0) else (if 70 <? c then (if within 97 102 c
        then st 128 else st 0) else st 128)));
  Case 150 (fun r c => switch c [(49, st 143); (50, st 146)]
      (if c <? 48 then (if within 2 3 c then st 48 else st 0) else (if 57 <? c then (if 70 <? c then (if
        within 97 102 c then st 149 else st 0) else (if 65 <=? c then st 149 else st 0)) else st 127)));
  Case 151 (fun r c => switch c [(49, st 156); (50, st 159)]
      (if c <? 48 then (if within 2 3 c then st 48 else st 0) else (if 57 <? c then (if 70 <? c then (if
        within 97 102 c then st 162 else st 0) else (if 65 <=? c then st 162 else st 0)) else st 152)));
  Case 152 (fun r c => switch c [(46, st 55); (58, st 131)]
      (if c <? 65 then (if within 48 57 c then st 153 else st 0) else (if 70 <? c then (if within 97 102 c
        then st 153 else st 0) else st 153)));
  Case 153 (fun r c => if c =? 58 then st 131 else (if c <? 65 then (if within 48 57 c then st 154 else st 0)
        else (if 70 <? c then (if within 97 102 c then st 154 else st 0) else st 154)));
  Case 154 (fun r c => if c =? 58 then st 131 else (if c <? 65 then (if within 48 57 c then st 155 else st 0)
        else (if 70 <? c then (if within 97 102 c then st 155 else st 0) else st 155)));
  Case 155 (fun r c => if c =? 58 then st 131 else st 0)
].

Definition http_parser_3082 : list (block action) := [
  Case 156 (fun r c => switch c [(46, st 55); (58, st 131)]
      (if c <? 65 then (if within 48 57 c then st 157 else st 0) else (if 70 <? c then (if within 97 102 c
        then st 153 else st 0) else st 153)));
  Case 157 (fun r c => switch c [(46, st 55); (58, st 131)]
      (if c <? 65 then (if within 48 57 c then st 158 else st 0) else (if 70 <? c then (if within 97 102 c
        then st 154 else st 0) else st 154)));
  Case 158 (fun r c => switch c [(46, st 55); (58, st 131)]
      (if c <? 65 then (if within 48 57 c then st 155 else st 0) else (if 70 <? c then (if within 97 102 c
        then st 155 else st 0) else st 155)));
  Case 159 (fun r c => switch c [(46, st 55); (48, st 160); (53, st 161); (58, st 131)]
      (if c <? 65 then (if within 49 57 c then st 153 else st 0) else (if 70 <? c then (if within 97 102 c
        then st 153 else st 0) else st 153)));
  Case 160 (fun r c => if c =? 58 then st 131 else (if c <? 65 then (if within 48 57 c then st 158 else st 0)
        else (if 70 <? c then (if within 97 102 c then st 154 else st 0) else st 154)));
  Case 161 (fun r c => switch c [(48, st 158); (58, st 131)]
      (if c <? 65 then (if within 49 57 c then st 154 else st 0) else (if 70 <? c then (if within 97 102 c
        then st 154 else st 0) else st 154)));
  Case 162 (fun r c => if c =? 58 then st 131 else (if c <? 65 then (if within 48 57 c then st 153 else st 0)
        else (if 70 <? c then (if within 97 102 c then st 153 else st 0) else st 153)));
  Case 163 (fun r c => if c <? 48 then (if within 2 3 c then st 48 else st 0) else (if 57 <? c then (if 70 <?
        c then (if within 97 102 c then st 49 else st 0) else (if 65 <=? c then st 49 else st 0)) else st 49));
  Case 164 (fun r c => if within 2 3 c then st 48 else st 0)
].

Definition http_parser_3222 : list (block action) := [
  Case 165 (fun r c => if c =? 3 then st 48 else st 0);
  Case 166 (fun r c => if c =? 4 then st 48 else st 0);
  Case 167 (fun r c => if c =? 58 then st 168 else st 0);
  Case 168 (fun r c => switch c [(49, st 143); (50, st 146); (93, st 61)]
      (if c <? 48 then (if within 2 5 c then st 48 else st 0) else (if 57 <? c then (if 70 <? c then (if
        within 97 102 c then st 149 else st 0) else (if 65 <=? c then st 149 else st 0)) else st 127)));
  Case 169 (fun r c => if c <? 65 then (if within 48 57 c then st 170 else st 0) else (if 70 <? c then (if
        within 97 102 c then st 170 else st 0) else st 170));
  Case 170 (fun r c => if c =? 46 then st 171 else (if c <? 65 then (if within 48 57 c then st 170 else st 0)
        else (if 70 <? c then (if within 97 102 c then st 170 else st 0) else st 170)));
  Case 171 (fun r c => let w := if c <? 123 then (if within 94 94 c then widec r c else c) else (if 123 <? c
        then (if within 125 125 c then widec r c else c) else widec r c) in
      switch w [(33, st 172); (36, st 172); (61, st 172); (95, st 172); (126, st 172); (606, st 172); (635,
        st 172); (637, st 172)]
      (if w <? 48 then (if within 38 46 w then st 172 else st 0) else (if 59 <? w then (if 90 <? w then (if
        within 97 122 w then st 172 else st 0) else (if 65 <=? w then st 172 else st 0)) else st 172)))
].

Definition http_parser_3339 : list (block action) := [
  Case 172 (fun r c => let w := if c <? 123 then (if within 94 94 c then widec r c else c) else (if 123 <? c
        then (if within 125 125 c then widec r c else c) else widec r c) in
      switch w [(33, st 172); (36, st 172); (61, st 172); (93, st 61); (95, st 172); (126, st 172); (606,
        st 172); (635, st 172); (637, st 172)]
      (if w <? 48 then (if within 38 46 w then st 172 else st 0) else (if 59 <? w then (if 90 <? w then (if
        within 97 122 w then st 172 else st 0) else (if 65 <=? w then st 172 else st 0)) else st 172)));
  Tr 12 [a_mark] 173;
  Case 173 (fun r c => let w := if c <? 123 then (if within 94 94 c then widec r c else c) else (if 123 <? c
        then (if within 125 125 c then widec r c else c) else widec r c) in
      switch w [(32, tr 37); (33, st 19); (35, tr 39); (37, st 24); (43, st 173); (47, st 26); (58, st 174);
        (59, st 19); (61, st 19); (63, tr 42); (64, st 19); (95, st 19); (126, st 19); (606, st 19); (635,
        st 19); (637, st 19)]
      (if w <? 45 then (if within 36 44 w then st 19 else st 0) else (if 57 <? w then (if 90 <? w then (if
        within 97 122 w then st 173 else st 0) else (if 65 <=? w then st 173 else st 0)) else st 173)))
].

Definition http_parser_3447 : list (block action) := [
  Case 174 (fun r c => let w := if c <? 123 then (if within 94 94 c then widec r c else c) else (if 123 <? c
        then (if within 125 125 c then widec r c else c) else widec r c) in
      switch w [(32, tr 6); (33, tr 203); (35, tr 8); (37, tr 204); (47, tr 10); (61, tr 203); (63, tr 11);
        (95, tr 203); (126, tr 203); (606, tr 203); (635, tr 203); (637, tr 203)]
      (if w <? 36 then (if w <=? (-1) then tr 203 else st 0) else (if 59 <? w then (if 90 <? w then (if
        within 97 122 w then tr 203 else st 0) else (if 64 <=? w then tr 203 else st 0)) else tr 203)));
  Case 175 (fun r c => if c =? 32 then tr 4 else (if 57 <? c then (if within 65 90 c then st 176 else st 0)
        else (if 48 <=? c then st 176 else st 0)));
  Case 176 (fun r c => if c =? 32 then tr 4 else (if 57 <? c then (if within 65 90 c then st 177 else st 0)
        else (if 48 <=? c then st 177 else st 0)));
  Case 177 (fun r c => if c =? 32 then tr 4 else (if 57 <? c then (if within 65 90 c then st 178 else st 0)
        else (if 48 <=? c then st 178 else st 0)));
  Case 178 (fun r c => if c =? 32 then tr 4 else (if 57 <? c then (if within 65 90 c then st 179 else st 0)
        else (if 48 <=? c then st 179 else st 0)));
  Case 179 (fun r c => if c =? 32 then tr 4 else (if 57 <? c then (if within 65 90 c then st 180 else st 0)
        else (if 48 <=? c then st 180 else st 0)));
  Case 180 (fun r c => if c =? 32 then tr 4 else (if 57 <? c then (if within 65 90 c then st 181 else st 0)
        else (if 48 <=? c then st 181 else st 0)));
  Case 181 (fun r c => if c =? 32 then tr 4 else (if 57 <? c then (if within 65 90 c then st 182 else st 0)
        else (if 48 <=? c then st 182 else st 0)))
].

Definition http_parser_3582 : list (block action) := [
  Case 182 (fun r c => if c =? 32 then tr 4 else (if 57 <? c then (if within 65 90 c then st 183 else st 0)
        else (if 48 <=? c then st 183 else st 0)));
  Case 183 (fun r c => if c =? 32 then tr 4 else (if 57 <? c then (if within 65 90 c then st 184 else st 0)
        else (if 48 <=? c then st 184 else st 0)));
  Case 184 (fun r c => if c =? 32 then tr 4 else (if 57 <? c then (if within 65 90 c then st 185 else st 0)
        else (if 48 <=? c then st 185 else st 0)));
  Case 185 (fun r c => if c =? 32 then tr 4 else (if 57 <? c then (if within 65 90 c then st 186 else st 0)
        else (if 48 <=? c then st 186 else st 0)));
  Case 186 (fun r c => if c =? 32 then tr 4 else (if 57 <? c then (if within 65 90 c then st 187 else st 0)
        else (if 48 <=? c then st 187 else st 0)));
  Case 187 (fun r c => if c =? 32 then tr 4 else (if 57 <? c then (if within 65 90 c then st 188 else st 0)
        else (if 48 <=? c then st 188 else st 0)));
  Case 188 (fun r c => if c =? 32 then tr 4 else (if 57 <? c then (if within 65 90 c then st 189 else st 0)
        else (if 48 <=? c then st 189 else st 0)));
  Case 189 (fun r c => if c =? 32 then tr 4 else (if 57 <? c then (if within 65 90 c then st 190 else st 0)
        else (if 48 <=? c then st 190 else st 0)));
  Case 190 (fun r c => if c =? 32 then tr 4 else (if 57 <? c then (if within 65 90 c then st 191 else st 0)
        else (if 48 <=? c then st 191 else st 0)));
  Case 191 (fun r c => if c =? 32 then tr 4 else (if 57 <? c then (if within 65 90 c then st 192 else st 0)
        else (if 48 <=? c then st 192 else st 0)));
  Case 192 (fun r c => if c =? 32 then tr 4 else (if 57 <? c then (if within 65 90 c then st 193 else st 0)
        else (if 48 <=? c then st 193 else st 0)));
  Case 193 (fun r c => if c =? 32 then tr 4 else st 0)
].

Definition http_parser_3721 : list (block action) := [
  Tr 2 [a_mark] 194;
  Case 194 (fun r c => if c <? 48 then (if within 45 46 c then st 195 else st 0) else (if 57 <? c then (if 90
        <? c then (if within 97 122 c then st 195 else st 0) else (if 65 <=? c then st 195 else st 0)) else
        st 195));
  Case 195 (fun r c => switch c [(32, tr 224); (47, tr 224); (62, tr 224)]
      (if c <? 45 then (if within 9 13 c then tr 224 else st 0) else (if 57 <? c then (if 90 <? c then (if
        within 97 122 c then st 195 else st 0) else (if 65 <=? c then st 195 else st 0)) else st 195)));
  Tr 224 [a_request_path] 196;
  Case 196 (fun r c => if c =? 62 then st 197 else st 196);
  Case 197 (fun r c => switch c [(0, tr 227); (62, st 197)]
      (st 196));
  Tr 227 [a_xml; a_done 349] 349;
  Tr 235 [a_json; a_done 349] 349;
  Case 349 (fun r c => st 0);
  Tr 3 [a_mark] 198
].

Definition http_parser_3839 : list (block action) := [
  Case 198 (fun r c => let w := if c <? 123 then (if within 94 94 c then widec r c else c) else (if 123 <? c
        then (if within 125 125 c then widec r c else c) else widec r c) in
      switch w [(32, tr 228); (33, st 202); (37, st 203); (47, st 208); (59, st 202); (61, st 202); (95,
        st 202); (126, st 202); (606, st 202); (635, st 202); (637, st 202)]
      (if w <? 64 then (if within 36 57 w then st 202 else st 0) else (if 90 <? w then (if within 97 122 w
        then st 202 else st 0) else st 202)));
  Tr 228 [a_request_path] 199;
  Case 199 (fun r c => if c =? 123 then tr 232 else st 0);
  Tr 232 [a_mark] 200;
  Case 200 (fun r c => if c =? 125 then st 201 else st 200);
  Case 201 (fun r c => switch c [(0, tr 235); (125, st 201)]
      (st 200));
  Case 202 (fun r c => let w := if c <? 123 then (if within 94 94 c then widec r c else c) else (if 123 <? c
        then (if within 125 125 c then widec r c else c) else widec r c) in
      switch w [(32, tr 228); (33, st 202); (37, st 203); (47, st 205); (59, st 202); (61, st 202); (95,
        st 202); (126, st 202); (606, st 202); (635, st 202); (637, st 202)]
      (if w <? 64 then (if within 36 57 w then st 202 else st 0) else (if 90 <? w then (if within 97 122 w
        then st 202 else st 0) else st 202)))
].

Definition http_parser_3970 : list (block action) := [
  Case 203 (fun r c => if c <? 65 then (if within 48 57 c then st 204 else st 0) else (if 70 <? c then (if
        within 97 102 c then st 204 else st 0) else st 204));
  Case 204 (fun r c => if c <? 65 then (if within 48 57 c then st 202 else st 0) else (if 70 <? c then (if
        within 97 102 c then st 202 else st 0) else st 202));
  Case 205 (fun r c => let w := if c <? 123 then (if within 94 94 c then widec r c else c) else (if 123 <? c
        then (if within 125 125 c then widec r c else c) else widec r c) in
      switch w [(32, tr 228); (33, st 205); (37, st 206); (61, st 205); (95, st 205); (126, st 205); (606,
        st 205); (635, st 205); (637, st 205)]
      (if w <? 36 then (if w <=? (-1) then st 205 else st 0) else (if 59 <? w then (if 90 <? w then (if
        within 97 122 w then st 205 else st 0) else (if 64 <=? w then st 205 else st 0)) else st 205)));
  Case 206 (fun r c => if c <? 65 then (if within 48 57 c then st 207 else st 0) else (if 70 <? c then (if
        within 97 102 c then st 207 else st 0) else st 207));
  Case 207 (fun r c => if c <? 65 then (if within 48 57 c then st 205 else st 0) else (if 70 <? c then (if
        within 97 102 c then st 205 else st 0) else st 205))
].

Definition http_parser_4070 : list (block action) := [
  Case 208 (fun r c => let w := if c <? 123 then (if within 94 94 c then widec r c else c) else (if 123 <? c
        then (if within 125 125 c then widec r c else c) else widec r c) in
      switch w [(32, tr 228); (33, st 205); (37, st 206); (47, st 209); (61, st 205); (95, st 205); (126,
        st 205); (606, st 205); (635, st 205); (637, st 205)]
      (if w <? 36 then (if w <=? (-1) then st 205 else st 0) else (if 59 <? w then (if 90 <? w then (if
        within 97 122 w then st 205 else st 0) else (if 64 <=? w then st 205 else st 0)) else st 205)));
  Case 209 (fun r c => let w := if c <? 123 then (if within 94 94 c then widec r c else c) else (if 123 <? c
        then (if within 125 125 c then widec r c else c) else widec r c) in
      switch w [(32, tr 228); (33, st 210); (37, st 211); (47, st 205); (58, st 213); (61, st 210); (64,
        st 217); (91, st 222); (95, st 210); (126, st 210); (606, st 210); (635, st 210); (637, st 210)]
      (if w <? 65 then (if within 36 59 w then st 210 else st 0) else (if 90 <? w then (if within 97 122 w
        then st 210 else st 0) else st 210)))
].

Definition http_parser_4168 : list (block action) := [
  Case 210 (fun r c => let w := if c <? 123 then (if within 94 94 c then widec r c else c) else (if 123 <? c
        then (if within 125 125 c then widec r c else c) else widec r c) in
      switch w [(32, tr 228); (33, st 210); (37, st 211); (47, st 205); (58, st 213); (61, st 210); (64,
        st 217); (95, st 210); (126, st 210); (606, st 210); (635, st 210); (637, st 210)]
      (if w <? 65 then (if within 36 59 w then st 210 else st 0) else (if 90 <? w then (if within 97 122 w
        then st 210 else st 0) else st 210)));
  Case 211 (fun r c => if c <? 65 then (if within 48 57 c then st 212 else st 0) else (if 70 <? c then (if
        within 97 102 c then st 212 else st 0) else st 212));
  Case 212 (fun r c => if c <? 65 then (if within 48 57 c then st 210 else st 0) else (if 70 <? c then (if
        within 97 102 c then st 210 else st 0) else st 210));
  Case 213 (fun r c => let w := if c <? 123 then (if within 94 94 c then widec r c else c) else (if 123 <? c
        then (if within 125 125 c then widec r c else c) else widec r c) in
      switch w [(32, tr 228); (33, st 214); (37, st 215); (47, st 205); (61, st 214); (64, st 217); (95,
        st 214); (126, st 214); (606, st 214); (635, st 214); (637, st 214)]
      (if w <? 58 then (if 46 <? w then (if within 48 57 w then st 213 else st 0) else (if 36 <=? w then
        st 214 else st 0)) else (if 59 <? w then (if 90 <? w then (if within 97 122 w then st 214 else st 0)
        else (if 65 <=? w then st 214 else st 0)) else st 214)))
].

Definition http_parser_4295 : list (block action) := [
  Case 214 (fun r c => let w := if c <? 123 then (if within 94 94 c then widec r c else c) else (if 123 <? c
        then (if within 125 125 c then widec r c else c) else widec r c) in
      switch w [(33, st 214); (37, st 215); (61, st 214); (64, st 217); (95, st 214); (126, st 214); (606,
        st 214); (635, st 214); (637, st 214)]
      (if w <? 48 then (if within 36 46 w then st 214 else st 0) else (if 59 <? w then (if 90 <? w then (if
        within 97 122 w then st 214 else st 0) else (if 65 <=? w then st 214 else st 0)) else st 214)));
  Case 215 (fun r c => if c <? 65 then (if within 48 57 c then st 216 else st 0) else (if 70 <? c then (if
        within 97 102 c then st 216 else st 0) else st 216));
  Case 216 (fun r c => if c <? 65 then (if within 48 57 c then st 214 else st 0) else (if 70 <? c then (if
        within 97 102 c then st 214 else st 0) else st 214));
  Case 217 (fun r c => let w := if c <? 123 then (if within 94 94 c then widec r c else c) else (if 123 <? c
        then (if within 125 125 c then widec r c else c) else widec r c) in
      switch w [(32, tr 228); (33, st 218); (37, st 219); (47, st 205); (58, st 221); (61, st 218); (91,
        st 222); (95, st 218); (126, st 218); (606, st 218); (635, st 218); (637, st 218)]
      (if w <? 65 then (if within 36 59 w then st 218 else st 0) else (if 90 <? w then (if within 97 122 w
        then st 218 else st 0) else st 218)))
].

Definition http_parser_4417 : list (block action) := [
  Case 218 (fun r c => let w := if c <? 123 then (if within 94 94 c then widec r c else c) else (if 123 <? c
        then (if within 125 125 c then widec r c else c) else widec r c) in
      switch w [(32, tr 228); (33, st 218); (37, st 219); (47, st 205); (58, st 221); (61, st 218); (95,
        st 218); (126, st 218); (606, st 218); (635, st 218); (637, st 218)]
      (if w <? 65 then (if within 36 59 w then st 218 else st 0) else (if 90 <? w then (if within 97 122 w
        then st 218 else st 0) else st 218)));
  Case 219 (fun r c => if c <? 65 then (if within 48 57 c then st 220 else st 0) else (if 70 <? c then (if
        within 97 102 c then st 220 else st 0) else st 220));
  Case 220 (fun r c => if c <? 65 then (if within 48 57 c then st 218 else st 0) else (if 70 <? c then (if
        within 97 102 c then st 218 else st 0) else st 218));
  Case 221 (fun r c => switch c [(32, tr 228); (47, st 205)]
      (if within 48 57 c then st 221 else st 0));
  Case 222 (fun r c => switch c [(6, st 223); (58, st 342); (118, st 344)]
      (if c <? 65 then (if within 48 57 c then st 266 else st 0) else (if 70 <? c then (if within 97 102 c
        then st 266 else st 0) else st 266)));
  Case 223 (fun r c => if c <? 65 then (if within 48 57 c then st 224 else st 0) else (if 70 <? c then (if
        within 97 102 c then st 224 else st 0) else st 224));
  Case 224 (fun r c => if c =? 58 then st 228 else (if c <? 65 then (if within 48 57 c then st 225 else st 0)
        else (if 70 <? c then (if within 97 102 c then st 225 else st 0) else st 225)))
].

Definition http_parser_4547 : list (block action) := [
  Case 225 (fun r c => if c =? 58 then st 228 else (if c <? 65 then (if within 48 57 c then st 226 else st 0)
        else (if 70 <? c then (if within 97 102 c then st 226 else st 0) else st 226)));
  Case 226 (fun r c => if c =? 58 then st 228 else (if c <? 65 then (if within 48 57 c then st 227 else st 0)
        else (if 70 <? c then (if within 97 102 c then st 227 else st 0) else st 227)));
  Case 227 (fun r c => if c =? 58 then st 228 else st 0);
  Case 228 (fun r c => switch c [(49, st 259); (50, st 262)]
      (if c <? 65 then (if within 48 57 c then st 229 else st 0) else (if 70 <? c then (if within 97 102 c
        then st 265 else st 0) else st 265)));
  Case 229 (fun r c => switch c [(46, st 230); (58, st 255)]
      (if c <? 65 then (if within 48 57 c then st 252 else st 0) else (if 70 <? c then (if within 97 102 c
        then st 252 else st 0) else st 252)));
  Case 230 (fun r c => switch c [(49, st 247); (50, st 249)]
      (if within 48 57 c then st 231 else st 0));
  Case 231 (fun r c => if c =? 46 then st 232 else st 0);
  Case 232 (fun r c => switch c [(49, st 242); (50, st 244)]
      (if within 48 57 c then st 233 else st 0));
  Case 233 (fun r c => if c =? 46 then st 234 else st 0);
  Case 234 (fun r c => switch c [(49, st 237); (50, st 239)]
      (if within 48 57 c then st 235 else st 0));
  Case 235 (fun r c => if c =? 93 then st 236 else st 0);
  Case 236 (fun r c => switch c [(32, tr 228); (47, st 205); (58, st 221)]
      (st 0))
].

Definition http_parser_4682 : list (block action) := [
  Case 237 (fun r c => if c =? 93 then st 236 else (if within 48 57 c then st 238 else st 0));
  Case 238 (fun r c => if c =? 93 then st 236 else (if within 48 57 c then st 235 else st 0));
  Case 239 (fun r c => switch c [(48, st 240); (53, st 241); (93, st 236)]
      (st 0));
  Case 240 (fun r c => if within 48 57 c then st 235 else st 0);
  Case 241 (fun r c => if c =? 48 then st 235 else st 0);
  Case 242 (fun r c => if c =? 46 then st 234 else (if within 48 57 c then st 243 else st 0));
  Case 243 (fun r c => if c =? 46 then st 234 else (if within 48 57 c then st 233 else st 0));
  Case 244 (fun r c => switch c [(46, st 234); (48, st 245); (53, st 246)]
      (st 0));
  Case 245 (fun r c => if within 48 57 c then st 233 else st 0);
  Case 246 (fun r c => if c =? 48 then st 233 else st 0);
  Case 247 (fun r c => if c =? 46 then st 232 else (if within 48 57 c then st 248 else st 0));
  Case 248 (fun r c => if c =? 46 then st 232 else (if within 48 57 c then st 231 else st 0));
  Case 249 (fun r c => switch c [(46, st 232); (48, st 250); (53, st 251)]
      (st 0));
  Case 250 (fun r c => if within 48 57 c then st 231 else st 0);
  Case 251 (fun r c => if c =? 48 then st 231 else st 0)
].

Definition http_parser_4808 : list (block action) := [
  Case 252 (fun r c => if c =? 58 then st 255 else (if c <? 65 then (if within 48 57 c then st 253 else st 0)
        else (if 70 <? c then (if within 97 102 c then st 253 else st 0) else st 253)));
  Case 253 (fun r c => if c =? 58 then st 255 else (if c <? 65 then (if within 48 57 c then st 254 else st 0)
        else (if 70 <? c then (if within 97 102 c then st 254 else st 0) else st 254)));
  Case 254 (fun r c => if c =? 58 then st 255 else st 0);
  Case 255 (fun r c => if c <? 65 then (if within 48 57 c then st 256 else st 0) else (if 70 <? c then (if
        within 97 102 c then st 256 else st 0) else st 256));
  Case 256 (fun r c => if c =? 93 then st 236 else (if c <? 65 then (if within 48 57 c then st 257 else st 0)
        else (if 70 <? c then (if within 97 102 c then st 257 else st 0) else st 257)));
  Case 257 (fun r c => if c =? 93 then st 236 else (if c <? 65 then (if within 48 57 c then st 258 else st 0)
        else (if 70 <? c then (if within 97 102 c then st 258 else st 0) else st 258)));
  Case 258 (fun r c => if c =? 93 then st 236 else (if c <? 65 then (if within 48 57 c then st 235 else st 0)
        else (if 70 <? c then (if within 97 102 c then st 235 else st 0) else st 235)));
  Case 259 (fun r c => switch c [(46, st 230); (58, st 255)]
      (if c <? 65 then (if within 48 57 c then st 260 else st 0) else (if 70 <? c then (if within 97 102 c
        then st 252 else st 0) else st 252)));
  Case 260 (fun r c => switch c [(46, st 230); (58, st 255)]
      (if c <? 65 then (if within 48 57 c then st 261 else st 0) else (if 70 <? c then (if within 97 102 c
        then st 253 else st 0) else st 253)))
].

Definition http_parser_4937 : list (block action) := [
  Case 261 (fun r c => switch c [(46, st 230); (58, st 255)]
      (if c <? 65 then (if within 48 57 c then st 254 else st 0) else (if 70 <? c then (if within 97 102 c
        then st 254 else st 0) else st 254)));
  Case 262 (fun r c => switch c [(46, st 230); (48, st 263); (53, st 264); (58, st 255)]
      (if c <? 65 then (if within 49 57 c then st 252 else st 0) else (if 70 <? c then (if within 97 102 c
        then st 252 else st 0) else st 252)));
  Case 263 (fun r c => if c =? 58 then st 255 else (if c <? 65 then (if within 48 57 c then st 261 else st 0)
        else (if 70 <? c then (if within 97 102 c then st 253 else st 0) else st 253)));
  Case 264 (fun r c => switch c [(48, st 261); (58, st 255)]
      (if c <? 65 then (if within 49 57 c then st 253 else st 0) else (if 70 <? c then (if within 97 102 c
        then st 253 else st 0) else st 253)));
  Case 265 (fun r c => if c =? 58 then st 255 else (if c <? 65 then (if within 48 57 c then st 252 else st 0)
        else (if 70 <? c then (if within 97 102 c then st 252 else st 0) else st 252)));
  Case 266 (fun r c => if c =? 58 then st 270 else (if c <? 65 then (if within 48 57 c then st 267 else st 0)
        else (if 70 <? c then (if within 97 102 c then st 267 else st 0) else st 267)));
  Case 267 (fun r c => if c =? 58 then st 270 else (if c <? 65 then (if within 48 57 c then st 268 else st 0)
        else (if 70 <? c then (if within 97 102 c then st 268 else st 0) else st 268)));
  Case 268 (fun r c => if c =? 58 then st 270 else (if c <? 65 then (if within 48 57 c then st 269 else st 0)
        else (if 70 <? c then (if within 97 102 c then st 269 else st 0) else st 269)));
  Case 269 (fun r c => if c =? 58 then st 270 else st 0)
].

Definition http_parser_5072 : list (block action) := [
  Case 270 (fun r c => if c =? 58 then st 341 else (if c <? 65 then (if within 48 57 c then st 271 else st 0)
        else (if 70 <? c then (if within 97 102 c then st 271 else st 0) else st 271)));
  Case 271 (fun r c => if c =? 58 then st 275 else (if c <? 65 then (if within 48 57 c then st 272 else st 0)
        else (if 70 <? c then (if within 97 102 c then st 272 else st 0) else st 272)));
  Case 272 (fun r c => if c =? 58 then st 275 else (if c <? 65 then (if within 48 57 c then st 273 else st 0)
        else (if 70 <? c then (if within 97 102 c then st 273 else st 0) else st 273)));
  Case 273 (fun r c => if c =? 58 then st 275 else (if c <? 65 then (if within 48 57 c then st 274 else st 0)
        else (if 70 <? c then (if within 97 102 c then st 274 else st 0) else st 274)));
  Case 274 (fun r c => if c =? 58 then st 275 else st 0);
  Case 275 (fun r c => if c =? 58 then st 340 else (if c <? 65 then (if within 48 57 c then st 276 else st 0)
        else (if 70 <? c then (if within 97 102 c then st 276 else st 0) else st 276)));
  Case 276 (fun r c => if c =? 58 then st 280 else (if c <? 65 then (if within 48 57 c then st 277 else st 0)
        else (if 70 <? c then (if within 97 102 c then st 277 else st 0) else st 277)));
  Case 277 (fun r c => if c =? 58 then st 280 else (if c <? 65 then (if within 48 57 c then st 278 else st 0)
        else (if 70 <? c then (if within 97 102 c then st 278 else st 0) else st 278)));
  Case 278 (fun r c => if c =? 58 then st 280 else (if c <? 65 then (if within 48 57 c then st 279 else st 0)
        else (if 70 <? c then (if within 97 102 c then st 279 else st 0) else st 279)));
  Case 279 (fun r c => if c =? 58 then st 280 else st 0)
].

Definition http_parser_5206 : list (block action) := [
  Case 280 (fun r c => if c =? 58 then st 339 else (if c <? 65 then (if within 48 57 c then st 281 else st 0)
        else (if 70 <? c then (if within 97 102 c then st 281 else st 0) else st 281)));
  Case 281 (fun r c => if c =? 58 then st 285 else (if c <? 65 then (if within 48 57 c then st 282 else st 0)
        else (if 70 <? c then (if within 97 102 c then st 282 else st 0) else st 282)));
  Case 282 (fun r c => if c =? 58 then st 285 else (if c <? 65 then (if within 48 57 c then st 283 else st 0)
        else (if 70 <? c then (if within 97 102 c then st 283 else st 0) else st 283)));
  Case 283 (fun r c => if c =? 58 then st 285 else (if c <? 65 then (if within 48 57 c then st 284 else st 0)
        else (if 70 <? c then (if within 97 102 c then st 284 else st 0) else st 284)));
  Case 284 (fun r c => if c =? 58 then st 285 else st 0);
  Case 285 (fun r c => if c =? 58 then st 338 else (if c <? 65 then (if within 48 57 c then st 286 else st 0)
        else (if 70 <? c then (if within 97 102 c then st 286 else st 0) else st 286)));
  Case 286 (fun r c => if c =? 58 then st 290 else (if c <? 65 then (if within 48 57 c then st 287 else st 0)
        else (if 70 <? c then (if within 97 102 c then st 287 else st 0) else st 287)));
  Case 287 (fun r c => if c =? 58 then st 290 else (if c <? 65 then (if within 48 57 c then st 288 else st 0)
        else (if 70 <? c then (if within 97 102 c then st 288 else st 0) else st 288)));
  Case 288 (fun r c => if c =? 58 then st 290 else (if c <? 65 then (if within 48 57 c then st 289 else st 0)
        else (if 70 <? c then (if within 97 102 c then st 289 else st 0) else st 289)));
  Case 289 (fun r c => if c =? 58 then st 290 else st 0)
].

Definition http_parser_5340 : list (block action) := [
  Case 290 (fun r c => if c =? 58 then st 326 else (if c <? 65 then (if within 48 57 c then st 291 else st 0)
        else (if 70 <? c then (if within 97 102 c then st 291 else st 0) else st 291)));
  Case 291 (fun r c => if c =? 58 then st 295 else (if c <? 65 then (if within 48 57 c then st 292 else st 0)
        else (if 70 <? c then (if within 97 102 c then st 292 else st 0) else st 292)));
  Case 292 (fun r c => if c =? 58 then st 295 else (if c <? 65 then (if within 48 57 c then st 293 else st 0)
        else (if 70 <? c then (if within 97 102 c then st 293 else st 0) else st 293)));
  Case 293 (fun r c => if c =? 58 then st 295 else (if c <? 65 then (if within 48 57 c then st 294 else st 0)
        else (if 70 <? c then (if within 97 102 c then st 294 else st 0) else st 294)));
  Case 294 (fun r c => if c =? 58 then st 295 else st 0);
  Case 295 (fun r c => if c =? 58 then st 325 else (if c <? 65 then (if within 48 57 c then st 296 else st 0)
        else (if 70 <? c then (if within 97 102 c then st 296 else st 0) else st 296)));
  Case 296 (fun r c => if c =? 58 then st 300 else (if c <? 65 then (if within 48 57 c then st 297 else st 0)
        else (if 70 <? c then (if within 97 102 c then st 297 else st 0) else st 297)));
  Case 297 (fun r c => if c =? 58 then st 300 else (if c <? 65 then (if within 48 57 c then st 298 else st 0)
        else (if 70 <? c then (if within 97 102 c then st 298 else st 0) else st 298)));
  Case 298 (fun r c => if c =? 58 then st 300 else (if c <? 65 then (if within 48 57 c then st 299 else st 0)
        else (if 70 <? c then (if within 97 102 c then st 299 else st 0) else st 299)));
  Case 299 (fun r c => if c =? 58 then st 300 else st 0)
].

Definition http_parser_5474 : list (block action) := [
  Case 300 (fun r c => if c =? 58 then st 301 else (if c <? 65 then (if within 48 57 c then st 296 else st 0)
        else (if 70 <? c then (if within 97 102 c then st 296 else st 0) else st 296)));
  Case 301 (fun r c => switch c [(49, st 318); (50, st 321); (93, st 236)]
      (if c <? 48 then (if within 2 3 c then st 223 else st 0) else (if 57 <? c then (if 70 <? c then (if
        within 97 102 c then st 324 else st 0) else (if 65 <=? c then st 324 else st 0)) else st 302)));
  Case 302 (fun r c => switch c [(46, st 230); (58, st 306); (93, st 236)]
      (if c <? 65 then (if within 48 57 c then st 303 else st 0) else (if 70 <? c then (if within 97 102 c
        then st 303 else st 0) else st 303)));
  Case 303 (fun r c => switch c [(58, st 306); (93, st 236)]
      (if c <? 65 then (if within 48 57 c then st 304 else st 0) else (if 70 <? c then (if within 97 102 c
        then st 304 else st 0) else st 304)));
  Case 304 (fun r c => switch c [(58, st 306); (93, st 236)]
      (if c <? 65 then (if within 48 57 c then st 305 else st 0) else (if 70 <? c then (if within 97 102 c
        then st 305 else st 0) else st 305)));
  Case 305 (fun r c => switch c [(58, st 306); (93, st 236)]
      (st 0));
  Case 306 (fun r c => switch c [(49, st 311); (50, st 314)]
      (if c <? 65 then (if within 48 57 c then st 307 else st 0) else (if 70 <? c then (if within 97 102 c
        then st 317 else st 0) else st 317)));
  Case 307 (fun r c => switch c [(46, st 230); (58, st 255); (93, st 236)]
      (if c <? 65 then (if within 48 57 c then st 308 else st 0) else (if 70 <? c then (if within 97 102 c
        then st 308 else st 0) else st 308)))
].

Definition http_parser_5606 : list (block action) := [
  Case 308 (fun r c => switch c [(58, st 255); (93, st 236)]
      (if c <? 65 then (if within 48 57 c then st 309 else st 0) else (if 70 <? c then (if within 97 102 c
        then st 309 else st 0) else st 309)));
  Case 309 (fun r c => switch c [(58, st 255); (93, st 236)]
      (if c <? 65 then (if within 48 57 c then st 310 else st 0) else (if 70 <? c then (if within 97 102 c
        then st 310 else st 0) else st 310)));
  Case 310 (fun r c => switch c [(58, st 255); (93, st 236)]
      (st 0));
  Case 311 (fun r c => switch c [(46, st 230); (58, st 255); (93, st 236)]
      (if c <? 65 then (if within 48 57 c then st 312 else st 0) else (if 70 <? c then (if within 97 102 c
        then st 308 else st 0) else st 308)));
  Case 312 (fun r c => switch c [(46, st 230); (58, st 255); (93, st 236)]
      (if c <? 65 then (if within 48 57 c then st 313 else st 0) else (if 70 <? c then (if within 97 102 c
        then st 309 else st 0) else st 309)));
  Case 313 (fun r c => switch c [(46, st 230); (58, st 255); (93, st 236)]
      (if c <? 65 then (if within 48 57 c then st 310 else st 0) else (if 70 <? c then (if within 97 102 c
        then st 310 else st 0) else st 310)));
  Case 314 (fun r c => switch c [(46, st 230); (48, st 315); (53, st 316); (58, st 255); (93, st 236)]
      (if c <? 65 then (if within 49 57 c then st 308 else st 0) else (if 70 <? c then (if within 97 102 c
        then st 308 else st 0) else st 308)));
  Case 315 (fun r c => switch c [(58, st 255); (93, st 236)]
      (if c <? 65 then (if within 48 57 c then st 313 else st 0) else (if 70 <? c then (if within 97 102 c
        then st 309 else st 0) else st 309)))
].

Definition http_parser_5740 : list (block action) := [
  Case 316 (fun r c => switch c [(48, st 313); (58, st 255); (93, st 236)]
      (if c <? 65 then (if within 49 57 c then st 309 else st 0) else (if 70 <? c then (if within 97 102 c
        then st 309 else st 0) else st 309)));
  Case 317 (fun r c => switch c [(58, st 255); (93, st 236)]
      (if c <? 65 then (if within 48 57 c then st 308 else st 0) else (if 70 <? c then (if within 97 102 c
        then st 308 else st 0) else st 308)));
  Case 318 (fun r c => switch c [(46, st 230); (58, st 306); (93, st 236)]
      (if c <? 65 then (if within 48 57 c then st 319 else st 0) else (if 70 <? c then (if within 97 102 c
        then st 303 else st 0) else st 303)));
  Case 319 (fun r c => switch c [(46, st 230); (58, st 306); (93, st 236)]
      (if c <? 65 then (if within 48 57 c then st 320 else st 0) else (if 70 <? c then (if within 97 102 c
        then st 304 else st 0) else st 304)));
  Case 320 (fun r c => switch c [(46, st 230); (58, st 306); (93, st 236)]
      (if c <? 65 then (if within 48 57 c then st 305 else st 0) else (if 70 <? c then (if within 97 102 c
        then st 305 else st 0) else st 305)));
  Case 321 (fun r c => switch c [(46, st 230); (48, st 322); (53, st 323); (58, st 306); (93, st 236)]
      (if c <? 65 then (if within 49 57 c then st 303 else st 0) else (if 70 <? c then (if within 97 102 c
        then st 303 else st 0) else st 303)));
  Case 322 (fun r c => switch c [(58, st 306); (93, st 236)]
      (if c <? 65 then (if within 48 57 c then st 320 else st 0) else (if 70 <? c then (if within 97 102 c
        then st 304 else st 0) else st 304)))
].

Definition http_parser_5866 : list (block action) := [
  Case 323 (fun r c => switch c [(48, st 320); (58, st 306); (93, st 236)]
      (if c <? 65 then (if within 49 57 c then st 304 else st 0) else (if 70 <? c then (if within 97 102 c
        then st 304 else st 0) else st 304)));
  Case 324 (fun r c => switch c [(58, st 306); (93, st 236)]
      (if c <? 65 then (if within 48 57 c then st 303 else st 0) else (if 70 <? c then (if within 97 102 c
        then st 303 else st 0) else st 303)));
  Case 325 (fun r c => switch c [(49, st 318); (50, st 321)]
      (if c <? 48 then (if within 2 3 c then st 223 else st 0) else (if 57 <? c then (if 70 <? c then (if
        within 97 102 c then st 324 else st 0) else (if 65 <=? c then st 324 else st 0)) else st 302)));
  Case 326 (fun r c => switch c [(49, st 331); (50, st 334)]
      (if c <? 48 then (if within 2 3 c then st 223 else st 0) else (if 57 <? c then (if 70 <? c then (if
        within 97 102 c then st 337 else st 0) else (if 65 <=? c then st 337 else st 0)) else st 327)));
  Case 327 (fun r c => switch c [(46, st 230); (58, st 306)]
      (if c <? 65 then (if within 48 57 c then st 328 else st 0) else (if 70 <? c then (if within 97 102 c
        then st 328 else st 0) else st 328)));
  Case 328 (fun r c => if c =? 58 then st 306 else (if c <? 65 then (if within 48 57 c then st 329 else st 0)
        else (if 70 <? c then (if within 97 102 c then st 329 else st 0) else st 329)));
  Case 329 (fun r c => if c =? 58 then st 306 else (if c <? 65 then (if within 48 57 c then st 330 else st 0)
        else (if 70 <? c then (if within 97 102 c then st 330 else st 0) else st 330)));
  Case 330 (fun r c => if c =? 58 then st 306 else st 0)
].

Definition http_parser_5995 : list (block action) := [
  Case 331 (fun r c => switch c [(46, st 230); (58, st 306)]
      (if c <? 65 then (if within 48 57 c then st 332 else st 0) else (if 70 <? c then (if within 97 102 c
        then st 328 else st 0) else st 328)));
  Case 332 (fun r c => switch c [(46, st 230); (58, st 306)]
      (if c <? 65 then (if within 48 57 c then st 333 else st 0) else (if 70 <? c then (if within 97 102 c
        then st 329 else st 0) else st 329)));
  Case 333 (fun r c => switch c [(46, st 230); (58, st 306)]
      (if c <? 65 then (if within 48 57 c then st 330 else st 0) else (if 70 <? c then (if within 97 102 c
        then st 330 else st 0) else st 330)));
  Case 334 (fun r c => switch c [(46, st 230); (48, st 335); (53, st 336); (58, st 306)]
      (if c <? 65 then (if within 49 57 c then st 328 else st 0) else (if 70 <? c then (if within 97 102 c
        then st 328 else st 0) else st 328)));
  Case 335 (fun r c => if c =? 58 then st 306 else (if c <? 65 then (if within 48 57 c then st 333 else st 0)
        else (if 70 <? c then (if within 97 102 c then st 329 else st 0) else st 329)));
  Case 336 (fun r c => switch c [(48, st 333); (58, st 306)]
      (if c <? 65 then (if within 49 57 c then st 329 else st 0) else (if 70 <? c then (if within 97 102 c
        then st 329 else st 0) else st 329)));
  Case 337 (fun r c => if c =? 58 then st 306 else (if c <? 65 then (if within 48 57 c then st 328 else st 0)
        else (if 70 <? c then (if within 97 102 c then st 328 else st 0) else st 328)));
  Case 338 (fun r c => if c <? 48 then (if within 2 3 c then st 223 else st 0) else (if 57 <? c then (if 70
        <? c then (if within 97 102 c then st 224 else st 0) else (if 65 <=? c then st 224 else st 0)) else
        st 224));
  Case 339 (fun r c => if within 2 3 c then st 223 else st 0)
].

Definition http_parser_6135 : list (block action) := [
  Case 340 (fun r c => if c =? 3 then st 223 else st 0);
  Case 341 (fun r c => if c =? 4 then st 223 else st 0);
  Case 342 (fun r c => if c =? 58 then st 343 else st 0);
  Case 343 (fun r c => switch c [(49, st 318); (50, st 321); (93, st 236)]
      (if c <? 48 then (if within 2 5 c then st 223 else st 0) else (if 57 <? c then (if 70 <? c then (if
        within 97 102 c then st 324 else st 0) else (if 65 <=? c then st 324 else st 0)) else st 302)));
  Case 344 (fun r c => if c <? 65 then (if within 48 57 c then st 345 else st 0) else (if 70 <? c then (if
        within 97 102 c then st 345 else st 0) else st 345));
  Case 345 (fun r c => if c =? 46 then st 346 else (if c <? 65 then (if within 48 57 c then st 345 else st 0)
        else (if 70 <? c then (if within 97 102 c then st 345 else st 0) else st 345)));
  Case 346 (fun r c => let w := if c <? 123 then (if within 94 94 c then widec r c else c) else (if 123 <? c
        then (if within 125 125 c then widec r c else c) else widec r c) in
      switch w [(33, st 347); (36, st 347); (61, st 347); (95, st 347); (126, st 347); (606, st 347); (635,
        st 347); (637, st 347)]
      (if w <? 48 then (if within 38 46 w then st 347 else st 0) else (if 59 <? w then (if 90 <? w then (if
        within 97 122 w then st 347 else st 0) else (if 65 <=? w then st 347 else st 0)) else st 347)))
].

Definition http_parser_6252 : list (block action) := [
  Case 347 (fun r c => let w := if c <? 123 then (if within 94 94 c then widec r c else c) else (if 123 <? c
        then (if within 125 125 c then widec r c else c) else widec r c) in
      switch w [(33, st 347); (36, st 347); (61, st 347); (93, st 236); (95, st 347); (126, st 347); (606,
        st 347); (635, st 347); (637, st 347)]
      (if w <? 48 then (if within 38 46 w then st 347 else st 0) else (if 59 <? w then (if 90 <? w then (if
        within 97 122 w then st 347 else st 0) else (if 65 <=? w then st 347 else st 0)) else st 347)))
].

Definition http_parser_code : list (block action) :=
  http_parser_117 ++ http_parser_248 ++ http_parser_370 ++ http_parser_510 ++ http_parser_633 ++
    http_parser_735 ++ http_parser_872 ++ http_parser_1001 ++ http_parser_1140 ++ http_parser_1243
    ++ http_parser_1374 ++ http_parser_1498 ++ http_parser_1632 ++ http_parser_1769 ++
    http_parser_1895 ++ http_parser_2024 ++ http_parser_2159 ++ http_parser_2293 ++
    http_parser_2427 ++ http_parser_2561 ++ http_parser_2693 ++ http_parser_2827 ++
    http_parser_2953 ++ http_parser_3082 ++ http_parser_3222 ++ http_parser_3339 ++
    http_parser_3447 ++ http_parser_3582 ++ http_parser_3721 ++ http_parser_3839 ++
    http_parser_3970 ++ http_parser_4070 ++ http_parser_4168 ++ http_parser_4295 ++
    http_parser_4417 ++ http_parser_4547 ++ http_parser_4682 ++ http_parser_4808 ++
    http_parser_4937 ++ http_parser_5072 ++ http_parser_5206 ++ http_parser_5340 ++
    http_parser_5474 ++ http_parser_5606 ++ http_parser_5740 ++ http_parser_5866 ++
    http_parser_5995 ++ http_parser_6135 ++ http_parser_6252.
