(* ===== verification/Http11.v ===== *)
(** * The request machine: [sylar/http/http11_parser.rl.cc]

    [http_parser] and its functions, around the code of [Http11Code.v].
    [http_parser_init] sets neither [query_start] nor [uri_relaxed], and
    [HttpRequestParser] does not either: both are parameters of the initial
    state.  The machine implements the interface of [HttpParser.v]. *)

From stdpp Require Import base list.
From Stdlib Require Import ZArith Lia.
From S2P Require Import Prelude HttpParser Ragel Http11Code.

Local Open Scope Z_scope.

Record http_parser := HP {
  hp_cs : Z;
  hp_body_start : Z;
  hp_content_len : Z;
  hp_nread : Z;
  hp_mark : Z;
  hp_field_start : Z;
  hp_field_len : Z;
  hp_query_start : Z;
  hp_xml_sent : bool;
  hp_json_sent : bool;
  hp_uri_relaxed : bool;
}.

Definition http_parser_start : Z := 1.
Definition http_parser_first_final : Z := 348.
Definition http_parser_error : Z := 0.

(** [http_parser_init], on a structure with these values in the members it
    does not set. *)
Definition http_parser_init (query_start : Z) (uri_relaxed : bool) : http_parser :=
  HP http_parser_start 0 0 0 0 0 0 query_start false false uri_relaxed.

Definition http_parser_has_error (h : http_parser) : bool := hp_cs h =? http_parser_error.
Definition http_parser_is_finished (h : http_parser) : bool := http_parser_first_final <=? hp_cs h.
Definition http_parser_finish (h : http_parser) : Z :=
  if http_parser_has_error h then -1 else if http_parser_is_finished h then 1 else 0.

Definition set_cs (v : Z) (h : http_parser) : http_parser :=
  HP v (hp_body_start h) (hp_content_len h) (hp_nread h) (hp_mark h) (hp_field_start h)
    (hp_field_len h) (hp_query_start h) (hp_xml_sent h) (hp_json_sent h) (hp_uri_relaxed h).
Definition set_nread (v : Z) (h : http_parser) : http_parser :=
  HP (hp_cs h) (hp_body_start h) (hp_content_len h) v (hp_mark h) (hp_field_start h)
    (hp_field_len h) (hp_query_start h) (hp_xml_sent h) (hp_json_sent h) (hp_uri_relaxed h).
Definition set_marks (mark field_start field_len query_start : Z) (h : http_parser) : http_parser :=
  HP (hp_cs h) (hp_body_start h) (hp_content_len h) (hp_nread h) mark field_start
    field_len query_start (hp_xml_sent h) (hp_json_sent h) (hp_uri_relaxed h).
Definition set_sent (xml json : bool) (h : http_parser) : http_parser :=
  HP (hp_cs h) (hp_body_start h) (hp_content_len h) (hp_nread h) (hp_mark h) (hp_field_start h)
    (hp_field_len h) (hp_query_start h) xml json (hp_uri_relaxed h).
Definition set_body (body_start content_len : Z) (h : http_parser) : http_parser :=
  HP (hp_cs h) body_start content_len (hp_nread h) (hp_mark h) (hp_field_start h)
    (hp_field_len h) (hp_query_start h) (hp_xml_sent h) (hp_json_sent h) (hp_uri_relaxed h).

(** The parser and the callbacks called so far. *)
Definition hp_state : Type := http_parser * list (call request_elem).

Definition emit (c : call request_elem) (s : hp_state) : hp_state := (s.1, (s.2 ++ [c])%list).

(** [LEN(AT, FPC)] *)
Definition LEN (at_ p : Z) : Z := u64 (p - at_).

(** The actions of the grammar, at [fpc = buffer + p]. *)
Definition http_act (a : action) (p pe : nat) (s : hp_state) : hp_state :=
  let '(h, cs) := s in
  let p := Z.of_nat p in
  match a with
  | a_mark => (set_marks p (hp_field_start h) (hp_field_len h) (hp_query_start h) h, cs)
  | a_start_field => (set_marks (hp_mark h) p (hp_field_len h) (hp_query_start h) h, cs)
  | a_write_field =>
      (set_marks (hp_mark h) (hp_field_start h) (LEN (hp_field_start h) p) (hp_query_start h) h, cs)
  | a_write_value =>
      emit (Field (hp_field_start h) (hp_field_len h) (hp_mark h) (LEN (hp_mark h) p)) s
  | a_request_method => emit (Elem RequestMethod (hp_mark h) (LEN (hp_mark h) p)) s
  | a_request_uri => emit (Elem RequestUri (hp_mark h) (LEN (hp_mark h) p)) s
  | a_fragment => emit (Elem Fragment (hp_mark h) (LEN (hp_mark h) p)) s
  | a_start_query => (set_marks (hp_mark h) (hp_field_start h) (hp_field_len h) p h, cs)
  | a_query_string => emit (Elem QueryString (hp_query_start h) (LEN (hp_query_start h) p)) s
  | a_http_version => emit (Elem HttpVersion (hp_mark h) (LEN (hp_mark h) p)) s
  | a_request_path => emit (Elem RequestPath (hp_mark h) (LEN (hp_mark h) p)) s
  | a_xml => (set_sent true (hp_json_sent h) h, cs)
  | a_json => (set_sent (hp_xml_sent h) true h, cs)
  | a_done _ =>
      if hp_xml_sent h || hp_json_sent h then (set_body (hp_mark h) (u64 (p - hp_mark h + 1)) h, cs)
      else emit (Elem HeaderDone (p + 1) (Z.of_nat pe - p - 1))
             (set_body (p + 1) (hp_content_len h) h, cs)
  end.

Definition http_breaks (a : action) : option Z := match a with a_done cs => Some cs | _ => None end.

Definition http_run (relaxed : bool) := run http_parser_code http_act http_breaks relaxed.

(** [http_parser_execute(parser, buffer, len, off)]: the callbacks, [nread]
    and the parser.  The assertions are those of the source. *)
Definition http_parser_execute (buffer : list Z) (off : nat) (h : http_parser)
    : outcome (list (call request_elem) * nat * http_parser) :=
  let len := Z.of_nat (length buffer) in
  if len =? 0 then Ok ([], 0%nat, h) else
  let h := set_nread 0 (set_marks 0 0 0 (hp_query_start h) h) in
  _ ← assert (Z.of_nat off <=? len);
  _ ← assert (len - Z.of_nat off =? i32 len - i32 (Z.of_nat off));
  let '(cs, p, (h, calls)) :=
    http_run (hp_uri_relaxed h) (hp_cs h) off (drop off buffer) (h, []) in
  _ ← assert (Z.of_nat p <=? len);
  let h := if negb (http_parser_has_error h) then set_cs cs h else h in
  let h := set_nread (hp_nread h + (Z.of_nat p - Z.of_nat off)) h in
  _ ← assert (hp_nread h <=? len);
  _ ← assert (hp_body_start h <=? len);
  _ ← assert (hp_mark h <? len);
  _ ← assert (hp_field_len h <=? len);
  _ ← assert (hp_field_start h <? len);
  Ok (calls, Z.to_nat (hp_nread h), h).

(** ** What the machine guarantees *)

(** The states inside a header's value and inside the query. *)
Definition in_value (cs : Z) : bool := (cs =? 15) || (cs =? 16).
Definition in_query (cs : Z) : bool := within 30 32 cs.

(** What is known while actions run: that the header's name is in the buffer,
    that [query_start] has been set, that the end was reached.  [None] when an
    action needs what is not known. *)
Definition facts : Type := bool * bool * bool.
Definition flow1 (k : option facts) (a : action) : option facts :=
  match k with
  | None => None
  | Some (f, q, d) =>
      match a with
      | a_start_field => Some (false, q, d)
      | a_write_field => Some (true, q, d)
      | a_write_value => if f then k else None
      | a_start_query => Some (f, true, d)
      | a_query_string => if q then k else None
      | a_done _ => Some (f, q, true)
      | _ => k
      end
  end.
Definition flow (k : facts) (acts : list action) : option facts := foldl flow1 (Some k) acts.

(** The automaton reports a value only after a name and a query only after its
    start, and finishes exactly where the loop is left. *)
Definition http_flow (cs : Z) (acts : list action) (n : Z) : bool :=
  match flow (in_value cs, in_query cs, false) acts with
  | None => false
  | Some (f, q, d) =>
      match break_of http_breaks acts with
      | Some cs' => http_parser_first_final <=? cs'
      | None => negb d && implb (in_value n) f && implb (in_query n) q
      end
  end.

Lemma http_flow_ok relaxed : check_code http_parser_code relaxed http_flow = true.
Proof. destruct relaxed; vm_compute; reflexivity. Qed.

(** The parser's members while a buffer of [pe] bytes is read at [p]. *)
Record hp_good (k : facts) (p pe : nat) (s : hp_state) : Prop := {
  hg_mark : 0 <= hp_mark s.1 <= Z.of_nat p /\ hp_mark s.1 < Z.of_nat pe;
  hg_field : 0 <= hp_field_start s.1 <= Z.of_nat p /\ hp_field_start s.1 < Z.of_nat pe;
  hg_flen : 0 <= hp_field_len s.1 <= Z.of_nat p;
  hg_name : k.1.1 = true -> hp_field_start s.1 + hp_field_len s.1 <= Z.of_nat p;
  hg_query : k.1.2 = true -> 0 <= hp_query_start s.1 < 2 ^ 31;
  hg_body : 0 <= hp_body_start s.1 <= Z.of_nat pe /\ (k.2 = false -> hp_body_start s.1 = 0);
  hg_calls : Forall (call_in pe) s.2;
}.

Lemma LEN_small a p : 0 <= a <= p -> p < 2 ^ 31 -> LEN a p = p - a.
Proof. intros. unfold LEN. apply wrapu_small; unfold in_u; lia. Qed.

Lemma piece_here a p pe :
  0 <= a <= p -> p <= Z.of_nat pe -> p < 2 ^ 31 -> piece_in pe a (LEN a p).
Proof. intros. left. rewrite LEN_small by done. lia. Qed.

(** A position from an earlier buffer: in range, or the length wraps. *)
Lemma piece_stale a p pe :
  0 <= a < 2 ^ 31 -> 0 <= p < 2 ^ 31 -> p <= Z.of_nat pe -> piece_in pe a (LEN a p).
Proof.
  intros Ha Hp Hpe. destruct (Z.le_gt_cases a p); [by apply piece_here; lia|]. right.
  split; [lia|]. unfold LEN, u64, wrapu, max_size. rewrite <- (Z.mod_add _ 1 (2 ^ 64)) by lia.
  rewrite Z.mod_small by lia. lia.
Qed.

Lemma hp_good_act k k' a p pe s :
  hp_good k p pe s -> (p < pe)%nat -> Z.of_nat pe < 2 ^ 31 -> flow1 (Some k) a = Some k' ->
  hp_good k' p pe (http_act a p pe s).
Proof.
  intros [Hm Hf Hl Hn Hq Hb Hc] Hp Hpe Hk. destruct s as [h cs], k as [[f q] d].
  simpl in *.
  assert (forall e at_ len, piece_in pe at_ len -> Forall (call_in pe) (cs ++ [Elem e at_ len])%list)
    as He by (intros; apply Forall_app; split; [done|by constructor]).
  destruct a; simpl in Hk |- *; try (injection Hk as <-); unfold emit; simpl;
    try (constructor; simpl; try done; try lia; try (apply He, piece_here; lia); fail).
  - constructor; simpl; try done; rewrite LEN_small by lia; lia.
  - destruct f; [injection Hk as <-|done]. specialize (Hn eq_refl).
    constructor; simpl; try done; try lia. apply Forall_app. split; [done|].
    constructor; [|done]. split; [left; lia|apply piece_here; lia].
  - destruct q; [injection Hk as <-|done]. specialize (Hq eq_refl).
    constructor; simpl; try done; try lia. apply He, piece_stale; lia.
  - destruct (hp_xml_sent h || hp_json_sent h); simpl; constructor; simpl; try done; try lia.
    apply He. left. lia.
Qed.

Lemma hp_good_actions acts k k' p pe s :
  hp_good k p pe s -> (p < pe)%nat -> Z.of_nat pe < 2 ^ 31 -> flow k acts = Some k' ->
  hp_good k' p pe (run_actions http_act acts p pe s).
Proof.
  intros Hg Hp Hpe. revert k s Hg. unfold flow, run_actions.
  induction acts as [|a acts IH]; intros k s Hg Hk; cbn [foldl] in *; [by injection Hk as <-|].
  destruct (flow1 (Some k) a) as [k1|] eqn:E.
  - eapply IH; [|exact Hk]. by eapply hp_good_act.
  - exfalso. clear -Hk. induction acts; [done|]. by apply IHacts.
Qed.

(** Actions leave the state and the count alone. *)
Lemma http_act_keeps acts p pe s :
  hp_cs (run_actions http_act acts p pe s).1 = hp_cs s.1
  /\ hp_nread (run_actions http_act acts p pe s).1 = hp_nread s.1.
Proof.
  unfold run_actions. revert s. induction acts as [|a acts IH]; intros s; [done|]. cbn [foldl].
  destruct (IH (http_act a p pe s)) as [-> ->]. destruct s as [h cs].
  destruct a; simpl; try done. by destruct (hp_xml_sent h || hp_json_sent h).
Qed.

Lemma hp_good_weaken k p p' pe s :
  hp_good k p pe s -> (p <= p')%nat -> hp_good k p' pe s.
Proof. intros [] Hp. constructor; try done; try lia. intros Hk. specialize (hg_name0 Hk). lia. Qed.

Lemma hp_good_facts f q f' q' d p pe s :
  hp_good (f, q, d) p pe s -> implb f' f = true -> implb q' q = true ->
  hp_good (f', q', d) p pe s.
Proof.
  intros [] Hf Hq. constructor; simpl in *; try done.
  - intros ->. apply hg_name0. by destruct f.
  - intros ->. apply hg_query0. by destruct q.
Qed.

(** The members between two calls. *)
Record hp_inv (h : http_parser) : Prop := {
  hi_query : in_query (hp_cs h) = true -> 0 <= hp_query_start h < 2 ^ 31;
  hi_body : hp_body_start h = 0;
}.

(** One call, on a buffer that is not empty: where it stops. *)
Lemma http_run_good buf h :
  hp_inv h -> (0 < length buf)%nat -> Z.of_nat (length buf) < 2 ^ 31 ->
  let '(cs, p, s) := http_run (hp_uri_relaxed h) (hp_cs h) 0 buf
      (set_nread 0 (set_marks 0 0 0 (hp_query_start h) h), []) in
  (p <= length buf)%nat /\ hp_cs s.1 = hp_cs h /\ hp_nread s.1 = 0
  /\ exists k, hp_good k p (length buf) s
     /\ (cs <> 0 -> cs < http_parser_first_final -> hp_good (false, in_query cs, false) p (length buf) s).
Proof.
  intros [Hq Hb] Hlen Hmax. unfold http_run.
  set (I := fun cs p s => hp_good (in_value cs, in_query cs, false) p (length buf) s
       /\ hp_cs s.1 = hp_cs h /\ hp_nread s.1 = 0).
  set (F := fun cs p s => hp_cs s.1 = hp_cs h /\ hp_nread s.1 = 0
       /\ exists k, hp_good k p (length buf) s
          /\ (cs <> 0 -> cs < http_parser_first_final ->
              hp_good (false, in_query cs, false) p (length buf) s)).
  enough (I (hp_cs h) 0%nat (set_nread 0 (set_marks 0 0 0 (hp_query_start h) h), [])
    -> let '(cs', p', s') := run http_parser_code http_act http_breaks (hp_uri_relaxed h) (hp_cs h)
         0%nat buf (set_nread 0 (set_marks 0 0 0 (hp_query_start h) h), []) in
       F cs' p' s' /\ (p' <= length buf)%nat) as H.
  { destruct (run _ _ _ _ _ _ _ _) as [[cs p] s].
    destruct H as [[H1 [H2 H3]] H4]; [|by split_and!].
    split; [|done]. constructor; simpl; try done; try lia.  }
  intros HI. eapply run_invariant; [| | |exact HI|done].
  - intros cs p s [Hg Hk] Hp. split_and!; [apply Hk..|]. eexists. split; [done|].
    intros _ _. eapply hp_good_facts; [done|done|by destruct (in_query cs)].
  - intros cs p s [Hg Hk] Hp. split_and!; [apply Hk..|]. eexists. split; [done|].
    intros _ _. by eapply hp_good_facts.
  - intros cs p b s acts n [Hg Hk] Hp Hn. cbv zeta.
    pose proof (check_code_next _ _ _ _ _ _ _ (http_flow_ok _) Hn) as Hc. unfold http_flow in Hc.
    destruct (flow _ acts) as [[[f q] d]|] eqn:Hfl; [|done].
    pose proof (hp_good_actions acts _ _ p (length buf) s Hg Hp Hmax Hfl) as Hg'.
    destruct (http_act_keeps acts p (length buf) s) as [Ec En]. rewrite <- Ec, <- En in Hk.
    destruct (break_of http_breaks acts) as [cs'|].
    + split_and!; [apply Hk..|]. eexists. split; [eapply hp_good_weaken; [done|lia]|].
      apply Z.leb_le in Hc. lia.
    + apply andb_true_iff in Hc as [Hc Hiq]. apply andb_true_iff in Hc as [Hd Hiv].
      apply negb_true_iff in Hd as ->. split.
      * split_and!; [apply Hk..|]. eexists. split; [done|]. done.
      * split; [|done]. apply (hp_good_weaken _ p); [|lia]. by eapply hp_good_facts.
Qed.

Lemma assert_bind {B} b (f : unit -> outcome B) : b = true -> (assert b ≫= f) = f ().
Proof. by intros ->. Qed.

(** [http_parser_execute]: every assertion of the source holds, callbacks stay
    in the buffer (but for a query that began in an earlier buffer), and the
    invariant is kept until the machine finishes or fails. *)
Lemma http_execute_ok buf h :
  hp_inv h -> Z.of_nat (length buf) < 2 ^ 31 ->
  exists cs n h', http_parser_execute buf 0 h = Ok (cs, n, h') /\ (n <= length buf)%nat
    /\ Forall (call_in (length buf)) cs
    /\ (http_parser_has_error h' = false -> http_parser_is_finished h' = false -> hp_inv h').
Proof.
  intros Hinv Hmax. unfold http_parser_execute.
  destruct (Z.eqb_spec (Z.of_nat (length buf)) 0) as [E|E].
  { eexists _, _, _. split; [done|]. split_and!; [lia|done|done]. }
  pose proof (http_run_good buf h Hinv ltac:(lia) Hmax) as H.
  rewrite assert_bind by (apply Z.leb_le; lia).
  rewrite !i32_small, assert_bind by (unfold in_s; lia). cbn [drop].
  change (hp_uri_relaxed (set_nread 0 _)) with (hp_uri_relaxed h).
  change (hp_cs (set_nread 0 _)) with (hp_cs h).
  destruct (http_run _ _ _ _ _) as [[cs p] [h' calls]]. simpl in H.
  destruct H as (Hp & Ecs & En & k & Hg & Hu).
  rewrite assert_bind by (apply Z.leb_le; lia).
  set (h1 := if negb _ then _ else _).
  assert (hp_good k p (length buf) (h1, calls)) as [Hm Hf Hl _ _ Hb Hc].
  { subst h1. destruct (negb _); [|done]. by destruct Hg; constructor. }
  assert (hp_nread h1 = 0) as En1 by (subst h1; by destruct (negb _)). simpl in *.
  rewrite !assert_bind by (rewrite ?En1, ?Z.leb_le, ?Z.ltb_lt; simpl; lia). rewrite En1.
  eexists _, _, _. split; [done|]. split_and!; [lia|done|].
  subst h1. unfold http_parser_has_error, http_parser_is_finished in *. rewrite Ecs.
  destruct (Z.eqb_spec (hp_cs h) http_parser_error) as [E0|E0]; simpl; intros Herr Hfin.
  - exfalso. apply Z.eqb_neq in Herr. congruence.
  - apply Z.eqb_neq in Herr. apply Z.leb_gt in Hfin. destruct (Hu Herr Hfin) as [_ _ _ _ Hq Hb' _].
    constructor; simpl in *; [done|by apply Hb'].
Qed.

(** What a call returns, from the run of the machine. *)
Lemma http_execute_result buf h calls n h' cs p h1 calls1 :
  http_parser_execute buf 0 h = Ok (calls, n, h') -> buf <> [] -> http_parser_has_error h = false ->
  http_run (hp_uri_relaxed h) (hp_cs h) 0 buf (set_nread 0 (set_marks 0 0 0 (hp_query_start h) h), [])
    = (cs, p, (h1, calls1)) ->
  hp_cs h1 = hp_cs h -> hp_nread h1 = 0 ->
  calls = calls1 /\ n = p /\ hp_cs h' = cs.
Proof.
  intros H Hne He Hrun Hcs Hn. unfold http_parser_execute in H.
  destruct (Z.eqb_spec (Z.of_nat (length buf)) 0) as [E|_]; [destruct buf; simpl in *; [done|lia]|].
  apply bind_ok in H as ([] & _ & H). apply bind_ok in H as ([] & _ & H). rewrite drop_0 in H.
  change (hp_uri_relaxed (set_nread 0 _)) with (hp_uri_relaxed h) in H.
  change (hp_cs (set_nread 0 _)) with (hp_cs h) in H. rewrite Hrun in H.
  assert (http_parser_has_error h1 = false) as He1
    by (unfold http_parser_has_error in *; by rewrite Hcs).
  rewrite He1 in H. cbn [negb] in H.
  do 6 apply bind_ok in H as ([] & _ & H). simplify_eq/=. rewrite Hn. split_and!; [done|lia|done].
Qed.

(** ** The interface *)

Section instance.
Context (query_start0 : Z) (uri_relaxed0 : bool).

Definition http11_machine : Machine request_elem http_parser :=
  {| mach_init := http_parser_init query_start0 uri_relaxed0;
     mach_execute := fun buf h => http_parser_execute buf 0 h;
     mach_has_error := http_parser_has_error;
     mach_is_finished := http_parser_is_finished |}.

Definition http11_machine_laws : MachineLaws request_elem http_parser (Machine0 := http11_machine).
Proof.
  refine {| mach_inv := hp_inv |}.
  - by constructor.
  - intros buf m Hm Hb. destruct (http_execute_ok buf m Hm Hb) as (cs & n & h & H). by exists cs, n, h.
Defined.
End instance.
