(* ===== verification/HttpClientCode.v ===== *)
(** * The code of the response machine: [sylar/http/httpclient_parser.rl.cc]

    The labels of [httpclient_parser_execute] in the order of the source, in
    pieces named after the line they start at. *)

From stdpp Require Import base list.
From Stdlib Require Import ZArith.
From S2P Require Import Prelude Ragel.

Local Open Scope Z_scope.

(** The actions of the grammar.  [c_done] ends with [fbreak], into the state
    it names; [c_mark] is both [mark] and [start_value]. *)
Inductive client_action :=
  | c_mark | c_start_field | c_write_field | c_write_value | c_write_content_len
  | c_write_connection_close | c_reason_phrase | c_status_code | c_http_version
  | c_chunk_size | c_trans_chunked | c_done (cs : Z).

#[export] Instance client_action_eq_dec : EqDecision client_action.
Proof. solve_decision. Defined.

Definition httpclient_parser_122 : list (block client_action) := [
  Case 1 (fun r c => if c =? 72 then tr 2 else (if c <? 65 then (if within 48 57 c then tr 0 else st 0) else
        (if 70 <? c then (if within 97 102 c then tr 0 else st 0) else tr 0)));
  Tr 0 [c_mark] 2;
  Case 2 (fun r c => switch c [(10, tr 3); (13, tr 4); (59, tr 6)]
      (if c <? 65 then (if within 48 57 c then st 2 else st 0) else (if 70 <? c then (if within 97 102 c then
        st 2 else st 0) else st 2)));
  Tr 3 [c_chunk_size; c_done 120] 120;
  Tr 7 [c_done 120] 120;
  Tr 9 [c_write_field; c_mark; c_write_value; c_done 120] 120;
  Tr 15 [c_write_value; c_done 120] 120;
  Tr 74 [c_write_connection_close; c_done 120] 120;
  Case 120 (fun r c => st 0);
  Tr 4 [c_chunk_size] 3
].

Definition httpclient_parser_259 : list (block client_action) := [
  Tr 10 [c_write_field; c_mark; c_write_value] 3;
  Tr 16 [c_write_value] 3;
  Tr 75 [c_write_connection_close] 3;
  Case 3 (fun r c => if c =? 10 then tr 7 else st 0);
  Tr 6 [c_chunk_size] 4;
  Tr 12 [c_write_field; c_mark; c_write_value] 4;
  Tr 18 [c_write_value] 4;
  Case 4 (fun r c => switch c [(33, tr 8); (124, tr 8); (126, tr 8)]
      (if c <? 45 then (if 39 <? c then (if within 42 43 c then tr 8 else st 0) else (if 35 <=? c then tr 8
        else st 0)) else (if 46 <? c then (if c <? 65 then (if within 48 57 c then tr 8 else st 0) else (if
        90 <? c then (if within 94 122 c then tr 8 else st 0) else tr 8)) else tr 8)));
  Tr 8 [c_start_field] 5;
  Case 5 (fun r c => switch c [(10, tr 9); (13, tr 10); (33, st 5); (59, tr 12); (61, tr 13); (124, st 5);
        (126, st 5)]
      (if c <? 45 then (if 39 <? c then (if within 42 43 c then st 5 else st 0) else (if 35 <=? c then st 5
        else st 0)) else (if 46 <? c then (if c <? 65 then (if within 48 57 c then st 5 else st 0) else (if
        90 <? c then (if within 94 122 c then st 5 else st 0) else st 5)) else st 5)))
].

Definition httpclient_parser_395 : list (block client_action) := [
  Tr 13 [c_write_field; c_mark] 6;
  Case 6 (fun r c => switch c [(33, tr 14); (124, tr 14); (126, tr 14)]
      (if c <? 45 then (if 39 <? c then (if within 42 43 c then tr 14 else st 0) else (if 35 <=? c then tr 14
        else st 0)) else (if 46 <? c then (if c <? 65 then (if within 48 57 c then tr 14 else st 0) else (if
        90 <? c then (if within 94 122 c then tr 14 else st 0) else tr 14)) else tr 14)));
  Tr 14 [c_mark] 7;
  Case 7 (fun r c => switch c [(10, tr 15); (13, tr 16); (33, st 7); (59, tr 18); (124, st 7); (126, st 7)]
      (if c <? 45 then (if 39 <? c then (if within 42 43 c then st 7 else st 0) else (if 35 <=? c then st 7
        else st 0)) else (if 46 <? c then (if c <? 65 then (if within 48 57 c then st 7 else st 0) else (if
        90 <? c then (if within 94 122 c then st 7 else st 0) else st 7)) else st 7)));
  Tr 2 [c_mark] 8;
  Case 8 (fun r c => if c =? 84 then st 9 else st 0);
  Case 9 (fun r c => if c =? 84 then st 10 else st 0);
  Case 10 (fun r c => if c =? 80 then st 11 else st 0);
  Case 11 (fun r c => if c =? 47 then st 12 else st 0);
  Case 12 (fun r c => if within 48 57 c then st 13 else st 0);
  Case 13 (fun r c => if c =? 46 then st 14 else (if within 48 57 c then st 13 else st 0));
  Case 14 (fun r c => if within 48 57 c then st 15 else st 0);
  Case 15 (fun r c => if c =? 32 then tr 26 else (if within 48 57 c then st 15 else st 0))
].

Definition httpclient_parser_531 : list (block client_action) := [
  Tr 26 [c_http_version] 16;
  Case 16 (fun r c => if within 48 57 c then tr 27 else st 0);
  Tr 27 [c_mark] 17;
  Case 17 (fun r c => if c =? 32 then tr 28 else (if within 48 57 c then st 17 else st 0));
  Tr 28 [c_status_code] 18;
  Case 18 (fun r c => if c =? 10 then st 0 else tr 30);
  Tr 30 [c_mark] 19;
  Case 19 (fun r c => switch c [(10, tr 32); (13, tr 33)]
      (st 19));
  Tr 45 [c_write_value] 20;
  Tr 32 [c_reason_phrase] 20;
  Tr 42 [c_mark; c_write_value] 20;
  Tr 111 [c_write_value; c_trans_chunked] 20;
  Tr 113 [c_trans_chunked] 20;
  Tr 158 [c_write_content_len; c_write_value] 20
].

Definition httpclient_parser_646 : list (block client_action) := [
  Case 20 (fun r c => switch c [(10, tr 7); (13, st 3); (33, tr 35); (67, tr 36); (84, tr 37); (99, tr 36);
        (116, tr 37); (124, tr 35); (126, tr 35)]
      (if c <? 45 then (if 39 <? c then (if within 42 43 c then tr 35 else st 0) else (if 35 <=? c then tr 35
        else st 0)) else (if 46 <? c then (if c <? 65 then (if within 48 57 c then tr 35 else st 0) else (if
        90 <? c then (if within 94 122 c then tr 35 else st 0) else tr 35)) else tr 35)));
  Tr 35 [c_start_field] 21;
  Tr 76 [c_write_connection_close; c_start_field] 21;
  Case 21 (fun r c => switch c [(33, st 21); (58, tr 39); (124, st 21); (126, st 21)]
      (if c <? 45 then (if 39 <? c then (if within 42 43 c then st 21 else st 0) else (if 35 <=? c then st 21
        else st 0)) else (if 46 <? c then (if c <? 65 then (if within 48 57 c then st 21 else st 0) else (if
        90 <? c then (if within 94 122 c then st 21 else st 0) else st 21)) else st 21)));
  Tr 41 [c_mark] 22;
  Tr 39 [c_write_field] 22;
  Case 22 (fun r c => switch c [(10, tr 42); (13, tr 43); (32, tr 41)]
      (if within 9 12 c then tr 41 else tr 40));
  Tr 40 [c_mark] 23;
  Case 23 (fun r c => switch c [(10, tr 45); (13, tr 46)]
      (st 23));
  Tr 46 [c_write_value] 24;
  Tr 33 [c_reason_phrase] 24;
  Tr 43 [c_mark; c_write_value] 24
].

Definition httpclient_parser_783 : list (block client_action) := [
  Tr 159 [c_write_content_len; c_write_value] 24;
  Case 24 (fun r c => if c =? 10 then st 20 else st 0);
  Tr 36 [c_start_field] 25;
  Tr 77 [c_write_connection_close; c_start_field] 25;
  Case 25 (fun r c => switch c [(33, st 21); (58, tr 39); (79, st 26); (111, st 26); (124, st 21); (126,
        st 21)]
      (if c <? 45 then (if 39 <? c then (if within 42 43 c then st 21 else st 0) else (if 35 <=? c then st 21
        else st 0)) else (if 46 <? c then (if c <? 65 then (if within 48 57 c then st 21 else st 0) else (if
        90 <? c then (if within 94 122 c then st 21 else st 0) else st 21)) else st 21)));
  Case 26 (fun r c => switch c [(33, st 21); (58, tr 39); (78, st 27); (110, st 27); (124, st 21); (126,
        st 21)]
      (if c <? 45 then (if 39 <? c then (if within 42 43 c then st 21 else st 0) else (if 35 <=? c then st 21
        else st 0)) else (if 46 <? c then (if c <? 65 then (if within 48 57 c then st 21 else st 0) else (if
        90 <? c then (if within 94 122 c then st 21 else st 0) else st 21)) else st 21)));
  Case 27 (fun r c => switch c [(33, st 21); (58, tr 39); (78, st 28); (84, st 101); (110, st 28); (116,
        st 101); (124, st 21); (126, st 21)]
      (if c <? 45 then (if 39 <? c then (if within 42 43 c then st 21 else st 0) else (if 35 <=? c then st 21
        else st 0)) else (if 46 <? c then (if c <? 65 then (if within 48 57 c then st 21 else st 0) else (if
        90 <? c then (if within 94 122 c then st 21 else st 0) else st 21)) else st 21)))
].

Definition httpclient_parser_908 : list (block client_action) := [
  Case 28 (fun r c => switch c [(33, st 21); (58, tr 39); (69, st 29); (101, st 29); (124, st 21); (126,
        st 21)]
      (if c <? 45 then (if 39 <? c then (if within 42 43 c then st 21 else st 0) else (if 35 <=? c then st 21
        else st 0)) else (if 46 <? c then (if c <? 65 then (if within 48 57 c then st 21 else st 0) else (if
        90 <? c then (if within 94 122 c then st 21 else st 0) else st 21)) else st 21)));
  Case 29 (fun r c => switch c [(33, st 21); (58, tr 39); (67, st 30); (99, st 30); (124, st 21); (126,
        st 21)]
      (if c <? 45 then (if 39 <? c then (if within 42 43 c then st 21 else st 0) else (if 35 <=? c then st 21
        else st 0)) else (if 46 <? c then (if c <? 65 then (if within 48 57 c then st 21 else st 0) else (if
        90 <? c then (if within 94 122 c then st 21 else st 0) else st 21)) else st 21)));
  Case 30 (fun r c => switch c [(33, st 21); (58, tr 39); (84, st 31); (116, st 31); (124, st 21); (126,
        st 21)]
      (if c <? 45 then (if 39 <? c then (if within 42 43 c then st 21 else st 0) else (if 35 <=? c then st 21
        else st 0)) else (if 46 <? c then (if c <? 65 then (if within 48 57 c then st 21 else st 0) else (if
        90 <? c then (if within 94 122 c then st 21 else st 0) else st 21)) else st 21)));
  Case 31 (fun r c => switch c [(33, st 21); (58, tr 39); (73, st 32); (105, st 32); (124, st 21); (126,
        st 21)]
      (if c <? 45 then (if 39 <? c then (if within 42 43 c then st 21 else st 0) else (if 35 <=? c then st 21
        else st 0)) else (if 46 <? c then (if c <? 65 then (if within 48 57 c then st 21 else st 0) else (if
        90 <? c then (if within 94 122 c then st 21 else st 0) else st 21)) else st 21)))
].

Definition httpclient_parser_1028 : list (block client_action) := [
  Case 32 (fun r c => switch c [(33, st 21); (58, tr 39); (79, st 33); (111, st 33); (124, st 21); (126,
        st 21)]
      (if c <? 45 then (if 39 <? c then (if within 42 43 c then st 21 else st 0) else (if 35 <=? c then st 21
        else st 0)) else (if 46 <? c then (if c <? 65 then (if within 48 57 c then st 21 else st 0) else (if
        90 <? c then (if within 94 122 c then st 21 else st 0) else st 21)) else st 21)));
  Case 33 (fun r c => switch c [(33, st 21); (58, tr 39); (78, st 34); (110, st 34); (124, st 21); (126,
        st 21)]
      (if c <? 45 then (if 39 <? c then (if within 42 43 c then st 21 else st 0) else (if 35 <=? c then st 21
        else st 0)) else (if 46 <? c then (if c <? 65 then (if within 48 57 c then st 21 else st 0) else (if
        90 <? c then (if within 94 122 c then st 21 else st 0) else st 21)) else st 21)));
  Case 34 (fun r c => switch c [(33, st 21); (58, tr 58); (124, st 21); (126, st 21)]
      (if c <? 45 then (if 39 <? c then (if within 42 43 c then st 21 else st 0) else (if 35 <=? c then st 21
        else st 0)) else (if 46 <? c then (if c <? 65 then (if within 48 57 c then st 21 else st 0) else (if
        90 <? c then (if within 94 122 c then st 21 else st 0) else st 21)) else st 21)));
  Tr 59 [c_mark] 35;
  Tr 58 [c_write_field] 35;
  Case 35 (fun r c => switch c [(10, tr 60); (13, tr 61); (32, tr 59); (67, tr 62); (99, tr 62)]
      (if within 9 12 c then tr 59 else tr 40));
  Tr 60 [c_mark; c_write_value] 36
].

Definition httpclient_parser_1151 : list (block client_action) := [
  Case 36 (fun r c => switch c [(10, tr 64); (13, st 89); (32, st 37); (33, tr 35); (67, tr 66); (84, tr 37);
        (99, tr 66); (116, tr 37); (124, tr 35); (126, tr 35)]
      (if c <? 45 then (if c <? 35 then (if within 9 12 c then st 37 else st 0) else (if 39 <? c then (if
        within 42 43 c then tr 35 else st 0) else tr 35)) else (if 46 <? c then (if c <? 65 then (if within
        48 57 c then tr 35 else st 0) else (if 90 <? c then (if within 94 122 c then tr 35 else st 0) else
        tr 35)) else tr 35)));
  Case 37 (fun r c => switch c [(32, st 37); (67, st 38); (99, st 38)]
      (if within 9 13 c then st 37 else st 0));
  Case 38 (fun r c => switch c [(76, st 39); (108, st 39)]
      (st 0));
  Case 39 (fun r c => switch c [(79, st 40); (111, st 40)]
      (st 0));
  Case 40 (fun r c => switch c [(83, st 41); (115, st 41)]
      (st 0));
  Case 41 (fun r c => switch c [(69, st 42); (101, st 42)]
      (st 0));
  Case 42 (fun r c => switch c [(10, st 43); (13, st 88)]
      (st 0));
  Tr 136 [c_write_value] 43;
  Case 43 (fun r c => switch c [(10, tr 74); (13, tr 75); (33, tr 76); (67, tr 77); (84, tr 78); (99, tr 77);
        (116, tr 78); (124, tr 76); (126, tr 76)]
      (if c <? 45 then (if 39 <? c then (if within 42 43 c then tr 76 else st 0) else (if 35 <=? c then tr 76
        else st 0)) else (if 46 <? c then (if c <? 65 then (if within 48 57 c then tr 76 else st 0) else (if
        90 <? c then (if within 94 122 c then tr 76 else st 0) else tr 76)) else tr 76)))
].

Definition httpclient_parser_1288 : list (block client_action) := [
  Tr 37 [c_start_field] 44;
  Tr 78 [c_write_connection_close; c_start_field] 44;
  Case 44 (fun r c => switch c [(33, st 21); (58, tr 39); (82, st 45); (114, st 45); (124, st 21); (126,
        st 21)]
      (if c <? 45 then (if 39 <? c then (if within 42 43 c then st 21 else st 0) else (if 35 <=? c then st 21
        else st 0)) else (if 46 <? c then (if c <? 65 then (if within 48 57 c then st 21 else st 0) else (if
        90 <? c then (if within 94 122 c then st 21 else st 0) else st 21)) else st 21)));
  Case 45 (fun r c => switch c [(33, st 21); (58, tr 39); (65, st 46); (97, st 46); (124, st 21); (126,
        st 21)]
      (if c <? 45 then (if 39 <? c then (if within 42 43 c then st 21 else st 0) else (if 35 <=? c then st 21
        else st 0)) else (if 46 <? c then (if c <? 66 then (if within 48 57 c then st 21 else st 0) else (if
        90 <? c then (if within 94 122 c then st 21 else st 0) else st 21)) else st 21)));
  Case 46 (fun r c => switch c [(33, st 21); (58, tr 39); (78, st 47); (110, st 47); (124, st 21); (126,
        st 21)]
      (if c <? 45 then (if 39 <? c then (if within 42 43 c then st 21 else st 0) else (if 35 <=? c then st 21
        else st 0)) else (if 46 <? c then (if c <? 65 then (if within 48 57 c then st 21 else st 0) else (if
        90 <? c then (if within 94 122 c then st 21 else st 0) else st 21)) else st 21)));
  Case 47 (fun r c => switch c [(33, st 21); (58, tr 39); (83, st 48); (115, st 48); (124, st 21); (126,
        st 21)]
      (if c <? 45 then (if 39 <? c then (if within 42 43 c then st 21 else st 0) else (if 35 <=? c then st 21
        else st 0)) else (if 46 <? c then (if c <? 65 then (if within 48 57 c then st 21 else st 0) else (if
        90 <? c then (if within 94 122 c then st 21 else st 0) else st 21)) else st 21)))
].

Definition httpclient_parser_1421 : list (block client_action) := [
  Case 48 (fun r c => switch c [(33, st 21); (58, tr 39); (70, st 49); (102, st 49); (124, st 21); (126,
        st 21)]
      (if c <? 45 then (if 39 <? c then (if within 42 43 c then st 21 else st 0) else (if 35 <=? c then st 21
        else st 0)) else (if 46 <? c then (if c <? 65 then (if within 48 57 c then st 21 else st 0) else (if
        90 <? c then (if within 94 122 c then st 21 else st 0) else st 21)) else st 21)));
  Case 49 (fun r c => switch c [(33, st 21); (58, tr 39); (69, st 50); (101, st 50); (124, st 21); (126,
        st 21)]
      (if c <? 45 then (if 39 <? c then (if within 42 43 c then st 21 else st 0) else (if 35 <=? c then st 21
        else st 0)) else (if 46 <? c then (if c <? 65 then (if within 48 57 c then st 21 else st 0) else (if
        90 <? c then (if within 94 122 c then st 21 else st 0) else st 21)) else st 21)));
  Case 50 (fun r c => switch c [(33, st 21); (58, tr 39); (82, st 51); (114, st 51); (124, st 21); (126,
        st 21)]
      (if c <? 45 then (if 39 <? c then (if within 42 43 c then st 21 else st 0) else (if 35 <=? c then st 21
        else st 0)) else (if 46 <? c then (if c <? 65 then (if within 48 57 c then st 21 else st 0) else (if
        90 <? c then (if within 94 122 c then st 21 else st 0) else st 21)) else st 21)));
  Case 51 (fun r c => switch c [(33, st 21); (45, st 52); (46, st 21); (58, tr 39); (124, st 21); (126,
        st 21)]
      (if c <? 48 then (if 39 <? c then (if within 42 43 c then st 21 else st 0) else (if 35 <=? c then st 21
        else st 0)) else (if 57 <? c then (if 90 <? c then (if within 94 122 c then st 21 else st 0) else (if
        65 <=? c then st 21 else st 0)) else st 21)))
].

Definition httpclient_parser_1538 : list (block client_action) := [
  Case 52 (fun r c => switch c [(33, st 21); (58, tr 39); (69, st 53); (101, st 53); (124, st 21); (126,
        st 21)]
      (if c <? 45 then (if 39 <? c then (if within 42 43 c then st 21 else st 0) else (if 35 <=? c then st 21
        else st 0)) else (if 46 <? c then (if c <? 65 then (if within 48 57 c then st 21 else st 0) else (if
        90 <? c then (if within 94 122 c then st 21 else st 0) else st 21)) else st 21)));
  Case 53 (fun r c => switch c [(33, st 21); (58, tr 39); (78, st 54); (110, st 54); (124, st 21); (126,
        st 21)]
      (if c <? 45 then (if 39 <? c then (if within 42 43 c then st 21 else st 0) else (if 35 <=? c then st 21
        else st 0)) else (if 46 <? c then (if c <? 65 then (if within 48 57 c then st 21 else st 0) else (if
        90 <? c then (if within 94 122 c then st 21 else st 0) else st 21)) else st 21)));
  Case 54 (fun r c => switch c [(33, st 21); (58, tr 39); (67, st 55); (99, st 55); (124, st 21); (126,
        st 21)]
      (if c <? 45 then (if 39 <? c then (if within 42 43 c then st 21 else st 0) else (if 35 <=? c then st 21
        else st 0)) else (if 46 <? c then (if c <? 65 then (if within 48 57 c then st 21 else st 0) else (if
        90 <? c then (if within 94 122 c then st 21 else st 0) else st 21)) else st 21)));
  Case 55 (fun r c => switch c [(33, st 21); (58, tr 39); (79, st 56); (111, st 56); (124, st 21); (126,
        st 21)]
      (if c <? 45 then (if 39 <? c then (if within 42 43 c then st 21 else st 0) else (if 35 <=? c then st 21
        else st 0)) else (if 46 <? c then (if c <? 65 then (if within 48 57 c then st 21 else st 0) else (if
        90 <? c then (if within 94 122 c then st 21 else st 0) else st 21)) else st 21)))
].

Definition httpclient_parser_1658 : list (block client_action) := [
  Case 56 (fun r c => switch c [(33, st 21); (58, tr 39); (68, st 57); (100, st 57); (124, st 21); (126,
        st 21)]
      (if c <? 45 then (if 39 <? c then (if within 42 43 c then st 21 else st 0) else (if 35 <=? c then st 21
        else st 0)) else (if 46 <? c then (if c <? 65 then (if within 48 57 c then st 21 else st 0) else (if
        90 <? c then (if within 94 122 c then st 21 else st 0) else st 21)) else st 21)));
  Case 57 (fun r c => switch c [(33, st 21); (58, tr 39); (73, st 58); (105, st 58); (124, st 21); (126,
        st 21)]
      (if c <? 45 then (if 39 <? c then (if within 42 43 c then st 21 else st 0) else (if 35 <=? c then st 21
        else st 0)) else (if 46 <? c then (if c <? 65 then (if within 48 57 c then st 21 else st 0) else (if
        90 <? c then (if within 94 122 c then st 21 else st 0) else st 21)) else st 21)));
  Case 58 (fun r c => switch c [(33, st 21); (58, tr 39); (78, st 59); (110, st 59); (124, st 21); (126,
        st 21)]
      (if c <? 45 then (if 39 <? c then (if within 42 43 c then st 21 else st 0) else (if 35 <=? c then st 21
        else st 0)) else (if 46 <? c then (if c <? 65 then (if within 48 57 c then st 21 else st 0) else (if
        90 <? c then (if within 94 122 c then st 21 else st 0) else st 21)) else st 21)));
  Case 59 (fun r c => switch c [(33, st 21); (58, tr 39); (71, st 60); (103, st 60); (124, st 21); (126,
        st 21)]
      (if c <? 45 then (if 39 <? c then (if within 42 43 c then st 21 else st 0) else (if 35 <=? c then st 21
        else st 0)) else (if 46 <? c then (if c <? 65 then (if within 48 57 c then st 21 else st 0) else (if
        90 <? c then (if within 94 122 c then st 21 else st 0) else st 21)) else st 21)))
].

Definition httpclient_parser_1778 : list (block client_action) := [
  Case 60 (fun r c => switch c [(33, st 21); (58, tr 95); (124, st 21); (126, st 21)]
      (if c <? 45 then (if 39 <? c then (if within 42 43 c then st 21 else st 0) else (if 35 <=? c then st 21
        else st 0)) else (if 46 <? c then (if c <? 65 then (if within 48 57 c then st 21 else st 0) else (if
        90 <? c then (if within 94 122 c then st 21 else st 0) else st 21)) else st 21)));
  Tr 96 [c_mark] 61;
  Tr 95 [c_write_field] 61;
  Case 61 (fun r c => switch c [(10, tr 97); (13, tr 98); (32, tr 96); (67, tr 99); (99, tr 99)]
      (if within 9 12 c then tr 96 else tr 40));
  Tr 97 [c_mark; c_write_value] 62;
  Case 62 (fun r c => switch c [(10, tr 101); (13, st 72); (32, st 63); (33, tr 35); (67, tr 103); (84,
        tr 37); (99, tr 103); (116, tr 37); (124, tr 35); (126, tr 35)]
      (if c <? 45 then (if c <? 35 then (if within 9 12 c then st 63 else st 0) else (if 39 <? c then (if
        within 42 43 c then tr 35 else st 0) else tr 35)) else (if 46 <? c then (if c <? 65 then (if within
        48 57 c then tr 35 else st 0) else (if 90 <? c then (if within 94 122 c then tr 35 else st 0) else
        tr 35)) else tr 35)));
  Case 63 (fun r c => switch c [(32, st 63); (67, tr 104); (99, tr 104)]
      (if within 9 13 c then st 63 else st 0));
  Tr 104 [c_mark] 64;
  Case 64 (fun r c => switch c [(72, st 65); (104, st 65)]
      (st 0));
  Case 65 (fun r c => switch c [(85, st 66); (117, st 66)]
      (st 0))
].

Definition httpclient_parser_1914 : list (block client_action) := [
  Case 66 (fun r c => switch c [(78, st 67); (110, st 67)]
      (st 0));
  Case 67 (fun r c => switch c [(75, st 68); (107, st 68)]
      (st 0));
  Case 68 (fun r c => switch c [(69, st 69); (101, st 69)]
      (st 0));
  Case 69 (fun r c => switch c [(68, st 70); (100, st 70)]
      (st 0));
  Case 70 (fun r c => switch c [(10, tr 111); (13, tr 112)]
      (st 0));
  Tr 112 [c_write_value] 71;
  Case 71 (fun r c => if c =? 10 then tr 113 else st 0);
  Tr 101 [c_done 121] 121;
  Case 121 (fun r c => switch c [(32, st 63); (67, tr 104); (99, tr 104)]
      (if within 9 13 c then st 63 else st 0));
  Case 72 (fun r c => switch c [(10, tr 101); (32, st 63); (67, tr 104); (99, tr 104)]
      (if within 9 13 c then st 63 else st 0));
  Tr 103 [c_mark; c_start_field] 73;
  Case 73 (fun r c => switch c [(33, st 21); (58, tr 39); (72, st 74); (79, st 26); (104, st 74); (111,
        st 26); (124, st 21); (126, st 21)]
      (if c <? 45 then (if 39 <? c then (if within 42 43 c then st 21 else st 0) else (if 35 <=? c then st 21
        else st 0)) else (if 46 <? c then (if c <? 65 then (if within 48 57 c then st 21 else st 0) else (if
        90 <? c then (if within 94 122 c then st 21 else st 0) else st 21)) else st 21)))
].

Definition httpclient_parser_2049 : list (block client_action) := [
  Case 74 (fun r c => switch c [(33, st 21); (58, tr 39); (85, st 75); (117, st 75); (124, st 21); (126,
        st 21)]
      (if c <? 45 then (if 39 <? c then (if within 42 43 c then st 21 else st 0) else (if 35 <=? c then st 21
        else st 0)) else (if 46 <? c then (if c <? 65 then (if within 48 57 c then st 21 else st 0) else (if
        90 <? c then (if within 94 122 c then st 21 else st 0) else st 21)) else st 21)));
  Case 75 (fun r c => switch c [(33, st 21); (58, tr 39); (78, st 76); (110, st 76); (124, st 21); (126,
        st 21)]
      (if c <? 45 then (if 39 <? c then (if within 42 43 c then st 21 else st 0) else (if 35 <=? c then st 21
        else st 0)) else (if 46 <? c then (if c <? 65 then (if within 48 57 c then st 21 else st 0) else (if
        90 <? c then (if within 94 122 c then st 21 else st 0) else st 21)) else st 21)));
  Case 76 (fun r c => switch c [(33, st 21); (58, tr 39); (75, st 77); (107, st 77); (124, st 21); (126,
        st 21)]
      (if c <? 45 then (if 39 <? c then (if within 42 43 c then st 21 else st 0) else (if 35 <=? c then st 21
        else st 0)) else (if 46 <? c then (if c <? 65 then (if within 48 57 c then st 21 else st 0) else (if
        90 <? c then (if within 94 122 c then st 21 else st 0) else st 21)) else st 21)));
  Case 77 (fun r c => switch c [(33, st 21); (58, tr 39); (69, st 78); (101, st 78); (124, st 21); (126,
        st 21)]
      (if c <? 45 then (if 39 <? c then (if within 42 43 c then st 21 else st 0) else (if 35 <=? c then st 21
        else st 0)) else (if 46 <? c then (if c <? 65 then (if within 48 57 c then st 21 else st 0) else (if
        90 <? c then (if within 94 122 c then st 21 else st 0) else st 21)) else st 21)))
].

Definition httpclient_parser_2169 : list (block client_action) := [
  Case 78 (fun r c => switch c [(33, st 21); (58, tr 39); (68, st 79); (100, st 79); (124, st 21); (126,
        st 21)]
      (if c <? 45 then (if 39 <? c then (if within 42 43 c then st 21 else st 0) else (if 35 <=? c then st 21
        else st 0)) else (if 46 <? c then (if c <? 65 then (if within 48 57 c then st 21 else st 0) else (if
        90 <? c then (if within 94 122 c then st 21 else st 0) else st 21)) else st 21)));
  Case 79 (fun r c => switch c [(10, tr 111); (13, tr 112); (33, st 21); (58, tr 39); (124, st 21); (126,
        st 21)]
      (if c <? 45 then (if 39 <? c then (if within 42 43 c then st 21 else st 0) else (if 35 <=? c then st 21
        else st 0)) else (if 46 <? c then (if c <? 65 then (if within 48 57 c then st 21 else st 0) else (if
        90 <? c then (if within 94 122 c then st 21 else st 0) else st 21)) else st 21)));
  Tr 98 [c_mark; c_write_value] 80;
  Case 80 (fun r c => switch c [(10, st 62); (32, st 63); (67, tr 104); (99, tr 104)]
      (if within 9 13 c then st 63 else st 0));
  Tr 99 [c_mark] 81;
  Case 81 (fun r c => switch c [(10, tr 45); (13, tr 46); (72, st 82); (104, st 82)]
      (st 23));
  Case 82 (fun r c => switch c [(10, tr 45); (13, tr 46); (85, st 83); (117, st 83)]
      (st 23));
  Case 83 (fun r c => switch c [(10, tr 45); (13, tr 46); (78, st 84); (110, st 84)]
      (st 23));
  Case 84 (fun r c => switch c [(10, tr 45); (13, tr 46); (75, st 85); (107, st 85)]
      (st 23))
].

Definition httpclient_parser_2302 : list (block client_action) := [
  Case 85 (fun r c => switch c [(10, tr 45); (13, tr 46); (69, st 86); (101, st 86)]
      (st 23));
  Case 86 (fun r c => switch c [(10, tr 45); (13, tr 46); (68, st 87); (100, st 87)]
      (st 23));
  Case 87 (fun r c => switch c [(10, tr 111); (13, tr 112)]
      (st 23));
  Tr 137 [c_write_value] 88;
  Case 88 (fun r c => if c =? 10 then st 43 else st 0);
  Tr 64 [c_done 122] 122;
  Case 122 (fun r c => switch c [(32, st 37); (67, st 38); (99, st 38)]
      (if within 9 13 c then st 37 else st 0));
  Case 89 (fun r c => switch c [(10, tr 64); (32, st 37); (67, st 38); (99, st 38)]
      (if within 9 13 c then st 37 else st 0));
  Tr 66 [c_start_field] 90;
  Case 90 (fun r c => switch c [(33, st 21); (58, tr 39); (76, st 91); (79, st 26); (108, st 91); (111,
        st 26); (124, st 21); (126, st 21)]
      (if c <? 45 then (if 39 <? c then (if within 42 43 c then st 21 else st 0) else (if 35 <=? c then st 21
        else st 0)) else (if 46 <? c then (if c <? 65 then (if within 48 57 c then st 21 else st 0) else (if
        90 <? c then (if within 94 122 c then st 21 else st 0) else st 21)) else st 21)))
].

Definition httpclient_parser_2421 : list (block client_action) := [
  Case 91 (fun r c => switch c [(33, st 21); (58, tr 39); (79, st 92); (111, st 92); (124, st 21); (126,
        st 21)]
      (if c <? 45 then (if 39 <? c then (if within 42 43 c then st 21 else st 0) else (if 35 <=? c then st 21
        else st 0)) else (if 46 <? c then (if c <? 65 then (if within 48 57 c then st 21 else st 0) else (if
        90 <? c then (if within 94 122 c then st 21 else st 0) else st 21)) else st 21)));
  Case 92 (fun r c => switch c [(33, st 21); (58, tr 39); (83, st 93); (115, st 93); (124, st 21); (126,
        st 21)]
      (if c <? 45 then (if 39 <? c then (if within 42 43 c then st 21 else st 0) else (if 35 <=? c then st 21
        else st 0)) else (if 46 <? c then (if c <? 65 then (if within 48 57 c then st 21 else st 0) else (if
        90 <? c then (if within 94 122 c then st 21 else st 0) else st 21)) else st 21)));
  Case 93 (fun r c => switch c [(33, st 21); (58, tr 39); (69, st 94); (101, st 94); (124, st 21); (126,
        st 21)]
      (if c <? 45 then (if 39 <? c then (if within 42 43 c then st 21 else st 0) else (if 35 <=? c then st 21
        else st 0)) else (if 46 <? c then (if c <? 65 then (if within 48 57 c then st 21 else st 0) else (if
        90 <? c then (if within 94 122 c then st 21 else st 0) else st 21)) else st 21)));
  Case 94 (fun r c => switch c [(10, st 43); (13, st 88); (33, st 21); (58, tr 39); (124, st 21); (126,
        st 21)]
      (if c <? 45 then (if 39 <? c then (if within 42 43 c then st 21 else st 0) else (if 35 <=? c then st 21
        else st 0)) else (if 46 <? c then (if c <? 65 then (if within 48 57 c then st 21 else st 0) else (if
        90 <? c then (if within 94 122 c then st 21 else st 0) else st 21)) else st 21)));
  Tr 61 [c_mark; c_write_value] 95
].

Definition httpclient_parser_2551 : list (block client_action) := [
  Case 95 (fun r c => switch c [(10, st 36); (32, st 37); (67, st 38); (99, st 38)]
      (if within 9 13 c then st 37 else st 0));
  Tr 62 [c_mark] 96;
  Case 96 (fun r c => switch c [(10, tr 45); (13, tr 46); (76, st 97); (108, st 97)]
      (st 23));
  Case 97 (fun r c => switch c [(10, tr 45); (13, tr 46); (79, st 98); (111, st 98)]
      (st 23));
  Case 98 (fun r c => switch c [(10, tr 45); (13, tr 46); (83, st 99); (115, st 99)]
      (st 23));
  Case 99 (fun r c => switch c [(10, tr 45); (13, tr 46); (69, st 100); (101, st 100)]
      (st 23));
  Case 100 (fun r c => switch c [(10, tr 136); (13, tr 137)]
      (st 23));
  Case 101 (fun r c => switch c [(33, st 21); (58, tr 39); (69, st 102); (101, st 102); (124, st 21); (126,
        st 21)]
      (if c <? 45 then (if 39 <? c then (if within 42 43 c then st 21 else st 0) else (if 35 <=? c then st 21
        else st 0)) else (if 46 <? c then (if c <? 65 then (if within 48 57 c then st 21 else st 0) else (if
        90 <? c then (if within 94 122 c then st 21 else st 0) else st 21)) else st 21)));
  Case 102 (fun r c => switch c [(33, st 21); (58, tr 39); (78, st 103); (110, st 103); (124, st 21); (126,
        st 21)]
      (if c <? 45 then (if 39 <? c then (if within 42 43 c then st 21 else st 0) else (if 35 <=? c then st 21
        else st 0)) else (if 46 <? c then (if c <? 65 then (if within 48 57 c then st 21 else st 0) else (if
        90 <? c then (if within 94 122 c then st 21 else st 0) else st 21)) else st 21)))
].

Definition httpclient_parser_2683 : list (block client_action) := [
  Case 103 (fun r c => switch c [(33, st 21); (58, tr 39); (84, st 104); (116, st 104); (124, st 21); (126,
        st 21)]
      (if c <? 45 then (if 39 <? c then (if within 42 43 c then st 21 else st 0) else (if 35 <=? c then st 21
        else st 0)) else (if 46 <? c then (if c <? 65 then (if within 48 57 c then st 21 else st 0) else (if
        90 <? c then (if within 94 122 c then st 21 else st 0) else st 21)) else st 21)));
  Case 104 (fun r c => switch c [(33, st 21); (45, st 105); (46, st 21); (58, tr 39); (124, st 21); (126,
        st 21)]
      (if c <? 48 then (if 39 <? c then (if within 42 43 c then st 21 else st 0) else (if 35 <=? c then st 21
        else st 0)) else (if 57 <? c then (if 90 <? c then (if within 94 122 c then st 21 else st 0) else (if
        65 <=? c then st 21 else st 0)) else st 21)));
  Case 105 (fun r c => switch c [(33, st 21); (58, tr 39); (76, st 106); (108, st 106); (124, st 21); (126,
        st 21)]
      (if c <? 45 then (if 39 <? c then (if within 42 43 c then st 21 else st 0) else (if 35 <=? c then st 21
        else st 0)) else (if 46 <? c then (if c <? 65 then (if within 48 57 c then st 21 else st 0) else (if
        90 <? c then (if within 94 122 c then st 21 else st 0) else st 21)) else st 21)));
  Case 106 (fun r c => switch c [(33, st 21); (58, tr 39); (69, st 107); (101, st 107); (124, st 21); (126,
        st 21)]
      (if c <? 45 then (if 39 <? c then (if within 42 43 c then st 21 else st 0) else (if 35 <=? c then st 21
        else st 0)) else (if 46 <? c then (if c <? 65 then (if within 48 57 c then st 21 else st 0) else (if
        90 <? c then (if within 94 122 c then st 21 else st 0) else st 21)) else st 21)))
].

Definition httpclient_parser_2800 : list (block client_action) := [
  Case 107 (fun r c => switch c [(33, st 21); (58, tr 39); (78, st 108); (110, st 108); (124, st 21); (126,
        st 21)]
      (if c <? 45 then (if 39 <? c then (if within 42 43 c then st 21 else st 0) else (if 35 <=? c then st 21
        else st 0)) else (if 46 <? c then (if c <? 65 then (if within 48 57 c then st 21 else st 0) else (if
        90 <? c then (if within 94 122 c then st 21 else st 0) else st 21)) else st 21)));
  Case 108 (fun r c => switch c [(33, st 21); (58, tr 39); (71, st 109); (103, st 109); (124, st 21); (126,
        st 21)]
      (if c <? 45 then (if 39 <? c then (if within 42 43 c then st 21 else st 0) else (if 35 <=? c then st 21
        else st 0)) else (if 46 <? c then (if c <? 65 then (if within 48 57 c then st 21 else st 0) else (if
        90 <? c then (if within 94 122 c then st 21 else st 0) else st 21)) else st 21)));
  Case 109 (fun r c => switch c [(33, st 21); (58, tr 39); (84, st 110); (116, st 110); (124, st 21); (126,
        st 21)]
      (if c <? 45 then (if 39 <? c then (if within 42 43 c then st 21 else st 0) else (if 35 <=? c then st 21
        else st 0)) else (if 46 <? c then (if c <? 65 then (if within 48 57 c then st 21 else st 0) else (if
        90 <? c then (if within 94 122 c then st 21 else st 0) else st 21)) else st 21)));
  Case 110 (fun r c => switch c [(33, st 21); (58, tr 39); (72, st 111); (104, st 111); (124, st 21); (126,
        st 21)]
      (if c <? 45 then (if 39 <? c then (if within 42 43 c then st 21 else st 0) else (if 35 <=? c then st 21
        else st 0)) else (if 46 <? c then (if c <? 65 then (if within 48 57 c then st 21 else st 0) else (if
        90 <? c then (if within 94 122 c then st 21 else st 0) else st 21)) else st 21)))
].

Definition httpclient_parser_2920 : list (block client_action) := [
  Case 111 (fun r c => switch c [(33, st 21); (58, tr 148); (124, st 21); (126, st 21)]
      (if c <? 45 then (if 39 <? c then (if within 42 43 c then st 21 else st 0) else (if 35 <=? c then st 21
        else st 0)) else (if 46 <? c then (if c <? 65 then (if within 48 57 c then st 21 else st 0) else (if
        90 <? c then (if within 94 122 c then st 21 else st 0) else st 21)) else st 21)));
  Tr 149 [c_mark] 112;
  Tr 148 [c_write_field] 112;
  Case 112 (fun r c => switch c [(10, tr 150); (13, tr 151); (32, tr 149)]
      (if 12 <? c then (if within 48 57 c then tr 152 else tr 40) else (if 9 <=? c then tr 149 else tr 40)));
  Tr 150 [c_mark; c_write_value] 113;
  Case 113 (fun r c => switch c [(10, tr 154); (13, st 116); (32, st 114); (33, tr 35); (67, tr 36); (84,
        tr 37); (99, tr 36); (116, tr 37); (124, tr 35); (126, tr 35)]
      (if c <? 45 then (if c <? 35 then (if within 9 12 c then st 114 else st 0) else (if 39 <? c then (if
        within 42 43 c then tr 35 else st 0) else tr 35)) else (if 46 <? c then (if c <? 65 then (if within
        48 57 c then tr 156 else st 0) else (if 90 <? c then (if within 94 122 c then tr 35 else st 0) else
        tr 35)) else tr 35)));
  Case 114 (fun r c => if c =? 32 then st 114 else (if 13 <? c then (if within 48 57 c then tr 157 else st 0)
        else (if 9 <=? c then st 114 else st 0)));
  Tr 157 [c_mark] 115;
  Case 115 (fun r c => switch c [(10, tr 158); (13, tr 159)]
      (if within 48 57 c then st 115 else st 0));
  Tr 154 [c_done 123] 123
].

Definition httpclient_parser_3059 : list (block client_action) := [
  Case 123 (fun r c => if c =? 32 then st 114 else (if 13 <? c then (if within 48 57 c then tr 157 else st 0)
        else (if 9 <=? c then st 114 else st 0)));
  Case 116 (fun r c => switch c [(10, tr 154); (32, st 114)]
      (if 13 <? c then (if within 48 57 c then tr 157 else st 0) else (if 9 <=? c then st 114 else st 0)));
  Tr 156 [c_mark; c_start_field] 117;
  Case 117 (fun r c => switch c [(10, tr 158); (13, tr 159); (33, st 21); (58, tr 39); (124, st 21); (126,
        st 21)]
      (if c <? 45 then (if 39 <? c then (if within 42 43 c then st 21 else st 0) else (if 35 <=? c then st 21
        else st 0)) else (if 46 <? c then (if c <? 65 then (if within 48 57 c then st 117 else st 0) else (if
        90 <? c then (if within 94 122 c then st 21 else st 0) else st 21)) else st 21)));
  Tr 151 [c_mark; c_write_value] 118;
  Case 118 (fun r c => switch c [(10, st 113); (32, st 114)]
      (if 13 <? c then (if within 48 57 c then tr 157 else st 0) else (if 9 <=? c then st 114 else st 0)));
  Tr 152 [c_mark] 119;
  Case 119 (fun r c => switch c [(10, tr 158); (13, tr 159)]
      (if within 48 57 c then st 119 else st 23))
].

Definition httpclient_parser_code : list (block client_action) :=
  httpclient_parser_122 ++ httpclient_parser_259 ++ httpclient_parser_395 ++ httpclient_parser_531 ++
    httpclient_parser_646 ++ httpclient_parser_783 ++ httpclient_parser_908 ++
    httpclient_parser_1028 ++ httpclient_parser_1151 ++ httpclient_parser_1288 ++
    httpclient_parser_1421 ++ httpclient_parser_1538 ++ httpclient_parser_1658 ++
    httpclient_parser_1778 ++ httpclient_parser_1914 ++ httpclient_parser_2049 ++
    httpclient_parser_2169 ++ httpclient_parser_2302 ++ httpclient_parser_2421 ++
    httpclient_parser_2551 ++ httpclient_parser_2683 ++ httpclient_parser_2800 ++
    httpclient_parser_2920 ++ httpclient_parser_3059.
