(* ===== verification/HttpClientParser.v ===== *)
(** * [sylar/http/httpclient_parser.rl.cc] and [HttpResponseParser]

    [httpclient_parser] and its functions, around the code of
    [HttpClientCode.v], and the parser object of [http_parser.cc] that uses
    them.  A call works on the first [len] bytes of an allocation [data]; the
    functions look beyond them, at the zero that ends the text, and a string
    may be taken from anywhere in the allocation. *)

From stdpp Require Import base list strings.
From Stdlib Require Import ZArith Lia Ascii String.
From S2P Require Import Prelude Http HttpParser Ragel Http11 HttpClientCode.

Local Open Scope Z_scope.

(** ** [httpclient_parser] *)

Record httpclient_parser := CP {
  cp_cs : Z;
  cp_body_start : Z;
  cp_content_len : Z;
  cp_status : Z;
  cp_chunked : bool;
  cp_chunks_done : bool;
  cp_close : bool;
  cp_nread : Z;
  cp_mark : Z;
  cp_field_start : Z;
  cp_field_len : Z;
}.

Definition httpclient_parser_start : Z := 1.
Definition httpclient_parser_first_final : Z := 120.
Definition httpclient_parser_error : Z := 0.

(** [httpclient_parser_init] does not touch [status]. *)
Definition httpclient_parser_init (h : httpclient_parser) : httpclient_parser :=
  CP httpclient_parser_start 0 (-1) (cp_status h) false false false 0 0 0 0.

Definition httpclient_parser_has_error (h : httpclient_parser) : bool :=
  cp_cs h =? httpclient_parser_error.
Definition httpclient_parser_is_finished (h : httpclient_parser) : bool :=
  cp_cs h =? httpclient_parser_first_final.
Definition httpclient_parser_finish (h : httpclient_parser) : Z :=
  if httpclient_parser_has_error h then -1 else if httpclient_parser_is_finished h then 1 else 0.

Definition cp_set_end (cs nread : Z) (h : httpclient_parser) : httpclient_parser :=
  CP cs (cp_body_start h) (cp_content_len h) (cp_status h) (cp_chunked h) (cp_chunks_done h)
    (cp_close h) nread (cp_mark h) (cp_field_start h) (cp_field_len h).
Definition cp_set_marks (mark field_start field_len : Z) (h : httpclient_parser) : httpclient_parser :=
  CP (cp_cs h) (cp_body_start h) (cp_content_len h) (cp_status h) (cp_chunked h) (cp_chunks_done h)
    (cp_close h) (cp_nread h) mark field_start field_len.
Definition cp_set_body_start (v : Z) (h : httpclient_parser) : httpclient_parser :=
  CP (cp_cs h) v (cp_content_len h) (cp_status h) (cp_chunked h) (cp_chunks_done h)
    (cp_close h) (cp_nread h) (cp_mark h) (cp_field_start h) (cp_field_len h).
Definition cp_set_length (content_len : Z) (chunked chunks_done : bool) (h : httpclient_parser)
    : httpclient_parser :=
  CP (cp_cs h) (cp_body_start h) content_len (cp_status h) chunked chunks_done
    (cp_close h) (cp_nread h) (cp_mark h) (cp_field_start h) (cp_field_len h).
Definition cp_set_status (v : Z) (h : httpclient_parser) : httpclient_parser :=
  CP (cp_cs h) (cp_body_start h) (cp_content_len h) v (cp_chunked h) (cp_chunks_done h)
    (cp_close h) (cp_nread h) (cp_mark h) (cp_field_start h) (cp_field_len h).
Definition cp_set_close (h : httpclient_parser) : httpclient_parser :=
  CP (cp_cs h) (cp_body_start h) (cp_content_len h) (cp_status h) (cp_chunked h) (cp_chunks_done h)
    true (cp_nread h) (cp_mark h) (cp_field_start h) (cp_field_len h).

(** [strtol(p, NULL, base)] for the bases 10 and 16, with a 64-bit [long]:
    white space, a sign, for base 16 a prefix "0x", digits; a value beyond the
    range is clamped. *)
Definition digit_in (base c : Z) : option Z :=
  let d := if within 48 57 c then c - 48
           else if within 65 90 c then c - 55
           else if within 97 122 c then c - 87 else base in
  if d <? base then Some d else None.
Fixpoint strtol_digits (base a : Z) (l : list Z) : Z :=
  match l with
  | [] => a
  | c :: l => match digit_in base c with Some d => strtol_digits base (base * a + d) l | None => a end
  end.
Definition strtol_prefix (base : Z) (l : list Z) : list Z :=
  match l with
  | 48 :: x :: c :: l' =>
      if (base =? 16) && ((x =? 120) || (x =? 88)) then
        match digit_in base c with Some _ => c :: l' | None => l end
      else l
  | _ => l
  end.
Definition clamp_long (z : Z) : Z := Z.max (- 2 ^ 63) (Z.min (2 ^ 63 - 1) z).
Definition strtol_sign (base : Z) (l : list Z) : Z :=
  match l with
  | 45 :: l => - strtol_digits base 0 (strtol_prefix base l)
  | 43 :: l => strtol_digits base 0 (strtol_prefix base l)
  | _ => strtol_digits base 0 (strtol_prefix base l)
  end.
Fixpoint strtol (base : Z) (l : list Z) : Z :=
  match l with
  | c :: l' => if (c =? 32) || within 9 13 c then strtol base l' else clamp_long (strtol_sign base l)
  | [] => 0
  end.

(** What [HttpResponseParser] can be called back with. *)
Inductive response_elem :=
  | ReasonPhrase | StatusCode | ChunkSize | RspHttpVersion | RspHeaderDone | LastChunk.

Definition cp_state : Type := httpclient_parser * list (call response_elem).

(** The actions of the grammar at [fpc = buffer + p]; all callbacks are set. *)
Definition client_act (data : list Z) (a : client_action) (p pe : nat) (s : cp_state) : cp_state :=
  let '(h, cs) := s in
  let p := Z.of_nat p in
  let m := cp_mark h in
  let number base := i32 (strtol base (drop (Z.to_nat m) data)) in
  let call e := (cs ++ [Elem e m (LEN m p)])%list in
  match a with
  | c_mark => (cp_set_marks p (cp_field_start h) (cp_field_len h) h, cs)
  | c_start_field => (cp_set_marks m p (cp_field_len h) h, cs)
  | c_write_field => (cp_set_marks m (cp_field_start h) (LEN (cp_field_start h) p) h, cs)
  | c_write_value =>
      (h, (cs ++ [Field (cp_field_start h) (cp_field_len h) m (LEN m p)])%list)
  | c_write_content_len => (cp_set_length (number 10) (cp_chunked h) (cp_chunks_done h) h, cs)
  | c_write_connection_close => (cp_set_close h, cs)
  | c_reason_phrase => (h, call ReasonPhrase)
  | c_status_code => (cp_set_status (number 10) h, call StatusCode)
  | c_http_version => (h, call RspHttpVersion)
  | c_chunk_size =>
      let n := number 16 in
      let done := n <=? 0 in
      (cp_set_length n true done h, call (if done then LastChunk else ChunkSize))
  | c_trans_chunked => (cp_set_length (cp_content_len h) true (cp_chunks_done h) h, cs)
  | c_done _ =>
      (cp_set_body_start (p + 1) h, (cs ++ [Elem RspHeaderDone (p + 1) (Z.of_nat pe - p - 1)])%list)
  end.

Definition client_breaks (a : client_action) : option Z :=
  match a with c_done cs => Some cs | _ => None end.

Definition client_run (data : list Z) :=
  run httpclient_parser_code (client_act data) client_breaks false.

(** [httpclient_parser_execute(parser, buffer, len, off)]: the callbacks, the
    result and the parser.  A failed [check] gives -1. *)
Definition httpclient_parser_execute (data : list Z) (len off : nat) (h : httpclient_parser)
    : outcome (list (call response_elem) * Z * httpclient_parser) :=
  let h := cp_set_end (cp_cs h) 0 (cp_set_marks 0 0 0 h) in
  _ ← assert (off <=? len)%nat;
  z ← deref index_oob (data !! len);
  _ ← assert (z =? 0);
  _ ← assert (Z.of_nat len - Z.of_nat off =? i32 (Z.of_nat len) - i32 (Z.of_nat off));
  let '(cs, p, (h, calls)) := client_run data (cp_cs h) off (drop off (take len data)) (h, []) in
  let h := cp_set_end cs (cp_nread h + (Z.of_nat p - Z.of_nat off)) h in
  let len := Z.of_nat len in
  _ ← assert (Z.of_nat p <=? len);
  _ ← assert (cp_nread h <=? len);
  _ ← assert (cp_body_start h <=? len);
  if (cp_mark h <? len) && (cp_field_len h <=? len) && (cp_field_start h <? len)
  then Ok (calls, i32 (cp_nread h), h) else Ok (calls, -1, h).

(** ** [HttpResponseParser] *)

Definition rsp_setVersion (v : Z) (r : HttpResponse) : HttpResponse :=
  mkRsp (r_status r) v (r_close r) (r_body r) (r_reason r) (r_headers r).
Definition rsp_setReason (v : string) (r : HttpResponse) : HttpResponse :=
  mkRsp (r_status r) (r_version r) (r_close r) (r_body r) v (r_headers r).

Record HttpResponseParser := mkRspParser {
  q_parser : httpclient_parser;
  q_data : HttpResponse;
  q_error : Z;
}.

(** The constructor, with the structure [raw] in uninitialised memory. *)
Definition newHttpResponseParser (raw : httpclient_parser) : HttpResponseParser :=
  mkRspParser (httpclient_parser_init raw) (newHttpResponse 17 true) 0.

Definition rsp_setError (v : Z) (p : HttpResponseParser) := mkRspParser (q_parser p) (q_data p) v.
Definition rsp_update (f : HttpResponse -> HttpResponse) (p : HttpResponseParser) :=
  mkRspParser (q_parser p) (f (q_data p)) (q_error p).

Definition on_response_status (data : list Z) (at_ : Z) (p : HttpResponseParser)
    : outcome HttpResponseParser :=
  n ← atoi (ctext data at_); Ok (rsp_update (rsp_setStatus n) p).

(** The log line of the error prints the text, which is made for it. *)
Definition on_response_version (data : list Z) (at_ len : Z) (p : HttpResponseParser) : outcome HttpResponseParser :=
  match version_of (ctext data at_) len with
  | Some v => Ok (rsp_update (rsp_setVersion v) p)
  | None => _ ← text data at_ len; Ok (rsp_setError 1001 p)
  end.

Definition on_response_http_field (data : list Z) (field flen value vlen : Z)
    (p : HttpResponseParser) : outcome HttpResponseParser :=
  if (flen =? 0)%Z then Ok p else
  f ← text data field flen;
  v ← text data value vlen;
  Ok (rsp_update (rsp_setHeader f v) p).

Definition on_response_call (data : list Z) (c : call response_elem) (p : HttpResponseParser)
    : outcome HttpResponseParser :=
  match c with
  | Elem ReasonPhrase at_ len => s ← text data at_ len; Ok (rsp_update (rsp_setReason s) p)
  | Elem StatusCode at_ _ => on_response_status data at_ p
  | Elem RspHttpVersion at_ len => on_response_version data at_ len p
  | Elem ChunkSize _ _ | Elem RspHeaderDone _ _ | Elem LastChunk _ _ => Ok p
  | Field f fl v vl => on_response_http_field data f fl v vl p
  end.

Fixpoint on_response_calls (data : list Z) (cs : list (call response_elem))
    (p : HttpResponseParser) : outcome HttpResponseParser :=
  match cs with
  | [] => Ok p
  | c :: cs => p ← on_response_call data c p; on_response_calls data cs p
  end.

(** [execute(data, len, chunck)]: for a chunk the machine starts again.  The
    result -1 becomes a [size_t], and [memmove] an access outside [data]. *)
Definition rsp_execute (data : list Z) (len : nat) (chunck : bool) (p : HttpResponseParser)
    : outcome (nat * list Z * HttpResponseParser) :=
  let m := if chunck then httpclient_parser_init (q_parser p) else q_parser p in
  '(cs, r, m) ← httpclient_parser_execute data len 0 m;
  p ← on_response_calls data cs (mkRspParser m (q_data p) (q_error p));
  let offset := u64 r in
  if Z.of_nat len <? offset then Err (UB index_oob) else
  let offset := Z.to_nat offset in
  Ok (offset, splice 0 (slice offset (len - offset) data) data, p).

Definition rsp_isFinished (p : HttpResponseParser) : bool :=
  httpclient_parser_is_finished (q_parser p).
Definition rsp_hasError (p : HttpResponseParser) : bool :=
  negb (q_error p =? 0) || httpclient_parser_has_error (q_parser p).
Definition rsp_getContentLength (lexical_cast : string -> option Z) (p : HttpResponseParser) : Z :=
  getAs lexical_cast (r_headers (q_data p)) "content-length" 0.
