(* ===== verification/HttpSession.v ===== *)
(** * [sylar/http/http_session.cc]

    Receiving a request and sending a response over a stream.  The buffer of
    [recvRequest] is a list of the configured size, with whatever uninitialised
    memory holds; the parser's machine, the stream and [boost::lexical_cast]
    are parameters.  The loop's fuel counts reads; over a stream that ends,
    one more than the reads it can still serve is enough. *)

From stdpp Require Import base list strings.
From Stdlib Require Import ZArith Lia Ascii String.
From S2P Require Import Prelude Http Stream HttpParser Http11.

Local Open Scope string_scope.
Local Open Scope nat_scope.

Section session.
Context {M : Type} `{!Machine request_elem M}.
Context {St : Type} `{!Stream St}.
Context (sclose : St -> St).
Context (lexical_cast : string -> option Z).
Context {MM : Memory}.

(** The loop of [recvRequest]: [None] when it has closed the session. *)
Fixpoint recv_loop (fuel : nat) (data : list Z) (offset : nat) (p : HttpRequestParser M) (st : St)
    : outcome (option (nat * list Z * HttpRequestParser M) * St) :=
  match fuel with
  | O => Err NoFuel
  | S fuel =>
      let '(len, b, st) := sread (List.length data - offset) st in
      if (len <=? 0)%Z then Ok (None, sclose st) else
      let data := splice offset b data in
      let len := Z.to_nat len + offset in
      '(nparse, data, p) ← execute data len p;
      if hasError p then Ok (None, sclose st) else
      let offset := len - nparse in
      if (Z.of_nat offset =? i32 (Z.of_nat (List.length data)))%Z then Ok (None, sclose st) else
      if negb (isFinished p =? 0)%Z then Ok (Some (offset, data, p), st)
      else recv_loop fuel data offset p st
  end.

(** The body, sized by the announced length: the bytes of it already in the buffer, then the rest from the
    stream.  Bytes of the buffer beyond it are dropped with the buffer. *)
Definition recv_body (length : Z) (offset : nat) (data : list Z) (st : St)
    : outcome (option (list Z) * St) :=
  _ ← make_string length;
  let body := replicate (Z.to_nat length) 0%Z in
  let len := if (Z.of_nat offset <=? length)%Z then offset else Z.to_nat length in
  let body := splice 0 (take len data) body in
  let left := (length - Z.of_nat offset)%Z in
  if (0 <? left)%Z then
    '(r, b, st) ← readFixSize (Z.to_nat left) st;
    if (r <=? 0)%Z then Ok (None, sclose st) else Ok (Some (splice len b body), st)
  else Ok (Some body, st).

Definition recvRequest (fuel : nat) (buffer : list Z) (st : St)
    : outcome (option HttpRequest * St) :=
  '(o, st) ← recv_loop fuel buffer 0 newHttpRequestParser st;
  match o with
  | None => Ok (None, st)
  | Some (offset, data, p) =>
      let length := i64 (getContentLength lexical_cast p) in
      if (0 <? length)%Z then
        '(o, st) ← recv_body length offset data st;
        match o with
        | None => Ok (None, st)
        | Some body => Ok (Some (init (setBody (string_of body) (p_data p))), st)
        end
      else Ok (Some (init (p_data p)), st)
  end.

Definition sendResponse (rsp : HttpResponse) (st : St) : outcome (Z * St) :=
  let data := bytes_of (dump_response rsp) in
  writeFixSize data (List.length data) st.

(** ** Facts *)

(** What a machine has consumed over several calls. *)
Inductive consumed : M -> list Z -> M -> Prop :=
  | consumed_nil m : consumed m [] m
  | consumed_snoc m b m1 buf cs n m2 :
      consumed m b m1 -> mach_execute buf m1 = Ok (cs, n, m2) -> consumed m (b ++ take n buf) m2.

(** A measure of the reads a stream can still serve. *)
Definition ends (size : St -> nat) : Prop :=
  forall n st r b st', sread n st = (r, b, st') -> (0 < r)%Z -> size st' < size st.

Lemma delivers_snoc st b st1 n r b' st2 :
  delivers st b st1 -> sread n st1 = (r, b', st2) -> (0 < r)%Z -> delivers st (b ++ b') st2.
Proof.
  induction 1 as [st|k st r0 b0 st0 b1 st1 H0 Hr0 _ IH]; intros H Hr.
  - simpl. rewrite <- (app_nil_r b'). econstructor; [done|done|constructor].
  - rewrite <- app_assoc. econstructor; [done|done|by apply IH].
Qed.

Lemma delivers_app st b1 st1 b2 st2 :
  delivers st b1 st1 -> delivers st1 b2 st2 -> delivers st (b1 ++ b2) st2.
Proof. induction 1; [done|]. intros. rewrite <- app_assoc. econstructor; eauto. Qed.

Context `{!MachineLaws request_elem M} `{!StreamLaws St}.

(** The session has been closed. *)
Ltac closed := right; eexists None, _; split; [reflexivity|by eexists].

(** The loop's invariant: the bytes delivered so far are those the machine
    has consumed and then those at the front of the buffer. *)
Lemma recv_loop_spec size fuel st0 h data offset p st :
  ends size -> size st < fuel -> (Z.of_nat (List.length data) < 2 ^ 31)%Z ->
  offset < List.length data \/ offset = 0 ->
  delivers st0 (h ++ take offset data) st -> consumed mach_init h (p_parser p) ->
  mach_inv (p_parser p) ->
  recv_loop fuel data offset p st = Err (Throws length_error)
  \/ exists o st', recv_loop fuel data offset p st = Ok (o, st')
    /\ match o with
       | None => exists st1, st' = sclose st1
       | Some (offset', data', p') => exists h',
           offset' < List.length data' /\ delivers st0 (h' ++ take offset' data') st'
           /\ consumed mach_init h' (p_parser p')
           /\ mach_is_finished (p_parser p') = true /\ hasError p' = false
       end.
Proof.
  intros Hends. revert h data offset p st.
  induction fuel as [|fuel IH]; intros h data offset p st Hf Hbuf Hoff Hd Hc Hinv; [lia|].
  cbn [recv_loop]. pose proof (sread_bound (List.length data - offset) st) as Hb.
  destruct (sread _ st) as [[len b] st1] eqn:Hr. destruct Hb as (Hle & Hlen & _).
  destruct (Z.leb_spec len 0) as [Hz|Hz]; [closed|].
  assert (offset + List.length b <= List.length data) as Hfit by lia.
  pose proof (length_splice offset b data Hfit) as Hls.
  destruct (execute_spec (splice offset b data) (Z.to_nat len + offset) p)
    as [Hx|(n & data' & p' & Hx & Hn & Hl' & Hfront & Hinv' & cs & Hm)]; [lia|lia|done| |];
    cbv zeta; rewrite Hx; [by left|]. cbn [mbind outcome_bind]. clear Hx.
  destruct (hasError p') eqn:He; [closed|].
  set (off' := Z.to_nat len + offset - n) in *.
  assert (i32 (Z.of_nat (List.length data')) = Z.of_nat (List.length data')) as Hi
    by (apply i32_small; unfold in_s; lia).
  rewrite Hi. destruct (Z.eqb_spec (Z.of_nat off') (Z.of_nat (List.length data'))); [closed|].
  assert (delivers st0 ((h ++ take n (take (Z.to_nat len + offset) (splice offset b data)))
            ++ take off' data') st1) as Hd'.
  { rewrite Hfront, take_take, Nat.min_l, <- List.app_assoc by lia. subst off'.
    rewrite <- Hlen, (Nat.add_comm _ offset), splice_front by lia.
    rewrite List.app_assoc. by eapply delivers_snoc. }
  pose proof (consumed_snoc _ _ _ _ _ _ _ Hc Hm) as Hc'.
  unfold isFinished. unfold hasError in He. apply orb_false_iff in He as [He1 He2]. rewrite He2.
  destruct (mach_is_finished (p_parser p')) eqn:Hfin; cbn [negb Z.eqb].
  - right. eexists (Some _), _. split; [done|]. eexists. split_and!; [lia|done..|].
    unfold hasError. by rewrite He1.
  - assert (off' <= List.length data') by lia.
    eapply (IH _ data' off' p' st1); [|lia|left; lia|exact Hd'|exact Hc'|by apply Hinv'].
    assert (size st1 < size st) by (eapply Hends; [done|lia]). lia.
Qed.

Ltac shut := eexists None, _; split; [reflexivity|by eexists].

(** The body is complete, and its bytes are the next ones. *)
Lemma recv_body_spec length offset data st0 h st :
  (0 < length)%Z -> offset <= List.length data -> delivers st0 (h ++ take offset data)%list st ->
  recv_body length offset data st = Err (Throws length_error)
  \/ recv_body length offset data st = Err (Throws bad_alloc)
  \/ exists o st', recv_body length offset data st = Ok (o, st')
    /\ match o with
       | None => exists st1, st' = sclose st1
       | Some body => Z.of_nat (List.length body) = length
           /\ exists extra, delivers st0 (h ++ body ++ extra)%list st'
              /\ ((Z.of_nat offset <= length)%Z -> extra = [])
       end.
Proof.
  intros Hl Ho Hd. unfold recv_body. destruct (make_string_cases length) as [-> |[-> | ->]]; [by auto..|].
  right. right. cbn [mbind outcome_bind]. cbv zeta.
  destruct (Z.leb_spec (Z.of_nat offset) length) as [Hle|Hgt].
  - destruct (Z.ltb_spec 0 (length - Z.of_nat offset)) as [Hlt|Hge].
    + edestruct (readFixSize_loop_spec (Z.to_nat (length - Z.of_nat offset))
        (Z.to_nat (length - Z.of_nat offset)) (Z.to_nat (length - Z.of_nat offset)) st)
        as (r & b & st' & Hrd & Hcase); [done|].
      unfold readFixSize. rewrite Hrd. cbn [mbind outcome_bind].
      destruct (Z.leb_spec r 0); [shut|]. destruct Hcase as [(_ & Hb & Hdb)|(? & _)]; [|lia].
      eexists (Some _), st'. split; [done|].
      assert (List.length (take offset data) = offset) as Ht by (rewrite length_take; lia).
      assert (splice offset b (splice 0 (take offset data) (replicate (Z.to_nat length) 0%Z))
              = take offset data ++ b)%list as ->.
      { rewrite <- Ht at 1. apply splice_fill. rewrite length_replicate, Ht. lia. }
      rewrite length_app, Ht. split; [lia|]. exists []. split; [|done].
      rewrite app_nil_r, List.app_assoc. by eapply delivers_app.
    + assert (Z.of_nat offset = length) as <- by lia.
      eexists (Some _), st. split; [done|]. rewrite Nat2Z.id.
      assert (List.length (take offset data) = offset) as Ht by (rewrite length_take; lia).
      rewrite splice_whole by (by rewrite length_replicate, Ht). split; [by rewrite Ht|].
      exists []. split; [|done]. by rewrite app_nil_r.
  - rewrite (proj2 (Z.ltb_ge _ _)) by lia. eexists (Some _), st. split; [done|].
    assert (List.length (take (Z.to_nat length) data) = Z.to_nat length) as Ht
      by (rewrite length_take; lia).
    rewrite splice_whole by (by rewrite length_replicate, Ht). split; [lia|].
    exists (drop (Z.to_nat length) (take offset data)). split; [|lia].
    replace (take (Z.to_nat length) data) with (take (Z.to_nat length) (take offset data))
      by (rewrite take_take; f_equal; lia).
    by rewrite take_drop.
Qed.
End session.

(** What [recvRequest] returns, and on which bytes. *)
Lemma recvRequest_spec {M St} `{!Machine request_elem M} `{!MachineLaws request_elem M}
    `{!Stream St} `{!StreamLaws St} {MM : Memory} sclose lexical_cast size buffer (st : St) :
  ends size -> (Z.of_nat (List.length buffer) < 2 ^ 31)%Z ->
  recvRequest sclose lexical_cast (S (size st)) buffer st = Err (Throws length_error)
  \/ recvRequest sclose lexical_cast (S (size st)) buffer st = Err (Throws bad_alloc)
  \/ exists o st', recvRequest sclose lexical_cast (S (size st)) buffer st = Ok (o, st')
    /\ match o with
       | None => exists st1, st' = sclose st1
       | Some req => exists p h body extra,
           consumed mach_init h (p_parser p) /\ mach_is_finished (p_parser p) = true
           /\ hasError p = false /\ delivers st (h ++ body ++ extra)%list st'
           /\ let n := i64 (getContentLength lexical_cast p) in
              ((0 < n)%Z -> Z.of_nat (List.length body) = n
                 /\ req = init (setBody (string_of body) (p_data p)))
              /\ ((n <= 0)%Z -> body = [] /\ req = init (p_data p))
       end.
Proof.
  intros Hends Hbuf. unfold recvRequest.
  destruct (recv_loop_spec sclose size (S (size st)) st [] buffer 0 newHttpRequestParser st)
    as [->|(o & st1 & -> & Ho)];
    [done|lia|done|by right|constructor|constructor|apply mach_inv_init|by left|].
  cbn [mbind outcome_bind]. destruct o as [[[offset data] p]|]; [|by right; right; eexists None, _].
  destruct Ho as (h & Hoff & Hd & Hc & Hfin & Herr). cbv zeta.
  destruct (Z.ltb_spec 0 (i64 (getContentLength lexical_cast p))) as [Hn|Hn].
  - destruct (recv_body_spec sclose _ offset data st h st1 Hn ltac:(lia) Hd)
      as [-> |[-> |(o & st2 & -> & Ho)]]; [by auto..|right; right]. cbn [mbind outcome_bind].
    destruct o as [body|]; [|by eexists None, _]. destruct Ho as (Hlen & extra & Hd2 & _).
    eexists (Some _), st2. split; [done|]. exists p, h, body, extra.
    split_and!; [done..|lia].
  - right. right. eexists (Some _), st1. split; [done|]. exists p, h, [], (take offset data).
    split_and!; [done..|lia|done].
Qed.

Lemma recvRequest_returns {M St} `{!Machine request_elem M} `{!MachineLaws request_elem M}
    `{!Stream St} `{!StreamLaws St} {MM : Memory} sclose lexical_cast size buffer (st : St) :
  ends size -> (Z.of_nat (List.length buffer) < 2 ^ 31)%Z ->
  recvRequest sclose lexical_cast (S (size st)) buffer st = Err (Throws length_error)
  \/ recvRequest sclose lexical_cast (S (size st)) buffer st = Err (Throws bad_alloc)
  \/ exists o st', recvRequest sclose lexical_cast (S (size st)) buffer st = Ok (o, st').
Proof.
  intros He Hb. destruct (recvRequest_spec sclose lexical_cast size buffer st He Hb)
    as [?|[?|(o & st' & H & _)]]; eauto.
Qed.

(** ** Concrete sessions

    The machine of [http11_parser.rl.cc], and a [lexical_cast] that reads
    digits. *)

#[export] Instance http11 : Machine request_elem http_parser := http11_machine 0 false.
#[export] Instance http11_laws : MachineLaws request_elem http_parser := http11_machine_laws 0 false.

Definition digits_cast (s : string) : option Z :=
  if (String.length s =? 0) then None else
  match atoi s with Ok n => Some n | Err _ => None end.

Lemma tape_ends : ends (St := tape) (fun t => List.length t.2).
Proof.
  intros n [l cs] r b st' H Hr. simpl in H. unfold tape_recv in H. simpl in H.
  destruct cs as [|c cs]; injection H as <- <- <-; simpl in *; lia.
Qed.

Definition small_request : list Z :=
  bytes_of ("GET /a?x=12 HTTP/1.1" ++ CRLF ++ "content-length: 5" ++ CRLF ++ CRLF ++ "hello").

Definition serve (cuts : list nat) (bytes : list Z) : outcome (option HttpRequest * tape) :=
  recvRequest (M := http_parser) (MM := plenty) (fun t => t) digits_cast (S (List.length cuts))
    (replicate 128 0%Z) (bytes, cuts).

(** ** Properties *)

(** C33: Over every stream that ends and every machine that keeps its buffer, as
    the one of http11_parser.rl.cc does, and with a buffer of less than 2^31
    bytes, [recvRequest] stays in its buffers and has one of three outcomes,
    however the stream cuts the message: it closes the session and returns null;
    it returns a request for which the machine finished without error on a head,
    and whose body is exactly the content-length bytes behind that head (what
    follows in the buffer is dropped); or it throws, [length_error] for an
    element whose length wrapped around, as a cut inside an element makes it, or
    [bad_alloc] for a body there is no memory for: the 64M the comments speak of
    are not a limit here. *)
Theorem recvRequest_framed {M St} `{!Machine request_elem M} `{!MachineLaws request_elem M}
    `{!Stream St} `{!StreamLaws St} {MM : Memory} sclose lexical_cast size buffer (st : St) :
  ends size -> (Z.of_nat (List.length buffer) < 2 ^ 31)%Z ->
  recvRequest sclose lexical_cast (S (size st)) buffer st = Err (Throws length_error)
  \/ recvRequest sclose lexical_cast (S (size st)) buffer st = Err (Throws bad_alloc)
  \/ exists o st', recvRequest sclose lexical_cast (S (size st)) buffer st = Ok (o, st')
    /\ match o with
       | None => exists st1, st' = sclose st1
       | Some req => exists p h body extra,
           consumed mach_init h (p_parser p) /\ mach_is_finished (p_parser p) = true
           /\ hasError p = false /\ delivers st (h ++ body ++ extra)%list st'
           /\ let n := i64 (getContentLength lexical_cast p) in
              ((0 < n)%Z -> Z.of_nat (List.length body) = n
                 /\ req = init (setBody (string_of body) (p_data p)))
              /\ ((n <= 0)%Z -> body = [] /\ req = init (p_data p))
       end.
Proof. intros. by apply recvRequest_spec. Qed.

Lemma recvRequest_framed_witness :
  exists req st', serve [43; 9] small_request = Ok (Some req, st') /\ m_body req = "hello".
Proof.
  destruct (recvRequest_framed (M := http_parser) (MM := plenty) (fun t => t) digits_cast
    (fun t : tape => List.length t.2) (replicate 128 0%Z) (small_request, [43; 9]) tape_ends
    ltac:(done)) as [H|[H|(o & st' & H & _)]]; vm_compute in H; [discriminate..|].
  injection H as <- <-. eexists _, _. split; vm_compute; reflexivity.
Defined.

(** Two requests that arrive in one piece: the second is dropped with the
    buffer. *)
Lemma pipelined_request_lost :
  match serve [120] (small_request ++ small_request)%list with
  | Ok (Some req, st') => m_body req = "hello" /\ st'.1 = []
  | _ => False
  end.
Proof. by vm_compute. Qed.

(** A request cut inside an element: the machine restarts its marks at the
    front of the next buffer, so that the path "/a" is taken for "a", a cut
    method is rejected, and a cut query throws. *)
Lemma split_request_misread :
  match serve [5; 60] small_request with
  | Ok (Some req, _) => m_path req = "a" /\ m_query req = "x=12"
  | _ => False
  end
  /\ (exists st', serve [2; 60] small_request = Ok (None, st'))
  /\ serve [9; 60] small_request = Err (Throws length_error).
Proof. split_and!; [by vm_compute|eexists; by vm_compute|by vm_compute]. Qed.

(** [sendResponse], by the result of its first write: it reports no success,
    since a write that succeeds is followed by a read beyond the text. *)
Lemma sendResponse_cases {St} `{!Stream St} `{!StreamLaws St} rsp (st : St) :
  let '(r, st') := swrite (bytes_of (dump_response rsp)) st in
  ((0 < r)%Z -> sendResponse rsp st = Err (UB index_oob))
  /\ ((r <= 0)%Z -> sendResponse rsp st = Ok (r, st')).
Proof.
  assert (bytes_of (dump_response rsp) <> []) as Hne by done.
  unfold sendResponse. set (b := bytes_of _) in *.
  pose proof (writeFixSize_overrun b st) as H. pose proof (swrite_bound b st) as Hb.
  destruct (swrite b st) as [r st'] eqn:Hw. split; [by apply H|]. intros Hr.
  unfold writeFixSize. cbn [writeFixSize_loop].
  destruct (Nat.eqb_spec (List.length b) 0) as [E|E]; [by apply nil_length_inv in E|].
  rewrite (proj2 (Nat.ltb_ge _ _)) by lia. rewrite slice_all, Hw.
  destruct Hb as [_ Hb]. rewrite (proj2 (Z.leb_le _ _)) by done. by rewrite i32_small.
Qed.
