(* ===== verification/HttpConnection.v ===== *)
(** * [sylar/http/http_connection.cc]: receiving a response

    [HttpConnection::recvResponse] and [sendRequest].  The buffer is an
    allocation of the configured size and one byte more, for the zero behind
    what has been read.  The loops' fuel counts their rounds; [rsp_rounds] is
    enough for a stream that ends. *)

From stdpp Require Import base list strings.
From Stdlib Require Import ZArith Lia Ascii String.
From S2P Require Import Prelude Http Stream HttpParser HttpSession HttpClientParser.

Local Open Scope nat_scope.

Section connection.
Context {St : Type} `{!Stream St}.
Context (sclose : St -> St).
Context (lexical_cast : string -> option Z).
Context {MM : Memory}.

(** What the loops return: [None] when the connection has been closed. *)
Definition received : Type := option (nat * list Z * HttpResponseParser) * St.

(** The configured size of the buffer [data]. *)
Definition buff_size (data : list Z) : nat := List.length data - 1.

(** [data[len] = 0], [execute] and the tests after it; [len] becomes what is
    left in the buffer. *)
Definition rsp_parse (data : list Z) (len : nat) (chunck : bool) (p : HttpResponseParser)
    : outcome (option (nat * list Z * HttpResponseParser)) :=
  _ ← deref index_oob (data !! len);
  '(nparse, data, p) ← rsp_execute (splice len [0%Z] data) len chunck p;
  if rsp_hasError p then Ok None else
  let len := len - nparse in
  if (Z.of_nat len =? i32 (Z.of_nat (buff_size data)))%Z then Ok None else
  Ok (Some (len, data, p)).

(** The first loop, for the head. *)
Fixpoint rsp_loop (fuel : nat) (data : list Z) (offset : nat) (p : HttpResponseParser) (st : St)
    : outcome received :=
  match fuel with
  | O => Err NoFuel
  | S fuel =>
      let '(len, b, st) := sread (buff_size data - offset) st in
      if (len <=? 0)%Z then Ok (None, sclose st) else
      o ← rsp_parse (splice offset b data) (Z.to_nat len + offset) false p;
      match o with
      | None => Ok (None, sclose st)
      | Some (offset, data, p) =>
          if rsp_isFinished p then Ok (Some (offset, data, p), st)
          else rsp_loop fuel data offset p st
      end
  end.

(** The inner loop for the line of a chunk's size. *)
Fixpoint chunk_head (fuel : nat) (begin : bool) (len : nat) (data : list Z) (p : HttpResponseParser)
    (st : St) : outcome received :=
  match fuel with
  | O => Err NoFuel
  | S fuel =>
      let '(rt, b, st) :=
        if negb begin || (len =? 0) then sread (buff_size data - len) st else (1%Z, [], st) in
      if (rt <=? 0)%Z then Ok (None, sclose st) else
      o ← rsp_parse (splice len b data) (len + List.length b) true p;
      match o with
      | None => Ok (None, sclose st)
      | Some (len, data, p) =>
          if rsp_isFinished p then Ok (Some (len, data, p), st)
          else chunk_head fuel false len data p st
      end
  end.

(** [body.append(data, n)] and [body.resize(n)] for a [size_t] made from an
    [int]. *)
Definition str_append (body : list Z) (data : list Z) (n : Z) : outcome (list Z) :=
  if (max_size - Z.of_nat (List.length body) <? u64 n)%Z then Err (Throws length_error)
  else if (Z.of_nat (List.length data) <? u64 n)%Z then Err (UB index_oob)
  else Ok (body ++ take (Z.to_nat (u64 n)) data)%list.
Definition str_resize (body : list Z) (n : Z) : outcome (list Z) :=
  if (max_size <? u64 n)%Z then Err (Throws length_error)
  else Ok (take (Z.to_nat (u64 n)) body ++ replicate (Z.to_nat (u64 n) - List.length body) 0%Z)%list.

(** The loop that reads the rest of a chunk, at most a buffer at a time:
    [None] when it has closed the connection. *)
Fixpoint chunk_rest (fuel : nat) (left : Z) (data body : list Z) (st : St)
    : outcome (option (list Z * list Z) * St) :=
  if (left <=? 0)%Z then Ok (Some (data, body), st) else
  match fuel with
  | O => Err NoFuel
  | S fuel =>
      let n := i32 (Z.of_nat (buff_size data)) in
      let '(rt, b, st) := sread (Z.to_nat (u64 (if n <? left then n else left))%Z) st in
      if (rt <=? 0)%Z then Ok (None, sclose st) else
      let data := splice 0 b data in
      body ← str_append body data rt;
      chunk_rest fuel (left - rt) data body st
  end.

(** The chunk behind its size line: from the buffer, or the rest of it from
    the stream, with the line end, which is cut off again. *)
Definition chunk_body (fuel : nat) (content_len : Z) (len : nat) (data body : list Z) (st : St)
    : outcome (option (nat * list Z * list Z) * St) :=
  need ← sarith 32 (content_len + 2);
  if (need <=? Z.of_nat len)%Z then
    body ← str_append body data content_len;
    let k := Z.to_nat need in
    Ok (Some (len - k, splice 0 (slice k (len - k) data) data, body), st)
  else
    body ← str_append body data (Z.of_nat len);
    left ← sarith 32 (content_len - Z.of_nat len + 2);
    '(o, st) ← chunk_rest fuel left data body st;
    match o with
    | None => Ok (None, st)
    | Some (data, body) =>
        body ← str_resize body (Z.of_nat (List.length body) - 2);
        Ok (Some (0, data, body), st)
    end.

(** The outer loop, over the chunks. *)
Fixpoint chunk_loop (fuel : nat) (len : nat) (data body : list Z) (p : HttpResponseParser) (st : St)
    : outcome (option (list Z * HttpResponseParser) * St) :=
  match fuel with
  | O => Err NoFuel
  | S fuel' =>
      '(o, st) ← chunk_head fuel true len data p st;
      match o with
      | None => Ok (None, st)
      | Some (len, data, p) =>
          '(o, st) ← chunk_body fuel (cp_content_len (q_parser p)) len data body st;
          match o with
          | None => Ok (None, st)
          | Some (len, data, body) =>
              if cp_chunks_done (q_parser p) then Ok (Some (body, p), st)
              else chunk_loop fuel' len data body p st
          end
      end
  end.

(** [recvResponse]; the buffer and the parser's structure start with what
    uninitialised memory holds. *)
Definition recvResponse (fuel : nat) (raw : httpclient_parser) (buffer : list Z) (st : St)
    : outcome (option HttpResponse * St) :=
  '(o, st) ← rsp_loop fuel buffer 0 (newHttpResponseParser raw) st;
  match o with
  | None => Ok (None, st)
  | Some (offset, data, p) =>
      if cp_chunked (q_parser p) then
        '(o, st) ← chunk_loop fuel offset data [] p st;
        match o with
        | None => Ok (None, st)
        | Some (body, p) => Ok (Some (rsp_setBody (string_of body) (q_data p)), st)
        end
      else
        let length := i64 (rsp_getContentLength lexical_cast p) in
        if (0 <? length)%Z then
          '(o, st) ← recv_body sclose length offset data st;
          match o with
          | None => Ok (None, st)
          | Some body => Ok (Some (rsp_setBody (string_of body) (q_data p)), st)
          end
        else Ok (Some (q_data p), st)
  end.

Definition sendRequest (req : HttpRequest) (st : St) : outcome (Z * St) :=
  let data := bytes_of (dump_request req) in
  writeFixSize data (List.length data) st.
End connection.

(** ** The loops end *)

Definition fueled {A} (o : outcome A) : Prop := o <> Err NoFuel.

Lemma fueled_bind {A B} (o : outcome A) (f : A -> outcome B) :
  fueled o -> (forall a, o = Ok a -> fueled (f a)) -> fueled (o ≫= f).
Proof. unfold fueled. intros Ho Hf. destruct o as [a|e]; [by apply Hf|]. simpl. congruence. Qed.

Lemma fueled_err {A B e} : fueled (Err e : outcome A) -> fueled (Err e : outcome B).
Proof. unfold fueled. congruence. Qed.
Lemma fueled_ok {A} (a : A) : fueled (Ok a).
Proof. done. Qed.
Lemma fueled_assert b : fueled (assert b).
Proof. by destruct b. Qed.
Lemma fueled_deref {A} u (o : option A) : fueled (deref u o).
Proof. by destruct o. Qed.
Lemma fueled_sarith w z : fueled (sarith w z).
Proof. unfold sarith. by case_decide. Qed.
Lemma fueled_if {A} (b : bool) (x y : outcome A) : fueled x -> fueled y -> fueled (if b then x else y).
Proof. by destruct b. Qed.

Create HintDb fuel.
#[export] Hint Resolve fueled_ok fueled_assert fueled_deref fueled_sarith fueled_if : fuel.
#[export] Hint Extern 2 (fueled (_ ≫= _)) => apply fueled_bind; [|intros ? ?] : fuel.
#[export] Hint Extern 3 (fueled (Err _)) => discriminate : fuel.
#[export] Hint Extern 3 (fueled (let '_ := ?x in _)) => destruct x : fuel.

Lemma fueled_text data a l : fueled (text data a l).
Proof. unfold text. auto with fuel. Qed.
Lemma fueled_atoi s : fueled (atoi s).
Proof. induction s; cbn [atoi]; auto with fuel. Qed.
#[export] Hint Resolve fueled_text fueled_atoi : fuel.

Lemma fueled_response_call data c p : fueled (on_response_call data c p).
Proof.
  destruct c as [[] a l|f fl v vl]; simpl;
    unfold on_response_status, on_response_version, on_response_http_field; try destruct (version_of _ _);
    auto with fuel.
Qed.

Lemma fueled_response_calls data cs p : fueled (on_response_calls data cs p).
Proof.
  revert p. induction cs as [|c cs IH]; intros p; [done|]. simpl.
  apply fueled_bind; [apply fueled_response_call|auto].
Qed.
#[export] Hint Resolve fueled_response_calls : fuel.

Lemma fueled_client_execute data len off h : fueled (httpclient_parser_execute data len off h).
Proof.
  unfold httpclient_parser_execute. do 4 (apply fueled_bind; [auto with fuel|intros ? _]).
  destruct (client_run _ _ _ _ _) as [[cs p] [h' calls]]. auto 8 with fuel.
Qed.
#[export] Hint Resolve fueled_client_execute : fuel.

Lemma fueled_rsp_parse data len chunck p : fueled (rsp_parse data len chunck p).
Proof.
  unfold rsp_parse, rsp_execute. apply fueled_bind; [auto with fuel|intros ? _].
  repeat (apply fueled_bind; [|intros [[? ?] ?] _]); auto with fuel.
Qed.

(** What is left in the buffer; the line of a chunk's size begins with
    something the machine consumes. *)
Lemma client_starts b : is_Some (Ragel.next HttpClientCode.httpclient_parser_code false 1 (wraps 8 b)).
Proof.
  assert (forallb (fun c => bool_decide (is_Some (Ragel.next HttpClientCode.httpclient_parser_code false 1 c)))
    Ragel.chars = true) as H by (vm_compute; reflexivity).
  rewrite forallb_forall in H. specialize (H _ (proj1 (list_elem_of_In _ _) (Ragel.wraps8_chars b))).
  by apply bool_decide_eq_true in H.
Qed.

Lemma client_run_nread data cs p rest s :
  let '(_, _, s') := client_run data cs p rest s in cp_nread s'.1 = cp_nread s.1.
Proof.
  unfold client_run. revert cs p s. induction rest as [|b rest IH]; intros cs p s; [done|]. simpl.
  destruct (Ragel.next _ _ _ _) as [[acts n]|]; [|done].
  assert (forall s, cp_nread (Ragel.run_actions (client_act data) acts p (p + S (List.length rest)) s).1
    = cp_nread s.1) as Ha.
  { unfold Ragel.run_actions. induction acts as [|a acts IHa]; intros [h cs']; [done|]. cbn [foldl].
    rewrite IHa. by destruct a. }
  destruct (Ragel.break_of _ _); [apply Ha|]. destruct (n =? 0)%Z; [apply Ha|].
  specialize (IH n (S p) (Ragel.run_actions (client_act data) acts p (p + S (List.length rest)) s)).
  destruct (Ragel.run _ _ _ _ _ _ _ _) as [[? ?] s']. by rewrite IH, Ha.
Qed.

Lemma response_calls_parser data cs p p' :
  on_response_calls data cs p = Ok p' -> q_parser p' = q_parser p.
Proof.
  revert p. induction cs as [|c cs IH]; intros p H; simpl in H; [by injection H as <-|].
  apply bind_ok in H as (p1 & H1 & H). rewrite (IH _ H). clear IH H.
  destruct c as [e a l|f fl v vl]; simpl in H1.
  - destruct e; simpl in H1; try (by injection H1 as <-).
    + apply bind_ok in H1 as (s & _ & H1). by injection H1 as <-.
    + apply bind_ok in H1 as (s & _ & H1). by injection H1 as <-.
    + unfold on_response_version in H1. destruct (version_of _ _); [by injection H1 as <-|].
      apply bind_ok in H1 as (s & _ & H1). by injection H1 as <-.
  - unfold on_response_http_field in H1. destruct (fl =? 0)%Z; [by injection H1 as <-|].
    apply bind_ok in H1 as (s & _ & H1). apply bind_ok in H1 as (s' & _ & H1). by injection H1 as <-.
Qed.

Lemma execute_moves data len m cs r m' :
  httpclient_parser_execute data len 0 m = Ok (cs, r, m') -> cp_cs m = 1%Z -> 0 < len ->
  len < List.length data -> (Z.of_nat len < 2 ^ 31)%Z ->
  httpclient_parser_has_error m' = true \/ (0 < u64 r)%Z.
Proof.
  intros H Hcs Hpos Hl Hb. unfold httpclient_parser_execute in H.
  do 4 apply bind_ok in H as (? & _ & H).
  change (cp_cs (cp_set_end _ _ _)) with (cp_cs m) in H. rewrite Hcs, drop_0 in H.
  destruct (take len data) as [|b rest] eqn:Et.
  { apply (f_equal List.length) in Et. rewrite length_take in Et. simpl in Et. lia. }
  apply (f_equal List.length) in Et. rewrite length_take in Et. simpl in Et.
  pose proof (Ragel.run_bounds HttpClientCode.httpclient_parser_code (client_act data) client_breaks false
    (b :: rest) 1 0 (cp_set_end (cp_cs m) 0 (cp_set_marks 0 0 0 m), [])) as Hbd.
  pose proof (Ragel.run_moves HttpClientCode.httpclient_parser_code (client_act data) client_breaks false
    1 0 b rest (cp_set_end (cp_cs m) 0 (cp_set_marks 0 0 0 m), []) (client_starts b)) as Hm.
  fold (client_run data) in Hbd, Hm. rewrite Hcs in *.
  pose proof (client_run_nread data 1 0 (b :: rest) (cp_set_end 1 0 (cp_set_marks 0 0 0 m), [])) as Hn.
  destruct (client_run _ _ _ _ _) as [[cs' p'] [h' calls]]. simpl in Hbd, Hm, Hn.
  do 3 apply bind_ok in H as (? & _ & H).
  unfold httpclient_parser_has_error, httpclient_parser_error.
  destruct (_ && _) in H; injection H as <- <- <-; [|by right]. simpl.
  destruct Hm as [-> |Hm]; [by left|right]. rewrite Hn.
  rewrite i32_small by (unfold in_s; lia). unfold u64. rewrite wrapu_small by (unfold in_u; lia). lia.
Qed.

Lemma rsp_parse_left data len chunck p len' data' p' :
  rsp_parse data len chunck p = Ok (Some (len', data', p')) -> len < List.length data ->
  (Z.of_nat len < 2 ^ 31)%Z ->
  len' <= len /\ List.length data' = List.length data /\ (chunck = true -> 0 < len -> len' < len).
Proof.
  intros H Hl Hb. unfold rsp_parse in H. apply bind_ok in H as (z & _ & H).
  assert (List.length (splice len [0%Z] data) = List.length data) as Hsp
    by (apply length_splice; simpl; lia).
  apply bind_ok in H as ([[n d] q] & Hx & H).
  destruct (rsp_hasError q) eqn:Herr; [done|]. destruct (_ =? _)%Z; [done|]. injection H as <- <- <-.
  unfold rsp_execute in Hx. apply bind_ok in Hx as ([[cs r] m] & Hc & Hx).
  apply bind_ok in Hx as (q' & Hq & Hx).
  destruct (_ <? _)%Z eqn:Hlt in Hx; [done|]. injection Hx as <- <- <-. apply Z.ltb_ge in Hlt.
  set (o := Z.to_nat (u64 r)) in *.
  assert (in_u 64 (u64 r)) as [? _] by (by apply wrapu_range). split; [lia|].
  assert (List.length (slice o (len - o) (splice len [0%Z] data)) = len - o) as Hs
    by (apply length_slice; lia).
  split; [rewrite length_splice; lia|]. intros -> Hpos.
  apply execute_moves in Hc; [|done..|lia|done].
  apply response_calls_parser in Hq. unfold rsp_hasError in Herr. rewrite Hq in Herr. simpl in Herr.
  destruct Hc as [Hc|Hc]; [by rewrite Hc, orb_true_r in Herr|]. lia.
Qed.

Section ends.
Context {St : Type} `{!Stream St} `{!StreamLaws St} (sclose : St -> St).
Context (size : St -> nat) (Hends : ends size).

(** Room for a byte, and sizes that are [int]s. *)
Definition room (data : list Z) : Prop :=
  0 < List.length data /\ (Z.of_nat (List.length data) < 2 ^ 31)%Z.

Definition budget (n : nat) (len : nat) (st : St) : nat := size st * n + len.

Lemma rsp_loop_ends fuel data offset p st :
  size st < fuel -> room data -> offset <= buff_size data ->
  fueled (rsp_loop sclose fuel data offset p st)
  /\ forall len data' p' st', rsp_loop sclose fuel data offset p st = Ok (Some (len, data', p'), st') ->
       len <= buff_size data /\ List.length data' = List.length data /\ size st' < size st.
Proof using Hends StreamLaws0.
  revert data offset p st. induction fuel as [|fuel IH]; intros data offset p st Hf [Hr1 Hr2] Ho; [lia|].
  cbn [rsp_loop]. pose proof (sread_bound (buff_size data - offset) st) as Hb.
  destruct (sread _ st) as [[len b] st1] eqn:Hrd. destruct Hb as (Hle & Hlen & _).
  destruct (Z.leb_spec len 0) as [Hz|Hz]; [done|].
  pose proof (Hends _ _ _ _ _ Hrd ltac:(lia)) as Hsz. unfold buff_size in *.
  pose proof (fueled_rsp_parse (splice offset b data) (Z.to_nat len + offset) false p) as Hfp.
  pose proof (length_splice offset b data ltac:(lia)) as Hls.
  destruct (rsp_parse _ _ _ _) as [[[[l d] q]|]|e] eqn:Hp; [|done|split; [exact (fueled_err Hfp)|done]].
  cbn [mbind outcome_bind].
  apply rsp_parse_left in Hp as (H1 & H2 & _); [|lia..].
  destruct (rsp_isFinished q).
  - split; [done|]. intros ? ? ? ? [= <- <- <- <-]. split_and!; lia.
  - destruct (IH d l q st1) as [H3 H4]; [lia|split; lia|unfold buff_size; lia|].
    split; [done|]. intros ? ? ? ? H. apply H4 in H. lia.
Qed.

Lemma chunk_head_ends fuel (begin : bool) len data p st :
  (if begin then 1 else 0) + size st < fuel -> room data -> len <= buff_size data ->
  fueled (chunk_head sclose fuel begin len data p st)
  /\ forall len' data' p' st', chunk_head sclose fuel begin len data p st = Ok (Some (len', data', p'), st') ->
       len' <= buff_size data /\ List.length data' = List.length data /\ size st' <= size st
       /\ budget (List.length data) len' st' < budget (List.length data) len st.
Proof using Hends StreamLaws0.
  revert begin len data p st.
  induction fuel as [|fuel IH]; intros begin len data p st Hf [Hr1 Hr2] Hl; [lia|].
  cbn [chunk_head].
  assert (exists rt b st1,
    (if negb begin || (len =? 0) then sread (buff_size data - len) st else (1%Z, [], st)) = (rt, b, st1)
    /\ ((rt <= 0)%Z \/ (len + List.length b <= buff_size data /\ 0 < len + List.length b
        /\ size st1 <= size st /\ (if begin then 0 else 1) + size st1 <= size st
        /\ budget (List.length data) (len + List.length b) st1 <= budget (List.length data) len st)))
    as (rt & b & st1 & -> & Hrd).
  { destruct (negb begin || (len =? 0)) eqn:E.
    - pose proof (sread_bound (buff_size data - len) st) as Hb.
      destruct (sread _ st) as [[rt b] st1] eqn:Hrd. destruct Hb as (Hle & Hlen & _).
      exists rt, b, st1. split; [done|]. destruct (Z.leb_spec rt 0); [by left|right].
      pose proof (Hends _ _ _ _ _ Hrd ltac:(lia)). unfold budget, buff_size in *.
      split_and!; [lia..|destruct begin; lia|nia].
    - apply orb_false_iff in E as [E1 E2]. destruct begin; [|done]. apply Nat.eqb_neq in E2.
      eexists _, _, _. split; [done|]. right. unfold budget. simpl. lia. }
  destruct (Z.leb_spec rt 0) as [|Hrt]; [done|]. destruct Hrd as [?|(H1 & H2 & H3 & H4 & H5)]; [lia|].
  pose proof (fueled_rsp_parse (splice len b data) (len + List.length b) true p) as Hfp.
  unfold buff_size in *.
  pose proof (length_splice len b data ltac:(lia)) as Hls.
  destruct (rsp_parse _ _ _ _) as [[[[l d] q]|]|e] eqn:Hp; [|done|split; [exact (fueled_err Hfp)|done]].
  cbn [mbind outcome_bind]. apply rsp_parse_left in Hp as (P1 & P2 & P3); [|lia..].
  specialize (P3 eq_refl H2). rewrite Hls in P2.
  destruct (rsp_isFinished q).
  - split; [done|]. intros ? ? ? ? [= <- <- <- <-]. unfold budget in *. split_and!; lia.
  - destruct (IH false l d q st1) as [H6 H7]; [destruct begin; lia|split; lia|unfold buff_size; lia|].
    split; [done|]. intros ? ? ? ? H. apply H7 in H. rewrite P2 in H. unfold budget in *. lia.
Qed.

Lemma fueled_append body data n : fueled (str_append body data n).
Proof. unfold str_append. auto with fuel. Qed.
Lemma fueled_resize body n : fueled (str_resize body n).
Proof. unfold str_resize. auto with fuel. Qed.
#[local] Hint Resolve fueled_append fueled_resize : fuel.

Lemma chunk_rest_ends fuel left data body st :
  size st < fuel -> room data ->
  fueled (chunk_rest sclose fuel left data body st)
  /\ forall data' body' st', chunk_rest sclose fuel left data body st = Ok (Some (data', body'), st') ->
       List.length data' = List.length data /\ size st' <= size st.
Proof using Hends StreamLaws0.
  revert left data body st. induction fuel as [|fuel IH]; intros left data body st Hf [Hr1 Hr2]; [lia|].
  cbn [chunk_rest]. destruct (Z.leb_spec left 0); [by split; [|intros ? ? ? [= <- <- <-]]|].
  rewrite i32_small by (unfold in_s, buff_size; lia).
  set (n := Z.to_nat _). assert (n <= buff_size data) as Hn.
  { subst n. destruct (Z.ltb_spec (Z.of_nat (buff_size data)) left); unfold u64, buff_size in *;
      rewrite wrapu_small by (unfold in_u; lia); lia. }
  pose proof (sread_bound n st) as Hb.
  destruct (sread n st) as [[rt b] st1] eqn:Hrd. destruct Hb as (Hle & Hlen & _).
  destruct (Z.leb_spec rt 0); [done|]. pose proof (Hends _ _ _ _ _ Hrd ltac:(lia)).
  unfold buff_size in *. pose proof (length_splice 0 b data ltac:(lia)) as Hls.
  pose proof (fueled_append body (splice 0 b data) rt) as Hfa.
  destruct (str_append _ _ _) as [body1|e]; [|split; [exact (fueled_err Hfa)|done]]. cbn [mbind outcome_bind].
  destruct (IH (left - rt)%Z (splice 0 b data) body1 st1) as [H3 H4]; [lia|split; lia|].
  split; [done|]. intros ? ? ? H5. apply H4 in H5. lia.
Qed.

Lemma chunk_body_ends fuel n len data body st :
  size st < fuel -> room data -> len <= buff_size data ->
  fueled (chunk_body sclose fuel n len data body st)
  /\ forall len' data' body' st', chunk_body sclose fuel n len data body st = Ok (Some (len', data', body'), st') ->
       len' <= len /\ List.length data' = List.length data /\ size st' <= size st.
Proof using Hends StreamLaws0.
  intros Hf Hr Hl. unfold chunk_body. pose proof (fueled_sarith 32 (n + 2)) as H1.
  destruct (sarith 32 (n + 2)) as [need|e]; [|split; [exact (fueled_err H1)|done]]. cbn [mbind outcome_bind].
  destruct (Z.leb_spec need (Z.of_nat len)).
  - split; [auto with fuel|]. intros ? ? ? ? (body1 & _ & [= <- <- <- <-])%bind_ok. split; [lia|].
    split; [|done]. unfold buff_size in *. apply length_splice. rewrite length_slice; lia.
  - pose proof (fueled_append body data (Z.of_nat len)) as H2.
    destruct (str_append _ _ _) as [body1|e]; [|split; [exact (fueled_err H2)|done]]. cbn [mbind outcome_bind].
    pose proof (fueled_sarith 32 (n - Z.of_nat len + 2)) as H3.
    destruct (sarith _ _) as [left|e]; [|split; [exact (fueled_err H3)|done]]. cbn [mbind outcome_bind].
    destruct (chunk_rest_ends fuel left data body1 st Hf Hr) as [H4 H5]. split.
    + apply fueled_bind; [done|]. intros [[[d b2]|] st2] _; auto with fuel.
    + intros ? ? ? ? ([[[d b2]|] st2] & E & H6)%bind_ok; [|done].
      apply bind_ok in H6 as (b3 & _ & [= <- <- <- <-]). apply H5 in E. lia.
Qed.

Lemma chunk_loop_ends fuel len data body p st :
  budget (List.length data) len st + 2 < fuel -> room data -> len <= buff_size data ->
  fueled (chunk_loop sclose fuel len data body p st).
Proof using Hends StreamLaws0.
  revert len data body p st. induction fuel as [|fuel IH]; intros len data body p st Hf Hr Hl; [lia|].
  cbn [chunk_loop]. assert (size st + 2 < S fuel) as Hs by (unfold budget in Hf; destruct Hr; nia).
  destruct (chunk_head_ends (S fuel) true len data p st) as [H1 H2]; [lia|done..|].
  apply fueled_bind; [done|]. intros [[[[l d] q]|] st1] E1; [|done].
  apply H2 in E1 as (P1 & P2 & P3 & P4).
  assert (room d) as Hrd by (unfold room in *; by rewrite P2).
  destruct (chunk_body_ends (S fuel) (cp_content_len (q_parser q)) l d body st1)
    as [H3 H4]; [lia|done|unfold buff_size in *; lia|].
  apply fueled_bind; [done|]. intros [[[[l' d'] b']|] st2] E2; [|done].
  apply H4 in E2 as (Q1 & Q2 & Q3). destruct (cp_chunks_done _); [done|].
  apply IH; [|unfold room in *; by rewrite Q2|unfold buff_size in *; lia].
  rewrite Q2, P2. unfold budget in *. nia.
Qed.

(** Enough rounds for a stream that can still serve [n] reads. *)
Definition rsp_rounds (n : nat) (buffer : list Z) : nat := S n * List.length buffer + 3.

Lemma recvResponse_fueled {MM : Memory} lexical_cast raw buffer st :
  room buffer ->
  fueled (recvResponse sclose lexical_cast (rsp_rounds (size st) buffer) raw buffer st).
Proof using Hends StreamLaws0.
  intros Hr. unfold recvResponse.
  destruct (rsp_loop_ends (rsp_rounds (size st) buffer) buffer 0 (newHttpResponseParser raw) st)
    as [H1 H2]; [unfold rsp_rounds; destruct Hr; nia|done|lia|].
  apply fueled_bind; [done|]. intros [[[[off d] p]|] st1] E; [|done].
  apply H2 in E as (P1 & P2 & P3). destruct (cp_chunked _).
  - apply fueled_bind; [|by intros [[[b q]|] st2] _].
    apply chunk_loop_ends; [|unfold room; by rewrite P2|unfold buff_size in *; lia].
    rewrite P2. unfold budget, rsp_rounds, buff_size in *. nia.
  - apply fueled_if; [|done]. apply fueled_bind; [|by intros [[?|] ?] _].
    unfold recv_body. apply fueled_bind; [destruct (make_string_cases (i64 (rsp_getContentLength lexical_cast p))) as [-> |[-> | ->]]; done|].
    intros _ _. apply fueled_if; [|done].
    match goal with |- context [readFixSize ?k] =>
      destruct (readFixSize_loop_spec k k k st1) as (r & b & st2 & Hrd & _); [done|] end.
    unfold readFixSize. rewrite Hrd. cbn [mbind outcome_bind]. by apply fueled_if.
Qed.
End ends.

Definition raw0 : httpclient_parser := CP 0 0 0 0 false false false 0 0 0 0.
Definition fetch (buff : nat) (cuts : list nat) (text : string) : outcome (option HttpResponse * tape) :=
  recvResponse (MM := plenty) (fun t => t) digits_cast 100 raw0 (replicate (S buff) 7%Z) (bytes_of text, cuts).


(** ** Properties *)

(** C19: On every stream that ends, with a buffer that is not empty and has less
    than 2^31 bytes, [recvResponse] ends: with the rounds that [rsp_rounds]
    computes from the reads left in the stream and the buffer's size, no loop,
    the one for the head, those for size lines, chunks and their rests, runs on,
    whatever bytes arrive and however they are cut. *)
Theorem recvResponse_terminates {St} `{!Stream St} `{!StreamLaws St} {MM : Memory} sclose lexical_cast size raw buffer
    (st : St) :
  ends size -> room buffer ->
  recvResponse sclose lexical_cast (rsp_rounds (size st) buffer) raw buffer st <> Err NoFuel.
Proof. intros He Hr. by apply recvResponse_fueled. Qed.

Lemma recvResponse_terminates_witness :
  let st : tape := (bytes_of "HTTP/1.1 200 OK", [3; 9; 100]) in
  exists o st', recvResponse (MM := plenty) (fun t => t) digits_cast (rsp_rounds 3 (replicate 32 7%Z)) raw0
    (replicate 32 7%Z) st = Ok (o, st').
Proof.
  intros st.
  pose proof (recvResponse_terminates (MM := plenty) (fun t : tape => t) digits_cast (fun t => List.length t.2) raw0
    (replicate 32 7%Z) st tape_ends ltac:(split; simpl; lia)) as H.
  destruct (recvResponse _ _ _ _ _ st) as [[o st']|e] eqn:E; [by exists o, st'|].
  destruct e; [vm_compute in E; discriminate E..|by destruct H].
Defined.
