(* ===== verification/HttpServer.v ===== *)
(** * [sylar/http/http_server.h], [sylar/http/http_server.cc]

    The loop that serves one connection: it receives requests with
    [recvRequest], lets the dispatcher fill a response and sends it.  The
    servlets act on the stream as their session. *)

From stdpp Require Import base list gmap strings.
From Stdlib Require Import ZArith Lia Ascii String.
From S2P Require Import Prelude Http HttpTheorems Servlet Stream HttpParser Http11 HttpSession.

Local Open Scope string_scope.

Section server.
Context {M : Type} `{!Machine request_elem M}.
Context {St : Type} `{!Stream St}.
Context (sclose : St -> St).
Context (lexical_cast : string -> option Z).
Context {MM : Memory}.
Context (fnmatch : string -> string -> bool).
(** The uninitialised buffer of each [recvRequest], and the fuel of its
    loop on a stream. *)
Context (buffer : list Z) (fuel_of : St -> nat).

Record HttpServer := mkServer {
  m_isKeepalive : bool;
  m_serverName : string;
  m_dispatch : ServletDispatch (S := St);
}.

(** The constructor; [TcpServer] names the server "sylar/1.0.0". *)
Definition newHttpServer (keepalive : bool) (name : string) : HttpServer :=
  mkServer keepalive name newServletDispatch.

Definition setName (v : string) (h : HttpServer) : HttpServer :=
  mkServer (m_isKeepalive h) v (setDefault (Some (NotFoundServlet v)) (m_dispatch h)).

(** The response [handleClient] prepares for a request. *)
Definition prepared (h : HttpServer) (req : HttpRequest) : HttpResponse :=
  rsp_setHeader "Server" (m_serverName h)
    (newHttpResponse (m_version req) (m_close req || negb (m_isKeepalive h))).

(** One round of the loop: whether it goes on, and the response sent, if any.
    The result of [sendResponse] is not looked at. *)
Definition handle_one (h : HttpServer) (s : St) : outcome (bool * option HttpResponse * St) :=
  '(o, s) ← recvRequest sclose lexical_cast (fuel_of s) buffer s;
  match o with
  | None => Ok (false, None, s)
  | Some req =>
      let '(_, (req, rsp, s)) := dispatch_handle fnmatch (m_dispatch h) (req, prepared h req, s) in
      '(_, s) ← sendResponse rsp s;
      Ok (negb (negb (m_isKeepalive h) || m_close req), Some rsp, s)
  end.

(** The responses [handleClient] sends, in order; it closes the session. *)
Fixpoint handleClient (fuel : nat) (h : HttpServer) (s : St) : outcome (list HttpResponse * St) :=
  match fuel with
  | O => Err NoFuel
  | S fuel =>
      '(go, rsp, s) ← handle_one h s;
      let sent := match rsp with Some r => [r] | None => [] end in
      if (go : bool) then
        '(rs, s) ← handleClient fuel h s; Ok ((sent ++ rs)%list, s)
      else Ok (sent, sclose s)
  end.
End server.
Arguments HttpServer St : clear implicits.

(** ** Properties *)

(** A round of [handleClient] on a connection, completely: when no request
    arrives the loop ends; otherwise the request goes through the dispatcher
    with a fresh response of its version that carries the server's name and
    closes unless both sides keep the connection alive; and then, depending on
    the first write of the response's text, either that write fails and the
    loop goes on exactly when the server and the request (as the servlets left
    it) keep the connection alive, or it succeeds and the process reads beyond
    the text, the fault of [writeFixSize].  An exception while receiving leaves
    the loop. *)
Theorem server_round {M St} `{!Machine request_elem M} `{!MachineLaws request_elem M}
    `{!Stream St} `{!StreamLaws St} {MM : Memory} sclose lexical_cast fnmatch buffer size h (s : St) :
  ends size -> (Z.of_nat (List.length buffer) < 2 ^ 31)%Z ->
  let round := handle_one sclose lexical_cast fnmatch buffer (fun s => S (size s)) h s in
  round = Err (Throws length_error) \/ round = Err (Throws bad_alloc)
  \/ exists o s1, recvRequest sclose lexical_cast (S (size s)) buffer s = Ok (o, s1)
    /\ match o with
       | None => round = Ok (false, None, s1)
       | Some req => exists req' rsp s2,
           dispatch_handle fnmatch (m_dispatch h) (req, prepared h req, s1) = (0%Z, (req', rsp, s2))
           /\ r_version (prepared h req) = m_version req
           /\ r_close (prepared h req) = negb (m_isKeepalive h && negb (m_close req))
           /\ let '(r, s3) := swrite (bytes_of (dump_response rsp)) s2 in
              ((r <= 0)%Z ->
                round = Ok (m_isKeepalive h && negb (m_close req'), Some rsp, s3))
              /\ ((0 < r)%Z -> round = Err (UB index_oob))
       end.
Proof.
  intros Hends Hbuf. unfold handle_one.
  destruct (recvRequest_returns sclose lexical_cast size buffer s Hends Hbuf) as [->|[->|(o & s1 & ->)]];
    [by auto..|right; right].
  exists o, s1. split; [done|]. cbn [mbind outcome_bind]. destruct o as [req|]; [|done].
  assert (exists x, dispatch_handle fnmatch (m_dispatch h) (req, prepared h req, s1) = (0%Z, x))
    as [[[req' rsp] s2] Hd] by (unfold dispatch_handle; destruct (getMatchedServlet _ _ _); eauto).
  rewrite Hd. exists req', rsp, s2. split_and!; [done|done| |].
  { simpl. by rewrite negb_andb, negb_involutive, orb_comm. }
  pose proof (sendResponse_cases rsp s2) as Hs.
  destruct (swrite _ s2) as [r s3]. destruct Hs as [Hbad Hok]. split; intros Hr.
  - rewrite Hok by done. simpl. by rewrite negb_orb, negb_involutive.
  - by rewrite Hbad.
Qed.

Lemma server_round_witness :
  exists rsp st', handle_one (M := http_parser) (MM := plenty) (fun t => t) digits_cast (fun _ _ => false)
      (replicate 128 0%Z) (fun t : tape => S (List.length t.2)) (newHttpServer true "s")
      ((small_request, [64]) : tape) = Ok (false, Some rsp, st') /\ r_status rsp = 404%Z.
Proof.
  destruct (server_round (M := http_parser) (MM := plenty) (fun t => t) digits_cast (fun _ _ => false)
    (replicate 128 0%Z) (fun t : tape => List.length t.2) (newHttpServer true "s")
    (small_request, [64]) tape_ends ltac:(done)) as [H|[H|(o & s1 & H & Hm)]];
    [exfalso; vm_compute in H; discriminate..|].
  vm_compute in H. injection H as <- <-. destruct Hm as (req' & rsp & s2 & Hd & _ & _ & Hw).
  vm_compute in Hd. injection Hd as <- <- <-. destruct Hw as [Hw _].
  eexists _, _. split; [apply Hw; vm_compute; discriminate|vm_compute; reflexivity].
Defined.
