(* ===== verification/HttpWire.v ===== *)
(** * Requests over the wire

    The text [HttpRequest::dump] prints, run through the machine of
    [http11_parser.rl.cc] and the callbacks of [http_parser.cc]: what the
    machine reports, and what [recvRequest] makes of it. *)

From stdpp Require Import base list gmap strings.
From Stdlib Require Import ZArith Lia Ascii String.
From S2P Require Import Prelude Http HttpTheorems HttpParser Ragel Http11Code Http11.

Local Open Scope Z_scope.
Local Notation length := List.length.

(** ** The edges of the automaton that requests take *)

Definition upper_digit (c : Z) : bool := within 48 57 c || within 65 90 c.

(** [pchar] without "%" and the relaxed delimiters; with "/" a path, with "?"
    also a query. *)
Definition segment_char (c : Z) : bool :=
  (c <? 0) || (c =? 33) || (c =? 36) || within 38 46 c || within 48 59 c || (c =? 61)
  || within 64 90 c || (c =? 95) || within 97 122 c || (c =? 126).
Definition path_char (c : Z) : bool := segment_char c || (c =? 47).
Definition query_char (c : Z) : bool := path_char c || (c =? 63).

Definition token_char (c : Z) : bool :=
  (c =? 33) || within 35 39 c || within 42 43 c || within 45 46 c || within 48 57 c
  || within 65 90 c || within 94 122 c || (c =? 124) || (c =? 126).

(** A header's value holds no line end, no zero and no DEL, and begins with
    no blank. *)
Definition value_char (c : Z) : bool := negb ((c =? 0) || (c =? 10) || (c =? 13) || (c =? 127)).
Definition value_first (c : Z) : bool := value_char c && negb ((c =? 9) || (c =? 32)).

(** The state after [k] characters of the method. *)
Definition method_state (k : nat) : Z := if (k =? 1)%nat then 2 else 173 + Z.of_nat k.

(** ** What the machine does with the parts of a request *)

Lemma set_marks_twice a b c d a' b' c' d' h :
  set_marks a b c d (set_marks a' b' c' d' h) = set_marks a b c d h.
Proof. done. Qed.
Lemma mark_set_marks a b c d h : hp_mark (set_marks a b c d h) = a.
Proof. done. Qed.
Lemma field_start_set_marks a b c d h : hp_field_start (set_marks a b c d h) = b.
Proof. done. Qed.
Lemma field_len_set_marks a b c d h : hp_field_len (set_marks a b c d h) = c.
Proof. done. Qed.
Lemma query_start_set_marks a b c d h : hp_query_start (set_marks a b c d h) = d.
Proof. done. Qed.

Create HintDb marks.
#[local] Hint Rewrite set_marks_twice mark_set_marks field_start_set_marks field_len_set_marks
  query_start_set_marks : marks.

(** Run the actions of an edge. *)
Local Ltac do_acts :=
  unfold run_actions; cbn [foldl]; repeat (progress (cbn [http_act]; unfold emit; cbn [fst snd]));
  autorewrite with marks.

Section run.
Context (r : bool) (h : http_parser).

Notation R := (http_run r).
Notation St m fs fl q cs := (set_marks m fs fl q h, cs).

Local Ltac edge := first [done | destruct r; vm_compute; reflexivity].

(** Follow one edge of the automaton. *)
Local Tactic Notation "follow" constr(cs) constr(ok) constr(acts) constr(n) :=
  unfold http_run at 1;
  rewrite (run_edge http_parser_code http_act http_breaks r cs ok acts n); [|edge|edge|edge|edge];
  fold (http_run r); do_acts.

Lemma R_loop cs ok l rest p s :
  edge http_parser_code r cs ok [] cs = true -> cs <> 0 -> forallb (fun b => ok (wraps 8 b)) l = true ->
  R cs p (l ++ rest)%list s = R cs (p + length l)%nat rest s.
Proof. apply run_loop. Qed.

Lemma R_char cs k acts n rest p s :
  edge http_parser_code r cs (Z.eqb k) acts n = true -> break_of http_breaks acts = None ->
  wraps 8 k = k -> n <> 0 ->
  R cs p (k :: rest) s = R n (S p) rest (run_actions http_act acts p (p + S (length rest)) s).
Proof. intros He Hb Hk Hn. eapply run_edge; [done|by rewrite Hk, Z.eqb_refl|done|done]. Qed.

(** A chain of states for the characters of the method. *)
Lemma method_edges k :
  (1 <= k < 20)%nat ->
  edge http_parser_code r (method_state k) upper_digit [] (method_state (S k)) = true.
Proof.
  intros Hk. assert (forallb (fun k => edge http_parser_code r (method_state k) upper_digit []
    (method_state (S k))) (seq 1 19) = true) as H by edge.
  rewrite forallb_forall in H. apply H, in_seq. lia.
Qed.

Lemma method_end_edges k :
  (1 <= k <= 20)%nat ->
  edge http_parser_code r (method_state k) (Z.eqb 32) [a_request_method] 3 = true.
Proof.
  intros Hk. assert (forallb (fun k => edge http_parser_code r (method_state k) (Z.eqb 32)
    [a_request_method] 3) (seq 1 20) = true) as H by edge.
  rewrite forallb_forall in H. apply H, in_seq. lia.
Qed.

Lemma method_state_pos k : method_state k <> 0.
Proof. unfold method_state. destruct (k =? 1)%nat; lia. Qed.

Lemma run_method_tail m rest k s :
  forallb (fun b => upper_digit (wraps 8 b)) m = true -> (1 <= k)%nat -> (k + length m <= 20)%nat ->
  R (method_state k) k (m ++ rest)%list s =
    R (method_state (k + length m)) (k + length m)%nat rest s.
Proof.
  revert k. induction m as [|b m IH]; intros k Hm Hk Hl;
    cbn [app length forallb] in *; [by rewrite Nat.add_0_r|].
  apply andb_true_iff in Hm as [Hb Hm]. unfold http_run at 1.
  rewrite (run_edge http_parser_code http_act http_breaks r _ _ _ _ _ _ _ _
    (method_edges k ltac:(lia)) Hb eq_refl (method_state_pos _)).
  fold (http_run r). cbn [run_actions foldl]. rewrite IH by (done || lia).
  by replace (k + S (length m))%nat with (S k + length m)%nat by lia.
Qed.

Lemma run_method m rest mk fs fl q cs :
  forallb (fun b => upper_digit (wraps 8 b)) m = true -> (1 <= length m <= 20)%nat ->
  R 1 0 (m ++ 32 :: rest)%list (St mk fs fl q cs) =
    R 3 (S (length m)) rest (St 0 fs fl q (cs ++ [Elem RequestMethod 0 (Z.of_nat (length m))])%list).
Proof.
  intros Hm Hlen. destruct m as [|b m]; [simpl in *; lia|]. simpl in Hm.
  apply andb_true_iff in Hm as [Hb Hm]. cbn [app]. follow 1 upper_digit [a_mark] 2.
  change 2 with (method_state 1). simpl in Hlen. rewrite run_method_tail by (done || lia).
  unfold http_run at 1.
  rewrite (run_edge http_parser_code http_act http_breaks r (method_state (1 + length m)) (Z.eqb 32)
    [a_request_method] 3) by (done || apply method_end_edges; lia).
  fold (http_run r). do_acts.
  rewrite LEN_small by lia. rewrite Z.sub_0_r. done.
Qed.

(** A path: "/", then nothing or something that does not begin with "/". *)
Definition path_ok (path : list Z) : bool :=
  match path with
  | 47 :: tail => pct_text path_char tail
                  && match tail with b :: _ => negb (wraps 8 b =? 47) | [] => true end
  | _ => false
  end.

Lemma pct_first ok l :
  pct_text ok l = true -> l <> [] ->
  match l with b :: _ => wraps 8 b = 37 \/ ok (wraps 8 b) = true | [] => False end.
Proof.
  intros Hl Hne. destruct l as [|b l]; [done|]. cbn [pct_text] in Hl.
  destruct (Z.eqb_spec (wraps 8 b) 37); [by left|right]. by apply andb_true_iff in Hl as [? _].
Qed.

Lemma path_first b l :
  pct_text path_char (b :: l) = true -> negb (wraps 8 b =? 47) = true ->
  wraps 8 b = 37 \/ segment_char (wraps 8 b) = true.
Proof.
  intros Hl Hf. destruct (pct_first path_char (b :: l) Hl ltac:(done)) as [?|Hb]; [by left|right].
  unfold path_char in Hb. apply negb_true_iff in Hf. by rewrite Hf, orb_false_r in Hb.
Qed.

Lemma run_path path rest p mk fs fl q cs :
  path_ok path = true ->
  exists c, (c = 26 \/ c = 33)
    /\ R 3 p (path ++ rest)%list (St mk fs fl q cs) =
         R c (p + length path)%nat rest (St (Z.of_nat p) fs fl q cs).
Proof.
  intros Hp. destruct path as [|b tail]; [done|].
  assert (b = 47 /\ pct_text path_char tail = true
    /\ match tail with b :: _ => negb (wraps 8 b =? 47) | [] => true end = true) as (-> & Ht & Hf).
  { unfold path_ok in Hp. destruct b as [|b|b]; try done.
    repeat (destruct b as [b|b|]; try done). by apply andb_true_iff in Hp. }
  clear Hp. cbn [app]. follow 3 (Z.eqb 47) [a_mark] 33.
  destruct tail as [|b tail]; [exists 33; split; [by right|]; f_equal; simpl; lia|].
  exists 26. split; [by left|]. unfold http_run at 1.
  rewrite (run_pct_from http_parser_code http_act http_breaks r 33 [] 26 27 28 segment_char path_char)
    by (edge || by eapply path_first). fold (http_run r). f_equal; simpl; lia.
Qed.

Lemma run_query l rest p mk fs fl q cs :
  pct_text query_char l = true -> l <> [] ->
  R 29 p (l ++ rest)%list (St mk fs fl q cs) = R 30 (p + length l)%nat rest (St mk fs fl (Z.of_nat p) cs).
Proof.
  intros Hl Hne. unfold http_run at 1.
  rewrite (run_pct_from http_parser_code http_act http_breaks r 29 [a_start_query] 30 31 32
    query_char query_char) by (edge || by apply pct_first).
  fold (http_run r). by do_acts.
Qed.

Lemma run_fragment l rest p mk fs fl q cs :
  pct_text query_char l = true -> l <> [] ->
  R 20 p (l ++ rest)%list (St mk fs fl q cs) = R 21 (p + length l)%nat rest (St (Z.of_nat p) fs fl q cs).
Proof.
  intros Hl Hne. unfold http_run at 1.
  rewrite (run_pct_from http_parser_code http_act http_breaks r 20 [a_mark] 21 22 23
    query_char query_char) by (edge || by apply pct_first).
  fold (http_run r). by do_acts.
Qed.

Lemma run_version v rest p mk fs fl q cs :
  v = 48 \/ v = 49 -> Z.of_nat p < 2 ^ 30 ->
  R 4 p ([72; 84; 84; 80; 47; 49; 46; v; 13; 10] ++ rest)%list (St mk fs fl q cs) =
    R 13 (p + 10)%nat rest
      (St (Z.of_nat p) fs fl q (cs ++ [Elem HttpVersion (Z.of_nat p) 8])%list).
Proof.
  intros Hv Hp. assert (within 48 49 (wraps 8 v) = true) by (by destruct Hv as [-> | ->]).
  cbn [app]. follow 4 (Z.eqb 72) [a_mark] 5. follow 5 (Z.eqb 84) (@nil action) 6.
  follow 6 (Z.eqb 84) (@nil action) 7. follow 7 (Z.eqb 80) (@nil action) 8.
  follow 8 (Z.eqb 47) (@nil action) 9. follow 9 (Z.eqb 49) (@nil action) 10.
  follow 10 (Z.eqb 46) (@nil action) 11. follow 11 (within 48 49) (@nil action) 12.
  follow 12 (Z.eqb 13) [a_http_version] 17. follow 17 (Z.eqb 10) (@nil action) 13.
  rewrite LEN_small by lia.
  match goal with |- context [Elem HttpVersion _ ?x] => replace x with 8 by lia end. f_equal; lia.
Qed.

(** ** The request target *)

(** [path], "?" and the query when there is one, "#" and the fragment when
    there is one. *)
Definition opt (c : Z) (l : list Z) : list Z := match l with [] => [] | _ => c :: l end.
Definition target (path query frag : list Z) : list Z := (path ++ opt 63 query ++ opt 35 frag)%list.

(** What is reported for a target at [p]. *)
Definition query_calls (p : nat) (path query : list Z) : list (call request_elem) :=
  match query with
  | [] => [Elem RequestUri (Z.of_nat p) (Z.of_nat (length path))]
  | _ => [Elem QueryString (Z.of_nat (p + length path + 1)) (Z.of_nat (length query));
          Elem RequestUri (Z.of_nat p) (Z.of_nat (length path + 1 + length query))]
  end.
Definition fragment_calls (p : nat) (frag : list Z) : list (call request_elem) :=
  match frag with [] => [] | _ => [Elem Fragment (Z.of_nat (p + 1)) (Z.of_nat (length frag))] end.
Definition target_calls (p : nat) (path query frag : list Z) : list (call request_elem) :=
  Elem RequestPath (Z.of_nat p) (Z.of_nat (length path)) :: query_calls p path query
  ++ fragment_calls (p + length path + length (opt 63 query)) frag.

(** The end of the path or of the query, and the fragment. *)
Lemma run_tail c acts calls frag rest p mk fs fl q cs :
  (edge http_parser_code r c (Z.eqb 32) acts 4 = true
   /\ edge http_parser_code r c (Z.eqb 35) acts 20 = true) ->
  break_of http_breaks acts = None ->
  (forall pe, run_actions http_act acts p pe (St mk fs fl q cs) = (St mk fs fl q (cs ++ calls))%list) ->
  pct_text query_char frag = true -> Z.of_nat (p + length frag) < 2 ^ 30 ->
  exists mk', R c p (opt 35 frag ++ 32 :: rest)%list (St mk fs fl q cs) =
    R 4 (p + length (opt 35 frag) + 1)%nat rest
      (St mk' fs fl q (cs ++ calls ++ fragment_calls p frag))%list.
Proof.
  intros [E1 E2] Hbr Hacts Hf Hp. destruct frag as [|f frag].
  - exists mk. cbn [opt app fragment_calls length].
    rewrite (R_char c 32 acts 4), Hacts, app_nil_r by done. f_equal. lia.
  - exists (Z.of_nat (S p)). cbn [opt app]. rewrite (R_char c 35 acts 20), Hacts by done.
    change (f :: frag ++ 32 :: rest)%list with ((f :: frag) ++ 32 :: rest)%list.
    rewrite run_fragment by done. set (l := f :: frag) in *.
    follow 21 (Z.eqb 32) [a_fragment] 4. rewrite LEN_small by lia. unfold fragment_calls.
    subst l. cbn [length] in *. rewrite <- List.app_assoc. replace (S p) with (p + 1)%nat by lia.
    replace (Z.of_nat (p + 1 + S (length frag)) - Z.of_nat (p + 1)) with (Z.of_nat (S (length frag)))
      by lia. f_equal; lia.
Qed.

Lemma run_target path query frag rest p mk fs fl q cs :
  path_ok path = true -> pct_text query_char query = true -> pct_text query_char frag = true ->
  Z.of_nat (p + length (target path query frag)) < 2 ^ 30 ->
  exists mk' q', R 3 p (target path query frag ++ 32 :: rest)%list (St mk fs fl q cs) =
    R 4 (p + length (target path query frag) + 1)%nat rest
      (St mk' fs fl q' (cs ++ target_calls p path query frag))%list.
Proof.
  intros Hp Hq Hf Hlen. unfold target in *. rewrite !length_app in Hlen. rewrite <- !List.app_assoc.
  destruct (run_path path (opt 63 query ++ opt 35 frag ++ 32 :: rest)%list p mk fs fl q cs Hp)
    as (c & Hc & ->). destruct query as [|x query].
  - cbn [opt app length] in *.
    destruct (run_tail c [a_request_path; a_request_uri]
      [Elem RequestPath (Z.of_nat p) (Z.of_nat (length path));
       Elem RequestUri (Z.of_nat p) (Z.of_nat (length path))]
      frag rest (p + length path) (Z.of_nat p) fs fl q cs) as [mk' ->].
    + split; destruct Hc as [-> | ->]; edge.
    + done.
    + intros pe. do_acts. rewrite LEN_small by lia. rewrite <- List.app_assoc. cbn [app].
      by replace (Z.of_nat (p + length path) - Z.of_nat p) with (Z.of_nat (length path)) by lia.
    + done.
    + destruct frag; simpl in *; lia.
    + exists mk', q. rewrite length_app. unfold target_calls, query_calls. cbn [app opt length].
      rewrite Nat.add_0_r. f_equal; lia.
  - set (l := x :: query) in *. change (opt 63 l) with (63 :: l) in *. cbn [app length] in *.
    rewrite (R_char c 63 [a_request_path] 29); [|destruct Hc as [-> | ->]; edge|done|done|done].
    do_acts.
    rewrite LEN_small by lia. rewrite run_query by done.
    destruct (run_tail 30 [a_query_string; a_request_uri]
      [Elem QueryString (Z.of_nat (p + length path + 1)) (Z.of_nat (length l));
       Elem RequestUri (Z.of_nat p) (Z.of_nat (length path + 1 + length l))]
      frag rest (S (p + length path) + length l) (Z.of_nat p) fs fl
      (Z.of_nat (S (p + length path)))
      (cs ++ [Elem RequestPath (Z.of_nat p) (Z.of_nat (p + length path) - Z.of_nat p)])%list)
      as [mk' ->].
    + split; edge.
    + done.
    + intros pe. do_acts. rewrite !LEN_small by lia. rewrite <- !List.app_assoc. cbn [app].
      replace (S (p + length path)) with (p + length path + 1)%nat by lia.
      replace (Z.of_nat (p + length path + 1 + length l) - Z.of_nat (p + length path + 1))
        with (Z.of_nat (length l)) by lia.
      by replace (Z.of_nat (p + length path + 1 + length l) - Z.of_nat p)
        with (Z.of_nat (length path + 1 + length l)) by lia.
    + done.
    + destruct frag; simpl in *; lia.
    + eexists mk', _. rewrite !length_app. unfold target_calls, query_calls. cbn [app length].
      subst l. cbn [length]. rewrite <- !List.app_assoc. cbn [app].
      replace (Z.of_nat (p + length path) - Z.of_nat p) with (Z.of_nat (length path)) by lia.
      replace (p + length path + length (opt 63 (x :: query)))%nat
        with (S (p + length path) + S (length query))%nat by (simpl; lia).
      f_equal. simpl. rewrite length_app. lia.
Qed.

(** ** Headers *)

(** A header line: the name, whether a blank follows the colon, the value. *)
Definition hline : Type := list Z * bool * list Z.

Definition hline_ok (l : hline) : bool :=
  let '(name, _, value) := l in
  negb (length name =? 0)%nat && forallb (fun b => token_char (wraps 8 b)) name
  && forallb (fun b => value_char (wraps 8 b)) value
  && match value with b :: _ => value_first (wraps 8 b) | [] => true end.

Definition hline_bytes (l : hline) : list Z :=
  let '(name, blank, value) := l in
  (name ++ 58 :: (if blank then [32] else []) ++ value ++ [13; 10])%list.

Definition hline_call {E} (p : nat) (l : hline) : call E :=
  let '(name, blank, value) := l in
  Field (Z.of_nat p) (Z.of_nat (length name))
    (Z.of_nat (p + length name + 1 + (if blank then 1 else 0))) (Z.of_nat (length value)).

(** From the state after the colon and blanks, the mark being wherever. *)
Lemma run_value value rest p mk fs fl q cs :
  forallb (fun b => value_char (wraps 8 b)) value = true ->
  match value with b :: _ => value_first (wraps 8 b) | [] => true end = true ->
  Z.of_nat (p + length value) < 2 ^ 30 ->
  exists mk', R 15 p (value ++ 13 :: 10 :: rest)%list (St mk fs fl q cs) =
    R 13 (p + length value + 2)%nat rest
      (St mk' fs fl q (cs ++ [Field fs fl (Z.of_nat p) (Z.of_nat (length value))]))%list.
Proof.
  intros Hv Hf Hp. exists (Z.of_nat p). destruct value as [|b value].
  - cbn [app length]. follow 15 (Z.eqb 13) [a_mark; a_write_value] 17.
    follow 17 (Z.eqb 10) (@nil action) 13. rewrite LEN_small by lia. rewrite Z.sub_diag.
    f_equal. lia.
  - simpl in Hv. apply andb_true_iff in Hv as [_ Hv]. cbn [app]. cbn [length] in Hp.
    follow 15 value_first [a_mark] 16. rewrite (R_loop 16 value_char) by edge.
    follow 16 (Z.eqb 13) [a_write_value] 17. follow 17 (Z.eqb 10) (@nil action) 13.
    rewrite LEN_small by lia. cbn [length].
    replace (Z.of_nat (S p + length value) - Z.of_nat p) with (Z.of_nat (S (length value))) by lia.
    f_equal. lia.
Qed.

Lemma run_header l rest p mk fs fl q cs :
  hline_ok l = true -> Z.of_nat (p + length (hline_bytes l)) < 2 ^ 30 ->
  exists mk' fs' fl', R 13 p (hline_bytes l ++ rest)%list (St mk fs fl q cs) =
    R 13 (p + length (hline_bytes l))%nat rest (St mk' fs' fl' q (cs ++ [hline_call p l]))%list.
Proof.
  destruct l as [[name blank] value]. unfold hline_ok. intros Hok Hp.
  apply andb_true_iff in Hok as [Hok Hf]. apply andb_true_iff in Hok as [Hok Hv].
  apply andb_true_iff in Hok as [Hne Hn]. unfold hline_bytes in *.
  destruct name as [|b name]; [done|]. clear Hne. simpl in Hn. apply andb_true_iff in Hn as [Hb Hn].
  rewrite <- List.app_assoc. cbn [app]. rewrite <- !List.app_assoc.
  cbn [length app] in Hp. rewrite length_app in Hp. cbn [length] in Hp. rewrite !length_app in Hp.
  follow 13 token_char [a_start_field] 14. rewrite (R_loop 14 token_char) by edge.
  follow 14 (Z.eqb 58) [a_write_field] 15. rewrite LEN_small by lia.
  set (pos := S (S p + length name)) in *.
  assert (exists mk2, R 15 pos ((if blank then [32] else []) ++ value ++ [13; 10] ++ rest)%list
      (St mk (Z.of_nat p) (Z.of_nat (S p + length name) - Z.of_nat p) q cs) =
    R 15 (pos + (if blank then 1 else 0))%nat (value ++ 13 :: 10 :: rest)%list
      (St mk2 (Z.of_nat p) (Z.of_nat (S p + length name) - Z.of_nat p) q cs)) as [mk2 ->].
  { destruct blank; cbn [app]; [|exists mk; by rewrite Nat.add_0_r].
    eexists. follow 15 (Z.eqb 32) [a_mark] 15. by rewrite Nat.add_1_r. }
  destruct (run_value value rest (pos + (if blank then 1 else 0)) mk2 (Z.of_nat p)
    (Z.of_nat (S p + length name) - Z.of_nat p) q cs Hv Hf) as [mk' ->];
    [simpl in Hp; destruct blank; simpl in Hp; lia|].
  eexists mk', _, _. f_equal.
  - cbn [app length]. rewrite length_app. cbn [length]. rewrite !length_app. destruct blank; simpl; lia.
  - unfold hline_call. cbn [length].
    replace (Z.of_nat (S p + length name) - Z.of_nat p) with (Z.of_nat (S (length name))) by lia.
    replace (pos + (if blank then 1 else 0))%nat with (p + S (length name) + 1 + (if blank then 1 else 0))%nat
      by (subst pos; lia). reflexivity.
Qed.

Definition hlines_bytes (ls : list hline) : list Z := List.concat (map hline_bytes ls).

Fixpoint hlines_calls {E} (p : nat) (ls : list hline) : list (call E) :=
  match ls with
  | [] => []
  | l :: ls => hline_call p l :: hlines_calls (p + length (hline_bytes l)) ls
  end.

Lemma run_headers ls rest p mk fs fl q cs :
  forallb hline_ok ls = true -> Z.of_nat (p + length (hlines_bytes ls)) < 2 ^ 30 ->
  exists mk' fs' fl', R 13 p (hlines_bytes ls ++ rest)%list (St mk fs fl q cs) =
    R 13 (p + length (hlines_bytes ls))%nat rest
      (St mk' fs' fl' q (cs ++ hlines_calls p ls))%list.
Proof.
  revert p mk fs fl cs. induction ls as [|l ls IH]; intros p mk fs fl cs Hok Hp.
  { exists mk, fs, fl. cbn. by rewrite Nat.add_0_r, app_nil_r. }
  simpl in Hok. apply andb_true_iff in Hok as [Hl Hok].
  change (hlines_bytes (l :: ls)) with (hline_bytes l ++ hlines_bytes ls)%list in *.
  rewrite length_app in Hp. rewrite <- List.app_assoc.
  destruct (run_header l (hlines_bytes ls ++ rest)%list p mk fs fl q cs Hl) as (m1 & f1 & l1 & ->);
    [lia|].
  destruct (IH (p + length (hline_bytes l))%nat m1 f1 l1 (cs ++ [hline_call p l])%list Hok)
    as (m2 & f2 & l2 & ->); [lia|].
  exists m2, f2, l2. rewrite length_app, Nat.add_assoc, <- List.app_assoc. done.
Qed.

(** The empty line. *)
Lemma run_end rest p mk fs fl q cs :
  hp_xml_sent h || hp_json_sent h = false ->
  exists fs', R 13 p (13 :: 10 :: rest) (St mk fs fl q cs) =
    (348, (p + 2)%nat,
     (set_body (Z.of_nat (S p) + 1) (hp_content_len h) (set_marks mk fs' fl q h),
      cs ++ [Elem HeaderDone (Z.of_nat (S p) + 1) (Z.of_nat (length rest))]))%list.
Proof.
  intros Hs. eexists. follow 13 (Z.eqb 13) [a_start_field] 18. unfold http_run.
  rewrite (run_edge_break http_parser_code http_act http_breaks r 18 (Z.eqb 10) [a_done 348] 348
    _ _ _ _ 348) by edge.
  unfold run_actions. cbn [foldl http_act].
  change (hp_xml_sent (set_marks _ _ _ _ h)) with (hp_xml_sent h).
  change (hp_json_sent (set_marks _ _ _ _ h)) with (hp_json_sent h). rewrite Hs. unfold emit.
  cbn [fst snd]. replace (S (S p)) with (p + 2)%nat by lia.
  by replace (Z.of_nat (S p + S (length rest)) - Z.of_nat (S p) - 1) with (Z.of_nat (length rest)) by lia.
Qed.
End run.

(** ** A whole head *)

Record head := Head {
  hd_method : list Z;
  hd_path : list Z;
  hd_query : list Z;
  hd_fragment : list Z;
  hd_minor : Z;
  hd_lines : list hline;
}.

Definition head_ok (d : head) : bool :=
  forallb (fun b => upper_digit (wraps 8 b)) (hd_method d)
  && (1 <=? length (hd_method d))%nat && (length (hd_method d) <=? 20)%nat
  && path_ok (hd_path d) && pct_text query_char (hd_query d) && pct_text query_char (hd_fragment d)
  && ((hd_minor d =? 48) || (hd_minor d =? 49)) && forallb hline_ok (hd_lines d).

Definition head_target (d : head) : list Z := target (hd_path d) (hd_query d) (hd_fragment d).

Definition head_bytes (d : head) : list Z :=
  (hd_method d ++ 32 :: head_target d ++ 32 :: [72; 84; 84; 80; 47; 49; 46; hd_minor d; 13; 10]
   ++ hlines_bytes (hd_lines d) ++ [13; 10])%list.

(** Where the parts begin. *)
Definition target_at (d : head) : nat := S (length (hd_method d)).
Definition version_at (d : head) : nat := target_at d + length (head_target d) + 1.
Definition lines_at (d : head) : nat := version_at d + 10.

Definition head_calls (d : head) : list (call request_elem) :=
  Elem RequestMethod 0 (Z.of_nat (length (hd_method d)))
  :: target_calls (target_at d) (hd_path d) (hd_query d) (hd_fragment d)
  ++ Elem HttpVersion (Z.of_nat (version_at d)) 8
  :: hlines_calls (lines_at d) (hd_lines d).

Lemma length_head d : length (head_bytes d) = (lines_at d + length (hlines_bytes (hd_lines d)) + 2)%nat.
Proof.
  unfold head_bytes, lines_at, version_at, target_at. rewrite length_app. cbn [length].
  rewrite length_app. cbn [length app]. rewrite !length_app. simpl. lia.
Qed.

(** The machine reads a well-formed head in one call, whatever follows it, and
    reports its parts. *)
Lemma execute_head q0 r d rest :
  head_ok d = true -> Z.of_nat (length (head_bytes d ++ rest)%list) < 2 ^ 30 ->
  exists h', http_parser_execute (head_bytes d ++ rest)%list 0 (http_parser_init q0 r) =
      Ok ((head_calls d ++ [Elem HeaderDone (Z.of_nat (length (head_bytes d))) (Z.of_nat (length rest))])%list,
          length (head_bytes d), h')
    /\ hp_cs h' = 348.
Proof.
  intros Hok Hlen. set (h := http_parser_init q0 r). set (buf := (head_bytes d ++ rest)%list) in *.
  destruct (http_execute_ok buf h ltac:(by constructor) ltac:(lia)) as (calls & n & h' & H & _).
  unfold head_ok in Hok. rewrite !andb_true_iff, !Nat.leb_le, orb_true_iff, !Z.eqb_eq in Hok.
  destruct Hok as (((((((Hm & Hm1) & Hm2) & Hp) & Hq) & Hf) & Hv) & Hls).
  pose proof (length_head d) as Hl.
  assert (Z.of_nat (length (head_bytes d)) < 2 ^ 30) by (subst buf; rewrite length_app in Hlen; lia).
  assert (exists h1, http_run r 1 0 buf (set_nread 0 (set_marks 0 0 0 q0 h), []) =
    (348, length (head_bytes d), (h1,
      (head_calls d ++ [Elem HeaderDone (Z.of_nat (length (head_bytes d))) (Z.of_nat (length rest))])%list))
    /\ hp_cs h1 = 1 /\ hp_nread h1 = 0) as (h1 & Hrun & Hcs & Hn).
  { change (set_nread 0 (set_marks 0 0 0 q0 h)) with (set_marks 0 0 0 q0 h).
    subst buf. unfold head_bytes at 1. rewrite <- List.app_assoc, <- List.app_comm_cons.
    rewrite run_method by (done || lia).
    rewrite <- List.app_assoc, <- List.app_comm_cons. fold (target_at d).
    unfold lines_at, version_at in Hl. unfold head_target in *.
    edestruct (run_target r h (hd_path d) (hd_query d) (hd_fragment d)) as (mk1 & q1 & ->);
      [done..|lia|]. rewrite <- List.app_assoc.
    rewrite run_version by (done || lia). rewrite <- List.app_assoc.
    edestruct (run_headers r h (hd_lines d)) as (mk2 & fs2 & fl2 & ->); [done|lia|]. cbn [app].
    edestruct (run_end r h rest) as (fs3 & ->); [done|].
    eexists (set_body _ _ (set_marks mk2 fs3 fl2 q1 h)). split_and!; [|done|done].
    rewrite Hl. unfold head_calls, lines_at, version_at, head_target.
    match goal with |- context [Elem HeaderDone (Z.of_nat (S ?x) + 1)] =>
      replace (Z.of_nat (S x) + 1) with (Z.of_nat (x + 2)) by lia end.
    rewrite <- !List.app_assoc. cbn [app]. rewrite <- !List.app_assoc. reflexivity. }
  assert (buf <> []) as Hne by (subst buf; destruct (head_bytes d); [simpl in Hl; lia|done]).
  destruct (http_execute_result buf h calls n h' _ _ _ _ H Hne eq_refl Hrun Hcs Hn) as (-> & -> & ?).
  by exists h'.
Qed.

(** ** The callbacks *)

Local Open Scope string_scope.

Lemma text_at data pre l post :
  data = (pre ++ l ++ post)%list -> Z.of_nat (length data) < 2 ^ 31 ->
  text data (Z.of_nat (length pre)) (Z.of_nat (length l)) = Ok (string_of l).
Proof.
  intros -> Hlen. rewrite !length_app in Hlen.
  rewrite text_ok by (rewrite ?length_app; unfold max_size; lia). do 2 f_equal.
  rewrite !Nat2Z.id. unfold slice. rewrite drop_app_length. by rewrite take_app_length.
Qed.

Lemma ctext_at data pre post :
  data = (pre ++ post)%list -> ctext data (Z.of_nat (length pre)) = string_of post.
Proof. intros ->. unfold ctext. by rewrite Nat2Z.id, drop_app_length. Qed.

(** The texts a header line's callback is given. *)
Lemma hline_texts data pre l post :
  data = (pre ++ hline_bytes l ++ post)%list -> Z.of_nat (length data) < 2 ^ 31 ->
  let '(name, blank, value) := l in
  text data (Z.of_nat (length pre)) (Z.of_nat (length name)) = Ok (string_of name)
  /\ text data (Z.of_nat (length pre + length name + 1 + (if blank then 1 else 0)))
       (Z.of_nat (length value)) = Ok (string_of value).
Proof.
  destruct l as [[name blank] value]. unfold hline_bytes. intros Hd Hlen.
  pose proof (text_at data pre name
    (58 :: (if blank then [32] else []) ++ value ++ [13; 10] ++ post)%list) as E1.
  pose proof (text_at data (pre ++ name ++ [58] ++ (if blank then [32] else []))%list value
    ([13; 10] ++ post)%list) as E2.
  rewrite !length_app, !Nat.add_assoc in E2.
  replace (length (if blank then [32] else [])) with (if blank then 1 else 0)%nat in E2
    by (by destruct blank). cbn [length] in E2.
  rewrite E1, E2; [done| |done| |done]; rewrite Hd, <- !List.app_assoc; cbn [app];
    by rewrite <- !List.app_assoc.
Qed.

Section callbacks.
Context `{!Machine request_elem http_parser}.
Implicit Types P : HttpRequestParser http_parser.

Lemma calls_app data cs1 cs2 P :
  on_request_calls data (cs1 ++ cs2)%list P =
    (P ← on_request_calls data cs1 P; on_request_calls data cs2 P).
Proof.
  revert P. induction cs1 as [|c cs1 IH]; intros P; [done|]. cbn [on_request_calls app].
  destruct (on_request_call data c P) as [P'|]; [|done]. cbn [mbind outcome_bind]. apply IH.
Qed.

Definition set_if (l : list Z) (f : string -> HttpRequest -> HttpRequest) (q : HttpRequest) :=
  match l with [] => q | _ => f (string_of l) q end.

Lemma update_update f g P : update f (update g P) = update (fun q => f (g q)) P.
Proof. done. Qed.

Lemma target_heard data pre post path query frag P :
  data = (pre ++ target path query frag ++ post)%list -> Z.of_nat (length data) < 2 ^ 31 ->
  on_request_calls data (target_calls (length pre) path query frag) P =
    Ok (update (fun q => set_if frag setFragment (set_if query setQuery (setPath (string_of path) q))) P).
Proof.
  intros Hd Hlen. unfold target in Hd. rewrite <- !List.app_assoc in Hd.
  unfold target_calls. cbn [on_request_calls on_request_call].
  rewrite (text_at data pre path (opt 63 query ++ opt 35 frag ++ post)%list) by done.
  cbn [mbind outcome_bind]. rewrite calls_app.
  assert (on_request_calls data (query_calls (length pre) path query) (update (setPath (string_of path)) P)
    = Ok (update (fun q => set_if query setQuery (setPath (string_of path) q)) P)) as ->.
  { destruct query as [|x query]; [done|]. unfold query_calls, set_if.
    cbn [on_request_calls on_request_call].
    pose proof (text_at data (pre ++ path ++ [63])%list (x :: query) (opt 35 frag ++ post)%list) as E.
    rewrite !length_app, Nat.add_assoc in E. cbn [length] in E |- *. rewrite E; [done| |done].
    rewrite Hd. cbn [opt]. rewrite <- !List.app_assoc. done. }
  cbn [mbind outcome_bind]. destruct frag as [|x frag]; [done|]. unfold fragment_calls, set_if.
  cbn [on_request_calls on_request_call].
  pose proof (text_at data (pre ++ path ++ opt 63 query ++ [35])%list (x :: frag) post) as E.
  rewrite !length_app, !Nat.add_assoc in E. cbn [length] in E |- *. rewrite E; [done| |done].
  rewrite Hd. cbn [opt]. rewrite <- !List.app_assoc. done.
Qed.

Definition hear_line (q : HttpRequest) (l : hline) : HttpRequest :=
  let '(name, _, value) := l in setHeader (string_of name) (string_of value) q.

Lemma lines_heard ls data pre post P :
  data = (pre ++ hlines_bytes ls ++ post)%list -> Z.of_nat (length data) < 2 ^ 31 ->
  forallb hline_ok ls = true ->
  on_request_calls data (hlines_calls (length pre) ls) P =
    Ok (update (fun q => foldl hear_line q ls) P).
Proof.
  revert pre P. induction ls as [|l ls IH]; intros pre P Hd Hlen Hok; [by destruct P|].
  simpl in Hok. apply andb_true_iff in Hok as [Hl Hok].
  change (hlines_bytes (l :: ls)) with (hline_bytes l ++ hlines_bytes ls)%list in Hd.
  cbn [hlines_calls on_request_calls].
  assert (on_request_call data (hline_call (length pre) l) P = Ok (update (fun q => hear_line q l) P)) as ->.
  { pose proof (hline_texts data pre l (hlines_bytes ls ++ post)%list) as Ht.
    destruct l as [[name blank] value]. unfold hline_ok in Hl.
    cbn [on_request_call hline_call]. unfold on_request_http_field.
    destruct (Z.eqb_spec (Z.of_nat (length name)) 0) as [E|_].
    { destruct name; [done|simpl in E; lia]. }
    destruct Ht as [-> ->]; [by rewrite Hd, <- !List.app_assoc|done|done]. }
  cbn [mbind outcome_bind].
  specialize (IH (pre ++ hline_bytes l)%list). rewrite length_app in IH. rewrite IH; [done| |done|done].
  by rewrite Hd, <- !List.app_assoc.
Qed.
End callbacks.

(** ** Decimal numbers *)

Definition digit_char (c : Z) : bool := within 48 57 c.

(** A number of decimal digits, as [atoi] reads it. *)
Definition digits_value (ds : list Z) : Z := atoi_digits 0 (string_of ds).

Lemma digit_of_char b : digit_char (wraps 8 b) = true -> exists d, digit_of (char_of b) = Some d.
Proof.
  unfold digit_char, within, digit_of, char_of. intros H.
  apply andb_true_iff in H as [H1 H2]. apply Z.leb_le in H1, H2.
  rewrite nat_ascii_embedding.
  2: { pose proof (wrapu_range 8 b ltac:(lia)) as [? ?]. unfold u8. lia. }
  assert (u8 b = wraps 8 b) as ->.
  { unfold u8, wrapu, wraps in *. change (2 ^ (8 - 1)) with 128 in *. change (2 ^ 8) with 256 in *.
    pose proof (Z.mod_pos_bound (b + 128) 256 ltac:(lia)).
    pose proof (Z.div_mod (b + 128) 256 ltac:(lia)) as E.
    symmetry. apply (Z.mod_unique _ _ ((b + 128) / 256)); lia. }
  destruct (Nat.leb_spec 48 (Z.to_nat (wraps 8 b))); [|lia].
  destruct (Nat.leb_spec (Z.to_nat (wraps 8 b)) 57); [|lia]. simpl. eauto.
Qed.

Lemma atoi_digits_stop a ds c rest :
  digit_of (char_of c) = None ->
  forallb (fun b => digit_char (wraps 8 b)) ds = true ->
  atoi_digits a (string_of (ds ++ c :: rest)%list) = atoi_digits a (string_of ds).
Proof.
  intros Hc. revert a. induction ds as [|d ds IH]; intros a Hd; cbn [app string_of atoi_digits].
  { by rewrite Hc. }
  simpl in Hd. apply andb_true_iff in Hd as [H1 H2].
  destruct (digit_of_char _ H1) as [x ->]. by apply IH.
Qed.

Lemma atoi_number ds c rest :
  digit_of (char_of c) = None ->
  ds <> [] -> forallb (fun b => digit_char (wraps 8 b)) ds = true -> in_s 32 (digits_value ds) ->
  atoi (string_of (ds ++ c :: rest)%list) = Ok (digits_value ds).
Proof.
  intros Hc Hne Hd Hr. destruct ds as [|d ds]; [done|]. pose proof Hd as Hd'.
  simpl in Hd. apply andb_true_iff in Hd as [H1 H2]. destruct (digit_of_char _ H1) as [x Hx].
  cbn [app string_of atoi].
  assert (isspace (char_of d) = false /\ Ascii.eqb (char_of d) "-" = false
    /\ Ascii.eqb (char_of d) "+" = false) as (-> & E1 & E2).
  { unfold digit_of in Hx. unfold isspace. set (x0 := char_of d) in *.
    destruct ((48 <=? nat_of_ascii x0) && (nat_of_ascii x0 <=? 57))%nat eqn:E; [|done].
    apply andb_true_iff in E as [Ea Eb]. apply Nat.leb_le in Ea, Eb.
    split_and!; [apply orb_false_iff; split; [apply Nat.eqb_neq; lia|apply andb_false_iff; right; apply Nat.leb_gt; lia]| |];
      apply Ascii.eqb_neq; intros Hx0; rewrite Hx0 in Ea, Eb; vm_compute in Ea, Eb; lia. }
  unfold atoi_sign. rewrite E1, E2.
  change (String (char_of d) (string_of (ds ++ c :: rest)%list))
    with (string_of ((d :: ds) ++ c :: rest)%list).
  rewrite atoi_digits_stop by done. fold (digits_value (d :: ds)).
  unfold sarith. by rewrite decide_True.
Qed.

Lemma atoi_read a s :
  forallb (fun b => digit_char (wraps 8 b)) (bytes_of s) = true -> atoi_digits a s = read_dec a s.
Proof.
  revert a. induction s as [|c s IH]; intros a H; [done|]. cbn [bytes_of forallb] in H.
  apply andb_true_iff in H as [H1 H2]. cbn [atoi_digits read_dec].
  destruct (digit_of_char _ H1) as [d Hd]. rewrite char_of_byte_of in Hd. rewrite Hd.
  unfold digit_of in Hd. destruct (_ && _); [|done]. injection Hd as <-. by apply IH.
Qed.
