(* ===== verification/HttpClientWire.v ===== *)
(** * Responses over the wire: the response machine

    What [httpclient_parser_execute] makes of a well-formed head and of the
    line of a chunk's size.  The grammar knows the headers [connection],
    [content-length] and [transfer-encoding] by name, so the automaton has many
    states for one place in a line; the places are sets of states here. *)

From stdpp Require Import base list strings.
From Stdlib Require Import ZArith Lia Ascii String.
From S2P Require Import Prelude Http HttpParser Ragel HttpWire Http11 HttpClientCode HttpClientParser.

Local Open Scope Z_scope.
Local Notation length := List.length.

(** ** The places of a line *)

Definition line_start : list Z := [20; 43].
Definition in_name : list Z := 21 :: seqZ 25 10 ++ seqZ 44 17 ++ seqZ 101 11.
Definition after_colon : list Z := [22; 35; 61; 112].
Definition in_cvalue : list Z := [23; 119] ++ seqZ 81 7 ++ seqZ 96 5.
Definition after_cr : list Z := [24; 71; 88].

(** Any character but the line ends; blanks cannot begin a value. *)
Definition cvalue_char (c : Z) : bool := negb ((c =? 10) || (c =? 13)).
Definition cvalue_first (c : Z) : bool := negb ((c =? 32) || within 9 13 c).

(** ** Recognising a word

    [track w k c] is how far into [w] the characters up to [c] have come. *)

Definition lowerc (c : Z) : Z := if within 65 90 c then c + 32 else c.

Definition track (w : list Z) (k : option nat) (c : Z) : option nat :=
  k ← k; x ← w !! k; if lowerc c =? x then Some (S k) else None.

Lemma track_all w k l :
  foldl (track w) (Some k) l = Some (length w) <-> map lowerc l = drop k w /\ (k <= length w)%nat.
Proof.
  revert k. induction l as [|c l IH]; intros k; cbn [foldl map].
  { split.
    - intros [= ->]. by rewrite drop_all.
    - intros [H Hk]. symmetry in H. apply (f_equal length) in H. rewrite length_drop in H. simpl in H.
      f_equal. lia. }
  unfold track at 2. cbn [mbind option_bind].
  assert (forall l, foldl (track w) None l = None) as HN by (intros l'; by induction l').
  destruct (w !! k) as [x|] eqn:E; cbn [mbind option_bind].
  - rewrite (drop_S _ _ _ E). apply lookup_lt_Some in E.
    destruct (Z.eqb_spec (lowerc c) x) as [->|Hne].
    + rewrite IH. split; intros [H Hk]; [|injection H as H]; split; [by f_equal|lia|done|lia].
    + rewrite HN. split; [done|]. by intros [[= ? ?] _].
  - rewrite HN. apply lookup_ge_None in E. split; [done|]. intros [H Hk]. by rewrite drop_ge in H.
Qed.

Definition te_word : list Z := bytes_of "transfer-encoding".
Definition chunked_word : list Z := bytes_of "chunked".

Definition te_pos (n : Z) : option nat :=
  if within 44 60 n then Some (Z.to_nat (n - 43)) else None.
Definition chunked_pos (n : Z) : option nat :=
  if within 81 87 n then Some (Z.to_nat (n - 80)) else None.

(** ** Edges between places *)

(** Actions that change only [content_len] and [close]. *)
Definition aside (a : client_action) : bool :=
  match a with c_write_content_len | c_write_connection_close => true | _ => false end.

Fixpoint skip_aside (l : list client_action) : list client_action :=
  match l with a :: l' => if aside a then skip_aside l' else l | [] => [] end.

(** From a state in [ns] a character of the class [ok] leads, with these
    actions, to a state that [P] relates to both. *)
Definition leads (ns : list Z) (ok : Z -> bool) (acts : list client_action) (P : Z -> Z -> Z -> bool) : bool :=
  forallb (fun n => forallb (fun c => implb (ok c)
    match next httpclient_parser_code false n c with
    | Some (al, k) => bool_decide (skip_aside al = acts) && P n c k && negb (k =? 0)
    | None => false
    end) chars) ns.

(** Members the parts of a line do not change. *)
Definition frame (h : httpclient_parser) : Z * Z * bool * Z :=
  (cp_cs h, cp_body_start h, cp_chunks_done h, cp_nread h).
Definition marks (h : httpclient_parser) : Z * Z * Z := (cp_mark h, cp_field_start h, cp_field_len h).

Section run.
Context (data : list Z).

Notation R := (client_run data).
Notation acts_at := (run_actions (client_act data)).

Lemma skip_aside_acts al p pe h cs :
  exists h', frame h' = frame h /\ marks h' = marks h /\ cp_chunked h' = cp_chunked h
    /\ acts_at al p pe (h, cs) = acts_at (skip_aside al) p pe (h', cs).
Proof.
  revert h. induction al as [|a al IH]; intros h; [by exists h|]. cbn [skip_aside].
  destruct (aside a) eqn:E; [|by exists h]. unfold run_actions. cbn [foldl].
  destruct a; try done; cbn [client_act].
  - destruct (IH (cp_set_length (i32 (strtol 10 (drop (Z.to_nat (cp_mark h)) data)))
      (cp_chunked h) (cp_chunks_done h) h)) as (h' & H1 & H2 & H3 & H4). exists h'. by split_and!.
  - destruct (IH (cp_set_close h)) as (h' & H1 & H2 & H3 & H4). exists h'. by split_and!.
Qed.

Lemma skip_aside_breaks al :
  break_of client_breaks al = break_of client_breaks (skip_aside al).
Proof.
  induction al as [|a al IH]; [done|]. cbn [skip_aside]. destruct (aside a) eqn:E; [|done].
  rewrite <- IH. by destruct a.
Qed.

Lemma run_leads ns ok acts P n b rest p h cs :
  leads ns ok acts P = true -> n ∈ ns -> ok (wraps 8 b) = true -> break_of client_breaks acts = None ->
  exists k h', P n (wraps 8 b) k = true /\ frame h' = frame h /\ marks h' = marks h
    /\ cp_chunked h' = cp_chunked h
    /\ R n p (b :: rest) (h, cs) = R k (S p) rest (acts_at acts p (p + S (length rest)) (h', cs)).
Proof.
  intros Hl Hn Hb Hbr. unfold leads in Hl. rewrite forallb_forall in Hl.
  specialize (Hl _ (proj1 (list_elem_of_In _ _) Hn)). rewrite forallb_forall in Hl.
  specialize (Hl _ (proj1 (list_elem_of_In _ _) (wraps8_chars b))). rewrite Hb in Hl. simpl in Hl.
  destruct (next _ _ _ _) as [[al k]|] eqn:E; [|done].
  apply andb_true_iff in Hl as [[Ha HP]%andb_true_iff Hk].
  apply bool_decide_eq_true in Ha. apply negb_true_iff in Hk.
  destruct (skip_aside_acts al p (p + S (length rest)) h cs) as (h' & H1 & H2 & H3 & H4).
  exists k, h'. split_and!; try done. unfold client_run. cbn [run].
  rewrite E, skip_aside_breaks, Ha, Hbr, Hk. cbn [length]. rewrite H4, Ha. done.
Qed.

(** Follow one edge of the automaton. *)
Local Ltac edge := first [done | vm_compute; reflexivity].
Local Tactic Notation "cfollow" constr(cs) constr(ok) constr(acts) constr(n) :=
  unfold client_run at 1;
  rewrite (run_edge httpclient_parser_code (client_act data) client_breaks false cs ok acts n);
  [|edge|edge|edge|edge];
  fold (client_run data); unfold run_actions; cbn [foldl client_act].

(** A loop inside a place. *)
Lemma run_inside ns ok (pos : Z -> option nat) w l n rest p h cs :
  leads ns ok [] (fun n c k => mem k ns && bool_decide (pos k = track w (pos n) c)) = true ->
  n ∈ ns -> forallb (fun b => ok (wraps 8 b)) l = true ->
  exists k h', k ∈ ns /\ pos k = foldl (track w) (pos n) (map (wraps 8) l)
    /\ frame h' = frame h /\ marks h' = marks h /\ cp_chunked h' = cp_chunked h
    /\ R n p (l ++ rest)%list (h, cs) = R k (p + length l)%nat rest (h', cs).
Proof.
  intros Hl. revert n p h. induction l as [|b l IH]; intros n p h Hn Hok.
  { exists n, h. cbn. by rewrite Nat.add_0_r. }
  simpl in Hok. apply andb_true_iff in Hok as [Hb Hok]. cbn [app].
  destruct (run_leads _ _ _ _ n b (l ++ rest)%list p h cs Hl Hn Hb eq_refl)
    as (k & h1 & HP & E1 & E2 & E3 & ->).
  apply andb_true_iff in HP as [Hk%mem_elem Hp]. apply bool_decide_eq_true in Hp.
  destruct (IH k (S p) h1 Hk Hok) as (k2 & h2 & H1 & H2 & H3 & H4 & H5 & H6).
  exists k2, h2. cbn [map foldl]. rewrite <- Hp. cbn [run_actions foldl length]. rewrite H6.
  split_and!; [done|done|congruence..|]. f_equal. lia.
Qed.

(** ** A header line *)

Definition spells (w l : list Z) : bool := bool_decide (map lowerc (map (wraps 8) l) = w).

Lemma spells_track w l :
  bool_decide (foldl (track w) (Some 0%nat) (map (wraps 8) l) = Some (length w)) = spells w l.
Proof.
  unfold spells. apply bool_decide_ext. rewrite track_all, drop_0. split; [by intros [? _]|].
  intros ?. split; [done|lia].
Qed.

Lemma run_cname name rest n p h cs :
  n ∈ line_start -> name <> [] -> forallb (fun b => token_char (wraps 8 b)) name = true ->
  exists k h', k ∈ in_name /\ bool_decide (te_pos k = Some 17%nat) = spells te_word name
    /\ frame h' = frame h /\ cp_field_start h' = Z.of_nat p /\ cp_chunked h' = cp_chunked h
    /\ R n p (name ++ rest)%list (h, cs) = R k (p + length name)%nat rest (h', cs).
Proof.
  intros Hn Hne Hok. destruct name as [|b name]; [done|]. simpl in Hok.
  apply andb_true_iff in Hok as [Hb Hok]. cbn [app].
  destruct (run_leads line_start token_char [c_start_field]
    (fun n c k => mem k in_name && bool_decide (te_pos k = track te_word (Some 0%nat) c))
    n b (name ++ rest)%list p h cs) as (k & h1 & HP & E1 & E2 & E3 & ->);
    [vm_compute; reflexivity|done..|].
  apply andb_true_iff in HP as [Hk%mem_elem Hp]. apply bool_decide_eq_true in Hp.
  unfold run_actions. cbn [foldl client_act].
  destruct (run_inside in_name token_char te_pos te_word name k rest (S p)
    (cp_set_marks (cp_mark h1) (Z.of_nat p) (cp_field_len h1) h1) cs)
    as (k2 & h2 & H1 & H2 & H3 & H4 & H5 & H6); [vm_compute; reflexivity|done..|].
  exists k2, h2. rewrite Hp in H2. rewrite <- spells_track. cbn [map foldl]. rewrite <- H2, H6.
  split_and!; [done|done|by rewrite H3|by injection H4|by rewrite H5|]. f_equal. simpl. lia.
Qed.

Lemma run_colon (blank : bool) rest n p h cs :
  n ∈ in_name -> cp_field_start h <= Z.of_nat p < 2 ^ 30 -> 0 <= cp_field_start h ->
  exists k h', k ∈ after_colon /\ (k =? 61) = bool_decide (te_pos n = Some 17%nat)
    /\ frame h' = frame h /\ cp_field_start h' = cp_field_start h
    /\ cp_field_len h' = Z.of_nat p - cp_field_start h /\ cp_chunked h' = cp_chunked h
    /\ R n p (58 :: (if blank then [32] else []) ++ rest)%list (h, cs) =
         R k (p + 1 + if blank then 1 else 0)%nat rest (h', cs).
Proof.
  intros Hn Hp H0.
  destruct (run_leads in_name (Z.eqb 58) [c_write_field]
    (fun n c k => mem k after_colon && Bool.eqb (k =? 61) (bool_decide (te_pos n = Some 17%nat)))
    n 58 ((if blank then [32] else []) ++ rest)%list p h cs) as (k & h1 & HP & E1 & E2 & E3 & ->);
    [vm_compute; reflexivity|done..|].
  apply andb_true_iff in HP as [Hk%mem_elem Hq]. apply Bool.eqb_prop in Hq.
  unfold run_actions. cbn [foldl client_act]. injection E2 as Em Ef El.
  rewrite LEN_small by lia. set (h2 := cp_set_marks _ _ _ h1).
  destruct blank; cbn [app].
  - destruct (run_leads after_colon (Z.eqb 32) [c_mark] (fun n c k => k =? n) k 32 rest (S p) h2 cs)
      as (k' & h3 & HP & F1 & F2 & F3 & ->); [vm_compute; reflexivity|done..|].
    apply Z.eqb_eq in HP as ->.
    exists k, (cp_set_marks (Z.of_nat (S p)) (cp_field_start h3) (cp_field_len h3) h3). split_and!; [done|done|exact (eq_trans F1 E1)| | | |].
    + injection F2 as _ F2 _. simpl. by rewrite F2.
    + injection F2 as _ _ F2. simpl. by rewrite F2, <- Ef.
    + simpl. by rewrite F3.
    + unfold run_actions. cbn [foldl client_act]. f_equal. lia.
  - eexists k, h2. split_and!; [done|done|done|done|simpl; by rewrite Ef|done|]. f_equal. lia.
Qed.

Lemma run_cvalue value rest n p h cs :
  n ∈ after_colon -> value <> [] -> forallb (fun b => cvalue_char (wraps 8 b)) value = true ->
  match value with b :: _ => cvalue_first (wraps 8 b) | [] => false end = true ->
  Z.of_nat (p + length value) < 2 ^ 30 ->
  exists k h', k ∈ line_start /\ frame h' = frame h
    /\ cp_chunked h' = cp_chunked h || ((n =? 61) && spells chunked_word value)
    /\ R n p (value ++ 13 :: 10 :: rest)%list (h, cs) =
         R k (p + length value + 2)%nat rest
           (h', cs ++ [Field (cp_field_start h) (cp_field_len h) (Z.of_nat p) (Z.of_nat (length value))])%list.
Proof.
  intros Hn Hne Hok Hf Hp. destruct value as [|b value]; [done|]. simpl in Hok.
  apply andb_true_iff in Hok as [_ Hok]. cbn [app length] in *.
  destruct (run_leads after_colon cvalue_first [c_mark]
    (fun n c k => mem k in_cvalue
       && bool_decide (chunked_pos k = track chunked_word (if n =? 61 then Some 0%nat else None) c))
    n b (value ++ 13 :: 10 :: rest)%list p h cs) as (k & h1 & HP & E1 & E2 & E3 & ->);
    [vm_compute; reflexivity|done..|].
  apply andb_true_iff in HP as [Hk%mem_elem Hpos]. apply bool_decide_eq_true in Hpos.
  unfold run_actions. cbn [foldl client_act].
  destruct (run_inside in_cvalue cvalue_char chunked_pos chunked_word value k (13 :: 10 :: rest) (S p)
    (cp_set_marks (Z.of_nat p) (cp_field_start h1) (cp_field_len h1) h1) cs)
    as (k2 & h2 & H1 & H2 & H3 & H4 & H5 & ->); [vm_compute; reflexivity|done..|].
  destruct (run_leads in_cvalue (Z.eqb 13) [c_write_value]
    (fun n c k => mem k after_cr && Bool.eqb (k =? 71) (bool_decide (chunked_pos n = Some 7%nat)))
    k2 13 (10 :: rest) (S p + length value)%nat h2 cs) as (k3 & h3 & HP & F1 & F2 & F3 & ->);
    [vm_compute; reflexivity|done..|].
  apply andb_true_iff in HP as [Hk3%mem_elem Hq]. apply Bool.eqb_prop in Hq.
  assert ((k3 =? 71) = (n =? 61) && spells chunked_word (b :: value)) as E71.
  { rewrite Hq, H2, Hpos. rewrite <- (spells_track chunked_word (b :: value)). cbn [map foldl].
    destruct (n =? 61); [done|]. cbn. clear. by induction (map (wraps 8) value). }
  unfold run_actions. cbn [foldl client_act].
  injection E2 as _ Ef El. injection H4 as Hm Hfs Hfl. injection F2 as Fm Ffs Ffl.
  rewrite Fm, Ffs, Ffl, Hm, Hfs, Hfl. simpl cp_field_start. simpl cp_field_len. simpl cp_mark.
  rewrite Ef, El, LEN_small by lia.
  replace (Z.of_nat (S p + length value) - Z.of_nat p) with (Z.of_nat (S (length value))) by lia.
  set (cs' := (cs ++ _)%list).
  assert (frame h3 = frame h) as Fr by (rewrite F1, H3; exact E1).
  assert (cp_chunked h3 = cp_chunked h) as Ch by (rewrite F3, H5; exact E3).
  rewrite <- E71, <- Ch, <- Fr. clear -Hk3.
  assert (k3 = 71 \/ k3 = 24 \/ k3 = 88) as [-> |[-> | ->]].
  { unfold after_cr in Hk3. rewrite !elem_of_cons, elem_of_nil in Hk3. intuition. }
  - cfollow 71 (Z.eqb 10) [c_trans_chunked] 20. eexists 20, _. split_and!; cycle 3.
    { f_equal. lia. } { by apply mem_elem. } { done. } { by rewrite orb_true_r. }
  - cfollow 24 (Z.eqb 10) (@nil client_action) 20. exists 20, h3. split_and!; cycle 3.
    { f_equal. lia. } { by apply mem_elem. } { done. } { by rewrite orb_false_r. }
  - cfollow 88 (Z.eqb 10) (@nil client_action) 43. exists 43, h3. split_and!; cycle 3.
    { f_equal. lia. } { by apply mem_elem. } { done. } { by rewrite orb_false_r. }
Qed.

Definition cline_ok (l : hline) : bool :=
  let '(name, _, value) := l in
  negb (length name =? 0)%nat && forallb (fun b => token_char (wraps 8 b)) name
  && forallb (fun b => cvalue_char (wraps 8 b)) value
  && match value with b :: _ => cvalue_first (wraps 8 b) | [] => false end.

(** [transfer-encoding: chunked], in any case. *)
Definition line_chunked (l : hline) : bool :=
  let '(name, _, value) := l in spells te_word name && spells chunked_word value.

Lemma run_cline l rest n p h cs :
  n ∈ line_start -> cline_ok l = true -> Z.of_nat (p + length (hline_bytes l)) < 2 ^ 30 ->
  exists k h', k ∈ line_start /\ frame h' = frame h /\ cp_chunked h' = cp_chunked h || line_chunked l
    /\ R n p (hline_bytes l ++ rest)%list (h, cs) =
         R k (p + length (hline_bytes l))%nat rest (h', cs ++ [hline_call p l])%list.
Proof.
  destruct l as [[name blank] value]. unfold cline_ok. intros Hn Hok Hp.
  apply andb_true_iff in Hok as [[[Hne Hnm]%andb_true_iff Hv]%andb_true_iff Hf].
  unfold hline_bytes in *. repeat (rewrite <- List.app_assoc; cbn [app]).
  rewrite length_app in Hp. cbn [length] in Hp. rewrite !length_app in Hp. cbn [length] in Hp.
  destruct (run_cname name (58 :: (if blank then [32] else []) ++ value ++ 13 :: 10 :: rest)%list
    n p h cs Hn ltac:(by destruct name) Hnm) as (k1 & h1 & A1 & A2 & A3 & A4 & A5 & ->).
  destruct (run_colon blank (value ++ 13 :: 10 :: rest)%list k1 (p + length name) h1 cs A1)
    as (k2 & h2 & B1 & B2 & B3 & B4 & B5 & B6 & ->); [lia..|].
  destruct (run_cvalue value rest k2 (p + length name + 1 + if blank then 1 else 0)%nat h2 cs B1
    ltac:(by destruct value) Hv Hf) as (k3 & h3 & C1 & C2 & C3 & ->); [destruct blank; simpl in *; lia|].
  exists k3, h3. split_and!; [done|congruence|by rewrite C3, B2, A2, B6, A5|].
  rewrite B4, B5, A4. unfold hline_call.
  replace (Z.of_nat (p + length name) - Z.of_nat p) with (Z.of_nat (length name)) by lia.
  f_equal. rewrite length_app. cbn [length]. rewrite !length_app. destruct blank; simpl; lia.
Qed.

Lemma run_clines ls rest n p h cs :
  n ∈ line_start -> forallb cline_ok ls = true -> Z.of_nat (p + length (hlines_bytes ls)) < 2 ^ 30 ->
  exists k h', k ∈ line_start /\ frame h' = frame h
    /\ cp_chunked h' = cp_chunked h || existsb line_chunked ls
    /\ R n p (hlines_bytes ls ++ rest)%list (h, cs) =
         R k (p + length (hlines_bytes ls))%nat rest (h', cs ++ hlines_calls p ls)%list.
Proof.
  revert n p h cs. induction ls as [|l ls IH]; intros n p h cs Hn Hok Hp.
  { exists n, h. cbn. by rewrite Nat.add_0_r, app_nil_r, orb_false_r. }
  simpl in Hok. apply andb_true_iff in Hok as [Hl Hok].
  change (hlines_bytes (l :: ls)) with (hline_bytes l ++ hlines_bytes ls)%list in *.
  rewrite length_app in Hp. rewrite <- List.app_assoc.
  destruct (run_cline l (hlines_bytes ls ++ rest)%list n p h cs Hn Hl) as (k1 & h1 & A1 & A2 & A3 & ->);
    [lia|].
  destruct (IH k1 (p + length (hline_bytes l))%nat h1 (cs ++ [hline_call p l])%list A1 Hok)
    as (k2 & h2 & B1 & B2 & B3 & ->); [lia|].
  exists k2, h2. rewrite length_app, Nat.add_assoc, <- List.app_assoc. cbn [existsb].
  split_and!; [done|congruence|by rewrite B3, A3, orb_assoc|done].
Qed.

(** The empty line. *)
Lemma run_cend rest n p h cs :
  n ∈ line_start ->
  exists h', frame h' = (cp_cs h, Z.of_nat (p + 2), cp_chunks_done h, cp_nread h)
    /\ cp_chunked h' = cp_chunked h /\ marks h' = marks h
    /\ R n p (13 :: 10 :: rest) (h, cs) =
         (120, (p + 2)%nat,
          (h', cs ++ [Elem RspHeaderDone (Z.of_nat (p + 2)) (Z.of_nat (length rest))]))%list.
Proof.
  intros Hn.
  destruct (run_leads line_start (Z.eqb 13) [] (fun n c k => k =? 3) n 13 (10 :: rest) p h cs)
    as (k & h1 & HP & E1 & E2 & E3 & ->); [vm_compute; reflexivity|done..|].
  apply Z.eqb_eq in HP as ->. unfold client_run.
  rewrite (run_edge_break httpclient_parser_code (client_act data) client_breaks false 3 (Z.eqb 10)
    [c_done 120] 120 _ _ _ _ 120) by edge.
  unfold run_actions. cbn [foldl client_act length].
  exists (cp_set_body_start (Z.of_nat (S p) + 1) h1).
  injection E1 as E11 E12 E13 E14. unfold frame. simpl cp_cs. simpl cp_body_start.
  simpl cp_chunks_done. simpl cp_nread. rewrite E11, E13, E14.
  split_and!; [by replace (Z.of_nat (S p) + 1) with (Z.of_nat (p + 2)) by lia|done|done|].
  replace (Z.of_nat (S p) + 1) with (Z.of_nat (p + 2)) by lia.
  replace (S (S p)) with (p + 2)%nat by lia.
  by replace (Z.of_nat (S p + S (length rest)) - Z.of_nat (S p) - 1) with (Z.of_nat (length rest)) by lia.
Qed.

(** ** The status line *)

Definition status_line (minor : Z) (status reason : list Z) : list Z :=
  ([72; 84; 84; 80; 47; 49; 46; minor; 32] ++ status ++ 32 :: reason ++ [13; 10])%list.

Definition status_calls (status reason : list Z) : list (call response_elem) :=
  [Elem RspHttpVersion 0 8; Elem StatusCode 9 (Z.of_nat (length status));
   Elem ReasonPhrase (Z.of_nat (10 + length status)) (Z.of_nat (length reason))].

Lemma R_cloop cs ok l rest p s :
  edge httpclient_parser_code false cs ok [] cs = true -> cs <> 0 ->
  forallb (fun b => ok (wraps 8 b)) l = true ->
  R cs p (l ++ rest)%list s = R cs (p + length l)%nat rest s.
Proof. apply run_loop. Qed.

Lemma run_status minor status reason rest h cs :
  minor = 48 \/ minor = 49 -> status <> [] -> forallb (fun b => digit_char (wraps 8 b)) status = true ->
  reason <> [] -> forallb (fun b => cvalue_char (wraps 8 b)) reason = true ->
  Z.of_nat (length (status_line minor status reason)) < 2 ^ 30 ->
  exists h', frame h' = frame h /\ cp_chunked h' = cp_chunked h
    /\ R 1 0 (status_line minor status reason ++ rest)%list (h, cs) =
         R 20 (length (status_line minor status reason)) rest (h', cs ++ status_calls status reason)%list.
Proof.
  intros Hm Hs1 Hs Hr1 Hr Hp. assert (digit_char (wraps 8 minor) = true) by (by destruct Hm as [-> | ->]).
  unfold status_line in *. destruct status as [|d status]; [done|]. destruct reason as [|x reason]; [done|].
  simpl in Hs, Hr. apply andb_true_iff in Hs as [Hd Hs]. apply andb_true_iff in Hr as [Hx Hr].
  cbn [app length] in *. rewrite length_app in Hp. cbn [length] in Hp. rewrite length_app in Hp.
  cbn [length] in Hp.
  cfollow 1 (Z.eqb 72) [c_mark] 8. cfollow 8 (Z.eqb 84) (@nil client_action) 9.
  cfollow 9 (Z.eqb 84) (@nil client_action) 10. cfollow 10 (Z.eqb 80) (@nil client_action) 11.
  cfollow 11 (Z.eqb 47) (@nil client_action) 12. cfollow 12 (Z.eqb 49) (@nil client_action) 13.
  cfollow 13 (Z.eqb 46) (@nil client_action) 14. cfollow 14 digit_char (@nil client_action) 15.
  cfollow 15 (Z.eqb 32) [c_http_version] 16. cfollow 16 digit_char [c_mark] 17.
  repeat (rewrite <- List.app_assoc; cbn [app]). rewrite (R_cloop 17 digit_char) by edge.
  cfollow 17 (Z.eqb 32) [c_status_code] 18. cfollow 18 cvalue_char [c_mark] 19.
  repeat (rewrite <- List.app_assoc; cbn [app]). rewrite (R_cloop 19 cvalue_char) by edge.
  cfollow 19 (Z.eqb 13) [c_reason_phrase] 24. cfollow 24 (Z.eqb 10) (@nil client_action) 20.
  eexists. split_and!; [| |f_equal].
  3: { rewrite !length_app. simpl. rewrite length_app. simpl. lia. }
  3: { f_equal. unfold status_calls. rewrite <- !List.app_assoc. cbn [app]. simpl cp_mark.
       rewrite !LEN_small by lia. repeat f_equal; simpl length; lia. }
  all: done.
Qed.
End run.

(** ** The result of a call *)

Definition call_start (h : httpclient_parser) : httpclient_parser :=
  cp_set_end (cp_cs h) 0 (cp_set_marks 0 0 0 h).

(** The marks stay inside what was passed: the [check]s after the run never
    fail on a buffer that is not empty. *)
Definition marks_in (p pe : nat) (s : cp_state) : Prop :=
  0 <= cp_mark s.1 < Z.of_nat pe /\ 0 <= cp_field_start s.1 <= Z.of_nat p
  /\ cp_field_start s.1 < Z.of_nat pe /\ 0 <= cp_field_len s.1 <= Z.of_nat pe.

Lemma marks_in_acts data acts p pe s :
  (p < pe)%nat -> Z.of_nat pe < 2 ^ 31 -> marks_in p pe s ->
  marks_in p pe (run_actions (client_act data) acts p pe s).
Proof.
  intros Hp Hpe. unfold run_actions. revert s.
  induction acts as [|a acts IH]; intros [h cs] Hm; [done|]. cbn [foldl]. apply IH.
  destruct Hm as (H1 & H2 & H3 & H4). simpl in *.
  destruct a; try done; unfold marks_in; simpl; rewrite ?LEN_small by lia; lia.
Qed.

Lemma client_marks data cs rest h calls :
  rest <> [] -> Z.of_nat (length rest) < 2 ^ 31 ->
  let '(_, _, s) := client_run data cs 0 rest (call_start h, calls) in
  marks_in (length rest) (length rest) s.
Proof.
  intros Hne Hb.
  assert (0 < length rest)%nat by (destruct rest; [done|simpl; lia]).
  pose proof (run_invariant httpclient_parser_code (client_act data) client_breaks false
    (fun _ p s => marks_in p (length rest) s) (fun _ _ s => marks_in (length rest) (length rest) s)
    (length rest)) as Hinv.
  assert (forall p s, marks_in p (length rest) s -> (p <= length rest)%nat ->
    marks_in (length rest) (length rest) s) as Hw by (unfold marks_in; lia).
  assert (forall p s, marks_in p (length rest) s -> marks_in (S p) (length rest) s) as Hs
    by (unfold marks_in; lia).
  cbv beta zeta in Hinv.
  specialize (Hinv ltac:(intros ? p s Hm Hp; by apply (Hw p)) ltac:(intros ? p s Hm Hp; apply (Hw p); [done|lia])).
  unfold client_run. unshelve epose proof (Hinv _ rest cs 0%nat (call_start h, calls) _ _) as Hr.
  - intros c p b s acts n HI Hp _. cbv zeta. pose proof (marks_in_acts data acts p (length rest) s Hp Hb HI).
    destruct (break_of _ _); [eapply Hw; [eassumption|lia]|]. split; [eapply Hw; [eassumption|lia]|auto].
  - unfold marks_in. simpl. lia.
  - done.
  - destruct (run _ _ _ _ _ _ _ _) as [[? ?] ?]. apply Hr.
Qed.

Lemma client_execute_result data len h cs p h1 calls :
  (0 < len)%nat -> Z.of_nat len < 2 ^ 31 -> data !! len = Some 0 ->
  client_run data (cp_cs h) 0 (take len data) (call_start h, []) = (cs, p, (h1, calls)) ->
  0 <= cp_body_start h1 <= Z.of_nat len -> cp_nread h1 = 0 ->
  httpclient_parser_execute data len 0 h = Ok (calls, Z.of_nat p, cp_set_end cs (Z.of_nat p) h1).
Proof.
  intros Hl Hb Hz Hrun Hbs Hn. unfold httpclient_parser_execute.
  assert (length (take len data) = len) as Ht
    by (rewrite length_take; apply lookup_lt_Some in Hz; lia).
  pose proof (client_marks data (cp_cs h) (take len data) h []) as Hm.
  pose proof (run_bounds httpclient_parser_code (client_act data) client_breaks false (take len data)
    (cp_cs h) 0 (call_start h, [])) as Hpb. fold (client_run data) in Hpb.
  rewrite assert_bind by (by apply Nat.leb_le; lia). rewrite Hz. cbn [deref mbind outcome_bind].
  rewrite assert_bind by done. rewrite !i32_small, assert_bind by (unfold in_s; lia || by rewrite Z.eqb_eq).
  rewrite drop_0. fold (call_start h). change (cp_cs (call_start h)) with (cp_cs h).
  rewrite Hrun in *. destruct Hm as (M1 & M2 & M3 & M4); [by destruct (take len data); [simpl in *; lia|]|lia|].
  rewrite Ht in *. simpl in M1, M2, M3, M4.
  rewrite !assert_bind by (rewrite ?Z.leb_le; simpl; rewrite ?Hn; lia).
  simpl cp_mark. simpl cp_field_len. simpl cp_field_start. simpl cp_nread.
  rewrite !(proj2 (Z.ltb_lt _ _)), (proj2 (Z.leb_le _ _)) by lia. cbn [andb].
  rewrite Hn, Z.add_0_l, Z.sub_0_r, i32_small by (unfold in_s; lia). done.
Qed.

(** ** A whole head *)

Record rhead := RHead {
  rh_minor : Z;
  rh_status : list Z;
  rh_reason : list Z;
  rh_lines : list hline;
}.

Definition rhead_ok (d : rhead) : bool :=
  ((rh_minor d =? 48) || (rh_minor d =? 49))
  && negb (length (rh_status d) =? 0)%nat && forallb (fun b => digit_char (wraps 8 b)) (rh_status d)
  && negb (length (rh_reason d) =? 0)%nat && forallb (fun b => cvalue_char (wraps 8 b)) (rh_reason d)
  && forallb cline_ok (rh_lines d).

Definition rhead_start (d : rhead) : list Z := status_line (rh_minor d) (rh_status d) (rh_reason d).
Definition rhead_bytes (d : rhead) : list Z :=
  (rhead_start d ++ hlines_bytes (rh_lines d) ++ [13; 10])%list.
Definition rhead_calls (d : rhead) (extra : nat) : list (call response_elem) :=
  (status_calls (rh_status d) (rh_reason d) ++ hlines_calls (length (rhead_start d)) (rh_lines d)
   ++ [Elem RspHeaderDone (Z.of_nat (length (rhead_bytes d))) (Z.of_nat extra)])%list.

(** The machine reads a well-formed head in one call, whatever follows it,
    reports its parts, and knows whether chunks follow. *)
Lemma client_execute_head data len d rest h :
  rhead_ok d = true -> cp_cs h = 1 -> cp_chunked h = false ->
  take len data = (rhead_bytes d ++ rest)%list -> data !! len = Some 0 -> Z.of_nat len < 2 ^ 30 ->
  exists h', httpclient_parser_execute data len 0 h =
      Ok (rhead_calls d (length rest), Z.of_nat (length (rhead_bytes d)), h')
    /\ cp_cs h' = 120 /\ cp_chunked h' = existsb line_chunked (rh_lines d).
Proof.
  intros Hok Hcs Hck Ht Hz Hb.
  unfold rhead_ok in Hok. rewrite !andb_true_iff in Hok.
  destruct Hok as (((((Hv & Hs1) & Hs) & Hr1) & Hr) & Hls).
  rewrite orb_true_iff, !Z.eqb_eq in Hv.
  assert (length (rhead_bytes d) + length rest = len)%nat as Hlen.
  { rewrite <- length_app, <- Ht, length_take. apply lookup_lt_Some in Hz. lia. }
  unfold rhead_bytes in Hlen, Ht |- *. rewrite !length_app in Hlen. cbn [length] in Hlen.
  rewrite <- !List.app_assoc in Ht. fold (rhead_bytes d).
  destruct (run_status data (rh_minor d) (rh_status d) (rh_reason d)
    (hlines_bytes (rh_lines d) ++ 13 :: 10 :: rest)%list (call_start h) []) as (h1 & A1 & A2 & A3);
    [done|by destruct (rh_status d)|done|by destruct (rh_reason d)|done|unfold rhead_start in *; lia|].
  fold (rhead_start d) in A3.
  destruct (run_clines data (rh_lines d) (13 :: 10 :: rest) 20 (length (rhead_start d)) h1
    (status_calls (rh_status d) (rh_reason d))) as (k2 & h2 & B1 & B2 & B3 & B4);
    [by apply mem_elem|done|lia|].
  destruct (run_cend data rest k2 (length (rhead_start d) + length (hlines_bytes (rh_lines d)))%nat h2
    (status_calls (rh_status d) (rh_reason d) ++ hlines_calls (length (rhead_start d)) (rh_lines d))%list B1)
    as (h3 & C1 & C2 & C3 & C4).
  assert (length (rhead_start d) + length (hlines_bytes (rh_lines d)) + 2 = length (rhead_bytes d))%nat as El
    by (unfold rhead_bytes; rewrite !length_app; simpl; lia).
  rewrite El in C1, C4.
  assert (cp_body_start h3 = Z.of_nat (length (rhead_bytes d)) /\ cp_nread h3 = cp_nread h2) as [C12 C14]
    by (split; by injection C1).
  eexists. split; [apply (client_execute_result data len h 120 _ h3); [lia|lia|done| |rewrite C12; lia|]|].
  - rewrite Ht, Hcs. cbn [app] in *. rewrite A3. cbn [app]. rewrite B4, C4.
    unfold rhead_calls. by rewrite <- List.app_assoc.
  - rewrite C14. injection B2 as _ _ _ ->. injection A1 as _ _ _ ->. done.
  - simpl. split; [done|]. rewrite C2, B3, A2. simpl. by rewrite Hck.
Qed.

(** ** The line of a chunk's size *)

Definition xdigits (ds : list Z) : bool := negb (length ds =? 0)%nat && forallb xdigit ds.
Definition size_line (ds : list Z) : list Z := (ds ++ [13; 10])%list.
Definition size_of (ds : list Z) : Z := strtol_digits 16 0 ds.

Lemma xdigit_small c : xdigit c = true -> wraps 8 c = c /\ 48 <= c <= 102.
Proof.
  unfold xdigit, within. rewrite !orb_true_iff, !andb_true_iff, !Z.leb_le. intros H.
  assert (48 <= c <= 102) as H' by lia. split; [|done]. apply wraps_small; [lia|]. unfold in_s. lia.
Qed.

Lemma xdigits_wraps ds : forallb xdigit ds = true -> forallb (fun b => xdigit (wraps 8 b)) ds = true.
Proof.
  rewrite !forallb_forall. intros H x Hx. specialize (H x Hx).
  by rewrite (proj1 (xdigit_small _ H)).
Qed.

Lemma xdigit_digit c : xdigit c = true -> exists d, digit_in 16 c = Some d.
Proof.
  unfold xdigit, digit_in, within. intros H.
  destruct ((48 <=? c) && (c <=? 57)) eqn:E1.
  { apply andb_true_iff in E1 as [E1 E2]. rewrite (proj2 (Z.ltb_lt _ _)) by lia. eauto. }
  destruct ((65 <=? c) && (c <=? 90)) eqn:E2.
  { rewrite (proj2 (Z.ltb_lt _ _)); [eauto|]. lia. }
  destruct ((97 <=? c) && (c <=? 122)) eqn:E3; [|lia].
  rewrite (proj2 (Z.ltb_lt _ _)); [eauto|]. lia.
Qed.

Lemma strtol_digits_stop base a ds c l :
  forallb (fun d => match digit_in base d with Some _ => true | None => false end) ds = true ->
  digit_in base c = None ->
  strtol_digits base a (ds ++ c :: l)%list = strtol_digits base a ds.
Proof.
  intros Hd Hc. revert a. induction ds as [|d ds IH]; intros a; cbn [app strtol_digits]; [by rewrite Hc|].
  simpl in Hd. destruct (digit_in base d); [|done]. by apply IH.
Qed.

Lemma strtol_size ds l :
  xdigits ds = true -> strtol 16 (ds ++ 13 :: l)%list = clamp_long (size_of ds).
Proof.
  intros [Hne Hd]%andb_true_iff.
  assert (forallb (fun d => match digit_in 16 d with Some _ => true | None => false end) ds = true) as Hdi.
  { rewrite forallb_forall in Hd |- *. intros x Hx.
    by destruct (xdigit_digit x (Hd x Hx)) as [? ->]. }
  destruct ds as [|d ds]; [done|].
  assert (xdigit d = true) as Hx by (simpl in Hd; by apply andb_true_iff in Hd as [? _]).
  apply xdigit_small in Hx as Hx'. destruct Hx' as [_ Hr].
  assert (strtol_prefix 16 ((d :: ds) ++ 13 :: l)%list = ((d :: ds) ++ 13 :: l)%list) as Hpre.
  { destruct (Z.eq_dec d 48) as [->|Hd48].
    - destruct ds as [|x ds]; [destruct l; reflexivity|]. cbn [app strtol_prefix].
      assert (xdigit x = true) as Hxx by (simpl in Hd; by apply andb_true_iff in Hd as [? _]).
      apply xdigit_small in Hxx as [_ Hxx]. destruct (ds ++ 13 :: l)%list eqn:E; [done|].
      replace (x =? 120) with false by lia.
      assert (xdigit x = true) as Hx2 by (simpl in Hd; by apply andb_true_iff in Hd as [? _]).
      assert (x <> 88) by (intros ->; discriminate Hx2). replace (x =? 88) with false by lia. done.
    - cbn [app strtol_prefix]. destruct d as [|q|q]; try done.
      repeat (destruct q as [q|q|]; try done). }
  cbn [app strtol]. replace (d =? 32) with false by lia. unfold within at 1.
  replace ((9 <=? d) && (d <=? 13)) with false by lia. cbn [orb]. f_equal. unfold strtol_sign.
  cbn [app] in Hpre.
  assert (strtol_digits 16 0 (strtol_prefix 16 (d :: ds ++ 13 :: l)%list) = size_of (d :: ds)) as E.
  { rewrite Hpre. unfold size_of. by apply (strtol_digits_stop 16 0 (d :: ds)). }
  destruct d as [|q|q]; try done. repeat (destruct q as [q|q|]; try done; try lia).
Qed.

Lemma client_execute_size data len ds rest h :
  xdigits ds = true -> size_of ds < 2 ^ 31 -> cp_cs h = 1 -> cp_body_start h = 0 ->
  take len data = (size_line ds ++ rest)%list -> data !! len = Some 0 -> Z.of_nat len < 2 ^ 30 ->
  exists h' calls, httpclient_parser_execute data len 0 h =
      Ok (calls, Z.of_nat (length (size_line ds)), h')
    /\ cp_cs h' = 120 /\ cp_content_len h' = size_of ds /\ cp_chunks_done h' = (size_of ds <=? 0)
    /\ Forall (fun c => match c with Elem e _ _ => e = ChunkSize \/ e = LastChunk \/ e = RspHeaderDone
                              | Field _ _ _ _ => False end) calls.
Proof.
  intros Hok Hsz Hcs Hbs Ht Hz Hb.
  assert (0 <= size_of ds) as Hpos.
  { unfold size_of. clear. assert (forall a, 0 <= a -> 0 <= strtol_digits 16 a ds) as H; [|by apply H].
    induction ds as [|d ds IH]; intros a Ha; cbn [strtol_digits]; [done|].
    destruct (digit_in 16 d) as [x|] eqn:E; [|done]. apply IH. unfold digit_in, within in E.
    repeat case_match; simplify_eq; lia. }
  pose proof (strtol_size ds (10 :: rest ++ drop len data)%list Hok) as Hst.
  assert (i32 (strtol 16 data) = size_of ds) as Hnum.
  { rewrite <- (take_drop len data), Ht. unfold size_line. rewrite <- !List.app_assoc. cbn [app].
    rewrite Hst. unfold clamp_long. rewrite i32_small; unfold in_s; lia. }
  apply andb_true_iff in Hok as [Hne Hd]. apply xdigits_wraps in Hd.
  destruct ds as [|d ds]; [done|]. simpl in Hd. apply andb_true_iff in Hd as [Hd Hds].
  assert (length (size_line (d :: ds)) + length rest = len)%nat as Hlen.
  { rewrite <- length_app, <- Ht, length_take. apply lookup_lt_Some in Hz. lia. }
  unfold size_line in *. rewrite length_app in *. cbn [length app] in *.
  rewrite <- List.app_assoc in Ht. cbn [app] in Ht.
  eexists _, _. split.
  - eapply (client_execute_result _ _ _ 120); [lia|lia|done| | |].
    + rewrite Ht, Hcs. unfold client_run.
      rewrite (run_edge _ _ _ _ 1 xdigit [c_mark] 2) by (done || vm_compute; reflexivity).
      rewrite (run_loop _ _ _ _ 2 xdigit) by (done || vm_compute; reflexivity).
      rewrite (run_edge _ _ _ _ 2 (Z.eqb 13) [c_chunk_size] 3) by (done || vm_compute; reflexivity).
      rewrite (run_edge_break _ _ _ _ 3 (Z.eqb 10) [c_done 120] 120 _ _ _ _ 120)
        by (done || vm_compute; reflexivity).
      unfold run_actions. cbn [foldl client_act call_start cp_mark cp_set_marks cp_set_end drop Z.to_nat].
      f_equal. f_equal. lia.
    + simpl. lia.
    + done.
  - simpl. rewrite drop_0, Hnum. split_and!; [done..|].
    constructor; [destruct (_ <=? 0); auto|]. constructor; [auto|constructor].
Qed.
