(* ===== verification/HttpRoundtrip.v ===== *)
(** * A request from [dump] to [recvRequest]

    [HttpRequest::dump] on one side; the machine of [http11_parser.rl.cc], the
    callbacks of [http_parser.cc] and [HttpSession::recvRequest] on the
    other. *)

From stdpp Require Import base list gmap strings.
From Stdlib Require Import ZArith Lia Ascii String.
From S2P Require Import Prelude Http HttpTheorems Stream HttpParser Http11 HttpSession HttpWire.

Local Open Scope string_scope.
Local Open Scope Z_scope.

(** ** The head of a dumped request *)

Definition line_of (blank : bool) (e : string * string) : hline := (bytes_of e.1, blank, bytes_of e.2).

Definition dumped_lines (r : HttpRequest) : list hline :=
  line_of true (connection_header (m_close r))
  :: (map (line_of false) (kept (m_headers r)) ++ map (line_of true) (length_header (m_body r)))%list.

Definition head_of (r : HttpRequest) : head :=
  Head (bytes_of (HttpMethodToString (m_method r))) (bytes_of (m_path r)) (bytes_of (m_query r))
    (bytes_of (m_fragment r)) (if m_version r =? 17 then 49 else 48) (dumped_lines r).

(** Requests whose text the grammar of the machine accepts as what it is: a
    known method without a hyphen, a path of one leading "/", characters of
    paths and queries (or "%" with two digits), HTTP/1.0 or 1.1, names of
    token characters, values that begin with no blank and hold no line end. *)
Definition wire_ok (r : HttpRequest) : bool :=
  negb (bool_decide (m_method r = INVAILD_METHOD))
  && ((m_version r =? 16) || (m_version r =? 17)) && head_ok (head_of r).

Lemma bytes_unlines ls rest :
  bytes_of (unlines ls rest) =
    (List.concat (map (fun l => bytes_of l ++ [13; 10])%list ls) ++ bytes_of rest)%list.
Proof.
  induction ls as [|l ls IH]; [done|]. rewrite unlines_cons, !bytes_of_app, IH. cbn [map List.concat].
  by rewrite <- !List.app_assoc.
Qed.

Lemma bytes_opt c s :
  bytes_of ((if String.eqb s "" then "" else String c "") ++ s) = opt (byte_of c) (bytes_of s).
Proof. destruct s; [done|]. by rewrite bytes_of_app. Qed.

Definition sep_of (blank : bool) : string := if blank then ": " else ":".

Lemma header_line_bytes blank e :
  (bytes_of (header_line (sep_of blank) e) ++ [13; 10])%list = hline_bytes (line_of blank e).
Proof.
  unfold header_line, line_of, hline_bytes. rewrite !bytes_of_app, <- !List.app_assoc.
  by destruct blank.
Qed.

Lemma dumped_lines_bytes r :
  List.concat (map (fun l => bytes_of l ++ [13; 10])%list
    (map (fun h => header_line h.1 h.2)
       (tagged ": " [connection_header (m_close r)] ++ tagged ":" (kept (m_headers r))
        ++ tagged ": " (length_header (m_body r)))%list)) = hlines_bytes (dumped_lines r).
Proof.
  unfold hlines_bytes, dumped_lines, tagged. rewrite !map_app, !map_map. cbn [map].
  rewrite !map_app, !map_map. rewrite (header_line_bytes true). do 2 f_equal. f_equal.
  - apply map_ext. intros e. apply (header_line_bytes false).
  - apply map_ext. intros e. apply (header_line_bytes true).
Qed.

Lemma dump_request_bytes r :
  wire_ok r = true -> bytes_of (dump_request r) = (head_bytes (head_of r) ++ bytes_of (m_body r))%list.
Proof.
  intros Hok. unfold wire_ok in Hok. apply andb_true_iff in Hok as [Hok _].
  apply andb_true_iff in Hok as [_ Hv]. rewrite orb_true_iff, !Z.eqb_eq in Hv.
  rewrite request_lines, !bytes_of_app, bytes_unlines, dumped_lines_bytes.
  unfold request_start, head_bytes, head_target, target. cbn [hd_method hd_path hd_query hd_fragment hd_lines hd_minor head_of].
  rewrite !bytes_of_app.
  assert (forall c t, bytes_of (if String.eqb t "" then "" else String c "") ++ bytes_of t
    = opt (byte_of c) (bytes_of t))%list as Hopt by (intros c t; by rewrite <- bytes_of_app, bytes_opt).
  rewrite (List.app_assoc (bytes_of (if String.eqb (m_query r) "" then _ else _))), Hopt.
  rewrite (List.app_assoc (bytes_of (if String.eqb (m_fragment r) "" then _ else _))), Hopt.
  repeat (rewrite <- !List.app_assoc; cbn [app]).
  destruct Hv as [-> | ->]; reflexivity.
Qed.

(** ** What the parser makes of it *)

(** The headers as they arrive: [connection], the stored ones, the length. *)
Definition wire_headers (r : HttpRequest) : list (string * string) :=
  connection_header (m_close r) :: (kept (m_headers r) ++ length_header (m_body r))%list.

Definition set_headers (l : list (string * string)) (m : MapType) : MapType :=
  foldl (fun m e => map_set e.1 e.2 m) m l.

(** What the parser object holds when the machine has finished. *)
Definition parsed (r : HttpRequest) : HttpRequest :=
  mkReq (m_method r) (m_version r) true (m_path r) (m_query r) "" (m_fragment r)
    (set_headers (wire_headers r) []) [] [].

Lemma hear_lines l f q :
  foldl hear_line q (map (line_of f) l) = with_maps (set_headers l (m_headers q)) (m_params q) (m_cookies q) q.
Proof.
  revert q. induction l as [|e l IH]; intros q; [by destruct q|]. cbn [map foldl].
  rewrite IH. unfold hear_line, line_of. by rewrite !string_bytes.
Qed.

Lemma set_headers_app l1 l2 m : set_headers (l1 ++ l2)%list m = set_headers l2 (set_headers l1 m).
Proof. apply foldl_app. Qed.

Lemma set_headers_one e m : set_headers [e] m = map_set e.1 e.2 m.
Proof. done. Qed.

Lemma hear_dumped r q :
  foldl hear_line q (dumped_lines r) =
    with_maps (set_headers (wire_headers r) (m_headers q)) (m_params q) (m_cookies q) q.
Proof.
  unfold dumped_lines. change (line_of true (connection_header (m_close r)) :: ?l)
    with (map (line_of true) [connection_header (m_close r)] ++ l)%list.
  rewrite !foldl_app, !hear_lines. unfold wire_headers.
  change (?x :: ?l) with ([x] ++ l)%list. by rewrite !set_headers_app.
Qed.

Lemma heard_version data pre v post :
  data = (pre ++ [72; 84; 84; 80; 47; 49; 46; (if v =? 17 then 49 else 48); 13; 10] ++ post)%list ->
  v = 16 \/ v = 17 ->
  version_of (ctext data (Z.of_nat (List.length pre))) 8 = Some v.
Proof. intros Hd Hv. rewrite (ctext_at _ _ _ Hd). by destruct Hv as [-> | ->]. Qed.

Section parse.
Context (q0 : Z) (relaxed : bool).
#[local] Instance mach : Machine request_elem http_parser := http11_machine q0 relaxed.

(** The callbacks for a dumped request, in any buffer that begins with it. *)
Lemma heard_head r data post (P : HttpRequestParser http_parser) :
  wire_ok r = true -> data = (head_bytes (head_of r) ++ post)%list ->
  Z.of_nat (List.length data) < 2 ^ 31 -> p_error P = 0 -> p_data P = newHttpRequest 17 true ->
  exists P', on_request_calls data (head_calls (head_of r)) P = Ok P'
    /\ p_data P' = parsed r /\ p_error P' = 0 /\ p_parser P' = p_parser P.
Proof.
  intros Hok Hd Hlen He Hq. unfold wire_ok in Hok.
  apply andb_true_iff in Hok as [Hok Hh]. apply andb_true_iff in Hok as [Hm Hv].
  apply negb_true_iff, bool_decide_eq_false in Hm. rewrite orb_true_iff, !Z.eqb_eq in Hv.
  unfold head_ok in Hh. apply andb_true_iff in Hh as [_ Hls].
  unfold head_bytes in Hd. repeat (rewrite <- !List.app_assoc in Hd; rewrite <- ?List.app_comm_cons in Hd).
  set (d := head_of r) in *.
  assert (on_request_method data 0 (Z.of_nat (List.length (hd_method d))) P = Ok (update (setMethod (m_method r)) P))
    as Em.
  { unfold on_request_method. change 0 with (Z.of_nat (List.length (@nil Z))).
    rewrite (ctext_at data [] data eq_refl), Hd.
    change (hd_method d) with (bytes_of (HttpMethodToString (m_method r))). rewrite string_of_bytes_of.
    rewrite (proj2 (method_name_roundtrip _ _ Hm)). by rewrite decide_False. }
  set (pre2 := (hd_method d ++ [32])%list).
  set (pre3 := (pre2 ++ head_target d ++ [32])%list).
  set (pre4 := (pre3 ++ [72; 84; 84; 80; 47; 49; 46; hd_minor d; 13; 10])%list).
  assert (target_at d = List.length pre2) as E2
    by (unfold target_at; subst pre2; rewrite length_app; cbn [List.length]; lia).
  assert (version_at d = List.length pre3) as E3.
  { unfold version_at. subst pre3. rewrite !length_app, <- E2. cbn [List.length]. lia. }
  assert (lines_at d = List.length pre4) as E4 by (subst pre4; rewrite length_app, <- E3; done).
  unfold head_calls. cbn [on_request_calls on_request_call]. rewrite Em. cbn [mbind outcome_bind].
  rewrite calls_app, E2. erewrite (target_heard data pre2); [|rewrite Hd; subst pre2; by rewrite <- List.app_assoc|done].
  cbn [mbind outcome_bind on_request_calls on_request_call]. unfold on_request_version.
  rewrite E3. erewrite (heard_version data pre3 (m_version r)); [| |done].
  2: { rewrite Hd. subst pre3 pre2. rewrite <- !List.app_assoc. reflexivity. }
  cbn [mbind outcome_bind]. rewrite E4. erewrite (lines_heard (hd_lines d) data pre4); [| |done|done].
  2: { rewrite Hd. subst pre4 pre3 pre2. rewrite <- !List.app_assoc. reflexivity. }
  eexists. split; [done|]. split; [|done]. cbn [p_data update]. rewrite Hq.
  change (hd_lines d) with (dumped_lines r). rewrite hear_dumped.
  change (hd_query d) with (bytes_of (m_query r)). change (hd_fragment d) with (bytes_of (m_fragment r)).
  change (hd_path d) with (bytes_of (m_path r)).
  unfold parsed, set_if. simpl. rewrite string_bytes.
  destruct (m_query r) as [|x qs] eqn:Eq, (m_fragment r) as [|y fs] eqn:Ef; simpl;
    rewrite ?char_of_byte_of, ?string_bytes; done.
Qed.

(** [HttpRequestParser::execute] on a buffer that begins with a dumped
    request. *)
Lemma execute_dumped r data junk :
  wire_ok r = true -> data = (bytes_of (dump_request r) ++ junk)%list ->
  Z.of_nat (List.length data) < 2 ^ 30 ->
  let len := List.length (bytes_of (dump_request r)) in
  let body := List.length (bytes_of (m_body r)) in
  exists data' P', execute data len newHttpRequestParser = Ok ((len - body)%nat, data', P')
    /\ (body < len)%nat /\ List.length data' = List.length data
    /\ take body data' = bytes_of (m_body r)
    /\ p_data P' = parsed r /\ hasError P' = false /\ isFinished P' = 1.
Proof.
  intros Hok Hd Hlen len body. rewrite dump_request_bytes in Hd by done.
  assert (len = List.length (head_bytes (head_of r)) + body)%nat as El.
  { unfold len, body. by rewrite dump_request_bytes, length_app. }
  pose proof (length_head (head_of r)) as Hh.
  assert (len <= List.length data)%nat as Hle
    by (rewrite Hd, !length_app; fold body; lia).
  assert (take len data = head_bytes (head_of r) ++ bytes_of (m_body r))%list as Et.
  { rewrite Hd, take_app_length' by (rewrite length_app; lia). done. }
  assert (head_ok (head_of r) = true) as Hho by (unfold wire_ok in Hok; by apply andb_true_iff in Hok as [_ ?]).
  destruct (execute_head q0 relaxed (head_of r) (bytes_of (m_body r)) Hho) as (h' & Hx & Hcs).
  { rewrite length_app. fold body. lia. }
  destruct (heard_head r data (bytes_of (m_body r) ++ junk)
    (mkParser h' (newHttpRequest 17 true) 0)) as (P' & Hc & Hdat & Herr & Hpp); [done| |lia|done|done|].
  { by rewrite Hd, <- List.app_assoc. }
  unfold execute. rewrite Et. cbn [mach_execute mach http11_machine p_parser newHttpRequestParser mach_init].
  rewrite Hx. cbn [mbind outcome_bind]. rewrite calls_app.
  cbn [p_data p_error newHttpRequestParser]. rewrite Hc. cbn [mbind outcome_bind on_request_calls on_request_call].
  rewrite (proj2 (Nat.ltb_ge _ _)) by lia.
  replace (List.length (head_bytes (head_of r))) with (len - body)%nat by lia.
  eexists _, P'. split; [done|].
  assert (slice (len - body) (len - (len - body)) data = bytes_of (m_body r)) as Es.
  { replace (len - (len - body))%nat with body by lia.
    replace (len - body)%nat with (List.length (head_bytes (head_of r))) by lia.
    unfold slice. rewrite Hd, <- List.app_assoc, drop_app_length. unfold body. by rewrite take_app_length. }
  rewrite Es. split_and!.
  - unfold lines_at, version_at, target_at in Hh. lia.
  - apply length_splice. fold body. lia.
  - pose proof (slice_splice_eq 0 (bytes_of (m_body r)) data) as E. unfold slice in E.
    rewrite drop_0 in E. apply E. fold body. lia.
  - done.
  - unfold hasError. rewrite Herr, Hpp. cbn. unfold http_parser_has_error. by rewrite Hcs.
  - unfold isFinished. rewrite Hpp. cbn. unfold http_parser_has_error, http_parser_is_finished.
    by rewrite Hcs.
Qed.
End parse.

(** ** The headers that arrive *)

Lemma set_headers_other l m k :
  Forall (fun e => ckey e.1 <> k) l -> to_map (set_headers l m) !! k = to_map m !! k.
Proof.
  intros H. revert m. induction H as [|e l He _ IH]; intros m; [done|].
  change (set_headers (e :: l) m) with (set_headers l (map_set e.1 e.2 m)).
  by rewrite IH, map_set_spec, lookup_insert_ne.
Qed.

(** Setting the entries of a map over another one. *)
Lemma set_headers_sorted l m k :
  map_sorted l ->
  to_map (set_headers l m) !! k = match to_map l !! k with Some v => Some v | None => to_map m !! k end.
Proof.
  intros Hs. revert m. induction Hs as [|[k0 v0] l Hs IH Hf]; intros m; [done|].
  change (set_headers ((k0, v0) :: l) m) with (set_headers l (map_set k0 v0 m)). rewrite IH, map_set_spec, to_map_cons.
  destruct (decide (k = ckey k0)) as [->|Hne].
  - rewrite !lookup_insert_eq. by rewrite to_map_None.
  - by rewrite !lookup_insert_ne.
Qed.

Lemma kept_sorted m : map_sorted m -> map_sorted (kept m).
Proof.
  unfold kept. induction 1 as [|e m Hs IH Hf]; [constructor|].
  destruct (decide (strcasecmp e.1 "connection" <> 0)) as [H|H].
  - rewrite filter_cons_True by done. constructor; [done|].
    eapply Forall_forall. intros x [_ Hx]%list_elem_of_filter. by eapply Forall_forall in Hf.
  - by rewrite filter_cons_False.
Qed.

Lemma kept_keys m : Forall (fun e => ckey e.1 <> ckey "connection") (kept m).
Proof.
  apply Forall_forall. intros e [He _]%list_elem_of_filter. rewrite <- (proj2 (strcasecmp_spec _ _)).
  done.
Qed.

Lemma kept_lookup m k : k <> ckey "connection" -> to_map (kept m) !! k = to_map m !! k.
Proof.
  intros Hk. induction m as [|[k0 v0] m IH]; [done|]. unfold kept in *. rewrite to_map_cons.
  destruct (decide (strcasecmp k0 "connection" <> 0)) as [H|H].
  - rewrite filter_cons_True by done. rewrite to_map_cons.
    destruct (decide (ckey k0 = k)) as [->|]; [by rewrite !lookup_insert_eq|].
    by rewrite !lookup_insert_ne.
  - rewrite filter_cons_False by done. rewrite lookup_insert_ne; [done|].
    apply dec_stable in H. apply (proj2 (strcasecmp_spec _ _)) in H. congruence.
Qed.

Lemma length_header_keys body :
  Forall (fun e => ckey e.1 = ckey "content-length") (length_header body).
Proof. unfold length_header. destruct (String.eqb _ _); by repeat constructor. Qed.

Lemma wire_connection r :
  map_find "connection" (set_headers (wire_headers r) []) = Some (connection_header (m_close r)).2.
Proof.
  rewrite map_find_spec. unfold wire_headers. change (?x :: ?l) with ([x] ++ l)%list.
  rewrite set_headers_app, set_headers_other;
    [by rewrite set_headers_one, map_set_spec, lookup_insert_eq|].
  apply Forall_app. split; [apply kept_keys|].
  eapply Forall_impl; [apply length_header_keys|]. cbv beta. intros e ->. done.
Qed.

Lemma wire_length r :
  m_body r <> "" ->
  map_find "content-length" (set_headers (wire_headers r) []) =
    Some (decimal (Z.of_nat (String.length (m_body r)))).
Proof.
  intros Hb. rewrite map_find_spec. unfold wire_headers, length_header.
  rewrite (proj2 (String.eqb_neq _ _)) by done. change (?x :: ?l) with ([x] ++ l)%list.
  by rewrite List.app_assoc, set_headers_app, set_headers_one, map_set_spec, lookup_insert_eq.
Qed.

Lemma wire_other r key :
  map_sorted (m_headers r) -> ckey key <> ckey "connection" ->
  (ckey key <> ckey "content-length" \/ m_body r = "") ->
  map_find key (set_headers (wire_headers r) []) = map_find key (m_headers r).
Proof.
  intros Hs Hk Hl. rewrite !map_find_spec. unfold wire_headers. change (?x :: ?l) with ([x] ++ l)%list.
  rewrite !set_headers_app. rewrite set_headers_other.
  - rewrite set_headers_sorted by (by apply kept_sorted). rewrite kept_lookup by done.
    destruct (to_map (m_headers r) !! ckey key); [done|].
    rewrite set_headers_one, map_set_spec, lookup_insert_ne; [done|]. by destruct (m_close r).
  - destruct Hl as [Hl| ->]; [|constructor].
    eapply Forall_impl; [apply length_header_keys|]. cbv beta. intros e ->. done.
Qed.

(** ** Properties *)

(** A [lexical_cast] that reads decimal numbers, as boost's does. *)
Definition reads_decimal (lexical_cast : string -> option Z) : Prop :=
  forall n, 0 <= n < 2 ^ 64 -> lexical_cast (decimal n) = Some n.

Lemma with_close_init r c :
  map_find "connection" (m_headers r) = Some (connection_header c).2 -> init r = with_close c r.
Proof. intros H. unfold init, getHeader. rewrite H. by destruct c. Qed.

(** C14: A request printed by [dump] whose whole text arrives in the first read,
    in a buffer of less than 2^30 bytes, comes out of the ragel-generated
    machine, the parser callbacks and [recvRequest] with the same method,
    version, path, query, fragment, body and keep-alive, and with every header
    but [connection] and [content-length] under any spelling of its name, and
    the stream is left right behind it. The request is within the grammar (a
    method without a hyphen, HTTP/1.0 or 1.1, a path with one leading slash,
    characters of paths and queries or percent-encoded ones, header names of
    token characters, values that begin with no blank and hold no line end),
    stores no content-length when its body is empty, its body has room in
    memory, and [lexical_cast] reads decimal numbers. *)
Theorem request_wire_roundtrip {St} `{!Stream St} {MM : Memory} q0 relaxed sclose lexical_cast fuel buffer
    (st st1 : St) r :
  wire_ok r = true -> map_sorted (m_headers r) -> reads_decimal lexical_cast ->
  (m_body r = "" -> map_find "content-length" (m_headers r) = None) ->
  has_room (Z.of_nat (String.length (m_body r))) ->
  Z.of_nat (List.length buffer) < 2 ^ 30 ->
  (String.length (dump_request r) <= List.length buffer)%nat ->
  sread (List.length buffer) st =
    (Z.of_nat (String.length (dump_request r)), bytes_of (dump_request r), st1) ->
  exists r', recvRequest (Machine0 := http11_machine q0 relaxed) sclose lexical_cast (S fuel) buffer st
      = Ok (Some r', st1)
    /\ m_method r' = m_method r /\ m_version r' = m_version r /\ m_close r' = m_close r
    /\ m_path r' = m_path r /\ m_query r' = m_query r /\ m_fragment r' = m_fragment r
    /\ m_body r' = m_body r
    /\ forall key def, ckey key <> ckey "connection" -> ckey key <> ckey "content-length" ->
         getHeader key def r' = getHeader key def r.
Proof.
  intros Hok Hs Hcast Hcl Hroom Hbuf Hfit Hread. rewrite <- length_bytes_of in Hread, Hfit.
  set (t := bytes_of (dump_request r)) in *.
  destruct (execute_dumped q0 relaxed r (splice 0 t buffer) (drop (List.length t) buffer) Hok)
    as (data' & P & Hx & Hlt & Hld & Htake & Hdat & Herr & Hfin).
  { reflexivity. }
  { rewrite length_splice; lia. }
  fold t in Hx, Hlt. set (n := List.length (bytes_of (m_body r))) in *.
  rewrite length_splice in Hld by lia.
  assert (m_headers (parsed r) = set_headers (wire_headers r) []) as Hhd by done.
  exists (with_close (m_close r) (setBody (m_body r) (parsed r))). split; [|split_and!; try done].
  2: { intros key def H1 H2. unfold getHeader.
       change (m_headers (with_close _ _)) with (set_headers (wire_headers r) []).
       rewrite wire_other; auto. }
  assert (recv_loop (Machine0 := http11_machine q0 relaxed) sclose (S fuel) buffer 0
    (newHttpRequestParser (Machine0 := http11_machine q0 relaxed)) st = Ok (Some (n, data', P), st1)) as Hl.
  { cbn [recv_loop]. rewrite Nat.sub_0_r, Hread, (proj2 (Z.leb_gt _ _)) by lia. cbv zeta.
    rewrite Nat2Z.id, Nat.add_0_r. unfold mach in Hx. rewrite Hx. cbn [mbind outcome_bind].
    unfold mach in Herr, Hfin. rewrite Herr.
    replace (List.length t - (List.length t - n))%nat with n by lia.
    rewrite i32_small by (unfold in_s; lia). rewrite (proj2 (Z.eqb_neq _ _)) by lia. by rewrite Hfin. }
  unfold recvRequest. rewrite Hl. cbn [mbind outcome_bind]. unfold getContentLength, getHeaderAs, getAs.
  rewrite Hdat, Hhd. destruct (decide (m_body r = "")) as [Hb|Hb].
  - rewrite wire_other by (auto; done). rewrite Hcl by done. cbn. do 2 f_equal.
    rewrite Hb. rewrite <- (with_close_init (parsed r)); [done|]. rewrite Hhd. apply wire_connection.
  - rewrite wire_length by done.
    assert (Z.of_nat n < 2 ^ 30 /\ String.length (m_body r) = n /\ (0 < n)%nat) as (Hn & En & Hpos).
    { unfold n. rewrite length_bytes_of. split_and!; [unfold n in Hlt; rewrite length_bytes_of in Hlt; lia|done|].
      destruct (m_body r); [done|simpl; lia]. }
    rewrite En, Hcast by lia.
    assert (i64 (Z.of_nat n) = Z.of_nat n) as Ei by (apply wraps_small; unfold in_s; lia).
    rewrite Ei, (proj2 (Z.ltb_lt _ _)) by lia. unfold recv_body. rewrite En in Hroom. rewrite make_string_room by done. cbn [mbind outcome_bind]. cbv zeta.
    rewrite (proj2 (Z.leb_le _ _)) by lia. rewrite (proj2 (Z.ltb_ge _ _)) by lia.
    cbn [mbind outcome_bind]. rewrite Nat2Z.id, Htake, splice_whole by (by rewrite length_replicate).
    rewrite string_bytes. do 3 f_equal. apply with_close_init. apply wire_connection.
Qed.

Definition read_cast (s : string) : option Z := Some (read_dec 0 s).

Definition wire_request : HttpRequest :=
  mkReq POST 17 false "/a/b%20c" "x=1&y=/" ("hello" ++ CRLF) "frag" [("Host", "sylar.top"); ("X", "")] [] [].

Lemma request_wire_roundtrip_witness :
  exists r', recvRequest (Machine0 := http11_machine 77 true) (MM := plenty) (fun t : tape => t) read_cast 5
      (replicate 256 0) (bytes_of (dump_request wire_request), [250%nat]) = Ok (Some r', ([], []))
    /\ m_body r' = "hello" ++ CRLF /\ m_close r' = false /\ getHeader "hOST" "" r' = "sylar.top".
Proof.
  destruct (request_wire_roundtrip (MM := plenty) 77 true (fun t : tape => t) read_cast 4 (replicate 256 0)
    ((bytes_of (dump_request wire_request), [250%nat]) : tape) ([], []) wire_request)
    as (r' & H & _ & _ & Hc & _ & _ & _ & Hb & Hh).
  - vm_compute. reflexivity.
  - repeat constructor.
  - intros n Hn. unfold read_cast. by rewrite read_decimal by lia.
  - discriminate.
  - by split.
  - done.
  - apply Nat.leb_le. vm_compute. reflexivity.
  - vm_compute. reflexivity.
  - exists r'. split; [exact H|]. split; [exact Hb|]. split; [exact Hc|].
    rewrite Hh; [vm_compute; reflexivity|vm_compute; discriminate|vm_compute; discriminate].
Defined.

(** ** What the grammar lets through

    [HTTP_CTL] is written [(0 - 31)], which for ragel is the character 0
    without the character 31, so line ends are characters of a name: a header
    line without a colon is joined with the next line into one name.  And a
    method is recognised by a prefix. *)
Lemma colonless_line_joined :
  match serve [200%nat] (bytes_of ("GETX / HTTP/1.1" ++ CRLF ++ "oops" ++ CRLF ++ "Host: a" ++ CRLF ++ CRLF)) with
  | Ok (Some req, _) =>
      m_headers req = [("oops" ++ CRLF ++ "Host", "a")] /\ getHeader "Host" "none" req = "none"
      /\ m_method req = GET
  | _ => False
  end.
Proof. vm_compute. auto. Qed.
