(* ===== verification/HttpClientRoundtrip.v ===== *)
(** * A response from [dump] or in chunks to [recvResponse]

    [HttpResponse::dump] on one side; the machine of
    [httpclient_parser.rl.cc], the callbacks of [http_parser.cc] and
    [HttpConnection::recvResponse] on the other. *)

From stdpp Require Import base list gmap strings.
From Stdlib Require Import ZArith Lia Ascii String.
From S2P Require Import Prelude Http HttpTheorems Stream HttpParser HttpSession HttpWire HttpRoundtrip.
From S2P Require Import HttpClientParser HttpClientWire HttpConnection.

Local Open Scope string_scope.
Local Open Scope Z_scope.

(** ** Callbacks *)

Definition rsp_hear (r : HttpResponse) (l : hline) : HttpResponse :=
  let '(name, _, value) := l in rsp_setHeader (string_of name) (string_of value) r.

Lemma rsp_calls_app data cs1 cs2 p :
  on_response_calls data (cs1 ++ cs2)%list p =
    (p ← on_response_calls data cs1 p; on_response_calls data cs2 p).
Proof.
  revert p. induction cs1 as [|c cs1 IH]; intros p; [done|]. cbn [on_response_calls app].
  destruct (on_response_call data c p) as [p'|]; [|done]. cbn [mbind outcome_bind]. apply IH.
Qed.

Lemma rsp_lines_heard ls data pre post p :
  data = (pre ++ hlines_bytes ls ++ post)%list -> Z.of_nat (List.length data) < 2 ^ 31 ->
  forallb cline_ok ls = true ->
  on_response_calls data (hlines_calls (List.length pre) ls) p =
    Ok (rsp_update (fun r => foldl rsp_hear r ls) p).
Proof.
  revert pre p. induction ls as [|l ls IH]; intros pre p Hd Hlen Hok; [by destruct p|].
  simpl in Hok. apply andb_true_iff in Hok as [Hl Hok].
  change (hlines_bytes (l :: ls)) with (hline_bytes l ++ hlines_bytes ls)%list in Hd.
  cbn [hlines_calls on_response_calls].
  assert (on_response_call data (hline_call (List.length pre) l) p
    = Ok (rsp_update (fun r => rsp_hear r l) p)) as ->.
  { pose proof (hline_texts data pre l (hlines_bytes ls ++ post)%list) as Ht.
    destruct l as [[name blank] value]. unfold cline_ok in Hl.
    cbn [on_response_call hline_call]. unfold on_response_http_field.
    destruct (Z.eqb_spec (Z.of_nat (List.length name)) 0) as [E|_].
    { destruct name; [done|simpl in E; lia]. }
    destruct Ht as [-> ->]; [by rewrite Hd, <- !List.app_assoc|done|done]. }
  cbn [mbind outcome_bind].
  specialize (IH (pre ++ hline_bytes l)%list). rewrite length_app in IH. rewrite IH; [done| |done|done].
  by rewrite Hd, <- !List.app_assoc.
Qed.

(** The callbacks for a head, in any buffer that begins with it. *)
Definition heard_rhead (d : rhead) (r : HttpResponse) : HttpResponse :=
  foldl rsp_hear
    (rsp_setReason (string_of (rh_reason d))
      (rsp_setStatus (digits_value (rh_status d))
        (rsp_setVersion (if rh_minor d =? 49 then 17 else 16) r))) (rh_lines d).

Lemma rhead_heard d data post extra p :
  rhead_ok d = true -> data = (rhead_bytes d ++ post)%list -> Z.of_nat (List.length data) < 2 ^ 31 ->
  in_s 32 (digits_value (rh_status d)) ->
  on_response_calls data (rhead_calls d extra) p = Ok (rsp_update (heard_rhead d) p).
Proof.
  intros Hok Hd Hlen Hst. unfold rhead_ok in Hok. rewrite !andb_true_iff in Hok.
  destruct Hok as (((((Hv & Hs1) & Hs) & Hr1) & Hr) & Hls). rewrite orb_true_iff, !Z.eqb_eq in Hv.
  unfold rhead_bytes in Hd. rewrite <- !List.app_assoc in Hd.
  unfold rhead_calls. rewrite rsp_calls_app.
  set (pre1 := [72; 84; 84; 80; 47; 49; 46; rh_minor d; 32]).
  assert (data = pre1 ++ rh_status d ++ 32 :: rh_reason d ++ [13; 10] ++ hlines_bytes (rh_lines d)
    ++ [13; 10] ++ post)%list as Hd0.
  { rewrite Hd. unfold rhead_start, status_line. fold pre1. rewrite <- !List.app_assoc. cbn [app].
    by rewrite <- !List.app_assoc. }
  assert (version_of (ctext data 0) 8 = Some (if rh_minor d =? 49 then 17 else 16)) as E1.
  { change 0 with (Z.of_nat (List.length (@nil Z))). rewrite (ctext_at data [] data eq_refl), Hd0.
    unfold pre1. by destruct Hv as [-> | ->]. }
  assert (on_response_status data 9 (rsp_update (rsp_setVersion (if rh_minor d =? 49 then 17 else 16)) p)
    = Ok (rsp_update (rsp_setStatus (digits_value (rh_status d)))
        (rsp_update (rsp_setVersion (if rh_minor d =? 49 then 17 else 16)) p))) as E2.
  { unfold on_response_status. change 9 with (Z.of_nat (List.length pre1)).
    rewrite (ctext_at data pre1 _ Hd0), atoi_number; [done|done|by destruct (rh_status d)|done|done]. }
  assert (text data (Z.of_nat (10 + List.length (rh_status d))) (Z.of_nat (List.length (rh_reason d)))
    = Ok (string_of (rh_reason d))) as E3.
  { pose proof (text_at data (pre1 ++ rh_status d ++ [32])%list (rh_reason d)
      ([13; 10] ++ hlines_bytes (rh_lines d) ++ [13; 10] ++ post)%list) as E.
    rewrite !length_app in E. simpl List.length in E.
    replace (9 + (List.length (rh_status d) + 1))%nat with (10 + List.length (rh_status d))%nat in E by lia.
    apply E; [|done]. rewrite Hd0. rewrite <- !List.app_assoc. reflexivity. }
  unfold status_calls. cbn [on_response_calls on_response_call]. unfold on_response_version. rewrite E1.
  cbn [mbind outcome_bind]. rewrite E2. cbn [mbind outcome_bind]. rewrite E3. cbn [mbind outcome_bind].
  rewrite rsp_calls_app, (rsp_lines_heard _ data (rhead_start d) ([13; 10] ++ post)%list); [|done..].
  by destruct p.
Qed.

(** ** One call of the parser *)

Lemma rsp_parse_result data len (ck : bool) p cs n m p' :
  (len < List.length data)%nat -> Z.of_nat (List.length data) < 2 ^ 31 -> (0 < n <= len)%nat ->
  httpclient_parser_execute (splice len [0%Z] data) len 0
    (if ck then httpclient_parser_init (q_parser p) else q_parser p) = Ok (cs, Z.of_nat n, m) ->
  on_response_calls (splice len [0%Z] data) cs (mkRspParser m (q_data p) (q_error p)) = Ok p' ->
  rsp_hasError p' = false ->
  exists data', rsp_parse data len ck p = Ok (Some ((len - n)%nat, data', p'))
    /\ List.length data' = List.length data /\ take (len - n) data' = slice n (len - n) data.
Proof.
  intros Hl Hb Hn Hx Hc He. unfold rsp_parse.
  destruct (lookup_lt_is_Some_2 data len Hl) as [z ->]. cbn [deref mbind outcome_bind].
  unfold rsp_execute. rewrite Hx. cbn [mbind outcome_bind]. rewrite Hc. cbn [mbind outcome_bind].
  assert (u64 (Z.of_nat n) = Z.of_nat n) as -> by (apply wrapu_small; unfold in_u; lia).
  rewrite (proj2 (Z.ltb_ge _ _)), Nat2Z.id by lia. cbn [mbind outcome_bind].
  rewrite He. assert (List.length (splice len [0%Z] data) = List.length data) as Hs
    by (apply length_splice; simpl; lia).
  assert (List.length (slice n (len - n) (splice len [0%Z] data)) = len - n)%nat as Hsl
    by (apply length_slice; lia).
  assert (List.length (splice 0 (slice n (len - n) (splice len [0%Z] data)) (splice len [0%Z] data))
    = List.length data) as Hd' by (rewrite length_splice; lia).
  unfold buff_size. rewrite Hd', i32_small by (unfold in_s; lia).
  rewrite (proj2 (Z.eqb_neq _ _)) by lia. eexists. split; [done|]. split; [done|].
  assert (slice n (len - n) (splice len [0%Z] data) = slice n (len - n) data) as Es
    by (apply slice_splice_ne; simpl; lia).
  rewrite Es in *. rewrite <- Hsl at 1. apply (slice_splice_eq 0). lia.
Qed.

Lemma zero_placed (data : list Z) len : (len < List.length data)%nat ->
  splice len [0%Z] data !! len = Some 0 /\ take len (splice len [0%Z] data) = take len data.
Proof.
  intros Hl. split.
  - rewrite lookup_splice by (simpl; lia). rewrite decide_True by (simpl; lia).
    by rewrite Nat.sub_diag.
  - unfold splice. rewrite take_app_le by (rewrite length_take; lia). by rewrite take_take, Nat.min_id.
Qed.

Lemma slice_behind (data : list Z) len l rest :
  take len data = (l ++ rest)%list -> (len <= List.length data)%nat ->
  slice (List.length l) (len - List.length l) data = rest.
Proof.
  intros Ht Hl. assert (len = List.length l + List.length rest)%nat as El
    by (rewrite <- length_app, <- Ht, length_take; lia).
  rewrite <- (slice_take _ _ len) by lia. rewrite Ht. unfold slice. rewrite drop_app_length.
  rewrite take_ge; [done|lia].
Qed.

Lemma rsp_parse_head data len d rest raw :
  rhead_ok d = true -> in_s 32 (digits_value (rh_status d)) ->
  take len data = (rhead_bytes d ++ rest)%list -> (len < List.length data)%nat ->
  Z.of_nat (List.length data) < 2 ^ 30 ->
  exists data' p', rsp_parse data len false (newHttpResponseParser raw) =
      Ok (Some (List.length rest, data', p'))
    /\ List.length data' = List.length data /\ take (List.length rest) data' = rest
    /\ q_data p' = heard_rhead d (newHttpResponse 17 true) /\ q_error p' = 0
    /\ rsp_isFinished p' = true /\ cp_chunked (q_parser p') = existsb line_chunked (rh_lines d).
Proof.
  intros Hok Hst Ht Hl Hb. destruct (zero_placed data len Hl) as [Hz Hzt].
  destruct (client_execute_head (splice len [0%Z] data) len d rest (httpclient_parser_init raw) Hok
    eq_refl eq_refl) as (h' & Hx & Hcs & Hck); [by rewrite Hzt|done|lia|].
  assert (List.length (rhead_bytes d) + List.length rest = len)%nat as El
    by (rewrite <- length_app, <- Ht, length_take; lia).
  assert (0 < List.length (rhead_bytes d))%nat as Hpos
    by (unfold rhead_bytes; rewrite !length_app; simpl; lia).
  pose proof (rhead_heard d (splice len [0%Z] data) (rest ++ drop len (splice len [0%Z] data))%list
    (List.length rest) (mkRspParser h' (newHttpResponse 17 true) 0)) as Hc.
  destruct (rsp_parse_result data len false (newHttpResponseParser raw) _ (List.length (rhead_bytes d))
    h' (rsp_update (heard_rhead d) (mkRspParser h' (newHttpResponse 17 true) 0)) Hl ltac:(lia) ltac:(lia) Hx) as (data' & Hp & Hd1 & Hd2).
  { apply Hc; [done| |rewrite length_splice; simpl; lia|done].
    by rewrite List.app_assoc, <- Ht, <- Hzt, take_drop. }
  { unfold rsp_hasError. simpl. unfold httpclient_parser_has_error. by rewrite Hcs. }
  rewrite (slice_behind _ _ _ _ Ht) in Hd2 by lia.
  replace (len - List.length (rhead_bytes d))%nat with (List.length rest) in * by lia.
  eexists data', _. split_and!; [exact Hp|done|done|done|done| |done].
  unfold rsp_isFinished, httpclient_parser_is_finished. simpl. by rewrite Hcs.
Qed.

Lemma rsp_parse_size data len ds rest p :
  xdigits ds = true -> size_of ds < 2 ^ 31 -> q_error p = 0 ->
  take len data = (size_line ds ++ rest)%list -> (len < List.length data)%nat ->
  Z.of_nat (List.length data) < 2 ^ 30 ->
  exists data' p', rsp_parse data len true p = Ok (Some (List.length rest, data', p'))
    /\ List.length data' = List.length data /\ take (List.length rest) data' = rest
    /\ q_data p' = q_data p /\ q_error p' = 0 /\ rsp_isFinished p' = true
    /\ cp_content_len (q_parser p') = size_of ds /\ cp_chunks_done (q_parser p') = (size_of ds <=? 0).
Proof.
  intros Hok Hsz He Ht Hl Hb. destruct (zero_placed data len Hl) as [Hz Hzt].
  destruct (client_execute_size (splice len [0%Z] data) len ds rest (httpclient_parser_init (q_parser p)) Hok
    Hsz eq_refl eq_refl) as (h' & calls & Hx & Hcs & Hcl & Hcd & Hca); [by rewrite Hzt|done|lia|].
  assert (List.length (size_line ds) + List.length rest = len)%nat as El
    by (rewrite <- length_app, <- Ht, length_take; lia).
  assert (0 < List.length (size_line ds))%nat as Hpos
    by (unfold size_line; rewrite !length_app; simpl; lia).
  assert (forall q, on_response_calls (splice len [0%Z] data) calls q = Ok q) as Hc.
  { clear -Hca. induction Hca as [|c cs H _ IH]; intros q; [done|]. cbn [on_response_calls].
    destruct c as [e a l|]; [|done]. destruct H as [-> |[-> | ->]]; cbn; apply IH. }
  destruct (rsp_parse_result data len true p _ (List.length (size_line ds)) h' _ Hl ltac:(lia) ltac:(lia)
    Hx (Hc _)) as (data' & Hp & Hd1 & Hd2).
  { unfold rsp_hasError. simpl. unfold httpclient_parser_has_error. by rewrite Hcs, He. }
  rewrite (slice_behind _ _ _ _ Ht) in Hd2 by lia.
  replace (len - List.length (size_line ds))%nat with (List.length rest) in * by lia.
  eexists data', _. split_and!; [exact Hp|done|done|done|done| |done|done].
  unfold rsp_isFinished, httpclient_parser_is_finished. simpl. by rewrite Hcs.
Qed.

(** ** Chunks *)

Local Notation eol := [13%Z; 10%Z].

Section chunks.
Context {St : Type} `{!Stream St} `{!StreamLaws St} (sclose : St -> St).
Context (buff : nat).

(** Reads of at most a buffer until all of [b] has come. *)
Inductive reads : list Z -> St -> St -> Prop :=
  | reads_nil st : reads [] st st
  | reads_cons b1 b2 st st1 st2 :
      sread (Nat.min buff (List.length (b1 ++ b2)%list)) st = (Z.of_nat (List.length b1), b1, st1) ->
      b1 <> [] -> reads b2 st1 st2 -> reads (b1 ++ b2)%list st st2.

(** [piece buf st c buf' st']: the buffered bytes [buf] and the stream give the
    chunk [c] and leave [buf'].  The line of its size comes whole: in the
    buffer, or with the next read when the buffer is empty; the chunk itself
    may be cut anywhere. *)
Inductive piece : list Z -> St -> list Z -> list Z -> St -> Prop :=
  | piece_here ds c buf st :
      xdigits ds = true -> size_of ds = Z.of_nat (List.length c) ->
      piece (size_line ds ++ c ++ eol ++ buf)%list st c buf st
  | piece_more ds c part b st st1 :
      xdigits ds = true -> size_of ds = Z.of_nat (List.length c) ->
      (part ++ b = c ++ eol)%list -> b <> [] -> reads b st st1 ->
      piece (size_line ds ++ part)%list st c [] st1
  | piece_read b st st1 c buf' st' :
      sread buff st = (Z.of_nat (List.length b), b, st1) -> b <> [] ->
      piece b st1 c buf' st' -> piece [] st c buf' st'.

(** The chunks up to the empty one. *)
Inductive arrives : list Z -> St -> list (list Z) -> St -> Prop :=
  | arrives_last buf st buf' st' : piece buf st [] buf' st' -> arrives buf st [] st'
  | arrives_chunk buf st c buf1 st1 cs st' :
      piece buf st c buf1 st1 -> c <> [] -> arrives buf1 st1 cs st' -> arrives buf st (c :: cs) st'.

Lemma str_append_ok body data n :
  (n <= List.length data)%nat -> Z.of_nat (List.length body) < 2 ^ 62 -> Z.of_nat (List.length data) < 2 ^ 31 ->
  str_append body data (Z.of_nat n) = Ok (body ++ take n data)%list.
Proof.
  intros Hn Hb Hd. unfold str_append.
  assert (u64 (Z.of_nat n) = Z.of_nat n) as -> by (apply wrapu_small; unfold in_u; lia).
  rewrite !(proj2 (Z.ltb_ge _ _)), Nat2Z.id by (unfold max_size; lia). done.
Qed.

Lemma chunk_rest_reads b st st' fuel data body :
  reads b st st' -> List.length data = S buff -> Z.of_nat (S buff) < 2 ^ 30 ->
  (List.length b <= fuel)%nat -> Z.of_nat (List.length body + List.length b) < 2 ^ 62 ->
  exists data', chunk_rest sclose fuel (Z.of_nat (List.length b)) data body st
      = Ok (Some (data', (body ++ b)%list), st')
    /\ List.length data' = List.length data.
Proof.
  intros Hr. revert fuel data body.
  induction Hr as [st|b1 b2 st st1 st2 Hrd Hne _ IH]; intros fuel data body Hd Hb Hf Hl.
  { exists data. rewrite app_nil_r. by destruct fuel. }
  rewrite length_app in *.
  assert (0 < List.length b1)%nat by (destruct b1; [done|simpl; lia]).
  assert (List.length b1 <= buff)%nat as Hb1.
  { pose proof (sread_bound (Nat.min buff (List.length b1 + List.length b2)) st) as Hsb.
    rewrite Hrd in Hsb. destruct Hsb as [Hsb _]. lia. }
  destruct fuel as [|fuel]; [lia|]. cbn [chunk_rest].
  rewrite (proj2 (Z.leb_gt _ _)) by lia. unfold buff_size. rewrite Hd.
  replace (S buff - 1)%nat with buff by lia. rewrite i32_small by (unfold in_s; lia).
  match goal with |- context [sread ?n st] =>
    replace n with (Nat.min buff (List.length b1 + List.length b2)) end.
  2: { destruct (Z.ltb_spec (Z.of_nat buff) (Z.of_nat (List.length b1 + List.length b2)));
         unfold u64; rewrite wrapu_small by (unfold in_u; lia); lia. }
  rewrite Hrd. rewrite (proj2 (Z.leb_gt _ _)) by lia.
  assert (List.length (splice 0 b1 data) = List.length data) as Hs by (apply length_splice; lia).
  rewrite str_append_ok by lia. cbn [mbind outcome_bind].
  assert (take (List.length b1) (splice 0 b1 data) = b1) as -> by (apply (slice_splice_eq 0); lia).
  replace (Z.of_nat (List.length b1 + List.length b2) - Z.of_nat (List.length b1))
    with (Z.of_nat (List.length b2)) by lia.
  destruct (IH fuel (splice 0 b1 data) (body ++ b1)%list) as (data' & -> & Hd');
    [lia|lia|lia|rewrite length_app; lia|].
  exists data'. rewrite <- List.app_assoc. split; [done|lia].
Qed.

(** The body of a chunk, from the buffer. *)
Lemma chunk_body_here fuel c buf data body st :
  take (List.length (c ++ eol ++ buf)%list) data = (c ++ eol ++ buf)%list ->
  (List.length (c ++ eol ++ buf)%list < List.length data)%nat ->
  Z.of_nat (List.length data) < 2 ^ 30 -> Z.of_nat (List.length body) < 2 ^ 62 ->
  exists data', chunk_body sclose fuel (Z.of_nat (List.length c)) (List.length (c ++ eol ++ buf)%list)
      data body st = Ok (Some (List.length buf, data', (body ++ c)%list), st)
    /\ List.length data' = List.length data /\ take (List.length buf) data' = buf.
Proof.
  intros Ht Hl Hb Hbd. rewrite !length_app in *. cbn [List.length] in *. unfold chunk_body.
  rewrite (sarith_small 32 (Z.of_nat (List.length c) + 2)) by (unfold in_s; lia). cbn [mbind outcome_bind].
  rewrite (proj2 (Z.leb_le _ _)) by lia. rewrite str_append_ok by lia. cbn [mbind outcome_bind].
  replace (Z.to_nat (Z.of_nat (List.length c) + 2)) with (List.length (c ++ eol)%list)
    by (rewrite length_app; simpl; lia).
  pose proof (slice_behind data _ (c ++ eol)%list buf ltac:(rewrite <- List.app_assoc; exact Ht) ltac:(lia))
    as Es.
  rewrite Es. replace (_ - List.length (c ++ eol)%list)%nat with (List.length buf)
    by (rewrite length_app; simpl; lia).
  assert (take (List.length c) data = c) as ->.
  { apply (f_equal (take (List.length c))) in Ht. rewrite take_take, Nat.min_l, take_app_length in Ht by lia.
    done. }
  eexists. split; [done|]. split; [apply length_splice; lia|]. apply (slice_splice_eq 0). lia.
Qed.

(** The body of a chunk whose end is still to come. *)
Lemma chunk_body_more fuel c part b data body st st' :
  (part ++ b = c ++ eol)%list -> b <> [] -> reads b st st' ->
  take (List.length part) data = part -> (List.length part <= buff)%nat -> List.length data = S buff ->
  Z.of_nat (S buff) < 2 ^ 30 -> (List.length c + 2 <= fuel)%nat ->
  Z.of_nat (List.length c) < 2 ^ 30 -> Z.of_nat (List.length body) < 2 ^ 60 ->
  exists data', chunk_body sclose fuel (Z.of_nat (List.length c)) (List.length part)
      data body st = Ok (Some (0%nat, data', (body ++ c)%list), st')
    /\ List.length data' = List.length data.
Proof.
  intros E Hne Hr Ht Hp Hd Hb Hf Hc Hbd.
  assert (List.length part + List.length b = List.length c + 2)%nat as El.
  { rewrite <- !length_app, E, length_app. done. }
  assert (0 < List.length b)%nat by (destruct b; [done|simpl; lia]).
  unfold chunk_body.
  rewrite (sarith_small 32 (Z.of_nat (List.length c) + 2)) by (unfold in_s; lia). cbn [mbind outcome_bind].
  rewrite (proj2 (Z.leb_gt _ _)) by lia. rewrite str_append_ok, Ht by lia. cbn [mbind outcome_bind].
  rewrite (sarith_small 32) by (unfold in_s; lia). cbn [mbind outcome_bind].
  replace (Z.of_nat (List.length c) - Z.of_nat (List.length part) + 2) with (Z.of_nat (List.length b)) by lia.
  destruct (chunk_rest_reads b st st' fuel data (body ++ part)%list Hr Hd Hb) as (data' & -> & Hd');
    [lia|rewrite length_app; lia|]. cbn [mbind outcome_bind].
  rewrite <- List.app_assoc, E, List.app_assoc. unfold str_resize.
  rewrite (length_app (body ++ c)). cbn [List.length].
  replace (Z.of_nat (List.length (body ++ c)%list + 2) - 2) with (Z.of_nat (List.length (body ++ c)%list)) by lia.
  assert (Z.of_nat (List.length (body ++ c)%list) < 2 ^ 61) by (rewrite length_app; lia).
  assert (u64 (Z.of_nat (List.length (body ++ c)%list)) = Z.of_nat (List.length (body ++ c)%list)) as ->
    by (apply wrapu_small; unfold in_u; lia).
  rewrite (proj2 (Z.ltb_ge _ _)), Nat2Z.id by (unfold max_size; lia). cbn [mbind outcome_bind].
  rewrite take_app_length. replace (_ - (_ + 2))%nat with 0%nat by lia. rewrite app_nil_r.
  by exists data'.
Qed.

Lemma piece_nil st c buf' st' :
  piece [] st c buf' st' -> exists b st1,
    sread buff st = (Z.of_nat (List.length b), b, st1) /\ b <> [] /\ piece b st1 c buf' st'.
Proof.
  intros H. remember (@nil Z) as e eqn:E.
  destruct H as [ds c buf st|ds c part b st st1|b st st1 c buf' st']; [by destruct ds|by destruct ds|eauto].
Qed.

(** The size line and the chunk, when the line is at the front of the buffer. *)
Lemma chunk_line fuel b c buf' st st' data body p :
  piece b st c buf' st' -> b <> [] -> q_error p = 0 -> take (List.length b) data = b ->
  (List.length b <= buff)%nat -> List.length data = S buff -> Z.of_nat (S buff) < 2 ^ 30 ->
  (List.length c + 3 <= fuel)%nat -> Z.of_nat (List.length c) < 2 ^ 30 ->
  Z.of_nat (List.length body) < 2 ^ 60 ->
  exists data1 p1 len1 data2,
    rsp_parse data (List.length b) true p = Ok (Some (len1, data1, p1)) /\ rsp_isFinished p1 = true
    /\ chunk_body sclose fuel (cp_content_len (q_parser p1)) len1 data1 body st
       = Ok (Some (List.length buf', data2, (body ++ c)%list), st')
    /\ q_data p1 = q_data p /\ q_error p1 = 0
    /\ cp_chunks_done (q_parser p1) = (Z.of_nat (List.length c) <=? 0)
    /\ List.length data2 = S buff /\ take (List.length buf') data2 = buf'
    /\ (List.length buf' <= buff)%nat.
Proof.
  intros Hp Hne He Ht Hl Hd Hb Hf Hc Hbd.
  destruct Hp as [ds c buf st Hx Hs|ds c part b st st1 Hx Hs E Hbn Hr|]; [| |done].
  - destruct (rsp_parse_size data _ ds _ p Hx ltac:(lia) He Ht ltac:(lia) ltac:(lia))
      as (d1 & p1 & Hy & L1 & T1 & Q1 & Q2 & Q3 & Q4 & Q5).
    rewrite length_app in Hl.
    destruct (chunk_body_here fuel c buf d1 body st T1) as (d2 & Hz & L2 & T2); [lia..|].
    exists d1, p1, (List.length (c ++ eol ++ buf)%list), d2. rewrite Q4, Q5, Hs.
    rewrite !length_app in Hl. split_and!; try done; lia.
  - destruct (rsp_parse_size data _ ds _ p Hx ltac:(lia) He Ht ltac:(lia) ltac:(lia))
      as (d1 & p1 & Hy & L1 & T1 & Q1 & Q2 & Q3 & Q4 & Q5).
    rewrite length_app in Hl.
    destruct (chunk_body_more fuel c part b d1 body st st1) as (d2 & Hz & L2); try done; try lia.
    exists d1, p1, (List.length part), d2. rewrite Q4, Q5, Hs. split_and!; try done; simpl; lia.
Qed.

(** One round of the outer loop. *)
Lemma chunk_round fuel buf c buf' st st' data body p :
  piece buf st c buf' st' -> q_error p = 0 -> take (List.length buf) data = buf ->
  (List.length buf <= buff)%nat -> List.length data = S buff -> Z.of_nat (S buff) < 2 ^ 30 ->
  (List.length c + 3 <= fuel)%nat -> Z.of_nat (List.length c) < 2 ^ 30 ->
  Z.of_nat (List.length body) < 2 ^ 60 ->
  exists data1 p1 len1 st1 data2,
    chunk_head sclose fuel true (List.length buf) data p st = Ok (Some (len1, data1, p1), st1)
    /\ chunk_body sclose fuel (cp_content_len (q_parser p1)) len1 data1 body st1
       = Ok (Some (List.length buf', data2, (body ++ c)%list), st')
    /\ q_data p1 = q_data p /\ q_error p1 = 0
    /\ cp_chunks_done (q_parser p1) = (Z.of_nat (List.length c) <=? 0)
    /\ List.length data2 = S buff /\ take (List.length buf') data2 = buf' /\ (List.length buf' <= buff)%nat.
Proof.
  intros Hp He Ht Hbl Hd Hb Hf Hc Hbd.
  destruct fuel as [|fuel]; [lia|]. cbn [chunk_head].
  destruct (decide (buf = [])) as [->|Hne].
  - apply piece_nil in Hp as (b & st1 & Hrd & Hbn & Hp1).
    cbn [List.length negb orb Nat.eqb]. unfold buff_size. rewrite Hd.
    replace (S buff - 1 - 0)%nat with buff by lia. rewrite Hrd.
    pose proof (sread_bound buff st) as Hsb. rewrite Hrd in Hsb. destruct Hsb as (Hsb & _ & _).
    assert (0 < List.length b)%nat by (destruct b; [done|simpl; lia]).
    rewrite (proj2 (Z.leb_gt _ _)) by lia. rewrite Nat.add_0_l.
    destruct (chunk_line (S fuel) b c buf' st1 st' (splice 0 b data) body p)
      as (d1 & p1 & l1 & d2 & -> & Hfin & Hrest);
      [done|done|done|apply (slice_splice_eq 0); lia|lia|rewrite length_splice; lia|lia..|].
    cbn [mbind outcome_bind]. rewrite Hfin. by eexists d1, p1, l1, st1, d2.
  - assert (0 < List.length buf)%nat by (destruct buf; [done|simpl; lia]).
    cbn [negb orb]. rewrite (proj2 (Nat.eqb_neq _ _)) by lia. cbn [Z.leb Z.compare].
    rewrite splice_nil, Nat.add_0_r.
    destruct (chunk_line (S fuel) buf c buf' st st' data body p)
      as (d1 & p1 & l1 & d2 & -> & Hfin & Hrest); try done.
    cbn [mbind outcome_bind]. rewrite Hfin. by eexists d1, p1, l1, st, d2.
Qed.

Lemma chunk_loop_arrives buf st cs st' fuel data body p :
  arrives buf st cs st' -> q_error p = 0 -> take (List.length buf) data = buf ->
  (List.length buf <= buff)%nat -> List.length data = S buff -> Z.of_nat (S buff) < 2 ^ 30 ->
  (List.length cs + List.length (List.concat cs) + 3 <= fuel)%nat ->
  Z.of_nat (List.length body + List.length (List.concat cs)) < 2 ^ 30 ->
  exists p', chunk_loop sclose fuel (List.length buf) data body p st =
      Ok (Some ((body ++ List.concat cs)%list, p'), st') /\ q_data p' = q_data p.
Proof.
  intros Ha. revert fuel data body p.
  induction Ha as [buf st buf' st' Hp|buf st c buf1 st1 cs st' Hp Hne _ IH];
    intros fuel data body p He Ht Hbl Hd Hb Hf Hbd; (destruct fuel as [|fuel]; [lia|]); cbn [chunk_loop].
  - destruct (chunk_round (S fuel) buf [] buf' st st' data body p Hp He Ht Hbl Hd Hb)
      as (d1 & p1 & l1 & s1 & d2 & -> & E2 & Q1 & Q2 & Q3 & _); [simpl in *; lia..|].
    cbn [mbind outcome_bind]. rewrite E2. cbn [mbind outcome_bind]. rewrite Q3. cbn. by exists p1.
  - cbn [List.concat List.length] in *. rewrite length_app in *.
    destruct (chunk_round (S fuel) buf c buf1 st st1 data body p Hp He Ht Hbl Hd Hb)
      as (d1 & p1 & l1 & s1 & d2 & -> & E2 & Q1 & Q2 & Q3 & L2 & T2 & B2); [lia..|].
    cbn [mbind outcome_bind]. rewrite E2. cbn [mbind outcome_bind]. rewrite Q3.
    assert (0 < List.length c)%nat by (destruct c; [done|simpl; lia]).
    rewrite (proj2 (Z.leb_gt _ _)) by lia.
    destruct (IH fuel d2 (body ++ c)%list p1 Q2 T2 B2 L2 Hb) as (p' & -> & Hq);
      [lia|rewrite length_app; lia|].
    exists p'. rewrite <- List.app_assoc. split; [done|congruence].
Qed.
End chunks.

(** The loop for the head, when it comes whole with the first read. *)
Lemma rsp_loop_head {St} `{!Stream St} (sclose : St -> St) fuel raw buffer d rest (st st1 : St) :
  rhead_ok d = true -> in_s 32 (digits_value (rh_status d)) ->
  Z.of_nat (List.length buffer) < 2 ^ 30 ->
  (List.length (rhead_bytes d ++ rest)%list < List.length buffer)%nat ->
  sread (buff_size buffer) st =
    (Z.of_nat (List.length (rhead_bytes d ++ rest)%list), (rhead_bytes d ++ rest)%list, st1) ->
  exists data p, rsp_loop sclose (S fuel) buffer 0 (newHttpResponseParser raw) st =
      Ok (Some (List.length rest, data, p), st1)
    /\ List.length data = List.length buffer /\ take (List.length rest) data = rest
    /\ q_data p = heard_rhead d (newHttpResponse 17 true) /\ q_error p = 0
    /\ cp_chunked (q_parser p) = existsb line_chunked (rh_lines d).
Proof.
  intros Hok Hst Hb Hl Hrd. set (t := (rhead_bytes d ++ rest)%list) in *.
  assert (0 < List.length t)%nat
    by (unfold t, rhead_bytes; rewrite !length_app; simpl; lia).
  assert (List.length (splice 0 t buffer) = List.length buffer) as Hs by (apply length_splice; lia).
  destruct (rsp_parse_head (splice 0 t buffer) (List.length t) d rest raw Hok Hst)
    as (data & p & Hp & L & T & Q1 & Q2 & Q3 & Q4); [apply (slice_splice_eq 0); fold t; lia|lia|lia|].
  cbn [rsp_loop]. rewrite Nat.sub_0_r, Hrd, (proj2 (Z.leb_gt _ _)) by lia.
  rewrite Nat2Z.id, Nat.add_0_r, Hp. cbn [mbind outcome_bind]. rewrite Q3.
  exists data, p. split_and!; try done. lia.
Qed.

(** ** Dumped responses *)









(** ** Properties *)




(** C16: A chunked response is put together: when its whole head, within the
    grammar, with a status that is an [int] and with a [transfer-encoding] that
    is chunked in any case, comes with the first read, the size lines are
    hexadecimal numbers alone and none is cut by a read, buffer and body stay
    below 2^30 bytes and the fuel covers the chunks and their bytes,
    [recvResponse] returns the response of that head whose body is the chunks in
    order up to the empty one, however large they are and however the chunks
    themselves are cut. *)
Theorem chunked_response_decoded {St} `{!Stream St} `{!StreamLaws St} {MM : Memory} sclose lexical_cast fuel raw buffer
    d buf chunks (st st1 st2 : St) :
  rhead_ok d = true -> in_s 32 (digits_value (rh_status d)) -> existsb line_chunked (rh_lines d) = true ->
  Z.of_nat (List.length buffer) < 2 ^ 30 ->
  (List.length (rhead_bytes d ++ buf)%list < List.length buffer)%nat ->
  sread (buff_size buffer) st =
    (Z.of_nat (List.length (rhead_bytes d ++ buf)%list), (rhead_bytes d ++ buf)%list, st1) ->
  arrives (buff_size buffer) buf st1 chunks st2 ->
  (List.length chunks + List.length (List.concat chunks) + 3 <= fuel)%nat ->
  Z.of_nat (List.length (List.concat chunks)) < 2 ^ 30 ->
  recvResponse sclose lexical_cast fuel raw buffer st =
    Ok (Some (rsp_setBody (string_of (List.concat chunks)) (heard_rhead d (newHttpResponse 17 true))), st2).
Proof.
  intros Hok Hst Hck Hb Hl Hrd Ha Hf Hc. unfold recvResponse. destruct fuel as [|fuel]; [lia|].
  destruct (rsp_loop_head sclose fuel raw buffer d buf st st1 Hok Hst Hb Hl Hrd)
    as (data & p & -> & L & T & Q1 & Q2 & Q3). cbn [mbind outcome_bind]. rewrite Q3, Hck.
  rewrite length_app in Hl. unfold buff_size in *.
  destruct (chunk_loop_arrives sclose (List.length buffer - 1) buf st1 chunks st2 (S fuel) data [] p Ha Q2 T)
    as (p' & -> & Hq); [cbn [List.length]; lia..|]. cbn [mbind outcome_bind]. by rewrite Hq, Q1.
Qed.

Definition chunked_head : rhead :=
  RHead 49 (bytes_of "200") (bytes_of "OK") [line_of true ("Transfer-Encoding", "Chunked")].

Lemma chunked_response_decoded_witness :
  exists r', recvResponse (MM := plenty) (fun t : tape => t) read_cast 40 raw0 (replicate 64 7)
      ((rhead_bytes chunked_head ++ bytes_of ("5" ++ CRLF ++ "hello" ++ CRLF ++ "00A" ++ CRLF ++ "0123456789" ++ CRLF
         ++ "0" ++ CRLF ++ CRLF))%list, [52%nat; 5%nat; 100%nat; 100%nat; 100%nat]) = Ok (Some r', ([], [100%nat; 100%nat]))
    /\ r_body r' = "hello0123456789".
Proof.
  eexists. split.
  - apply (chunked_response_decoded (fun t : tape => t) read_cast 40 raw0 (replicate 64 7) chunked_head
      (bytes_of ("5" ++ CRLF ++ "he")) [bytes_of "hello"; bytes_of "0123456789"]
      _ (bytes_of ("llo" ++ CRLF ++ "00A" ++ CRLF ++ "0123456789" ++ CRLF
         ++ "0" ++ CRLF ++ CRLF), [5%nat; 100%nat; 100%nat; 100%nat])).
    1-6: try done; try (apply Nat.leb_le); vm_compute; reflexivity.
    + eapply (arrives_chunk _ _ _ (bytes_of "hello")); [|done|].
      { apply (piece_more _ (bytes_of "5") _ (bytes_of "he") (bytes_of ("llo" ++ CRLF)));
          [done|done|done|done|]. eapply (reads_cons _ (bytes_of ("llo" ++ CRLF)) []); [vm_compute; reflexivity|done|constructor]. }
      eapply (arrives_chunk _ _ _ (bytes_of "0123456789")); [|done|].
      { apply (piece_read _ (bytes_of ("00A" ++ CRLF ++ "0123456789" ++ CRLF ++ "0" ++ CRLF ++ CRLF)) _
          ([], [100%nat; 100%nat])); [vm_compute; reflexivity|done|].
        apply (piece_here _ (bytes_of "00A") (bytes_of "0123456789") (bytes_of ("0" ++ CRLF ++ CRLF))); done. }
      eapply arrives_last. apply (piece_here _ (bytes_of "0") [] []); done.
    + apply Nat.leb_le. vm_compute. reflexivity.
    + done.
  - vm_compute. reflexivity.
Defined.

(** ** What can go wrong

    A size line that is cut loses the digits before the cut, since the machine
    starts again: here a chunk of sixteen bytes, whose size "10" arrives as "1"
    and "0", ends the body before it began, and the result is a success. *)
Lemma cut_size_line_truncates :
  match fetch 256 [48%nat; 200%nat; 200%nat] ("HTTP/1.1 200 OK" ++ CRLF ++ "Transfer-Encoding: chunked" ++ CRLF ++ CRLF
      ++ "10" ++ CRLF ++ "0123456789abcdef" ++ CRLF ++ "0" ++ CRLF ++ CRLF) with
  | Ok (Some r, _) => r_status r = 200 /\ r_body r = ""
  | _ => False
  end.
Proof. vm_compute. auto. Qed.

(** An empty [content-length] followed by a line of digits makes a header of
    what lies behind it in the buffer, uninitialised memory included (the
    sevens here), and reads beyond the buffer when it is nearly full. *)
Lemma empty_length_overreads :
  let text := "HTTP/1.1 200 OK" ++ CRLF ++ "Content-Length:" ++ CRLF ++ "5" ++ CRLF ++ CRLF ++ "hello" in
  match fetch 256 [200%nat] text with
  | Ok (Some r, _) => option_map (fun e => bytes_of e.1) (List.hd_error (r_headers r))
      = Some (bytes_of ("5" ++ CRLF ++ CRLF ++ "hello") ++ [0; 7; 7; 7])%list
  | _ => False
  end
  /\ fetch 41 [200%nat] text = Err (UB index_oob).
Proof. vm_compute. auto. Qed.

(** A head that ends with an empty [content-length] ends in another final
    state than the one [is_finished] tests; the next byte then fails an
    assertion. *)
Lemma empty_length_aborts :
  fetch 256 [36%nat; 1%nat] ("HTTP/1.1 200 OK" ++ CRLF ++ "Content-Length:" ++ CRLF ++ CRLF ++ " ") = Err AssertFails.
Proof. vm_compute. reflexivity. Qed.
