(* ===== verification/UriCode.v ===== *)
(** * The code of the URI machine: [sylar/uri.rl.cc]

    The labels of the machine in [Uri::Create] in the order of the source, in
    pieces named after the line they start at, and the actions at the end of
    the text. *)

From stdpp Require Import base list.
From Stdlib Require Import ZArith.
From S2P Require Import Prelude Ragel.

Local Open Scope Z_scope.

(** The actions of the grammar; [u_mark] is both [marku] and [markh]. *)
Inductive uri_action :=
  | u_mark | u_save_scheme | u_save_port | u_save_userinfo | u_save_host
  | u_save_path | u_save_query | u_save_fragment.

#[export] Instance uri_action_eq_dec : EqDecision uri_action.
Proof. solve_decision. Defined.

Definition uri_parser_40 : list (block uri_action) := [
  Case 451 (fun r c => switch c [(34, st 0); (35, st 453); (37, st 3); (47, st 458); (58, st 0); (60, st 0);
        (62, st 0); (63, st 456); (96, st 0); (127, st 0)]
      (if c <? 91 then (if 32 <? c then (if within 65 90 c then tr 461 else st 452) else (if 0 <=? c then
        st 0 else st 452)) else (if 94 <? c then (if 122 <? c then (if within 123 125 c then st 0 else
        st 452) else (if 97 <=? c then tr 461 else st 452)) else st 0)));
  Case 452 (fun r c => switch c [(34, st 0); (35, st 453); (37, st 3); (47, st 455); (58, st 0); (60, st 0);
        (62, st 0); (63, st 456); (96, st 0); (127, st 0)]
      (if c <? 91 then (if within 0 32 c then st 0 else st 452) else (if 94 <? c then (if within 123 125 c
        then st 0 else st 452) else st 0)));
  Tr 467 [u_mark; u_save_query] 453;
  Tr 469 [u_save_query] 453;
  Tr 474 [u_mark; u_save_host] 453;
  Tr 485 [u_save_host] 453;
  Tr 489 [u_mark; u_save_port] 453;
  Tr 493 [u_save_port] 453;
  Tr 548 [u_mark; u_save_host; u_save_path] 453
].

Definition uri_parser_171 : list (block uri_action) := [
  Tr 559 [u_save_host; u_mark; u_save_path] 453;
  Tr 563 [u_save_path] 453;
  Tr 566 [u_mark; u_save_port; u_save_path] 453;
  Tr 570 [u_save_port; u_mark; u_save_path] 453;
  Case 453 (fun r c => switch c [(37, tr 463); (60, st 0); (62, st 0); (96, st 0); (127, st 0)]
      (if c <? 34 then (if within 0 32 c then st 0 else tr 462) else (if 35 <? c then (if 94 <? c then (if
        within 123 125 c then st 0 else tr 462) else (if 91 <=? c then st 0 else tr 462)) else st 0)));
  Tr 462 [u_mark] 454;
  Case 454 (fun r c => switch c [(37, st 1); (60, st 0); (62, st 0); (96, st 0); (127, st 0)]
      (if c <? 34 then (if within 0 32 c then st 0 else st 454) else (if 35 <? c then (if 94 <? c then (if
        within 123 125 c then st 0 else st 454) else (if 91 <=? c then st 0 else st 454)) else st 0)));
  Tr 463 [u_mark] 1;
  Case 1 (fun r c => if c <? 65 then (if within 48 57 c then st 2 else st 0) else (if 70 <? c then (if within
        97 102 c then st 2 else st 0) else st 2))
].

Definition uri_parser_300 : list (block uri_action) := [
  Case 2 (fun r c => if c <? 65 then (if within 48 57 c then st 454 else st 0) else (if 70 <? c then (if
        within 97 102 c then st 454 else st 0) else st 454));
  Case 3 (fun r c => if c <? 65 then (if within 48 57 c then st 4 else st 0) else (if 70 <? c then (if within
        97 102 c then st 4 else st 0) else st 4));
  Case 4 (fun r c => if c <? 65 then (if within 48 57 c then st 452 else st 0) else (if 70 <? c then (if
        within 97 102 c then st 452 else st 0) else st 452));
  Tr 476 [u_mark; u_save_host] 455;
  Tr 486 [u_save_host] 455;
  Tr 490 [u_mark; u_save_port] 455;
  Tr 494 [u_save_port] 455;
  Case 455 (fun r c => switch c [(34, st 0); (35, st 453); (37, st 5); (60, st 0); (62, st 0); (63, st 456);
        (96, st 0); (127, st 0)]
      (if c <? 91 then (if within 0 32 c then st 0 else st 455) else (if 94 <? c then (if within 123 125 c
        then st 0 else st 455) else st 0)));
  Case 5 (fun r c => if c <? 65 then (if within 48 57 c then st 6 else st 0) else (if 70 <? c then (if within
        97 102 c then st 6 else st 0) else st 6));
  Case 6 (fun r c => if c <? 65 then (if within 48 57 c then st 455 else st 0) else (if 70 <? c then (if
        within 97 102 c then st 455 else st 0) else st 455));
  Tr 482 [u_mark; u_save_host] 456
].

Definition uri_parser_440 : list (block uri_action) := [
  Tr 488 [u_save_host] 456;
  Tr 492 [u_mark; u_save_port] 456;
  Tr 496 [u_save_port] 456;
  Tr 556 [u_mark; u_save_host; u_save_path] 456;
  Tr 562 [u_save_host; u_mark; u_save_path] 456;
  Tr 565 [u_save_path] 456;
  Tr 569 [u_mark; u_save_port; u_save_path] 456;
  Tr 573 [u_save_port; u_mark; u_save_path] 456;
  Case 456 (fun r c => switch c [(34, st 0); (35, tr 467); (37, tr 468); (60, st 0); (62, st 0); (96, st 0);
        (127, st 0)]
      (if c <? 91 then (if within 0 32 c then st 0 else tr 466) else (if 94 <? c then (if within 123 125 c
        then st 0 else tr 466) else st 0)));
  Tr 466 [u_mark] 457
].

Definition uri_parser_572 : list (block uri_action) := [
  Case 457 (fun r c => switch c [(34, st 0); (35, tr 469); (37, st 7); (60, st 0); (62, st 0); (96, st 0);
        (127, st 0)]
      (if c <? 91 then (if within 0 32 c then st 0 else st 457) else (if 94 <? c then (if within 123 125 c
        then st 0 else st 457) else st 0)));
  Tr 468 [u_mark] 7;
  Case 7 (fun r c => if c <? 65 then (if within 48 57 c then st 8 else st 0) else (if 70 <? c then (if within
        97 102 c then st 8 else st 0) else st 8));
  Case 8 (fun r c => if c <? 65 then (if within 48 57 c then st 457 else st 0) else (if 70 <? c then (if
        within 97 102 c then st 457 else st 0) else st 457));
  Case 458 (fun r c => switch c [(34, st 0); (35, st 453); (37, st 5); (47, st 459); (60, st 0); (62, st 0);
        (63, st 456); (96, st 0); (127, st 0)]
      (if c <? 91 then (if within 0 32 c then st 0 else st 455) else (if 94 <? c then (if within 123 125 c
        then st 0 else st 455) else st 0)));
  Case 459 (fun r c => switch c [(2, tr 472); (33, tr 473); (35, tr 474); (37, tr 475); (47, tr 476); (48,
        tr 477); (49, tr 478); (50, tr 479); (58, tr 481); (59, tr 473); (61, tr 473); (63, tr 482); (64,
        tr 483); (91, tr 484); (95, tr 473); (126, tr 473)]
      (if c <? 51 then (if within 36 46 c then tr 473 else st 0) else (if 57 <? c then (if 90 <? c then (if
        within 97 122 c then tr 473 else st 0) else (if 65 <=? c then tr 473 else st 0)) else tr 480)));
  Tr 472 [u_mark] 9;
  Case 9 (fun r c => if within 48 52 c then st 10 else st 0);
  Case 10 (fun r c => if within 48 57 c then st 11 else st 0);
  Case 11 (fun r c => if c =? 46 then st 12 else st 0)
].

Definition uri_parser_710 : list (block uri_action) := [
  Case 12 (fun r c => switch c [(2, st 13); (48, st 15); (49, st 27); (50, st 29)]
      (if within 51 57 c then st 28 else st 0));
  Case 13 (fun r c => if within 48 52 c then st 14 else st 0);
  Case 14 (fun r c => if within 48 57 c then st 15 else st 0);
  Case 15 (fun r c => if c =? 46 then st 16 else st 0);
  Case 16 (fun r c => switch c [(2, st 17); (48, st 19); (49, st 23); (50, st 25)]
      (if within 51 57 c then st 24 else st 0));
  Case 17 (fun r c => if within 48 52 c then st 18 else st 0);
  Case 18 (fun r c => if within 48 57 c then st 19 else st 0);
  Case 19 (fun r c => if c =? 46 then st 20 else st 0);
  Case 20 (fun r c => switch c [(2, st 21); (48, st 460); (49, st 463); (50, st 465)]
      (if within 51 57 c then st 464 else st 0));
  Case 21 (fun r c => if within 48 52 c then st 22 else st 0);
  Case 22 (fun r c => if within 48 57 c then st 460 else st 0);
  Case 460 (fun r c => switch c [(35, tr 485); (47, tr 486); (58, tr 487); (63, tr 488)]
      (st 0));
  Tr 507 [u_mark; u_save_host] 461;
  Tr 487 [u_save_host] 461;
  Case 461 (fun r c => switch c [(35, tr 489); (47, tr 490); (63, tr 492)]
      (if within 48 57 c then tr 491 else st 0))
].

Definition uri_parser_849 : list (block uri_action) := [
  Tr 491 [u_mark] 462;
  Case 462 (fun r c => switch c [(35, tr 493); (47, tr 494); (63, tr 496)]
      (if within 48 57 c then st 462 else st 0));
  Case 463 (fun r c => switch c [(35, tr 485); (47, tr 486); (58, tr 487); (63, tr 488)]
      (if within 48 57 c then st 464 else st 0));
  Case 464 (fun r c => switch c [(35, tr 485); (47, tr 486); (58, tr 487); (63, tr 488)]
      (if within 48 57 c then st 460 else st 0));
  Case 465 (fun r c => switch c [(35, tr 485); (47, tr 486); (53, st 466); (58, tr 487); (63, tr 488)]
      (if within 48 57 c then st 460 else st 0));
  Case 466 (fun r c => switch c [(35, tr 485); (47, tr 486); (58, tr 487); (63, tr 488)]
      (if within 48 53 c then st 460 else st 0));
  Case 23 (fun r c => if c =? 46 then st 20 else (if within 48 57 c then st 24 else st 0));
  Case 24 (fun r c => if c =? 46 then st 20 else (if within 48 57 c then st 19 else st 0));
  Case 25 (fun r c => switch c [(46, st 20); (53, st 26)]
      (if within 48 57 c then st 19 else st 0));
  Case 26 (fun r c => if c =? 46 then st 20 else (if within 48 53 c then st 19 else st 0));
  Case 27 (fun r c => if c =? 46 then st 16 else (if within 48 57 c then st 28 else st 0));
  Case 28 (fun r c => if c =? 46 then st 16 else (if within 48 57 c then st 15 else st 0));
  Case 29 (fun r c => switch c [(46, st 16); (53, st 30)]
      (if within 48 57 c then st 15 else st 0))
].

Definition uri_parser_986 : list (block uri_action) := [
  Case 30 (fun r c => if c =? 46 then st 16 else (if within 48 53 c then st 15 else st 0));
  Tr 473 [u_mark] 467;
  Case 467 (fun r c => switch c [(33, st 467); (35, tr 485); (37, st 31); (47, tr 486); (58, tr 499); (61,
        st 467); (63, tr 488); (64, tr 38); (95, st 467); (126, st 467)]
      (if c <? 65 then (if within 36 59 c then st 467 else st 0) else (if 90 <? c then (if within 97 122 c
        then st 467 else st 0) else st 467)));
  Tr 475 [u_mark] 31;
  Case 31 (fun r c => if c <? 65 then (if within 48 57 c then st 32 else st 0) else (if 70 <? c then (if
        within 97 102 c then st 32 else st 0) else st 32));
  Case 32 (fun r c => if c <? 65 then (if within 48 57 c then st 467 else st 0) else (if 70 <? c then (if
        within 97 102 c then st 467 else st 0) else st 467));
  Tr 481 [u_mark; u_save_host] 468;
  Tr 499 [u_save_host] 468;
  Case 468 (fun r c => switch c [(33, st 33); (35, tr 489); (37, st 34); (47, tr 490); (61, st 33); (63,
        tr 492); (64, tr 38); (95, st 33); (126, st 33)]
      (if c <? 58 then (if 46 <? c then (if within 48 57 c then tr 500 else st 0) else (if 36 <=? c then
        st 33 else st 0)) else (if 59 <? c then (if 90 <? c then (if within 97 122 c then st 33 else st 0)
        else (if 65 <=? c then st 33 else st 0)) else st 33)))
].

Definition uri_parser_1107 : list (block uri_action) := [
  Case 33 (fun r c => switch c [(33, st 33); (37, st 34); (61, st 33); (64, tr 38); (95, st 33); (126, st 33)]
      (if c <? 48 then (if within 36 46 c then st 33 else st 0) else (if 59 <? c then (if 90 <? c then (if
        within 97 122 c then st 33 else st 0) else (if 65 <=? c then st 33 else st 0)) else st 33)));
  Case 34 (fun r c => if c <? 65 then (if within 48 57 c then st 35 else st 0) else (if 70 <? c then (if
        within 97 102 c then st 35 else st 0) else st 35));
  Case 35 (fun r c => if c <? 65 then (if within 48 57 c then st 33 else st 0) else (if 70 <? c then (if
        within 97 102 c then st 33 else st 0) else st 33));
  Tr 38 [u_save_userinfo] 469;
  Tr 483 [u_mark; u_save_userinfo] 469;
  Case 469 (fun r c => switch c [(2, tr 472); (33, tr 501); (35, tr 474); (37, tr 502); (47, tr 476); (48,
        tr 503); (49, tr 504); (50, tr 505); (58, tr 507); (59, tr 501); (61, tr 501); (63, tr 482); (91,
        tr 484); (95, tr 501); (126, tr 501)]
      (if c <? 51 then (if within 36 46 c then tr 501 else st 0) else (if 57 <? c then (if 90 <? c then (if
        within 97 122 c then tr 501 else st 0) else (if 65 <=? c then tr 501 else st 0)) else tr 506)));
  Tr 501 [u_mark] 470;
  Case 470 (fun r c => switch c [(33, st 470); (35, tr 485); (37, st 36); (47, tr 486); (58, tr 487); (61,
        st 470); (63, tr 488); (95, st 470); (126, st 470)]
      (if c <? 65 then (if within 36 59 c then st 470 else st 0) else (if 90 <? c then (if within 97 122 c
        then st 470 else st 0) else st 470)));
  Tr 502 [u_mark] 36
].

Definition uri_parser_1246 : list (block uri_action) := [
  Case 36 (fun r c => if c <? 65 then (if within 48 57 c then st 37 else st 0) else (if 70 <? c then (if
        within 97 102 c then st 37 else st 0) else st 37));
  Case 37 (fun r c => if c <? 65 then (if within 48 57 c then st 470 else st 0) else (if 70 <? c then (if
        within 97 102 c then st 470 else st 0) else st 470));
  Tr 503 [u_mark] 471;
  Case 471 (fun r c => switch c [(33, st 470); (35, tr 485); (37, st 36); (46, st 472); (47, tr 486); (58,
        tr 487); (61, st 470); (63, tr 488); (95, st 470); (126, st 470)]
      (if c <? 65 then (if within 36 59 c then st 470 else st 0) else (if 90 <? c then (if within 97 122 c
        then st 470 else st 0) else st 470)));
  Case 472 (fun r c => switch c [(2, st 13); (33, st 470); (35, tr 485); (37, st 36); (47, tr 486); (48,
        st 473); (49, st 481); (50, st 483); (58, tr 487); (59, st 470); (61, st 470); (63, tr 488); (95,
        st 470); (126, st 470)]
      (if c <? 51 then (if within 36 46 c then st 470 else st 0) else (if 57 <? c then (if 90 <? c then (if
        within 97 122 c then st 470 else st 0) else (if 65 <=? c then st 470 else st 0)) else st 482)));
  Case 473 (fun r c => switch c [(33, st 470); (35, tr 485); (37, st 36); (46, st 474); (47, tr 486); (58,
        tr 487); (61, st 470); (63, tr 488); (95, st 470); (126, st 470)]
      (if c <? 65 then (if within 36 59 c then st 470 else st 0) else (if 90 <? c then (if within 97 122 c
        then st 470 else st 0) else st 470)))
].

Definition uri_parser_1360 : list (block uri_action) := [
  Case 474 (fun r c => switch c [(2, st 17); (33, st 470); (35, tr 485); (37, st 36); (47, tr 486); (48,
        st 475); (49, st 477); (50, st 479); (58, tr 487); (59, st 470); (61, st 470); (63, tr 488); (95,
        st 470); (126, st 470)]
      (if c <? 51 then (if within 36 46 c then st 470 else st 0) else (if 57 <? c then (if 90 <? c then (if
        within 97 122 c then st 470 else st 0) else (if 65 <=? c then st 470 else st 0)) else st 478)));
  Case 475 (fun r c => switch c [(33, st 470); (35, tr 485); (37, st 36); (46, st 476); (47, tr 486); (58,
        tr 487); (61, st 470); (63, tr 488); (95, st 470); (126, st 470)]
      (if c <? 65 then (if within 36 59 c then st 470 else st 0) else (if 90 <? c then (if within 97 122 c
        then st 470 else st 0) else st 470)));
  Case 476 (fun r c => switch c [(2, st 21); (33, st 470); (35, tr 485); (37, st 36); (47, tr 486); (58,
        tr 487); (61, st 470); (63, tr 488); (95, st 470); (126, st 470)]
      (if c <? 65 then (if within 36 59 c then st 470 else st 0) else (if 90 <? c then (if within 97 122 c
        then st 470 else st 0) else st 470)));
  Case 477 (fun r c => switch c [(33, st 470); (35, tr 485); (37, st 36); (46, st 476); (47, tr 486); (58,
        tr 487); (59, st 470); (61, st 470); (63, tr 488); (95, st 470); (126, st 470)]
      (if c <? 48 then (if within 36 45 c then st 470 else st 0) else (if 57 <? c then (if 90 <? c then (if
        within 97 122 c then st 470 else st 0) else (if 65 <=? c then st 470 else st 0)) else st 478)));
  Case 478 (fun r c => switch c [(33, st 470); (35, tr 485); (37, st 36); (46, st 476); (47, tr 486); (58,
        tr 487); (59, st 470); (61, st 470); (63, tr 488); (95, st 470); (126, st 470)]
      (if c <? 48 then (if within 36 45 c then st 470 else st 0) else (if 57 <? c then (if 90 <? c then (if
        within 97 122 c then st 470 else st 0) else (if 65 <=? c then st 470 else st 0)) else st 475)))
].

Definition uri_parser_1500 : list (block uri_action) := [
  Case 479 (fun r c => switch c [(33, st 470); (35, tr 485); (37, st 36); (46, st 476); (47, tr 486); (53,
        st 480); (58, tr 487); (59, st 470); (61, st 470); (63, tr 488); (95, st 470); (126, st 470)]
      (if c <? 48 then (if within 36 45 c then st 470 else st 0) else (if 57 <? c then (if 90 <? c then (if
        within 97 122 c then st 470 else st 0) else (if 65 <=? c then st 470 else st 0)) else st 475)));
  Case 480 (fun r c => switch c [(33, st 470); (35, tr 485); (37, st 36); (46, st 476); (47, tr 486); (58,
        tr 487); (61, st 470); (63, tr 488); (95, st 470); (126, st 470)]
      (if c <? 54 then (if 45 <? c then (if within 48 53 c then st 475 else st 0) else (if 36 <=? c then
        st 470 else st 0)) else (if 59 <? c then (if 90 <? c then (if within 97 122 c then st 470 else st 0)
        else (if 65 <=? c then st 470 else st 0)) else st 470)));
  Case 481 (fun r c => switch c [(33, st 470); (35, tr 485); (37, st 36); (46, st 474); (47, tr 486); (58,
        tr 487); (59, st 470); (61, st 470); (63, tr 488); (95, st 470); (126, st 470)]
      (if c <? 48 then (if within 36 45 c then st 470 else st 0) else (if 57 <? c then (if 90 <? c then (if
        within 97 122 c then st 470 else st 0) else (if 65 <=? c then st 470 else st 0)) else st 482)));
  Case 482 (fun r c => switch c [(33, st 470); (35, tr 485); (37, st 36); (46, st 474); (47, tr 486); (58,
        tr 487); (59, st 470); (61, st 470); (63, tr 488); (95, st 470); (126, st 470)]
      (if c <? 48 then (if within 36 45 c then st 470 else st 0) else (if 57 <? c then (if 90 <? c then (if
        within 97 122 c then st 470 else st 0) else (if 65 <=? c then st 470 else st 0)) else st 473)))
].

Definition uri_parser_1619 : list (block uri_action) := [
  Case 483 (fun r c => switch c [(33, st 470); (35, tr 485); (37, st 36); (46, st 474); (47, tr 486); (53,
        st 484); (58, tr 487); (59, st 470); (61, st 470); (63, tr 488); (95, st 470); (126, st 470)]
      (if c <? 48 then (if within 36 45 c then st 470 else st 0) else (if 57 <? c then (if 90 <? c then (if
        within 97 122 c then st 470 else st 0) else (if 65 <=? c then st 470 else st 0)) else st 473)));
  Case 484 (fun r c => switch c [(33, st 470); (35, tr 485); (37, st 36); (46, st 474); (47, tr 486); (58,
        tr 487); (61, st 470); (63, tr 488); (95, st 470); (126, st 470)]
      (if c <? 54 then (if 45 <? c then (if within 48 53 c then st 473 else st 0) else (if 36 <=? c then
        st 470 else st 0)) else (if 59 <? c then (if 90 <? c then (if within 97 122 c then st 470 else st 0)
        else (if 65 <=? c then st 470 else st 0)) else st 470)));
  Tr 504 [u_mark] 485;
  Case 485 (fun r c => switch c [(33, st 470); (35, tr 485); (37, st 36); (46, st 472); (47, tr 486); (58,
        tr 487); (59, st 470); (61, st 470); (63, tr 488); (95, st 470); (126, st 470)]
      (if c <? 48 then (if within 36 45 c then st 470 else st 0) else (if 57 <? c then (if 90 <? c then (if
        within 97 122 c then st 470 else st 0) else (if 65 <=? c then st 470 else st 0)) else st 486)));
  Tr 506 [u_mark] 486;
  Case 486 (fun r c => switch c [(33, st 470); (35, tr 485); (37, st 36); (46, st 472); (47, tr 486); (58,
        tr 487); (59, st 470); (61, st 470); (63, tr 488); (95, st 470); (126, st 470)]
      (if c <? 48 then (if within 36 45 c then st 470 else st 0) else (if 57 <? c then (if 90 <? c then (if
        within 97 122 c then st 470 else st 0) else (if 65 <=? c then st 470 else st 0)) else st 471)));
  Tr 505 [u_mark] 487
].

Definition uri_parser_1752 : list (block uri_action) := [
  Case 487 (fun r c => switch c [(33, st 470); (35, tr 485); (37, st 36); (46, st 472); (47, tr 486); (53,
        st 488); (58, tr 487); (59, st 470); (61, st 470); (63, tr 488); (95, st 470); (126, st 470)]
      (if c <? 48 then (if within 36 45 c then st 470 else st 0) else (if 57 <? c then (if 90 <? c then (if
        within 97 122 c then st 470 else st 0) else (if 65 <=? c then st 470 else st 0)) else st 471)));
  Case 488 (fun r c => switch c [(33, st 470); (35, tr 485); (37, st 36); (46, st 472); (47, tr 486); (58,
        tr 487); (61, st 470); (63, tr 488); (95, st 470); (126, st 470)]
      (if c <? 54 then (if 45 <? c then (if within 48 53 c then st 471 else st 0) else (if 36 <=? c then
        st 470 else st 0)) else (if 59 <? c then (if 90 <? c then (if within 97 122 c then st 470 else st 0)
        else (if 65 <=? c then st 470 else st 0)) else st 470)));
  Tr 484 [u_mark] 38;
  Case 38 (fun r c => switch c [(58, st 146); (118, st 225)]
      (if c <? 65 then (if within 48 57 c then st 39 else st 0) else (if 70 <? c then (if within 97 102 c
        then st 39 else st 0) else st 39)));
  Case 39 (fun r c => if c =? 58 then st 43 else (if c <? 65 then (if within 48 57 c then st 40 else st 0)
        else (if 70 <? c then (if within 97 102 c then st 40 else st 0) else st 40)));
  Case 40 (fun r c => if c =? 58 then st 43 else (if c <? 65 then (if within 48 57 c then st 41 else st 0)
        else (if 70 <? c then (if within 97 102 c then st 41 else st 0) else st 41)));
  Case 41 (fun r c => if c =? 58 then st 43 else (if c <? 65 then (if within 48 57 c then st 42 else st 0)
        else (if 70 <? c then (if within 97 102 c then st 42 else st 0) else st 42)));
  Case 42 (fun r c => if c =? 58 then st 43 else st 0)
].

Definition uri_parser_1888 : list (block uri_action) := [
  Case 43 (fun r c => if c =? 58 then st 141 else (if c <? 65 then (if within 48 57 c then st 44 else st 0)
        else (if 70 <? c then (if within 97 102 c then st 44 else st 0) else st 44)));
  Case 44 (fun r c => if c =? 58 then st 48 else (if c <? 65 then (if within 48 57 c then st 45 else st 0)
        else (if 70 <? c then (if within 97 102 c then st 45 else st 0) else st 45)));
  Case 45 (fun r c => if c =? 58 then st 48 else (if c <? 65 then (if within 48 57 c then st 46 else st 0)
        else (if 70 <? c then (if within 97 102 c then st 46 else st 0) else st 46)));
  Case 46 (fun r c => if c =? 58 then st 48 else (if c <? 65 then (if within 48 57 c then st 47 else st 0)
        else (if 70 <? c then (if within 97 102 c then st 47 else st 0) else st 47)));
  Case 47 (fun r c => if c =? 58 then st 48 else st 0);
  Case 48 (fun r c => if c =? 58 then st 136 else (if c <? 65 then (if within 48 57 c then st 49 else st 0)
        else (if 70 <? c then (if within 97 102 c then st 49 else st 0) else st 49)));
  Case 49 (fun r c => if c =? 58 then st 53 else (if c <? 65 then (if within 48 57 c then st 50 else st 0)
        else (if 70 <? c then (if within 97 102 c then st 50 else st 0) else st 50)));
  Case 50 (fun r c => if c =? 58 then st 53 else (if c <? 65 then (if within 48 57 c then st 51 else st 0)
        else (if 70 <? c then (if within 97 102 c then st 51 else st 0) else st 51)));
  Case 51 (fun r c => if c =? 58 then st 53 else (if c <? 65 then (if within 48 57 c then st 52 else st 0)
        else (if 70 <? c then (if within 97 102 c then st 52 else st 0) else st 52)));
  Case 52 (fun r c => if c =? 58 then st 53 else st 0)
].

Definition uri_parser_2022 : list (block uri_action) := [
  Case 53 (fun r c => if c =? 58 then st 131 else (if c <? 65 then (if within 48 57 c then st 54 else st 0)
        else (if 70 <? c then (if within 97 102 c then st 54 else st 0) else st 54)));
  Case 54 (fun r c => if c =? 58 then st 58 else (if c <? 65 then (if within 48 57 c then st 55 else st 0)
        else (if 70 <? c then (if within 97 102 c then st 55 else st 0) else st 55)));
  Case 55 (fun r c => if c =? 58 then st 58 else (if c <? 65 then (if within 48 57 c then st 56 else st 0)
        else (if 70 <? c then (if within 97 102 c then st 56 else st 0) else st 56)));
  Case 56 (fun r c => if c =? 58 then st 58 else (if c <? 65 then (if within 48 57 c then st 57 else st 0)
        else (if 70 <? c then (if within 97 102 c then st 57 else st 0) else st 57)));
  Case 57 (fun r c => if c =? 58 then st 58 else st 0);
  Case 58 (fun r c => if c =? 58 then st 126 else (if c <? 65 then (if within 48 57 c then st 59 else st 0)
        else (if 70 <? c then (if within 97 102 c then st 59 else st 0) else st 59)));
  Case 59 (fun r c => if c =? 58 then st 63 else (if c <? 65 then (if within 48 57 c then st 60 else st 0)
        else (if 70 <? c then (if within 97 102 c then st 60 else st 0) else st 60)));
  Case 60 (fun r c => if c =? 58 then st 63 else (if c <? 65 then (if within 48 57 c then st 61 else st 0)
        else (if 70 <? c then (if within 97 102 c then st 61 else st 0) else st 61)));
  Case 61 (fun r c => if c =? 58 then st 63 else (if c <? 65 then (if within 48 57 c then st 62 else st 0)
        else (if 70 <? c then (if within 97 102 c then st 62 else st 0) else st 62)));
  Case 62 (fun r c => if c =? 58 then st 63 else st 0)
].

Definition uri_parser_2156 : list (block uri_action) := [
  Case 63 (fun r c => if c =? 58 then st 113 else (if c <? 65 then (if within 48 57 c then st 64 else st 0)
        else (if 70 <? c then (if within 97 102 c then st 64 else st 0) else st 64)));
  Case 64 (fun r c => if c =? 58 then st 68 else (if c <? 65 then (if within 48 57 c then st 65 else st 0)
        else (if 70 <? c then (if within 97 102 c then st 65 else st 0) else st 65)));
  Case 65 (fun r c => if c =? 58 then st 68 else (if c <? 65 then (if within 48 57 c then st 66 else st 0)
        else (if 70 <? c then (if within 97 102 c then st 66 else st 0) else st 66)));
  Case 66 (fun r c => if c =? 58 then st 68 else (if c <? 65 then (if within 48 57 c then st 67 else st 0)
        else (if 70 <? c then (if within 97 102 c then st 67 else st 0) else st 67)));
  Case 67 (fun r c => if c =? 58 then st 68 else st 0);
  Case 68 (fun r c => switch c [(2, st 69); (48, st 96); (49, st 104); (50, st 107); (58, st 111)]
      (if c <? 65 then (if within 51 57 c then st 110 else st 0) else (if 70 <? c then (if within 97 102 c
        then st 112 else st 0) else st 112)));
  Case 69 (fun r c => if within 48 52 c then st 70 else st 0);
  Case 70 (fun r c => if within 48 57 c then st 71 else st 0);
  Case 71 (fun r c => if c =? 46 then st 72 else st 0);
  Case 72 (fun r c => switch c [(2, st 73); (48, st 75); (49, st 92); (50, st 94)]
      (if within 51 57 c then st 93 else st 0));
  Case 73 (fun r c => if within 48 52 c then st 74 else st 0);
  Case 74 (fun r c => if within 48 57 c then st 75 else st 0)
].

Definition uri_parser_2291 : list (block uri_action) := [
  Case 75 (fun r c => if c =? 46 then st 76 else st 0);
  Case 76 (fun r c => switch c [(2, st 77); (48, st 79); (49, st 88); (50, st 90)]
      (if within 51 57 c then st 89 else st 0));
  Case 77 (fun r c => if within 48 52 c then st 78 else st 0);
  Case 78 (fun r c => if within 48 57 c then st 79 else st 0);
  Case 79 (fun r c => if c =? 46 then st 80 else st 0);
  Case 80 (fun r c => switch c [(2, st 81); (48, st 83); (49, st 84); (50, st 86)]
      (if within 51 57 c then st 85 else st 0));
  Case 81 (fun r c => if within 48 52 c then st 82 else st 0);
  Case 82 (fun r c => if within 48 57 c then st 83 else st 0);
  Case 83 (fun r c => if c =? 93 then st 460 else st 0);
  Case 84 (fun r c => if c =? 93 then st 460 else (if within 48 57 c then st 85 else st 0));
  Case 85 (fun r c => if c =? 93 then st 460 else (if within 48 57 c then st 83 else st 0));
  Case 86 (fun r c => switch c [(53, st 87); (93, st 460)]
      (if within 48 57 c then st 83 else st 0));
  Case 87 (fun r c => if c =? 93 then st 460 else (if within 48 53 c then st 83 else st 0));
  Case 88 (fun r c => if c =? 46 then st 80 else (if within 48 57 c then st 89 else st 0));
  Case 89 (fun r c => if c =? 46 then st 80 else (if within 48 57 c then st 79 else st 0))
].

Definition uri_parser_2422 : list (block uri_action) := [
  Case 90 (fun r c => switch c [(46, st 80); (53, st 91)]
      (if within 48 57 c then st 79 else st 0));
  Case 91 (fun r c => if c =? 46 then st 80 else (if within 48 53 c then st 79 else st 0));
  Case 92 (fun r c => if c =? 46 then st 76 else (if within 48 57 c then st 93 else st 0));
  Case 93 (fun r c => if c =? 46 then st 76 else (if within 48 57 c then st 75 else st 0));
  Case 94 (fun r c => switch c [(46, st 76); (53, st 95)]
      (if within 48 57 c then st 75 else st 0));
  Case 95 (fun r c => if c =? 46 then st 76 else (if within 48 53 c then st 75 else st 0));
  Case 96 (fun r c => switch c [(46, st 72); (58, st 100)]
      (if c <? 65 then (if within 48 57 c then st 97 else st 0) else (if 70 <? c then (if within 97 102 c
        then st 97 else st 0) else st 97)));
  Case 97 (fun r c => if c =? 58 then st 100 else (if c <? 65 then (if within 48 57 c then st 98 else st 0)
        else (if 70 <? c then (if within 97 102 c then st 98 else st 0) else st 98)));
  Case 98 (fun r c => if c =? 58 then st 100 else (if c <? 65 then (if within 48 57 c then st 99 else st 0)
        else (if 70 <? c then (if within 97 102 c then st 99 else st 0) else st 99)));
  Case 99 (fun r c => if c =? 58 then st 100 else st 0);
  Case 100 (fun r c => if c =? 58 then st 83 else (if c <? 65 then (if within 48 57 c then st 101 else st 0)
        else (if 70 <? c then (if within 97 102 c then st 101 else st 0) else st 101)))
].

Definition uri_parser_2549 : list (block uri_action) := [
  Case 101 (fun r c => if c =? 93 then st 460 else (if c <? 65 then (if within 48 57 c then st 102 else st 0)
        else (if 70 <? c then (if within 97 102 c then st 102 else st 0) else st 102)));
  Case 102 (fun r c => if c =? 93 then st 460 else (if c <? 65 then (if within 48 57 c then st 103 else st 0)
        else (if 70 <? c then (if within 97 102 c then st 103 else st 0) else st 103)));
  Case 103 (fun r c => if c =? 93 then st 460 else (if c <? 65 then (if within 48 57 c then st 83 else st 0)
        else (if 70 <? c then (if within 97 102 c then st 83 else st 0) else st 83)));
  Case 104 (fun r c => switch c [(46, st 72); (58, st 100)]
      (if c <? 65 then (if within 48 57 c then st 105 else st 0) else (if 70 <? c then (if within 97 102 c
        then st 97 else st 0) else st 97)));
  Case 105 (fun r c => switch c [(46, st 72); (58, st 100)]
      (if c <? 65 then (if within 48 57 c then st 106 else st 0) else (if 70 <? c then (if within 97 102 c
        then st 98 else st 0) else st 98)));
  Case 106 (fun r c => switch c [(46, st 72); (58, st 100)]
      (if c <? 65 then (if within 48 57 c then st 99 else st 0) else (if 70 <? c then (if within 97 102 c
        then st 99 else st 0) else st 99)));
  Case 107 (fun r c => switch c [(46, st 72); (53, st 109); (58, st 100)]
      (if c <? 65 then (if within 48 57 c then st 108 else st 0) else (if 70 <? c then (if within 97 102 c
        then st 97 else st 0) else st 97)));
  Case 108 (fun r c => switch c [(46, st 72); (58, st 100)]
      (if c <? 65 then (if within 48 57 c then st 98 else st 0) else (if 70 <? c then (if within 97 102 c
        then st 98 else st 0) else st 98)))
].

Definition uri_parser_2680 : list (block uri_action) := [
  Case 109 (fun r c => switch c [(46, st 72); (58, st 100)]
      (if c <? 54 then (if within 48 53 c then st 106 else st 0) else (if 57 <? c then (if 70 <? c then (if
        within 97 102 c then st 98 else st 0) else (if 65 <=? c then st 98 else st 0)) else st 98)));
  Case 110 (fun r c => switch c [(46, st 72); (58, st 100)]
      (if c <? 65 then (if within 48 57 c then st 108 else st 0) else (if 70 <? c then (if within 97 102 c
        then st 97 else st 0) else st 97)));
  Case 111 (fun r c => if c <? 65 then (if within 48 57 c then st 101 else st 0) else (if 70 <? c then (if
        within 97 102 c then st 101 else st 0) else st 101));
  Case 112 (fun r c => if c =? 58 then st 100 else (if c <? 65 then (if within 48 57 c then st 97 else st 0)
        else (if 70 <? c then (if within 97 102 c then st 97 else st 0) else st 97)));
  Case 113 (fun r c => switch c [(2, st 69); (48, st 114); (49, st 118); (50, st 121)]
      (if c <? 65 then (if within 51 57 c then st 124 else st 0) else (if 70 <? c then (if within 97 102 c
        then st 125 else st 0) else st 125)));
  Case 114 (fun r c => switch c [(46, st 72); (58, st 111)]
      (if c <? 65 then (if within 48 57 c then st 115 else st 0) else (if 70 <? c then (if within 97 102 c
        then st 115 else st 0) else st 115)));
  Case 115 (fun r c => if c =? 58 then st 111 else (if c <? 65 then (if within 48 57 c then st 116 else st 0)
        else (if 70 <? c then (if within 97 102 c then st 116 else st 0) else st 116)));
  Case 116 (fun r c => if c =? 58 then st 111 else (if c <? 65 then (if within 48 57 c then st 117 else st 0)
        else (if 70 <? c then (if within 97 102 c then st 117 else st 0) else st 117)));
  Case 117 (fun r c => if c =? 58 then st 111 else st 0)
].

Definition uri_parser_2818 : list (block uri_action) := [
  Case 118 (fun r c => switch c [(46, st 72); (58, st 111)]
      (if c <? 65 then (if within 48 57 c then st 119 else st 0) else (if 70 <? c then (if within 97 102 c
        then st 115 else st 0) else st 115)));
  Case 119 (fun r c => switch c [(46, st 72); (58, st 111)]
      (if c <? 65 then (if within 48 57 c then st 120 else st 0) else (if 70 <? c then (if within 97 102 c
        then st 116 else st 0) else st 116)));
  Case 120 (fun r c => switch c [(46, st 72); (58, st 111)]
      (if c <? 65 then (if within 48 57 c then st 117 else st 0) else (if 70 <? c then (if within 97 102 c
        then st 117 else st 0) else st 117)));
  Case 121 (fun r c => switch c [(46, st 72); (53, st 123); (58, st 111)]
      (if c <? 65 then (if within 48 57 c then st 122 else st 0) else (if 70 <? c then (if within 97 102 c
        then st 115 else st 0) else st 115)));
  Case 122 (fun r c => switch c [(46, st 72); (58, st 111)]
      (if c <? 65 then (if within 48 57 c then st 116 else st 0) else (if 70 <? c then (if within 97 102 c
        then st 116 else st 0) else st 116)));
  Case 123 (fun r c => switch c [(46, st 72); (58, st 111)]
      (if c <? 54 then (if within 48 53 c then st 120 else st 0) else (if 57 <? c then (if 70 <? c then (if
        within 97 102 c then st 116 else st 0) else (if 65 <=? c then st 116 else st 0)) else st 116)));
  Case 124 (fun r c => switch c [(46, st 72); (58, st 111)]
      (if c <? 65 then (if within 48 57 c then st 122 else st 0) else (if 70 <? c then (if within 97 102 c
        then st 115 else st 0) else st 115)));
  Case 125 (fun r c => if c =? 58 then st 111 else (if c <? 65 then (if within 48 57 c then st 115 else st 0)
        else (if 70 <? c then (if within 97 102 c then st 115 else st 0) else st 115)))
].

Definition uri_parser_2956 : list (block uri_action) := [
  Case 126 (fun r c => if c <? 65 then (if within 48 57 c then st 127 else st 0) else (if 70 <? c then (if
        within 97 102 c then st 127 else st 0) else st 127));
  Case 127 (fun r c => if c =? 58 then st 113 else (if c <? 65 then (if within 48 57 c then st 128 else st 0)
        else (if 70 <? c then (if within 97 102 c then st 128 else st 0) else st 128)));
  Case 128 (fun r c => if c =? 58 then st 113 else (if c <? 65 then (if within 48 57 c then st 129 else st 0)
        else (if 70 <? c then (if within 97 102 c then st 129 else st 0) else st 129)));
  Case 129 (fun r c => if c =? 58 then st 113 else (if c <? 65 then (if within 48 57 c then st 130 else st 0)
        else (if 70 <? c then (if within 97 102 c then st 130 else st 0) else st 130)));
  Case 130 (fun r c => if c =? 58 then st 113 else st 0);
  Case 131 (fun r c => if c <? 65 then (if within 48 57 c then st 132 else st 0) else (if 70 <? c then (if
        within 97 102 c then st 132 else st 0) else st 132));
  Case 132 (fun r c => if c =? 58 then st 126 else (if c <? 65 then (if within 48 57 c then st 133 else st 0)
        else (if 70 <? c then (if within 97 102 c then st 133 else st 0) else st 133)));
  Case 133 (fun r c => if c =? 58 then st 126 else (if c <? 65 then (if within 48 57 c then st 134 else st 0)
        else (if 70 <? c then (if within 97 102 c then st 134 else st 0) else st 134)));
  Case 134 (fun r c => if c =? 58 then st 126 else (if c <? 65 then (if within 48 57 c then st 135 else st 0)
        else (if 70 <? c then (if within 97 102 c then st 135 else st 0) else st 135)));
  Case 135 (fun r c => if c =? 58 then st 126 else st 0)
].

Definition uri_parser_3086 : list (block uri_action) := [
  Case 136 (fun r c => if c <? 65 then (if within 48 57 c then st 137 else st 0) else (if 70 <? c then (if
        within 97 102 c then st 137 else st 0) else st 137));
  Case 137 (fun r c => if c =? 58 then st 131 else (if c <? 65 then (if within 48 57 c then st 138 else st 0)
        else (if 70 <? c then (if within 97 102 c then st 138 else st 0) else st 138)));
  Case 138 (fun r c => if c =? 58 then st 131 else (if c <? 65 then (if within 48 57 c then st 139 else st 0)
        else (if 70 <? c then (if within 97 102 c then st 139 else st 0) else st 139)));
  Case 139 (fun r c => if c =? 58 then st 131 else (if c <? 65 then (if within 48 57 c then st 140 else st 0)
        else (if 70 <? c then (if within 97 102 c then st 140 else st 0) else st 140)));
  Case 140 (fun r c => if c =? 58 then st 131 else st 0);
  Case 141 (fun r c => if c <? 65 then (if within 48 57 c then st 142 else st 0) else (if 70 <? c then (if
        within 97 102 c then st 142 else st 0) else st 142));
  Case 142 (fun r c => if c =? 58 then st 136 else (if c <? 65 then (if within 48 57 c then st 143 else st 0)
        else (if 70 <? c then (if within 97 102 c then st 143 else st 0) else st 143)));
  Case 143 (fun r c => if c =? 58 then st 136 else (if c <? 65 then (if within 48 57 c then st 144 else st 0)
        else (if 70 <? c then (if within 97 102 c then st 144 else st 0) else st 144)));
  Case 144 (fun r c => if c =? 58 then st 136 else (if c <? 65 then (if within 48 57 c then st 145 else st 0)
        else (if 70 <? c then (if within 97 102 c then st 145 else st 0) else st 145)));
  Case 145 (fun r c => if c =? 58 then st 136 else st 0);
  Case 146 (fun r c => if c =? 58 then st 147 else st 0)
].

Definition uri_parser_3223 : list (block uri_action) := [
  Case 147 (fun r c => switch c [(2, st 69); (48, st 148); (49, st 217); (50, st 220); (93, st 460)]
      (if c <? 65 then (if within 51 57 c then st 223 else st 0) else (if 70 <? c then (if within 97 102 c
        then st 224 else st 0) else st 224)));
  Case 148 (fun r c => switch c [(46, st 72); (58, st 152); (93, st 460)]
      (if c <? 65 then (if within 48 57 c then st 149 else st 0) else (if 70 <? c then (if within 97 102 c
        then st 149 else st 0) else st 149)));
  Case 149 (fun r c => switch c [(58, st 152); (93, st 460)]
      (if c <? 65 then (if within 48 57 c then st 150 else st 0) else (if 70 <? c then (if within 97 102 c
        then st 150 else st 0) else st 150)));
  Case 150 (fun r c => switch c [(58, st 152); (93, st 460)]
      (if c <? 65 then (if within 48 57 c then st 151 else st 0) else (if 70 <? c then (if within 97 102 c
        then st 151 else st 0) else st 151)));
  Case 151 (fun r c => switch c [(58, st 152); (93, st 460)]
      (st 0));
  Case 152 (fun r c => switch c [(2, st 69); (48, st 153); (49, st 209); (50, st 212)]
      (if c <? 65 then (if within 51 57 c then st 215 else st 0) else (if 70 <? c then (if within 97 102 c
        then st 216 else st 0) else st 216)));
  Case 153 (fun r c => switch c [(46, st 72); (58, st 157); (93, st 460)]
      (if c <? 65 then (if within 48 57 c then st 154 else st 0) else (if 70 <? c then (if within 97 102 c
        then st 154 else st 0) else st 154)));
  Case 154 (fun r c => switch c [(58, st 157); (93, st 460)]
      (if c <? 65 then (if within 48 57 c then st 155 else st 0) else (if 70 <? c then (if within 97 102 c
        then st 155 else st 0) else st 155)))
].

Definition uri_parser_3358 : list (block uri_action) := [
  Case 155 (fun r c => switch c [(58, st 157); (93, st 460)]
      (if c <? 65 then (if within 48 57 c then st 156 else st 0) else (if 70 <? c then (if within 97 102 c
        then st 156 else st 0) else st 156)));
  Case 156 (fun r c => switch c [(58, st 157); (93, st 460)]
      (st 0));
  Case 157 (fun r c => switch c [(2, st 69); (48, st 158); (49, st 201); (50, st 204)]
      (if c <? 65 then (if within 51 57 c then st 207 else st 0) else (if 70 <? c then (if within 97 102 c
        then st 208 else st 0) else st 208)));
  Case 158 (fun r c => switch c [(46, st 72); (58, st 162); (93, st 460)]
      (if c <? 65 then (if within 48 57 c then st 159 else st 0) else (if 70 <? c then (if within 97 102 c
        then st 159 else st 0) else st 159)));
  Case 159 (fun r c => switch c [(58, st 162); (93, st 460)]
      (if c <? 65 then (if within 48 57 c then st 160 else st 0) else (if 70 <? c then (if within 97 102 c
        then st 160 else st 0) else st 160)));
  Case 160 (fun r c => switch c [(58, st 162); (93, st 460)]
      (if c <? 65 then (if within 48 57 c then st 161 else st 0) else (if 70 <? c then (if within 97 102 c
        then st 161 else st 0) else st 161)));
  Case 161 (fun r c => switch c [(58, st 162); (93, st 460)]
      (st 0));
  Case 162 (fun r c => switch c [(2, st 69); (48, st 163); (49, st 193); (50, st 196)]
      (if c <? 65 then (if within 51 57 c then st 199 else st 0) else (if 70 <? c then (if within 97 102 c
        then st 200 else st 0) else st 200)))
].

Definition uri_parser_3483 : list (block uri_action) := [
  Case 163 (fun r c => switch c [(46, st 72); (58, st 167); (93, st 460)]
      (if c <? 65 then (if within 48 57 c then st 164 else st 0) else (if 70 <? c then (if within 97 102 c
        then st 164 else st 0) else st 164)));
  Case 164 (fun r c => switch c [(58, st 167); (93, st 460)]
      (if c <? 65 then (if within 48 57 c then st 165 else st 0) else (if 70 <? c then (if within 97 102 c
        then st 165 else st 0) else st 165)));
  Case 165 (fun r c => switch c [(58, st 167); (93, st 460)]
      (if c <? 65 then (if within 48 57 c then st 166 else st 0) else (if 70 <? c then (if within 97 102 c
        then st 166 else st 0) else st 166)));
  Case 166 (fun r c => switch c [(58, st 167); (93, st 460)]
      (st 0));
  Case 167 (fun r c => switch c [(2, st 69); (48, st 168); (49, st 185); (50, st 188)]
      (if c <? 65 then (if within 51 57 c then st 191 else st 0) else (if 70 <? c then (if within 97 102 c
        then st 192 else st 0) else st 192)));
  Case 168 (fun r c => switch c [(46, st 72); (58, st 172); (93, st 460)]
      (if c <? 65 then (if within 48 57 c then st 169 else st 0) else (if 70 <? c then (if within 97 102 c
        then st 169 else st 0) else st 169)));
  Case 169 (fun r c => switch c [(58, st 172); (93, st 460)]
      (if c <? 65 then (if within 48 57 c then st 170 else st 0) else (if 70 <? c then (if within 97 102 c
        then st 170 else st 0) else st 170)));
  Case 170 (fun r c => switch c [(58, st 172); (93, st 460)]
      (if c <? 65 then (if within 48 57 c then st 171 else st 0) else (if 70 <? c then (if within 97 102 c
        then st 171 else st 0) else st 171)))
].

Definition uri_parser_3615 : list (block uri_action) := [
  Case 171 (fun r c => switch c [(58, st 172); (93, st 460)]
      (st 0));
  Case 172 (fun r c => switch c [(2, st 69); (48, st 173); (49, st 177); (50, st 180)]
      (if c <? 65 then (if within 51 57 c then st 183 else st 0) else (if 70 <? c then (if within 97 102 c
        then st 184 else st 0) else st 184)));
  Case 173 (fun r c => switch c [(46, st 72); (58, st 111); (93, st 460)]
      (if c <? 65 then (if within 48 57 c then st 174 else st 0) else (if 70 <? c then (if within 97 102 c
        then st 174 else st 0) else st 174)));
  Case 174 (fun r c => switch c [(58, st 111); (93, st 460)]
      (if c <? 65 then (if within 48 57 c then st 175 else st 0) else (if 70 <? c then (if within 97 102 c
        then st 175 else st 0) else st 175)));
  Case 175 (fun r c => switch c [(58, st 111); (93, st 460)]
      (if c <? 65 then (if within 48 57 c then st 176 else st 0) else (if 70 <? c then (if within 97 102 c
        then st 176 else st 0) else st 176)));
  Case 176 (fun r c => switch c [(58, st 111); (93, st 460)]
      (st 0));
  Case 177 (fun r c => switch c [(46, st 72); (58, st 111); (93, st 460)]
      (if c <? 65 then (if within 48 57 c then st 178 else st 0) else (if 70 <? c then (if within 97 102 c
        then st 174 else st 0) else st 174)));
  Case 178 (fun r c => switch c [(46, st 72); (58, st 111); (93, st 460)]
      (if c <? 65 then (if within 48 57 c then st 179 else st 0) else (if 70 <? c then (if within 97 102 c
        then st 175 else st 0) else st 175)))
].

Definition uri_parser_3740 : list (block uri_action) := [
  Case 179 (fun r c => switch c [(46, st 72); (58, st 111); (93, st 460)]
      (if c <? 65 then (if within 48 57 c then st 176 else st 0) else (if 70 <? c then (if within 97 102 c
        then st 176 else st 0) else st 176)));
  Case 180 (fun r c => switch c [(46, st 72); (53, st 182); (58, st 111); (93, st 460)]
      (if c <? 65 then (if within 48 57 c then st 181 else st 0) else (if 70 <? c then (if within 97 102 c
        then st 174 else st 0) else st 174)));
  Case 181 (fun r c => switch c [(46, st 72); (58, st 111); (93, st 460)]
      (if c <? 65 then (if within 48 57 c then st 175 else st 0) else (if 70 <? c then (if within 97 102 c
        then st 175 else st 0) else st 175)));
  Case 182 (fun r c => switch c [(46, st 72); (58, st 111); (93, st 460)]
      (if c <? 54 then (if within 48 53 c then st 179 else st 0) else (if 57 <? c then (if 70 <? c then (if
        within 97 102 c then st 175 else st 0) else (if 65 <=? c then st 175 else st 0)) else st 175)));
  Case 183 (fun r c => switch c [(46, st 72); (58, st 111); (93, st 460)]
      (if c <? 65 then (if within 48 57 c then st 181 else st 0) else (if 70 <? c then (if within 97 102 c
        then st 174 else st 0) else st 174)));
  Case 184 (fun r c => switch c [(58, st 111); (93, st 460)]
      (if c <? 65 then (if within 48 57 c then st 174 else st 0) else (if 70 <? c then (if within 97 102 c
        then st 174 else st 0) else st 174)));
  Case 185 (fun r c => switch c [(46, st 72); (58, st 172); (93, st 460)]
      (if c <? 65 then (if within 48 57 c then st 186 else st 0) else (if 70 <? c then (if within 97 102 c
        then st 169 else st 0) else st 169)))
].

Definition uri_parser_3869 : list (block uri_action) := [
  Case 186 (fun r c => switch c [(46, st 72); (58, st 172); (93, st 460)]
      (if c <? 65 then (if within 48 57 c then st 187 else st 0) else (if 70 <? c then (if within 97 102 c
        then st 170 else st 0) else st 170)));
  Case 187 (fun r c => switch c [(46, st 72); (58, st 172); (93, st 460)]
      (if c <? 65 then (if within 48 57 c then st 171 else st 0) else (if 70 <? c then (if within 97 102 c
        then st 171 else st 0) else st 171)));
  Case 188 (fun r c => switch c [(46, st 72); (53, st 190); (58, st 172); (93, st 460)]
      (if c <? 65 then (if within 48 57 c then st 189 else st 0) else (if 70 <? c then (if within 97 102 c
        then st 169 else st 0) else st 169)));
  Case 189 (fun r c => switch c [(46, st 72); (58, st 172); (93, st 460)]
      (if c <? 65 then (if within 48 57 c then st 170 else st 0) else (if 70 <? c then (if within 97 102 c
        then st 170 else st 0) else st 170)));
  Case 190 (fun r c => switch c [(46, st 72); (58, st 172); (93, st 460)]
      (if c <? 54 then (if within 48 53 c then st 187 else st 0) else (if 57 <? c then (if 70 <? c then (if
        within 97 102 c then st 170 else st 0) else (if 65 <=? c then st 170 else st 0)) else st 170)));
  Case 191 (fun r c => switch c [(46, st 72); (58, st 172); (93, st 460)]
      (if c <? 65 then (if within 48 57 c then st 189 else st 0) else (if 70 <? c then (if within 97 102 c
        then st 169 else st 0) else st 169)));
  Case 192 (fun r c => switch c [(58, st 172); (93, st 460)]
      (if c <? 65 then (if within 48 57 c then st 169 else st 0) else (if 70 <? c then (if within 97 102 c
        then st 169 else st 0) else st 169)))
].

Definition uri_parser_3998 : list (block uri_action) := [
  Case 193 (fun r c => switch c [(46, st 72); (58, st 167); (93, st 460)]
      (if c <? 65 then (if within 48 57 c then st 194 else st 0) else (if 70 <? c then (if within 97 102 c
        then st 164 else st 0) else st 164)));
  Case 194 (fun r c => switch c [(46, st 72); (58, st 167); (93, st 460)]
      (if c <? 65 then (if within 48 57 c then st 195 else st 0) else (if 70 <? c then (if within 97 102 c
        then st 165 else st 0) else st 165)));
  Case 195 (fun r c => switch c [(46, st 72); (58, st 167); (93, st 460)]
      (if c <? 65 then (if within 48 57 c then st 166 else st 0) else (if 70 <? c then (if within 97 102 c
        then st 166 else st 0) else st 166)));
  Case 196 (fun r c => switch c [(46, st 72); (53, st 198); (58, st 167); (93, st 460)]
      (if c <? 65 then (if within 48 57 c then st 197 else st 0) else (if 70 <? c then (if within 97 102 c
        then st 164 else st 0) else st 164)));
  Case 197 (fun r c => switch c [(46, st 72); (58, st 167); (93, st 460)]
      (if c <? 65 then (if within 48 57 c then st 165 else st 0) else (if 70 <? c then (if within 97 102 c
        then st 165 else st 0) else st 165)));
  Case 198 (fun r c => switch c [(46, st 72); (58, st 167); (93, st 460)]
      (if c <? 54 then (if within 48 53 c then st 195 else st 0) else (if 57 <? c then (if 70 <? c then (if
        within 97 102 c then st 165 else st 0) else (if 65 <=? c then st 165 else st 0)) else st 165)));
  Case 199 (fun r c => switch c [(46, st 72); (58, st 167); (93, st 460)]
      (if c <? 65 then (if within 48 57 c then st 197 else st 0) else (if 70 <? c then (if within 97 102 c
        then st 164 else st 0) else st 164)))
].

Definition uri_parser_4128 : list (block uri_action) := [
  Case 200 (fun r c => switch c [(58, st 167); (93, st 460)]
      (if c <? 65 then (if within 48 57 c then st 164 else st 0) else (if 70 <? c then (if within 97 102 c
        then st 164 else st 0) else st 164)));
  Case 201 (fun r c => switch c [(46, st 72); (58, st 162); (93, st 460)]
      (if c <? 65 then (if within 48 57 c then st 202 else st 0) else (if 70 <? c then (if within 97 102 c
        then st 159 else st 0) else st 159)));
  Case 202 (fun r c => switch c [(46, st 72); (58, st 162); (93, st 460)]
      (if c <? 65 then (if within 48 57 c then st 203 else st 0) else (if 70 <? c then (if within 97 102 c
        then st 160 else st 0) else st 160)));
  Case 203 (fun r c => switch c [(46, st 72); (58, st 162); (93, st 460)]
      (if c <? 65 then (if within 48 57 c then st 161 else st 0) else (if 70 <? c then (if within 97 102 c
        then st 161 else st 0) else st 161)));
  Case 204 (fun r c => switch c [(46, st 72); (53, st 206); (58, st 162); (93, st 460)]
      (if c <? 65 then (if within 48 57 c then st 205 else st 0) else (if 70 <? c then (if within 97 102 c
        then st 159 else st 0) else st 159)));
  Case 205 (fun r c => switch c [(46, st 72); (58, st 162); (93, st 460)]
      (if c <? 65 then (if within 48 57 c then st 160 else st 0) else (if 70 <? c then (if within 97 102 c
        then st 160 else st 0) else st 160)));
  Case 206 (fun r c => switch c [(46, st 72); (58, st 162); (93, st 460)]
      (if c <? 54 then (if within 48 53 c then st 203 else st 0) else (if 57 <? c then (if 70 <? c then (if
        within 97 102 c then st 160 else st 0) else (if 65 <=? c then st 160 else st 0)) else st 160)))
].

Definition uri_parser_4257 : list (block uri_action) := [
  Case 207 (fun r c => switch c [(46, st 72); (58, st 162); (93, st 460)]
      (if c <? 65 then (if within 48 57 c then st 205 else st 0) else (if 70 <? c then (if within 97 102 c
        then st 159 else st 0) else st 159)));
  Case 208 (fun r c => switch c [(58, st 162); (93, st 460)]
      (if c <? 65 then (if within 48 57 c then st 159 else st 0) else (if 70 <? c then (if within 97 102 c
        then st 159 else st 0) else st 159)));
  Case 209 (fun r c => switch c [(46, st 72); (58, st 157); (93, st 460)]
      (if c <? 65 then (if within 48 57 c then st 210 else st 0) else (if 70 <? c then (if within 97 102 c
        then st 154 else st 0) else st 154)));
  Case 210 (fun r c => switch c [(46, st 72); (58, st 157); (93, st 460)]
      (if c <? 65 then (if within 48 57 c then st 211 else st 0) else (if 70 <? c then (if within 97 102 c
        then st 155 else st 0) else st 155)));
  Case 211 (fun r c => switch c [(46, st 72); (58, st 157); (93, st 460)]
      (if c <? 65 then (if within 48 57 c then st 156 else st 0) else (if 70 <? c then (if within 97 102 c
        then st 156 else st 0) else st 156)));
  Case 212 (fun r c => switch c [(46, st 72); (53, st 214); (58, st 157); (93, st 460)]
      (if c <? 65 then (if within 48 57 c then st 213 else st 0) else (if 70 <? c then (if within 97 102 c
        then st 154 else st 0) else st 154)));
  Case 213 (fun r c => switch c [(46, st 72); (58, st 157); (93, st 460)]
      (if c <? 65 then (if within 48 57 c then st 155 else st 0) else (if 70 <? c then (if within 97 102 c
        then st 155 else st 0) else st 155)))
].

Definition uri_parser_4383 : list (block uri_action) := [
  Case 214 (fun r c => switch c [(46, st 72); (58, st 157); (93, st 460)]
      (if c <? 54 then (if within 48 53 c then st 211 else st 0) else (if 57 <? c then (if 70 <? c then (if
        within 97 102 c then st 155 else st 0) else (if 65 <=? c then st 155 else st 0)) else st 155)));
  Case 215 (fun r c => switch c [(46, st 72); (58, st 157); (93, st 460)]
      (if c <? 65 then (if within 48 57 c then st 213 else st 0) else (if 70 <? c then (if within 97 102 c
        then st 154 else st 0) else st 154)));
  Case 216 (fun r c => switch c [(58, st 157); (93, st 460)]
      (if c <? 65 then (if within 48 57 c then st 154 else st 0) else (if 70 <? c then (if within 97 102 c
        then st 154 else st 0) else st 154)));
  Case 217 (fun r c => switch c [(46, st 72); (58, st 152); (93, st 460)]
      (if c <? 65 then (if within 48 57 c then st 218 else st 0) else (if 70 <? c then (if within 97 102 c
        then st 149 else st 0) else st 149)));
  Case 218 (fun r c => switch c [(46, st 72); (58, st 152); (93, st 460)]
      (if c <? 65 then (if within 48 57 c then st 219 else st 0) else (if 70 <? c then (if within 97 102 c
        then st 150 else st 0) else st 150)));
  Case 219 (fun r c => switch c [(46, st 72); (58, st 152); (93, st 460)]
      (if c <? 65 then (if within 48 57 c then st 151 else st 0) else (if 70 <? c then (if within 97 102 c
        then st 151 else st 0) else st 151)));
  Case 220 (fun r c => switch c [(46, st 72); (53, st 222); (58, st 152); (93, st 460)]
      (if c <? 65 then (if within 48 57 c then st 221 else st 0) else (if 70 <? c then (if within 97 102 c
        then st 149 else st 0) else st 149)))
].

Definition uri_parser_4512 : list (block uri_action) := [
  Case 221 (fun r c => switch c [(46, st 72); (58, st 152); (93, st 460)]
      (if c <? 65 then (if within 48 57 c then st 150 else st 0) else (if 70 <? c then (if within 97 102 c
        then st 150 else st 0) else st 150)));
  Case 222 (fun r c => switch c [(46, st 72); (58, st 152); (93, st 460)]
      (if c <? 54 then (if within 48 53 c then st 219 else st 0) else (if 57 <? c then (if 70 <? c then (if
        within 97 102 c then st 150 else st 0) else (if 65 <=? c then st 150 else st 0)) else st 150)));
  Case 223 (fun r c => switch c [(46, st 72); (58, st 152); (93, st 460)]
      (if c <? 65 then (if within 48 57 c then st 221 else st 0) else (if 70 <? c then (if within 97 102 c
        then st 149 else st 0) else st 149)));
  Case 224 (fun r c => switch c [(58, st 152); (93, st 460)]
      (if c <? 65 then (if within 48 57 c then st 149 else st 0) else (if 70 <? c then (if within 97 102 c
        then st 149 else st 0) else st 149)));
  Case 225 (fun r c => if c <? 65 then (if within 48 57 c then st 226 else st 0) else (if 70 <? c then (if
        within 97 102 c then st 226 else st 0) else st 226));
  Case 226 (fun r c => if c =? 46 then st 227 else (if c <? 65 then (if within 48 57 c then st 226 else st 0)
        else (if 70 <? c then (if within 97 102 c then st 226 else st 0) else st 226)));
  Case 227 (fun r c => switch c [(33, st 228); (36, st 228); (61, st 228); (95, st 228); (126, st 228)]
      (if c <? 48 then (if within 38 46 c then st 228 else st 0) else (if 59 <? c then (if 90 <? c then (if
        within 97 122 c then st 228 else st 0) else (if 65 <=? c then st 228 else st 0)) else st 228)))
].

Definition uri_parser_4637 : list (block uri_action) := [
  Case 228 (fun r c => switch c [(33, st 228); (36, st 228); (61, st 228); (93, st 460); (95, st 228); (126,
        st 228)]
      (if c <? 48 then (if within 38 46 c then st 228 else st 0) else (if 59 <? c then (if 90 <? c then (if
        within 97 122 c then st 228 else st 0) else (if 65 <=? c then st 228 else st 0)) else st 228)));
  Tr 500 [u_mark] 489;
  Case 489 (fun r c => switch c [(33, st 33); (35, tr 493); (37, st 34); (47, tr 494); (61, st 33); (63,
        tr 496); (64, tr 38); (95, st 33); (126, st 33)]
      (if c <? 58 then (if 46 <? c then (if within 48 57 c then st 489 else st 0) else (if 36 <=? c then
        st 33 else st 0)) else (if 59 <? c then (if 90 <? c then (if within 97 122 c then st 33 else st 0)
        else (if 65 <=? c then st 33 else st 0)) else st 33)));
  Tr 477 [u_mark] 490;
  Case 490 (fun r c => switch c [(33, st 467); (35, tr 485); (37, st 31); (46, st 491); (47, tr 486); (58,
        tr 499); (61, st 467); (63, tr 488); (64, tr 38); (95, st 467); (126, st 467)]
      (if c <? 65 then (if within 36 59 c then st 467 else st 0) else (if 90 <? c then (if within 97 122 c
        then st 467 else st 0) else st 467)));
  Case 491 (fun r c => switch c [(2, st 13); (33, st 467); (35, tr 485); (37, st 31); (47, tr 486); (48,
        st 492); (49, st 500); (50, st 502); (58, tr 499); (59, st 467); (61, st 467); (63, tr 488); (64,
        tr 38); (95, st 467); (126, st 467)]
      (if c <? 51 then (if within 36 46 c then st 467 else st 0) else (if 57 <? c then (if 90 <? c then (if
        within 97 122 c then st 467 else st 0) else (if 65 <=? c then st 467 else st 0)) else st 501)))
].

Definition uri_parser_4760 : list (block uri_action) := [
  Case 492 (fun r c => switch c [(33, st 467); (35, tr 485); (37, st 31); (46, st 493); (47, tr 486); (58,
        tr 499); (61, st 467); (63, tr 488); (64, tr 38); (95, st 467); (126, st 467)]
      (if c <? 65 then (if within 36 59 c then st 467 else st 0) else (if 90 <? c then (if within 97 122 c
        then st 467 else st 0) else st 467)));
  Case 493 (fun r c => switch c [(2, st 17); (33, st 467); (35, tr 485); (37, st 31); (47, tr 486); (48,
        st 494); (49, st 496); (50, st 498); (58, tr 499); (59, st 467); (61, st 467); (63, tr 488); (64,
        tr 38); (95, st 467); (126, st 467)]
      (if c <? 51 then (if within 36 46 c then st 467 else st 0) else (if 57 <? c then (if 90 <? c then (if
        within 97 122 c then st 467 else st 0) else (if 65 <=? c then st 467 else st 0)) else st 497)));
  Case 494 (fun r c => switch c [(33, st 467); (35, tr 485); (37, st 31); (46, st 495); (47, tr 486); (58,
        tr 499); (61, st 467); (63, tr 488); (64, tr 38); (95, st 467); (126, st 467)]
      (if c <? 65 then (if within 36 59 c then st 467 else st 0) else (if 90 <? c then (if within 97 122 c
        then st 467 else st 0) else st 467)));
  Case 495 (fun r c => switch c [(2, st 21); (33, st 467); (35, tr 485); (37, st 31); (47, tr 486); (58,
        tr 499); (61, st 467); (63, tr 488); (64, tr 38); (95, st 467); (126, st 467)]
      (if c <? 65 then (if within 36 59 c then st 467 else st 0) else (if 90 <? c then (if within 97 122 c
        then st 467 else st 0) else st 467)))
].

Definition uri_parser_4871 : list (block uri_action) := [
  Case 496 (fun r c => switch c [(33, st 467); (35, tr 485); (37, st 31); (46, st 495); (47, tr 486); (58,
        tr 499); (59, st 467); (61, st 467); (63, tr 488); (64, tr 38); (95, st 467); (126, st 467)]
      (if c <? 48 then (if within 36 45 c then st 467 else st 0) else (if 57 <? c then (if 90 <? c then (if
        within 97 122 c then st 467 else st 0) else (if 65 <=? c then st 467 else st 0)) else st 497)));
  Case 497 (fun r c => switch c [(33, st 467); (35, tr 485); (37, st 31); (46, st 495); (47, tr 486); (58,
        tr 499); (59, st 467); (61, st 467); (63, tr 488); (64, tr 38); (95, st 467); (126, st 467)]
      (if c <? 48 then (if within 36 45 c then st 467 else st 0) else (if 57 <? c then (if 90 <? c then (if
        within 97 122 c then st 467 else st 0) else (if 65 <=? c then st 467 else st 0)) else st 494)));
  Case 498 (fun r c => switch c [(33, st 467); (35, tr 485); (37, st 31); (46, st 495); (47, tr 486); (53,
        st 499); (58, tr 499); (59, st 467); (61, st 467); (63, tr 488); (64, tr 38); (95, st 467); (126,
        st 467)]
      (if c <? 48 then (if within 36 45 c then st 467 else st 0) else (if 57 <? c then (if 90 <? c then (if
        within 97 122 c then st 467 else st 0) else (if 65 <=? c then st 467 else st 0)) else st 494)));
  Case 499 (fun r c => switch c [(33, st 467); (35, tr 485); (37, st 31); (46, st 495); (47, tr 486); (58,
        tr 499); (61, st 467); (63, tr 488); (64, tr 38); (95, st 467); (126, st 467)]
      (if c <? 54 then (if 45 <? c then (if within 48 53 c then st 494 else st 0) else (if 36 <=? c then
        st 467 else st 0)) else (if 59 <? c then (if 90 <? c then (if within 97 122 c then st 467 else st 0)
        else (if 65 <=? c then st 467 else st 0)) else st 467)))
].

Definition uri_parser_4994 : list (block uri_action) := [
  Case 500 (fun r c => switch c [(33, st 467); (35, tr 485); (37, st 31); (46, st 493); (47, tr 486); (58,
        tr 499); (59, st 467); (61, st 467); (63, tr 488); (64, tr 38); (95, st 467); (126, st 467)]
      (if c <? 48 then (if within 36 45 c then st 467 else st 0) else (if 57 <? c then (if 90 <? c then (if
        within 97 122 c then st 467 else st 0) else (if 65 <=? c then st 467 else st 0)) else st 501)));
  Case 501 (fun r c => switch c [(33, st 467); (35, tr 485); (37, st 31); (46, st 493); (47, tr 486); (58,
        tr 499); (59, st 467); (61, st 467); (63, tr 488); (64, tr 38); (95, st 467); (126, st 467)]
      (if c <? 48 then (if within 36 45 c then st 467 else st 0) else (if 57 <? c then (if 90 <? c then (if
        within 97 122 c then st 467 else st 0) else (if 65 <=? c then st 467 else st 0)) else st 492)));
  Case 502 (fun r c => switch c [(33, st 467); (35, tr 485); (37, st 31); (46, st 493); (47, tr 486); (53,
        st 503); (58, tr 499); (59, st 467); (61, st 467); (63, tr 488); (64, tr 38); (95, st 467); (126,
        st 467)]
      (if c <? 48 then (if within 36 45 c then st 467 else st 0) else (if 57 <? c then (if 90 <? c then (if
        within 97 122 c then st 467 else st 0) else (if 65 <=? c then st 467 else st 0)) else st 492)));
  Case 503 (fun r c => switch c [(33, st 467); (35, tr 485); (37, st 31); (46, st 493); (47, tr 486); (58,
        tr 499); (61, st 467); (63, tr 488); (64, tr 38); (95, st 467); (126, st 467)]
      (if c <? 54 then (if 45 <? c then (if within 48 53 c then st 492 else st 0) else (if 36 <=? c then
        st 467 else st 0)) else (if 59 <? c then (if 90 <? c then (if within 97 122 c then st 467 else st 0)
        else (if 65 <=? c then st 467 else st 0)) else st 467)));
  Tr 478 [u_mark] 504
].

Definition uri_parser_5121 : list (block uri_action) := [
  Case 504 (fun r c => switch c [(33, st 467); (35, tr 485); (37, st 31); (46, st 491); (47, tr 486); (58,
        tr 499); (59, st 467); (61, st 467); (63, tr 488); (64, tr 38); (95, st 467); (126, st 467)]
      (if c <? 48 then (if within 36 45 c then st 467 else st 0) else (if 57 <? c then (if 90 <? c then (if
        within 97 122 c then st 467 else st 0) else (if 65 <=? c then st 467 else st 0)) else st 505)));
  Tr 480 [u_mark] 505;
  Case 505 (fun r c => switch c [(33, st 467); (35, tr 485); (37, st 31); (46, st 491); (47, tr 486); (58,
        tr 499); (59, st 467); (61, st 467); (63, tr 488); (64, tr 38); (95, st 467); (126, st 467)]
      (if c <? 48 then (if within 36 45 c then st 467 else st 0) else (if 57 <? c then (if 90 <? c then (if
        within 97 122 c then st 467 else st 0) else (if 65 <=? c then st 467 else st 0)) else st 490)));
  Tr 479 [u_mark] 506;
  Case 506 (fun r c => switch c [(33, st 467); (35, tr 485); (37, st 31); (46, st 491); (47, tr 486); (53,
        st 507); (58, tr 499); (59, st 467); (61, st 467); (63, tr 488); (64, tr 38); (95, st 467); (126,
        st 467)]
      (if c <? 48 then (if within 36 45 c then st 467 else st 0) else (if 57 <? c then (if 90 <? c then (if
        within 97 122 c then st 467 else st 0) else (if 65 <=? c then st 467 else st 0)) else st 490)));
  Case 507 (fun r c => switch c [(33, st 467); (35, tr 485); (37, st 31); (46, st 491); (47, tr 486); (58,
        tr 499); (61, st 467); (63, tr 488); (64, tr 38); (95, st 467); (126, st 467)]
      (if c <? 54 then (if 45 <? c then (if within 48 53 c then st 490 else st 0) else (if 36 <=? c then
        st 467 else st 0)) else (if 59 <? c then (if 90 <? c then (if within 97 122 c then st 467 else st 0)
        else (if 65 <=? c then st 467 else st 0)) else st 467)));
  Tr 461 [u_mark] 508
].

Definition uri_parser_5259 : list (block uri_action) := [
  Case 508 (fun r c => switch c [(34, st 0); (35, st 453); (37, st 3); (43, st 508); (47, st 455); (58,
        tr 543); (60, st 0); (62, st 0); (63, st 456); (96, st 0); (127, st 0)]
      (if c <? 65 then (if 32 <? c then (if within 45 57 c then st 508 else st 452) else (if 0 <=? c then
        st 0 else st 452)) else (if 90 <? c then (if c <? 97 then (if within 91 94 c then st 0 else st 452)
        else (if 122 <? c then (if within 123 125 c then st 0 else st 452) else st 508)) else st 508)));
  Tr 543 [u_save_scheme] 509;
  Case 509 (fun r c => switch c [(34, st 0); (35, st 453); (37, st 5); (47, st 510); (60, st 0); (62, st 0);
        (63, st 456); (96, st 0); (127, st 0)]
      (if c <? 91 then (if within 0 32 c then st 0 else st 455) else (if 94 <? c then (if within 123 125 c
        then st 0 else st 455) else st 0)));
  Case 510 (fun r c => switch c [(34, st 0); (35, st 453); (37, st 5); (47, st 511); (60, st 0); (62, st 0);
        (63, st 456); (96, st 0); (127, st 0)]
      (if c <? 91 then (if within 0 32 c then st 0 else st 455) else (if 94 <? c then (if within 123 125 c
        then st 0 else st 455) else st 0)));
  Case 511 (fun r c => switch c [(2, tr 546); (33, tr 547); (35, tr 548); (37, tr 549); (47, tr 550); (48,
        tr 551); (49, tr 552); (50, tr 553); (58, tr 555); (59, tr 547); (61, tr 547); (63, tr 556); (64,
        tr 557); (91, tr 558); (95, tr 547); (126, tr 547)]
      (if c <? 51 then (if within 36 46 c then tr 547 else st 0) else (if 57 <? c then (if 90 <? c then (if
        within 97 122 c then tr 547 else st 0) else (if 65 <=? c then tr 547 else st 0)) else tr 554)));
  Tr 546 [u_mark] 229;
  Case 229 (fun r c => if within 48 52 c then st 230 else st 0)
].

Definition uri_parser_5397 : list (block uri_action) := [
  Case 230 (fun r c => if within 48 57 c then st 231 else st 0);
  Case 231 (fun r c => if c =? 46 then st 232 else st 0);
  Case 232 (fun r c => switch c [(2, st 233); (48, st 235); (49, st 249); (50, st 251)]
      (if within 51 57 c then st 250 else st 0));
  Case 233 (fun r c => if within 48 52 c then st 234 else st 0);
  Case 234 (fun r c => if within 48 57 c then st 235 else st 0);
  Case 235 (fun r c => if c =? 46 then st 236 else st 0);
  Case 236 (fun r c => switch c [(2, st 237); (48, st 239); (49, st 245); (50, st 247)]
      (if within 51 57 c then st 246 else st 0));
  Case 237 (fun r c => if within 48 52 c then st 238 else st 0);
  Case 238 (fun r c => if within 48 57 c then st 239 else st 0);
  Case 239 (fun r c => if c =? 46 then st 240 else st 0);
  Case 240 (fun r c => switch c [(2, st 241); (48, st 512); (49, st 516); (50, st 518)]
      (if within 51 57 c then st 517 else st 0));
  Case 241 (fun r c => if within 48 52 c then st 242 else st 0);
  Case 242 (fun r c => if within 48 57 c then st 512 else st 0);
  Case 512 (fun r c => switch c [(35, tr 559); (47, tr 560); (58, tr 561); (63, tr 562)]
      (st 0));
  Tr 550 [u_mark; u_save_host] 513
].

Definition uri_parser_5528 : list (block uri_action) := [
  Tr 567 [u_mark; u_save_port] 513;
  Tr 560 [u_save_host; u_mark] 513;
  Tr 571 [u_save_port; u_mark] 513;
  Case 513 (fun r c => switch c [(34, st 0); (35, tr 563); (37, st 243); (60, st 0); (62, st 0); (63,
        tr 565); (96, st 0); (127, st 0)]
      (if c <? 91 then (if within 0 32 c then st 0 else st 513) else (if 94 <? c then (if within 123 125 c
        then st 0 else st 513) else st 0)));
  Case 243 (fun r c => if c <? 65 then (if within 48 57 c then st 244 else st 0) else (if 70 <? c then (if
        within 97 102 c then st 244 else st 0) else st 244));
  Case 244 (fun r c => if c <? 65 then (if within 48 57 c then st 513 else st 0) else (if 70 <? c then (if
        within 97 102 c then st 513 else st 0) else st 513));
  Tr 584 [u_mark; u_save_host] 514;
  Tr 561 [u_save_host] 514;
  Case 514 (fun r c => switch c [(35, tr 566); (47, tr 567); (63, tr 569)]
      (if within 48 57 c then tr 568 else st 0));
  Tr 568 [u_mark] 515;
  Case 515 (fun r c => switch c [(35, tr 570); (47, tr 571); (63, tr 573)]
      (if within 48 57 c then st 515 else st 0))
].

Definition uri_parser_5661 : list (block uri_action) := [
  Case 516 (fun r c => switch c [(35, tr 559); (47, tr 560); (58, tr 561); (63, tr 562)]
      (if within 48 57 c then st 517 else st 0));
  Case 517 (fun r c => switch c [(35, tr 559); (47, tr 560); (58, tr 561); (63, tr 562)]
      (if within 48 57 c then st 512 else st 0));
  Case 518 (fun r c => switch c [(35, tr 559); (47, tr 560); (53, st 519); (58, tr 561); (63, tr 562)]
      (if within 48 57 c then st 512 else st 0));
  Case 519 (fun r c => switch c [(35, tr 559); (47, tr 560); (58, tr 561); (63, tr 562)]
      (if within 48 53 c then st 512 else st 0));
  Case 245 (fun r c => if c =? 46 then st 240 else (if within 48 57 c then st 246 else st 0));
  Case 246 (fun r c => if c =? 46 then st 240 else (if within 48 57 c then st 239 else st 0));
  Case 247 (fun r c => switch c [(46, st 240); (53, st 248)]
      (if within 48 57 c then st 239 else st 0));
  Case 248 (fun r c => if c =? 46 then st 240 else (if within 48 53 c then st 239 else st 0));
  Case 249 (fun r c => if c =? 46 then st 236 else (if within 48 57 c then st 250 else st 0));
  Case 250 (fun r c => if c =? 46 then st 236 else (if within 48 57 c then st 235 else st 0));
  Case 251 (fun r c => switch c [(46, st 236); (53, st 252)]
      (if within 48 57 c then st 235 else st 0));
  Case 252 (fun r c => if c =? 46 then st 236 else (if within 48 53 c then st 235 else st 0));
  Tr 547 [u_mark] 520
].

Definition uri_parser_5794 : list (block uri_action) := [
  Case 520 (fun r c => switch c [(33, st 520); (35, tr 559); (37, st 253); (47, tr 560); (58, tr 576); (61,
        st 520); (63, tr 562); (64, tr 263); (95, st 520); (126, st 520)]
      (if c <? 65 then (if within 36 59 c then st 520 else st 0) else (if 90 <? c then (if within 97 122 c
        then st 520 else st 0) else st 520)));
  Tr 549 [u_mark] 253;
  Case 253 (fun r c => if c <? 65 then (if within 48 57 c then st 254 else st 0) else (if 70 <? c then (if
        within 97 102 c then st 254 else st 0) else st 254));
  Case 254 (fun r c => if c <? 65 then (if within 48 57 c then st 520 else st 0) else (if 70 <? c then (if
        within 97 102 c then st 520 else st 0) else st 520));
  Tr 555 [u_mark; u_save_host] 521;
  Tr 576 [u_save_host] 521;
  Case 521 (fun r c => switch c [(33, st 255); (35, tr 566); (37, st 256); (47, tr 567); (61, st 255); (63,
        tr 569); (64, tr 263); (95, st 255); (126, st 255)]
      (if c <? 58 then (if 46 <? c then (if within 48 57 c then tr 577 else st 0) else (if 36 <=? c then
        st 255 else st 0)) else (if 59 <? c then (if 90 <? c then (if within 97 122 c then st 255 else st 0)
        else (if 65 <=? c then st 255 else st 0)) else st 255)));
  Case 255 (fun r c => switch c [(33, st 255); (37, st 256); (61, st 255); (64, tr 263); (95, st 255); (126,
        st 255)]
      (if c <? 48 then (if within 36 46 c then st 255 else st 0) else (if 59 <? c then (if 90 <? c then (if
        within 97 122 c then st 255 else st 0) else (if 65 <=? c then st 255 else st 0)) else st 255)))
].

Definition uri_parser_5926 : list (block uri_action) := [
  Case 256 (fun r c => if c <? 65 then (if within 48 57 c then st 257 else st 0) else (if 70 <? c then (if
        within 97 102 c then st 257 else st 0) else st 257));
  Case 257 (fun r c => if c <? 65 then (if within 48 57 c then st 255 else st 0) else (if 70 <? c then (if
        within 97 102 c then st 255 else st 0) else st 255));
  Tr 263 [u_save_userinfo] 522;
  Tr 557 [u_mark; u_save_userinfo] 522;
  Case 522 (fun r c => switch c [(2, tr 546); (33, tr 578); (35, tr 548); (37, tr 579); (47, tr 550); (48,
        tr 580); (49, tr 581); (50, tr 582); (58, tr 584); (59, tr 578); (61, tr 578); (63, tr 556); (91,
        tr 558); (95, tr 578); (126, tr 578)]
      (if c <? 51 then (if within 36 46 c then tr 578 else st 0) else (if 57 <? c then (if 90 <? c then (if
        within 97 122 c then tr 578 else st 0) else (if 65 <=? c then tr 578 else st 0)) else tr 583)));
  Tr 578 [u_mark] 523;
  Case 523 (fun r c => switch c [(33, st 523); (35, tr 559); (37, st 258); (47, tr 560); (58, tr 561); (61,
        st 523); (63, tr 562); (95, st 523); (126, st 523)]
      (if c <? 65 then (if within 36 59 c then st 523 else st 0) else (if 90 <? c then (if within 97 122 c
        then st 523 else st 0) else st 523)));
  Tr 579 [u_mark] 258;
  Case 258 (fun r c => if c <? 65 then (if within 48 57 c then st 259 else st 0) else (if 70 <? c then (if
        within 97 102 c then st 259 else st 0) else st 259))
].

Definition uri_parser_6055 : list (block uri_action) := [
  Case 259 (fun r c => if c <? 65 then (if within 48 57 c then st 523 else st 0) else (if 70 <? c then (if
        within 97 102 c then st 523 else st 0) else st 523));
  Tr 580 [u_mark] 524;
  Case 524 (fun r c => switch c [(33, st 523); (35, tr 559); (37, st 258); (46, st 525); (47, tr 560); (58,
        tr 561); (61, st 523); (63, tr 562); (95, st 523); (126, st 523)]
      (if c <? 65 then (if within 36 59 c then st 523 else st 0) else (if 90 <? c then (if within 97 122 c
        then st 523 else st 0) else st 523)));
  Case 525 (fun r c => switch c [(2, st 233); (33, st 523); (35, tr 559); (37, st 258); (47, tr 560); (48,
        st 526); (49, st 534); (50, st 536); (58, tr 561); (59, st 523); (61, st 523); (63, tr 562); (95,
        st 523); (126, st 523)]
      (if c <? 51 then (if within 36 46 c then st 523 else st 0) else (if 57 <? c then (if 90 <? c then (if
        within 97 122 c then st 523 else st 0) else (if 65 <=? c then st 523 else st 0)) else st 535)));
  Case 526 (fun r c => switch c [(33, st 523); (35, tr 559); (37, st 258); (46, st 527); (47, tr 560); (58,
        tr 561); (61, st 523); (63, tr 562); (95, st 523); (126, st 523)]
      (if c <? 65 then (if within 36 59 c then st 523 else st 0) else (if 90 <? c then (if within 97 122 c
        then st 523 else st 0) else st 523)));
  Case 527 (fun r c => switch c [(2, st 237); (33, st 523); (35, tr 559); (37, st 258); (47, tr 560); (48,
        st 528); (49, st 530); (50, st 532); (58, tr 561); (59, st 523); (61, st 523); (63, tr 562); (95,
        st 523); (126, st 523)]
      (if c <? 51 then (if within 36 46 c then st 523 else st 0) else (if 57 <? c then (if 90 <? c then (if
        within 97 122 c then st 523 else st 0) else (if 65 <=? c then st 523 else st 0)) else st 531)))
].

Definition uri_parser_6187 : list (block uri_action) := [
  Case 528 (fun r c => switch c [(33, st 523); (35, tr 559); (37, st 258); (46, st 529); (47, tr 560); (58,
        tr 561); (61, st 523); (63, tr 562); (95, st 523); (126, st 523)]
      (if c <? 65 then (if within 36 59 c then st 523 else st 0) else (if 90 <? c then (if within 97 122 c
        then st 523 else st 0) else st 523)));
  Case 529 (fun r c => switch c [(2, st 241); (33, st 523); (35, tr 559); (37, st 258); (47, tr 560); (58,
        tr 561); (61, st 523); (63, tr 562); (95, st 523); (126, st 523)]
      (if c <? 65 then (if within 36 59 c then st 523 else st 0) else (if 90 <? c then (if within 97 122 c
        then st 523 else st 0) else st 523)));
  Case 530 (fun r c => switch c [(33, st 523); (35, tr 559); (37, st 258); (46, st 529); (47, tr 560); (58,
        tr 561); (59, st 523); (61, st 523); (63, tr 562); (95, st 523); (126, st 523)]
      (if c <? 48 then (if within 36 45 c then st 523 else st 0) else (if 57 <? c then (if 90 <? c then (if
        within 97 122 c then st 523 else st 0) else (if 65 <=? c then st 523 else st 0)) else st 531)));
  Case 531 (fun r c => switch c [(33, st 523); (35, tr 559); (37, st 258); (46, st 529); (47, tr 560); (58,
        tr 561); (59, st 523); (61, st 523); (63, tr 562); (95, st 523); (126, st 523)]
      (if c <? 48 then (if within 36 45 c then st 523 else st 0) else (if 57 <? c then (if 90 <? c then (if
        within 97 122 c then st 523 else st 0) else (if 65 <=? c then st 523 else st 0)) else st 528)));
  Case 532 (fun r c => switch c [(33, st 523); (35, tr 559); (37, st 258); (46, st 529); (47, tr 560); (53,
        st 533); (58, tr 561); (59, st 523); (61, st 523); (63, tr 562); (95, st 523); (126, st 523)]
      (if c <? 48 then (if within 36 45 c then st 523 else st 0) else (if 57 <? c then (if 90 <? c then (if
        within 97 122 c then st 523 else st 0) else (if 65 <=? c then st 523 else st 0)) else st 528)))
].

Definition uri_parser_6325 : list (block uri_action) := [
  Case 533 (fun r c => switch c [(33, st 523); (35, tr 559); (37, st 258); (46, st 529); (47, tr 560); (58,
        tr 561); (61, st 523); (63, tr 562); (95, st 523); (126, st 523)]
      (if c <? 54 then (if 45 <? c then (if within 48 53 c then st 528 else st 0) else (if 36 <=? c then
        st 523 else st 0)) else (if 59 <? c then (if 90 <? c then (if within 97 122 c then st 523 else st 0)
        else (if 65 <=? c then st 523 else st 0)) else st 523)));
  Case 534 (fun r c => switch c [(33, st 523); (35, tr 559); (37, st 258); (46, st 527); (47, tr 560); (58,
        tr 561); (59, st 523); (61, st 523); (63, tr 562); (95, st 523); (126, st 523)]
      (if c <? 48 then (if within 36 45 c then st 523 else st 0) else (if 57 <? c then (if 90 <? c then (if
        within 97 122 c then st 523 else st 0) else (if 65 <=? c then st 523 else st 0)) else st 535)));
  Case 535 (fun r c => switch c [(33, st 523); (35, tr 559); (37, st 258); (46, st 527); (47, tr 560); (58,
        tr 561); (59, st 523); (61, st 523); (63, tr 562); (95, st 523); (126, st 523)]
      (if c <? 48 then (if within 36 45 c then st 523 else st 0) else (if 57 <? c then (if 90 <? c then (if
        within 97 122 c then st 523 else st 0) else (if 65 <=? c then st 523 else st 0)) else st 526)));
  Case 536 (fun r c => switch c [(33, st 523); (35, tr 559); (37, st 258); (46, st 527); (47, tr 560); (53,
        st 537); (58, tr 561); (59, st 523); (61, st 523); (63, tr 562); (95, st 523); (126, st 523)]
      (if c <? 48 then (if within 36 45 c then st 523 else st 0) else (if 57 <? c then (if 90 <? c then (if
        within 97 122 c then st 523 else st 0) else (if 65 <=? c then st 523 else st 0)) else st 526)))
].

Definition uri_parser_6444 : list (block uri_action) := [
  Case 537 (fun r c => switch c [(33, st 523); (35, tr 559); (37, st 258); (46, st 527); (47, tr 560); (58,
        tr 561); (61, st 523); (63, tr 562); (95, st 523); (126, st 523)]
      (if c <? 54 then (if 45 <? c then (if within 48 53 c then st 526 else st 0) else (if 36 <=? c then
        st 523 else st 0)) else (if 59 <? c then (if 90 <? c then (if within 97 122 c then st 523 else st 0)
        else (if 65 <=? c then st 523 else st 0)) else st 523)));
  Tr 581 [u_mark] 538;
  Case 538 (fun r c => switch c [(33, st 523); (35, tr 559); (37, st 258); (46, st 525); (47, tr 560); (58,
        tr 561); (59, st 523); (61, st 523); (63, tr 562); (95, st 523); (126, st 523)]
      (if c <? 48 then (if within 36 45 c then st 523 else st 0) else (if 57 <? c then (if 90 <? c then (if
        within 97 122 c then st 523 else st 0) else (if 65 <=? c then st 523 else st 0)) else st 539)));
  Tr 583 [u_mark] 539;
  Case 539 (fun r c => switch c [(33, st 523); (35, tr 559); (37, st 258); (46, st 525); (47, tr 560); (58,
        tr 561); (59, st 523); (61, st 523); (63, tr 562); (95, st 523); (126, st 523)]
      (if c <? 48 then (if within 36 45 c then st 523 else st 0) else (if 57 <? c then (if 90 <? c then (if
        within 97 122 c then st 523 else st 0) else (if 65 <=? c then st 523 else st 0)) else st 524)));
  Tr 582 [u_mark] 540;
  Case 540 (fun r c => switch c [(33, st 523); (35, tr 559); (37, st 258); (46, st 525); (47, tr 560); (53,
        st 541); (58, tr 561); (59, st 523); (61, st 523); (63, tr 562); (95, st 523); (126, st 523)]
      (if c <? 48 then (if within 36 45 c then st 523 else st 0) else (if 57 <? c then (if 90 <? c then (if
        within 97 122 c then st 523 else st 0) else (if 65 <=? c then st 523 else st 0)) else st 524)))
].

Definition uri_parser_6578 : list (block uri_action) := [
  Case 541 (fun r c => switch c [(33, st 523); (35, tr 559); (37, st 258); (46, st 525); (47, tr 560); (58,
        tr 561); (61, st 523); (63, tr 562); (95, st 523); (126, st 523)]
      (if c <? 54 then (if 45 <? c then (if within 48 53 c then st 524 else st 0) else (if 36 <=? c then
        st 523 else st 0)) else (if 59 <? c then (if 90 <? c then (if within 97 122 c then st 523 else st 0)
        else (if 65 <=? c then st 523 else st 0)) else st 523)));
  Tr 558 [u_mark] 260;
  Case 260 (fun r c => switch c [(58, st 368); (118, st 447)]
      (if c <? 65 then (if within 48 57 c then st 261 else st 0) else (if 70 <? c then (if within 97 102 c
        then st 261 else st 0) else st 261)));
  Case 261 (fun r c => if c =? 58 then st 265 else (if c <? 65 then (if within 48 57 c then st 262 else st 0)
        else (if 70 <? c then (if within 97 102 c then st 262 else st 0) else st 262)));
  Case 262 (fun r c => if c =? 58 then st 265 else (if c <? 65 then (if within 48 57 c then st 263 else st 0)
        else (if 70 <? c then (if within 97 102 c then st 263 else st 0) else st 263)));
  Case 263 (fun r c => if c =? 58 then st 265 else (if c <? 65 then (if within 48 57 c then st 264 else st 0)
        else (if 70 <? c then (if within 97 102 c then st 264 else st 0) else st 264)));
  Case 264 (fun r c => if c =? 58 then st 265 else st 0);
  Case 265 (fun r c => if c =? 58 then st 363 else (if c <? 65 then (if within 48 57 c then st 266 else st 0)
        else (if 70 <? c then (if within 97 102 c then st 266 else st 0) else st 266)));
  Case 266 (fun r c => if c =? 58 then st 270 else (if c <? 65 then (if within 48 57 c then st 267 else st 0)
        else (if 70 <? c then (if within 97 102 c then st 267 else st 0) else st 267)))
].

Definition uri_parser_6713 : list (block uri_action) := [
  Case 267 (fun r c => if c =? 58 then st 270 else (if c <? 65 then (if within 48 57 c then st 268 else st 0)
        else (if 70 <? c then (if within 97 102 c then st 268 else st 0) else st 268)));
  Case 268 (fun r c => if c =? 58 then st 270 else (if c <? 65 then (if within 48 57 c then st 269 else st 0)
        else (if 70 <? c then (if within 97 102 c then st 269 else st 0) else st 269)));
  Case 269 (fun r c => if c =? 58 then st 270 else st 0);
  Case 270 (fun r c => if c =? 58 then st 358 else (if c <? 65 then (if within 48 57 c then st 271 else st 0)
        else (if 70 <? c then (if within 97 102 c then st 271 else st 0) else st 271)));
  Case 271 (fun r c => if c =? 58 then st 275 else (if c <? 65 then (if within 48 57 c then st 272 else st 0)
        else (if 70 <? c then (if within 97 102 c then st 272 else st 0) else st 272)));
  Case 272 (fun r c => if c =? 58 then st 275 else (if c <? 65 then (if within 48 57 c then st 273 else st 0)
        else (if 70 <? c then (if within 97 102 c then st 273 else st 0) else st 273)));
  Case 273 (fun r c => if c =? 58 then st 275 else (if c <? 65 then (if within 48 57 c then st 274 else st 0)
        else (if 70 <? c then (if within 97 102 c then st 274 else st 0) else st 274)));
  Case 274 (fun r c => if c =? 58 then st 275 else st 0);
  Case 275 (fun r c => if c =? 58 then st 353 else (if c <? 65 then (if within 48 57 c then st 276 else st 0)
        else (if 70 <? c then (if within 97 102 c then st 276 else st 0) else st 276)));
  Case 276 (fun r c => if c =? 58 then st 280 else (if c <? 65 then (if within 48 57 c then st 277 else st 0)
        else (if 70 <? c then (if within 97 102 c then st 277 else st 0) else st 277)))
].

Definition uri_parser_6847 : list (block uri_action) := [
  Case 277 (fun r c => if c =? 58 then st 280 else (if c <? 65 then (if within 48 57 c then st 278 else st 0)
        else (if 70 <? c then (if within 97 102 c then st 278 else st 0) else st 278)));
  Case 278 (fun r c => if c =? 58 then st 280 else (if c <? 65 then (if within 48 57 c then st 279 else st 0)
        else (if 70 <? c then (if within 97 102 c then st 279 else st 0) else st 279)));
  Case 279 (fun r c => if c =? 58 then st 280 else st 0);
  Case 280 (fun r c => if c =? 58 then st 348 else (if c <? 65 then (if within 48 57 c then st 281 else st 0)
        else (if 70 <? c then (if within 97 102 c then st 281 else st 0) else st 281)));
  Case 281 (fun r c => if c =? 58 then st 285 else (if c <? 65 then (if within 48 57 c then st 282 else st 0)
        else (if 70 <? c then (if within 97 102 c then st 282 else st 0) else st 282)));
  Case 282 (fun r c => if c =? 58 then st 285 else (if c <? 65 then (if within 48 57 c then st 283 else st 0)
        else (if 70 <? c then (if within 97 102 c then st 283 else st 0) else st 283)));
  Case 283 (fun r c => if c =? 58 then st 285 else (if c <? 65 then (if within 48 57 c then st 284 else st 0)
        else (if 70 <? c then (if within 97 102 c then st 284 else st 0) else st 284)));
  Case 284 (fun r c => if c =? 58 then st 285 else st 0);
  Case 285 (fun r c => if c =? 58 then st 335 else (if c <? 65 then (if within 48 57 c then st 286 else st 0)
        else (if 70 <? c then (if within 97 102 c then st 286 else st 0) else st 286)));
  Case 286 (fun r c => if c =? 58 then st 290 else (if c <? 65 then (if within 48 57 c then st 287 else st 0)
        else (if 70 <? c then (if within 97 102 c then st 287 else st 0) else st 287)))
].

Definition uri_parser_6981 : list (block uri_action) := [
  Case 287 (fun r c => if c =? 58 then st 290 else (if c <? 65 then (if within 48 57 c then st 288 else st 0)
        else (if 70 <? c then (if within 97 102 c then st 288 else st 0) else st 288)));
  Case 288 (fun r c => if c =? 58 then st 290 else (if c <? 65 then (if within 48 57 c then st 289 else st 0)
        else (if 70 <? c then (if within 97 102 c then st 289 else st 0) else st 289)));
  Case 289 (fun r c => if c =? 58 then st 290 else st 0);
  Case 290 (fun r c => switch c [(2, st 291); (48, st 318); (49, st 326); (50, st 329); (58, st 333)]
      (if c <? 65 then (if within 51 57 c then st 332 else st 0) else (if 70 <? c then (if within 97 102 c
        then st 334 else st 0) else st 334)));
  Case 291 (fun r c => if within 48 52 c then st 292 else st 0);
  Case 292 (fun r c => if within 48 57 c then st 293 else st 0);
  Case 293 (fun r c => if c =? 46 then st 294 else st 0);
  Case 294 (fun r c => switch c [(2, st 295); (48, st 297); (49, st 314); (50, st 316)]
      (if within 51 57 c then st 315 else st 0));
  Case 295 (fun r c => if within 48 52 c then st 296 else st 0);
  Case 296 (fun r c => if within 48 57 c then st 297 else st 0);
  Case 297 (fun r c => if c =? 46 then st 298 else st 0);
  Case 298 (fun r c => switch c [(2, st 299); (48, st 301); (49, st 310); (50, st 312)]
      (if within 51 57 c then st 311 else st 0));
  Case 299 (fun r c => if within 48 52 c then st 300 else st 0);
  Case 300 (fun r c => if within 48 57 c then st 301 else st 0)
].

Definition uri_parser_7120 : list (block uri_action) := [
  Case 301 (fun r c => if c =? 46 then st 302 else st 0);
  Case 302 (fun r c => switch c [(2, st 303); (48, st 305); (49, st 306); (50, st 308)]
      (if within 51 57 c then st 307 else st 0));
  Case 303 (fun r c => if within 48 52 c then st 304 else st 0);
  Case 304 (fun r c => if within 48 57 c then st 305 else st 0);
  Case 305 (fun r c => if c =? 93 then st 512 else st 0);
  Case 306 (fun r c => if c =? 93 then st 512 else (if within 48 57 c then st 307 else st 0));
  Case 307 (fun r c => if c =? 93 then st 512 else (if within 48 57 c then st 305 else st 0));
  Case 308 (fun r c => switch c [(53, st 309); (93, st 512)]
      (if within 48 57 c then st 305 else st 0));
  Case 309 (fun r c => if c =? 93 then st 512 else (if within 48 53 c then st 305 else st 0));
  Case 310 (fun r c => if c =? 46 then st 302 else (if within 48 57 c then st 311 else st 0));
  Case 311 (fun r c => if c =? 46 then st 302 else (if within 48 57 c then st 301 else st 0));
  Case 312 (fun r c => switch c [(46, st 302); (53, st 313)]
      (if within 48 57 c then st 301 else st 0));
  Case 313 (fun r c => if c =? 46 then st 302 else (if within 48 53 c then st 301 else st 0));
  Case 314 (fun r c => if c =? 46 then st 298 else (if within 48 57 c then st 315 else st 0));
  Case 315 (fun r c => if c =? 46 then st 298 else (if within 48 57 c then st 297 else st 0))
].

Definition uri_parser_7255 : list (block uri_action) := [
  Case 316 (fun r c => switch c [(46, st 298); (53, st 317)]
      (if within 48 57 c then st 297 else st 0));
  Case 317 (fun r c => if c =? 46 then st 298 else (if within 48 53 c then st 297 else st 0));
  Case 318 (fun r c => switch c [(46, st 294); (58, st 322)]
      (if c <? 65 then (if within 48 57 c then st 319 else st 0) else (if 70 <? c then (if within 97 102 c
        then st 319 else st 0) else st 319)));
  Case 319 (fun r c => if c =? 58 then st 322 else (if c <? 65 then (if within 48 57 c then st 320 else st 0)
        else (if 70 <? c then (if within 97 102 c then st 320 else st 0) else st 320)));
  Case 320 (fun r c => if c =? 58 then st 322 else (if c <? 65 then (if within 48 57 c then st 321 else st 0)
        else (if 70 <? c then (if within 97 102 c then st 321 else st 0) else st 321)));
  Case 321 (fun r c => if c =? 58 then st 322 else st 0);
  Case 322 (fun r c => if c =? 58 then st 305 else (if c <? 65 then (if within 48 57 c then st 323 else st 0)
        else (if 70 <? c then (if within 97 102 c then st 323 else st 0) else st 323)));
  Case 323 (fun r c => if c =? 93 then st 512 else (if c <? 65 then (if within 48 57 c then st 324 else st 0)
        else (if 70 <? c then (if within 97 102 c then st 324 else st 0) else st 324)));
  Case 324 (fun r c => if c =? 93 then st 512 else (if c <? 65 then (if within 48 57 c then st 325 else st 0)
        else (if 70 <? c then (if within 97 102 c then st 325 else st 0) else st 325)));
  Case 325 (fun r c => if c =? 93 then st 512 else (if c <? 65 then (if within 48 57 c then st 305 else st 0)
        else (if 70 <? c then (if within 97 102 c then st 305 else st 0) else st 305)))
].

Definition uri_parser_7389 : list (block uri_action) := [
  Case 326 (fun r c => switch c [(46, st 294); (58, st 322)]
      (if c <? 65 then (if within 48 57 c then st 327 else st 0) else (if 70 <? c then (if within 97 102 c
        then st 319 else st 0) else st 319)));
  Case 327 (fun r c => switch c [(46, st 294); (58, st 322)]
      (if c <? 65 then (if within 48 57 c then st 328 else st 0) else (if 70 <? c then (if within 97 102 c
        then st 320 else st 0) else st 320)));
  Case 328 (fun r c => switch c [(46, st 294); (58, st 322)]
      (if c <? 65 then (if within 48 57 c then st 321 else st 0) else (if 70 <? c then (if within 97 102 c
        then st 321 else st 0) else st 321)));
  Case 329 (fun r c => switch c [(46, st 294); (53, st 331); (58, st 322)]
      (if c <? 65 then (if within 48 57 c then st 330 else st 0) else (if 70 <? c then (if within 97 102 c
        then st 319 else st 0) else st 319)));
  Case 330 (fun r c => switch c [(46, st 294); (58, st 322)]
      (if c <? 65 then (if within 48 57 c then st 320 else st 0) else (if 70 <? c then (if within 97 102 c
        then st 320 else st 0) else st 320)));
  Case 331 (fun r c => switch c [(46, st 294); (58, st 322)]
      (if c <? 54 then (if within 48 53 c then st 328 else st 0) else (if 57 <? c then (if 70 <? c then (if
        within 97 102 c then st 320 else st 0) else (if 65 <=? c then st 320 else st 0)) else st 320)));
  Case 332 (fun r c => switch c [(46, st 294); (58, st 322)]
      (if c <? 65 then (if within 48 57 c then st 330 else st 0) else (if 70 <? c then (if within 97 102 c
        then st 319 else st 0) else st 319)));
  Case 333 (fun r c => if c <? 65 then (if within 48 57 c then st 323 else st 0) else (if 70 <? c then (if
        within 97 102 c then st 323 else st 0) else st 323))
].

Definition uri_parser_7525 : list (block uri_action) := [
  Case 334 (fun r c => if c =? 58 then st 322 else (if c <? 65 then (if within 48 57 c then st 319 else st 0)
        else (if 70 <? c then (if within 97 102 c then st 319 else st 0) else st 319)));
  Case 335 (fun r c => switch c [(2, st 291); (48, st 336); (49, st 340); (50, st 343)]
      (if c <? 65 then (if within 51 57 c then st 346 else st 0) else (if 70 <? c then (if within 97 102 c
        then st 347 else st 0) else st 347)));
  Case 336 (fun r c => switch c [(46, st 294); (58, st 333)]
      (if c <? 65 then (if within 48 57 c then st 337 else st 0) else (if 70 <? c then (if within 97 102 c
        then st 337 else st 0) else st 337)));
  Case 337 (fun r c => if c =? 58 then st 333 else (if c <? 65 then (if within 48 57 c then st 338 else st 0)
        else (if 70 <? c then (if within 97 102 c then st 338 else st 0) else st 338)));
  Case 338 (fun r c => if c =? 58 then st 333 else (if c <? 65 then (if within 48 57 c then st 339 else st 0)
        else (if 70 <? c then (if within 97 102 c then st 339 else st 0) else st 339)));
  Case 339 (fun r c => if c =? 58 then st 333 else st 0);
  Case 340 (fun r c => switch c [(46, st 294); (58, st 333)]
      (if c <? 65 then (if within 48 57 c then st 341 else st 0) else (if 70 <? c then (if within 97 102 c
        then st 337 else st 0) else st 337)));
  Case 341 (fun r c => switch c [(46, st 294); (58, st 333)]
      (if c <? 65 then (if within 48 57 c then st 342 else st 0) else (if 70 <? c then (if within 97 102 c
        then st 338 else st 0) else st 338)));
  Case 342 (fun r c => switch c [(46, st 294); (58, st 333)]
      (if c <? 65 then (if within 48 57 c then st 339 else st 0) else (if 70 <? c then (if within 97 102 c
        then st 339 else st 0) else st 339)))
].

Definition uri_parser_7664 : list (block uri_action) := [
  Case 343 (fun r c => switch c [(46, st 294); (53, st 345); (58, st 333)]
      (if c <? 65 then (if within 48 57 c then st 344 else st 0) else (if 70 <? c then (if within 97 102 c
        then st 337 else st 0) else st 337)));
  Case 344 (fun r c => switch c [(46, st 294); (58, st 333)]
      (if c <? 65 then (if within 48 57 c then st 338 else st 0) else (if 70 <? c then (if within 97 102 c
        then st 338 else st 0) else st 338)));
  Case 345 (fun r c => switch c [(46, st 294); (58, st 333)]
      (if c <? 54 then (if within 48 53 c then st 342 else st 0) else (if 57 <? c then (if 70 <? c then (if
        within 97 102 c then st 338 else st 0) else (if 65 <=? c then st 338 else st 0)) else st 338)));
  Case 346 (fun r c => switch c [(46, st 294); (58, st 333)]
      (if c <? 65 then (if within 48 57 c then st 344 else st 0) else (if 70 <? c then (if within 97 102 c
        then st 337 else st 0) else st 337)));
  Case 347 (fun r c => if c =? 58 then st 333 else (if c <? 65 then (if within 48 57 c then st 337 else st 0)
        else (if 70 <? c then (if within 97 102 c then st 337 else st 0) else st 337)));
  Case 348 (fun r c => if c <? 65 then (if within 48 57 c then st 349 else st 0) else (if 70 <? c then (if
        within 97 102 c then st 349 else st 0) else st 349));
  Case 349 (fun r c => if c =? 58 then st 335 else (if c <? 65 then (if within 48 57 c then st 350 else st 0)
        else (if 70 <? c then (if within 97 102 c then st 350 else st 0) else st 350)));
  Case 350 (fun r c => if c =? 58 then st 335 else (if c <? 65 then (if within 48 57 c then st 351 else st 0)
        else (if 70 <? c then (if within 97 102 c then st 351 else st 0) else st 351)))
].

Definition uri_parser_7794 : list (block uri_action) := [
  Case 351 (fun r c => if c =? 58 then st 335 else (if c <? 65 then (if within 48 57 c then st 352 else st 0)
        else (if 70 <? c then (if within 97 102 c then st 352 else st 0) else st 352)));
  Case 352 (fun r c => if c =? 58 then st 335 else st 0);
  Case 353 (fun r c => if c <? 65 then (if within 48 57 c then st 354 else st 0) else (if 70 <? c then (if
        within 97 102 c then st 354 else st 0) else st 354));
  Case 354 (fun r c => if c =? 58 then st 348 else (if c <? 65 then (if within 48 57 c then st 355 else st 0)
        else (if 70 <? c then (if within 97 102 c then st 355 else st 0) else st 355)));
  Case 355 (fun r c => if c =? 58 then st 348 else (if c <? 65 then (if within 48 57 c then st 356 else st 0)
        else (if 70 <? c then (if within 97 102 c then st 356 else st 0) else st 356)));
  Case 356 (fun r c => if c =? 58 then st 348 else (if c <? 65 then (if within 48 57 c then st 357 else st 0)
        else (if 70 <? c then (if within 97 102 c then st 357 else st 0) else st 357)));
  Case 357 (fun r c => if c =? 58 then st 348 else st 0);
  Case 358 (fun r c => if c <? 65 then (if within 48 57 c then st 359 else st 0) else (if 70 <? c then (if
        within 97 102 c then st 359 else st 0) else st 359));
  Case 359 (fun r c => if c =? 58 then st 353 else (if c <? 65 then (if within 48 57 c then st 360 else st 0)
        else (if 70 <? c then (if within 97 102 c then st 360 else st 0) else st 360)));
  Case 360 (fun r c => if c =? 58 then st 353 else (if c <? 65 then (if within 48 57 c then st 361 else st 0)
        else (if 70 <? c then (if within 97 102 c then st 361 else st 0) else st 361)))
].

Definition uri_parser_7924 : list (block uri_action) := [
  Case 361 (fun r c => if c =? 58 then st 353 else (if c <? 65 then (if within 48 57 c then st 362 else st 0)
        else (if 70 <? c then (if within 97 102 c then st 362 else st 0) else st 362)));
  Case 362 (fun r c => if c =? 58 then st 353 else st 0);
  Case 363 (fun r c => if c <? 65 then (if within 48 57 c then st 364 else st 0) else (if 70 <? c then (if
        within 97 102 c then st 364 else st 0) else st 364));
  Case 364 (fun r c => if c =? 58 then st 358 else (if c <? 65 then (if within 48 57 c then st 365 else st 0)
        else (if 70 <? c then (if within 97 102 c then st 365 else st 0) else st 365)));
  Case 365 (fun r c => if c =? 58 then st 358 else (if c <? 65 then (if within 48 57 c then st 366 else st 0)
        else (if 70 <? c then (if within 97 102 c then st 366 else st 0) else st 366)));
  Case 366 (fun r c => if c =? 58 then st 358 else (if c <? 65 then (if within 48 57 c then st 367 else st 0)
        else (if 70 <? c then (if within 97 102 c then st 367 else st 0) else st 367)));
  Case 367 (fun r c => if c =? 58 then st 358 else st 0);
  Case 368 (fun r c => if c =? 58 then st 369 else st 0);
  Case 369 (fun r c => switch c [(2, st 291); (48, st 370); (49, st 439); (50, st 442); (93, st 512)]
      (if c <? 65 then (if within 51 57 c then st 445 else st 0) else (if 70 <? c then (if within 97 102 c
        then st 446 else st 0) else st 446)));
  Case 370 (fun r c => switch c [(46, st 294); (58, st 374); (93, st 512)]
      (if c <? 65 then (if within 48 57 c then st 371 else st 0) else (if 70 <? c then (if within 97 102 c
        then st 371 else st 0) else st 371)))
].

Definition uri_parser_8056 : list (block uri_action) := [
  Case 371 (fun r c => switch c [(58, st 374); (93, st 512)]
      (if c <? 65 then (if within 48 57 c then st 372 else st 0) else (if 70 <? c then (if within 97 102 c
        then st 372 else st 0) else st 372)));
  Case 372 (fun r c => switch c [(58, st 374); (93, st 512)]
      (if c <? 65 then (if within 48 57 c then st 373 else st 0) else (if 70 <? c then (if within 97 102 c
        then st 373 else st 0) else st 373)));
  Case 373 (fun r c => switch c [(58, st 374); (93, st 512)]
      (st 0));
  Case 374 (fun r c => switch c [(2, st 291); (48, st 375); (49, st 431); (50, st 434)]
      (if c <? 65 then (if within 51 57 c then st 437 else st 0) else (if 70 <? c then (if within 97 102 c
        then st 438 else st 0) else st 438)));
  Case 375 (fun r c => switch c [(46, st 294); (58, st 379); (93, st 512)]
      (if c <? 65 then (if within 48 57 c then st 376 else st 0) else (if 70 <? c then (if within 97 102 c
        then st 376 else st 0) else st 376)));
  Case 376 (fun r c => switch c [(58, st 379); (93, st 512)]
      (if c <? 65 then (if within 48 57 c then st 377 else st 0) else (if 70 <? c then (if within 97 102 c
        then st 377 else st 0) else st 377)));
  Case 377 (fun r c => switch c [(58, st 379); (93, st 512)]
      (if c <? 65 then (if within 48 57 c then st 378 else st 0) else (if 70 <? c then (if within 97 102 c
        then st 378 else st 0) else st 378)));
  Case 378 (fun r c => switch c [(58, st 379); (93, st 512)]
      (st 0))
].

Definition uri_parser_8179 : list (block uri_action) := [
  Case 379 (fun r c => switch c [(2, st 291); (48, st 380); (49, st 423); (50, st 426)]
      (if c <? 65 then (if within 51 57 c then st 429 else st 0) else (if 70 <? c then (if within 97 102 c
        then st 430 else st 0) else st 430)));
  Case 380 (fun r c => switch c [(46, st 294); (58, st 384); (93, st 512)]
      (if c <? 65 then (if within 48 57 c then st 381 else st 0) else (if 70 <? c then (if within 97 102 c
        then st 381 else st 0) else st 381)));
  Case 381 (fun r c => switch c [(58, st 384); (93, st 512)]
      (if c <? 65 then (if within 48 57 c then st 382 else st 0) else (if 70 <? c then (if within 97 102 c
        then st 382 else st 0) else st 382)));
  Case 382 (fun r c => switch c [(58, st 384); (93, st 512)]
      (if c <? 65 then (if within 48 57 c then st 383 else st 0) else (if 70 <? c then (if within 97 102 c
        then st 383 else st 0) else st 383)));
  Case 383 (fun r c => switch c [(58, st 384); (93, st 512)]
      (st 0));
  Case 384 (fun r c => switch c [(2, st 291); (48, st 385); (49, st 415); (50, st 418)]
      (if c <? 65 then (if within 51 57 c then st 421 else st 0) else (if 70 <? c then (if within 97 102 c
        then st 422 else st 0) else st 422)));
  Case 385 (fun r c => switch c [(46, st 294); (58, st 389); (93, st 512)]
      (if c <? 65 then (if within 48 57 c then st 386 else st 0) else (if 70 <? c then (if within 97 102 c
        then st 386 else st 0) else st 386)));
  Case 386 (fun r c => switch c [(58, st 389); (93, st 512)]
      (if c <? 65 then (if within 48 57 c then st 387 else st 0) else (if 70 <? c then (if within 97 102 c
        then st 387 else st 0) else st 387)))
].

Definition uri_parser_8313 : list (block uri_action) := [
  Case 387 (fun r c => switch c [(58, st 389); (93, st 512)]
      (if c <? 65 then (if within 48 57 c then st 388 else st 0) else (if 70 <? c then (if within 97 102 c
        then st 388 else st 0) else st 388)));
  Case 388 (fun r c => switch c [(58, st 389); (93, st 512)]
      (st 0));
  Case 389 (fun r c => switch c [(2, st 291); (48, st 390); (49, st 407); (50, st 410)]
      (if c <? 65 then (if within 51 57 c then st 413 else st 0) else (if 70 <? c then (if within 97 102 c
        then st 414 else st 0) else st 414)));
  Case 390 (fun r c => switch c [(46, st 294); (58, st 394); (93, st 512)]
      (if c <? 65 then (if within 48 57 c then st 391 else st 0) else (if 70 <? c then (if within 97 102 c
        then st 391 else st 0) else st 391)));
  Case 391 (fun r c => switch c [(58, st 394); (93, st 512)]
      (if c <? 65 then (if within 48 57 c then st 392 else st 0) else (if 70 <? c then (if within 97 102 c
        then st 392 else st 0) else st 392)));
  Case 392 (fun r c => switch c [(58, st 394); (93, st 512)]
      (if c <? 65 then (if within 48 57 c then st 393 else st 0) else (if 70 <? c then (if within 97 102 c
        then st 393 else st 0) else st 393)));
  Case 393 (fun r c => switch c [(58, st 394); (93, st 512)]
      (st 0));
  Case 394 (fun r c => switch c [(2, st 291); (48, st 395); (49, st 399); (50, st 402)]
      (if c <? 65 then (if within 51 57 c then st 405 else st 0) else (if 70 <? c then (if within 97 102 c
        then st 406 else st 0) else st 406)))
].

Definition uri_parser_8438 : list (block uri_action) := [
  Case 395 (fun r c => switch c [(46, st 294); (58, st 333); (93, st 512)]
      (if c <? 65 then (if within 48 57 c then st 396 else st 0) else (if 70 <? c then (if within 97 102 c
        then st 396 else st 0) else st 396)));
  Case 396 (fun r c => switch c [(58, st 333); (93, st 512)]
      (if c <? 65 then (if within 48 57 c then st 397 else st 0) else (if 70 <? c then (if within 97 102 c
        then st 397 else st 0) else st 397)));
  Case 397 (fun r c => switch c [(58, st 333); (93, st 512)]
      (if c <? 65 then (if within 48 57 c then st 398 else st 0) else (if 70 <? c then (if within 97 102 c
        then st 398 else st 0) else st 398)));
  Case 398 (fun r c => switch c [(58, st 333); (93, st 512)]
      (st 0));
  Case 399 (fun r c => switch c [(46, st 294); (58, st 333); (93, st 512)]
      (if c <? 65 then (if within 48 57 c then st 400 else st 0) else (if 70 <? c then (if within 97 102 c
        then st 396 else st 0) else st 396)));
  Case 400 (fun r c => switch c [(46, st 294); (58, st 333); (93, st 512)]
      (if c <? 65 then (if within 48 57 c then st 401 else st 0) else (if 70 <? c then (if within 97 102 c
        then st 397 else st 0) else st 397)));
  Case 401 (fun r c => switch c [(46, st 294); (58, st 333); (93, st 512)]
      (if c <? 65 then (if within 48 57 c then st 398 else st 0) else (if 70 <? c then (if within 97 102 c
        then st 398 else st 0) else st 398)));
  Case 402 (fun r c => switch c [(46, st 294); (53, st 404); (58, st 333); (93, st 512)]
      (if c <? 65 then (if within 48 57 c then st 403 else st 0) else (if 70 <? c then (if within 97 102 c
        then st 396 else st 0) else st 396)))
].

Definition uri_parser_8572 : list (block uri_action) := [
  Case 403 (fun r c => switch c [(46, st 294); (58, st 333); (93, st 512)]
      (if c <? 65 then (if within 48 57 c then st 397 else st 0) else (if 70 <? c then (if within 97 102 c
        then st 397 else st 0) else st 397)));
  Case 404 (fun r c => switch c [(46, st 294); (58, st 333); (93, st 512)]
      (if c <? 54 then (if within 48 53 c then st 401 else st 0) else (if 57 <? c then (if 70 <? c then (if
        within 97 102 c then st 397 else st 0) else (if 65 <=? c then st 397 else st 0)) else st 397)));
  Case 405 (fun r c => switch c [(46, st 294); (58, st 333); (93, st 512)]
      (if c <? 65 then (if within 48 57 c then st 403 else st 0) else (if 70 <? c then (if within 97 102 c
        then st 396 else st 0) else st 396)));
  Case 406 (fun r c => switch c [(58, st 333); (93, st 512)]
      (if c <? 65 then (if within 48 57 c then st 396 else st 0) else (if 70 <? c then (if within 97 102 c
        then st 396 else st 0) else st 396)));
  Case 407 (fun r c => switch c [(46, st 294); (58, st 394); (93, st 512)]
      (if c <? 65 then (if within 48 57 c then st 408 else st 0) else (if 70 <? c then (if within 97 102 c
        then st 391 else st 0) else st 391)));
  Case 408 (fun r c => switch c [(46, st 294); (58, st 394); (93, st 512)]
      (if c <? 65 then (if within 48 57 c then st 409 else st 0) else (if 70 <? c then (if within 97 102 c
        then st 392 else st 0) else st 392)));
  Case 409 (fun r c => switch c [(46, st 294); (58, st 394); (93, st 512)]
      (if c <? 65 then (if within 48 57 c then st 393 else st 0) else (if 70 <? c then (if within 97 102 c
        then st 393 else st 0) else st 393)))
].

Definition uri_parser_8700 : list (block uri_action) := [
  Case 410 (fun r c => switch c [(46, st 294); (53, st 412); (58, st 394); (93, st 512)]
      (if c <? 65 then (if within 48 57 c then st 411 else st 0) else (if 70 <? c then (if within 97 102 c
        then st 391 else st 0) else st 391)));
  Case 411 (fun r c => switch c [(46, st 294); (58, st 394); (93, st 512)]
      (if c <? 65 then (if within 48 57 c then st 392 else st 0) else (if 70 <? c then (if within 97 102 c
        then st 392 else st 0) else st 392)));
  Case 412 (fun r c => switch c [(46, st 294); (58, st 394); (93, st 512)]
      (if c <? 54 then (if within 48 53 c then st 409 else st 0) else (if 57 <? c then (if 70 <? c then (if
        within 97 102 c then st 392 else st 0) else (if 65 <=? c then st 392 else st 0)) else st 392)));
  Case 413 (fun r c => switch c [(46, st 294); (58, st 394); (93, st 512)]
      (if c <? 65 then (if within 48 57 c then st 411 else st 0) else (if 70 <? c then (if within 97 102 c
        then st 391 else st 0) else st 391)));
  Case 414 (fun r c => switch c [(58, st 394); (93, st 512)]
      (if c <? 65 then (if within 48 57 c then st 391 else st 0) else (if 70 <? c then (if within 97 102 c
        then st 391 else st 0) else st 391)));
  Case 415 (fun r c => switch c [(46, st 294); (58, st 389); (93, st 512)]
      (if c <? 65 then (if within 48 57 c then st 416 else st 0) else (if 70 <? c then (if within 97 102 c
        then st 386 else st 0) else st 386)));
  Case 416 (fun r c => switch c [(46, st 294); (58, st 389); (93, st 512)]
      (if c <? 65 then (if within 48 57 c then st 417 else st 0) else (if 70 <? c then (if within 97 102 c
        then st 387 else st 0) else st 387)))
].

Definition uri_parser_8829 : list (block uri_action) := [
  Case 417 (fun r c => switch c [(46, st 294); (58, st 389); (93, st 512)]
      (if c <? 65 then (if within 48 57 c then st 388 else st 0) else (if 70 <? c then (if within 97 102 c
        then st 388 else st 0) else st 388)));
  Case 418 (fun r c => switch c [(46, st 294); (53, st 420); (58, st 389); (93, st 512)]
      (if c <? 65 then (if within 48 57 c then st 419 else st 0) else (if 70 <? c then (if within 97 102 c
        then st 386 else st 0) else st 386)));
  Case 419 (fun r c => switch c [(46, st 294); (58, st 389); (93, st 512)]
      (if c <? 65 then (if within 48 57 c then st 387 else st 0) else (if 70 <? c then (if within 97 102 c
        then st 387 else st 0) else st 387)));
  Case 420 (fun r c => switch c [(46, st 294); (58, st 389); (93, st 512)]
      (if c <? 54 then (if within 48 53 c then st 417 else st 0) else (if 57 <? c then (if 70 <? c then (if
        within 97 102 c then st 387 else st 0) else (if 65 <=? c then st 387 else st 0)) else st 387)));
  Case 421 (fun r c => switch c [(46, st 294); (58, st 389); (93, st 512)]
      (if c <? 65 then (if within 48 57 c then st 419 else st 0) else (if 70 <? c then (if within 97 102 c
        then st 386 else st 0) else st 386)));
  Case 422 (fun r c => switch c [(58, st 389); (93, st 512)]
      (if c <? 65 then (if within 48 57 c then st 386 else st 0) else (if 70 <? c then (if within 97 102 c
        then st 386 else st 0) else st 386)));
  Case 423 (fun r c => switch c [(46, st 294); (58, st 384); (93, st 512)]
      (if c <? 65 then (if within 48 57 c then st 424 else st 0) else (if 70 <? c then (if within 97 102 c
        then st 381 else st 0) else st 381)))
].

Definition uri_parser_8958 : list (block uri_action) := [
  Case 424 (fun r c => switch c [(46, st 294); (58, st 384); (93, st 512)]
      (if c <? 65 then (if within 48 57 c then st 425 else st 0) else (if 70 <? c then (if within 97 102 c
        then st 382 else st 0) else st 382)));
  Case 425 (fun r c => switch c [(46, st 294); (58, st 384); (93, st 512)]
      (if c <? 65 then (if within 48 57 c then st 383 else st 0) else (if 70 <? c then (if within 97 102 c
        then st 383 else st 0) else st 383)));
  Case 426 (fun r c => switch c [(46, st 294); (53, st 428); (58, st 384); (93, st 512)]
      (if c <? 65 then (if within 48 57 c then st 427 else st 0) else (if 70 <? c then (if within 97 102 c
        then st 381 else st 0) else st 381)));
  Case 427 (fun r c => switch c [(46, st 294); (58, st 384); (93, st 512)]
      (if c <? 65 then (if within 48 57 c then st 382 else st 0) else (if 70 <? c then (if within 97 102 c
        then st 382 else st 0) else st 382)));
  Case 428 (fun r c => switch c [(46, st 294); (58, st 384); (93, st 512)]
      (if c <? 54 then (if within 48 53 c then st 425 else st 0) else (if 57 <? c then (if 70 <? c then (if
        within 97 102 c then st 382 else st 0) else (if 65 <=? c then st 382 else st 0)) else st 382)));
  Case 429 (fun r c => switch c [(46, st 294); (58, st 384); (93, st 512)]
      (if c <? 65 then (if within 48 57 c then st 427 else st 0) else (if 70 <? c then (if within 97 102 c
        then st 381 else st 0) else st 381)));
  Case 430 (fun r c => switch c [(58, st 384); (93, st 512)]
      (if c <? 65 then (if within 48 57 c then st 381 else st 0) else (if 70 <? c then (if within 97 102 c
        then st 381 else st 0) else st 381)))
].

Definition uri_parser_9087 : list (block uri_action) := [
  Case 431 (fun r c => switch c [(46, st 294); (58, st 379); (93, st 512)]
      (if c <? 65 then (if within 48 57 c then st 432 else st 0) else (if 70 <? c then (if within 97 102 c
        then st 376 else st 0) else st 376)));
  Case 432 (fun r c => switch c [(46, st 294); (58, st 379); (93, st 512)]
      (if c <? 65 then (if within 48 57 c then st 433 else st 0) else (if 70 <? c then (if within 97 102 c
        then st 377 else st 0) else st 377)));
  Case 433 (fun r c => switch c [(46, st 294); (58, st 379); (93, st 512)]
      (if c <? 65 then (if within 48 57 c then st 378 else st 0) else (if 70 <? c then (if within 97 102 c
        then st 378 else st 0) else st 378)));
  Case 434 (fun r c => switch c [(46, st 294); (53, st 436); (58, st 379); (93, st 512)]
      (if c <? 65 then (if within 48 57 c then st 435 else st 0) else (if 70 <? c then (if within 97 102 c
        then st 376 else st 0) else st 376)));
  Case 435 (fun r c => switch c [(46, st 294); (58, st 379); (93, st 512)]
      (if c <? 65 then (if within 48 57 c then st 377 else st 0) else (if 70 <? c then (if within 97 102 c
        then st 377 else st 0) else st 377)));
  Case 436 (fun r c => switch c [(46, st 294); (58, st 379); (93, st 512)]
      (if c <? 54 then (if within 48 53 c then st 433 else st 0) else (if 57 <? c then (if 70 <? c then (if
        within 97 102 c then st 377 else st 0) else (if 65 <=? c then st 377 else st 0)) else st 377)));
  Case 437 (fun r c => switch c [(46, st 294); (58, st 379); (93, st 512)]
      (if c <? 65 then (if within 48 57 c then st 435 else st 0) else (if 70 <? c then (if within 97 102 c
        then st 376 else st 0) else st 376)))
].

Definition uri_parser_9217 : list (block uri_action) := [
  Case 438 (fun r c => switch c [(58, st 379); (93, st 512)]
      (if c <? 65 then (if within 48 57 c then st 376 else st 0) else (if 70 <? c then (if within 97 102 c
        then st 376 else st 0) else st 376)));
  Case 439 (fun r c => switch c [(46, st 294); (58, st 374); (93, st 512)]
      (if c <? 65 then (if within 48 57 c then st 440 else st 0) else (if 70 <? c then (if within 97 102 c
        then st 371 else st 0) else st 371)));
  Case 440 (fun r c => switch c [(46, st 294); (58, st 374); (93, st 512)]
      (if c <? 65 then (if within 48 57 c then st 441 else st 0) else (if 70 <? c then (if within 97 102 c
        then st 372 else st 0) else st 372)));
  Case 441 (fun r c => switch c [(46, st 294); (58, st 374); (93, st 512)]
      (if c <? 65 then (if within 48 57 c then st 373 else st 0) else (if 70 <? c then (if within 97 102 c
        then st 373 else st 0) else st 373)));
  Case 442 (fun r c => switch c [(46, st 294); (53, st 444); (58, st 374); (93, st 512)]
      (if c <? 65 then (if within 48 57 c then st 443 else st 0) else (if 70 <? c then (if within 97 102 c
        then st 371 else st 0) else st 371)));
  Case 443 (fun r c => switch c [(46, st 294); (58, st 374); (93, st 512)]
      (if c <? 65 then (if within 48 57 c then st 372 else st 0) else (if 70 <? c then (if within 97 102 c
        then st 372 else st 0) else st 372)));
  Case 444 (fun r c => switch c [(46, st 294); (58, st 374); (93, st 512)]
      (if c <? 54 then (if within 48 53 c then st 441 else st 0) else (if 57 <? c then (if 70 <? c then (if
        within 97 102 c then st 372 else st 0) else (if 65 <=? c then st 372 else st 0)) else st 372)))
].

Definition uri_parser_9346 : list (block uri_action) := [
  Case 445 (fun r c => switch c [(46, st 294); (58, st 374); (93, st 512)]
      (if c <? 65 then (if within 48 57 c then st 443 else st 0) else (if 70 <? c then (if within 97 102 c
        then st 371 else st 0) else st 371)));
  Case 446 (fun r c => switch c [(58, st 374); (93, st 512)]
      (if c <? 65 then (if within 48 57 c then st 371 else st 0) else (if 70 <? c then (if within 97 102 c
        then st 371 else st 0) else st 371)));
  Case 447 (fun r c => if c <? 65 then (if within 48 57 c then st 448 else st 0) else (if 70 <? c then (if
        within 97 102 c then st 448 else st 0) else st 448));
  Case 448 (fun r c => if c =? 46 then st 449 else (if c <? 65 then (if within 48 57 c then st 448 else st 0)
        else (if 70 <? c then (if within 97 102 c then st 448 else st 0) else st 448)));
  Case 449 (fun r c => switch c [(33, st 450); (36, st 450); (61, st 450); (95, st 450); (126, st 450)]
      (if c <? 48 then (if within 38 46 c then st 450 else st 0) else (if 59 <? c then (if 90 <? c then (if
        within 97 122 c then st 450 else st 0) else (if 65 <=? c then st 450 else st 0)) else st 450)));
  Case 450 (fun r c => switch c [(33, st 450); (36, st 450); (61, st 450); (93, st 512); (95, st 450); (126,
        st 450)]
      (if c <? 48 then (if within 38 46 c then st 450 else st 0) else (if 59 <? c then (if 90 <? c then (if
        within 97 122 c then st 450 else st 0) else (if 65 <=? c then st 450 else st 0)) else st 450)));
  Tr 577 [u_mark] 542
].

Definition uri_parser_9460 : list (block uri_action) := [
  Case 542 (fun r c => switch c [(33, st 255); (35, tr 570); (37, st 256); (47, tr 571); (61, st 255); (63,
        tr 573); (64, tr 263); (95, st 255); (126, st 255)]
      (if c <? 58 then (if 46 <? c then (if within 48 57 c then st 542 else st 0) else (if 36 <=? c then
        st 255 else st 0)) else (if 59 <? c then (if 90 <? c then (if within 97 122 c then st 255 else st 0)
        else (if 65 <=? c then st 255 else st 0)) else st 255)));
  Tr 551 [u_mark] 543;
  Case 543 (fun r c => switch c [(33, st 520); (35, tr 559); (37, st 253); (46, st 544); (47, tr 560); (58,
        tr 576); (61, st 520); (63, tr 562); (64, tr 263); (95, st 520); (126, st 520)]
      (if c <? 65 then (if within 36 59 c then st 520 else st 0) else (if 90 <? c then (if within 97 122 c
        then st 520 else st 0) else st 520)));
  Case 544 (fun r c => switch c [(2, st 233); (33, st 520); (35, tr 559); (37, st 253); (47, tr 560); (48,
        st 545); (49, st 553); (50, st 555); (58, tr 576); (59, st 520); (61, st 520); (63, tr 562); (64,
        tr 263); (95, st 520); (126, st 520)]
      (if c <? 51 then (if within 36 46 c then st 520 else st 0) else (if 57 <? c then (if 90 <? c then (if
        within 97 122 c then st 520 else st 0) else (if 65 <=? c then st 520 else st 0)) else st 554)));
  Case 545 (fun r c => switch c [(33, st 520); (35, tr 559); (37, st 253); (46, st 546); (47, tr 560); (58,
        tr 576); (61, st 520); (63, tr 562); (64, tr 263); (95, st 520); (126, st 520)]
      (if c <? 65 then (if within 36 59 c then st 520 else st 0) else (if 90 <? c then (if within 97 122 c
        then st 520 else st 0) else st 520)))
].

Definition uri_parser_9581 : list (block uri_action) := [
  Case 546 (fun r c => switch c [(2, st 237); (33, st 520); (35, tr 559); (37, st 253); (47, tr 560); (48,
        st 547); (49, st 549); (50, st 551); (58, tr 576); (59, st 520); (61, st 520); (63, tr 562); (64,
        tr 263); (95, st 520); (126, st 520)]
      (if c <? 51 then (if within 36 46 c then st 520 else st 0) else (if 57 <? c then (if 90 <? c then (if
        within 97 122 c then st 520 else st 0) else (if 65 <=? c then st 520 else st 0)) else st 550)));
  Case 547 (fun r c => switch c [(33, st 520); (35, tr 559); (37, st 253); (46, st 548); (47, tr 560); (58,
        tr 576); (61, st 520); (63, tr 562); (64, tr 263); (95, st 520); (126, st 520)]
      (if c <? 65 then (if within 36 59 c then st 520 else st 0) else (if 90 <? c then (if within 97 122 c
        then st 520 else st 0) else st 520)));
  Case 548 (fun r c => switch c [(2, st 241); (33, st 520); (35, tr 559); (37, st 253); (47, tr 560); (58,
        tr 576); (61, st 520); (63, tr 562); (64, tr 263); (95, st 520); (126, st 520)]
      (if c <? 65 then (if within 36 59 c then st 520 else st 0) else (if 90 <? c then (if within 97 122 c
        then st 520 else st 0) else st 520)));
  Case 549 (fun r c => switch c [(33, st 520); (35, tr 559); (37, st 253); (46, st 548); (47, tr 560); (58,
        tr 576); (59, st 520); (61, st 520); (63, tr 562); (64, tr 263); (95, st 520); (126, st 520)]
      (if c <? 48 then (if within 36 45 c then st 520 else st 0) else (if 57 <? c then (if 90 <? c then (if
        within 97 122 c then st 520 else st 0) else (if 65 <=? c then st 520 else st 0)) else st 550)))
].

Definition uri_parser_9696 : list (block uri_action) := [
  Case 550 (fun r c => switch c [(33, st 520); (35, tr 559); (37, st 253); (46, st 548); (47, tr 560); (58,
        tr 576); (59, st 520); (61, st 520); (63, tr 562); (64, tr 263); (95, st 520); (126, st 520)]
      (if c <? 48 then (if within 36 45 c then st 520 else st 0) else (if 57 <? c then (if 90 <? c then (if
        within 97 122 c then st 520 else st 0) else (if 65 <=? c then st 520 else st 0)) else st 547)));
  Case 551 (fun r c => switch c [(33, st 520); (35, tr 559); (37, st 253); (46, st 548); (47, tr 560); (53,
        st 552); (58, tr 576); (59, st 520); (61, st 520); (63, tr 562); (64, tr 263); (95, st 520); (126,
        st 520)]
      (if c <? 48 then (if within 36 45 c then st 520 else st 0) else (if 57 <? c then (if 90 <? c then (if
        within 97 122 c then st 520 else st 0) else (if 65 <=? c then st 520 else st 0)) else st 547)));
  Case 552 (fun r c => switch c [(33, st 520); (35, tr 559); (37, st 253); (46, st 548); (47, tr 560); (58,
        tr 576); (61, st 520); (63, tr 562); (64, tr 263); (95, st 520); (126, st 520)]
      (if c <? 54 then (if 45 <? c then (if within 48 53 c then st 547 else st 0) else (if 36 <=? c then
        st 520 else st 0)) else (if 59 <? c then (if 90 <? c then (if within 97 122 c then st 520 else st 0)
        else (if 65 <=? c then st 520 else st 0)) else st 520)));
  Case 553 (fun r c => switch c [(33, st 520); (35, tr 559); (37, st 253); (46, st 546); (47, tr 560); (58,
        tr 576); (59, st 520); (61, st 520); (63, tr 562); (64, tr 263); (95, st 520); (126, st 520)]
      (if c <? 48 then (if within 36 45 c then st 520 else st 0) else (if 57 <? c then (if 90 <? c then (if
        within 97 122 c then st 520 else st 0) else (if 65 <=? c then st 520 else st 0)) else st 554)))
].

Definition uri_parser_9819 : list (block uri_action) := [
  Case 554 (fun r c => switch c [(33, st 520); (35, tr 559); (37, st 253); (46, st 546); (47, tr 560); (58,
        tr 576); (59, st 520); (61, st 520); (63, tr 562); (64, tr 263); (95, st 520); (126, st 520)]
      (if c <? 48 then (if within 36 45 c then st 520 else st 0) else (if 57 <? c then (if 90 <? c then (if
        within 97 122 c then st 520 else st 0) else (if 65 <=? c then st 520 else st 0)) else st 545)));
  Case 555 (fun r c => switch c [(33, st 520); (35, tr 559); (37, st 253); (46, st 546); (47, tr 560); (53,
        st 556); (58, tr 576); (59, st 520); (61, st 520); (63, tr 562); (64, tr 263); (95, st 520); (126,
        st 520)]
      (if c <? 48 then (if within 36 45 c then st 520 else st 0) else (if 57 <? c then (if 90 <? c then (if
        within 97 122 c then st 520 else st 0) else (if 65 <=? c then st 520 else st 0)) else st 545)));
  Case 556 (fun r c => switch c [(33, st 520); (35, tr 559); (37, st 253); (46, st 546); (47, tr 560); (58,
        tr 576); (61, st 520); (63, tr 562); (64, tr 263); (95, st 520); (126, st 520)]
      (if c <? 54 then (if 45 <? c then (if within 48 53 c then st 545 else st 0) else (if 36 <=? c then
        st 520 else st 0)) else (if 59 <? c then (if 90 <? c then (if within 97 122 c then st 520 else st 0)
        else (if 65 <=? c then st 520 else st 0)) else st 520)));
  Tr 552 [u_mark] 557;
  Case 557 (fun r c => switch c [(33, st 520); (35, tr 559); (37, st 253); (46, st 544); (47, tr 560); (58,
        tr 576); (59, st 520); (61, st 520); (63, tr 562); (64, tr 263); (95, st 520); (126, st 520)]
      (if c <? 48 then (if within 36 45 c then st 520 else st 0) else (if 57 <? c then (if 90 <? c then (if
        within 97 122 c then st 520 else st 0) else (if 65 <=? c then st 520 else st 0)) else st 558)));
  Tr 554 [u_mark] 558
].

Definition uri_parser_9951 : list (block uri_action) := [
  Case 558 (fun r c => switch c [(33, st 520); (35, tr 559); (37, st 253); (46, st 544); (47, tr 560); (58,
        tr 576); (59, st 520); (61, st 520); (63, tr 562); (64, tr 263); (95, st 520); (126, st 520)]
      (if c <? 48 then (if within 36 45 c then st 520 else st 0) else (if 57 <? c then (if 90 <? c then (if
        within 97 122 c then st 520 else st 0) else (if 65 <=? c then st 520 else st 0)) else st 543)));
  Tr 553 [u_mark] 559;
  Case 559 (fun r c => switch c [(33, st 520); (35, tr 559); (37, st 253); (46, st 544); (47, tr 560); (53,
        st 560); (58, tr 576); (59, st 520); (61, st 520); (63, tr 562); (64, tr 263); (95, st 520); (126,
        st 520)]
      (if c <? 48 then (if within 36 45 c then st 520 else st 0) else (if 57 <? c then (if 90 <? c then (if
        within 97 122 c then st 520 else st 0) else (if 65 <=? c then st 520 else st 0)) else st 543)));
  Case 560 (fun r c => switch c [(33, st 520); (35, tr 559); (37, st 253); (46, st 544); (47, tr 560); (58,
        tr 576); (61, st 520); (63, tr 562); (64, tr 263); (95, st 520); (126, st 520)]
      (if c <? 54 then (if 45 <? c then (if within 48 53 c then st 543 else st 0) else (if 36 <=? c then
        st 520 else st 0)) else (if 59 <? c then (if 90 <? c then (if within 97 122 c then st 520 else st 0)
        else (if 65 <=? c then st 520 else st 0)) else st 520)))
].

Definition uri_parser_code : list (block uri_action) :=
  uri_parser_40 ++ uri_parser_171 ++ uri_parser_300 ++ uri_parser_440 ++ uri_parser_572 ++
    uri_parser_710 ++ uri_parser_849 ++ uri_parser_986 ++ uri_parser_1107 ++ uri_parser_1246 ++
    uri_parser_1360 ++ uri_parser_1500 ++ uri_parser_1619 ++ uri_parser_1752 ++ uri_parser_1888 ++
    uri_parser_2022 ++ uri_parser_2156 ++ uri_parser_2291 ++ uri_parser_2422 ++ uri_parser_2549 ++
    uri_parser_2680 ++ uri_parser_2818 ++ uri_parser_2956 ++ uri_parser_3086 ++ uri_parser_3223 ++
    uri_parser_3358 ++ uri_parser_3483 ++ uri_parser_3615 ++ uri_parser_3740 ++ uri_parser_3869 ++
    uri_parser_3998 ++ uri_parser_4128 ++ uri_parser_4257 ++ uri_parser_4383 ++ uri_parser_4512 ++
    uri_parser_4637 ++ uri_parser_4760 ++ uri_parser_4871 ++ uri_parser_4994 ++ uri_parser_5121 ++
    uri_parser_5259 ++ uri_parser_5397 ++ uri_parser_5528 ++ uri_parser_5661 ++ uri_parser_5794 ++
    uri_parser_5926 ++ uri_parser_6055 ++ uri_parser_6187 ++ uri_parser_6325 ++ uri_parser_6444 ++
    uri_parser_6578 ++ uri_parser_6713 ++ uri_parser_6847 ++ uri_parser_6981 ++ uri_parser_7120 ++
    uri_parser_7255 ++ uri_parser_7389 ++ uri_parser_7525 ++ uri_parser_7664 ++ uri_parser_7794 ++
    uri_parser_7924 ++ uri_parser_8056 ++ uri_parser_8179 ++ uri_parser_8313 ++ uri_parser_8438 ++
    uri_parser_8572 ++ uri_parser_8700 ++ uri_parser_8829 ++ uri_parser_8958 ++ uri_parser_9087 ++
    uri_parser_9217 ++ uri_parser_9346 ++ uri_parser_9460 ++ uri_parser_9581 ++ uri_parser_9696 ++
    uri_parser_9819 ++ uri_parser_9951.

(** The [switch] behind [_test_eof]. *)
Definition uri_parser_eof : list (list Z * list uri_action) := [
  ([462; 489], [u_save_port]);
  ([460; 463; 464; 465; 466; 467; 470; 471; 472; 473; 474; 475; 476; 477; 478; 479; 480; 481; 482;
      483; 484; 485; 486; 487; 488; 490; 491; 492; 493; 494; 495; 496; 497; 498; 499; 500; 501;
      502; 503; 504; 505; 506; 507], [u_save_host]);
  ([513], [u_save_path]);
  ([457], [u_save_query]);
  ([454], [u_save_fragment]);
  ([456], [u_mark; u_save_query]);
  ([453], [u_mark; u_save_fragment]);
  ([461; 468], [u_mark; u_save_port]);
  ([459; 469], [u_mark; u_save_host]);
  ([514; 521], [u_mark; u_save_port; u_save_path]);
  ([511; 522], [u_mark; u_save_host; u_save_path]);
  ([515; 542], [u_save_port; u_mark; u_save_path]);
  ([512; 516; 517; 518; 519; 520; 523; 524; 525; 526; 527; 528; 529; 530; 531; 532; 533; 534; 535;
      536; 537; 538; 539; 540; 541; 543; 544; 545; 546; 547; 548; 549; 550; 551; 552; 553; 554;
      555; 556; 557; 558; 559; 560], [u_save_host; u_mark; u_save_path])
].
