(* ===== verification/Uri.v ===== *)
(** * URIs: [sylar/uri.h], [sylar/uri.rl.cc]

    [Uri] and its functions around the machine of [UriCode.v].  The text is a
    list of bytes; [mark] is a position in it or null.  [std::string] from a
    null pointer and [atoi] of one are undefined behaviour, so an action may
    fail.  [Address::LookupAnyIPAddress] asks the resolver, which is a
    parameter. *)

From stdpp Require Import base list strings.
From Stdlib Require Import ZArith Lia Ascii String.
From S2P Require Import Prelude Http HttpParser Ragel UriCode.

Local Open Scope string_scope.
Local Open Scope Z_scope.

Record Uri := mkUri {
  m_scheme : string;
  m_userinfo : string;
  m_host : string;
  m_path : string;
  m_query : string;
  m_fragment : string;
  m_port : Z;
}.

(** [Uri::Uri] *)
Definition newUri : Uri := mkUri "" "" "" "" "" "" 0.

Definition setScheme (v : string) (u : Uri) : Uri :=
  mkUri v (m_userinfo u) (m_host u) (m_path u) (m_query u) (m_fragment u) (m_port u).
Definition setUserinfo (v : string) (u : Uri) : Uri :=
  mkUri (m_scheme u) v (m_host u) (m_path u) (m_query u) (m_fragment u) (m_port u).
Definition setHost (v : string) (u : Uri) : Uri :=
  mkUri (m_scheme u) (m_userinfo u) v (m_path u) (m_query u) (m_fragment u) (m_port u).
Definition setPath (v : string) (u : Uri) : Uri :=
  mkUri (m_scheme u) (m_userinfo u) (m_host u) v (m_query u) (m_fragment u) (m_port u).
Definition setQuery (v : string) (u : Uri) : Uri :=
  mkUri (m_scheme u) (m_userinfo u) (m_host u) (m_path u) v (m_fragment u) (m_port u).
Definition setFragment (v : string) (u : Uri) : Uri :=
  mkUri (m_scheme u) (m_userinfo u) (m_host u) (m_path u) (m_query u) v (m_port u).
Definition setPort (v : Z) (u : Uri) : Uri :=
  mkUri (m_scheme u) (m_userinfo u) (m_host u) (m_path u) (m_query u) (m_fragment u) v.

(** ** [Uri::Create] *)

Definition uri_parser_start : Z := 451.
Definition uri_parser_first_final : Z := 451.
Definition uri_parser_error : Z := 0.

(** [mark] and the URI, or what has gone wrong. *)
Definition uri_state : Type := outcome (option nat * Uri).

(** [std::string(mark, fpc - mark)] *)
Definition marked (data : list Z) (mark : option nat) (p : nat) : outcome string :=
  m ← deref null_deref mark; Ok (string_of (slice m (p - m) data)).

Definition uri_action_at (data : list Z) (a : uri_action) (p : nat) (mark : option nat) (u : Uri)
    : uri_state :=
  let save (set : string -> Uri -> Uri) (mark' : option nat) :=
    s ← marked data mark p; Ok (mark', set s u) in
  match a with
  | u_mark => Ok (Some p, u)
  | u_save_scheme => save setScheme None
  | u_save_port =>
      if decide (mark = Some p) then Ok (None, u) else
      m ← deref null_deref mark;
      n ← atoi (string_of (drop m data));
      Ok (None, setPort n u)
  | u_save_userinfo => match mark with Some _ => save setUserinfo None | None => Ok (None, u) end
  | u_save_host => match mark with Some _ => save setHost mark | None => Ok (mark, u) end
  | u_save_path => save setPath None
  | u_save_query => save setQuery None
  | u_save_fragment => save setFragment None
  end.

Definition uri_act (data : list Z) (a : uri_action) (p _ : nat) (s : uri_state) : uri_state :=
  '(mark, u) ← s; uri_action_at data a p mark u.

Definition uri_run (data : list Z) :=
  run uri_parser_code (uri_act data) (fun _ => None) false.

(** The actions at the end of the text. *)
Fixpoint eof_actions (cs : Z) (l : list (list Z * list uri_action)) : list uri_action :=
  match l with
  | [] => []
  | (cases, acts) :: l => if existsb (Z.eqb cs) cases then acts else eof_actions cs l
  end.

Definition Create (uristr : string) : outcome (option Uri) :=
  let data := bytes_of uristr in
  let pe := List.length data in
  let '(cs, p, s) := uri_run data uri_parser_start 0 data (Ok (None, newUri)) in
  let s := if (p =? pe)%nat then run_actions (uri_act data) (eof_actions cs uri_parser_eof) p pe s else s in
  '(_, u) ← s;
  if cs =? uri_parser_error then Ok None
  else if uri_parser_first_final <=? cs then Ok (Some u)
  else Ok None.

(** ** The other functions *)

Definition isDefaultPort (u : Uri) : bool :=
  if m_port u =? 0 then true
  else if (m_scheme u =? "http")%string || (m_scheme u =? "ws")%string then m_port u =? 80
  else if (m_scheme u =? "https")%string || (m_scheme u =? "wss")%string then m_port u =? 443
  else false.

Definition getPath (u : Uri) : string := if (m_path u =? "")%string then "/" else m_path u.

Definition getPort (u : Uri) : Z :=
  if negb (m_port u =? 0) then m_port u
  else if (m_scheme u =? "http")%string || (m_scheme u =? "ws")%string then 80
  else if (m_scheme u =? "https")%string || (m_scheme u =? "wss")%string then 443
  else m_port u.

(** [std::to_string] *)
Definition to_string (n : Z) : string := if n <? 0 then "-" ++ decimal (- n) else decimal n.

(** [dump] and [toString] *)
Definition toString (u : Uri) : string :=
  m_scheme u ++ "://" ++ m_userinfo u ++ (if (m_userinfo u =? "")%string then "" else "@")
  ++ m_host u ++ (if isDefaultPort u then "" else ":" ++ to_string (m_port u))
  ++ getPath u ++ (if (m_query u =? "")%string then "" else "?") ++ m_query u
  ++ (if (m_fragment u =? "")%string then "" else "#") ++ m_fragment u.
