(* ===== verification/UriTheorems.v ===== *)
(** * What [Uri::Create] does with every text, and with printed URIs *)

From stdpp Require Import base list strings.
From Stdlib Require Import ZArith Lia Ascii String.
From S2P Require Import Prelude Http HttpTheorems HttpParser Ragel HttpWire UriCode Uri.

Local Open Scope string_scope.
Local Open Scope Z_scope.
Local Notation length := List.length.

(** ** The mark is set where it is used

    [mark] is null in the states below, unknown in some of them; in all others
    it is set, unless a port was empty: then [save_port] clears the mark that
    the path is going to use. *)
Definition mark_unknown : list Z :=
  [451; 458; 509; 510; 511; 522; 459; 469; 3; 4; 5; 6; 452; 453; 455; 456].
(** After "//", and one "/" before it. *)
Definition before_slashes : list Z := [451; 452; 453; 454; 455; 456; 457; 458; 508; 509; 510; 1; 2; 3; 4; 5; 6; 7; 8].
Definition one_slash : list Z := [458; 510].
(** After the colon of an authority: a port may follow. *)
Definition port_start : list Z := [514; 521].

Definition mark_flow1 (k : option bool) (a : uri_action) : option bool :=
  match k, a with
  | None, _ => None
  | Some _, u_mark => Some true
  | Some m, u_save_host => Some m
  | Some _, u_save_userinfo => Some false
  | Some m, _ => if m then Some false else None
  end.
Definition mark_flow (m : bool) (acts : list uri_action) : option bool := foldl mark_flow1 (Some m) acts.

Definition port_ends (c : Z) : bool := (c =? 47) || (c =? 63) || (c =? 35).

Definition uri_edge_ok (n c : Z) (acts : list uri_action) (k : Z) : bool :=
  ((k =? 0) && bool_decide (acts = []))
  || (within 1 560 k && (mem k before_slashes || negb (mem n before_slashes) || (mem n one_slash && (c =? 47)))
      && (negb (mem k one_slash) || (c =? 47))
      && (negb (mem k port_start) || ((c =? 58) && negb (mem n before_slashes)))
      && ((mem n port_start && port_ends c)
          || match mark_flow (negb (mem n mark_unknown)) acts with
             | Some m => implb (negb (mem k mark_unknown)) m
             | None => false
             end)).

Lemma uri_edges_ok : check_edges uri_parser_code false uri_edge_ok = true.
Proof. vm_compute. reflexivity. Qed.

Lemma uri_eof_ok :
  forallb (fun n => mem n port_start
    || match mark_flow (negb (mem n mark_unknown)) (eof_actions n uri_parser_eof) with
       | Some _ => true | None => false end) (seqZ 1 560) = true.
Proof. vm_compute. reflexivity. Qed.

(** A port that is empty: a colon somewhere after "//", with the end of the
    text or of the authority right behind it. *)
Definition port_ended (l : list Z) : bool :=
  match l with [] => true | c :: _ => port_ends (wraps 8 c) end.
Definition slash_next (l : list Z) : bool :=
  match l with [] => false | c :: _ => wraps 8 c =? 47 end.
Fixpoint empty_port (slashes : bool) (l : list Z) : bool :=
  match l with
  | [] => false
  | b :: l =>
      (slashes && (wraps 8 b =? 58) && port_ended l)
      || empty_port (slashes || ((wraps 8 b =? 47) && slash_next l)) l
  end.

Definition mark_set (m : bool) (s : uri_state) : Prop :=
  match s with
  | Ok (mark, _) => m = true -> is_Some mark
  | Err e => e = UB signed_overflow
  end.

Lemma atoi_errors t e : atoi t = Err e -> e = UB signed_overflow.
Proof.
  induction t as [|c t IH]; cbn [atoi]; [done|]. destruct (isspace c); [done|].
  unfold sarith. by case_decide; [|intros [= <-]].
Qed.

Lemma mark_set_act data a p pe m m' s :
  mark_set m s -> mark_flow1 (Some m) a = Some m' -> mark_set m' (uri_act data a p pe s).
Proof.
  destruct s as [[mark u]|e]; [|done]. simpl. intros Hm Hf.
  assert (forall set (mk' : option nat), m = true -> (m' = true -> is_Some mk') ->
    mark_set m' (s ← marked data mark p; Ok (mk', set s u))) as Hsave.
  { intros set mk' E Hmk. destruct (Hm E) as [k ->]. done. }
  destruct a; simpl in *.
  - by intros _.
  - destruct m; [|done]. injection Hf as <-. by apply Hsave.
  - destruct m; [|done]. injection Hf as <-. case_decide; [done|].
    destruct (Hm eq_refl) as [k ->]. simpl. destruct (atoi _) eqn:E; simpl; [done|]. by eapply atoi_errors.
  - injection Hf as <-. by destruct mark.
  - injection Hf as <-. by destruct mark.
  - destruct m; [|done]. injection Hf as <-. by apply Hsave.
  - destruct m; [|done]. injection Hf as <-. by apply Hsave.
  - destruct m; [|done]. injection Hf as <-. by apply Hsave.
Qed.

Lemma mark_set_acts data acts p pe m m' s :
  mark_set m s -> mark_flow m acts = Some m' -> mark_set m' (run_actions (uri_act data) acts p pe s).
Proof.
  unfold mark_flow, run_actions. revert m s. induction acts as [|a acts IH]; intros m s Hm Hf; cbn [foldl] in *.
  { by injection Hf as <-. }
  destruct (mark_flow1 (Some m) a) as [m1|] eqn:E.
  - eapply IH; [|exact Hf]. by eapply mark_set_act.
  - exfalso. clear -Hf. induction acts; [done|]. by apply IHacts.
Qed.

(** The states a run goes through. *)
Record run_inv (cs : Z) (slashes : bool) (rest : list Z) (s : uri_state) : Prop := {
  ri_slashes : mem cs before_slashes = false -> slashes = true;
  ri_slash : mem cs one_slash = true -> slash_next rest = true -> slashes = true;
  ri_port : mem cs port_start = true -> port_ended rest = false;
  ri_mark : mark_set (negb (mem cs mark_unknown)) s;
}.

Lemma uri_run_safe data rest cs p slashes s :
  run_inv cs slashes rest s -> empty_port slashes rest = false -> 1 <= cs <= 560 ->
  let '(cs', p', s') := uri_run data cs p rest s in
  (p' <= p + length rest)%nat
  /\ ((p' < p + length rest)%nat -> exists m, mark_set m s')
  /\ (p' = (p + length rest)%nat -> 1 <= cs' <= 560 /\ mem cs' port_start = false
      /\ mark_set (negb (mem cs' mark_unknown)) s').
Proof.
  unfold uri_run. revert cs p slashes s. induction rest as [|b rest IH]; intros cs p slashes s HI He Hcs.
  { cbn [run length]. rewrite Nat.add_0_r. split; [lia|]. split; [lia|]. intros _. split; [done|].
    destruct HI as [_ _ H3 H4]. split; [|done]. destruct (mem cs port_start); [|done]. specialize (H3 eq_refl). discriminate H3. }
  cbn [run]. destruct (next uri_parser_code false cs (wraps 8 b)) as [[acts n]|] eqn:Hn.
  2: { split; [simpl; lia|]. split; [intros _; eexists; apply HI|simpl; lia]. }
  pose proof (check_edges_next _ _ _ _ _ _ _ uri_edges_ok Hn) as Hc.
  assert (break_of (fun _ : uri_action => @None Z) acts = None) as ->
    by (unfold break_of; clear; by induction acts).
  cbn [empty_port] in He. apply orb_false_iff in He as [He1 He2].
  unfold uri_edge_ok in Hc. destruct (Z.eqb_spec n 0) as [->|Hn0].
  { cbn [andb within Z.leb Z.compare] in Hc. rewrite orb_false_r in Hc. apply bool_decide_eq_true in Hc as ->.
    split; [simpl; lia|]. split; [intros _; eexists; apply HI|simpl; lia]. }
  cbn [andb orb] in Hc. rewrite !andb_true_iff in Hc. destruct Hc as [[[[Hr C1] C2] C3] C4].
  unfold within in Hr. rewrite andb_true_iff, !Z.leb_le in Hr.
  destruct HI as [I1 I2 I3 I4].
  assert (run_inv n (slashes || ((wraps 8 b =? 47) && slash_next rest)) rest
    (run_actions (uri_act data) acts p (p + length (b :: rest)) s)) as HI'.
  { constructor.
    - intros Hm. rewrite Hm in C1. apply orb_true_iff in C1 as [C1|C1].
      + apply negb_true_iff in C1. by rewrite (I1 C1).
      + apply andb_true_iff in C1 as [C1 C1']. by rewrite (I2 C1 C1').
    - intros Hm Hs. rewrite Hm in C2. simpl in C2. by rewrite C2, Hs, orb_true_r.
    - intros Hm. rewrite Hm in C3. simpl in C3. apply andb_true_iff in C3 as [C3 C3'].
      apply negb_true_iff in C3'. rewrite (I1 C3'), C3 in He1. done.
    - apply orb_true_iff in C4 as [C4|C4].
      + apply andb_true_iff in C4 as [C4 C4']. specialize (I3 C4). simpl in I3. congruence.
      + destruct (mark_flow _ acts) as [m|] eqn:Hf; [|done].
        pose proof (mark_set_acts data acts p (p + length (b :: rest)) _ _ _ I4 Hf) as Hm.
        destruct (run_actions _ _ _ _ _) as [[mk u]|e]; [|done]. unfold mark_set in *. intros E.
        rewrite E in C4. auto. }
  specialize (IH n (S p) _ _ HI' He2 Hr). cbn [length] in *.
  replace (p + S (length rest))%nat with (S p + length rest)%nat by lia.
  replace (p + S (length rest))%nat with (S p + length rest)%nat in IH by lia. exact IH.
Qed.

(** ** Reading a printed URI *)

Definition alpha_char (c : Z) : bool := within 65 90 c || within 97 122 c.
Definition scheme_char (c : Z) : bool :=
  alpha_char c || within 48 57 c || (c =? 43) || (c =? 45) || (c =? 46).
(** [unreserved | sub_delims] *)
Definition name_char (c : Z) : bool :=
  (c =? 33) || (c =? 36) || within 38 46 c || within 48 57 c || (c =? 59) || (c =? 61)
  || within 65 90 c || (c =? 95) || within 97 122 c || (c =? 126).

(** The states in the first name of an authority, a host or a user, and in the
    host after a user: the grammar tells IPv4 addresses apart. *)
Definition in_first : list Z := 520 :: seqZ 543 18.
Definition in_host : list Z := seqZ 523 19.

Lemma marked_at data pre l post :
  data = (pre ++ l ++ post)%list ->
  marked data (Some (length pre)) (length pre + length l) = Ok (string_of l).
Proof.
  intros ->. unfold marked. cbn [deref mbind outcome_bind]. do 2 f_equal. unfold slice.
  rewrite Nat.add_comm, Nat.add_sub, drop_app_length. apply take_app_length.
Qed.

(** Facts of the machine are computed, the rest is trivial. *)
Local Ltac edge :=
  lazymatch goal with
  | |- Ragel.edge _ _ _ _ _ _ = true => vm_compute; reflexivity
  | |- edges _ _ _ _ _ _ = true => vm_compute; reflexivity
  | |- _ => done
  end.

Section read.
Context (data : list Z).

Notation R := (uri_run data).
Notation S0 mk u := (Ok (mk, u) : uri_state).

Local Tactic Notation "ufollow" constr(cs) constr(ok) constr(acts) constr(n) :=
  unfold uri_run at 1;
  rewrite (run_edge uri_parser_code (uri_act data) (fun _ => None) false cs ok acts n);
  [|edge|edge|edge|edge];
  fold (uri_run data); unfold run_actions; cbn [foldl uri_act uri_action_at mbind outcome_bind].

Lemma run_scheme scheme rest :
  match scheme with b :: l => alpha_char (wraps 8 b) && forallb (fun b => scheme_char (wraps 8 b)) l
               | [] => false end = true ->
  data = (scheme ++ 58 :: 47 :: 47 :: rest)%list ->
  R 451 0 (scheme ++ 58 :: 47 :: 47 :: rest)%list (S0 None newUri) =
    R 511 (length scheme + 3) rest (S0 None (setScheme (string_of scheme) newUri)).
Proof.
  intros Hok Hd. destruct scheme as [|b l]; [done|]. apply andb_true_iff in Hok as [Hb Hl].
  cbn [app]. ufollow 451 alpha_char [u_mark] 508. unfold uri_run at 1.
  rewrite (run_loop _ _ _ _ 508 scheme_char) by edge. fold (uri_run data).
  ufollow 508 (Z.eqb 58) [u_save_scheme] 509.
  pose proof (marked_at data [] (b :: l) (58 :: 47 :: 47 :: rest) Hd) as E. cbn [length Nat.add] in E |- *.
  rewrite E. cbn [mbind outcome_bind].
  ufollow 509 (Z.eqb 47) (@nil uri_action) 510. ufollow 510 (Z.eqb 47) (@nil uri_action) 511.
  f_equal. simpl. lia.
Qed.

(** A name of an authority. *)
Lemma run_name e ns name rest p mk u :
  edges uri_parser_code false [e] name_char [u_mark] ns = true ->
  edges uri_parser_code false ns name_char [] ns = true ->
  name <> [] -> forallb (fun b => name_char (wraps 8 b)) name = true ->
  exists k, k ∈ ns /\ R e p (name ++ rest)%list (S0 mk u) = R k (p + length name) rest (S0 (Some p) u).
Proof.
  intros E1 E2 Hne Hok. destruct name as [|b name]; [done|]. simpl in Hok.
  apply andb_true_iff in Hok as [Hb Hok]. cbn [app]. unfold uri_run.
  destruct (run_edges uri_parser_code (uri_act data) (fun _ => None) false [e] name_char [u_mark] ns e b
    (name ++ rest)%list p (S0 mk u) E1 ltac:(by left) Hb eq_refl) as (k & Hk & ->).
  unfold run_actions. cbn [foldl uri_act uri_action_at mbind outcome_bind].
  destruct (run_edges_loop uri_parser_code (uri_act data) (fun _ => None) false ns name_char name k rest
    (S p) (S0 (Some p) u) E2 Hk Hok) as (k2 & Hk2 & ->).
  exists k2. split; [done|]. f_equal. simpl. lia.
Qed.

(** One character out of a name. *)
Lemma run_out ns c acts m n rest p mk u mk' u' :
  edges uri_parser_code false ns (Z.eqb c) acts [m] = true -> n ∈ ns -> wraps 8 c = c ->
  break_of (fun _ => @None Z) acts = None ->
  (forall pe, run_actions (uri_act data) acts p pe (S0 mk u) = S0 mk' u') ->
  R n p (c :: rest) (S0 mk u) = R m (S p) rest (S0 mk' u').
Proof.
  intros He Hn Hc Hb Ha. unfold uri_run.
  destruct (run_edges uri_parser_code (uri_act data) (fun _ => None) false ns (Z.eqb c) acts [m] n c rest p
    (S0 mk u) He Hn) as (k & Hk & ->); [by rewrite Hc, Z.eqb_refl|done|].
  rewrite list_elem_of_singleton in Hk. by rewrite Hk, Ha.
Qed.

(** The places where a name of an authority can begin, and where it goes. *)
Definition authority_at (e m : Z) : Prop := (e = 511 /\ m = 521) \/ (e = 522 /\ m = 514).

Lemma run_userinfo pre name rest mk u :
  data = (pre ++ name ++ 64 :: rest)%list ->
  name <> [] -> forallb (fun b => name_char (wraps 8 b)) name = true ->
  R 511 (length pre) (name ++ 64 :: rest)%list (S0 mk u) =
    R 522 (length pre + length name + 1) rest (S0 None (setUserinfo (string_of name) u)).
Proof.
  intros Hd Hne Hok.
  destruct (run_name 511 in_first name (64 :: rest) (length pre) mk u) as (k & Hk & ->); [edge..|done|done|].
  erewrite (run_out in_first 64 [u_save_userinfo] 522); [|edge|done|done|done|].
  2: { intros pe. unfold run_actions. cbn [foldl uri_act uri_action_at mbind outcome_bind].
       rewrite (marked_at data pre name (64 :: rest)) by done. done. }
  f_equal. lia.
Qed.

Lemma run_host e m pre name rest mk u (slash : bool) :
  authority_at e m -> data = (pre ++ name ++ (if slash then 47 else 58) :: rest)%list ->
  name <> [] -> forallb (fun b => name_char (wraps 8 b)) name = true ->
  R e (length pre) (name ++ (if slash then 47 else 58) :: rest)%list (S0 mk u) =
    R (if slash then 513 else m) (length pre + length name + 1) rest
      (S0 (Some (if slash then length pre + length name else length pre)%nat)
        (setHost (string_of name) u)).
Proof.
  intros He Hd Hne Hok. set (ns := if e =? 511 then in_first else in_host).
  destruct (run_name e ns name ((if slash then 47 else 58) :: rest) (length pre) mk u) as (k & Hk & ->);
    [by destruct He as [[-> ->]|[-> ->]]; edge..|done|done|].
  destruct slash.
  - erewrite (run_out ns 47 [u_save_host; u_mark] 513);
      [|by destruct He as [[-> ->]|[-> ->]]; edge|done|done|done|].
    2: { intros pe. unfold run_actions. cbn [foldl uri_act uri_action_at mbind outcome_bind].
         rewrite (marked_at data pre name (47 :: rest)) by done. done. }
    f_equal. lia.
  - erewrite (run_out ns 58 [u_save_host] m);
      [|by destruct He as [[-> ->]|[-> ->]]; edge|done|done|done|].
    2: { intros pe. unfold run_actions. cbn [foldl uri_act uri_action_at mbind outcome_bind].
         rewrite (marked_at data pre name (58 :: rest)) by done. done. }
    f_equal. lia.
Qed.

Lemma run_port e m pre ds rest mk u :
  authority_at e m -> data = (pre ++ ds ++ 47 :: rest)%list ->
  ds <> [] -> forallb (fun b => digit_char (wraps 8 b)) ds = true -> in_s 32 (digits_value ds) ->
  R m (length pre) (ds ++ 47 :: rest)%list (S0 mk u) =
    R 513 (length pre + length ds + 1) rest
      (S0 (Some (length pre + length ds)%nat) (setPort (digits_value ds) u)).
Proof.
  intros He Hd Hne Hok Hr.
  assert (forall pe, run_actions (uri_act data) [u_save_port; u_mark] (length pre + length ds) pe
    (S0 (Some (length pre)) u) = S0 (Some (length pre + length ds)%nat) (setPort (digits_value ds) u)) as Ha.
  { intros pe. unfold run_actions. cbn [foldl uri_act uri_action_at mbind outcome_bind].
    rewrite decide_False by (intros [= E]; destruct ds; [done|simpl in E; lia]). cbn [deref mbind outcome_bind].
    replace (drop (length pre) data) with (ds ++ 47 :: rest)%list by (by rewrite Hd, drop_app_length).
    by rewrite atoi_number. }
  destruct ds as [|b ds]; [done|]. simpl in Hok. apply andb_true_iff in Hok as [Hb Hok]. cbn [app].
  destruct He as [[-> ->]|[-> ->]].
  - ufollow 521 digit_char [u_mark] 542. unfold uri_run at 1.
    rewrite (run_loop _ _ _ _ 542 digit_char) by edge.
    rewrite (run_edge _ _ _ _ 542 (Z.eqb 47) [u_save_port; u_mark] 513) by edge. fold (uri_run data).
    replace (S (length pre) + length ds)%nat with (length pre + length (b :: ds))%nat by (simpl; lia).
    rewrite Ha. f_equal. lia.
  - ufollow 514 digit_char [u_mark] 515. unfold uri_run at 1.
    rewrite (run_loop _ _ _ _ 515 digit_char) by edge.
    rewrite (run_edge _ _ _ _ 515 (Z.eqb 47) [u_save_port; u_mark] 513) by edge. fold (uri_run data).
    replace (S (length pre) + length ds)%nat with (length pre + length (b :: ds))%nat by (simpl; lia).
    rewrite Ha. f_equal. lia.
Qed.

(** What is saved when a part ends. *)
Definition opt_set (set : string -> Uri -> Uri) (l : list Z) (u : Uri) : Uri :=
  match l with [] => u | _ => set (string_of l) u end.

(** "?" and a query from [e], which saves what came before. *)
Lemma run_uri_query (pre q rest : list Z) mk u u1 :
  q <> [] -> pct_text query_char q = true -> uri_action_at data u_save_path (length pre) mk u = S0 None u1 ->
  R 513 (length pre) (63 :: q ++ rest)%list (S0 mk u) =
    R 457 (length pre + 1 + length q) rest (S0 (Some (length pre + 1)%nat) u1).
Proof.
  intros Hne Hq Ha. ufollow 513 (Z.eqb 63) [u_save_path] 456. cbn [uri_action_at] in Ha. rewrite Ha.
  unfold uri_run at 1.
  rewrite (run_pct_from _ _ _ _ 456 [u_mark] 457 7 8 query_char query_char) by (edge || by apply pct_first).
  fold (uri_run data). unfold run_actions. cbn [foldl uri_act uri_action_at mbind outcome_bind].
  by replace (S (length pre)) with (length pre + 1)%nat by lia.
Qed.

Lemma run_uri_fragment e a (pre f rest : list Z) mk u u1 :
  (e = 513 /\ a = u_save_path) \/ (e = 457 /\ a = u_save_query) ->
  f <> [] -> pct_text query_char f = true -> uri_action_at data a (length pre) mk u = S0 None u1 ->
  R e (length pre) (35 :: f ++ rest)%list (S0 mk u) =
    R 454 (length pre + 1 + length f) rest (S0 (Some (length pre + 1)%nat) u1).
Proof.
  intros He Hne Hf Ha. unfold uri_run at 1.
  rewrite (run_edge _ _ _ _ e (Z.eqb 35) [a] 453) by (destruct He as [[-> ->]|[-> ->]]; edge).
  unfold run_actions. cbn [foldl uri_act mbind outcome_bind]. rewrite Ha.
  rewrite (run_pct_from _ _ _ _ 453 [u_mark] 454 1 2 query_char query_char) by (edge || by apply pct_first).
  fold (uri_run data). unfold run_actions. cbn [foldl uri_act uri_action_at mbind outcome_bind].
  by replace (S (length pre)) with (length pre + 1)%nat by lia.
Qed.

(** The fragment, if any, and the end of the text. *)
Lemma run_uri_end e a pre f mk u u1 :
  (e = 513 /\ a = u_save_path) \/ (e = 457 /\ a = u_save_query) ->
  data = (pre ++ opt 35 f)%list -> pct_text query_char f = true ->
  uri_action_at data a (length pre) mk u = S0 None u1 ->
  exists cs s mk', R e (length pre) (opt 35 f) (S0 mk u) = (cs, length data, s)
    /\ uri_parser_first_final <= cs
    /\ run_actions (uri_act data) (eof_actions cs uri_parser_eof) (length data) (length data) s =
         S0 mk' (opt_set setFragment f u1).
Proof.
  intros He Hd Hf Ha. pose proof (f_equal length Hd) as Hl. rewrite length_app in Hl.
  destruct f as [|x f].
  - rewrite Nat.add_0_r in Hl. exists e, (S0 mk u), None. split; [by rewrite Hl|].
    split; [destruct He as [[-> _]|[-> _]]; done|].
    assert (eof_actions e uri_parser_eof = [a]) as -> by (by destruct He as [[-> ->]|[-> ->]]).
    unfold run_actions. cbn [foldl uri_act mbind outcome_bind]. by rewrite Hl, Ha.
  - set (l := x :: f) in *. change (opt 35 l) with (35 :: l) in *. cbn [length] in Hl.
    pose proof (run_uri_fragment e a pre l [] mk u u1 He ltac:(done) Hf Ha) as E. rewrite app_nil_r in E.
    rewrite E. exists 454, (S0 (Some (length pre + 1)%nat) u1), None.
    split; [unfold uri_run; cbn [run]; f_equal; f_equal; lia|]. split; [done|].
    change (eof_actions 454 uri_parser_eof) with [u_save_fragment].
    unfold run_actions. cbn [foldl uri_act uri_action_at mbind outcome_bind].
    pose proof (marked_at data (pre ++ [35])%list l []) as M. rewrite length_app in M. cbn [length] in M.
    replace (length data) with (length pre + 1 + length l)%nat by lia.
    rewrite M by (by rewrite Hd, <- List.app_assoc, app_nil_r). done.
Qed.

(** From the end of the path to the end of the text. *)
Lemma run_uri_tail pre path q f u :
  data = (pre ++ path ++ opt 63 q ++ opt 35 f)%list ->
  pct_text query_char q = true -> pct_text query_char f = true ->
  exists cs s mk, R 513 (length pre + length path) (opt 63 q ++ opt 35 f)%list (S0 (Some (length pre)) u) =
      (cs, length data, s)
    /\ uri_parser_first_final <= cs
    /\ run_actions (uri_act data) (eof_actions cs uri_parser_eof) (length data) (length data) s =
         S0 mk (opt_set setFragment f (opt_set setQuery q (setPath (string_of path) u))).
Proof.
  intros Hd Hq Hf.
  assert (uri_action_at data u_save_path (length (pre ++ path)%list) (Some (length pre)) u
    = S0 None (setPath (string_of path) u)) as Hpath.
  { cbn [uri_action_at]. by rewrite length_app, (marked_at data pre path (opt 63 q ++ opt 35 f)%list). }
  rewrite <- length_app. destruct q as [|x q].
  - cbn [opt app] in *. apply (run_uri_end 513 u_save_path); [by left|by rewrite Hd, List.app_assoc|done|done].
  - set (l := x :: q) in *. change (opt 63 l) with (63 :: l) in *. cbn [app].
    rewrite (run_uri_query _ l (opt 35 f) _ _ _ ltac:(done) Hq Hpath).
    assert (data = (pre ++ path ++ 63 :: l) ++ opt 35 f)%list as Hd2
      by (rewrite Hd, <- !List.app_assoc; done).
    replace (length (pre ++ path)%list + 1 + length l)%nat with (length (pre ++ path ++ 63 :: l)%list)
      by (rewrite !length_app; simpl; lia).
    apply (run_uri_end 457 u_save_query); [by right|done|done|].
    cbn [uri_action_at]. pose proof (marked_at data ((pre ++ path) ++ [63])%list l (opt 35 f)) as M.
    rewrite (length_app (pre ++ path)) in M. cbn [length] in M.
    replace (length (pre ++ path ++ 63 :: l)%list) with (length (pre ++ path)%list + 1 + length l)%nat
      by (rewrite !length_app; simpl; lia).
    rewrite M; [done|]. rewrite Hd, <- !List.app_assoc. done.
Qed.
End read.

(** ** Printing *)

Lemma no_char_all s :
  (forall c, (nat_of_ascii c < 48 \/ 57 < nat_of_ascii c)%nat -> no_char c s = true) ->
  forallb (fun b => digit_char (wraps 8 b)) (bytes_of s) = true.
Proof.
  induction s as [|c s IH]; intros H; [done|]. cbn [bytes_of forallb]. apply andb_true_iff. split.
  - destruct (decide (nat_of_ascii c < 48 \/ 57 < nat_of_ascii c)%nat) as [Hc|Hc].
    + specialize (H c Hc). simpl in H. by rewrite Ascii.eqb_refl in H.
    + unfold byte_of. rewrite wraps_small by (try (unfold in_s); lia). unfold digit_char, within.
      apply andb_true_iff. rewrite !Z.leb_le. lia.
  - apply IH. intros c' Hc'. specialize (H c' Hc'). simpl in H. by apply andb_true_iff in H as [_ ?].
Qed.

Lemma decimal_digits n :
  0 <= n -> forallb (fun b => digit_char (wraps 8 b)) (bytes_of (decimal n)) = true
    /\ digits_value (bytes_of (decimal n)) = n /\ bytes_of (decimal n) <> [].
Proof.
  intros Hn. assert (forallb (fun b => digit_char (wraps 8 b)) (bytes_of (decimal n)) = true) as H
    by (apply no_char_all; intros; by apply no_char_decimal).
  split; [done|]. unfold digits_value. rewrite string_bytes, atoi_read, read_decimal by done.
  split; [done|]. intros E. assert (decimal n = "") as E' by (by destruct (decimal n)).
  destruct (decide (n = 0)) as [->|Hn0]; [by vm_compute in E'|].
  pose proof (read_decimal n Hn) as R. rewrite E' in R. simpl in R. lia.
Qed.

(** URIs that [toString] prints so that they can be read again: a name for the
    user, if any, and for the host, characters of paths and queries or "%" with
    two digits, a port that is not negative. *)
Definition uri_ok (u : Uri) : bool :=
  match bytes_of (m_scheme u) with
  | b :: l => alpha_char (wraps 8 b) && forallb (fun b => scheme_char (wraps 8 b)) l
  | [] => false
  end
  && forallb (fun b => name_char (wraps 8 b)) (bytes_of (m_userinfo u))
  && negb (m_host u =? "")%string && forallb (fun b => name_char (wraps 8 b)) (bytes_of (m_host u))
  && (0 <=? m_port u) && (m_port u <? 2 ^ 31)
  && match bytes_of (getPath u) with 47 :: l => pct_text path_char l | _ => false end
  && pct_text query_char (bytes_of (m_query u)) && pct_text query_char (bytes_of (m_fragment u)).

(** What is read: the default port is not printed, an empty path is "/". *)
Definition uri_read (u : Uri) : Uri :=
  mkUri (m_scheme u) (m_userinfo u) (m_host u) (getPath u) (m_query u) (m_fragment u)
    (if isDefaultPort u then 0 else m_port u).

Definition user_part (ui : list Z) : list Z := match ui with [] => [] | _ => (ui ++ [64])%list end.

Lemma bytes_nil s : bytes_of s = [] <-> s = "".
Proof. by destruct s. Qed.

Lemma toString_bytes u :
  uri_ok u = true ->
  exists tail, bytes_of (getPath u) = 47 :: tail /\ pct_text path_char tail = true
  /\ bytes_of (toString u) =
      (bytes_of (m_scheme u) ++ 58 :: 47 :: 47
       :: user_part (bytes_of (m_userinfo u))
       ++ bytes_of (m_host u) ++ (if isDefaultPort u then [] else 58 :: bytes_of (decimal (m_port u)))
       ++ 47 :: tail ++ opt 63 (bytes_of (m_query u)) ++ opt 35 (bytes_of (m_fragment u)))%list.
Proof.
  unfold uri_ok. rewrite !andb_true_iff.
  intros ((((((((_ & _) & _) & _) & Hp%Z.leb_le) & _) & Hpath) & _) & _).
  destruct (bytes_of (getPath u)) as [|b tail] eqn:E; [done|]. exists tail.
  assert (b = 47 /\ pct_text path_char tail = true) as [-> Ht].
  { destruct b as [|b|b]; try done. repeat (destruct b as [b|b|]; try done). }
  split; [done|]. split; [done|]. unfold toString. rewrite !bytes_of_app, E.
  assert (forall c t, bytes_of (if (t =? "")%string then "" else String c "") ++ bytes_of t
    = opt (byte_of c) (bytes_of t))%list as Hopt by (intros c t; by destruct t).
  rewrite !List.app_assoc, <- (List.app_assoc _ _ (bytes_of (m_fragment u))), Hopt.
  rewrite <- !List.app_assoc, (List.app_assoc (bytes_of (if (m_query u =? "")%string then _ else _))), Hopt.
  cbn [app bytes_of]. f_equal. change (bytes_of "://") with [58; 47; 47]. cbn [app]. do 3 f_equal.
  rewrite List.app_assoc. f_equal; [by destruct (m_userinfo u)|]. f_equal. f_equal.
  destruct (isDefaultPort u); [done|]. unfold to_string. rewrite (proj2 (Z.ltb_ge _ _)) by done. done.
Qed.

(** The authority and the first "/" of the path. *)
Lemma run_authority data pre ui host port rest u :
  data = (pre ++ user_part ui ++ host
          ++ match port with None => [] | Some ds => 58 :: ds end ++ 47 :: rest)%list ->
  forallb (fun b => name_char (wraps 8 b)) ui = true ->
  host <> [] -> forallb (fun b => name_char (wraps 8 b)) host = true ->
  match port with
  | None => True
  | Some ds => ds <> [] /\ forallb (fun b => digit_char (wraps 8 b)) ds = true /\ in_s 32 (digits_value ds)
  end ->
  exists pre', data = (pre' ++ 47 :: rest)%list
    /\ uri_run data 511 (length pre) (user_part ui ++ host
          ++ match port with None => [] | Some ds => 58 :: ds end ++ 47 :: rest)%list (Ok (None, u))
       = uri_run data 513 (S (length pre')) rest
           (Ok (Some (length pre'),
             match port with None => id | Some ds => setPort (digits_value ds) end
               (setHost (string_of host) (opt_set setUserinfo ui u)))).
Proof.
  intros Hd Hui Hne Hhost Hport.
  assert (exists e m pre1 mk, authority_at e m
    /\ data = (pre1 ++ host ++ match port with None => [] | Some ds => 58 :: ds end ++ 47 :: rest)%list
    /\ uri_run data 511 (length pre) (user_part ui ++ host
          ++ match port with None => [] | Some ds => 58 :: ds end ++ 47 :: rest)%list (Ok (None, u))
       = uri_run data e (length pre1) (host ++ match port with None => [] | Some ds => 58 :: ds end ++ 47 :: rest)%list
           (Ok (mk, opt_set setUserinfo ui u))) as (e & m & pre1 & mk & He & Hd1 & ->).
  { destruct ui as [|x ui]; [by exists 511, 521, pre, None; split_and!; [left| |]|].
    set (l := x :: ui) in *. change (user_part l) with (l ++ [64])%list in *.
    rewrite <- !List.app_assoc in *. cbn [app] in *.
    exists 522, 514, (pre ++ l ++ [64])%list, None. split; [by right|].
    split; [by rewrite Hd, <- !List.app_assoc|].
    rewrite (run_userinfo data pre l _ None u Hd) by done. f_equal. rewrite !length_app. simpl. lia. }
  clear Hd. destruct port as [ds|].
  - destruct Hport as (Hds & Hdig & Hin). cbn [app] in *.
    exists (pre1 ++ host ++ 58 :: ds)%list. split; [by rewrite Hd1, <- !List.app_assoc|].
    rewrite (run_host data e m pre1 host _ mk _ false He Hd1 Hne Hhost).
    replace (length pre1 + length host + 1)%nat with (length (pre1 ++ host ++ [58])%list)
      by (rewrite !length_app; simpl; lia).
    rewrite (run_port data e m _ ds rest _ _ He);
      [|by rewrite Hd1, <- !List.app_assoc|done..].
    rewrite !length_app. cbn [length].
    replace (length pre1 + (length host + 1) + length ds)%nat
      with (length pre1 + (length host + S (length ds)))%nat by lia.
    f_equal. lia.
  - cbn [app] in *. exists (pre1 ++ host)%list. split; [by rewrite Hd1, <- List.app_assoc|].
    rewrite (run_host data e m pre1 host rest mk _ true He Hd1 Hne Hhost). rewrite length_app.
    f_equal. lia.
Qed.

(** ** Properties *)

(** C18: Whatever the text, [Uri::Create] dereferences its mark only where it is
    set and so returns a URI or null, unless the port overflows an [int] or the
    text may have an empty port, which is undefined behaviour: texts with a
    colon, anywhere after two slashes, that is followed by a slash, a question
    mark, a hash or the end are left out, more than those with an empty port. *)
Theorem uri_create_safe s :
  empty_port false (bytes_of s) = false ->
  (exists o, Create s = Ok o) \/ Create s = Err (UB signed_overflow).
Proof.
  intros He. unfold Create.
  pose proof (uri_run_safe (bytes_of s) (bytes_of s) uri_parser_start 0 false (Ok (None, newUri))) as H.
  destruct (uri_run _ _ _ _ _) as [[cs p] st].
  destruct H as (H1 & H2 & H3); [by constructor|done|unfold uri_parser_start; lia|]. rewrite Nat.add_0_l in H1, H2, H3.
  assert (exists m, mark_set m (if (p =? length (bytes_of s))%nat then
    run_actions (uri_act (bytes_of s)) (eof_actions cs uri_parser_eof) p (length (bytes_of s)) st else st))
    as [m Hm].
  { destruct (Nat.eqb_spec p (length (bytes_of s))) as [E|E]; [|apply H2; lia].
    destruct (H3 E) as (Hcs & Hp & Hm). pose proof uri_eof_ok as Hf. rewrite forallb_forall in Hf.
    specialize (Hf cs). rewrite Hp in Hf. cbn [orb] in Hf.
    destruct (mark_flow _ _) as [m|] eqn:Hfl.
    - exists m. by eapply mark_set_acts.
    - discriminate Hf. apply list_elem_of_In, elem_of_seqZ. lia. }
  destruct (if (p =? _)%nat then _ else st) as [[mk u]|e]; simpl in Hm |- *.
  - left. destruct (_ =? _); [eauto|]. destruct (_ <=? _); eauto.
  - right. by rewrite Hm.
Qed.

Lemma uri_create_safe_witness :
  empty_port false (bytes_of "http://u:p@[::1]:8080/a?b#c") = false
  /\ exists o, Create "http://u:p@[::1]:8080/a?b#c" = Ok o.
Proof.
  split; [vm_compute; reflexivity|].
  destruct (uri_create_safe "http://u:p@[::1]:8080/a?b#c") as [H|H]; [vm_compute; reflexivity|exact H|].
  vm_compute in H. discriminate H.
Defined.

(** The empty ports the theorem leaves out are undefined behaviour. *)
Lemma empty_port_undefined :
  Create "http://sylar.top:" = Err (UB null_deref) /\ Create "http://sylar.top:/a" = Err (UB null_deref).
Proof. vm_compute. auto. Qed.

(** A password of digits is taken for the port first, and only it is kept. *)
Lemma digit_password_lost :
  option_map m_userinfo (match Create "http://user:80@h/" with Ok o => o | Err _ => None end) = Some "80".
Proof. vm_compute. reflexivity. Qed.

(** C17: [Create] of the text [toString] prints for a URI, through the
    ragel-generated machine, gives the same scheme, user, host, query and
    fragment, the path or a slash for the empty one, and a port [getPort] reads
    alike, if the scheme is one of the grammar, user and host are names of
    unreserved characters and sub-delimiters (no colon, no percent-encoding, no
    IP literal; the user may be empty, the host not), the path begins with a
    slash, path, query and fragment have characters of the grammar or
    percent-encoded ones, and the port is a non-negative [int]. A user with a
    colon can be lost: [digit_password_lost]. *)
Theorem uri_text_roundtrip u :
  uri_ok u = true ->
  Create (toString u) = Ok (Some (uri_read u)) /\ getPort (uri_read u) = getPort u
  /\ getPath (uri_read u) = getPath u.
Proof.
  intros Hok. destruct (toString_bytes u Hok) as (tail & Epath & Ht & Etext).
  unfold uri_ok in Hok. rewrite !andb_true_iff in Hok.
  destruct Hok as ((((((((Hs & Hui) & Hh) & Hhost) & Hp1%Z.leb_le) & Hp2%Z.ltb_lt) & _) & Hq) & Hf).
  assert (bytes_of (m_host u) <> []) as Hne by (intros E; apply bytes_nil in E; by rewrite E in Hh).
  split_and!.
  - unfold Create. set (data := bytes_of (toString u)) in *.
    set (port := if isDefaultPort u then None else Some (bytes_of (decimal (m_port u)))).
    assert (data = (bytes_of (m_scheme u) ++ [58; 47; 47])
       ++ user_part (bytes_of (m_userinfo u))
       ++ bytes_of (m_host u) ++ match port with None => [] | Some ds => 58 :: ds end
       ++ 47 :: tail ++ opt 63 (bytes_of (m_query u)) ++ opt 35 (bytes_of (m_fragment u)))%list as Hd.
    { rewrite Etext, <- List.app_assoc. unfold port. by destruct (isDefaultPort u). }
    destruct (run_authority data _ (bytes_of (m_userinfo u)) (bytes_of (m_host u)) port
      (tail ++ opt 63 (bytes_of (m_query u)) ++ opt 35 (bytes_of (m_fragment u)))%list
      (setScheme (m_scheme u) newUri) Hd Hui Hne Hhost) as (pre & Hd2 & Hrun).
    { unfold port. destruct (isDefaultPort u); [done|].
      destruct (decimal_digits (m_port u) Hp1) as (D1 & D2 & D3). rewrite D2. split_and!; [done|done|].
      unfold in_s. lia. }
    destruct (run_uri_tail data pre (47 :: tail) (bytes_of (m_query u)) (bytes_of (m_fragment u))
      (match port with None => id | Some ds => setPort (digits_value ds) end
        (setHost (m_host u) (opt_set setUserinfo (bytes_of (m_userinfo u)) (setScheme (m_scheme u) newUri))))
      Hd2 Hq Hf) as (cs & s & mk & Hend & Hcs & Heof).
    assert (uri_run data uri_parser_start 0 data (Ok (None, newUri)) = (cs, length data, s)) as ->.
    { pose proof (run_scheme data (bytes_of (m_scheme u)) _ Hs ltac:(rewrite Hd, <- List.app_assoc; reflexivity)) as E.
      rewrite string_bytes in E. rewrite Hd at 2. rewrite <- List.app_assoc. cbn [app].
      etransitivity; [exact E|]. rewrite length_app in Hrun. cbn [length] in Hrun.
      rewrite Hrun, string_bytes. unfold uri_run at 1.
      rewrite (run_pct _ _ _ _ 513 243 244 path_char) by edge.
      fold (uri_run data). rewrite <- Hend. f_equal. simpl. lia. }
    rewrite Nat.eqb_refl, Heof. cbn [mbind outcome_bind].
    unfold uri_parser_first_final in *. rewrite (proj2 (Z.eqb_neq _ _)) by (unfold uri_parser_error; lia).
    rewrite (proj2 (Z.leb_le _ _)) by done. do 2 f_equal.
    unfold uri_read. rewrite <- Epath, string_bytes. unfold port.
    destruct (decimal_digits (m_port u) Hp1) as (_ & D2 & _). clear -D2.
    generalize (getPath u) as path'. intros path'.
    destruct (isDefaultPort u); [|rewrite D2]; clear D2; destruct u as [sch [] host path [] [] port];
      cbn [m_scheme m_userinfo m_host m_query m_fragment m_port bytes_of opt_set string_of];
      rewrite ?char_of_byte_of, ?string_bytes; done.
  - unfold getPort, uri_read, isDefaultPort. cbn [m_scheme m_port].
    destruct (Z.eqb_spec (m_port u) 0) as [E|E]; [by rewrite E|].
    destruct (_ || _); [destruct (Z.eqb_spec (m_port u) 80) as [->|]; [done|by rewrite (proj2 (Z.eqb_neq _ _))]|].
    destruct (_ || _); [destruct (Z.eqb_spec (m_port u) 443) as [->|]; [done|by rewrite (proj2 (Z.eqb_neq _ _))]|].
    by rewrite (proj2 (Z.eqb_neq _ _)).
  - unfold uri_read. unfold getPath at 1. cbn [m_path]. unfold getPath.
    destruct (m_path u =? "")%string eqn:E; [done|]. by rewrite E.
Qed.

Definition sample_uri : Uri := mkUri "http" "me" "www.sylar.top" "/a/%20b" "c=d&e=/?" "f" 8080.

Lemma uri_text_roundtrip_witness :
  Create "http://me@www.sylar.top:8080/a/%20b?c=d&e=/?#f" = Ok (Some sample_uri).
Proof. apply (uri_text_roundtrip sample_uri). vm_compute. reflexivity. Defined.

(** Only the path behind an authority is saved. *)
Lemma relative_path_lost :
  option_map m_path (match Create "/a/b?c" with Ok o => o | Err _ => None end) = Some ""
  /\ option_map m_path (match Create "mailto:a@b" with Ok o => o | Err _ => None end) = Some "".
Proof. vm_compute. auto. Qed.
