(* ===== verification/Address.v ===== *)
(** * [sylar/address.h], [sylar/address.cc]

    Socket addresses as the structures they wrap.  Integers in a structure are
    as the program stores them, so [sin_port] and [s_addr] are in network order
    through [byteswapOnLittleEndian] of the host; [s6_addr] is a list of bytes.
    [getaddrinfo], [inet_pton] and [getifaddrs] are outside the model: what is
    modelled of [Lookup] is the splitting of its argument. *)

From stdpp Require Import base list strings.
From Stdlib Require Import ZArith Lia Ascii String.
From S2P Require Import Prelude Endian Varint Http HttpParser.

Local Open Scope string_scope.
Local Open Scope Z_scope.

Definition AF_UNIX : Z := 1.
Definition AF_INET : Z := 2.
Definition AF_INET6 : Z := 10.

(** [CreateMask<T>] for a [T] of [w] bits: the shift is of an [int], whose
    width bounds it, and so is the subtraction. *)
Definition CreateMask (w bits : Z) : outcome Z :=
  let sh := u64 (w - bits) in
  if 32 <=? sh then Err (UB bad_shift) else
  r ← sarith 32 (i32 (2 ^ sh) - 1);
  Ok (wrapu w r).

(** [CountBytes]: the loop clears the lowest set bit. *)
Fixpoint CountBytes_loop (fuel : nat) (value result : Z) : outcome Z :=
  if value =? 0 then Ok result else
  match fuel with
  | O => Err NoFuel
  | S fuel => CountBytes_loop fuel (Z.land value (value - 1)) (result + 1)
  end.
Definition CountBytes (value : Z) : outcome Z := CountBytes_loop 64 value 0.

(** The sum over the sixteen bytes of an IPv6 mask, in [GetInterfaceAddresses]. *)
Fixpoint count_all (l : list Z) (prefix_len : Z) : outcome Z :=
  match l with
  | [] => Ok prefix_len
  | b :: l => n ← CountBytes b; count_all l (u32 (prefix_len + n))
  end.

(** ** The structures *)

Record sockaddr_in := SIn {
  sin_family : Z;
  sin_port : Z;
  s_addr : Z;
}.

Record sockaddr_in6 := SIn6 {
  sin6_family : Z;
  sin6_port : Z;
  sin6_flowinfo : Z;
  s6_addr : list Z;
  sin6_scope_id : Z;
}.

(** [sun_path] has 108 bytes; [m_length] is kept beside it. *)
Record UnixAddress := UA {
  sun_family : Z;
  sun_path : list Z;
  m_length : Z;
}.

Definition sun_path_size : nat := 108.
(** [offsetof(sockaddr_un, sun_path)] *)
Definition sun_path_offset : Z := 2.

Section host.
Context (host : endian).

Notation net16 := (byteswapOnLittleEndian host uint16_t).
Notation net32 := (byteswapOnLittleEndian host uint32_t).

(** ** [IPv4Address] *)

Definition newIPv4Address (address port : Z) : sockaddr_in :=
  SIn AF_INET (net16 port) (net32 address).

Definition v4_getPort (a : sockaddr_in) : Z := net16 (sin_port a).
Definition v4_setPort (v : Z) (a : sockaddr_in) : sockaddr_in :=
  SIn (sin_family a) (net16 v) (s_addr a).

(** The address as a number, as [insert] computes it. *)
Definition v4_value (a : sockaddr_in) : Z := net32 (s_addr a).

Definition v4_octet (addr sh : Z) : string := decimal (Z.land (Z.shiftr addr sh) 0xff).
Definition v4_insert (a : sockaddr_in) : string :=
  let addr := net32 (s_addr a) in
  v4_octet addr 24 ++ "." ++ v4_octet addr 16 ++ "." ++ v4_octet addr 8 ++ "."
  ++ decimal (Z.land addr 0xff) ++ ":" ++ decimal (net16 (sin_port a)).

(** The derived addresses; [None] is the null pointer. *)
Definition v4_broadcastAAddress (prefix_len : Z) (a : sockaddr_in) : outcome (option sockaddr_in) :=
  if 32 <? prefix_len then Ok None else
  m ← CreateMask 32 prefix_len;
  Ok (Some (SIn (sin_family a) (sin_port a) (Z.lor (s_addr a) (net32 m)))).

Definition v4_networkAddress (prefix_len : Z) (a : sockaddr_in) : outcome (option sockaddr_in) :=
  if 32 <? prefix_len then Ok None else
  m ← CreateMask 32 prefix_len;
  Ok (Some (SIn (sin_family a) (sin_port a) (Z.land (s_addr a) (net32 m)))).

Definition v4_subnetMask (prefix_len : Z) : outcome sockaddr_in :=
  m ← CreateMask 32 prefix_len;
  Ok (SIn AF_INET 0 (u32 (Z.lnot (net32 m)))).

(** ** [IPv6Address] *)

(** The default constructor stores [AF_INET]. *)
Definition newIPv6Address_default : sockaddr_in6 := SIn6 AF_INET 0 0 (replicate 16 0) 0.
Definition newIPv6Address (address : list Z) (port : Z) : sockaddr_in6 :=
  SIn6 AF_INET6 (net16 port) 0 address 0.

Definition v6_getPort (a : sockaddr_in6) : Z := net16 (sin6_port a).
Definition v6_setPort (v : Z) (a : sockaddr_in6) : sockaddr_in6 :=
  SIn6 (sin6_family a) (net16 v) (sin6_flowinfo a) (s6_addr a) (sin6_scope_id a).

Definition with_addr (l : list Z) (a : sockaddr_in6) : sockaddr_in6 :=
  SIn6 (sin6_family a) (sin6_port a) (sin6_flowinfo a) l (sin6_scope_id a).

(** [s6_addr[i] op= ...]; an index from 16 up is out of range. *)
Definition update6 (i : nat) (f : Z -> Z) (l : list Z) : outcome (list Z) :=
  b ← deref index_oob (l !! i); Ok (<[i := f b]> l).

(** [for (i = k; i < 16; ++i) s6_addr[i] = v] *)
Definition fill_from (k : nat) (v : Z) (l : list Z) : list Z :=
  take k l ++ replicate (16 - k) v.

Definition v6_broadcastAAddress (prefix_len : Z) (a : sockaddr_in6) : outcome sockaddr_in6 :=
  let i := Z.to_nat (prefix_len / 8) in
  m ← CreateMask 8 (prefix_len mod 8);
  l ← update6 i (fun b => Z.lor b m) (s6_addr a);
  Ok (with_addr (fill_from (S i) 0xff l) a).

Definition v6_networkAddress (prefix_len : Z) (a : sockaddr_in6) : outcome sockaddr_in6 :=
  let i := Z.to_nat (prefix_len / 8) in
  m ← CreateMask 8 (prefix_len mod 8);
  l ← update6 i (fun b => Z.land b m) (s6_addr a);
  Ok (with_addr (fill_from (S i) 0 l) a).

(** [memset] after the assignment of the family clears it. *)
Definition v6_subnetMask (prefix_len : Z) : outcome sockaddr_in6 :=
  let i := Z.to_nat (prefix_len / 8) in
  m ← CreateMask 8 (prefix_len mod 8);
  l ← update6 i (fun _ => u8 (Z.lnot m)) (replicate 16 0);
  Ok (SIn6 0 0 0 (replicate i 0xff ++ drop i l) 0).
End host.

(** [os << std::hex << (int)v]; 8 digits are enough for an [int]. *)
Definition hex_char (d : Z) : ascii :=
  ascii_of_nat (Z.to_nat (if d <? 10 then 48 + d else 87 + d)).
Fixpoint hex_digits (fuel : nat) (n : Z) : string :=
  match fuel with
  | O => ""
  | S fuel => (if n <? 16 then "" else hex_digits fuel (n / 16)) ++ String (hex_char (n mod 16)) ""
  end.

(** The array [addr]: the bytes of the address read as [uint16_t] of the
    host. *)
Fixpoint groups16 (host : endian) (l : list Z) : list Z :=
  match l with
  | a :: b :: l => of_obj_bytes host uint16_t [a; b] :: groups16 host l
  | _ => []
  end.

(** The loop of [insert] from group [i] on; [prev] is the group before. *)
Fixpoint v6_loop (host : endian) (i : nat) (prev : Z) (used_zeros : bool) (addr : list Z) : string * bool :=
  match addr with
  | [] => ("", used_zeros)
  | v :: addr =>
      if (v =? 0) && negb used_zeros then v6_loop host (S i) v used_zeros addr
      else
        let first := negb (i =? 0)%nat && (prev =? 0) && negb used_zeros in
        let used_zeros := used_zeros || first in
        let '(os, u) := v6_loop host (S i) v used_zeros addr in
        ((if first then ":" else "") ++ (if (i =? 0)%nat then "" else ":")
         ++ hex_digits 8 (byteswapOnLittleEndian host uint16_t v) ++ os, u)
  end.

Definition v6_insert (host : endian) (a : sockaddr_in6) : string :=
  let addr := groups16 host (s6_addr a) in
  let '(os, used_zeros) := v6_loop host 0 0 false addr in
  "[" ++ os ++ (if negb used_zeros && (nth 7 addr 0 =? 0)%Z then "::" else "")
  ++ "]:" ++ decimal (byteswapOnLittleEndian host uint16_t (sin6_port a)).

(** ** [UnixAddress] *)

Definition newUnixAddress_default : UnixAddress :=
  UA AF_UNIX (replicate sun_path_size 0) (sun_path_offset + Z.of_nat sun_path_size - 1).

(** [UnixAddress(path)]: an abstract name starts with a zero byte and is not
    terminated by one. *)
Definition newUnixAddress (path : string) : outcome UnixAddress :=
  let len := Z.of_nat (String.length path) + 1 in
  let len := match path with String c _ => if Ascii.eqb c NUL then len - 1 else len | "" => len end in
  if Z.of_nat sun_path_size <? len then Err (Throws logic_error) else
  let bytes := take (Z.to_nat len) (bytes_of path ++ [0])%list in
  Ok (UA AF_UNIX (splice 0 bytes (replicate sun_path_size 0)) (len + sun_path_offset)).

Definition setAddrLen (v : Z) (a : UnixAddress) : UnixAddress := UA (sun_family a) (sun_path a) v.

(** [getPath], and what [insert] prints. *)
Definition getPath (a : UnixAddress) : string :=
  if (sun_path_offset <? m_length a) && (nth 0 (sun_path a) 0 =? 0) then
    "\0" ++ string_of (slice 1 (Z.to_nat (m_length a - sun_path_offset - 1)) (sun_path a))
  else c_str (string_of (sun_path a)).

(** ** [Address] *)

Inductive Address :=
  | IPv4Address (a : sockaddr_in)
  | IPv6Address (a : sockaddr_in6)
  | UnixAddr (a : UnixAddress)
  | UnknownAddress (sa_family : Z) (sa_data : list Z).

(** [Address::Create]: by the family of the structure. *)
Definition getFamily (a : Address) : Z :=
  match a with
  | IPv4Address a => sin_family a
  | IPv6Address a => sin6_family a
  | UnixAddr a => sun_family a
  | UnknownAddress f _ => f
  end.

(** The bytes [getAddr()] points to, as many as [getAddrLen()]. *)
Definition addr_bytes (host : endian) (a : Address) : list Z :=
  match a with
  | IPv4Address a =>
      obj_bytes host uint16_t (sin_family a) ++ obj_bytes host uint16_t (sin_port a)
      ++ obj_bytes host uint32_t (s_addr a) ++ replicate 8 0
  | IPv6Address a =>
      obj_bytes host uint16_t (sin6_family a) ++ obj_bytes host uint16_t (sin6_port a)
      ++ obj_bytes host uint32_t (sin6_flowinfo a) ++ s6_addr a
      ++ obj_bytes host uint32_t (sin6_scope_id a)
  | UnixAddr a =>
      take (Z.to_nat (m_length a)) (obj_bytes host uint16_t (sun_family a) ++ sun_path a)
  | UnknownAddress f d => obj_bytes host uint16_t f ++ d
  end%list.

(** [memcmp] of the first [n] bytes. *)
Fixpoint memcmp (n : nat) (l r : list Z) : comparison :=
  match n, l, r with
  | S n, x :: l, y :: r => match x ?= y with Eq => memcmp n l r | c => c end
  | _, _, _ => Eq
  end.

(** [operator<], [operator==] on the bytes. *)
Definition bytes_less (l r : list Z) : bool :=
  match memcmp (Nat.min (List.length l) (List.length r)) l r with
  | Lt => true
  | Gt => false
  | Eq => (List.length l <? List.length r)%nat
  end.
Definition bytes_equal (l r : list Z) : bool :=
  (List.length l =? List.length r)%nat
  && match memcmp (List.length l) l r with Eq => true | _ => false end.

Definition address_less (host : endian) (a b : Address) : bool :=
  bytes_less (addr_bytes host a) (addr_bytes host b).
Definition address_equal (host : endian) (a b : Address) : bool :=
  bytes_equal (addr_bytes host a) (addr_bytes host b).

(** ** [Address::Lookup]: the node and the service *)

(** [memchr]: the text before and after the first [c]. *)
Fixpoint memchr (c : ascii) (s : string) : option (string * string) :=
  match s with
  | "" => None
  | String x s =>
      if Ascii.eqb x c then Some ("", s)
      else match memchr c s with Some (a, b) => Some (String x a, b) | None => None end
  end.

(** A bracketed address, and the service behind "]:". *)
Definition bracketed (host : string) : string * option string :=
  match host with
  | String "["%char rest =>
      match memchr "]" rest with
      | Some (node, String ":"%char service) => (node, Some service)
      | Some (node, _) => (node, None)
      | None => ("", None)
      end
  | _ => ("", None)
  end.

(** "host:service"; with a second colon the node stays empty, but [service]
    keeps pointing at the first one. *)
Definition colon_split (host : string) : string * option string :=
  match memchr ":" host with
  | None => ("", None)
  | Some (node, service) =>
      match memchr ":" service with
      | None => (node, Some service)
      | Some _ => ("", Some (":" ++ service))
      end
  end.

(** The arguments of [getaddrinfo]. *)
Definition split_host (host : string) : string * option string :=
  let '(node, service) := bracketed host in
  let '(node, service) := if String.eqb node "" then colon_split host else (node, service) in
  ((if String.eqb node "" then host else node), service).
