(* ===== verification/AddressTheorems.v ===== *)
(** * What addresses compute

    Subnets of IPv4 addresses on either kind of host, prefix lengths and
    masks, the text of IPv6 addresses, the order of addresses, the paths of
    Unix addresses and the splitting of a host and a service. *)

From stdpp Require Import base list strings.
From Stdlib Require Import ZArith Lia Ascii String.
From S2P Require Import Prelude Endian Varint Http HttpTheorems HttpParser Address.

Local Open Scope string_scope.
Local Open Scope Z_scope.

(** ** Masks *)

Lemma CreateMask_32 p : 2 <= p <= 32 -> CreateMask 32 p = Ok (2 ^ (32 - p) - 1).
Proof.
  intros Hp. apply (interval_check (fun p => CreateMask 32 p = Ok (2 ^ (32 - p) - 1)) 2 31);
    [by vm_compute|lia].
Qed.

Lemma mask_range p : 0 <= p <= 32 -> in_u 32 (2 ^ (32 - p) - 1).
Proof.
  intros Hp. unfold in_u. pose proof (Z.pow_pos_nonneg 2 (32 - p) ltac:(lia) ltac:(lia)).
  pose proof (Z.pow_le_mono_r 2 (32 - p) 32 ltac:(lia) ltac:(lia)). lia.
Qed.

(** Setting the low bits. *)
Lemma lor_ones_high a k :
  0 <= k -> 0 <= a -> Z.lor a (2 ^ k - 1) = a / 2 ^ k * 2 ^ k + (2 ^ k - 1).
Proof.
  intros Hk Ha. assert (in_u k (2 ^ k - 1)) as Hr
    by (unfold in_u; pose proof (Z.pow_pos_nonneg 2 k ltac:(lia) Hk); lia).
  rewrite Z.add_comm, <- lor_shiftl_add by done.
  replace (2 ^ k - 1) with (Z.ones k) by (rewrite Z.ones_equiv; lia).
  apply Z.bits_inj'. intros n Hn. rewrite !Z.lor_spec.
  destruct (Z.ltb_spec n k) as [Hlt|Hge].
  - rewrite Z.ones_spec_low by lia. by rewrite orb_true_r.
  - rewrite Z.ones_spec_high, Z.shiftl_spec_high by lia.
    rewrite Z.div_pow2_bits by lia. simpl. rewrite orb_false_r. f_equal. lia.
Qed.

Lemma land_ones_low a k : 0 <= k -> Z.land a (2 ^ k - 1) = a mod 2 ^ k.
Proof.
  intros Hk. replace (2 ^ k - 1) with (Z.ones k) by (rewrite Z.ones_equiv; lia).
  by apply Z.land_ones.
Qed.

Lemma u32_lnot x : in_u 32 x -> u32 (Z.lnot x) = Z.lxor x (2 ^ 32 - 1).
Proof.
  intros Hx. rewrite lxor_ones_small by (done || lia). unfold u32, wrapu, Z.lnot, in_u in *.
  replace (Z.pred (- x)) with (2 ^ 32 - 1 - x + -1 * 2 ^ 32) by lia.
  rewrite Z.mod_add by lia. apply Z.mod_small. lia.
Qed.

Section v4.
Context (host : endian).
Notation net32 := (byteswapOnLittleEndian host uint32_t).

Lemma net32_range x : in_u 32 x -> in_u 32 (net32 x).
Proof. intros. destruct host; [|done]. by apply (byteswap_range uint32_t); simpl; lia. Qed.

Lemma net32_op op x y :
  bitwise op -> in_u 32 x -> in_u 32 y -> net32 (op (net32 x) (net32 y)) = op x y.
Proof. intros Hop Hx Hy. by apply net_bitwise; simpl; try lia. Qed.

Lemma net32_not x : in_u 32 x -> net32 (u32 (Z.lnot (net32 x))) = 2 ^ 32 - 1 - x.
Proof.
  intros Hx. rewrite u32_lnot by (by apply net32_range).
  replace (2 ^ 32 - 1) with (net32 (2 ^ 32 - 1)) at 1 by (by destruct host).
  rewrite (net32_op Z.lxor) by (try apply bitwise_lxor; done). by apply lxor_ones_small.
Qed.
End v4.

(** ** The text of an IPv6 address *)

(** A reader for the notation: words of hexadecimal digits and colons up to the
    closing bracket. *)
Inductive tok := Colon | Group (v : Z).

Definition hex_value (c : ascii) : option Z :=
  let n := Z.of_nat (nat_of_ascii c) in
  if (48 <=? n) && (n <=? 57) then Some (n - 48)
  else if (97 <=? n) && (n <=? 102) then Some (n - 87) else None.

Definition flush_group (cur : option Z) : list tok := match cur with Some v => [Group v] | None => [] end.

Fixpoint lex (cur : option Z) (s : string) : option (list tok * string) :=
  match s with
  | "" => None
  | String c r =>
      match hex_value c with
      | Some d => lex (Some (16 * default 0 cur + d)) r
      | None =>
          if Ascii.eqb c "]" then Some (flush_group cur, r)
          else if Ascii.eqb c ":" then '(ts, o) ← lex None r; Some (flush_group cur ++ Colon :: ts, o)%list
          else None
      end
  end.

(** Groups with single colons between them. *)
Fixpoint read_seq (ts : list tok) : option (list Z) :=
  match ts with
  | [] => Some []
  | [Group v] => Some [v]
  | Group v :: Colon :: ((_ :: _) as r) => cons v <$> read_seq r
  | _ => None
  end.

(** The part before and after the first double colon. *)
Fixpoint split_double (ts : list tok) : list tok * option (list tok) :=
  match ts with
  | Colon :: (Colon :: r) => ([], Some r)
  | t :: r => let '(l, o) := split_double r in (t :: l, o)
  | [] => ([], None)
  end.

(** Eight groups; a double colon stands for the zeros that are missing. *)
Definition read_groups (ts : list tok) : option (list Z) :=
  match split_double ts with
  | (l, None) => read_seq l
  | (l, Some r) =>
      l ← read_seq l; r ← read_seq r;
      if (List.length l + List.length r <? 8)%nat
      then Some (l ++ replicate (8 - List.length l - List.length r) 0 ++ r)%list else None
  end.

(** The 16 bytes in network order and the port of a text "[groups]:port". *)
Definition read_ipv6 (s : string) : option (list Z * Z) :=
  match s with
  | String "[" r =>
      '(ts, r) ← lex None r;
      gs ← read_groups ts;
      match r with
      | String ":" p => Some (List.concat (map (fun v => [v / 256; v mod 256]) gs), read_dec 0 p)
      | _ => None
      end
  | _ => None
  end.

Lemma hex_value_char d : 0 <= d < 16 -> hex_value (hex_char d) = Some d.
Proof.
  intros H. apply (interval_check (fun d => hex_value (hex_char d) = Some d) 0 16); [by vm_compute|lia].
Qed.

Lemma string_app_empty_r (s : string) : (s ++ "")%string = s.
Proof. induction s as [|c s IH]; [done|]. by rewrite app_String, IH. Qed.

Lemma lex_hex fuel n s : 0 <= n < 16 ^ Z.of_nat (S fuel) -> lex None (hex_digits (S fuel) n ++ s) = lex (Some n) s.
Proof.
  assert (Hd : forall m r, lex (Some (m / 16)) (String (hex_char (m mod 16)) "" ++ r) = lex (Some m) r).
  { intros m r. rewrite app_String, app_empty. cbn [lex]. rewrite hex_value_char by (apply Z.mod_pos_bound; lia).
    change (default 0 (Some (m / 16))) with (m / 16). f_equal. f_equal. pose proof (Z.div_mod m 16). lia. }
  assert (Hs : forall m r, 0 <= m < 16 -> lex None ("" ++ String (hex_char (m mod 16)) "" ++ r) = lex (Some m) r).
  { intros m r Hm. rewrite app_empty, app_String, app_empty. cbn [lex].
    rewrite Z.mod_small, hex_value_char by lia. change (default 0 None) with 0. f_equal. }
  revert n s. induction fuel as [|fuel IH]; intros n s Hn.
  - change (16 ^ Z.of_nat 1) with 16 in Hn. cbn [hex_digits]. rewrite (proj2 (Z.ltb_lt n 16)), string_app_assoc by lia. apply Hs; lia.
  - change (hex_digits (S (S fuel)) n) with ((if n <? 16 then "" else hex_digits (S fuel) (n / 16)) ++ String (hex_char (n mod 16)) "").
    destruct (Z.ltb_spec n 16); rewrite string_app_assoc; [apply Hs; lia|].
    rewrite IH; [apply Hd|]. rewrite (Nat2Z.inj_succ (S fuel)), Z.pow_succ_r in Hn by lia.
    split; [apply Z.div_pos; lia|apply Z.div_lt_upper_bound; lia].
Qed.

(** The tokens [insert] prints, [sw] being the byte swap. *)
Section tokens.
Context (sw : Z -> Z).

Fixpoint v6_toks (i : nat) (prev : Z) (used_zeros : bool) (addr : list Z) : list tok * bool :=
  match addr with
  | [] => ([], used_zeros)
  | v :: addr =>
      if (v =? 0) && negb used_zeros then v6_toks (S i) v used_zeros addr
      else
        let first := negb (i =? 0)%nat && (prev =? 0) && negb used_zeros in
        let used_zeros := used_zeros || first in
        let '(ts, u) := v6_toks (S i) v used_zeros addr in
        ((if first then [Colon] else []) ++ (if (i =? 0)%nat then [] else [Colon]) ++ Group (sw v) :: ts, u)%list
  end.

Definition v6_tokens (addr : list Z) : list tok :=
  let '(ts, used_zeros) := v6_toks 0 0 false addr in
  (ts ++ (if negb used_zeros && (nth 7 addr 0 =? 0)%Z then [Colon; Colon] else []))%list.

Lemma read_v6_tokens a b c d e f g h : sw 0 = 0 ->
  read_groups (v6_tokens [a; b; c; d; e; f; g; h]) = Some (map sw [a; b; c; d; e; f; g; h]).
Proof.
  intros H0. unfold v6_tokens. simpl.
  destruct (Z.eqb_spec a 0) as [->|], (Z.eqb_spec b 0) as [->|], (Z.eqb_spec c 0) as [->|],
    (Z.eqb_spec d 0) as [->|]; simpl;
  destruct (Z.eqb_spec e 0) as [->|], (Z.eqb_spec f 0) as [->|], (Z.eqb_spec g 0) as [->|],
    (Z.eqb_spec h 0) as [->|]; rewrite ?H0; reflexivity.
Qed.
End tokens.

Definition tok_text (t : tok) : string :=
  match t with Colon => ":" | Group v => hex_digits 8 v end.
Definition toks_text (ts : list tok) : string := String.concat "" (map tok_text ts).

(** A colon or the end behind every group, which has 16 bits. *)
Fixpoint spaced (ts : list tok) : Prop :=
  match ts with
  | [] => True
  | Colon :: ts => spaced ts
  | Group v :: ts => 0 <= v < 65536 /\ match ts with Group _ :: _ => False | _ => True end /\ spaced ts
  end.

Lemma toks_text_cons t ts : toks_text (t :: ts) = (tok_text t ++ toks_text ts)%string.
Proof. unfold toks_text. cbn. destruct (map tok_text ts); [by rewrite string_app_empty_r|done]. Qed.

Lemma toks_text_app ts1 ts2 : toks_text (ts1 ++ ts2) = (toks_text ts1 ++ toks_text ts2)%string.
Proof. induction ts1 as [|t ts1 IH]; [done|]. cbn [app]. by rewrite !toks_text_cons, IH, string_app_assoc. Qed.

Lemma lex_toks ts r : spaced ts -> lex None (toks_text ts ++ String "]" r) = Some (ts, r).
Proof.
  induction ts as [|[|v] ts IH]; intros H; [done|..]; rewrite toks_text_cons, string_app_assoc.
  - cbn [tok_text]. rewrite app_String, app_empty. cbn [lex]. rewrite IH by done. reflexivity.
  - cbn [tok_text]. destruct H as (Hv & Hn & H). rewrite (lex_hex 7) by (change (16 ^ Z.of_nat 8) with 4294967296; lia).
    destruct ts as [|[|w] ts]; [reflexivity| |done]. specialize (IH H). rewrite toks_text_cons, string_app_assoc in *.
    cbn [tok_text] in *. rewrite app_String, app_empty in *.
    change (lex None (String ":" (toks_text ts ++ String "]" r))) with ('(ts', o) ← lex None (toks_text ts ++ String "]" r); Some (Colon :: ts', o)) in IH.
    change (lex (Some v) (String ":" (toks_text ts ++ String "]" r))) with ('(ts', o) ← lex None (toks_text ts ++ String "]" r); Some (Group v :: Colon :: ts', o)).
    destruct (lex None (toks_text ts ++ String "]" r)) as [[ts' o]|]; [|done]. cbn in *. by injection IH as -> ->.
Qed.

(** ** The order of addresses *)

(** Lexicographic order, a proper prefix being smaller. *)
Fixpoint lex_less (l r : list Z) : bool :=
  match l, r with
  | [], _ :: _ => true
  | _, [] => false
  | x :: l, y :: r => match x ?= y with Lt => true | Gt => false | Eq => lex_less l r end
  end.

Lemma bytes_less_lex l r : bytes_less l r = lex_less l r.
Proof.
  unfold bytes_less. revert r. induction l as [|x l IH]; intros [|y r]; simpl; try done.
  destruct (x ?= y); [|done..]. by rewrite <- IH.
Qed.

Lemma bytes_equal_spec l r : bytes_equal l r = true <-> l = r.
Proof.
  unfold bytes_equal. revert r. induction l as [|x l IH]; intros [|y r]; simpl; try done.
  specialize (IH r). destruct (Z.compare_spec x y) as [->|Hlt|Hgt].
  - rewrite IH. split; [by intros ->|by intros [= ->]].
  - rewrite andb_false_r. split; [done|]. intros [= -> _]. lia.
  - rewrite andb_false_r. split; [done|]. intros [= -> _]. lia.
Qed.

Lemma lex_less_irrefl l : lex_less l l = false.
Proof. induction l as [|x l IH]; [done|]. simpl. by rewrite Z.compare_refl. Qed.

Lemma lex_less_trans l1 l2 l3 :
  lex_less l1 l2 = true -> lex_less l2 l3 = true -> lex_less l1 l3 = true.
Proof.
  revert l2 l3. induction l1 as [|x l1 IH]; intros [|y l2] [|z l3]; simpl; try done.
  destruct (Z.compare_spec x y) as [->|Hxy|Hxy]; [|intros _|done].
  - destruct (Z.compare_spec y z) as [->|Hyz|Hyz]; [|done..]. apply IH.
  - intros H. assert (y <= z) by (destruct (Z.compare_spec y z); [lia|lia|done]).
    by rewrite (proj2 (Z.compare_lt_iff x z)) by lia.
Qed.

Lemma lex_less_total l r : lex_less l r = true \/ l = r \/ lex_less r l = true.
Proof.
  revert r. induction l as [|x l IH]; intros [|y r]; simpl; auto.
  rewrite (Z.compare_antisym x y). destruct (Z.compare_spec x y) as [->|Hlt|Hgt]; simpl; auto.
  destruct (IH r) as [?|[->|?]]; auto.
Qed.

(** ** Unix paths *)

Lemma c_str_app s t : no_char NUL s = true -> c_str (s ++ String NUL t) = s.
Proof.
  induction s as [|c s IH]; [done|]. simpl. intros H. apply andb_true_iff in H as [Hc Hs].
  apply negb_true_iff in Hc. by rewrite Hc, IH.
Qed.

(** What the constructor stores. *)
Lemma newUnixAddress_spec path len :
  len = (match path with
         | String c _ => if Ascii.eqb c NUL then Z.of_nat (String.length path)
                         else Z.of_nat (String.length path) + 1
         | "" => 1
         end) ->
  newUnixAddress path =
    if Z.of_nat sun_path_size <? len then Err (Throws logic_error)
    else Ok (UA AF_UNIX (take (Z.to_nat len) (bytes_of path ++ [0])
                         ++ replicate (sun_path_size - Z.to_nat len) 0)%list (len + 2)).
Proof.
  intros Hl. unfold newUnixAddress. set (k := match path with String _ _ => _ | "" => _ end).
  assert (k = len) as -> by (subst k len; destruct path as [|c p]; [done|];
    destruct (Ascii.eqb c NUL); lia).
  destruct (Z.ltb_spec (Z.of_nat sun_path_size) len) as [|Hle]; [done|].
  assert (0 <= len <= Z.of_nat (String.length path) + 1) as Hb.
  { rewrite Hl. destruct path as [|c p]; simpl; [lia|]. destruct (Ascii.eqb c NUL); lia. }
  do 2 f_equal. set (b := take _ _).
  assert (List.length b = Z.to_nat len) as Hlb
    by (subst b; rewrite length_take, length_app, length_bytes_of; simpl; lia).
  unfold splice. rewrite take_0, Nat.add_0_l, Hlb, drop_replicate. done.
Qed.

(** ** Properties *)

(** For a 32-bit address and a prefix of 2 to 32 bits, on either kind of
    host: [broadcastAAddress] is the highest address of the subnet and keeps
    the port, and [subnetMask] has exactly the high [p] bits.  But
    [networkAddress] returns the host part and not the network, and for the
    prefixes 0 and 1 the shift or the subtraction of the mask is undefined. *)
Theorem ipv4_subnet host a port p :
  in_u 32 a -> in_u 16 port -> 2 <= p <= 32 ->
  let A := newIPv4Address host a port in
  exists b n m,
    v4_broadcastAAddress host p A = Ok (Some b)
    /\ v4_value host b = a / 2 ^ (32 - p) * 2 ^ (32 - p) + (2 ^ (32 - p) - 1)
    /\ v4_getPort host b = port
    /\ v4_subnetMask host p = Ok m /\ v4_value host m = 2 ^ 32 - 2 ^ (32 - p)
    /\ v4_networkAddress host p A = Ok (Some n) /\ v4_value host n = a mod 2 ^ (32 - p)
    /\ v4_broadcastAAddress host 1 A = Err (UB signed_overflow)
    /\ v4_broadcastAAddress host 0 A = Err (UB bad_shift).
Proof.
  intros Ha Hport Hp A. pose proof (mask_range p ltac:(lia)) as Hm.
  unfold v4_broadcastAAddress, v4_networkAddress, v4_subnetMask.
  rewrite (proj2 (Z.ltb_ge 32 p)) by lia. rewrite CreateMask_32 by done.
  cbn [mbind outcome_bind]. eexists _, _, _. unfold v4_value, v4_getPort. subst A.
  unfold newIPv4Address. cbn [s_addr sin_port sin_family].
  split_and!; try reflexivity; cbn [s_addr sin_port].
  - rewrite (net32_op host Z.lor) by (try apply bitwise_lor; done). apply lor_ones_high; [lia|apply Ha].
  - apply net_involutive; [simpl; lia|done].
  - rewrite net32_not by done. lia.
  - rewrite (net32_op host Z.land) by (try apply bitwise_land; done). apply land_ones_low. lia.
Qed.

Lemma ipv4_subnet_witness :
  exists b, v4_broadcastAAddress SYLAR_LITTLE_ENDIAN 24
      (newIPv4Address SYLAR_LITTLE_ENDIAN (192 * 2 ^ 24 + 168 * 2 ^ 16 + 10) 80) = Ok (Some b)
    /\ v4_value SYLAR_LITTLE_ENDIAN b = 192 * 2 ^ 24 + 168 * 2 ^ 16 + 255.
Proof.
  destruct (ipv4_subnet SYLAR_LITTLE_ENDIAN (192 * 2 ^ 24 + 168 * 2 ^ 16 + 10) 80 24)
    as (b & n & m & Hb & Hv & _); [by vm_compute|by vm_compute|lia|].
  exists b. split; [exact Hb|]. rewrite Hv. reflexivity.
Defined.

(** The prefix length computed from a netmask is the one the mask was
    made for: [CountBytes] of the mask [subnetMask] makes is the prefix
    length, for IPv4 prefixes of 2 to 32 bits on either host and, summed over
    the bytes, for IPv6 prefixes below 128 bits; at 128 the IPv6 code writes
    out of range. *)
Theorem prefix_of_subnetMask host p :
  (2 <= p <= 32 -> exists m, v4_subnetMask host p = Ok m /\ CountBytes (s_addr m) = Ok p)
  /\ (0 <= p < 128 -> exists m, v6_subnetMask p = Ok m /\ count_all (s6_addr m) 0 = Ok p)
  /\ v6_subnetMask 128 = Err (UB index_oob).
Proof.
  split_and!; [| |reflexivity].
  - intros Hp. set (ok p := (m ← v4_subnetMask host p; CountBytes (s_addr m)) = Ok p).
    assert (ok p) as Hok by (apply (interval_check ok 2 31); [by destruct host; vm_compute|lia]).
    by apply bind_ok in Hok.
  - intros Hp. set (ok p := (m ← v6_subnetMask p; count_all (s6_addr m) 0) = Ok p).
    assert (ok p) as Hok by (apply (interval_check ok 0 128); [by vm_compute|lia]).
    by apply bind_ok in Hok.
Qed.

(** The printed text is that of the tokens. *)
Lemma v6_loop_toks host addr : forall i prev u,
  v6_loop host i prev u addr = (toks_text (v6_toks (byteswapOnLittleEndian host uint16_t) i prev u addr).1,
                                (v6_toks (byteswapOnLittleEndian host uint16_t) i prev u addr).2).
Proof.
  induction addr as [|v addr IH]; intros i prev u; [done|]. cbn [v6_loop v6_toks]. rewrite !IH.
  destruct ((v =? 0) && negb u); [done|].
  destruct (v6_toks _ (S i) v _ addr) as [ts u']. cbn [fst snd].
  rewrite !toks_text_app, toks_text_cons. by destruct (_ && negb u), (i =? 0)%nat.
Qed.

Lemma v6_toks_spaced sw addr : Forall (fun v => 0 <= sw v < 65536) addr -> forall i prev u,
  spaced (v6_toks sw i prev u addr).1 /\ (i <> 0%nat -> match (v6_toks sw i prev u addr).1 with Group _ :: _ => False | _ => True end).
Proof.
  induction 1 as [|v addr Hv _ IH]; intros i prev u; [done|]. cbn [v6_toks].
  destruct ((v =? 0) && negb u); [destruct (IH (S i) v u) as [H1 H2]; split; [done|intros _; by apply H2]|].
  destruct (IH (S i) v (u || negb (i =? 0)%nat && (prev =? 0) && negb u)) as [H1 H2].
  destruct (v6_toks sw (S i) v _ addr) as [ts u']. cbn [fst] in *. specialize (H2 ltac:(done)).
  assert (spaced (Group (sw v) :: ts)) by (cbn; split_and!; [lia|lia|by destruct ts as [|[]]|done]).
  split.
  - destruct (negb (i =? 0)%nat && _ && _), (i =? 0)%nat; done.
  - intros Hi. destruct (Nat.eqb_spec i 0); [done|]. by destruct (negb false && _ && _).
Qed.

Lemma spaced_snoc ts : spaced ts -> spaced (ts ++ [Colon; Colon]).
Proof.
  induction ts as [|[|v] ts IH]; intros H; [done|by apply IH|]. destruct H as (Hv & Hn & H). cbn. split_and!; [lia|lia| |by apply IH].
  by destruct ts as [|[]].
Qed.

(** A pair of bytes read as a [uint16_t] and swapped is big-endian on either
    host. *)
Lemma swapped_pair host a b : is_byte a -> is_byte b ->
  byteswapOnLittleEndian host uint16_t (of_obj_bytes host uint16_t [a; b]) = 256 * a + b.
Proof.
  unfold is_byte, in_u. change (2 ^ 8) with 256. intros Ha Hb.
  assert (Hc : forall z, 0 <= z < 65536 -> cast uint16_t z = z) by (intros z Hz; apply cast_small; [cbn; lia|exact Hz]).
  destruct host; cbn [byteswapOnLittleEndian]; unfold of_obj_bytes; cbn [le_value rev app].
  - rewrite Hc by lia. unfold byteswap, bswap. change (ct_width uint16_t) with 16.
    rewrite (wrapu_small 16) by (unfold in_u; lia). cbn [ct_size uint16_t le_bytes rev app le_value].
    assert (E1 : (a + 256 * (b + 256 * 0)) mod 256 = a) by (rewrite Z.mul_comm, Z.mod_add by lia; by apply Z.mod_small).
    assert (E2 : (a + 256 * (b + 256 * 0)) / 256 = b) by (rewrite Z.mul_comm, Z.div_add by lia; rewrite Z.div_small by lia; lia).
    rewrite E1, E2, (Z.mod_small b) by lia. rewrite Hc; lia.
  - rewrite Hc; lia.
Qed.

Lemma v6_insert_text host a : v6_insert host a =
  String "[" (toks_text (v6_tokens (byteswapOnLittleEndian host uint16_t) (groups16 host (s6_addr a)))
              ++ String "]" (String ":" (decimal (v6_getPort host a)))).
Proof.
  unfold v6_insert, v6_tokens. rewrite v6_loop_toks.
  destruct (v6_toks _ 0 0 false _) as [ts u]. cbn [fst snd]. rewrite toks_text_app, app_String, app_empty, string_app_assoc.
  by destruct (negb u && _).
Qed.

Lemma v6_tokens_spaced sw addr : Forall (fun v => 0 <= sw v < 65536) addr -> spaced (v6_tokens sw addr).
Proof.
  intros H. unfold v6_tokens. destruct (v6_toks_spaced sw addr H 0 0 false) as [Hs _].
  destruct (v6_toks sw 0 0 false addr) as [ts u]. destruct (negb u && _); [by apply spaced_snoc|by rewrite app_nil_r].
Qed.

Lemma pair_bytes a b : is_byte a -> is_byte b -> 0 <= 256 * a + b < 65536.
Proof.
  unfold is_byte, in_u. change (2 ^ 8) with 256. lia.
Qed.

Lemma pair_bytes_fields a b : is_byte a -> is_byte b -> (256 * a + b) / 256 = a /\ (256 * a + b) mod 256 = b.
Proof.
  unfold is_byte, in_u. change (2 ^ 8) with 256. intros Ha Hb.
  rewrite Z.add_comm, Z.mul_comm, Z.div_add, Z.mod_add, Z.div_small, Z.mod_small by lia. done.
Qed.

(** C38: The text [insert] prints for an IPv6 address of sixteen bytes with a
    16-bit port, the bracketed groups in hexadecimal with one double colon for
    the first run of zero groups and then the port, is read by a reader of that
    notation as the sixteen bytes of the address in network order and its port,
    on hosts of either byte order. *)
Theorem ipv6_text_roundtrip host a :
  List.length (s6_addr a) = 16%nat -> Forall is_byte (s6_addr a) -> in_u 16 (sin6_port a) ->
  read_ipv6 (v6_insert host a) = Some (s6_addr a, v6_getPort host a).
Proof.
  intros Hl Hb Hp. rewrite v6_insert_text.
  assert (Hport : 0 <= v6_getPort host a).
  { unfold v6_getPort. destruct host; cbn; [|apply Hp]. unfold byteswap, cast. cbn [ct_signed uint16_t]. apply wrapu_range. vm_compute. discriminate. }
  revert Hport. generalize (v6_getPort host a). intros port Hport. destruct a as [fam pt flow l scope]; cbn [s6_addr] in *.
  do 16 (destruct l as [|? l]; [discriminate Hl|]). destruct l; [|discriminate Hl].
  repeat (apply Forall_cons in Hb as [? Hb]). cbn [groups16]. cbn [read_ipv6].
  rewrite lex_toks by (apply v6_tokens_spaced; repeat constructor; rewrite swapped_pair by done; by apply pair_bytes).
  cbn [mbind option_bind]. rewrite read_v6_tokens by (by destruct host). cbn [mbind option_bind map].
  rewrite !swapped_pair by done. cbn [List.concat map app].
  rewrite read_decimal by done.
  repeat (match goal with |- context [(256 * ?a + ?b) / 256] => rewrite (proj1 (pair_bytes_fields a b ltac:(done) ltac:(done))), (proj2 (pair_bytes_fields a b ltac:(done) ltac:(done))) end).
  reflexivity.
Qed.

Lemma ipv6_text_roundtrip_witness :
  v6_insert SYLAR_LITTLE_ENDIAN (newIPv6Address SYLAR_LITTLE_ENDIAN [32; 1; 13; 184; 0; 0; 0; 0; 0; 0; 0; 0; 0; 2; 0; 1] 80)
    = "[2001:db8::2:1]:80"
  /\ read_ipv6 "[2001:db8::2:1]:80" = Some ([32; 1; 13; 184; 0; 0; 0; 0; 0; 0; 0; 0; 0; 2; 0; 1], 80).
Proof.
  split; [vm_compute; reflexivity|].
  refine (ipv6_text_roundtrip SYLAR_LITTLE_ENDIAN
    (newIPv6Address SYLAR_LITTLE_ENDIAN [32; 1; 13; 184; 0; 0; 0; 0; 0; 0; 0; 0; 0; 2; 0; 1] 80) eq_refl _ _).
  - repeat constructor; lia.
  - split; vm_compute; [discriminate|reflexivity].
Defined.

(** [operator<] is a strict total order on addresses as bytes, and
    [operator==] is equality of the bytes. *)
Lemma address_order host a b c :
  address_less host a a = false
  /\ (address_less host a b = true -> address_less host b c = true -> address_less host a c = true)
  /\ (address_less host a b = true \/ address_equal host a b = true \/ address_less host b a = true)
  /\ (address_equal host a b = true <-> addr_bytes host a = addr_bytes host b).
Proof.
  unfold address_less, address_equal. rewrite !bytes_less_lex, bytes_equal_spec. split_and!.
  - apply lex_less_irrefl.
  - apply lex_less_trans.
  - apply lex_less_total.
  - done.
Qed.

(** A path without zero bytes that fits is what [getPath] returns; an abstract
    name is printed with a visible zero; longer ones throw. *)
Lemma unix_path_roundtrip path :
  (path <> "" -> no_char NUL path = true -> (String.length path <= 107)%nat ->
    exists a, newUnixAddress path = Ok a /\ getPath a = path
      /\ m_length a = Z.of_nat (String.length path) + 3)
  /\ ((String.length path <= 107)%nat ->
    exists a, newUnixAddress (String NUL path) = Ok a /\ getPath a = "\0" ++ path)
  /\ (no_char NUL path = true -> (108 <= String.length path)%nat ->
    newUnixAddress path = Err (Throws logic_error)).
Proof.
  split_and!.
  - intros Hne Hnul Hlen. destruct path as [|c p]; [done|].
    pose proof Hnul as Hc. simpl in Hc. apply andb_true_iff in Hc as [Hc%negb_true_iff _].
    rewrite (newUnixAddress_spec _ (Z.of_nat (String.length (String c p)) + 1)) by (by rewrite Hc).
    rewrite (proj2 (Z.ltb_ge _ _)) by (unfold sun_path_size; lia).
    eexists. split; [done|]. cbn [m_length]. split; [|lia].
    rewrite take_ge by (rewrite length_app, length_bytes_of; simpl; lia).
    unfold getPath. cbn [m_length sun_path]. rewrite <- List.app_assoc.
    replace (nth 0 _ 0 =? 0) with false.
    + rewrite andb_false_r, string_of_bytes_of. by apply c_str_app.
    + symmetry. apply Z.eqb_neq. simpl. unfold byte_of. intros H.
      apply Ascii.eqb_neq in Hc. apply Hc. rewrite <- (ascii_nat_embedding c).
      replace (nat_of_ascii c) with 0%nat by lia. done.
  - intros Hlen.
    rewrite (newUnixAddress_spec _ (Z.of_nat (String.length (String NUL path)))) by done.
    rewrite (proj2 (Z.ltb_ge _ _)) by (unfold sun_path_size; simpl; lia).
    eexists. split; [done|]. unfold getPath. cbn [m_length sun_path].
    rewrite (proj2 (Z.ltb_lt _ _)) by (unfold sun_path_offset; simpl; lia).
    set (n := String.length path). simpl String.length. fold n.
    replace (Z.to_nat (Z.of_nat (S n))) with (S n) by lia. simpl.
    do 2 f_equal. rewrite take_app_length' by (by rewrite length_bytes_of).
    replace (Z.to_nat (Z.of_nat (S n) + 2 - sun_path_offset - 1)) with n
      by (unfold sun_path_offset; lia).
    unfold slice. simpl. rewrite drop_0, take_app_length' by (by rewrite length_bytes_of).
    rewrite <- (List.app_nil_r (bytes_of path)), string_of_bytes_of. simpl.
    clear. induction path as [|c p IH]; [done|].
    change (String c (p ++ "") = String c p). by rewrite IH.
  - intros Hnul Hlen. destruct path as [|c p]; [simpl in Hlen; lia|].
    simpl in Hnul. apply andb_true_iff in Hnul as [Hc%negb_true_iff _].
    rewrite (newUnixAddress_spec _ (Z.of_nat (String.length (String c p)) + 1)) by (by rewrite Hc).
    by rewrite (proj2 (Z.ltb_lt _ _)) by (unfold sun_path_size; lia).
Qed.

(** ** The arguments of [getaddrinfo] *)

Lemma memchr_app c a b :
  no_char c a = true -> memchr c (a ++ String c b) = Some (a, b).
Proof.
  induction a as [|x a IH]; simpl; [by rewrite Ascii.eqb_refl|].
  intros H. apply andb_true_iff in H as [Hx%negb_true_iff Ha]. by rewrite Hx, IH.
Qed.

Lemma memchr_none c s : no_char c s = true -> memchr c s = None.
Proof.
  induction s as [|x s IH]; [done|]. simpl. intros H.
  apply andb_true_iff in H as [Hx%negb_true_iff Hs]. by rewrite Hx, IH.
Qed.

(** "[node]:service" and "node:service" are split; a bare IPv6 address is left
    whole as the node, but the text from its first colon on is passed as the
    service. *)
Lemma split_host_spec node service :
  node <> "" ->
  (no_char "]" node = true ->
     split_host ("[" ++ node ++ "]:" ++ service) = (node, Some service)
     /\ split_host ("[" ++ node ++ "]") = (node, None))
  /\ (no_char ":" node = true -> no_char ":" service = true -> no_char "[" node = true ->
     split_host (node ++ ":" ++ service) = (node, Some service))
  /\ split_host "fe80::1" = ("fe80::1", Some "::1").
Proof.
  intros Hne. apply String.eqb_neq in Hne. split_and!; [| |reflexivity].
  - intros H. unfold split_host.
    change ("[" ++ node ++ "]:" ++ service) with (String "[" (node ++ String "]" (String ":" service))).
    change ("[" ++ node ++ "]") with (String "[" (node ++ String "]" "")).
    cbn [bracketed]. rewrite !(memchr_app "]") by done. by rewrite !Hne.
  - intros H1 H2 H3. unfold split_host. change (":" ++ service) with (String ":" service).
    assert (bracketed (node ++ String ":" service) = ("", None)) as ->.
    { destruct node as [|c n]; [done|]. simpl in H3. apply andb_true_iff in H3 as [Hc _].
      apply negb_true_iff, Ascii.eqb_neq in Hc.
      change (String c n ++ String ":" service) with (String c (n ++ String ":" service)).
      destruct c as [[] [] [] [] [] [] [] []]; try done. }
    cbn [String.eqb]. unfold colon_split. rewrite (memchr_app ":") by done.
    rewrite memchr_none by done. by rewrite !Hne.
Qed.
