(* ===== verification/Lookup.v ===== *)
(** * Finding addresses: [Address::Create], [Lookup], [GetInterfaceAddresses]
    of [sylar/address.cc], [Uri::createAddress]

    A [sockaddr] is the bytes in memory.  The resolver, the list of interfaces
    and [inet_pton] are parameters: [getaddrinfo] gives the structures of its
    result list, [getifaddrs] the interfaces, either of them nothing when it
    fails. *)

From stdpp Require Import base list sorting strings sets.
From Stdlib Require Import ZArith Lia Ascii String Sorting.Sorted.
From S2P Require Import Prelude Endian Varint Http HttpTheorems HttpParser Address AddressTheorems Uri.

Local Open Scope string_scope.
Local Open Scope Z_scope.

Definition AF_UNSPEC : Z := 0.
Definition sockaddr : Type := list Z.

(** The arguments of [getaddrinfo] besides node and service. *)
Record hints := Hints { ai_flags : Z; ai_family : Z; ai_socktype : Z; ai_protocol : Z }.
Definition AI_NUMERICHOST : Z := 4.

(** What is used of [struct ifaddrs]. *)
Record ifaddrs := If {
  ifa_name : string;
  ifa_addr : option sockaddr;
  ifa_netmask : option sockaddr;
}.

(** [std::multimap::insert]: after the elements with the same key. *)
Fixpoint multimap_insert {V} (k : string) (v : V) (l : list (string * V)) : list (string * V) :=
  match l with
  | [] => [(k, v)]
  | (k', v') :: l' =>
      match String.compare k k' with
      | Lt => (k, v) :: l
      | _ => (k', v') :: multimap_insert k v l'
      end
  end.
(** [std::multimap::equal_range] *)
Definition equal_range {V} (k : string) (l : list (string * V)) : list V :=
  map snd (filter (fun e => String.eqb e.1 k = true) l).

Section lookup.
Context (host : endian).
Context (getaddrinfo : string -> option string -> hints -> option (list sockaddr)).
Context (getifaddrs : option (list ifaddrs)).
(** [inet_pton]: the bytes of the address, when its result is positive. *)
Context (inet_pton : Z -> string -> option (list Z)).

Notation net16 := (byteswapOnLittleEndian host uint16_t).

(** A field of [n] bytes at offset [i] of a structure; beyond it there is
    nothing to read. *)
Definition field_bytes (i n : nat) (a : sockaddr) : outcome (list Z) :=
  if (i + n <=? List.length a)%nat then Ok (slice i n a) else Err (UB index_oob).
Definition field_at (T : ctype) (i : nat) (a : sockaddr) : outcome Z :=
  l ← field_bytes i (ct_size T) a; Ok (of_obj_bytes host T l).

Definition sa_family (a : sockaddr) : outcome Z := field_at uint16_t 0 a.

(** [IPv4Address(const sockaddr_in&)], [IPv6Address(const sockaddr_in6&)],
    [UnknownAddress(const sockaddr&)] copy the structure. *)
Definition copy_in (a : sockaddr) : outcome sockaddr_in :=
  f ← field_at uint16_t 0 a; p ← field_at uint16_t 2 a; v ← field_at uint32_t 4 a; Ok (SIn f p v).
Definition copy_in6 (a : sockaddr) : outcome sockaddr_in6 :=
  f ← field_at uint16_t 0 a; p ← field_at uint16_t 2 a; fl ← field_at uint32_t 4 a;
  l ← field_bytes 8 16 a; sc ← field_at uint32_t 24 a; Ok (SIn6 f p fl l sc).

(** [Address::Create]; [None] is the null pointer. *)
Definition Address_Create (addr : option sockaddr) : outcome (option Address) :=
  match addr with
  | None => Ok None
  | Some a =>
      f ← sa_family a;
      if f =? AF_INET then r ← copy_in a; Ok (Some (IPv4Address r))
      else if f =? AF_INET6 then r ← copy_in6 a; Ok (Some (IPv6Address r))
      else d ← field_bytes 2 14 a; Ok (Some (UnknownAddress f d))
  end.

(** The loop of [Lookup] over the result list. *)
Fixpoint create_all (l : list sockaddr) : outcome (list Address) :=
  match l with
  | [] => Ok []
  | a :: l =>
      x ← Address_Create (Some a);
      xs ← create_all l;
      Ok match x with Some x => x :: xs | None => xs end
  end.

(** [Address::Lookup]: what it appends, and whether [result] is not empty. *)
Definition Lookup (result : list Address) (name : string) (family type protocol : Z)
    : outcome (bool * list Address) :=
  let '(node, service) := split_host name in
  match getaddrinfo node service (Hints 0 family type protocol) with
  | None => Ok (false, result)
  | Some infos =>
      xs ← create_all infos;
      let result := (result ++ xs)%list in
      Ok (negb (match result with [] => true | _ => false end), result)
  end.

Definition LookupAny (name : string) (family type protocol : Z) : outcome (option Address) :=
  '(b, result) ← Lookup [] name family type protocol;
  if b : bool then x ← deref index_oob (head result); Ok (Some x) else Ok None.

(** [dynamic_pointer_cast<IPAddress>] *)
Definition is_ip (a : Address) : bool :=
  match a with IPv4Address _ | IPv6Address _ => true | _ => false end.

Definition LookupAnyIPAddress (name : string) (family type protocol : Z) : outcome (option Address) :=
  '(b, result) ← Lookup [] name family type protocol;
  Ok (if b : bool then List.find is_ip result else None).

(** [setPort] of an [IPAddress], a [uint16_t]. *)
Definition ip_setPort (v : Z) (a : Address) : Address :=
  match a with
  | IPv4Address a => IPv4Address (v4_setPort host (u16 v) a)
  | IPv6Address a => IPv6Address (v6_setPort host (u16 v) a)
  | _ => a
  end.

(** [IPAddress::Create] *)
Definition IPAddress_Create (address : string) (port : Z) : outcome (option Address) :=
  match getaddrinfo address None (Hints AI_NUMERICHOST AF_UNSPEC 0 0) with
  | None => Ok None
  | Some infos =>
      a ← deref null_deref (head infos);
      x ← Address_Create (Some a);
      Ok match x with
         | Some x => if is_ip x then Some (ip_setPort port x) else None
         | None => None
         end
  end.

(** [IPv4Address::Create], [IPv6Address::Create] *)
Definition IPv4Address_Create (address : string) (port : Z) : option sockaddr_in :=
  match inet_pton AF_INET address with
  | None => None
  | Some l => Some (SIn AF_INET (net16 port) (of_obj_bytes host uint32_t l))
  end.
Definition IPv6Address_Create (address : string) (port : Z) : option sockaddr_in6 :=
  match inet_pton AF_INET6 address with
  | None => None
  | Some l => Some (with_addr l (v6_setPort host port newIPv6Address_default))
  end.

(** One interface: its address and the length of its prefix, if it is kept. *)
Definition interface_address (family : Z) (next : ifaddrs) : outcome (option (Address * Z)) :=
  a ← deref null_deref (ifa_addr next);
  f ← sa_family a;
  if negb (family =? AF_UNSPEC) && negb (family =? f) then Ok None
  else if f =? AF_INET then
    x ← Address_Create (Some a);
    m ← deref null_deref (ifa_netmask next);
    netmask ← field_at uint32_t 4 m;
    n ← CountBytes netmask;
    Ok (option_map (fun x => (x, n)) x)
  else if f =? AF_INET6 then
    x ← Address_Create (Some a);
    m ← deref null_deref (ifa_netmask next);
    netmask ← field_bytes 8 16 m;
    n ← count_all netmask 0;
    Ok (option_map (fun x => (x, n)) x)
  else Ok None.

Fixpoint interfaces_loop (family : Z) (l : list ifaddrs) (result : list (string * (Address * Z)))
    : outcome (list (string * (Address * Z))) :=
  match l with
  | [] => Ok result
  | next :: l =>
      o ← interface_address family next;
      interfaces_loop family l
        match o with Some v => multimap_insert (ifa_name next) v result | None => result end
  end.

(** [Address::GetInterfaceAddresses] into a multimap. *)
Definition GetInterfaceAddresses (result : list (string * (Address * Z))) (family : Z)
    : outcome (bool * list (string * (Address * Z))) :=
  match getifaddrs with
  | None => Ok (false, result)
  | Some l =>
      result ← interfaces_loop family l result;
      Ok (negb (match result with [] => true | _ => false end), result)
  end.

(** [Address::GetInterfaceAddresses] of one interface. *)
Definition GetInterfaceAddresses_of (result : list (Address * Z)) (iface : string) (family : Z)
    : outcome (bool * list (Address * Z)) :=
  if String.eqb iface "" || String.eqb iface "*" then
    let v4 := if (family =? AF_INET) || (family =? AF_UNSPEC)
              then [(IPv4Address (newIPv4Address host 0 0), 0)] else [] in
    let v6 := if (family =? AF_INET6) || (family =? AF_UNSPEC)
              then [(IPv6Address newIPv6Address_default, 0)] else [] in
    Ok (true, (result ++ v4 ++ v6)%list)
  else
    '(b, results) ← GetInterfaceAddresses [] family;
    if negb b then Ok (false, result) else
    let result := (result ++ equal_range iface results)%list in
    Ok (negb (match result with [] => true | _ => false end), result).

(** [Uri::createAddress] *)
Definition createAddress (u : Uri) : outcome (option Address) :=
  o ← LookupAnyIPAddress (m_host u) AF_INET 0 0;
  Ok (option_map (ip_setPort (getPort u)) o).
End lookup.

(** ** Copies *)

(** Addresses as the structures hold them. *)
Definition ip_wf (a : Address) : Prop :=
  match a with
  | IPv4Address a => sin_family a = AF_INET /\ in_u 16 (sin_port a) /\ in_u 32 (s_addr a)
  | IPv6Address a =>
      sin6_family a = AF_INET6 /\ in_u 16 (sin6_port a) /\ in_u 32 (sin6_flowinfo a)
      /\ List.length (s6_addr a) = 16%nat /\ in_u 32 (sin6_scope_id a)
  | _ => False
  end.

Section copies.
Context (host : endian).

(** The bytes of a field with [pre] before and [post] after it. *)
Lemma field_bytes_app pre l post a i n :
  a = (pre ++ l ++ post)%list -> i = List.length pre -> n = List.length l -> field_bytes i n a = Ok l.
Proof.
  intros -> -> ->. unfold field_bytes, slice. rewrite !length_app, (proj2 (Nat.leb_le _ _)) by lia.
  by rewrite drop_app_length, take_app_length.
Qed.

Lemma field_at_app T pre v post a i :
  a = (pre ++ obj_bytes host T v ++ post)%list -> i = List.length pre ->
  (0 < ct_size T)%nat -> in_ctype T v -> field_at host T i a = Ok v.
Proof.
  intros Ha Hi HT Hv. unfold field_at.
  rewrite (field_bytes_app pre (obj_bytes host T v) post) by (done || by rewrite length_obj_bytes).
  cbn [mbind outcome_bind]. by rewrite of_obj_bytes_obj_bytes, cast_small.
Qed.

(** The place of a field. *)
Local Ltac place := by rewrite ?app_nil_r, <- ?List.app_assoc.
Local Ltac fits := by (rewrite ?length_app, ?length_obj_bytes; cbn [ct_size uint16_t uint32_t]; simpl; lia).
Local Ltac typed := unfold in_ctype, in_u, AF_INET, AF_INET6, ct_width in *; cbn [ct_signed ct_size uint16_t uint32_t]; simpl; lia.

Lemma family_bytes a : ip_wf a -> sa_family host (addr_bytes host a) = Ok (getFamily a).
Proof.
  destruct a as [[]|[]| |]; cbn; try done; intros (-> & _); unfold sa_family;
    eapply (field_at_app _ []); [reflexivity|done|fits|typed|reflexivity|done|fits|typed].
Qed.

Lemma copy_in_bytes a :
  ip_wf (IPv4Address a) -> copy_in host (addr_bytes host (IPv4Address a)) = Ok a.
Proof.
  destruct a as [f p v]. cbn [ip_wf sin_family sin_port s_addr]. intros (Hf & Hp & Ha). unfold copy_in, addr_bytes.
  cbn [sin_family sin_port s_addr]. set (bf := obj_bytes host uint16_t f). set (bp := obj_bytes host uint16_t p).
  rewrite (field_at_app uint16_t [] f (bp ++ obj_bytes host uint32_t v ++ replicate 8 0) _ 0) by (place || fits || typed).
  rewrite (field_at_app uint16_t bf p (obj_bytes host uint32_t v ++ replicate 8 0) _ 2) by (place || (subst bf bp; fits) || typed).
  rewrite (field_at_app uint32_t (bf ++ bp) v (replicate 8 0) _ 4) by (place || (subst bf bp; fits) || typed).
  done.
Qed.

Lemma copy_in6_bytes a :
  ip_wf (IPv6Address a) -> copy_in6 host (addr_bytes host (IPv6Address a)) = Ok a.
Proof.
  destruct a as [f p fl l sc]. cbn [ip_wf sin6_family sin6_port sin6_flowinfo s6_addr sin6_scope_id].
  intros (Hf & Hp & Hfl & Hl & Hsc).
  unfold copy_in6, addr_bytes. cbn [sin6_family sin6_port sin6_flowinfo s6_addr sin6_scope_id].
  set (bf := obj_bytes host uint16_t f). set (bp := obj_bytes host uint16_t p).
  set (bfl := obj_bytes host uint32_t fl). set (bsc := obj_bytes host uint32_t sc).
  rewrite (field_at_app uint16_t [] f (bp ++ bfl ++ l ++ bsc) _ 0) by (place || fits || typed).
  rewrite (field_at_app uint16_t bf p (bfl ++ l ++ bsc) _ 2) by (place || (subst bf bp; fits) || typed).
  rewrite (field_at_app uint32_t (bf ++ bp) fl (l ++ bsc) _ 4) by (place || (subst bf bp; fits) || typed).
  rewrite (field_bytes_app (bf ++ bp ++ bfl) l bsc) by (place || (subst bf bp bfl; fits)).
  rewrite (field_at_app uint32_t (bf ++ bp ++ bfl ++ l) sc [] _ 24) by (place || (subst bf bp bfl; fits) || typed).
  done.
Qed.

(** The structure of an IP address is copied as it is. *)
Lemma Address_Create_bytes a : ip_wf a -> Address_Create host (Some (addr_bytes host a)) = Ok (Some a).
Proof.
  intros Hw. unfold Address_Create. rewrite family_bytes by done. cbn [mbind outcome_bind].
  destruct a as [a|a| |]; [| |done..]; destruct (Hw) as (Hf & _); simpl getFamily; rewrite Hf.
  - by rewrite copy_in_bytes.
  - by rewrite copy_in6_bytes.
Qed.
End copies.

(** ** Multimaps *)

Lemma compare_lt_trans a b c :
  String.compare a b = Lt -> String.compare b c <> Gt -> String.compare a c = Lt.
Proof.
  revert b c. induction a as [|x a IH]; intros [|y b] [|z c]; simpl; try done.
  unfold Ascii.compare. intros H1 H2.
  destruct (N.compare_spec (N_of_ascii x) (N_of_ascii y)) as [E1|E1|E1]; [| |done];
    destruct (N.compare_spec (N_of_ascii y) (N_of_ascii z)) as [E2|E2|E2]; try done.
  - rewrite E1, E2, N.compare_refl. eauto.
  - by rewrite (proj2 (N.compare_lt_iff _ _)) by lia.
  - by rewrite (proj2 (N.compare_lt_iff _ _)) by lia.
  - by rewrite (proj2 (N.compare_lt_iff _ _)) by lia.
Qed.

Lemma string_compare_refl s : String.compare s s = Eq.
Proof. induction s as [|c s IH]; [done|]. simpl. unfold Ascii.compare. by rewrite N.compare_refl. Qed.

Section multimap.
Context {V : Type}.
Implicit Type l : list (string * V).

Definition keys_ordered : list (string * V) -> Prop :=
  StronglySorted (fun a b => String.compare a.1 b.1 <> Gt).

Lemma multimap_insert_elem k v l x : x ∈ multimap_insert k v l <-> x = (k, v) \/ x ∈ l.
Proof.
  induction l as [|[k' v'] l IH]; cbn [multimap_insert]; [set_solver|].
  destruct (String.compare k k'); rewrite ?elem_of_cons, ?IH; set_solver.
Qed.

Lemma multimap_insert_ordered k v l : keys_ordered l -> keys_ordered (multimap_insert k v l).
Proof.
  unfold keys_ordered. induction 1 as [|[k' v'] l Hs IH Hf]; cbn [multimap_insert].
  { by repeat constructor. }
  destruct (String.compare k k') eqn:E.
  2: { constructor; [by constructor|]. constructor; [simpl; by rewrite E|].
       eapply Forall_impl; [exact Hf|]. intros [k2 v2]. simpl. intros H.
       by rewrite (compare_lt_trans k k' k2). }
  all: constructor; [done|]; apply Forall_forall; intros x [->|Hx]%multimap_insert_elem;
    [|by eapply Forall_forall in Hf]; simpl; rewrite String.compare_antisym, E; done.
Qed.

(** The values of a key are in the order in which they were inserted. *)
Lemma equal_range_insert k k' v l :
  keys_ordered l ->
  equal_range k (multimap_insert k' v l) =
    (equal_range k l ++ (if String.eqb k' k then [v] else []))%list.
Proof.
  unfold equal_range. induction 1 as [|[k2 v2] l Hs IH Hf]; cbn [multimap_insert].
  { rewrite filter_cons. simpl. by destruct (String.eqb k' k). }
  destruct (String.compare k' k2) eqn:E.
  2: { rewrite (filter_cons _ (k', v)). cbn [fst].
       destruct (decide (String.eqb k' k = true)) as [Hk|Hk]; [|by rewrite (not_true_is_false _ Hk), app_nil_r].
       rewrite Hk. apply String.eqb_eq in Hk as ->.
       replace (filter (fun e => String.eqb e.1 k = true) ((k2, v2) :: l)) with (@nil (string * V)); [done|].
       symmetry. apply elem_of_nil_inv. intros [k3 v3] [Hk3 Hx]%list_elem_of_filter.
       apply String.eqb_eq in Hk3. simpl in Hk3. subst k3.
       apply elem_of_cons in Hx as [[= <- <-]|Hx]; [by rewrite string_compare_refl in E|].
       eapply Forall_forall in Hf; [|exact Hx]. simpl in Hf.
       by rewrite String.compare_antisym, E in Hf. }
  all: rewrite !filter_cons; cbn [fst]; destruct (decide (String.eqb k2 k = true)); cbn [map app]; rewrite IH; done.
Qed.
End multimap.

(** ** Interfaces *)

(** An interface as it is configured: its name, its address and the length of
    its prefix. *)
Record nic := Nic { nic_name : string; nic_addr : Address; nic_prefix : Z }.

Section interfaces.
Context (host : endian).

Definition nic_ok (n : nic) : Prop :=
  ip_wf (nic_addr n)
  /\ match nic_addr n with
     | IPv4Address _ => 2 <= nic_prefix n <= 32
     | _ => 0 <= nic_prefix n < 128
     end.

(** What the system reports of it: the mask is the one [subnetMask] makes. *)
Definition nic_mask (n : nic) : outcome Address :=
  match nic_addr n with
  | IPv4Address _ => m ← v4_subnetMask host (nic_prefix n); Ok (IPv4Address m)
  | _ => m ← v6_subnetMask (nic_prefix n); Ok (IPv6Address m)
  end.
Definition nic_entry (n : nic) : ifaddrs :=
  If (nic_name n) (Some (addr_bytes host (nic_addr n)))
    match nic_mask n with Ok m => Some (addr_bytes host m) | Err _ => None end.

Definition nic_found (family : Z) (n : nic) : option (Address * Z) :=
  if (family =? AF_UNSPEC) || (family =? getFamily (nic_addr n))
  then Some (nic_addr n, nic_prefix n) else None.

Lemma v4_mask p m : 2 <= p <= 32 -> v4_subnetMask host p = Ok m -> in_u 32 (s_addr m).
Proof.
  intros Hp. unfold v4_subnetMask. rewrite CreateMask_32 by done. cbn [mbind outcome_bind].
  intros [= <-]. cbn [s_addr]. unfold in_u, u32, wrapu. apply Z.mod_pos_bound. lia.
Qed.

Lemma v6_mask p m : 0 <= p < 128 -> v6_subnetMask p = Ok m -> List.length (s6_addr m) = 16%nat.
Proof.
  intros Hp Hm. set (ok p := (m ← v6_subnetMask p; Ok (List.length (s6_addr m))) = Ok 16%nat).
  assert (ok p) as Hok by (apply (interval_check ok 0 128); [by vm_compute|lia]).
  unfold ok in Hok. rewrite Hm in Hok. by injection Hok.
Qed.

(** The mask is read back from the structure. *)
Lemma nic_mask_read n :
  nic_ok n -> exists m, nic_mask n = Ok m
    /\ match nic_addr n with
       | IPv4Address _ => exists v, field_at host uint32_t 4 (addr_bytes host m) = Ok v
           /\ CountBytes v = Ok (nic_prefix n)
       | _ => exists l, field_bytes 8 16 (addr_bytes host m) = Ok l /\ count_all l 0 = Ok (nic_prefix n)
       end.
Proof.
  intros [Hw Hp]. unfold nic_mask. destruct (prefix_of_subnetMask host (nic_prefix n)) as (P4 & P6 & _).
  destruct (nic_addr n) as [a|a| |]; try done.
  - destruct (P4 Hp) as (m & Hm & Hc). pose proof (v4_mask _ m Hp Hm) as Hr. rewrite Hm.
    exists (IPv4Address m). split; [reflexivity|]. exists (s_addr m). split; [|exact Hc].
    eapply (field_at_app host uint32_t (obj_bytes host uint16_t (sin_family m) ++ obj_bytes host uint16_t (sin_port m))
      (s_addr m) (replicate 8 0)); [by rewrite <- List.app_assoc|by rewrite length_app, !length_obj_bytes|simpl; lia|exact Hr].
  - destruct (P6 Hp) as (m & Hm & Hc). pose proof (v6_mask _ m Hp Hm) as Hl. rewrite Hm.
    exists (IPv6Address m). split; [reflexivity|]. exists (s6_addr m). split; [|exact Hc].
    eapply (field_bytes_app (obj_bytes host uint16_t (sin6_family m) ++ obj_bytes host uint16_t (sin6_port m)
      ++ obj_bytes host uint32_t (sin6_flowinfo m)) (s6_addr m) (obj_bytes host uint32_t (sin6_scope_id m)));
      [by rewrite <- !List.app_assoc|by rewrite !length_app, !length_obj_bytes|done].
Qed.

Lemma interface_address_v4 family next a x mk v n :
  ifa_addr next = Some a -> sa_family host a = Ok AF_INET -> Address_Create host (Some a) = Ok (Some x) ->
  ifa_netmask next = Some mk -> field_at host uint32_t 4 mk = Ok v -> CountBytes v = Ok n ->
  interface_address host family next =
    Ok (if (family =? AF_UNSPEC) || (family =? AF_INET) then Some (x, n) else None).
Proof.
  intros Ha Hf Hx Hm Hv Hn. unfold interface_address. rewrite Ha, Hm. rewrite !deref_Some, bind_Ok.
  rewrite Hf, bind_Ok. rewrite <- negb_orb. destruct (_ || _); cbn [negb]; [|reflexivity].
  rewrite Z.eqb_refl, Hx, bind_Ok, bind_Ok. rewrite Hv, bind_Ok, Hn. reflexivity.
Qed.

Lemma interface_address_v6 family next a x mk l n :
  ifa_addr next = Some a -> sa_family host a = Ok AF_INET6 -> Address_Create host (Some a) = Ok (Some x) ->
  ifa_netmask next = Some mk -> field_bytes 8 16 mk = Ok l -> count_all l 0 = Ok n ->
  interface_address host family next =
    Ok (if (family =? AF_UNSPEC) || (family =? AF_INET6) then Some (x, n) else None).
Proof.
  intros Ha Hf Hx Hm Hv Hn. unfold interface_address. rewrite Ha, Hm. rewrite !deref_Some, bind_Ok.
  rewrite Hf, bind_Ok. rewrite <- negb_orb. destruct (_ || _); cbn [negb]; [|reflexivity].
  rewrite (eq_refl : (AF_INET6 =? AF_INET) = false), Z.eqb_refl, Hx, bind_Ok, bind_Ok.
  rewrite Hv, bind_Ok, Hn. reflexivity.
Qed.

Lemma interface_address_nic family n :
  nic_ok n -> interface_address host family (nic_entry n) = Ok (nic_found family n).
Proof.
  intros Hn. destruct (nic_mask_read n Hn) as (m & Hm & Hr). destruct Hn as [Hw _].
  assert (ifa_netmask (nic_entry n) = Some (addr_bytes host m)) as Hmask
    by (unfold nic_entry; rewrite Hm; reflexivity).
  assert (ifa_addr (nic_entry n) = Some (addr_bytes host (nic_addr n))) as Ha by reflexivity.
  revert Hmask Ha. generalize (nic_entry n). intros next Hmask Ha. unfold nic_found.
  pose proof (family_bytes host _ Hw) as Hf. pose proof (Address_Create_bytes host _ Hw) as Hc.
  destruct (nic_addr n) as [a|a| |]; try done; destruct (Hw) as (Ef & _); cbn [getFamily] in Hf |- *;
    rewrite Ef in Hf |- *; destruct Hr as (v & Hv & Hn).
  - by eapply interface_address_v4.
  - by eapply interface_address_v6.
Qed.

Lemma interfaces_loop_range family iface nics result :
  Forall nic_ok nics -> keys_ordered result ->
  exists result', interfaces_loop host family (map nic_entry nics) result = Ok result'
    /\ equal_range iface result' =
       (equal_range iface result
        ++ omap (nic_found family) (filter (fun n => String.eqb (nic_name n) iface = true) nics))%list.
Proof.
  intros Hok. revert result. induction Hok as [|n nics Hn Hok IH]; intros result Hr; cbn [map interfaces_loop].
  { exists result. by rewrite app_nil_r. }
  rewrite interface_address_nic, bind_Ok, filter_cons by done.
  change (ifa_name (nic_entry n)) with (nic_name n).
  destruct (nic_found family n) as [v|] eqn:Hf.
  - destruct (IH _ (multimap_insert_ordered (nic_name n) v _ Hr)) as (r' & -> & E). exists r'. split; [done|].
    rewrite E, equal_range_insert by done. rewrite <- List.app_assoc. f_equal.
    destruct (String.eqb (nic_name n) iface) eqn:En.
    + rewrite decide_True by done. cbn. by rewrite Hf.
    + rewrite decide_False by done. done.
  - destruct (IH _ Hr) as (r' & -> & E). exists r'. split; [done|]. rewrite E. f_equal.
    case_decide; [|done]. cbn. by rewrite Hf.
Qed.
End interfaces.

(** [GetInterfaceAddresses] of an interface gives, in the order of the
    system's list, exactly its addresses of the family, each with the length
    of the prefix whose [subnetMask] is its mask, for any number of interfaces,
    both families and either byte order; it succeeds if there is one. *)
Theorem interface_addresses host nics iface family :
  Forall nic_ok nics -> iface <> "" -> iface <> "*" ->
  let found := omap (nic_found family) (filter (fun n => String.eqb (nic_name n) iface = true) nics) in
  GetInterfaceAddresses_of host (Some (map (nic_entry host) nics)) [] iface family =
    Ok (negb (match found with [] => true | _ => false end), found).
Proof.
  intros Hok H1 H2 found. unfold GetInterfaceAddresses_of.
  rewrite (proj2 (String.eqb_neq _ _) H1), (proj2 (String.eqb_neq _ _) H2). cbn [orb].
  unfold GetInterfaceAddresses.
  destruct (interfaces_loop_range host family iface nics [] Hok ltac:(constructor)) as (r & -> & E).
  rewrite bind_Ok. change (equal_range iface [] ++ _)%list with found in E.
  rewrite bind_Ok, <- E. destruct r as [|e r]; reflexivity.
Qed.

Definition lo : nic := Nic "lo" (IPv4Address (newIPv4Address SYLAR_LITTLE_ENDIAN 0x7f000001 0)) 8.
Definition eth0 : nic := Nic "eth0" (IPv4Address (newIPv4Address SYLAR_LITTLE_ENDIAN 0xc0a80102 0)) 24.
Definition eth0_v6 : nic :=
  Nic "eth0" (IPv6Address (newIPv6Address SYLAR_LITTLE_ENDIAN (0xfe :: 0x80 :: replicate 13 0 ++ [1])%list 0)) 64.

Lemma interface_addresses_witness :
  GetInterfaceAddresses_of SYLAR_LITTLE_ENDIAN
    (Some (map (nic_entry SYLAR_LITTLE_ENDIAN) [lo; eth0; eth0_v6])) [] "eth0" AF_UNSPEC =
  Ok (true, [(nic_addr eth0, 24); (nic_addr eth0_v6, 64)]).
Proof.
  apply (interface_addresses SYLAR_LITTLE_ENDIAN [lo; eth0; eth0_v6] "eth0" AF_UNSPEC); [|done|done].
  by repeat (apply Forall_cons; split; [vm_compute; repeat split; discriminate|]); apply Forall_nil.
Defined.

(** An interface without an address, as [getifaddrs] reports some, is undefined
    behaviour. *)
Lemma interface_without_address name mask iface host :
  iface <> "" -> iface <> "*" ->
  GetInterfaceAddresses_of host (Some [If name None mask]) [] iface AF_UNSPEC = Err (UB null_deref).
Proof.
  intros H1 H2. unfold GetInterfaceAddresses_of.
  by rewrite (proj2 (String.eqb_neq _ _) H1), (proj2 (String.eqb_neq _ _) H2).
Qed.

(** [IPv6Address::Create] makes an address of family [AF_INET]: its copy by
    [Address::Create] is an IPv4 address. *)
Lemma ipv6_created_as_inet host inet_pton address port a :
  IPv6Address_Create host inet_pton address port = Some a -> sin6_family a = AF_INET.
Proof. unfold IPv6Address_Create. by destruct (inet_pton _ _); [intros [= <-]|]. Qed.

(** The address of a URI: of the first IP address the resolver knows for the
    host, with the URI's port modulo 2^16. *)
Lemma createAddress_of host getaddrinfo u a l :
  getaddrinfo (split_host (m_host u)).1 (split_host (m_host u)).2 (Hints 0 AF_INET 0 0)
    = Some (addr_bytes host (IPv4Address a) :: l) ->
  ip_wf (IPv4Address a) -> (exists xs, create_all host l = Ok xs) ->
  createAddress host getaddrinfo u = Ok (Some (IPv4Address (v4_setPort host (u16 (getPort u)) a))).
Proof.
  intros Hg Hw [xs Hxs]. unfold createAddress, LookupAnyIPAddress, Lookup.
  destruct (split_host (m_host u)) as [node service]. cbn [fst snd] in Hg. rewrite Hg. cbn [create_all].
  rewrite Address_Create_bytes, bind_Ok, Hxs by done. reflexivity.
Qed.
