(* ===== verification/Fiber.v ===== *)
(** * [sylar::Fiber]: [sylar/fiber.h], [sylar/fiber.cc]

    The life of a fiber.  [m_ctx] is abstracted to where the saved context
    would resume ([Fresh]: at the entry of [MainFunc]; [Saved]: after the
    [swapOut] the fiber's code is in; [Ended]: after the last [swapOut] of
    [MainFunc], where only the "never reach" assertion is left), or [Live t]
    while thread [t] runs on the fiber's stack and no context is saved.

    What the fiber's code does between a [swapIn] and the matching [swapOut]
    is the client's; the scheduler sees how it comes back, an [exit]. *)

From stdpp Require Import base list.
From S2P Require Import Prelude.

Inductive State := INIT | HOLD | EXEC | TERM | READY | EXCEPT.

#[export] Instance State_eq_dec : EqDecision State.
Proof. solve_decision. Defined.

Inductive ctx := Fresh | Saved | Ended | Live (t : nat).

#[export] Instance ctx_eq_dec : EqDecision ctx.
Proof. solve_decision. Defined.

Record Fiber := mkFiber {
  m_state : State;
  m_cb : option nat;
  m_stack : bool;
  m_ctx : ctx;
}.

(** [Fiber(cb, stacksize, use_caller)] and the thread's main fiber. *)
Definition newFiber (cb : option nat) : Fiber := mkFiber INIT cb true Fresh.
Definition mainFiber (t : nat) : Fiber := mkFiber EXEC None false (Live t).

Definition set_state (st : State) (f : Fiber) : Fiber :=
  mkFiber st (m_cb f) (m_stack f) (m_ctx f).

Definition reset (cb : option nat) (f : Fiber) : outcome Fiber :=
  _ ← assert (m_stack f);
  _ ← assert (bool_decide (m_state f = TERM) || bool_decide (m_state f = EXCEPT)
              || bool_decide (m_state f = INIT));
  Ok (mkFiber INIT cb (m_stack f) Fresh).

(** Switching to a context: the fiber's code runs on from where it was saved.
    A second thread on a live stack is undefined. *)
Definition resume (t : nat) (f : Fiber) : outcome Fiber :=
  match m_ctx f with
  | Fresh | Saved => Ok (mkFiber (m_state f) (m_cb f) (m_stack f) (Live t))
  | Ended => Err AssertFails
  | Live _ => Err (UB null_deref)
  end.

(** [swapIn] by thread [t], up to the switch. *)
Definition swapIn (t : nat) (f : Fiber) : outcome Fiber :=
  _ ← assert (bool_decide (m_state f <> EXEC));
  resume t (set_state EXEC f).

(** [call] does the same without the assertion. *)
Definition call (t : nat) (f : Fiber) : outcome Fiber := resume t (set_state EXEC f).

(** [swapOut] and [back]: the switch away from the running fiber. *)
Definition swapOut (f : Fiber) : Fiber := mkFiber (m_state f) (m_cb f) (m_stack f) Saved.

Definition YieldToReady (f : Fiber) : outcome Fiber :=
  _ ← assert (bool_decide (m_state f = EXEC));
  Ok (swapOut (set_state READY f)).

(** [YieldToHold] leaves the state [EXEC]: the scheduler makes it [HOLD] once
    the context is saved. *)
Definition YieldToHold (f : Fiber) : outcome Fiber :=
  _ ← assert (bool_decide (m_state f = EXEC));
  Ok (swapOut f).

(** The end of [MainFunc] and [CallerMainFunc]: the callback returned, or
    threw. *)
Definition MainFunc_end (threw : bool) (f : Fiber) : Fiber :=
  if threw then mkFiber EXCEPT (m_cb f) (m_stack f) Ended
  else mkFiber TERM None (m_stack f) Ended.

Inductive exit := YReady | YHold | Done | Thrown.

Definition leave (e : exit) (f : Fiber) : outcome Fiber :=
  match e with
  | YReady => YieldToReady f
  | YHold => YieldToHold f
  | Done => Ok (MainFunc_end false f)
  | Thrown => Ok (MainFunc_end true f)
  end.

(** The assertions of [~Fiber]. *)
Definition destroy (f : Fiber) : outcome unit :=
  if m_stack f then
    assert (bool_decide (m_state f = TERM) || bool_decide (m_state f = INIT)
            || bool_decide (m_state f = EXCEPT))
  else
    _ ← assert (bool_decide (m_cb f = None));
    assert (bool_decide (m_state f = EXEC)).

(** ** The states a fiber can be in

    [fiber_ok] relates the state to the context for a fiber with a stack. *)

Definition runnable (f : Fiber) : Prop :=
  m_stack f = true /\ (m_ctx f = Fresh \/ m_ctx f = Saved)
  /\ (m_state f = INIT \/ m_state f = HOLD \/ m_state f = READY).

Definition finished (f : Fiber) : Prop :=
  m_stack f = true /\ m_ctx f = Ended /\ (m_state f = TERM \/ m_state f = EXCEPT).

Definition running (t : nat) (f : Fiber) : Prop :=
  m_stack f = true /\ m_ctx f = Live t /\ m_state f = EXEC.

(** After [YieldToHold], before the scheduler has seen it. *)
Definition parked (f : Fiber) : Prop :=
  m_stack f = true /\ m_ctx f = Saved /\ m_state f = EXEC.

Lemma swapIn_runnable t f : runnable f -> exists f', swapIn t f = Ok f' /\ running t f'.
Proof.
  intros (Hs & Hc & Hst). unfold swapIn, resume.
  rewrite bool_decide_eq_true_2 by (by destruct Hst as [->|[->| ->]]). simpl.
  destruct Hc as [->| ->]; simpl; eexists; by split.
Qed.

Lemma swapIn_finished t f : finished f -> swapIn t f = Err AssertFails.
Proof.
  intros (Hs & Hc & Hst). unfold swapIn, resume.
  rewrite bool_decide_eq_true_2 by (by destruct Hst as [->| ->]). simpl. by rewrite Hc.
Qed.

Lemma swapIn_EXEC t f : m_state f = EXEC -> swapIn t f = Err AssertFails.
Proof. intros H. unfold swapIn. by rewrite H. Qed.

(** How a running fiber comes back. *)
Definition left_as (e : exit) (f : Fiber) : Prop :=
  match e with
  | YReady => runnable f /\ m_state f = READY
  | YHold => parked f
  | Done => finished f /\ m_state f = TERM
  | Thrown => finished f /\ m_state f = EXCEPT
  end.

Lemma leave_running t e f : running t f -> exists f', leave e f = Ok f' /\ left_as e f'.
Proof.
  intros (Hs & Hc & Hst). destruct e; cbn [leave]; unfold YieldToReady, YieldToHold;
    rewrite ?Hst; simpl; eexists; (split; [reflexivity|]); simpl;
    unfold runnable, parked, finished; simpl; naive_solver.
Qed.

Lemma reset_finished cb f : finished f -> exists f', reset cb f = Ok f' /\ runnable f' /\ m_state f' = INIT.
Proof.
  intros (Hs & Hc & Hst). unfold reset. rewrite Hs. simpl.
  exists (mkFiber INIT cb (m_stack f) Fresh). unfold runnable. simpl. rewrite Hs.
  destruct Hst as [->| ->]; simpl; naive_solver.
Qed.

Lemma reset_INIT cb f : m_stack f = true -> m_state f = INIT ->
  exists f', reset cb f = Ok f' /\ runnable f' /\ m_state f' = INIT.
Proof.
  intros Hs Hst. unfold reset. rewrite Hs, Hst. simpl.
  eexists. split; [reflexivity|]. unfold runnable. simpl. naive_solver.
Qed.
