(* ===== verification/Scheduler.v ===== *)
(** * [sylar::Scheduler]: [sylar/scheduler.h], [sylar/scheduler.cc]

    The N:M scheduler as a transition system.  A worker thread is the program
    counter of its [run] loop; each transition is one section of the code
    between points where other threads can observe or change shared state (the
    queue under [m_mutex], the atomic counters, the fibers' states).  What the
    code on a fiber does is the client's: at any time it may [schedule] tasks,
    and it comes back to the scheduler by one of the exits of [Fiber].

    Thread [t] has thread id [t]; a fiber is its address in [fibers]; a
    callback is an identifier. *)

From stdpp Require Import base list gmap.
From Stdlib Require Import ZArith Lia.
From S2P Require Import Prelude Fiber.

(** [FiberAndThread] *)
Record task := FT {
  ft_fiber : option nat;
  ft_cb : option nat;
  ft_thread : Z;
}.

#[export] Instance task_eq_dec : EqDecision task.
Proof. solve_decision. Defined.

(** Where a worker is in [run]. *)
Inductive pc :=
  | Top                              (* at the head of the loop *)
  | Picked (ft : task)               (* a task taken, not yet entered *)
  | Runs (f : nat) (via_cb : bool)   (* inside swapIn *)
  | Left (f : nat) (via_cb : bool)   (* swapIn has returned *)
  | Dropped (f : nat) (via_cb : bool) (* --m_activeThreadCount done *)
  | NoTask                           (* nothing picked *)
  | InIdle                           (* inside the idle fiber *)
  | Exited.

Record thread := Thr {
  t_pc : pc;
  t_cb_fiber : option nat;
  t_idle_term : bool;
}.

Record sched := Sched {
  m_fibers : list task;
  fibers : gmap nat Fiber;
  threads : list thread;
  m_activeThreadCount : Z;
  m_idleThreadCount : Z;
  m_stopping : bool;
  m_autoStop : bool;
}.

Definition set_queue (q : list task) (s : sched) : sched :=
  Sched q (fibers s) (threads s) (m_activeThreadCount s) (m_idleThreadCount s)
    (m_stopping s) (m_autoStop s).
Definition set_fiber (a : nat) (f : Fiber) (s : sched) : sched :=
  Sched (m_fibers s) (<[a := f]> (fibers s)) (threads s) (m_activeThreadCount s)
    (m_idleThreadCount s) (m_stopping s) (m_autoStop s).
Definition set_thread (t : nat) (th : thread) (s : sched) : sched :=
  Sched (m_fibers s) (fibers s) (<[t := th]> (threads s)) (m_activeThreadCount s)
    (m_idleThreadCount s) (m_stopping s) (m_autoStop s).
Definition add_counts (active idle : Z) (s : sched) : sched :=
  Sched (m_fibers s) (fibers s) (threads s) (m_activeThreadCount s + active)
    (m_idleThreadCount s + idle) (m_stopping s) (m_autoStop s).
Definition goto (t : nat) (p : pc) (th : thread) (s : sched) : sched :=
  set_thread t (Thr p (t_cb_fiber th) (t_idle_term th)) s.

(** ** Scheduling *)

(** [scheduleNoLock]: whether a tickle is needed. *)
Definition scheduleNoLock (ft : task) (s : sched) : bool * sched :=
  (match m_fibers s with [] => true | _ => false end,
   match ft_fiber ft, ft_cb ft with
   | None, None => s
   | _, _ => set_queue (m_fibers s ++ [ft]) s
   end).

(** [schedule(fc, thread)]: whether [tickle] is called. *)
Definition schedule (ft : task) (s : sched) : bool * sched := scheduleNoLock ft s.

(** [schedule(begin, end)] *)
Fixpoint schedule_range (fts : list task) (s : sched) : bool * sched :=
  match fts with
  | [] => (false, s)
  | ft :: fts =>
      let '(n1, s) := scheduleNoLock (FT (ft_fiber ft) (ft_cb ft) (-1)) s in
      let '(n2, s) := schedule_range fts s in
      (n1 || n2, s)
  end.

(** ** Picking a task *)

Definition is_exec (fs : gmap nat Fiber) (o : option nat) : bool :=
  match o with
  | Some a => match fs !! a with Some f => bool_decide (m_state f = EXEC) | None => false end
  | None => false
  end.

Definition foreign (t : nat) (ft : task) : bool :=
  negb (ft_thread ft =? -1)%Z && negb (ft_thread ft =? Z.of_nat t)%Z.

Definition has_work (ft : task) : bool :=
  match ft_fiber ft, ft_cb ft with None, None => false | _, _ => true end.

(** The loop over [m_fibers]: the task taken, the queue left, [tickle_me]. *)
Fixpoint pick_loop (t : nat) (fs : gmap nat Fiber) (q : list task)
    : outcome (option task * list task * bool) :=
  match q with
  | [] => Ok (None, [], false)
  | ft :: q =>
      if foreign t ft then
        '(o, rest, _) ← pick_loop t fs q; Ok (o, ft :: rest, true)
      else
        _ ← assert (has_work ft);
        if is_exec fs (ft_fiber ft) then
          '(o, rest, tk) ← pick_loop t fs q; Ok (o, ft :: rest, tk)
        else Ok (Some ft, q, match q with [] => false | _ => true end)
  end.

Definition thread_at (t : nat) (s : sched) : outcome thread := deref null_deref (threads s !! t).
Definition fiber_at (a : nat) (s : sched) : outcome Fiber := deref null_deref (fibers s !! a).

Definition pick (t : nat) (s : sched) : outcome (bool * sched) :=
  th ← thread_at t s;
  '(o, rest, tickle_me) ← pick_loop t (fibers s) (m_fibers s);
  Ok (tickle_me,
      match o with
      | Some ft => goto t (Picked ft) th (add_counts 1 0 (set_queue rest s))
      | None => goto t NoTask th (set_queue rest s)
      end).

(** ** Running it *)

(** The branch on [ft] up to the switch into the fiber.  The test
    [getState() != TERM || getState() != EXCEPT] of the source is always true.
    [a] is where a new fiber for a callback is allocated. *)
Definition enter (t a : nat) (s : sched) : outcome sched :=
  th ← thread_at t s;
  match t_pc th with
  | Picked (FT (Some f) _ _) =>
      fb ← fiber_at f s;
      fb ← swapIn t fb;
      Ok (goto t (Runs f false) th (set_fiber f fb s))
  | Picked (FT None (Some cb) _) =>
      '(f, fb) ← match t_cb_fiber th with
                 | Some f => fb ← fiber_at f s; fb ← reset (Some cb) fb; Ok (f, fb)
                 | None => Ok (a, newFiber (Some cb))
                 end;
      fb ← swapIn t fb;
      Ok (set_thread t (Thr (Runs f true) (Some f) (t_idle_term th)) (set_fiber f fb s))
  | Picked (FT None None _) => Ok (goto t Top th (add_counts (-1) 0 s))
  | _ => Err NoFuel
  end.

(** The fiber comes back. *)
Definition exit_fiber (t : nat) (e : exit) (s : sched) : outcome sched :=
  th ← thread_at t s;
  match t_pc th with
  | Runs f via => fb ← fiber_at f s; fb ← leave e fb; Ok (goto t (Left f via) th (set_fiber f fb s))
  | _ => Err NoFuel
  end.

Definition drop_active (t : nat) (s : sched) : outcome sched :=
  th ← thread_at t s;
  match t_pc th with
  | Left f via => Ok (goto t (Dropped f via) th (add_counts (-1) 0 s))
  | _ => Err NoFuel
  end.

(** What [run] does with the fiber's state. *)
Definition settle (t : nat) (s : sched) : outcome sched :=
  th ← thread_at t s;
  match t_pc th with
  | Dropped f false =>
      fb ← fiber_at f s;
      let s' := if decide (m_state fb = READY) then (schedule (FT (Some f) None (-1)) s).2
                else if decide (m_state fb = TERM \/ m_state fb = EXCEPT) then s
                else set_fiber f (set_state HOLD fb) s in
      Ok (goto t Top th s')
  | Dropped f true =>
      fb ← fiber_at f s;
      if decide (m_state fb = READY) then
        Ok (set_thread t (Thr Top None (t_idle_term th)) (schedule (FT (Some f) None (-1)) s).2)
      else if decide (m_state fb = EXCEPT \/ m_state fb = TERM) then
        fb ← reset None fb; Ok (goto t Top th (set_fiber f fb s))
      else
        Ok (set_thread t (Thr Top None (t_idle_term th)) (set_fiber f (set_state HOLD fb) s))
  | _ => Err NoFuel
  end.

(** ** Stopping and idling *)

Definition stopping (s : sched) : bool :=
  m_autoStop s && m_stopping s && match m_fibers s with [] => true | _ => false end
  && (m_activeThreadCount s =? 0)%Z.

Definition hasIdleThreads (s : sched) : bool := (0 <? m_idleThreadCount s)%Z.

Definition enter_idle (t : nat) (s : sched) : outcome sched :=
  th ← thread_at t s;
  match t_pc th with
  | NoTask => Ok (if t_idle_term th then goto t Exited th s else goto t InIdle th (add_counts 0 1 s))
  | _ => Err NoFuel
  end.

(** One turn of [Scheduler::idle]: it returns when [stopping()]. *)
Definition leave_idle (t : nat) (s : sched) : outcome sched :=
  th ← thread_at t s;
  match t_pc th with
  | InIdle => Ok (set_thread t (Thr Top (t_cb_fiber th) (stopping s)) (add_counts 0 (-1) s))
  | _ => Err NoFuel
  end.

Definition request_stop (s : sched) : sched :=
  Sched (m_fibers s) (fibers s) (threads s) (m_activeThreadCount s) (m_idleThreadCount s) true true.

(** [Scheduler(threads)] followed by [Start()]: [n] workers at the head of
    their loops, no task. *)
Definition started (n : nat) : sched :=
  Sched [] ∅ (replicate n (Thr Top None false)) 0 0 false false.

(** ** Transitions *)

Inductive label :=
  | LNewFiber (a cb : nat)
  | LSchedule (ft : task)
  | LPick (t : nat)
  | LEnter (t a : nat)
  | LExit (t : nat) (e : exit)
  | LDrop (t : nat)
  | LSettle (t : nat)
  | LIdleIn (t : nat)
  | LIdleOut (t : nat)
  | LStop.

Definition exec (l : label) (s : sched) : outcome sched :=
  match l with
  | LNewFiber a cb => Ok (set_fiber a (newFiber (Some cb)) s)
  | LSchedule ft => Ok (schedule ft s).2
  | LPick t => '(_, s) ← pick t s; Ok s
  | LEnter t a => enter t a s
  | LExit t e => exit_fiber t e s
  | LDrop t => drop_active t s
  | LSettle t => settle t s
  | LIdleIn t => enter_idle t s
  | LIdleOut t => leave_idle t s
  | LStop => Ok (request_stop s)
  end.

(** The program counter each transition of a worker starts from; addresses
    of new fibers are free. *)
Definition enabled (l : label) (s : sched) : Prop :=
  let at_pc t (P : pc -> Prop) := exists th, threads s !! t = Some th /\ P (t_pc th) in
  match l with
  | LNewFiber a _ => fibers s !! a = None
  | LSchedule _ | LStop => True
  | LPick t => at_pc t (fun p => p = Top)
  | LEnter t a => at_pc t (fun p => exists ft, p = Picked ft) /\ fibers s !! a = None
  | LExit t _ => at_pc t (fun p => exists f v, p = Runs f v)
  | LDrop t => at_pc t (fun p => exists f v, p = Left f v)
  | LSettle t => at_pc t (fun p => exists f v, p = Dropped f v)
  | LIdleIn t => at_pc t (fun p => p = NoTask)
  | LIdleOut t => at_pc t (fun p => p = InIdle)
  end.

Inductive reachable (n : nat) : sched -> Prop :=
  | reach_start : reachable n (started n)
  | reach_step l s s' : reachable n s -> enabled l s -> exec l s = Ok s' -> reachable n s'.

(** ** Picking is FIFO among the tasks a worker may run *)

Definition eligible (t : nat) (fs : gmap nat Fiber) (ft : task) : bool :=
  negb (foreign t ft) && negb (is_exec fs (ft_fiber ft)).

Lemma pick_loop_spec t fs q :
  Forall (fun ft => has_work ft = true) q ->
  exists o rest tk, pick_loop t fs q = Ok (o, rest, tk)
    /\ match o with
       | Some ft => exists q1 q2, q = q1 ++ ft :: q2 /\ rest = q1 ++ q2 /\ eligible t fs ft = true
           /\ Forall (fun ft => eligible t fs ft = false) q1
           /\ tk = existsb (foreign t) q1 || (match q2 with [] => false | _ => true end)
       | None => rest = q /\ Forall (fun ft => eligible t fs ft = false) q
           /\ tk = existsb (foreign t) q
       end.
Proof.
  induction 1 as [|ft q Hw Hq IH]; cbn [pick_loop].
  { eexists _, _, _. split; [done|]. by split_and!. }
  destruct IH as (o & rest & tk & -> & IH). rewrite Hw. cbn [assert mbind outcome_bind].
  unfold eligible in *. destruct (foreign t ft) eqn:Hf; cbn [mbind outcome_bind].
  - eexists _, _, _. split; [done|]. destruct o as [ft'|].
    + destruct IH as (q1 & q2 & -> & -> & He & Hn & _). exists (ft :: q1), q2.
      split_and!; try done; [by constructor; [rewrite Hf|]|]. simpl. by rewrite Hf.
    + destruct IH as (-> & Hn & _). split_and!; [done|by constructor; [rewrite Hf|]|].
      simpl. by rewrite Hf.
  - destruct (is_exec fs (ft_fiber ft)) eqn:Hx; cbn [mbind outcome_bind].
    + eexists _, _, _. split; [done|]. destruct o as [ft'|].
      * destruct IH as (q1 & q2 & -> & -> & He & Hn & ->). exists (ft :: q1), q2.
        split_and!; try done; [by constructor; [rewrite Hf, Hx|]|]. simpl. by rewrite Hf.
      * destruct IH as (-> & Hn & ->). split_and!; [done|by constructor; [rewrite Hf, Hx|]|].
        simpl. by rewrite Hf.
    + eexists _, _, _. split; [done|]. exists [], q. rewrite Hf, Hx. by split_and!.
Qed.
