(* ===== verification/SchedulerTheorems.v ===== *)
(** * What the scheduler guarantees

    Two invariants of the transition system: the counters count what they
    should in every interleaving, and, as long as clients never schedule a
    fiber that is already pending, no assertion of the fibers fails and no two
    workers run on the same stack. *)

From stdpp Require Import base list gmap.
From Stdlib Require Import ZArith Lia.
From S2P Require Import Prelude Fiber Scheduler.

(** ** The counters *)

Definition holds (p : pc) : Z :=
  match p with Picked _ | Runs _ _ | Left _ _ => 1 | _ => 0 end.
Definition idles (p : pc) : Z := match p with InIdle => 1 | _ => 0 end.

Definition count (w : pc -> Z) (l : list thread) : Z :=
  foldr (fun th n => (w (t_pc th) + n)%Z) 0%Z l.

Lemma count_insert w l t th th' :
  l !! t = Some th -> count w (<[t := th']> l) = (count w l - w (t_pc th) + w (t_pc th'))%Z.
Proof.
  revert t. induction l as [|x l IH]; intros [|t] H; simpl in *; [done..| |].
  - injection H as ->. lia.
  - rewrite IH by done. lia.
Qed.

Lemma count_replicate w n th : count w (replicate n th) = (Z.of_nat n * w (t_pc th))%Z.
Proof. induction n; simpl; lia. Qed.

Record counts_ok (s : sched) : Prop := {
  co_active : m_activeThreadCount s = count holds (threads s);
  co_idle : m_idleThreadCount s = count idles (threads s);
  co_work : Forall (fun ft => has_work ft = true) (m_fibers s);
}.

Lemma counts_ok_move s t th th' da di q fs st au :
  counts_ok s -> threads s !! t = Some th ->
  da = (holds (t_pc th') - holds (t_pc th))%Z -> di = (idles (t_pc th') - idles (t_pc th))%Z ->
  Forall (fun ft => has_work ft = true) q ->
  counts_ok (Sched q fs (<[t := th']> (threads s)) (m_activeThreadCount s + da)
               (m_idleThreadCount s + di) st au).
Proof.
  intros [Ha Hi Hw] Ht -> -> Hq. constructor; simpl; [| |done];
    rewrite (count_insert _ _ _ th) by done; lia.
Qed.

Lemma thread_at_ok {B} t s (k : thread -> outcome B) b :
  (th ← thread_at t s; k th) = Ok b -> exists th, threads s !! t = Some th /\ k th = Ok b.
Proof. unfold thread_at. destruct (threads s !! t); simpl; [eauto|done]. Qed.

(** Run the step of a worker whose place in the loop is known. *)
Ltac use_thread Hx Ht Hpc :=
  let th' := fresh in let Ht' := fresh in
  apply thread_at_ok in Hx as (th' & Ht' & Hx);
  rewrite Ht in Ht'; injection Ht' as <-; rewrite Hpc in Hx.

Lemma schedule_work ft s :
  Forall (fun ft => has_work ft = true) (m_fibers s) ->
  Forall (fun ft => has_work ft = true) (m_fibers (schedule ft s).2).
Proof.
  intros H. unfold schedule, scheduleNoLock. simpl.
  destruct ft as [[f|] [c|] th]; simpl; try done; apply Forall_app; split; try done;
    by repeat constructor.
Qed.

(** The fields a scheduled task leaves alone. *)
Lemma schedule_fields ft s :
  let s' := (schedule ft s).2 in
  fibers s' = fibers s /\ threads s' = threads s
  /\ m_activeThreadCount s' = m_activeThreadCount s /\ m_idleThreadCount s' = m_idleThreadCount s.
Proof. unfold schedule, scheduleNoLock. simpl. by destruct (ft_fiber ft), (ft_cb ft). Qed.

Lemma counts_ok_schedule ft s : counts_ok s -> counts_ok (schedule ft s).2.
Proof.
  intros [Ha Hi Hw]. destruct (schedule_fields ft s) as (_ & Et & Ea & Ei).
  constructor; [by rewrite Ea, Et|by rewrite Ei, Et|by apply schedule_work].
Qed.

(** Moving thread [t] between counters that agree on the two places. *)
Lemma counts_ok_set_thread s t th th' :
  counts_ok s -> threads s !! t = Some th ->
  holds (t_pc th') = holds (t_pc th) -> idles (t_pc th') = idles (t_pc th) ->
  counts_ok (set_thread t th' s).
Proof.
  intros [Ha Hi Hw] Ht Eh Ei. constructor; simpl; [| |done];
    rewrite (count_insert _ _ _ th) by done; lia.
Qed.

Lemma counts_ok_fiber a f s : counts_ok s -> counts_ok (set_fiber a f s).
Proof. by intros []; constructor. Qed.

Lemma counts_ok_step l s s' :
  counts_ok s -> enabled l s -> exec l s = Ok s' -> counts_ok s'.
Proof.
  intros Hc He Hx. destruct l as [a cb|ft|t|t a|t e|t|t|t|t|]; cbn [exec enabled] in *.
  - injection Hx as <-. by apply counts_ok_fiber.
  - injection Hx as <-. by apply counts_ok_schedule.
  - destruct He as (th & Ht & Hpc). apply bind_ok in Hx as ([tk s1] & Hp & [= <-]).
    apply thread_at_ok in Hp as (th' & Ht' & Hp). rewrite Ht in Ht'. injection Ht' as <-.
    destruct (pick_loop_spec t (fibers s) (m_fibers s) (co_work s Hc)) as (o & rest & tk' & E & Ho).
    rewrite E in Hp. cbn [mbind outcome_bind] in Hp. injection Hp as _ <-.
    pose proof (co_work s Hc) as Hw. destruct o as [ft|].
    + destruct Ho as (q1 & q2 & Eq & -> & _). rewrite Eq in Hw.
      apply Forall_app in Hw as [? Hw]. apply Forall_cons in Hw as [_ ?].
      eapply (counts_ok_move s t th); [done..| | |by apply Forall_app]; rewrite Hpc; done.
    + destruct Ho as (-> & _).
      apply (counts_ok_set_thread (set_queue (m_fibers s) s) t th); try done; [|by rewrite Hpc..].
      by destruct Hc; constructor.
  - destruct He as [(th & Ht & ft & Hpc) _]. use_thread Hx Ht Hpc.
    destruct ft as [[f|] [c|] thr]; outcomes; try discriminate.
    1,2,3: try destruct x as [g gb]; outcomes;
      eapply counts_ok_set_thread; [by apply counts_ok_fiber|done|by rewrite Hpc..].
    eapply (counts_ok_move s t th); [done..| | |apply Hc]; by rewrite Hpc.
  - destruct He as (th & Ht & f & v & Hpc). use_thread Hx Ht Hpc. outcomes.
    eapply counts_ok_set_thread; [by apply counts_ok_fiber|done|by rewrite Hpc..].
  - destruct He as (th & Ht & f & v & Hpc). use_thread Hx Ht Hpc. outcomes.
    eapply (counts_ok_move s t th); [done..| | |apply Hc]; by rewrite Hpc.
  - destruct He as (th & Ht & f & v & Hpc). use_thread Hx Ht Hpc.
    destruct (schedule_fields (FT (Some f) None (-1)) s) as (_ & Et & _).
    pose proof (counts_ok_schedule (FT (Some f) None (-1)) s Hc) as Hsc.
    revert Et Hsc Hx. generalize (schedule (FT (Some f) None (-1)) s).2. intros sc Et Hsc Hx.
    destruct v; apply bind_ok in Hx as (fb & _ & Hx); repeat case_decide; cbv zeta in Hx; outcomes;
      (eapply counts_ok_set_thread; [first [by apply counts_ok_fiber|done]
                                    |first [done|by rewrite Et]|by rewrite Hpc..]).
  - destruct He as (th & Ht & Hpc). use_thread Hx Ht Hpc. injection Hx as <-.
    destruct (t_idle_term th).
    + eapply counts_ok_set_thread; [done..|by rewrite Hpc|by rewrite Hpc].
    + eapply (counts_ok_move s t th); [done..| | |apply Hc]; by rewrite Hpc.
  - destruct He as (th & Ht & Hpc). use_thread Hx Ht Hpc. injection Hx as <-.
    eapply (counts_ok_move s t th); [done..| | |apply Hc]; by rewrite Hpc.
  - injection Hx as <-. by destruct Hc; constructor.
Qed.

Lemma counts_ok_reachable n s : reachable n s -> counts_ok s.
Proof.
  induction 1 as [|l s s' _ IH He Hx]; [|by eapply counts_ok_step].
  constructor; simpl; [by rewrite count_replicate, Z.mul_0_r..|constructor].
Qed.

(** ** Exclusive use of fibers *)

(** The fiber a worker has a task for, and whether it got there by a callback. *)
Definition work (th : thread) : option nat :=
  match t_pc th with
  | Picked ft => ft_fiber ft
  | Runs f _ | Left f _ | Dropped f _ => Some f
  | _ => None
  end.
Definition via (th : thread) : bool :=
  match t_pc th with Runs _ v | Left _ v | Dropped _ v => v | _ => false end.

Definition controls (th : thread) (f : nat) : Prop := work th = Some f \/ t_cb_fiber th = Some f.

Definition queued (q : list task) : list nat := omap ft_fiber q.

(** What a worker may rely on about the fiber it works on. *)
Definition work_ok (fs : gmap nat Fiber) (qf : list nat) (t : nat) (p : pc) : Prop :=
  match p with
  | Picked ft =>
      match ft_fiber ft with
      | Some f => exists fb, fs !! f = Some fb /\ runnable fb /\ (f ∉ qf)
      | None => ft_cb ft <> None
      end
  | Runs f _ => exists fb, fs !! f = Some fb /\ running t fb
  | Left f _ | Dropped f _ =>
      exists fb, fs !! f = Some fb
        /\ (parked fb \/ (f ∉ qf) /\ (finished fb \/ runnable fb /\ m_state fb = READY))
  | _ => True
  end.

(** A callback fiber is at work or waits to be reused. *)
Definition cb_ok (fs : gmap nat Fiber) (qf : list nat) (th : thread) : Prop :=
  (via th = true -> t_cb_fiber th = work th)
  /\ forall g, t_cb_fiber th = Some g ->
       via th = true \/ work th <> Some g
         /\ exists gb, fs !! g = Some gb /\ runnable gb /\ m_state gb = INIT /\ (g ∉ qf).

Definition nobody (ths : list thread) (f : nat) : Prop :=
  forall t th, ths !! t = Some th -> ~ controls th f.

Record safe (s : sched) : Prop := {
  sa_nodup : NoDup (queued (m_fibers s));
  sa_queue f : f ∈ queued (m_fibers s) -> exists fb, fibers s !! f = Some fb
    /\ (m_state fb = EXEC \/ runnable fb /\ nobody (threads s) f);
  sa_excl t t' th th' f : threads s !! t = Some th -> threads s !! t' = Some th' ->
    controls th f -> controls th' f -> t = t';
  sa_work t th : threads s !! t = Some th -> work_ok (fibers s) (queued (m_fibers s)) t (t_pc th);
  sa_cb t th : threads s !! t = Some th -> cb_ok (fibers s) (queued (m_fibers s)) th;
  sa_has_work : Forall (fun ft => has_work ft = true) (m_fibers s);
}.

(** The use of fibers the scheduler relies on: a client schedules a fiber
    that is not queued, and which either runs or is runnable with no worker
    involved; a fiber that is queued again while it runs yields with
    [YieldToHold]. *)
Definition polite (l : label) (s : sched) : Prop :=
  match l with
  | LSchedule (FT (Some f) _ _) =>
      (f ∉ queued (m_fibers s)) /\ exists fb, fibers s !! f = Some fb
        /\ (m_state fb = EXEC \/ runnable fb /\ nobody (threads s) f)
  | LExit t e =>
      e = YHold \/ forall th f, threads s !! t = Some th -> work th = Some f ->
                     f ∉ queued (m_fibers s)
  | _ => True
  end.

(** A controlled fiber exists. *)
Lemma controls_exists fs qf t th f :
  work_ok fs qf t (t_pc th) -> cb_ok fs qf th -> controls th f -> is_Some (fs !! f).
Proof.
  intros Hw [Hv Hc] Hf. unfold controls in Hf.
  assert (work th = Some f -> is_Some (fs !! f)) as Hwk.
  { unfold work. destruct (t_pc th) as [|ft| | | | | |]; simpl in *; try done.
    - intros E. rewrite E in Hw. destruct Hw as (fb & -> & _). by eexists.
    - intros [= ->]. destruct Hw as (fb & -> & _). by eexists.
    - intros [= ->]. destruct Hw as (fb & -> & _). by eexists.
    - intros [= ->]. destruct Hw as (fb & -> & _). by eexists. }
  destruct Hf as [?|Hf]; [auto|].
  destruct (Hc f Hf) as [Hv'|[_ (gb & -> & _)]]; [|by eexists].
  apply Hwk. by rewrite <- Hv.
Qed.

(** What a worker relies on is kept when the fibers it controls are, and
    newly queued ones among them run. *)
Lemma work_ok_frame fs fs' qf qf' t th :
  (forall f, controls th f -> fs' !! f = fs !! f
     /\ (f ∈ qf' -> f ∈ qf \/ exists fb, fs !! f = Some fb /\ m_state fb = EXEC)) ->
  work_ok fs qf t (t_pc th) /\ cb_ok fs qf th -> work_ok fs' qf' t (t_pc th) /\ cb_ok fs' qf' th.
Proof.
  intros Hf [Hw [Hv Hc]].
  assert (forall f fb, controls th f -> fs !! f = Some fb -> m_state fb <> EXEC -> f ∉ qf -> f ∉ qf')
    as Hn by (intros f fb Hcf Hfb Hne Hni Hi; destruct (Hf f Hcf) as [_ H]; naive_solver).
  assert (forall fb, runnable fb -> m_state fb <> EXEC) as Hr
    by (intros fb (_ & _ & [->|[->| ->]]); done).
  assert (forall fb, finished fb -> m_state fb <> EXEC) as Hfi
    by (intros fb (_ & _ & [->| ->]); done).
  split; [|split; [done|]].
  - unfold controls, work in *. destruct (t_pc th) as [|ft|f v|f v|f v| | |]; simpl in *; try done.
    + destruct (ft_fiber ft) as [f|]; [|done]. destruct Hw as (fb & Hfb & Hrun & Hni).
      exists fb. destruct (Hf f) as [-> _]; [by left|]. split_and!; [done..|]. eapply Hn; eauto.
    + destruct (Hf f) as [-> _]; [by left|done].
    + destruct Hw as (fb & Hfb & H). exists fb. destruct (Hf f) as [-> _]; [by left|].
      split; [done|]. destruct H as [?|[Hni H]]; [by left|right]. split; [|done].
      eapply Hn; eauto. destruct H as [?|[? _]]; eauto.
    + destruct Hw as (fb & Hfb & H). exists fb. destruct (Hf f) as [-> _]; [by left|].
      split; [done|]. destruct H as [?|[Hni H]]; [by left|right]. split; [|done].
      eapply Hn; eauto. destruct H as [?|[? _]]; eauto.
  - intros g Hg. destruct (Hc g Hg) as [?|[Hne (gb & Hgb & Hrun & Hst & Hni)]]; [by left|right].
    split; [done|]. exists gb. destruct (Hf g) as [-> _]; [by right|]. split_and!; [done..|].
    eapply Hn; eauto. by right.
Qed.

Definition same_fiber (fs fs' : gmap nat Fiber) (f : nat) : Prop := fs' !! f = fs !! f.

(** One step of worker [t]: it touches only fibers it controls or new ones. *)
Lemma safe_move s t th th' fs' q' ac id st au :
  safe s -> threads s !! t = Some th ->
  NoDup (queued q') -> Forall (fun ft => has_work ft = true) q' ->
  (forall f, same_fiber (fibers s) fs' f \/ controls th f \/ fibers s !! f = None) ->
  (forall f, f ∈ queued q' -> f ∈ queued (m_fibers s) \/ controls th f) ->
  work_ok fs' (queued q') t (t_pc th') /\ cb_ok fs' (queued q') th' ->
  (forall f, controls th' f -> controls th f \/ fibers s !! f = None \/ nobody (threads s) f) ->
  (forall f, f ∈ queued q' -> exists fb, fs' !! f = Some fb
     /\ (m_state fb = EXEC
         \/ runnable fb /\ ~ controls th' f /\ (controls th f \/ nobody (threads s) f))) ->
  safe (Sched q' fs' (<[t := th']> (threads s)) ac id st au).
Proof.
  intros Hs Ht Hnd Hhw Hfs Hq Hth' Hctl Hqueue.
  assert (forall t' th'', <[t := th']> (threads s) !! t' = Some th'' ->
    t' = t /\ th'' = th' \/ t' <> t /\ threads s !! t' = Some th'') as Hlk.
  { intros t' th''. rewrite list_lookup_insert_Some. naive_solver. }
  assert (forall t' th'' f, t' <> t -> threads s !! t' = Some th'' -> controls th'' f ->
    ~ controls th f /\ is_Some (fibers s !! f)) as Hother.
  { intros t' th'' f Hne Hl Hc. split.
    - intros Hc'. apply Hne. eapply sa_excl; eauto.
    - eapply controls_exists; [by eapply sa_work|by eapply sa_cb|done]. }
  assert (forall t' th'', t' <> t -> threads s !! t' = Some th'' ->
    work_ok fs' (queued q') t' (t_pc th'') /\ cb_ok fs' (queued q') th'') as Hoth.
  { intros t' th'' Hne Hl. eapply work_ok_frame;
      [|split; [by eapply sa_work|by eapply sa_cb]].
    intros f Hc. destruct (Hother _ _ _ Hne Hl Hc) as [Hn [fb Hfb]]. split.
    - destruct (Hfs f) as [?|[?|?]]; [done|done|congruence].
    - intros Hin. left. destruct (Hq f Hin); done. }
  constructor; simpl; try done.
  - intros f Hin. destruct (Hqueue f Hin) as (fb & Hfb & Hcase). exists fb. split; [done|].
    destruct Hcase as [?|(Hrun & Hnc & Hwho)]; [by left|right]. split; [done|].
    intros t' th'' Hl Hc. destruct (Hlk _ _ Hl) as [[-> ->]|[Hne Hl']]; [done|].
    destruct Hwho as [Hwho|Hwho]; [|by eapply Hwho].
    by destruct (Hother _ _ _ Hne Hl' Hc).
  - intros t1 t2 th1 th2 f Hl1 Hl2 Hc1 Hc2.
    assert (forall t' th'', t' <> t -> threads s !! t' = Some th'' -> controls th'' f ->
      controls th' f -> False) as Hx.
    { intros t' th'' Hne Hl Hc Hc'. destruct (Hother _ _ _ Hne Hl Hc) as [Hn [fb Hfb]].
      destruct (Hctl f Hc') as [?|[?|Hnb]]; [done|congruence|by eapply Hnb]. }
    destruct (Hlk _ _ Hl1) as [[-> ->]|[Hn1 Hl1']], (Hlk _ _ Hl2) as [[-> ->]|[Hn2 Hl2']]; try done.
    + by destruct (Hx t2 th2).
    + by destruct (Hx t1 th1).
    + eapply sa_excl; [exact Hs|exact Hl1'|exact Hl2'|done|done].
  - intros t' th'' Hl. destruct (Hlk _ _ Hl) as [[-> ->]|[Hne Hl']]; [apply Hth'|].
    by destruct (Hoth t' th'' Hne Hl').
  - intros t' th'' Hl. destruct (Hlk _ _ Hl) as [[-> ->]|[Hne Hl']]; [apply Hth'|].
    by destruct (Hoth t' th'' Hne Hl').
Qed.

(** A step that leaves the queue and the fibers alone. *)
Lemma safe_goto s t th th' ac id st au :
  safe s -> threads s !! t = Some th ->
  work_ok (fibers s) (queued (m_fibers s)) t (t_pc th') ->
  cb_ok (fibers s) (queued (m_fibers s)) th' ->
  (forall f, controls th' f -> controls th f) ->
  safe (Sched (m_fibers s) (fibers s) (<[t := th']> (threads s)) ac id st au).
Proof.
  intros Hs Ht Hw Hc Hctl. eapply safe_move; try done; try apply Hs.
  - intros f. by left.
  - intros f Hin. by left.
  - intros f Hf. left. auto.
  - intros f Hin. destruct (sa_queue s Hs f Hin) as (fb & Hfb & Hcase). exists fb.
    split; [done|]. destruct Hcase as [?|[? Hnb]]; [by left|right]. split_and!; [done| |by right].
    intros Hc'. by apply (Hnb t th), Hctl.
Qed.

Lemma queued_app q1 q2 : queued (q1 ++ q2) = queued q1 ++ queued q2.
Proof. apply omap_app. Qed.

Lemma queued_schedule f s :
  queued (m_fibers (schedule (FT (Some f) None (-1)) s).2) = queued (m_fibers s) ++ [f].
Proof. unfold schedule, scheduleNoLock. simpl. by rewrite queued_app. Qed.

Lemma safe_newFiber a cb s :
  safe s -> fibers s !! a = None -> safe (set_fiber a (newFiber (Some cb)) s).
Proof.
  intros Hs Ha.
  assert (forall f x, fibers s !! f = Some x -> <[a := newFiber (Some cb)]> (fibers s) !! f = Some x)
    as Hkeep by (intros f x Hf; rewrite lookup_insert_ne; [done|congruence]).
  assert (forall t th, threads s !! t = Some th ->
    work_ok (<[a := newFiber (Some cb)]> (fibers s)) (queued (m_fibers s)) t (t_pc th)
    /\ cb_ok (<[a := newFiber (Some cb)]> (fibers s)) (queued (m_fibers s)) th) as Hth.
  { intros t th Ht. eapply work_ok_frame; [|split; [by eapply sa_work|by eapply sa_cb]].
    intros f Hc. destruct (controls_exists (fibers s) (queued (m_fibers s)) t th f) as [x Hx];
      [by apply sa_work|by eapply sa_cb|done|]. split; [|by left]. by rewrite (Hkeep f x). }
  constructor; simpl; try apply Hs.
  - intros f Hin. destruct (sa_queue s Hs f Hin) as (fb & Hfb & H). exists fb. eauto.
  - intros t th Ht. by destruct (Hth t th Ht).
  - intros t th Ht. by destruct (Hth t th Ht).
Qed.

Lemma safe_schedule ft s : safe s -> polite (LSchedule ft) s -> safe (schedule ft s).2.
Proof.
  intros Hs Hp. destruct ft as [[f|] cb thr]; [|destruct cb as [cb|]; [|done]].
  - destruct Hp as (Hni & fb & Hfb & Hcase). unfold schedule, scheduleNoLock. simpl.
    constructor; simpl; rewrite ?queued_app; simpl.
    + apply NoDup_app. split_and!; [apply Hs|set_solver|apply NoDup_singleton].
    + intros g [Hg|Hg%list_elem_of_singleton]%elem_of_app; [by apply sa_queue|subst; eauto].
    + apply Hs.
    + intros t th Ht. eapply (work_ok_frame (fibers s) _ (queued (m_fibers s)));
        [|split; [by eapply sa_work|by eapply sa_cb]].
      intros g Hc. split; [done|]. intros [?|Hg%list_elem_of_singleton]%elem_of_app; [by left|right].
      subst. destruct Hcase as [?|[_ Hnb]]; [eauto|by destruct (Hnb t th)].
    + intros t th Ht. eapply (work_ok_frame (fibers s) _ (queued (m_fibers s)) _ t);
        [|split; [by eapply sa_work|by eapply sa_cb]].
      intros g Hc. split; [done|]. intros [?|Hg%list_elem_of_singleton]%elem_of_app; [by left|right].
      subst. destruct Hcase as [?|[_ Hnb]]; [eauto|by destruct (Hnb t th)].
    + apply Forall_app. split; [apply Hs|by repeat constructor].
  - unfold schedule, scheduleNoLock. simpl.
    assert (queued (m_fibers s ++ [FT None (Some cb) thr]) = queued (m_fibers s)) as E
      by (rewrite queued_app; apply app_nil_r).
    constructor; simpl; rewrite ?E; try apply Hs.
    apply Forall_app. split; [apply Hs|by repeat constructor].
Qed.

Lemma cb_ok_other fs qf th th' :
  cb_ok fs qf th -> t_cb_fiber th' = t_cb_fiber th -> via th = false -> via th' = false ->
  (forall g, t_cb_fiber th = Some g -> work th' <> Some g) -> cb_ok fs qf th'.
Proof.
  intros [_ Hc] E Hv Hv' Hw. split; [congruence|]. intros g Hg. rewrite E in Hg.
  right. split; [by apply Hw|]. destruct (Hc g Hg) as [?|[_ ?]]; [congruence|done].
Qed.

Lemma cb_ok_queue fs qf qf' th : (forall f, f ∈ qf' -> f ∈ qf) -> cb_ok fs qf th -> cb_ok fs qf' th.
Proof. intros Hq [Hv Hc]. split; [done|]. intros g Hg. naive_solver. Qed.

Lemma safe_pick t th s :
  safe s -> threads s !! t = Some th -> t_pc th = Top ->
  exists tk s', pick t s = Ok (tk, s') /\ safe s'.
Proof.
  intros Hs Ht Hpc. unfold pick, thread_at. rewrite Ht. cbn [deref mbind outcome_bind].
  destruct (pick_loop_spec t (fibers s) (m_fibers s) (sa_has_work s Hs)) as (o & rest & tk & -> & Ho).
  cbn [mbind outcome_bind]. eexists _, _. split; [reflexivity|].
  pose proof (sa_cb s Hs t th Ht) as Hcb. destruct o as [ft|].
  2: { destruct Ho as (-> & _).
       apply (safe_goto s t th (Thr NoTask (t_cb_fiber th) (t_idle_term th))); try done.
       - eapply cb_ok_other; try done. unfold via. by rewrite Hpc.
       - intros f [?|?]; [done|by right]. }
  destruct Ho as (q1 & q2 & Eq & -> & He & _).
  pose proof (sa_nodup s Hs) as Hnd. pose proof (sa_has_work s Hs) as Hhw.
  pose proof (sa_queue s Hs) as Hq. rewrite Eq in Hnd, Hhw, Hq.
  rewrite queued_app in Hnd, Hq. simpl in Hnd, Hq.
  assert (forall f, f ∈ queued (q1 ++ q2) -> f ∈ queued (m_fibers s)) as Hsub.
  { intros f. rewrite Eq, !queued_app. simpl. destruct (ft_fiber ft); set_solver. }
  assert (forall f, ft_fiber ft = Some f -> (f ∉ queued (q1 ++ q2)) /\ exists fb,
    fibers s !! f = Some fb /\ runnable fb /\ nobody (threads s) f) as Hft.
  { intros f Ef. rewrite Ef in *. rewrite queued_app. simpl in *. split.
    - apply NoDup_app in Hnd as (_ & Hd & Hnd). apply NoDup_cons in Hnd as [? _].
      rewrite elem_of_app. intros [?|?]; [|done]. eapply Hd; [done|by left].
    - destruct (Hq f) as (fb & Hfb & Hcase); [set_solver|]. exists fb. split; [done|].
      unfold eligible, is_exec in He. rewrite Ef, Hfb in He.
      destruct Hcase as [Hx|?]; [|done]. rewrite bool_decide_eq_true_2 in He by done.
      by rewrite andb_false_r in He. }
  apply (safe_move s t th (Thr (Picked ft) (t_cb_fiber th) (t_idle_term th)) (fibers s) (q1 ++ q2));
    try done.
  - rewrite queued_app. apply NoDup_app in Hnd as (H1 & Hd & H2).
    destruct (ft_fiber ft) as [f|]; simpl in *; [apply NoDup_cons in H2 as [_ H2]|];
      apply NoDup_app; split_and!; try done. intros x Hx. specialize (Hd x Hx). set_solver.
  - apply Forall_app in Hhw as [? H]. apply Forall_cons in H as [_ ?]. by apply Forall_app.
  - intros f. by left.
  - intros f Hf. left. auto.
  - split.
    + simpl. destruct (ft_fiber ft) as [f|] eqn:Ef.
      * destruct (Hft f eq_refl) as (Hn & fb & ? & ? & _). eauto.
      * apply Forall_app in Hhw as [_ H]. apply Forall_cons in H as [H _].
        unfold has_work in H. rewrite Ef in H. by destruct (ft_cb ft).
    + eapply cb_ok_queue; [exact Hsub|]. eapply cb_ok_other; try done.
      * unfold via. by rewrite Hpc.
      * intros g Hg Ew. destruct (Hft g Ew) as (_ & fb & _ & _ & Hnb). apply (Hnb t th Ht). by right.
  - intros f [Hf|Hf]; [|by left; right]. right; right. by destruct (Hft f Hf) as (_ & fb & _ & _ & ?).
  - intros f Hin. destruct (sa_queue s Hs f (Hsub f Hin)) as (fb & Hfb & Hcase).
    exists fb. split; [done|]. destruct Hcase as [?|[? Hnb]]; [by left|right].
    split_and!; [done| |by right]. intros [Hf|Hf].
    + by destruct (Hft f Hf).
    + apply (Hnb t th Ht). by right.
Qed.

(** A worker changes the fiber it works on, or a new one. *)
Lemma safe_update s t th th' f fb' ac id st au :
  safe s -> threads s !! t = Some th -> controls th f \/ fibers s !! f = None ->
  work_ok (<[f := fb']> (fibers s)) (queued (m_fibers s)) t (t_pc th') ->
  cb_ok (<[f := fb']> (fibers s)) (queued (m_fibers s)) th' ->
  (forall g, controls th' g -> controls th g \/ g = f) ->
  (f ∈ queued (m_fibers s) -> m_state fb' = EXEC \/ runnable fb' /\ ~ controls th' f) ->
  safe (Sched (m_fibers s) (<[f := fb']> (fibers s)) (<[t := th']> (threads s)) ac id st au).
Proof.
  intros Hs Ht Hf Hw Hc Hctl Hq. eapply safe_move; try done; try apply Hs.
  - intros g. destruct (decide (g = f)) as [->|]; [by right|left].
    unfold same_fiber. by rewrite lookup_insert_ne.
  - intros g Hg. by left.
  - intros g Hg. destruct (Hctl g Hg) as [?| ->]; [by left|tauto].
  - intros g Hg. destruct (sa_queue s Hs g Hg) as (gb & Hgb & Hcase).
    destruct (decide (g = f)) as [->|Hne].
    + exists fb'. rewrite lookup_insert_eq. split; [done|].
      destruct (Hq Hg) as [?|[? ?]]; [by left|right]. split_and!; [done..|].
      left. destruct Hf; [done|congruence].
    + exists gb. rewrite lookup_insert_ne by done. split; [done|].
      destruct Hcase as [?|[? Hnb]]; [by left|right]. split_and!; [done| |by right].
      intros Hg'. destruct (Hctl g Hg'); [by apply (Hnb t th)|done].
Qed.

Lemma cb_ok_update fs qf th th' f fb :
  cb_ok fs qf th -> work th = Some f -> work th' = Some f -> via th' = via th ->
  t_cb_fiber th' = t_cb_fiber th -> cb_ok (<[f := fb]> fs) qf th'.
Proof.
  intros [Hv Hc] Hw Hw' Ev Ec. split.
  - rewrite Ev, Ec, Hw', <- Hw. done.
  - intros g. rewrite Ec, Ev, Hw'. intros Hg. destruct (Hc g Hg) as [?|[Hne H]]; [by left|right].
    rewrite Hw in Hne. split; [done|]. rewrite lookup_insert_ne by congruence. done.
Qed.

Lemma safe_enter t a th ft s :
  safe s -> threads s !! t = Some th -> t_pc th = Picked ft -> fibers s !! a = None ->
  exists s', enter t a s = Ok s' /\ safe s'.
Proof.
  intros Hs Ht Hpc Ha. unfold enter, thread_at. rewrite Ht. cbn [deref mbind outcome_bind].
  pose proof (sa_work s Hs t th Ht) as Hw. pose proof (sa_cb s Hs t th Ht) as Hc.
  rewrite Hpc in *. simpl in Hw. destruct ft as [[f|] cb thr]; simpl in Hw.
  - destruct Hw as (fb & Hfb & Hrun & Hni). unfold fiber_at. rewrite Hfb.
    cbn [deref mbind outcome_bind].
    destruct (swapIn_runnable t fb Hrun) as (fb' & -> & Hrun'). cbn [mbind outcome_bind].
    assert (work th = Some f) as Ewk by (unfold work; by rewrite Hpc).
    eexists. split; [reflexivity|].
    apply (safe_update s t th (Thr (Runs f false) (t_cb_fiber th) (t_idle_term th))); try done.
    + left. by left.
    + simpl. rewrite lookup_insert_eq. eauto.
    + eapply cb_ok_update; try done. unfold via. by rewrite Hpc.
    + intros g [[= <-]|?]; [by right|left; by right].
  - destruct cb as [cb|]; [|done].
    assert (via th = false) as Ev by (unfold via; by rewrite Hpc).
    destruct (t_cb_fiber th) as [g|] eqn:Ecb.
    + destruct (proj2 Hc g Ecb) as [?|(_ & gb & Hgb & Hrun & Hst & Hni)]; [congruence|].
      unfold fiber_at. rewrite Hgb. cbn [deref mbind outcome_bind].
      destruct (reset_INIT (Some cb) gb) as (gb1 & -> & Hrun1 & _); [apply Hrun|done|].
      cbn [mbind outcome_bind]. destruct (swapIn_runnable t gb1 Hrun1) as (gb2 & -> & Hrun2).
      eexists. split; [reflexivity|].
      apply (safe_update s t th (Thr (Runs g true) (Some g) (t_idle_term th))); try done.
      * left. by right.
      * simpl. rewrite lookup_insert_eq. eauto.
      * split; [done|]. intros h [= <-]. by left.
      * intros h [[= <-]|[= <-]]; by right.
    + destruct (swapIn_runnable t (newFiber (Some cb))) as (gb2 & E2 & Hrun2).
      { unfold runnable. simpl. naive_solver. }
      cbn [mbind outcome_bind]. rewrite E2. eexists. split; [reflexivity|].
      apply (safe_update s t th (Thr (Runs a true) (Some a) (t_idle_term th))); try done.
      * by right.
      * simpl. rewrite lookup_insert_eq. eauto.
      * split; [done|]. intros h [= <-]. by left.
      * intros h [[= <-]|[= <-]]; by right.
      * intros Hq. destruct (sa_queue s Hs a Hq) as (x & ? & _). congruence.
Qed.

Lemma safe_exit t e th f v s :
  safe s -> threads s !! t = Some th -> t_pc th = Runs f v ->
  (e = YHold \/ f ∉ queued (m_fibers s)) ->
  exists s', exit_fiber t e s = Ok s' /\ safe s'.
Proof.
  intros Hs Ht Hpc He. unfold exit_fiber, thread_at. rewrite Ht. cbn [deref mbind outcome_bind].
  pose proof (sa_work s Hs t th Ht) as Hw. pose proof (sa_cb s Hs t th Ht) as Hc.
  rewrite Hpc in *. simpl in Hw. destruct Hw as (fb & Hfb & Hrun).
  unfold fiber_at. rewrite Hfb. cbn [deref mbind outcome_bind].
  destruct (leave_running t e fb Hrun) as (fb' & -> & Hl). cbn [mbind outcome_bind].
  eexists. split; [reflexivity|].
  assert (work th = Some f) as Ewk by (unfold work; by rewrite Hpc).
  apply (safe_update s t th (Thr (Left f v) (t_cb_fiber th) (t_idle_term th))); try done.
  - left. by left.
  - simpl. rewrite lookup_insert_eq. exists fb'. split; [done|].
    destruct e; simpl in Hl; [right|by left|right|right]; (split; [by destruct He|tauto]).
  - eapply cb_ok_update; try done. unfold via. by rewrite Hpc.
  - intros g [[= <-]|?]; [by right|left; by right].
  - intros Hq. left. destruct He as [->|?]; [|done]. by destruct Hl as (_ & _ & ?).
Qed.

Lemma safe_drop t th f v s :
  safe s -> threads s !! t = Some th -> t_pc th = Left f v ->
  exists s', drop_active t s = Ok s' /\ safe s'.
Proof.
  intros Hs Ht Hpc. unfold drop_active, thread_at. rewrite Ht. cbn [deref mbind outcome_bind].
  pose proof (sa_work s Hs t th Ht) as Hw. pose proof (sa_cb s Hs t th Ht) as Hc.
  rewrite Hpc in *. eexists. split; [reflexivity|].
  apply (safe_goto s t th (Thr (Dropped f v) (t_cb_fiber th) (t_idle_term th))); try done.
  - unfold cb_ok, via, work in *. by rewrite Hpc in Hc.
  - unfold controls, work. by rewrite Hpc.
Qed.

(** A worker leaves the fiber it worked on to the queue or to others. *)
Lemma safe_requeue t th th' f fb s :
  safe s -> threads s !! t = Some th -> work th = Some f -> fibers s !! f = Some fb ->
  runnable fb -> (f ∉ queued (m_fibers s)) -> t_pc th' = Top ->
  (t_cb_fiber th' = None \/ via th = false /\ t_cb_fiber th' = t_cb_fiber th) ->
  safe (set_thread t th' (schedule (FT (Some f) None (-1)) s).2).
Proof.
  intros Hs Ht Hwk Hfb Hrun Hni Hpc Hcb. pose proof (sa_cb s Hs t th Ht) as [_ Hc].
  assert (forall g, t_cb_fiber th' = Some g -> via th = false /\ t_cb_fiber th = Some g /\ g <> f) as Hg.
  { intros g Eg. destruct Hcb as [E|[Ev E]]; [congruence|]. rewrite E in Eg.
    destruct (Hc g Eg) as [?|[Hne _]]; [congruence|]. split_and!; congruence. }
  assert (~ controls th' f) as Hnc.
  { intros [H|H]; [unfold work in H; by rewrite Hpc in H|]. by destruct (Hg f H) as (_ & _ & ?). }
  unfold schedule, scheduleNoLock. simpl.
  apply (safe_move s t th th' (fibers s) (m_fibers s ++ [FT (Some f) None (-1)])); try done.
  - rewrite queued_app. simpl. apply NoDup_app. split_and!; [apply Hs|set_solver|apply NoDup_singleton].
  - apply Forall_app. split; [apply Hs|by repeat constructor].
  - intros g. by left.
  - intros g. rewrite queued_app. simpl.
    intros [?|Hg'%list_elem_of_singleton]%elem_of_app; [by left|right]. subst. by left.
  - rewrite Hpc. split; [done|]. split; [unfold via; by rewrite Hpc|].
    intros g Eg. destruct (Hg g Eg) as (Ev & Eg' & Hne). right.
    split; [unfold work; by rewrite Hpc|].
    destruct (Hc g Eg') as [?|(_ & gb & ? & ? & ? & ?)]; [congruence|].
    exists gb. rewrite queued_app. simpl. split_and!; [done..|]. set_solver.
  - intros g [H|H]; [unfold work in H; by rewrite Hpc in H|].
    left. right. by destruct (Hg g H) as (_ & ? & _).
  - intros g. rewrite queued_app. simpl.
    intros [Hin|Hin%list_elem_of_singleton]%elem_of_app.
    + destruct (sa_queue s Hs g Hin) as (gb & Hgb & Hcase). exists gb. split; [done|].
      destruct Hcase as [?|[? Hnb]]; [by left|right]. split_and!; [done| |by right].
      intros [H1|H1]; [unfold work in H1; by rewrite Hpc in H1|].
      apply (Hnb t th Ht). right. by destruct (Hg g H1) as (_ & ? & _).
    + subst. exists fb. split; [done|]. right. split_and!; [done..|]. left. by left.
Qed.

Lemma safe_settle t th f v s :
  safe s -> threads s !! t = Some th -> t_pc th = Dropped f v ->
  exists s', settle t s = Ok s' /\ safe s'.
Proof.
  intros Hs Ht Hpc. unfold settle, thread_at. rewrite Ht. cbn [deref mbind outcome_bind].
  pose proof (sa_work s Hs t th Ht) as Hw. pose proof (sa_cb s Hs t th Ht) as Hc.
  assert (work th = Some f) as Ewk by (unfold work; by rewrite Hpc).
  assert (via th = v) as Ev by (unfold via; by rewrite Hpc).
  rewrite Hpc in *. simpl in Hw. destruct Hw as (fb & Hfb & Hst). unfold fiber_at.
  rewrite Hfb. cbn [deref mbind outcome_bind].
  assert (m_state fb = READY -> runnable fb /\ (f ∉ queued (m_fibers s))) as HR.
  { intros E. destruct Hst as [(_ & _ & ?)|(? & [(_ & _ & [?|?])|[? ?]])]; try congruence. done. }
  assert (m_state fb = TERM \/ m_state fb = EXCEPT -> finished fb /\ (f ∉ queued (m_fibers s))) as HF.
  { intros E. destruct Hst as [(_ & _ & ?)|(? & [?|[? ?]])]; [|done|]; destruct E; congruence. }
  assert (m_state fb <> READY -> ~ (m_state fb = TERM \/ m_state fb = EXCEPT) ->
          runnable (set_state HOLD fb)) as HH.
  { intros E1 E2. destruct Hst as [(? & ? & ?)|(_ & [(_ & _ & ?)|[_ ?]])]; [|tauto..].
    unfold runnable. simpl. tauto. }
  assert (forall g, t_cb_fiber th = Some g -> v = false -> g <> f) as Hcbf.
  { intros g Eg ->. destruct (proj2 Hc g Eg) as [?|[? _]]; congruence. }
  (* a fiber handed back as HOLD *)
  assert (forall c, (c = None \/ v = false /\ c = t_cb_fiber th) -> runnable (set_state HOLD fb) ->
    safe (set_thread t (Thr Top c (t_idle_term th)) (set_fiber f (set_state HOLD fb) s))) as Hhold.
  { intros c Hcc Hrun. assert (c <> Some f) as Hne.
    { intros ->. destruct Hcc as [|[Hv E]]; [done|]. by apply (Hcbf f). }
    apply (safe_update s t th (Thr Top c (t_idle_term th)) f (set_state HOLD fb)); try done.
    - left. by left.
    - split; [done|]. intros g Eg. simpl in Eg. right. split; [done|]. subst c.
      destruct Hcc as [|[Hv E]]; [done|]. destruct (proj2 Hc g (eq_sym E)) as [?|[Hw' H]]; [congruence|].
      rewrite lookup_insert_ne by congruence. done.
    - intros g [H|H]; [done|]. simpl in H. left. right. destruct Hcc as [|[_ E]]; congruence.
    - intros _. right. split; [done|]. intros [H|H]; done. }
  destruct v.
  - destruct (decide (m_state fb = READY)) as [E|E].
    { destruct (HR E) as [? ?]. eexists. split; [reflexivity|].
      eapply (safe_requeue t th); try done. by left. }
    destruct (decide (m_state fb = EXCEPT \/ m_state fb = TERM)) as [E'|E'].
    + destruct HF as [Hfin Hni]; [tauto|].
      destruct (reset_finished None fb Hfin) as (fb' & -> & Hrun & Hi). cbn [mbind outcome_bind].
      eexists. split; [reflexivity|].
      apply (safe_update s t th (Thr Top (t_cb_fiber th) (t_idle_term th))); try done.
      * left. by left.
      * split; [done|]. intros g Eg. simpl in Eg. right. split; [done|].
        rewrite (proj1 Hc Ev), Ewk in Eg. injection Eg as <-. exists fb'.
        by rewrite lookup_insert_eq.
      * intros g [H|H]; [done|]. left. by right.
    + eexists. split; [reflexivity|]. apply Hhold; [by left|]. apply HH; tauto.
  - destruct (decide (m_state fb = READY)) as [E|E].
    { destruct (HR E) as [? ?]. eexists. split; [reflexivity|].
      eapply (safe_requeue t th); try done. by right. }
    destruct (decide (m_state fb = TERM \/ m_state fb = EXCEPT)) as [E'|E'].
    + eexists. split; [reflexivity|].
      apply (safe_goto s t th (Thr Top (t_cb_fiber th) (t_idle_term th))); try done.
      * eapply cb_ok_other; done.
      * intros g [H|H]; [done|by right].
    + eexists. split; [reflexivity|]. apply Hhold; [by right|]. by apply HH.
Qed.

Lemma safe_idle_in t th s :
  safe s -> threads s !! t = Some th -> t_pc th = NoTask ->
  exists s', enter_idle t s = Ok s' /\ safe s'.
Proof.
  intros Hs Ht Hpc. unfold enter_idle, thread_at. rewrite Ht. cbn [deref mbind outcome_bind].
  rewrite Hpc. eexists. split; [reflexivity|]. pose proof (sa_cb s Hs t th Ht) as Hc.
  assert (via th = false) by (unfold via; by rewrite Hpc).
  destruct (t_idle_term th); (eapply (safe_goto s t th); try done;
    [by eapply cb_ok_other|by intros f [?|?]; [|right]]).
Qed.

Lemma safe_idle_out t th s :
  safe s -> threads s !! t = Some th -> t_pc th = InIdle ->
  exists s', leave_idle t s = Ok s' /\ safe s'.
Proof.
  intros Hs Ht Hpc. unfold leave_idle, thread_at. rewrite Ht. cbn [deref mbind outcome_bind].
  rewrite Hpc. eexists. split; [reflexivity|]. pose proof (sa_cb s Hs t th Ht) as Hc.
  assert (via th = false) by (unfold via; by rewrite Hpc).
  eapply (safe_goto s t th); try done; [by eapply cb_ok_other|by intros f [?|?]; [|right]].
Qed.

(** Every enabled polite transition succeeds and keeps the invariant. *)
Lemma safe_step l s :
  safe s -> enabled l s -> polite l s -> exists s', exec l s = Ok s' /\ safe s'.
Proof.
  intros Hs He Hp. destruct l as [a cb|ft|t|t a|t e|t|t|t|t|]; cbn [exec enabled] in *.
  - eexists. split; [done|]. by apply safe_newFiber.
  - eexists. split; [done|]. by apply safe_schedule.
  - destruct He as (th & Ht & Hpc). destruct (safe_pick t th s Hs Ht Hpc) as (tk & s' & -> & ?).
    simpl. eauto.
  - destruct He as [(th & Ht & ft & Hpc) Ha]. by eapply safe_enter.
  - destruct He as (th & Ht & f & v & Hpc). eapply safe_exit; try done.
    destruct Hp as [?|Hp]; [by left|right]. eapply Hp; [done|]. unfold work. by rewrite Hpc.
  - destruct He as (th & Ht & f & v & Hpc). by eapply safe_drop.
  - destruct He as (th & Ht & f & v & Hpc). by eapply safe_settle.
  - destruct He as (th & Ht & Hpc). by eapply safe_idle_in.
  - destruct He as (th & Ht & Hpc). by eapply safe_idle_out.
  - eexists. split; [done|]. by destruct Hs; constructor.
Qed.

Inductive polite_reachable (n : nat) : sched -> Prop :=
  | pr_start : polite_reachable n (started n)
  | pr_step l s s' : polite_reachable n s -> enabled l s -> polite l s -> exec l s = Ok s' ->
      polite_reachable n s'.

Lemma safe_started n : safe (started n).
Proof.
  assert (forall t th, replicate n (Thr Top None false) !! t = Some th -> th = Thr Top None false)
    as Hth by (intros t th [-> _]%lookup_replicate; done).
  constructor; simpl; try by constructor.
  - set_solver.
  - intros t t' th th' f ->%Hth _ [?|?]; done.
  - by intros t th ->%Hth.
  - intros t th ->%Hth. by split.
Qed.

Lemma polite_safe n s : polite_reachable n s -> safe s.
Proof.
  induction 1 as [|l s s' _ IH He Hp Hx]; [apply safe_started|].
  destruct (safe_step l s IH He Hp) as (s1 & E & ?). congruence.
Qed.

Definition run_labels (ls : list label) (s : sched) : outcome sched :=
  foldl (fun r l => s ← r; exec l s) (Ok s) ls.

(** ** Properties *)

(** C3: As long as no fiber is scheduled while it is already pending (and a
    fiber scheduled while it runs yields with [YieldToHold]), no interleaving
    of workers and clients fails an assertion or runs two workers on one
    stack: every enabled transition succeeds, and at most one worker runs,
    holds or is about to run a given fiber. *)
Theorem scheduler_safe n s l :
  polite_reachable n s -> enabled l s -> polite l s ->
  (exists s', exec l s = Ok s')
  /\ (forall t t' th th' f, threads s !! t = Some th -> threads s !! t' = Some th' ->
        work th = Some f -> work th' = Some f -> t = t').
Proof.
  intros Hs%polite_safe He Hp. split.
  - destruct (safe_step l s Hs He Hp) as (s' & ? & _). eauto.
  - intros t t' th th' f Ht Ht' Hf Hf'. eapply sa_excl; eauto; by left.
Qed.

Lemma scheduler_safe_witness :
  exists s', exec (LPick 1) (schedule (FT None (Some 5) (-1)) (started 2)).2 = Ok s'.
Proof.
  refine (proj1 (scheduler_safe 2 (schedule (FT None (Some 5) (-1)) (started 2)).2 (LPick 1) _ _ I)).
  - eapply pr_step with (l := LSchedule (FT None (Some 5) (-1))); [apply pr_start|done|done|done].
  - exists (Thr Top None false). split; reflexivity.
Defined.

(** What [stopping()] being true says of the queue and the workers. *)
Lemma stopping_counts s :
  counts_ok s -> stopping s = true ->
  m_stopping s = true /\ m_fibers s = []
  /\ forall t th, threads s !! t = Some th -> holds (t_pc th) = 0%Z.
Proof.
  intros [Ha _ _] H. unfold stopping in H.
  apply andb_true_iff in H as [H H0].
  apply andb_true_iff in H as [H Hq]. apply andb_true_iff in H as [_ Hs].
  apply Z.eqb_eq in H0. split_and!; [done|by destruct (m_fibers s)|].
  rewrite Ha in H0. clear -H0. intros t th. revert t.
  assert (forall p, 0 <= holds p)%Z as Hnn by (intros []; simpl; lia).
  induction (threads s) as [|x l IH]; intros t Ht; [done|]. simpl in H0.
  assert (0 <= count holds l)%Z by (clear -Hnn; induction l as [|y l IH]; simpl; [lia|];
    specialize (Hnn (t_pc y)); lia).
  pose proof (Hnn (t_pc x)). destruct t as [|t]; [injection Ht as <-; lia|].
  eapply IH; [lia|done].
Qed.

Lemma stopping_quiescent n s :
  reachable n s -> stopping s = true ->
  m_stopping s = true /\ m_fibers s = []
  /\ forall t th, threads s !! t = Some th -> holds (t_pc th) = 0%Z.
Proof. intros H%counts_ok_reachable. by apply stopping_counts. Qed.

(** C34: In every interleaving, with no assumption on the clients,
    [m_activeThreadCount] is the number of workers that hold a task and
    [m_idleThreadCount] the number inside the idle fiber; so [stopping()] is
    true only after a stop request, with the queue empty and no worker holding
    a task. *)
Theorem scheduler_counters n s :
  reachable n s ->
  m_activeThreadCount s = count holds (threads s)
  /\ m_idleThreadCount s = count idles (threads s)
  /\ (stopping s = true ->
      m_stopping s = true /\ m_fibers s = []
      /\ forall t th, threads s !! t = Some th -> holds (t_pc th) = 0%Z).
Proof.
  intros Hr. pose proof (counts_ok_reachable _ _ Hr) as [Ha Hi _]. split_and!; [done..|].
  by apply stopping_quiescent with n.
Qed.

Lemma scheduler_counters_witness :
  m_activeThreadCount (schedule (FT None (Some 5) (-1)) (started 2)).2 = 0%Z.
Proof.
  refine (eq_trans (proj1 (scheduler_counters 2 _ _)) _).
  - eapply reach_step with (l := LSchedule (FT None (Some 5) (-1))); [apply reach_start|done|done].
  - reflexivity.
Defined.

(** A worker takes the first task of the queue that is not pinned to
    another thread and whose fiber is not running, leaves the others in order,
    and asks for a tickle exactly when it passed a task pinned elsewhere or
    left tasks behind the one it took; a pinned task is never taken by another
    thread. *)
Theorem pick_fifo n s t th :
  reachable n s -> threads s !! t = Some th ->
  exists tk s', pick t s = Ok (tk, s')
    /\ ((exists ft q1 q2, m_fibers s = q1 ++ ft :: q2 /\ m_fibers s' = q1 ++ q2
           /\ t_pc <$> threads s' !! t = Some (Picked ft)
           /\ eligible t (fibers s) ft = true
           /\ (ft_thread ft = -1 \/ ft_thread ft = Z.of_nat t)%Z
           /\ Forall (fun ft => eligible t (fibers s) ft = false) q1
           /\ tk = existsb (foreign t) q1 || negb (bool_decide (q2 = [])))
        \/ (m_fibers s' = m_fibers s /\ t_pc <$> threads s' !! t = Some NoTask
            /\ Forall (fun ft => eligible t (fibers s) ft = false) (m_fibers s)
            /\ tk = existsb (foreign t) (m_fibers s))).
Proof.
  intros Hr%counts_ok_reachable Ht. unfold pick, thread_at. rewrite Ht. cbn [deref mbind outcome_bind].
  destruct (pick_loop_spec t (fibers s) (m_fibers s) (co_work s Hr)) as (o & rest & tk & -> & Ho).
  cbn [mbind outcome_bind]. eexists _, _. split; [reflexivity|].
  assert (t < length (threads s)) by (by eapply lookup_lt_Some).
  destruct o as [ft|].
  - left. destruct Ho as (q1 & q2 & Eq & -> & He & Hn & Htk). exists ft, q1, q2. simpl.
    rewrite list_lookup_insert_eq by done. split_and!; try done.
    + unfold eligible, foreign in He. apply andb_true_iff in He as [He _].
      destruct (Z.eqb_spec (ft_thread ft) (-1)), (Z.eqb_spec (ft_thread ft) (Z.of_nat t)); tauto || done.
    + rewrite Htk. by destruct q2.
  - right. destruct Ho as (-> & Hn & Htk). simpl. rewrite list_lookup_insert_eq by done. by split_and!.
Qed.

Lemma pick_fifo_witness :
  exists tk s', pick 1 (schedule (FT None (Some 5) 0) (started 2)).2 = Ok (tk, s') /\ tk = true.
Proof.
  destruct (pick_fifo 2 (schedule (FT None (Some 5) 0) (started 2)).2 1 (Thr Top None false))
    as (tk & s' & H & _).
  - eapply reach_step with (l := LSchedule (FT None (Some 5) 0)); [apply reach_start|done|done].
  - reflexivity.
  - exists tk, s'. split; [exact H|]. vm_compute in H. by injection H.
Defined.

(** A fiber that has terminated while it was queued is run again: the
    guard [getState() != TERM || getState() != EXCEPT] does not exclude it, and
    the resumed fiber fails the "never reach" assertion of [MainFunc]. *)
Theorem terminated_fiber_rerun :
  run_labels
    [LNewFiber 7 1; LSchedule (FT (Some 7) None (-1)); LPick 0; LEnter 0 8;
     LSchedule (FT (Some 7) None (-1)); LExit 0 Done; LDrop 0; LSettle 0; LPick 0; LEnter 0 8]
    (started 1) = Err AssertFails
  /\ (forall t f, finished f -> swapIn t f = Err AssertFails).
Proof. split; [vm_compute; reflexivity|apply swapIn_finished]. Qed.

(** A fiber scheduled twice is taken by two workers: the state test is
    made when the task is taken, not when the fiber is entered, so the second
    worker fails the assertion of [swapIn]. *)
Theorem double_schedule_asserts :
  run_labels
    [LNewFiber 7 1; LSchedule (FT (Some 7) None (-1)); LSchedule (FT (Some 7) None (-1));
     LPick 0; LPick 1; LEnter 0 8; LEnter 1 8] (started 2) = Err AssertFails.
Proof. vm_compute. reflexivity. Qed.
