(* ===== verification/IOManager.v ===== *)
(** * [sylar::IOManager]: [sylar/iomanager.h], [sylar/iomanager.cc]

    The registration table of the epoll loop.  An [FdContext] is shared by
    address (the table, the epoll instance and running operations all hold
    it), so contexts live in a heap, here a list whose indices are the
    addresses; the table maps descriptors to addresses.  Every operation on a
    context runs under the context's mutex and is one atomic step; finding the
    context runs under [m_mutex] and is a step of its own.

    [epoll_ctl] is a parameter on an abstract kernel state (true when it
    returns 0).  The tasks an operation hands to schedulers are its result. *)

From stdpp Require Import base list gmap.
From Stdlib Require Import ZArith Lia.
From S2P Require Import Prelude Timer TimerTheorems Fiber Scheduler SchedulerTheorems.

Local Open Scope Z_scope.

Definition NONE : Z := 0.
Definition READ : Z := 1.
Definition WRITE : Z := 4.

Definition EPOLLIN : Z := 1.
Definition EPOLLOUT : Z := 4.
Definition EPOLLERR : Z := 8.
Definition EPOLLHUP : Z := 16.
Definition EPOLLET : Z := 2 ^ 31.

Inductive epoll_op := EPOLL_CTL_ADD | EPOLL_CTL_DEL | EPOLL_CTL_MOD.

(** [EventContext]: the scheduler, the fiber, the callback; null is [None]. *)
Record EventContext := EC {
  e_scheduler : option nat;
  e_fiber : option nat;
  e_cb : option nat;
}.
Definition no_context : EventContext := EC None None None.

Record FdContext := FC {
  c_read : EventContext;
  c_write : EventContext;
  c_fd : Z;
  c_events : Z;
}.

Record ioman := IO {
  contexts : list FdContext;
  m_fdContexts : list nat;
  m_pendingEventCount : Z;
}.

(** A task handed to a scheduler. *)
Definition dispatch : Type := nat * task.

(** ** [FdContext] *)

Definition getcontext (event : Z) (c : FdContext) : outcome EventContext :=
  if event =? READ then Ok (c_read c)
  else if event =? WRITE then Ok (c_write c)
  else Err AssertFails.

Definition set_context (event : Z) (e : EventContext) (c : FdContext) : FdContext :=
  if event =? READ then FC e (c_write c) (c_fd c) (c_events c)
  else FC (c_read c) e (c_fd c) (c_events c).

Definition set_events (ev : Z) (c : FdContext) : FdContext :=
  FC (c_read c) (c_write c) (c_fd c) ev.

Definition resetContext (e : EventContext) : EventContext := no_context.

(** [events & event] as a condition. *)
Definition has (events event : Z) : bool := negb (Z.land events event =? 0).
(** [events & ~event] *)
Definition without (events event : Z) : Z := Z.land events (Z.lnot event).

(** [triggerEvent]: passing [&ctx.cb] or [&ctx.fiber] moves it out. *)
Definition triggerEvent (event : Z) (c : FdContext) : outcome (FdContext * list dispatch) :=
  _ ← assert (has (c_events c) event);
  let c := set_events (without (c_events c) event) c in
  e ← getcontext event c;
  sch ← deref null_deref (e_scheduler e);
  match e_cb e with
  | Some cb => Ok (set_context event (EC None (e_fiber e) None) c, [(sch, FT None (Some cb) (-1))])
  | None =>
      Ok (set_context event (EC None None None) c,
          match e_fiber e with Some f => [(sch, FT (Some f) None (-1))] | None => [] end)
  end.

(** ** The table *)

(** [ContextResize]: new contexts at the end of the heap. *)
Definition new_context (i : nat) : FdContext := FC no_context no_context (Z.of_nat i) NONE.

Definition ContextResize (size : nat) (s : ioman) : ioman :=
  let old := length (m_fdContexts s) in
  let fresh := seq old (size - old) in
  IO (contexts s ++ map new_context fresh)
     (take size (m_fdContexts s) ++ seq (length (contexts s)) (size - old))
     (m_pendingEventCount s).

Definition ptr_at (fd : Z) (s : ioman) : outcome nat :=
  if fd <? 0 then Err (UB index_oob) else deref index_oob (m_fdContexts s !! Z.to_nat fd).

(** The first part of [addEvent]: under the read lock, then, when the table
    is too short, under the write lock. *)
Definition find_read (fd : Z) (s : ioman) : outcome (option nat) :=
  if fd <? Z.of_nat (length (m_fdContexts s)) then p ← ptr_at fd s; Ok (Some p) else Ok None.

Definition find_resize (fd : Z) (s : ioman) : outcome (nat * ioman) :=
  let s := ContextResize (Z.to_nat (fd * 3 / 2)) s in
  p ← ptr_at fd s; Ok (p, s).

(** The lookup of the other operations. *)
Definition find_existing (fd : Z) (s : ioman) : outcome (option nat) := find_read fd s.

Definition context_at (p : nat) (s : ioman) : outcome FdContext := deref null_deref (contexts s !! p).

Definition put (p : nat) (c : FdContext) (pending : Z) (s : ioman) : ioman :=
  IO (<[p := c]> (contexts s)) (m_fdContexts s) (m_pendingEventCount s + pending).

Section epoll.
Context {K : Type}.
Context (epoll_ctl : epoll_op -> Z -> Z -> K -> bool * K).

Definition mod_or_del (left : Z) : epoll_op := if left =? 0 then EPOLL_CTL_DEL else EPOLL_CTL_MOD.

(** [addEvent] from the context's lock on.  [self] is [Scheduler::GetThis()],
    [cur] the current fiber and its state. *)
Definition addEvent_locked (p : nat) (fd event : Z) (cb : option nat) (self : option nat)
    (cur : nat * State) (s : ioman) (k : K) : outcome (Z * ioman * K) :=
  c ← context_at p s;
  _ ← assert (negb (has (c_events c) event));
  let op := if c_events c =? 0 then EPOLL_CTL_ADD else EPOLL_CTL_MOD in
  let '(ok, k) := epoll_ctl op fd (Z.lor (Z.lor EPOLLET (c_events c)) event) k in
  if negb ok then Ok (-1, s, k) else
  let c := set_events (Z.lor (c_events c) event) c in
  e ← getcontext event c;
  _ ← assert (bool_decide (e_scheduler e = None) && bool_decide (e_fiber e = None)
              && bool_decide (e_cb e = None));
  e ← match cb with
      | Some cb => Ok (EC self None (Some cb))
      | None => _ ← assert (bool_decide (cur.2 = EXEC)); Ok (EC self (Some cur.1) None)
      end;
  Ok (0, put p (set_context event e c) 1 s, k).

(** [addEvent] with no other thread between its locks. *)
Definition addEvent (fd event : Z) (cb self : option nat) (cur : nat * State) (s : ioman) (k : K)
    : outcome (Z * ioman * K) :=
  o ← find_read fd s;
  '(p, s) ← match o with Some p => Ok (p, s) | None => find_resize fd s end;
  addEvent_locked p fd event cb self cur s k.

(** The common head of [delEvent] and [cancelEvent]: [None] when they return
    false. *)
Definition unregister (p : nat) (fd event : Z) (s : ioman) (k : K)
    : outcome (option FdContext * K) :=
  c ← context_at p s;
  if negb (has (c_events c) event) then Ok (None, k) else
  let new_events := without (c_events c) event in
  let '(ok, k) := epoll_ctl (mod_or_del new_events) fd (Z.lor EPOLLET new_events) k in
  Ok (if ok then Some c else None, k).

Definition delEvent_locked (p : nat) (fd event : Z) (s : ioman) (k : K)
    : outcome (bool * ioman * K) :=
  '(o, k) ← unregister p fd event s k;
  match o with
  | None => Ok (false, s, k)
  | Some c =>
      let c := set_events (without (c_events c) event) c in
      e ← getcontext event c;
      Ok (true, put p (set_context event (resetContext e) c) (-1) s, k)
  end.

Definition cancelEvent_locked (p : nat) (fd event : Z) (s : ioman) (k : K)
    : outcome (bool * list dispatch * ioman * K) :=
  '(o, k) ← unregister p fd event s k;
  match o with
  | None => Ok (false, [], s, k)
  | Some c => '(c, ds) ← triggerEvent event c; Ok (true, ds, put p c (-1) s, k)
  end.

(** Triggering the events of a context that a mask selects. *)
Definition trigger_if (b : bool) (event : Z) (x : FdContext * list dispatch * Z)
    : outcome (FdContext * list dispatch * Z) :=
  let '(c, ds, n) := x in
  if b then '(c, ds') ← triggerEvent event c; Ok (c, ds ++ ds', n - 1) else Ok (c, ds, n).

Definition cancelAll_locked (p : nat) (fd : Z) (s : ioman) (k : K)
    : outcome (bool * list dispatch * ioman * K) :=
  c ← context_at p s;
  if c_events c =? 0 then Ok (false, [], s, k) else
  let '(_, k) := epoll_ctl EPOLL_CTL_DEL fd 0 k in
  '(c, ds, n) ← trigger_if (has (c_events c) READ) READ (c, [], 0);
  '(c, ds, n) ← trigger_if (has (c_events c) WRITE) WRITE (c, ds, n);
  _ ← assert (c_events c =? 0);
  Ok (true, ds, put p c n s, k).

Definition with_ctx {A} (fd : Z) (s : ioman) (none : A) (m : nat -> outcome A) : outcome A :=
  o ← find_existing fd s;
  match o with None => Ok none | Some p => m p end.

Definition delEvent (fd event : Z) (s : ioman) (k : K) :=
  with_ctx fd s (false, s, k) (fun p => delEvent_locked p fd event s k).
Definition cancelEvent (fd event : Z) (s : ioman) (k : K) :=
  with_ctx fd s (false, [], s, k) (fun p => cancelEvent_locked p fd event s k).
Definition cancelAll (fd : Z) (s : ioman) (k : K) :=
  with_ctx fd s (false, [], s, k) (fun p => cancelAll_locked p fd s k).

(** One event of [idle]'s loop, not from the tickle pipe: the context and
    the mask that [epoll_wait] returned. *)
Definition real_events_of (c : FdContext) (mask : Z) : Z :=
  let mask := if has mask (Z.lor EPOLLERR EPOLLHUP)
              then Z.lor mask (Z.land (Z.lor EPOLLIN EPOLLOUT) (c_events c)) else mask in
  Z.lor (if has mask EPOLLIN then READ else NONE) (if has mask EPOLLOUT then WRITE else NONE).

Definition process_event (p : nat) (mask : Z) (s : ioman) (k : K)
    : outcome (list dispatch * ioman * K) :=
  c ← context_at p s;
  let real := real_events_of c mask in
  if Z.land (c_events c) real =? 0 then Ok ([], s, k) else
  let left := without (c_events c) real in
  let '(ok, k) := epoll_ctl (mod_or_del left) (c_fd c) (Z.lor EPOLLET left) k in
  if negb ok then Ok ([], s, k) else
  '(c, ds, n) ← trigger_if (has real READ) READ (c, [], 0);
  '(c, ds, n) ← trigger_if (has real WRITE) WRITE (c, ds, n);
  Ok (ds, put p c n s, k).

(** The loop over the events of one [epoll_wait]. *)
Fixpoint process_events (evs : list (nat * Z)) (s : ioman) (k : K)
    : outcome (list dispatch * ioman * K) :=
  match evs with
  | [] => Ok ([], s, k)
  | (p, mask) :: evs =>
      '(ds, s, k) ← process_event p mask s k;
      '(ds', s, k) ← process_events evs s k;
      Ok (ds ++ ds', s, k)
  end.
End epoll.

(** ** Stopping and waiting *)

(** [IOManager::stopping(timeout)]: over the timers, the scheduler and the
    table. *)
Definition stopping (now : Z) (tm : Timer.manager) (sch : sched) (io : ioman)
    : bool * Z * Timer.manager :=
  let '(timeout, tm) := getNextTimer now tm in
  ((timeout =? 2 ^ 64 - 1) && (m_pendingEventCount io =? 0) && Scheduler.stopping sch, timeout, tm).

Definition MAX_TIMEOUT : Z := 3000.

(** The wait [idle] computes, and the one it passes to [epoll_wait]. *)
Definition next_timeout_clamped (next_timeout : Z) : Z :=
  if next_timeout =? 2 ^ 64 - 1 then MAX_TIMEOUT
  else if MAX_TIMEOUT <? i32 next_timeout then MAX_TIMEOUT else next_timeout.
Definition epoll_wait_timeout (next_timeout : Z) : Z := MAX_TIMEOUT.

(** [IOManager::tickle]: whether a byte is written to the pipe. *)
Definition tickle (sch : sched) : bool := hasIdleThreads sch.

(** The table after the constructor. *)
Definition mkIOManager : ioman := ContextResize 32 (IO [] [] 0).
