(* ===== verification/IOManagerTheorems.v ===== *)
(** * What the epoll loop's table guarantees

    The invariant of the registration table under every interleaving of its
    operations, what each registration is turned into, and where concurrent
    use breaks it. *)

From stdpp Require Import base list gmap.
From Stdlib Require Import ZArith Lia.
From S2P Require Import Prelude Timer TimerTheorems Fiber Scheduler SchedulerTheorems IOManager.

Local Open Scope Z_scope.

(** ** The invariant *)

Definition is_event (ev : Z) : Prop := ev = READ \/ ev = WRITE.

(** A context that waits for an event has a scheduler and either a callback
    or a fiber; one that does not is empty. *)
Definition registered (e : EventContext) : Prop :=
  e_scheduler e <> None
  /\ (e_cb e <> None /\ e_fiber e = None \/ e_cb e = None /\ e_fiber e <> None).

Definition slot_ok (b : bool) (e : EventContext) : Prop :=
  if b then registered e else e = no_context.

Record ctx_ok (c : FdContext) : Prop := {
  ck_events : c_events c = 0 \/ c_events c = 1 \/ c_events c = 4 \/ c_events c = 5;
  ck_read : slot_ok (has (c_events c) READ) (c_read c);
  ck_write : slot_ok (has (c_events c) WRITE) (c_write c);
}.

Definition b2z (b : bool) : Z := if b then 1 else 0.

(** The number of events a context waits for. *)
Definition regs (c : FdContext) : Z :=
  b2z (has (c_events c) READ) + b2z (has (c_events c) WRITE).

Definition total_regs (l : list FdContext) : Z := foldr (fun c n => regs c + n) 0 l.

Record io_ok (s : ioman) : Prop := {
  io_ctx : Forall ctx_ok (contexts s);
  io_pending : m_pendingEventCount s = total_regs (contexts s);
  io_table : forall i p, m_fdContexts s !! i = Some p ->
    exists c, contexts s !! p = Some c /\ c_fd c = Z.of_nat i;
}.

Lemma total_regs_app l1 l2 : total_regs (l1 ++ l2) = total_regs l1 + total_regs l2.
Proof. induction l1 as [|c l1 IH]; simpl; [done|]. rewrite IH. lia. Qed.

Lemma total_regs_insert l p c c' :
  l !! p = Some c -> total_regs (<[p := c']> l) = total_regs l - regs c + regs c'.
Proof.
  revert p. induction l as [|x l IH]; intros [|p] H; simpl in *; [done..| |].
  - injection H as ->. lia.
  - rewrite IH by done. lia.
Qed.

Lemma ctx_ok_at p c s : io_ok s -> contexts s !! p = Some c -> ctx_ok c.
Proof. intros [H _ _] Hp. by eapply Forall_lookup_1 in H. Qed.

Lemma io_ok_put p c c' n s :
  io_ok s -> contexts s !! p = Some c -> ctx_ok c' -> c_fd c' = c_fd c ->
  n = regs c' - regs c -> io_ok (put p c' n s).
Proof.
  intros [Hc Hp Ht] Hl Hc' Hfd ->. constructor; simpl.
  - by apply Forall_insert.
  - rewrite (total_regs_insert _ _ c) by done. lia.
  - intros i q Hq. destruct (Ht i q Hq) as (x & Hx & Hxf).
    assert (p < length (contexts s))%nat by (by eapply lookup_lt_Some).
    destruct (decide (q = p)) as [->|Hne].
    + exists c'. rewrite list_lookup_insert_eq by done. split; [done|]. congruence.
    + exists x. by rewrite list_lookup_insert_ne.
Qed.

Lemma io_ok_resize n s : io_ok s -> io_ok (ContextResize n s).
Proof.
  intros [Hc Hp Ht]. set (fresh := map new_context (seq (length (m_fdContexts s)) (n - length (m_fdContexts s)))).
  assert (Forall (fun c => ctx_ok c /\ regs c = 0) fresh) as Hf.
  { apply Forall_fmap, Forall_forall. intros i _. by repeat constructor. }
  constructor; simpl.
  - apply Forall_app. split; [done|]. eapply Forall_impl; [exact Hf|]. by intros c [? _].
  - rewrite total_regs_app, Hp. assert (total_regs fresh = 0) as E; [|fold fresh; lia].
    clear -Hf. induction Hf as [|c l [_ H] _ IH]; simpl; lia.
  - intros i p Hi. apply lookup_app_Some in Hi as [Hi|[Hge Hi]].
    + apply lookup_take_Some in Hi as [Hi _]. destruct (Ht i p Hi) as (c & Hl & ?).
      exists c. split; [|done]. by apply lookup_app_l_Some.
    + rewrite length_take in *. apply lookup_seq in Hi as [-> Hlt].
      set (j := (i - n `min` length (m_fdContexts s))%nat) in *.
      exists (new_context (length (m_fdContexts s) + j)). split; [|simpl; lia].
      rewrite lookup_app_r by lia. replace (length (contexts s) + j - length (contexts s))%nat with j by lia.
      rewrite list_lookup_fmap, lookup_seq_lt by lia. done.
Qed.

Lemma io_ok_init : io_ok mkIOManager.
Proof. apply io_ok_resize. constructor; simpl; [constructor|done|by intros ? ?]. Qed.

(** ** Operations on a context *)

(** The task a registered context stands for. *)
Definition task_of (e : EventContext) : list dispatch :=
  match e_scheduler e, e_cb e, e_fiber e with
  | Some sch, Some cb, _ => [(sch, FT None (Some cb) (-1))]
  | Some sch, None, Some f => [(sch, FT (Some f) None (-1))]
  | _, _, _ => []
  end.

Definition slot (ev : Z) (c : FdContext) : EventContext :=
  if ev =? READ then c_read c else c_write c.

Lemma getcontext_slot ev c : is_event ev -> getcontext ev c = Ok (slot ev c).
Proof. by intros [-> | ->]. Qed.

Ltac ctx_cases Hok :=
  let E := fresh "E" in let Hr := fresh "Hr" in let Hw := fresh "Hw" in
  destruct Hok as [E Hr Hw]; destruct E as [E|[E|[E|E]]]; rewrite E in *; simpl in Hr, Hw.

(** Taking an event out of a context: the slot empties, the other stays. *)
Definition cleared (ev : Z) (c : FdContext) : FdContext :=
  set_context ev no_context (set_events (without (c_events c) ev) c).

Lemma cleared_ok ev c :
  ctx_ok c -> is_event ev -> has (c_events c) ev = true ->
  ctx_ok (cleared ev c) /\ regs (cleared ev c) = regs c - 1 /\ c_fd (cleared ev c) = c_fd c
  /\ c_events (cleared ev c) = without (c_events c) ev.
Proof.
  intros Hok [-> | ->] Hh; unfold cleared, regs; ctx_cases Hok; try discriminate Hh;
    simpl; (split; [|done]); (constructor; simpl; [tauto|done|done]).
Qed.

Lemma trigger_spec ev c :
  ctx_ok c -> is_event ev -> has (c_events c) ev = true ->
  triggerEvent ev c = Ok (cleared ev c, task_of (slot ev c)).
Proof.
  intros Hok Hev Hh. unfold triggerEvent. rewrite Hh. cbn [assert mbind outcome_bind].
  rewrite getcontext_slot by done. cbn [mbind outcome_bind].
  assert (registered (slot ev (set_events (without (c_events c) ev) c))) as [Hs Hr].
  { destruct Hok as [_ Hr Hw]. destruct Hev as [-> | ->]; rewrite Hh in *; done. }
  assert (slot ev (set_events (without (c_events c) ev) c) = slot ev c) as Eslot
    by (unfold slot; by destruct (ev =? READ)).
  rewrite Eslot in *. unfold task_of. destruct (e_scheduler (slot ev c)) as [sch|]; [|done].
  simpl. destruct Hr as [[Hcb Hf]|[Hcb Hf]].
  - destruct (e_cb (slot ev c)); [|done]. by rewrite Hf.
  - rewrite Hcb. by destruct (e_fiber (slot ev c)).
Qed.

Lemma task_of_one e : registered e -> exists d, task_of e = [d].
Proof.
  intros [Hs Hr]. unfold task_of. destruct (e_scheduler e); [|done].
  destruct Hr as [[? ?]|[-> ?]]; [destruct (e_cb e); [eauto|done]|destruct (e_fiber e); [eauto|done]].
Qed.

Section ops.
Context {K : Type} (epoll_ctl : epoll_op -> Z -> Z -> K -> bool * K).

(** [addEvent] on an event that is not registered. *)
Lemma addEvent_spec p fd ev cb sch cur c s k :
  io_ok s -> contexts s !! p = Some c -> is_event ev -> has (c_events c) ev = false ->
  (cb <> None \/ cur.2 = EXEC) ->
  let e := match cb with Some x => EC (Some sch) None (Some x) | None => EC (Some sch) (Some cur.1) None end in
  exists k', (addEvent_locked epoll_ctl p fd ev cb (Some sch) cur s k = Ok (-1, s, k')
     \/ exists s', addEvent_locked epoll_ctl p fd ev cb (Some sch) cur s k = Ok (0, s', k')
          /\ io_ok s'
          /\ contexts s' = <[p := set_context ev e (set_events (Z.lor (c_events c) ev) c)]> (contexts s)
          /\ m_fdContexts s' = m_fdContexts s).
Proof.
  intros Hok Hp Hev Hh Hcur e. unfold addEvent_locked, context_at. rewrite Hp.
  cbn [deref mbind outcome_bind]. rewrite Hh. cbn [negb assert mbind outcome_bind].
  destruct (epoll_ctl _ _ _ k) as [[|] k']; exists k'; [right|by left]. cbn [negb].
  rewrite getcontext_slot by done. cbn [mbind outcome_bind].
  pose proof (ctx_ok_at p c s Hok Hp) as Hc.
  assert (slot ev (set_events (Z.lor (c_events c) ev) c) = no_context) as Hempty.
  { destruct Hc as [_ Hr Hw].
    destruct Hev as [-> | ->]; [rewrite Hh in Hr; exact Hr|rewrite Hh in Hw; exact Hw]. }
  rewrite Hempty. change (assert (bool_decide (e_scheduler no_context = None)
    && bool_decide (e_fiber no_context = None) && bool_decide (e_cb no_context = None))) with (Ok tt).
  cbn [mbind outcome_bind].
  exists (put p (set_context ev e (set_events (Z.lor (c_events c) ev) c)) 1 s).
  split.
  { subst e. destruct cb as [x|]; [done|]. destruct Hcur as [?|Hx]; [done|].
    rewrite Hx. done. }
  split; [|done].
  assert (registered e) as He by (subst e; unfold registered; destruct cb; simpl; naive_solver).
  eapply io_ok_put; [done..| | |].
  - destruct Hev as [-> | ->]; ctx_cases Hc; try discriminate Hh;
      (constructor; simpl; [tauto|done|done]).
  - by destruct Hev as [-> | ->].
  - destruct Hev as [-> | ->]; unfold regs; ctx_cases Hc; try discriminate Hh; reflexivity.
Qed.

Lemma unregister_spec p fd ev c s k :
  contexts s !! p = Some c ->
  exists o k', unregister epoll_ctl p fd ev s k = Ok (o, k')
    /\ (o = None \/ o = Some c /\ has (c_events c) ev = true)
    /\ (has (c_events c) ev = false -> o = None /\ k' = k).
Proof.
  intros Hp. unfold unregister, context_at. rewrite Hp. cbn [deref mbind outcome_bind].
  destruct (has (c_events c) ev) eqn:Hh; cbn [negb].
  - destruct (epoll_ctl _ _ _ k) as [[|] k']; eexists _, _; (split; [done|]); naive_solver.
  - eexists _, _. split; [done|]. naive_solver.
Qed.

Lemma delEvent_spec p fd ev c s k :
  io_ok s -> contexts s !! p = Some c -> is_event ev ->
  exists b s' k', delEvent_locked epoll_ctl p fd ev s k = Ok (b, s', k') /\ io_ok s'
    /\ m_fdContexts s' = m_fdContexts s
    /\ (b = false -> s' = s)
    /\ (b = true -> has (c_events c) ev = true /\ contexts s' = <[p := cleared ev c]> (contexts s)).
Proof.
  intros Hok Hp Hev. unfold delEvent_locked.
  destruct (unregister_spec p fd ev c s k Hp) as (o & k' & -> & Ho & _). cbn [mbind outcome_bind].
  destruct Ho as [->|[-> Hh]]; [by exists false, s, k'|].
  rewrite getcontext_slot by done. cbn [mbind outcome_bind].
  exists true, (put p (cleared ev c) (-1) s), k'.
  destruct (cleared_ok ev c (ctx_ok_at p c s Hok Hp) Hev Hh) as (H1 & H2 & H3 & _).
  split_and!; try done. eapply io_ok_put; try done. lia.
Qed.

Lemma cancelEvent_spec p fd ev c s k :
  io_ok s -> contexts s !! p = Some c -> is_event ev ->
  exists b ds s' k', cancelEvent_locked epoll_ctl p fd ev s k = Ok (b, ds, s', k') /\ io_ok s'
    /\ m_fdContexts s' = m_fdContexts s
    /\ (b = false -> s' = s /\ ds = [])
    /\ (b = true -> has (c_events c) ev = true /\ ds = task_of (slot ev c)
          /\ contexts s' = <[p := cleared ev c]> (contexts s)).
Proof.
  intros Hok Hp Hev. unfold cancelEvent_locked.
  destruct (unregister_spec p fd ev c s k Hp) as (o & k' & -> & Ho & _). cbn [mbind outcome_bind].
  destruct Ho as [->|[-> Hh]]; [by exists false, [], s, k'|].
  pose proof (ctx_ok_at p c s Hok Hp) as Hc. rewrite trigger_spec by done.
  cbn [mbind outcome_bind]. exists true, (task_of (slot ev c)), (put p (cleared ev c) (-1) s), k'.
  destruct (cleared_ok ev c Hc Hev Hh) as (H1 & H2 & H3 & _).
  split_and!; try done. eapply io_ok_put; try done. lia.
Qed.

(** Triggering by a mask of registered events. *)
Definition fire (b : bool) (ev : Z) (c : FdContext) : FdContext := if b then cleared ev c else c.
Definition fired_tasks (b : bool) (ev : Z) (c : FdContext) : list dispatch :=
  if b then task_of (slot ev c) else [].

Lemma trigger_if_spec b ev c ds n :
  ctx_ok c -> is_event ev -> (b = true -> has (c_events c) ev = true) ->
  trigger_if b ev (c, ds, n) = Ok (fire b ev c, ds ++ fired_tasks b ev c, n - b2z b)
  /\ ctx_ok (fire b ev c) /\ regs (fire b ev c) = regs c - b2z b /\ c_fd (fire b ev c) = c_fd c.
Proof.
  intros Hok Hev Hb. destruct b; simpl; [|by rewrite app_nil_r, Z.sub_0_r, ?Z.sub_0_r].
  rewrite trigger_spec by auto. destruct (cleared_ok ev c Hok Hev (Hb eq_refl)) as (? & ? & ? & _).
  done.
Qed.

Lemma fire_READ_keeps b c :
  has (c_events (fire b READ c)) WRITE = has (c_events c) WRITE
  /\ slot WRITE (fire b READ c) = slot WRITE c.
Proof.
  destruct b; [|done]. split; [|done]. unfold fire, cleared. simpl. unfold has, without.
  rewrite <- Z.land_assoc. done.
Qed.

(** Both events by masks that name registered ones only. *)
Lemma trigger_both br bw c :
  ctx_ok c -> (br = true -> has (c_events c) READ = true) ->
  (bw = true -> has (c_events c) WRITE = true) ->
  exists c', ('(c, ds, n) ← trigger_if br READ (c, [], 0); trigger_if bw WRITE (c, ds, n)) =
      Ok (c', fired_tasks br READ c ++ fired_tasks bw WRITE c, - b2z br - b2z bw)
    /\ ctx_ok c' /\ regs c' = regs c - b2z br - b2z bw /\ c_fd c' = c_fd c
    /\ c' = fire bw WRITE (fire br READ c).
Proof.
  intros Hok Hr Hw.
  destruct (trigger_if_spec br READ c [] 0 Hok ltac:(by left) Hr) as (-> & Hok1 & Hn1 & Hf1).
  cbn [mbind outcome_bind]. destruct (fire_READ_keeps br c) as [Eh Es].
  destruct (trigger_if_spec bw WRITE (fire br READ c) ([] ++ fired_tasks br READ c) (0 - b2z br))
    as (-> & Hok2 & Hn2 & Hf2); [done|by right|by rewrite Eh|].
  exists (fire bw WRITE (fire br READ c)). split_and!; try done; [|lia|congruence].
  do 3 f_equal. unfold fired_tasks. by rewrite Es.
Qed.
End ops.

Section ops2.
Context {K : Type} (epoll_ctl : epoll_op -> Z -> Z -> K -> bool * K).

(** The tasks of all events a context waits for. *)
Definition all_tasks (c : FdContext) : list dispatch :=
  fired_tasks (has (c_events c) READ) READ c ++ fired_tasks (has (c_events c) WRITE) WRITE c.

Lemma bind_pair3 {A B C D} (m : outcome (A * B * C)) (f : A * B * C -> outcome D) :
  ('(a, b, c) ← m; f (a, b, c)) = (m ≫= f).
Proof. by destruct m as [[[a b] c]|]. Qed.

Lemma cancelAll_spec p fd c s k :
  io_ok s -> contexts s !! p = Some c ->
  exists s' k', cancelAll_locked epoll_ctl p fd s k =
      Ok (negb (c_events c =? 0), all_tasks c, s', k') /\ io_ok s'
    /\ m_fdContexts s' = m_fdContexts s
    /\ (exists c', contexts s' !! p = Some c' /\ c_events c' = 0)
    /\ contexts s' = <[p := fire (has (c_events c) WRITE) WRITE (fire (has (c_events c) READ) READ c)]> (contexts s).
Proof.
  intros Hok Hp. pose proof (ctx_ok_at p c s Hok Hp) as Hc.
  assert (p < length (contexts s))%nat as Hlt by (by eapply lookup_lt_Some).
  unfold cancelAll_locked, context_at. rewrite Hp. cbn [deref mbind outcome_bind].
  destruct (Z.eqb_spec (c_events c) 0) as [E|E].
  { exists s, k. unfold all_tasks. rewrite E. simpl. split_and!; try done; [eauto|by rewrite list_insert_id]. }
  destruct (epoll_ctl _ _ _ k) as [ok k'].
  destruct (trigger_both (has (c_events c) READ) (has (c_events c) WRITE) c)
    as (c' & Hb & Hok' & Hn & Hf & Hc'); [done..|].
  destruct (trigger_if_spec (has (c_events c) READ) READ c [] 0 Hc ltac:(by left) ltac:(done))
    as (E1 & _). rewrite E1 in *. cbn [mbind outcome_bind] in *.
  destruct (fire_READ_keeps (has (c_events c) READ) c) as [Eh _]. rewrite Eh, Hb.
  cbn [mbind outcome_bind].
  assert (c_events c' = 0) as E0.
  { rewrite Hc'. destruct (ck_events c Hc) as [Ev|[Ev|[Ev|Ev]]]; [done| | |];
      rewrite !Ev; unfold fire, cleared; simpl; by rewrite Ev. }
  rewrite E0. simpl. eexists _, _. split; [done|]. split_and!; try done.
  - eapply io_ok_put; try done. lia.
  - exists c'. simpl. by rewrite list_lookup_insert_eq.
  - simpl. by rewrite Hc'.
Qed.

Lemma process_event_spec p mask c s k :
  io_ok s -> contexts s !! p = Some c ->
  let real := real_events_of c mask in
  (has real READ = true -> has (c_events c) READ = true) ->
  (has real WRITE = true -> has (c_events c) WRITE = true) ->
  exists ds s' k', process_event epoll_ctl p mask s k = Ok (ds, s', k') /\ io_ok s'
    /\ m_fdContexts s' = m_fdContexts s
    /\ ((ds = [] /\ s' = s) /\ (Z.land (c_events c) real = 0
           \/ exists op fd ev, (epoll_ctl op fd ev k).1 = false)
        \/ ds = fired_tasks (has real READ) READ c ++ fired_tasks (has real WRITE) WRITE c
           /\ contexts s' = <[p := fire (has real WRITE) WRITE (fire (has real READ) READ c)]> (contexts s)).
Proof.
  intros Hok Hp real Hr Hw. pose proof (ctx_ok_at p c s Hok Hp) as Hc.
  unfold process_event, context_at. rewrite Hp. cbn [deref mbind outcome_bind]. fold real.
  destruct (Z.eqb_spec (Z.land (c_events c) real) 0) as [E0|].
  { exists [], s, k. split_and!; try done. left. split; [done|by left]. }
  destruct (epoll_ctl _ _ _ k) as [[|] k'] eqn:Ek; cbn [negb].
  2: { exists [], s, k'. split_and!; try done. left. split; [done|]. right.
       eexists _, _, _. by rewrite Ek. }
  destruct (trigger_both (has real READ) (has real WRITE) c Hc Hr Hw) as (c' & Hb & Hok' & Hn & Hf & Hc').
  destruct (trigger_if_spec (has real READ) READ c [] 0 Hc ltac:(by left) Hr) as (E1 & _).
  rewrite E1 in *. cbn [mbind outcome_bind] in *. rewrite Hb. cbn [mbind outcome_bind].
  eexists _, _, _. split; [done|]. split_and!; try done.
  - eapply io_ok_put; try done. lia.
  - right. by rewrite Hc'.
Qed.
End ops2.

(** ** Interleavings *)

(** One locked section.  A context is reached by a pointer obtained earlier;
    registrations are for [READ] or [WRITE] and come from a scheduler's
    thread; [epoll_wait] may report a context any number of times. *)
Inductive io_step {K} (epoll_ctl : epoll_op -> Z -> Z -> K -> bool * K) : ioman -> ioman -> Prop :=
  | st_resize n s : io_step epoll_ctl s (ContextResize n s)
  | st_add p fd ev cb sch cur s k r s' k' : is_event ev ->
      addEvent_locked epoll_ctl p fd ev cb (Some sch) cur s k = Ok (r, s', k') ->
      io_step epoll_ctl s s'
  | st_del p fd ev s k r s' k' : is_event ev ->
      delEvent_locked epoll_ctl p fd ev s k = Ok (r, s', k') -> io_step epoll_ctl s s'
  | st_cancel p fd ev s k r s' k' : is_event ev ->
      cancelEvent_locked epoll_ctl p fd ev s k = Ok (r, s', k') -> io_step epoll_ctl s s'
  | st_cancel_all p fd s k r s' k' :
      cancelAll_locked epoll_ctl p fd s k = Ok (r, s', k') -> io_step epoll_ctl s s'
  | st_event p mask s k ds s' k' :
      process_event epoll_ctl p mask s k = Ok (ds, s', k') -> io_step epoll_ctl s s'.

Inductive io_reachable {K} (epoll_ctl : epoll_op -> Z -> Z -> K -> bool * K) : ioman -> Prop :=
  | io_start : io_reachable epoll_ctl mkIOManager
  | io_next s s' : io_reachable epoll_ctl s -> io_step epoll_ctl s s' -> io_reachable epoll_ctl s'.

Lemma context_at_ok {B} p s (k : FdContext -> outcome B) b :
  (c ← context_at p s; k c) = Ok b -> exists c, contexts s !! p = Some c /\ k c = Ok b.
Proof. unfold context_at. destruct (contexts s !! p); simpl; [eauto|done]. Qed.

(** A trigger that returns was for a registered event. *)
Lemma trigger_if_ok b ev c ds n r :
  trigger_if b ev (c, ds, n) = Ok r -> b = true -> has (c_events c) ev = true.
Proof.
  intros H ->. cbn [trigger_if] in H. apply bind_ok in H as ([c' ds'] & H & _).
  unfold triggerEvent in H. apply bind_ok in H as ([] & H & _). by apply assert_ok in H.
Qed.

Lemma io_step_ok {K} epoll_ctl s s' : io_ok s -> io_step (K:=K) epoll_ctl s s' -> io_ok s'.
Proof.
  intros Hok Hst. destruct Hst as
    [n s|p fd ev cb sch cur s k r s' k' Hev H|p fd ev s k r s' k' Hev H
    |p fd ev s k r s' k' Hev H|p fd s k r s' k' H|p mask s k ds s' k' H].
  - by apply io_ok_resize.
  - pose proof H as H'. apply context_at_ok in H' as (c & Hp & H').
    apply bind_ok in H' as ([] & Ha & H'). apply assert_ok, negb_true_iff in Ha.
    destruct (decide (cb <> None \/ cur.2 = EXEC)) as [Hcur|Hcur].
    + destruct (addEvent_spec epoll_ctl p fd ev cb sch cur c s k) as (k2 & [E|(s2 & E & ? & _)]); try done;
        rewrite E in H; by simplify_eq.
    + assert (cb = None) as -> by (destruct cb; naive_solver).
      cbv zeta in H'. destruct (epoll_ctl _ _ _ k) as [[|] k2]; cbn [negb] in H'; [|by simplify_eq].
      apply bind_ok in H' as (e & _ & H'). apply bind_ok in H' as ([] & _ & H').
      rewrite bool_decide_eq_false_2 in H' by naive_solver. done.
  - pose proof H as H'. unfold delEvent_locked in H'. apply bind_ok in H' as ([o k1] & H' & _).
    apply context_at_ok in H' as (c & Hp & _).
    destruct (delEvent_spec epoll_ctl p fd ev c s k) as (b & s2 & k2 & E & ? & _); try done.
    rewrite E in H. by simplify_eq.
  - pose proof H as H'. unfold cancelEvent_locked in H'. apply bind_ok in H' as ([o k1] & H' & _).
    apply context_at_ok in H' as (c & Hp & _).
    destruct (cancelEvent_spec epoll_ctl p fd ev c s k) as (b & ds & s2 & k2 & E & ? & _); try done.
    rewrite E in H. by simplify_eq.
  - pose proof H as H'. apply context_at_ok in H' as (c & Hp & _).
    destruct (cancelAll_spec epoll_ctl p fd c s k) as (s2 & k2 & E & ? & _); try done.
    rewrite E in H. by simplify_eq.
  - pose proof H as H'. apply context_at_ok in H' as (c & Hp & H').
    cbv zeta in H'. set (real := real_events_of c mask) in *.
    destruct (Z.land (c_events c) real =? 0); [by simplify_eq|].
    destruct (epoll_ctl _ _ _ k) as [[|] k2] eqn:Ek; cbn [negb] in H'; [|by simplify_eq].
    apply bind_ok in H' as ([[c1 ds1] n1] & H1 & H'). apply bind_ok in H' as ([[c2 ds2] n2] & H2 & _).
    pose proof (trigger_if_ok _ _ _ _ _ _ H1) as Hr. pose proof (trigger_if_ok _ _ _ _ _ _ H2) as Hw.
    pose proof (ctx_ok_at p c s Hok Hp) as Hc.
    destruct (trigger_if_spec (has real READ) READ c [] 0 Hc ltac:(by left) Hr) as (E1 & _).
    rewrite E1 in H1. injection H1 as <- _ _. destruct (fire_READ_keeps (has real READ) c) as [Eh _].
    rewrite Eh in Hw.
    destruct (process_event_spec epoll_ctl p mask c s k Hok Hp Hr Hw) as (ds3 & s3 & k3 & E & ? & _).
    rewrite E in H. by simplify_eq.
Qed.

Lemma io_reachable_ok {K} epoll_ctl s : io_reachable (K:=K) epoll_ctl s -> io_ok s.
Proof. induction 1; [apply io_ok_init|by eapply io_step_ok]. Qed.

(** ** Properties *)

(** An [epoll_ctl] that always succeeds. *)
Definition epoll_yes : epoll_op -> Z -> Z -> unit -> bool * unit := fun _ _ _ k => (true, k).

Definition demo_add : ioman :=
  match addEvent epoll_yes 5 READ (Some 9%nat) (Some 1%nat) (3%nat, EXEC) mkIOManager tt with
  | Ok (_, s, _) => s
  | Err _ => mkIOManager
  end.

Lemma demo_add_reachable : io_reachable epoll_yes demo_add.
Proof.
  eapply io_next; [apply io_start|].
  refine (st_add epoll_yes 5 5 READ (Some 9%nat) 1 (3%nat, EXEC) mkIOManager tt 0 demo_add tt
            (or_introl eq_refl) _).
  vm_compute. reflexivity.
Qed.

(** C30: In every interleaving of registrations, removals, cancellations,
    table growth and epoll reports, whatever [epoll_ctl] answers,
    [m_pendingEventCount] is the number of events registered over all
    contexts; a context's slot holds a scheduler and exactly one of a callback
    and a fiber when its event is registered, and nothing otherwise; and the
    table's entry for a descriptor is a context for that descriptor. *)
Theorem io_invariant {K} epoll_ctl s :
  io_reachable (K:=K) epoll_ctl s ->
  m_pendingEventCount s = total_regs (contexts s)
  /\ (forall p c, contexts s !! p = Some c ->
        slot_ok (has (c_events c) READ) (c_read c) /\ slot_ok (has (c_events c) WRITE) (c_write c))
  /\ (forall fd p, m_fdContexts s !! fd = Some p ->
        exists c, contexts s !! p = Some c /\ c_fd c = Z.of_nat fd).
Proof.
  intros Hr. pose proof (io_reachable_ok epoll_ctl s Hr) as Hok. split_and!.
  - apply Hok.
  - intros p c Hp. by destruct (ctx_ok_at p c s Hok Hp).
  - apply Hok.
Qed.

Lemma io_invariant_witness : m_pendingEventCount demo_add = total_regs (contexts demo_add).
Proof.
  refine (proj1 (io_invariant epoll_yes demo_add _)).
  apply demo_add_reachable.
Defined.

(** Firing read then write, by slot: a fired slot is emptied, another kept. *)
Ltac fire_cases Hc :=
  ctx_cases Hc; unfold fire, cleared, set_context, set_events, slot; simpl;
  repeat match goal with E : c_events _ = _ |- _ => rewrite E; clear E end; done.

Lemma fire_both_on_READ bw c :
  ctx_ok c -> let c' := fire bw WRITE (fire true READ c) in
  has (c_events c') READ = false /\ slot READ c' = no_context.
Proof. intros Hc. destruct bw; fire_cases Hc. Qed.

Lemma fire_both_on_WRITE br c :
  ctx_ok c -> let c' := fire true WRITE (fire br READ c) in
  has (c_events c') WRITE = false /\ slot WRITE c' = no_context.
Proof. intros Hc. destruct br; fire_cases Hc. Qed.

Lemma fire_both_off_READ bw c :
  ctx_ok c -> let c' := fire bw WRITE (fire false READ c) in
  has (c_events c') READ = has (c_events c) READ /\ slot READ c' = slot READ c.
Proof. intros Hc. destruct bw; fire_cases Hc. Qed.

Lemma fire_both_off_WRITE br c :
  ctx_ok c -> let c' := fire false WRITE (fire br READ c) in
  has (c_events c') WRITE = has (c_events c) WRITE /\ slot WRITE c' = slot WRITE c.
Proof. intros Hc. destruct br; fire_cases Hc. Qed.

(** Exactly once: when the epoll loop handles a report whose events are
    all registered, it hands the task of each, once and to the scheduler it was
    registered from, and empties exactly those slots; or, when [epoll_ctl]
    fails or none is registered, it does nothing. *)
Theorem process_event_exactly_once {K} epoll_ctl p mask c s k :
  io_reachable (K:=K) epoll_ctl s -> contexts s !! p = Some c ->
  let br := has (real_events_of c mask) READ in
  let bw := has (real_events_of c mask) WRITE in
  (br = true -> has (c_events c) READ = true) ->
  (bw = true -> has (c_events c) WRITE = true) ->
  exists ds s' k', process_event epoll_ctl p mask s k = Ok (ds, s', k') /\ io_ok s'
    /\ (ds = [] /\ s' = s
        \/ exists c', ds = fired_tasks br READ c ++ fired_tasks bw WRITE c
           /\ length ds = (Z.to_nat (b2z br) + Z.to_nat (b2z bw))%nat
           /\ contexts s' = <[p := c']> (contexts s)
           /\ (br = true -> has (c_events c') READ = false /\ slot READ c' = no_context)
           /\ (bw = true -> has (c_events c') WRITE = false /\ slot WRITE c' = no_context)
           /\ (br = false -> has (c_events c') READ = has (c_events c) READ /\ slot READ c' = slot READ c)
           /\ (bw = false -> has (c_events c') WRITE = has (c_events c) WRITE
                             /\ slot WRITE c' = slot WRITE c)).
Proof.
  intros Hr Hp br bw Hbr Hbw. pose proof (io_reachable_ok epoll_ctl s Hr) as Hok.
  pose proof (ctx_ok_at p c s Hok Hp) as Hc.
  destruct (process_event_spec epoll_ctl p mask c s k Hok Hp Hbr Hbw)
    as (ds & s' & k' & E & Hok' & _ & Hcase). fold br bw in Hcase.
  exists ds, s', k'. split_and!; [done..|]. destruct Hcase as [[? _]|[-> Hcs]]; [by left|right].
  exists (fire bw WRITE (fire br READ c)). clearbody br bw.
  assert (forall b ev, is_event ev -> (b = true -> has (c_events c) ev = true) ->
    length (fired_tasks b ev c) = Z.to_nat (b2z b)) as Hlen.
  { intros b ev Hev Hb. destruct b; [|done]. simpl.
    assert (registered (slot ev c)) as Hreg
      by (destruct Hc as [_ Hrd Hwr]; destruct Hev as [-> | ->];
          [rewrite Hb in Hrd by done; exact Hrd|rewrite Hb in Hwr by done; exact Hwr]).
    by destruct (task_of_one _ Hreg) as [d ->]. }
  split_and!; [done| |done|..].
  - rewrite length_app, (Hlen br READ) by (done || by left).
    by rewrite (Hlen bw WRITE) by (done || by right).
  - intros ->. by apply fire_both_on_READ.
  - intros ->. by apply fire_both_on_WRITE.
  - intros ->. by apply fire_both_off_READ.
  - intros ->. by apply fire_both_off_WRITE.
Qed.

Lemma process_event_exactly_once_witness :
  exists ds s' k', process_event epoll_yes 5 EPOLLIN demo_add tt = Ok (ds, s', k') /\ io_ok s'.
Proof.
  destruct (process_event_exactly_once epoll_yes 5 EPOLLIN
    (FC (EC (Some 1%nat) None (Some 9%nat)) no_context 5 READ) demo_add tt)
    as (ds & s' & k' & H & Hok & _).
  - apply demo_add_reachable.
  - reflexivity.
  - reflexivity.
  - discriminate.
  - exists ds, s', k'. split; [exact H|exact Hok].
Defined.

(** [cancelAll] hands out the tasks of all events a descriptor waits for
    and leaves none registered, also when [epoll_ctl] fails; [cancelEvent]
    hands out exactly the task of its event, [delEvent] none; when they return
    false nothing has changed. *)
Theorem cancel_semantics {K} epoll_ctl p fd ev c s k :
  io_reachable (K:=K) epoll_ctl s -> contexts s !! p = Some c -> is_event ev ->
  (exists s' k', cancelAll_locked epoll_ctl p fd s k =
      Ok (negb (c_events c =? 0), all_tasks c, s', k')
    /\ exists c', contexts s' !! p = Some c' /\ c_events c' = 0)
  /\ (exists b ds s' k', cancelEvent_locked epoll_ctl p fd ev s k = Ok (b, ds, s', k')
    /\ (b = false -> s' = s /\ ds = [])
    /\ (b = true -> has (c_events c) ev = true /\ ds = task_of (slot ev c)
          /\ contexts s' = <[p := cleared ev c]> (contexts s)))
  /\ (exists b s' k', delEvent_locked epoll_ctl p fd ev s k = Ok (b, s', k')
    /\ (b = false -> s' = s)
    /\ (b = true -> has (c_events c) ev = true
          /\ contexts s' = <[p := cleared ev c]> (contexts s))).
Proof.
  intros Hr Hp Hev. pose proof (io_reachable_ok epoll_ctl s Hr) as Hok. split_and!.
  - destruct (cancelAll_spec epoll_ctl p fd c s k Hok Hp) as (s' & k' & H & _ & _ & ? & _). eauto.
  - destruct (cancelEvent_spec epoll_ctl p fd ev c s k Hok Hp Hev)
      as (b & ds & s' & k' & H & _ & _ & ? & ?). exists b, ds, s', k'. done.
  - destruct (delEvent_spec epoll_ctl p fd ev c s k Hok Hp Hev)
      as (b & s' & k' & H & _ & _ & ? & ?). exists b, s', k'. done.
Qed.

Lemma cancel_semantics_witness :
  exists s' k', cancelAll_locked epoll_yes 5 5 demo_add tt =
    Ok (true, [(1%nat, FT None (Some 9%nat) (-1))], s', k').
Proof.
  destruct (cancel_semantics epoll_yes 5 5 READ
    (FC (EC (Some 1%nat) None (Some 9%nat)) no_context 5 READ) demo_add tt)
    as ((s' & k' & H & _) & _).
  - apply demo_add_reachable.
  - reflexivity.
  - by left.
  - exists s', k'. exact H.
Defined.

(** A report that names an event removed in the meantime aborts the
    process: with both events of a descriptor reported ready, a [delEvent] of
    the write event before the loop takes the context's lock makes
    [triggerEvent(WRITE)] fail its assertion, since the loop triggers all
    reported events and not only the registered ones. *)
Theorem removed_event_aborts :
  match (
    '(_, s, k) ← addEvent epoll_yes 5 READ (Some 9%nat) (Some 1%nat) (3%nat, EXEC) mkIOManager tt;
    '(_, s, k) ← addEvent epoll_yes 5 WRITE (Some 8%nat) (Some 1%nat) (3%nat, EXEC) s k;
    '(_, s, k) ← delEvent epoll_yes 5 WRITE s k;
    Ok (s, k)) with
  | Ok (s, k) => process_event epoll_yes 5 (Z.lor EPOLLIN EPOLLOUT) s k = Err AssertFails
  | Err _ => False
  end.
Proof. vm_compute. reflexivity. Qed.

(** Two threads that both find the table too short can shrink it: after
    one has grown it for descriptor 100 and registered an event there, the
    other's resize for descriptor 40 drops the entry, so the event can no longer
    be cancelled, although it stays pending. *)
Theorem concurrent_resize_loses_context :
  find_read 100 mkIOManager = Ok None /\ find_read 40 mkIOManager = Ok None
  /\ match (
       '(_, s, k) ← addEvent epoll_yes 100 READ (Some 9%nat) (Some 1%nat) (3%nat, EXEC) mkIOManager tt;
       '(_, s) ← find_resize 40 s;
       Ok (s, k)) with
     | Ok (s, k) =>
         m_pendingEventCount s = 1 /\ cancelAll epoll_yes 100 s k = Ok (false, [], s, k)
     | Err _ => False
     end.
Proof. split; [reflexivity|]. split; [reflexivity|]. vm_compute. done. Qed.

(** [IOManager::stopping] is true only when nothing is left to do: no
    timer, no registered event, no queued task and no worker holding one, in
    whatever way the three components got to their states. *)
Theorem io_stopping_quiescent {K} epoll_ctl now tm n sch io :
  0 < now -> TimerTheorems.reachable tm -> Scheduler.reachable n sch ->
  io_reachable (K:=K) epoll_ctl io ->
  (stopping now tm sch io).1.1 = true ->
  m_timers tm = [] /\ total_regs (contexts io) = 0 /\ m_fibers sch = []
  /\ forall t th, threads sch !! t = Some th -> holds (t_pc th) = 0.
Proof.
  intros Hnow Htm Hsch Hio. unfold stopping.
  pose proof (next_timer_none now tm Hnow Htm) as Hnone.
  destruct (getNextTimer now tm) as [timeout tm']. simpl in *. intros H.
  apply andb_true_iff in H as [[H1 H2]%andb_true_iff H3].
  apply Z.eqb_eq in H1, H2. apply (stopping_quiescent n) in H3 as (_ & ? & ?); [|done].
  destruct (io_reachable_ok _ _ Hio) as [_ Hp _]. split_and!; [by apply Hnone|lia|done..].
Qed.

Lemma io_stopping_quiescent_witness :
  total_regs (contexts mkIOManager) = 0.
Proof.
  pose (sch := match exec LStop (started 2) with Ok s => s | Err _ => started 2 end).
  destruct (io_stopping_quiescent epoll_yes 1000 (mkTimerManager 1000) 2 sch mkIOManager)
    as (_ & H & _).
  - lia.
  - apply TimerTheorems.reach_init.
  - eapply (Scheduler.reach_step 2 LStop); [apply Scheduler.reach_start|done|reflexivity].
  - apply io_start.
  - vm_compute. reflexivity.
  - exact H.
Defined.

(** The wait [idle] computes from the next timer is not the one it passes
    to [epoll_wait]: with a timer due in 5 ms it still waits 3 s. *)
Theorem idle_ignores_next_timer :
  (getNextTimer 1000 (addTimer 0 1000 5 None false (mkTimerManager 1000)).2).1 = 5
  /\ next_timeout_clamped 5 = 5 /\ epoll_wait_timeout 5 = 3000.
Proof. by vm_compute. Qed.
