(* ===== verification/IOLoop.v ===== *)
(** * One turn of [IOManager::idle]: [sylar/iomanager.cc]

    The loop body of the idle fiber put together from the timers, the
    scheduler and the registration table: test for stopping, wait, schedule
    the callbacks of the timers that expired meanwhile, handle the events the
    wait returned.  A turn is what one thread does alone between two switches;
    what other threads do in between is the subject of the step relations of
    the components.

    The times at which [stopping] and [listExpiredCb] read the clock, and the
    events [epoll_wait] returned, are arguments. *)

From stdpp Require Import base list gmap.
From Stdlib Require Import ZArith Lia.
From S2P Require Import Prelude Timer TimerTheorems Fiber Scheduler SchedulerTheorems IOManager IOManagerTheorems.

Local Open Scope Z_scope.

Record world := World {
  w_timers : Timer.manager;
  w_sched : sched;
  w_io : ioman;
}.

(** An entry of [events]: from the tickle pipe, or a context and its mask. *)
Inductive ready := Tickled | Ready (p : nat) (mask : Z).

(** The entries that are handled; the loop skips the pipe's. *)
Definition reports (evs : list ready) : list (nat * Z) :=
  omap (fun e => match e with Tickled => None | Ready p mask => Some (p, mask) end) evs.

Section idle.
Context {K : Type} (epoll_ctl : epoll_op -> Z -> Z -> K -> bool * K).
(** The identifier of a timer's function in the scheduler's queue. *)
Context (cb_id : Timer.callback -> nat).

Definition cb_task (cb : option Timer.callback) : task := FT None (cb_id <$> cb) (-1).

(** The tasks handed to scheduler [self] enter its queue. *)
Definition deliver (self : nat) (ds : list dispatch) (s : sched) : sched :=
  foldl (fun s d => if decide (d.1 = self) then (schedule d.2 s).2 else s) s ds.

(** [None] when the idle fiber ends; otherwise the tasks the events handed
    out, to whatever scheduler. *)
Definition idle_turn (self a : nat) (now now2 : Z) (evs : list ready) (w : world) (k : K)
    : outcome (option (list dispatch) * world * K) :=
  let '(stop, _, tm) := stopping now (w_timers w) (w_sched w) (w_io w) in
  if (stop : bool) then Ok (None, World tm (w_sched w) (w_io w), k) else
  '(cbs, tm) ← listExpiredCb a now2 tm;
  let sch := match cbs with
             | [] => w_sched w
             | _ => (schedule_range (map cb_task cbs) (w_sched w)).2
             end in
  '(ds, io, k) ← process_events epoll_ctl (reports evs) (w_io w) k;
  Ok (Some ds, World tm (deliver self ds sch) io, k).

(** ** Facts *)

(** The tasks of a list of callbacks; an empty function is no task. *)
Definition timer_tasks (cbs : list (option Timer.callback)) : list task :=
  omap (fun cb => cb ← cb; Some (FT None (Some (cb_id cb)) (-1))) cbs.

Lemma schedule_range_fibers cbs s :
  m_fibers (schedule_range (map cb_task cbs) s).2 = m_fibers s ++ timer_tasks cbs.
Proof.
  revert s. induction cbs as [|cb cbs IH]; intros s; [by rewrite app_nil_r|].
  cbn [map schedule_range]. destruct (scheduleNoLock _ s) as [n1 s1] eqn:E1.
  specialize (IH s1). destruct (schedule_range _ s1) as [n2 s2]. simpl in *. rewrite IH.
  unfold scheduleNoLock in E1. injection E1 as _ <-.
  destruct cb as [cb|]; simpl; [by rewrite <- app_assoc|done].
Qed.

(** Every task a context stands for has work. *)
Lemma task_of_work e d : d ∈ task_of e -> has_work d.2 = true.
Proof.
  unfold task_of. destruct (e_scheduler e), (e_cb e), (e_fiber e); simpl;
    try (by intros ?%not_elem_of_nil); by intros ->%list_elem_of_singleton.
Qed.

Lemma deliver_fibers self ds s :
  (forall d, d ∈ ds -> has_work d.2 = true) ->
  m_fibers (deliver self ds s) = m_fibers s ++ (filter (fun d => d.1 = self) ds).*2.
Proof.
  unfold deliver. revert s. induction ds as [|d ds IH]; intros s Hd; [by rewrite app_nil_r|]. simpl.
  rewrite IH by (intros; apply Hd; by right).
  assert (has_work d.2 = true) as Hw by (apply Hd; by left).
  rewrite filter_cons. destruct (decide (d.1 = self)); [|done].
  destruct d as [i [f cb t]]. unfold schedule, scheduleNoLock, has_work in *. simpl in *.
  destruct f, cb; try done; simpl; by rewrite <- app_assoc.
Qed.

(** [stopping] only clears the flag of the timer manager. *)
Lemma stopping_timers now tm sch io now2 b :
  timers_wf tm -> (stopping now tm sch io).1.1 = b ->
  let tm1 := (stopping now tm sch io).2 in
  timers_wf tm1 /\ expired_at now2 tm1 = expired_at now2 tm /\ heap tm1 = heap tm.
Proof.
  intros [Hs Hh Hc] _. unfold stopping, getNextTimer. simpl.
  destruct (m_timers tm) eqn:E; simpl; split_and!; try done;
    unfold expired_at, rollover; simpl; by rewrite ?E.
Qed.

(** The tasks a report stands for, by the contexts as they are. *)
Definition reported (cs : list FdContext) (r : nat * Z) : list dispatch :=
  match cs !! r.1 with
  | Some c => fired_tasks (has (real_events_of c r.2) READ) READ c
              ++ fired_tasks (has (real_events_of c r.2) WRITE) WRITE c
  | None => []
  end.

(** A report names registered events only. *)
Definition registered_report (cs : list FdContext) (r : nat * Z) : Prop :=
  exists c, cs !! r.1 = Some c
    /\ (has (real_events_of c r.2) READ = true -> has (c_events c) READ = true)
    /\ (has (real_events_of c r.2) WRITE = true -> has (c_events c) WRITE = true).

Lemma reported_work cs r d : d ∈ reported cs r -> has_work d.2 = true.
Proof.
  unfold reported. destruct (cs !! r.1); [|by intros ?%not_elem_of_nil].
  intros [H|H]%elem_of_app; unfold fired_tasks in H;
    destruct (has _ _); try (by apply not_elem_of_nil in H); by eapply task_of_work.
Qed.

(** Registered events that do not meet the table are none. *)
Lemma no_overlap c mask :
  ctx_ok c -> Z.land (c_events c) (real_events_of c mask) = 0 ->
  (has (real_events_of c mask) READ = true -> has (c_events c) READ = true) ->
  (has (real_events_of c mask) WRITE = true -> has (c_events c) WRITE = true) ->
  has (real_events_of c mask) READ = false /\ has (real_events_of c mask) WRITE = false.
Proof.
  intros Hc. assert (exists b1 b2 : bool, real_events_of c mask =
    Z.lor (if b1 then READ else NONE) (if b2 then WRITE else NONE)) as (b1 & b2 & ->)
    by (eexists _, _; reflexivity).
  destruct b1, b2; ctx_cases Hc; vm_compute; intuition congruence.
Qed.

(** The context of a report once it is handled. *)
Definition handled (c : FdContext) (mask : Z) : FdContext :=
  fire (has (real_events_of c mask) WRITE) WRITE (fire (has (real_events_of c mask) READ) READ c).

Hypothesis healthy : forall op fd ev k, (epoll_ctl op fd ev k).1 = true.

Lemma process_event_healthy p mask c s k :
  io_ok s -> contexts s !! p = Some c -> registered_report (contexts s) (p, mask) ->
  exists s' k', process_event epoll_ctl p mask s k = Ok (reported (contexts s) (p, mask), s', k')
    /\ io_ok s' /\ contexts s' = <[p := handled c mask]> (contexts s).
Proof using healthy.
  intros Hok Hp (c0 & Hc0 & Hr & Hw). simpl in *. rewrite Hp in Hc0. injection Hc0 as <-.
  pose proof (ctx_ok_at p c s Hok Hp) as Hc.
  destruct (process_event_spec epoll_ctl p mask c s k Hok Hp Hr Hw)
    as (ds & s' & k' & -> & Hok' & _ & Hcase).
  unfold reported, handled. simpl. rewrite Hp.
  exists s', k'. destruct Hcase as [[[-> ->] [H0|(op & fd & ev & H0)]]|[-> Hcs]].
  - destruct (no_overlap c mask Hc H0 Hr Hw) as [-> ->]. split_and!; [done|done|].
    simpl. by rewrite list_insert_id.
  - by rewrite healthy in H0.
  - by split_and!.
Qed.

Lemma process_events_spec evs s k :
  io_ok s -> NoDup evs.*1 -> Forall (registered_report (contexts s)) evs ->
  exists s' k', process_events epoll_ctl evs s k =
      Ok (concat (map (reported (contexts s)) evs), s', k')
    /\ io_ok s'
    /\ (forall p mask c, (p, mask) ∈ evs -> contexts s !! p = Some c ->
          contexts s' !! p = Some (handled c mask))
    /\ (forall p, p ∉ evs.*1 -> contexts s' !! p = contexts s !! p).
Proof using healthy.
  revert s k. induction evs as [|[p mask] evs IH]; intros s k Hok Hnd Hev.
  { exists s, k. split_and!; try done. set_solver. }
  simpl in Hnd. apply NoDup_cons in Hnd as [Hp Hnd]. inversion_clear Hev as [|? ? Hr Hrs].
  pose proof Hr as (c & Hc & _). simpl in Hc.
  destruct (process_event_healthy p mask c s k Hok Hc Hr) as (s1 & k1 & E1 & Hok1 & Hcs1).
  assert (forall q, q <> p -> contexts s1 !! q = contexts s !! q) as Hother
    by (intros q Hq; by rewrite Hcs1, list_lookup_insert_ne).
  assert (forall r, r ∈ evs -> contexts s1 !! r.1 = contexts s !! r.1) as Hsame.
  { intros r Hin. apply Hother. intros Heq. apply Hp. rewrite <- Heq.
    apply list_elem_of_fmap. eauto. }
  destruct (IH s1 k1 Hok1 Hnd) as (s' & k' & E & Hok' & Hin & Hout).
  { apply Forall_forall. intros r Hin. rewrite Forall_forall in Hrs.
    destruct (Hrs r Hin) as (c' & ? & ?). exists c'. by rewrite (Hsame r Hin). }
  exists s', k'. cbn [process_events]. rewrite E1. cbn [mbind outcome_bind]. rewrite E.
  cbn [mbind outcome_bind map concat]. split_and!; [|done| |].
  - do 5 f_equal. apply map_ext_in. intros r Hr'%list_elem_of_In. unfold reported. by rewrite (Hsame r Hr').
  - intros q m c' [[= -> ->]|Hq]%elem_of_cons Hl.
    + rewrite Hout, Hcs1, list_lookup_insert_eq by (done || by eapply lookup_lt_Some).
      by simplify_eq.
    + eapply Hin; [done|]. pose proof (Hsame _ Hq) as Hs. simpl in Hs. by rewrite Hs.
  - intros q [Hq Hqs]%not_elem_of_cons. rewrite Hout by done. by apply Hother.
Qed.
End idle.

(** ** Properties *)

(** C31: One turn of [IOManager::idle] loses nothing: if the manager is not
    stopping, [epoll_ctl] succeeds, and epoll reports each context at most once
    and only events that are registered, the scheduler's queue grows by the
    callbacks of exactly the expired timers, in the order of their times, and
    then by the tasks of exactly the reported events registered from this
    scheduler, in the order of the reports (the others are handed to theirs);
    the reported events are unregistered, contexts without a report are
    untouched, and the invariants of the timers and of the table hold again. A
    report of a removed event aborts: [removed_event_aborts]. *)
Theorem idle_turn_delivers {K} epoll_ctl cb_id self a now now2 evs tm sch io (k : K) :
  (forall op fd ev k, (epoll_ctl op fd ev k).1 = true) ->
  TimerTheorems.reachable tm -> io_reachable epoll_ctl io ->
  NoDup (reports evs).*1 -> Forall (registered_report (contexts io)) (reports evs) ->
  (stopping now tm sch io).1.1 = false ->
  let ds := concat (map (reported (contexts io)) (reports evs)) in
  exists tm' sch' io' k',
    idle_turn epoll_ctl cb_id self a now now2 evs (World tm sch io) k
      = Ok (Some ds, World tm' sch' io', k')
    /\ m_fibers sch' = m_fibers sch
         ++ timer_tasks cb_id (map (cb_of (heap tm)) (expired_at now2 tm))
         ++ (filter (fun d => d.1 = self) ds).*2
    /\ timers_wf tm' /\ io_ok io'
    /\ (forall p mask c, (p, mask) ∈ reports evs -> contexts io !! p = Some c ->
          contexts io' !! p = Some (handled c mask))
    /\ (forall p, p ∉ (reports evs).*1 -> contexts io' !! p = contexts io !! p).
Proof.
  intros Hh Htm Hio Hnd Hev Hstop ds. unfold idle_turn. cbn [w_timers w_sched w_io].
  destruct (stopping now tm sch io) as [[stop t] tm1] eqn:Es. simpl in Hstop. subst stop.
  assert (timers_wf tm1 /\ expired_at now2 tm1 = expired_at now2 tm /\ heap tm1 = heap tm)
    as (Hwf1 & Hexp & Hheap) by (replace tm1 with (stopping now tm sch io).2 by (by rewrite Es);
          eapply stopping_timers; [by apply reachable_wf|done]).
  destruct (listExpiredCb_total a now2 tm1 Hwf1) as (tm' & Hl & Hwf').
  rewrite Hl, Hexp, Hheap. cbn [mbind outcome_bind]. clear Hl.
  destruct (process_events_spec epoll_ctl Hh (reports evs) io k (io_reachable_ok _ _ Hio) Hnd Hev)
    as (io' & k' & -> & Hok' & Hin & Hout). cbn [mbind outcome_bind].
  eexists tm', _, io', k'. split; [done|]. split; [|by split_and!].
  rewrite deliver_fibers.
  - rewrite app_assoc. f_equal. destruct (map (cb_of _) _) as [|cb cbs] eqn:Ec; [symmetry; apply app_nil_r|].
    by rewrite schedule_range_fibers.
  - intros d Hd. apply list_elem_of_In, in_concat in Hd as (l & Hl & Hd).
    apply in_map_iff in Hl as (r & <- & _). eapply reported_work. by apply list_elem_of_In.
Qed.

Lemma idle_turn_delivers_witness :
  match idle_turn epoll_yes (fun _ => 77%nat) 1 9 1000 1010 [Tickled; Ready 5 EPOLLIN]
      (World (addTimer 0 1000 5 (Some (Fn 4)) false (mkTimerManager 1000)).2 (started 1) demo_add) tt with
  | Ok (Some _, w, _) => m_fibers (w_sched w) = [FT None (Some 77%nat) (-1); FT None (Some 9%nat) (-1)]
  | _ => False
  end.
Proof.
  destruct (idle_turn_delivers epoll_yes (fun _ => 77%nat) 1 9 1000 1010 [Tickled; Ready 5 EPOLLIN]
    (addTimer 0 1000 5 (Some (Fn 4)) false (mkTimerManager 1000)).2 (started 1) demo_add tt)
    as (tm' & sch' & io' & k' & H & Hq & _).
  - reflexivity.
  - eapply TimerTheorems.reach_step; [apply TimerTheorems.reach_init|by apply step_add].
  - apply demo_add_reachable.
  - apply (bool_decide_unpack _). vm_compute. exact I.
  - repeat constructor. exists (FC (EC (Some 1%nat) None (Some 9%nat)) no_context 5 READ). done.
  - vm_compute. reflexivity.
  - rewrite H. cbn [w_sched]. rewrite Hq. vm_compute. reflexivity.
Defined.
