(* ===== verification/Hook.v ===== *)
(** * Hooked system calls: [sylar/hook.cc]

    A hooked call that would block registers the running fiber with the epoll
    loop, arms a timer and yields; it goes on when the fiber is scheduled
    again.  So a call is cut at [YieldToHold]: what it does up to there or to
    its return is one definition, what it does after it is scheduled again is
    another, and [wait] is what its stack holds in between.

    The state is what the calls share: descriptor contexts, timers, the epoll
    table, the [timer_info] objects by address, and the captured variables of
    the closures handed to timers.  The original functions are parameters on a
    kernel state: they give a result and [errno]. *)

From stdpp Require Import base list gmap.
From Stdlib Require Import ZArith Lia.
From S2P Require Import Prelude Timer TimerTheorems FdManager Fiber Scheduler SchedulerTheorems IOManager IOManagerTheorems.

Local Open Scope Z_scope.

Definition EINTR : Z := 4.
Definition EBADF : Z := 9.
Definition EAGAIN : Z := 11.
Definition ETIMEDOUT : Z := 110.
Definition EINPROGRESS : Z := 115.

(** [(uint64_t)-1]: no timeout. *)
Definition NEVER : Z := 2 ^ 64 - 1.

(** [timer_info], owned by the frame of a call: weak pointers to it can be
    locked while the call runs. *)
Record timer_info := Info { i_alive : bool; i_cancelled : Z }.

(** The variables the timeout closure captures. *)
Record timeout_fn := TFn { f_winfo : nat; f_fd : Z; f_event : Z }.

Record hooks := Hooks {
  h_fds : fds;
  h_timers : Timer.manager;
  h_io : ioman;
  h_infos : gmap nat timer_info;
  h_fns : gmap nat timeout_fn;
}.

Definition set_fds (v : fds) (s : hooks) : hooks := Hooks v (h_timers s) (h_io s) (h_infos s) (h_fns s).
Definition set_tm (v : Timer.manager) (s : hooks) : hooks := Hooks (h_fds s) v (h_io s) (h_infos s) (h_fns s).
Definition set_io (v : ioman) (s : hooks) : hooks := Hooks (h_fds s) (h_timers s) v (h_infos s) (h_fns s).
Definition set_info (ti : nat) (i : timer_info) (s : hooks) : hooks :=
  Hooks (h_fds s) (h_timers s) (h_io s) (<[ti := i]> (h_infos s)) (h_fns s).
Definition set_fn (a : nat) (f : timeout_fn) (s : hooks) : hooks :=
  Hooks (h_fds s) (h_timers s) (h_io s) (h_infos s) (<[a := f]> (h_fns s)).

(** The context [FdMgr::GetInstance()->get(fd)] returns. *)
Definition fd_ctx (fd : Z) (s : hooks) : outcome (option (nat * FdCtx)) :=
  o ← get_read fd false (h_fds s);
  match o with
  | Some (Some p) => c ← deref null_deref (ctxs (h_fds s) !! p); Ok (Some (p, c))
  | _ => Ok None
  end.
Definition update_ctx (p : nat) (c : FdCtx) (s : hooks) : hooks :=
  set_fds (FDS (<[p := c]> (ctxs (h_fds s))) (m_datas (h_fds s))) s.

(** The end of a call's frame. *)
Definition release (ti : nat) (s : hooks) : hooks :=
  match h_infos s !! ti with
  | Some i => set_info ti (Info false (i_cancelled i)) s
  | None => s
  end.

(** [tinfo->cancelled] *)
Definition cancelled (ti : nat) (s : hooks) : Z :=
  match h_infos s !! ti with Some i => i_cancelled i | None => 0 end.

(** What is left of a call at [YieldToHold], and what a call comes to: its
    result with [errno], unless a failed [epoll_ctl] has set that. *)
Record wait := Wait { w_fd : Z; w_event : Z; w_to : Z; w_info : nat; w_timer : option nat }.
Inductive result := Returned (n : Z) (errno : option Z) | Waits (w : wait).

(** The thread a call runs on: whether hooks are enabled, the scheduler,
    which is also [IOManager::GetThis()] if it is one, the current fiber. *)
Record caller := Caller { t_hook_enable : bool; t_iom : option nat; t_fiber : nat * State }.

Section hook.
Context {K : Type} (epoll_ctl : epoll_op -> Z -> Z -> K -> bool * K).

(** An original function with its arguments bound: result and [errno]. *)
Notation origin := (K -> Z * Z * K).

(** The closure of the timer: a timeout is noted once, and wakes the fiber. *)
Definition on_timeout (f : timeout_fn) (s : hooks) (k : K) : outcome (list dispatch * hooks * K) :=
  match h_infos s !! f_winfo f with
  | Some (Info true c) =>
      if negb (c =? 0) then Ok ([], s, k) else
      let s := set_info (f_winfo f) (Info true ETIMEDOUT) s in
      '(_, ds, io, k) ← cancelEvent epoll_ctl (f_fd f) (f_event f) (h_io s) k;
      Ok (ds, set_io io s, k)
  | _ => Ok ([], s, k)
  end.

(** Arming the timer; [a] is the address of the new one, which also names its
    closure. *)
Definition arm (a : nat) (now to : Z) (ti : nat) (fd event : Z) (s : hooks) : option nat * hooks :=
  if to =? NEVER then (None, s) else
  let '(_, tm) := addConditionTimer a now to (Some (Fn a)) ti false (h_timers s) in
  (Some a, set_fn a (TFn ti fd event) (set_tm tm s)).

(** [if (timer) timer->cancel()] *)
Definition disarm (timer : option nat) (s : hooks) : outcome hooks :=
  match timer with
  | None => Ok s
  | Some a => '(_, tm) ← cancel a (h_timers s); Ok (set_tm tm s)
  end.

(** The first call and the loop over [EINTR]. *)
Fixpoint call_io (fuel : nat) (f : origin) (k : K) : outcome (Z * Z * K) :=
  let '(n, errno, k) := f k in
  if (n =? -1) && (errno =? EINTR) then
    match fuel with O => Err NoFuel | S fuel => call_io fuel f k end
  else Ok (n, errno, k).

(** [do_io] from [retry] on. *)
Definition do_io_retry (fuel a : nat) (now : Z) (th : caller) (f : origin) (fd event to : Z) (ti : nat)
    (s : hooks) (k : K) : outcome (result * hooks * K) :=
  '(n, errno, k) ← call_io fuel f k;
  if (n =? -1) && (errno =? EAGAIN) then
    iom ← deref null_deref (t_iom th);
    let '(timer, s) := arm a now to ti fd event s in
    '(rt, io, k) ← addEvent epoll_ctl fd event None (Some iom) (t_fiber th) (h_io s) k;
    let s := set_io io s in
    if negb (rt =? 0) then
      s ← disarm timer s; Ok (Returned (-1) None, release ti s, k)
    else
      Ok (Waits (Wait fd event to ti timer), s, k)
  else Ok (Returned n (Some errno), release ti s, k).

Definition direct (f : origin) (s : hooks) (k : K) : outcome (result * hooks * K) :=
  let '(n, errno, k) := f k in Ok (Returned n (Some errno), s, k).

(** [do_io]; [ti] is the address of the new [timer_info]. *)
Definition do_io (fuel a ti : nat) (now : Z) (th : caller) (f : origin) (fd event timeout_so : Z)
    (s : hooks) (k : K) : outcome (result * hooks * K) :=
  if negb (t_hook_enable th) then direct f s k else
  o ← fd_ctx fd s;
  match o with
  | None => direct f s k
  | Some (_, ctx) =>
      if m_isClosed ctx then Ok (Returned (-1) (Some EBADF), s, k)
      else if negb (m_isSocket ctx) || m_userNonblock ctx then direct f s k
      else do_io_retry fuel a now th f fd event (getTimeout timeout_so ctx) ti
             (set_info ti (Info true 0) s) k
  end.

(** [do_io] when its fiber runs again. *)
Definition do_io_resume (fuel a : nat) (now : Z) (th : caller) (f : origin) (w : wait)
    (s : hooks) (k : K) : outcome (result * hooks * K) :=
  s ← disarm (w_timer w) s;
  let c := cancelled (w_info w) s in
  if negb (c =? 0) then Ok (Returned (-1) (Some c), release (w_info w) s, k)
  else do_io_retry fuel a now th f (w_fd w) (w_event w) (w_to w) (w_info w) s k.

(** The calls that wait to read, and those that wait to write. *)
Definition hook_read (fuel a ti : nat) (now : Z) (th : caller) (f : origin) (fd : Z) :=
  do_io fuel a ti now th f fd READ SO_RCVTIMEO.
Definition hook_write (fuel a ti : nat) (now : Z) (th : caller) (f : origin) (fd : Z) :=
  do_io fuel a ti now th f fd WRITE SO_SNDTIMEO.

(** ** [connect] *)

(** [getsockopt(fd, SOL_SOCKET, SO_ERROR, ...)]: its result, [errno] and the
    error it stores. *)
Context (so_error : Z -> K -> Z * Z * Z * K).

Definition connect_result (fd : Z) (ti : nat) (s : hooks) (k : K) : outcome (result * hooks * K) :=
  let '(rt, errno, error, k) := so_error fd k in
  let s := release ti s in
  if rt =? -1 then Ok (Returned (-1) (Some errno), s, k)
  else if error =? 0 then Ok (Returned 0 (Some errno), s, k)
  else Ok (Returned (-1) (Some error), s, k).

Definition connect_with_timeout (a ti : nat) (now : Z) (th : caller) (connect_f : origin)
    (fd timeout_ms : Z) (s : hooks) (k : K) : outcome (result * hooks * K) :=
  if negb (t_hook_enable th) then direct connect_f s k else
  o ← fd_ctx fd s;
  match o with
  | None => Ok (Returned (-1) (Some EBADF), s, k)
  | Some (_, ctx) =>
      if m_isClosed ctx then Ok (Returned (-1) (Some EBADF), s, k)
      else if negb (m_isSocket ctx) then direct connect_f s k
      else if m_userNonblock ctx then direct connect_f s k
      else
        let '(n, errno, k) := connect_f k in
        if n =? 0 then Ok (Returned 0 (Some errno), s, k)
        else if negb (n =? -1) || negb (errno =? EINPROGRESS) then Ok (Returned n (Some errno), s, k)
        else
          iom ← deref null_deref (t_iom th);
          let s := set_info ti (Info true 0) s in
          let '(timer, s) := arm a now timeout_ms ti fd WRITE s in
          '(rt, io, k) ← addEvent epoll_ctl fd WRITE None (Some iom) (t_fiber th) (h_io s) k;
          let s := set_io io s in
          if rt =? 0 then Ok (Waits (Wait fd WRITE timeout_ms ti timer), s, k)
          else s ← disarm timer s; connect_result fd ti s k
  end.

Definition connect_resume (w : wait) (s : hooks) (k : K) : outcome (result * hooks * K) :=
  s ← disarm (w_timer w) s;
  let c := cancelled (w_info w) s in
  if negb (c =? 0) then Ok (Returned (-1) (Some c), release (w_info w) s, k)
  else connect_result (w_fd w) (w_info w) s k.

(** ** Descriptors *)

Context (fstat : K -> Z -> option bool).
Context (getfl : K -> Z -> Z) (setfl : Z -> Z -> K -> K).

(** [socket], and what [accept] does with its result: [get(fd, true)]; [p] is
    the address of the new context. *)
Definition manage (p : nat) (fd : Z) (s : hooks) (k : K) : outcome (hooks * K) :=
  '(_, d, k) ← FdManager.get fstat getfl setfl p fd true (h_fds s) k;
  Ok (set_fds d s, k).

Definition socket (p : nat) (th : caller) (socket_f : origin) (s : hooks) (k : K)
    : outcome (result * hooks * K) :=
  let '(fd, errno, k) := socket_f k in
  if negb (t_hook_enable th) || (fd =? -1) then Ok (Returned fd (Some errno), s, k) else
  '(s, k) ← manage p fd s k;
  Ok (Returned fd (Some errno), s, k).

Definition accept_result (p : nat) (r : result) (s : hooks) (k : K) : outcome (result * hooks * K) :=
  match r with
  | Returned fd errno => if 0 <=? fd then '(s, k) ← manage p fd s k; Ok (r, s, k) else Ok (r, s, k)
  | Waits _ => Ok (r, s, k)
  end.

(** [close]: its waiting fibers are handed out before the descriptor goes. *)
Definition close (th : caller) (fd : Z) (close_f : origin) (s : hooks) (k : K)
    : outcome (list dispatch * result * hooks * K) :=
  '(ds, s, k) ←
    (if negb (t_hook_enable th) then Ok ([], s, k) else
     o ← fd_ctx fd s;
     match o with
     | None => Ok ([], s, k)
     | Some _ =>
         '(ds, s, k) ← match t_iom th with
                       | None => Ok ([], s, k)
                       | Some _ => '(_, ds, io, k) ← cancelAll epoll_ctl fd (h_io s) k; Ok (ds, set_io io s, k)
                       end;
         d ← delFd fd (h_fds s);
         Ok (ds, set_fds d s, k)
     end);
  '(r, s, k) ← direct close_f s k;
  Ok (ds, r, s, k).

(** ** Flags and options *)

(** A context through which the user's and the system's flags differ. *)
Definition managed (fd : Z) (s : hooks) : outcome (option (nat * FdCtx)) :=
  o ← fd_ctx fd s;
  Ok match o with
     | Some (p, ctx) => if m_isClosed ctx || negb (m_isSocket ctx) then None else Some (p, ctx)
     | None => None
     end.

Definition fcntl_setfl (fd arg : Z) (s : hooks) (k : K) : outcome (hooks * K) :=
  o ← managed fd s;
  match o with
  | None => Ok (s, setfl fd arg k)
  | Some (p, ctx) =>
      let s := update_ctx p (setUserNonblock (has arg O_NONBLOCK) ctx) s in
      let arg := if m_sysNonblock ctx then Z.lor arg O_NONBLOCK else without arg O_NONBLOCK in
      Ok (s, setfl fd arg k)
  end.

Definition fcntl_getfl (fd : Z) (s : hooks) (k : K) : outcome Z :=
  let arg := getfl k fd in
  o ← managed fd s;
  Ok match o with
     | None => arg
     | Some (_, ctx) => if m_userNonblock ctx then Z.lor arg O_NONBLOCK else without arg O_NONBLOCK
     end.

(** [ioctl(d, FIONBIO, &v)]: the flag is noted, and passed on to the kernel. *)
Definition ioctl_fionbio (fd v : Z) (ioctl_f : origin) (s : hooks) (k : K) : outcome (result * hooks * K) :=
  o ← managed fd s;
  direct ioctl_f (match o with
                  | None => s
                  | Some (p, ctx) => update_ctx p (setUserNonblock (negb (v =? 0)) ctx) s
                  end) k.

Definition SOL_SOCKET : Z := 1.

(** [setsockopt] with a [timeval] for the options that hold one. *)
Definition setsockopt (th : caller) (fd level optname tv_sec tv_usec : Z) (setsockopt_f : origin)
    (s : hooks) (k : K) : outcome (result * hooks * K) :=
  if negb (t_hook_enable th) then direct setsockopt_f s k else
  if (level =? SOL_SOCKET) && ((optname =? SO_RCVTIMEO) || (optname =? SO_SNDTIMEO)) then
    o ← fd_ctx fd s;
    match o with
    | None => direct setsockopt_f s k
    | Some (p, ctx) =>
        ms ← sarith 64 (tv_sec * 1000);
        v ← sarith 64 (ms + tv_usec ÷ 1000);
        direct setsockopt_f (update_ctx p (setTimeout optname v ctx) s) k
    end
  else direct setsockopt_f s k.

(** ** Sleeping: the time of the timer that schedules the fiber again *)

(** [seconds * 1000] is [unsigned int], [timeout_ms] an [int]. *)
Definition sleep_ms (seconds : Z) : Z := u32 (seconds * 1000).
Definition usleep_ms (usec : Z) : Z := usec / 1000.
Definition nanosleep_ms (tv_sec tv_nsec : Z) : outcome Z :=
  ms ← sarith 64 (tv_sec * 1000);
  v ← sarith 64 (ms + tv_nsec ÷ 1000 ÷ 1000);
  Ok (u64 (i32 v)).

(** The timer's function schedules the fiber [f] of the caller; [fn] names it. *)
Definition sleep_for (a fn : nat) (now ms : Z) (s : hooks) : hooks :=
  set_tm (addTimer a now ms (Some (Fn fn)) false (h_timers s)).2 s.
End hook.
