(* ===== verification/HookSystem.v ===== *)
(** * A worker thread that runs hooked calls

    The calls of [Hook.v] joined with the loop that wakes them: a worker of an
    [IOManager] with one thread.  Between two switches a fiber, a timer's
    function or a turn of the idle fiber runs alone, so each is a step; which
    queued task runs next, what the original functions return, when the clock
    moves and what [epoll_wait] reports is arbitrary. *)

From stdpp Require Import base list gmap.
From Stdlib Require Import ZArith Lia.
From S2P Require Import Prelude Timer TimerTheorems FdManager Fiber Scheduler SchedulerTheorems IOManager IOManagerTheorems Hook.

Local Open Scope Z_scope.

(** A call on a fiber's stack at [YieldToHold]: [do_io] with its original
    function, or [connect]. *)
Record frame (K : Type) := Frame { fr_fun : option (K -> Z * Z * K); fr_wait : wait }.
Arguments Frame {K} fr_fun fr_wait.
Arguments fr_fun {K} _.
Arguments fr_wait {K} _.

(** A task of the queue: a fiber, or a timer's function. *)
Inductive job := JFiber (f : nat) | JFn (cb : Timer.callback).

Record worker (K : Type) := Worker {
  y_hooks : hooks;
  y_frames : gmap nat (frame K);
  y_queue : list job;
  y_done : list (nat * Z * option Z);
  y_kern : K;
}.
Arguments Worker {K} y_hooks y_frames y_queue y_done y_kern.
Arguments y_hooks {K} _.
Arguments y_frames {K} _.
Arguments y_queue {K} _.
Arguments y_done {K} _.
Arguments y_kern {K} _.

Definition job_of (d : dispatch) : list job :=
  match ft_fiber d.2, ft_cb d.2 with
  | Some f, _ => [JFiber f]
  | None, Some cb => [JFn (Fn cb)]
  | None, None => []
  end.
Definition jobs_of (ds : list dispatch) : list job := concat (map job_of ds).

Definition fibers_in (q : list job) : list nat :=
  omap (fun j => match j with JFiber f => Some f | JFn _ => None end) q.

Section worker.
Context {K : Type} (epoll_ctl : epoll_op -> Z -> Z -> K -> bool * K).
Context (so_error : Z -> K -> Z * Z * Z * K).
(** The scheduler, and how often a call may be interrupted. *)
Context (iom fuel : nat).

Inductive label :=
  | LCall (f a ti : nat) (now : Z) (fn : K -> Z * Z * K) (fd event timeout_so : Z)
  | LConnect (f a ti : nat) (now : Z) (fn : K -> Z * Z * K) (fd timeout_ms : Z)
  | LRun (i a : nat) (now : Z)
  | LExpire (a : nat) (now : Z)
  | LReport (p : nat) (mask : Z)
  | LClose (fd : Z) (fn : K -> Z * Z * K).

(** What a fiber's call has come to. *)
Definition called (f : nat) (fn : option (K -> Z * Z * K)) (y : worker K) (x : result * hooks * K)
    : worker K :=
  let '(r, s, k) := x in
  match r with
  | Returned n e => Worker s (delete f (y_frames y)) (y_queue y) (y_done y ++ [(f, n, e)]) k
  | Waits w => Worker s (<[f := Frame fn w]> (y_frames y)) (y_queue y) (y_done y) k
  end.

Definition enqueue (js : list job) (s : hooks) (k : K) (y : worker K) : worker K :=
  Worker s (y_frames y) (y_queue y ++ js) (y_done y) k.

Definition on_worker (f : nat) : caller := Caller true (Some iom) (f, EXEC).

Definition alive (s : hooks) (ti : nat) : bool :=
  match h_infos s !! ti with Some i => i_alive i | None => false end.

(** The functions a callback runs, one after the other. *)
Fixpoint run_fns (l : list nat) (s : hooks) (k : K) : outcome (list dispatch * hooks * K) :=
  match l with
  | [] => Ok ([], s, k)
  | a :: l =>
      fn ← deref null_deref (h_fns s !! a);
      '(ds, s, k) ← on_timeout epoll_ctl fn s k;
      '(ds', s, k) ← run_fns l s k;
      Ok (ds ++ ds', s, k)
  end.

Definition run_job (j : job) (a : nat) (now : Z) (y : worker K) : outcome (worker K) :=
  let s := y_hooks y in
  let k := y_kern y in
  match j with
  | JFiber f =>
      match y_frames y !! f with
      | None => Ok y
      | Some (Frame (Some fn) w) =>
          x ← do_io_resume epoll_ctl fuel a now (on_worker f) fn w s k; Ok (called f (Some fn) y x)
      | Some (Frame None w) => x ← connect_resume so_error w s k; Ok (called f None y x)
      end
  | JFn cb =>
      l ← invoke (alive s) cb;
      '(ds, s, k) ← run_fns l s k;
      Ok (enqueue (jobs_of ds) s k y)
  end.

Definition exec (l : label) (y : worker K) : outcome (worker K) :=
  let s := y_hooks y in
  let k := y_kern y in
  match l with
  | LCall f a ti now fn fd event timeout_so =>
      x ← do_io epoll_ctl fuel a ti now (on_worker f) fn fd event timeout_so s k;
      Ok (called f (Some fn) y x)
  | LConnect f a ti now fn fd timeout_ms =>
      x ← connect_with_timeout epoll_ctl so_error a ti now (on_worker f) fn fd timeout_ms s k;
      Ok (called f None y x)
  | LRun i a now =>
      j ← deref index_oob (y_queue y !! i);
      run_job j a now (Worker s (y_frames y) (delete i (y_queue y)) (y_done y) k)
  | LExpire a now =>
      '(cbs, tm) ← listExpiredCb a now (h_timers s);
      Ok (enqueue (omap (fmap JFn) cbs) (set_tm tm s) k y)
  | LReport p mask =>
      '(ds, io, k) ← process_event epoll_ctl p mask (h_io s) k;
      Ok (enqueue (jobs_of ds) (set_io io s) k y)
  | LClose fd fn =>
      '(ds, _, s, k) ← close epoll_ctl (on_worker 0) fd fn s k;
      Ok (enqueue (jobs_of ds) s k y)
  end.

(** ** Who is registered for what *)

Definition reg_at (io : ioman) (fd ev : Z) : option nat :=
  if (fd <? 0) || negb ((ev =? READ) || (ev =? WRITE)) then None else
  match contexts io !! Z.to_nat fd with
  | Some c => if has (c_events c) ev then e_fiber (slot ev c) else None
  | None => None
  end.

(** What a client may do: a fiber makes one call at a time, no two calls wait
    for the same event of a descriptor, addresses are fresh, and [epoll_wait]
    reports what is registered. *)
Definition free (f : nat) (y : worker K) : Prop :=
  y_frames y !! f = None /\ f ∉ fibers_in (y_queue y).
Definition nobody_waits (fd ev : Z) (y : worker K) : Prop :=
  forall f fr, y_frames y !! f = Some fr -> w_fd (fr_wait fr) <> fd \/ w_event (fr_wait fr) <> ev.
Definition fresh (a : nat) (y : worker K) : Prop := heap (h_timers (y_hooks y)) !! a = None.

Definition enabled (l : label) (y : worker K) : Prop :=
  match l with
  | LCall f a ti now fn fd event timeout_so =>
      0 <= fd /\ is_event event /\ free f y /\ nobody_waits fd event y /\ fresh a y
      /\ h_infos (y_hooks y) !! ti = None
  | LConnect f a ti now fn fd timeout_ms =>
      0 <= fd /\ free f y /\ nobody_waits fd WRITE y /\ fresh a y /\ h_infos (y_hooks y) !! ti = None
  | LRun i a now => (i < length (y_queue y))%nat /\ fresh a y
  | LExpire a now => True
  | LReport p mask =>
      exists c, contexts (h_io (y_hooks y)) !! p = Some c
        /\ (has (real_events_of c mask) READ = true -> has (c_events c) READ = true)
        /\ (has (real_events_of c mask) WRITE = true -> has (c_events c) WRITE = true)
  | LClose fd fn => 0 <= fd
  end.
End worker.
