(* ===== verification/HookWakeups.v ===== *)
(** * Wake-ups of hooked calls

    The epoll table seen as a map from events to waiting fibers, what its
    operations do to that map, and the bookkeeping that a waiting fiber is
    registered or queued, and only once. *)

From stdpp Require Import base list gmap.
From Stdlib Require Import ZArith Lia.
From S2P Require Import Prelude Timer TimerTheorems FdManager Fiber Scheduler SchedulerTheorems IOManager IOManagerTheorems Hook HookSystem.

Local Open Scope Z_scope.

(** ** The epoll table as a map from events to fibers *)

#[export] Instance is_event_dec ev : Decision (is_event ev).
Proof. unfold is_event. apply _. Defined.

Section table.
Context (iom : nat).

(** A table that only ever grew, and where only fibers wait. *)
Record table_ok (io : ioman) : Prop := {
  tb_io : io_ok io;
  tb_id : m_fdContexts io = seq 0 (length (contexts io));
  tb_len : (32 <= length (contexts io))%nat;
  tb_slots : forall p c ev, contexts io !! p = Some c -> is_event ev -> has (c_events c) ev = true ->
    exists f, slot ev c = EC (Some iom) (Some f) None;
}.

(** The fibers in [l] leave the table. *)
Record handed_out (r r' : Z -> Z -> option nat) (l : list nat) : Prop := {
  ho_less : forall fd ev, r' fd ev = r fd ev \/ r' fd ev = None;
  ho_out : forall fd ev f, r fd ev = Some f -> r' fd ev = None -> f ∈ l;
  ho_from : forall f, f ∈ l -> exists fd ev, r fd ev = Some f /\ r' fd ev = None;
  ho_once : (forall fd ev fd' ev' f, r fd ev = Some f -> r fd' ev' = Some f -> fd = fd' /\ ev = ev') -> NoDup l;
}.

Lemma handed_none r r' : (forall fd ev, r' fd ev = r fd ev) -> handed_out r r' [].
Proof.
  intros H. constructor; [by left| |by intros ? ?%elem_of_nil|constructor].
  intros fd ev f H1 H2. rewrite H in H2. congruence.
Qed.

Lemma tb_fd io p c : table_ok io -> contexts io !! p = Some c -> c_fd c = Z.of_nat p.
Proof.
  intros [Hio Hid Hlen _] Hp. pose proof (lookup_lt_Some _ _ _ Hp).
  destruct (io_table io Hio p p) as (c' & Hc & E); [|congruence].
  rewrite Hid. apply lookup_seq. lia.
Qed.

Lemma is_event_spec ev : is_event ev <-> (ev =? READ) || (ev =? WRITE) = true.
Proof. unfold is_event. by rewrite orb_true_iff, !Z.eqb_eq. Qed.

Lemma reg_at_other io fd ev : ~ is_event ev -> reg_at io fd ev = None.
Proof.
  intros H. unfold reg_at. destruct (_ || _) eqn:E; [done|]. apply orb_false_iff in E as [_ E].
  apply negb_false_iff, is_event_spec in E. done.
Qed.

Lemma reg_at_negative io fd ev : fd < 0 -> reg_at io fd ev = None.
Proof. intros H. unfold reg_at. by rewrite (proj2 (Z.ltb_lt _ _)). Qed.

Lemma reg_at_event io fd ev :
  0 <= fd -> is_event ev -> reg_at io fd ev =
    match contexts io !! Z.to_nat fd with
    | Some c => if has (c_events c) ev then e_fiber (slot ev c) else None
    | None => None
    end.
Proof.
  intros H0 Hev%is_event_spec. unfold reg_at. by rewrite Hev, (proj2 (Z.ltb_ge _ _)).
Qed.

Lemma reg_at_context io p c ev :
  is_event ev -> contexts io !! p = Some c ->
  reg_at io (Z.of_nat p) ev = if has (c_events c) ev then e_fiber (slot ev c) else None.
Proof. intros Hev Hp. rewrite reg_at_event by (done || lia). by rewrite Nat2Z.id, Hp. Qed.

(** The table after the context at [p] became [c']. *)
Definition replaced (p : nat) (c' : FdContext) (io io' : ioman) : Prop :=
  contexts io' = <[p := c']> (contexts io) /\ m_fdContexts io' = m_fdContexts io.

Lemma reg_at_put io io' p c c' fd ev :
  is_event ev -> contexts io !! p = Some c -> replaced p c' io io' ->
  reg_at io' fd ev =
    if decide (fd = Z.of_nat p) then if has (c_events c') ev then e_fiber (slot ev c') else None
    else reg_at io fd ev.
Proof.
  intros Hev Hp [Hc _]. pose proof (lookup_lt_Some _ _ _ Hp).
  destruct (Z.ltb_spec fd 0); [by rewrite !reg_at_negative, decide_False by lia|].
  rewrite !reg_at_event, Hc by done. case_decide as E.
  - subst fd. by rewrite Nat2Z.id, list_lookup_insert_eq.
  - by rewrite list_lookup_insert_ne by lia.
Qed.

Lemma table_find io fd :
  table_ok io -> 0 <= fd -> fd < Z.of_nat (length (contexts io)) ->
  find_read fd io = Ok (Some (Z.to_nat fd)).
Proof.
  intros [_ Hid _ _] H0 Hlt. unfold find_read, ptr_at.
  rewrite Hid, length_seq, (proj2 (Z.ltb_lt _ _)), (proj2 (Z.ltb_ge _ _)) by lia.
  assert (seq 0 (length (contexts io)) !! Z.to_nat fd = Some (Z.to_nat fd)) as -> by (apply lookup_seq; lia).
  done.
Qed.

Lemma table_find_none io fd :
  table_ok io -> Z.of_nat (length (contexts io)) <= fd -> find_read fd io = Ok None.
Proof.
  intros [_ Hid _ _] Hge. unfold find_read. by rewrite Hid, length_seq, (proj2 (Z.ltb_ge _ _)) by lia.
Qed.

Lemma table_resize io n :
  table_ok io -> (length (contexts io) <= n)%nat ->
  table_ok (ContextResize n io) /\ length (contexts (ContextResize n io)) = n
  /\ forall fd ev, reg_at (ContextResize n io) fd ev = reg_at io fd ev.
Proof.
  intros [Hio Hid Hlen Hsl] Hn.
  assert (length (m_fdContexts io) = length (contexts io)) as El by (by rewrite Hid, length_seq).
  assert (length (contexts (ContextResize n io)) = n) as En
    by (simpl; rewrite length_app, length_map, length_seq, El; lia).
  assert (forall i c, contexts (ContextResize n io) !! i = Some c -> contexts io !! i = Some c \/ c_events c = 0) as Hnew.
  { intros i c. simpl. intros [?|[_ Hc]]%lookup_app_Some; [by left|right].
    rewrite list_lookup_fmap in Hc. by destruct (seq _ _ !! _); simplify_eq/=. }
  split_and!; [constructor|done|].
  - by apply io_ok_resize.
  - rewrite En. simpl. rewrite El, take_ge, Hid by (rewrite El; lia). rewrite <- seq_app. f_equal. lia.
  - lia.
  - intros p c ev Hp Hev Hh. destruct (Hnew p c Hp) as [H|H]; [by eapply Hsl|].
    rewrite H in Hh. by destruct Hev as [-> | ->].
  - intros fd ev. unfold reg_at. destruct (_ || _); [done|].
    destruct (contexts io !! Z.to_nat fd) as [c|] eqn:E.
    + simpl. by rewrite (lookup_app_l_Some _ _ _ _ E).
    + destruct (contexts (ContextResize n io) !! Z.to_nat fd) as [c|] eqn:E'; [|done].
      destruct (Hnew _ _ E') as [H|H]; [congruence|]. rewrite H. done.
Qed.

(** The events [READ] and [WRITE] do not meet. *)
Lemma has_lor es ev ev' :
  is_event ev -> is_event ev' -> has (Z.lor es ev) ev' = if decide (ev = ev') then true else has es ev'.
Proof.
  intros He He'. unfold has. rewrite Z.land_lor_distr_l. case_decide as E.
  - subst ev'. rewrite Z.land_diag. destruct (Z.eqb_spec (Z.lor (Z.land es ev) ev) 0) as [E|]; [|done].
    apply Z.lor_eq_0_iff in E as [_ ->]. by destruct He.
  - assert (Z.land ev ev' = 0) as -> by (by destruct He as [-> | ->], He' as [-> | ->]).
    by rewrite Z.lor_0_r.
Qed.

Lemma has_without es ev ev' :
  is_event ev -> is_event ev' -> has (without es ev) ev' = if decide (ev = ev') then false else has es ev'.
Proof.
  intros He He'. unfold has, without. rewrite <- Z.land_assoc.
  destruct He as [-> | ->], He' as [-> | ->]; simpl; rewrite ?Z.land_0_r; done.
Qed.

Lemma slot_set_context ev ev' e c :
  is_event ev -> is_event ev' ->
  slot ev' (set_context ev e c) = if decide (ev = ev') then e else slot ev' c.
Proof. by intros [-> | ->] [-> | ->]. Qed.

(** Taking an event out of a context, or not. *)
Lemma fire_slot b e c ev :
  is_event e -> is_event ev ->
  has (c_events (fire b e c)) ev = has (c_events c) ev && negb (b && bool_decide (e = ev))
  /\ (b && bool_decide (e = ev) = false -> slot ev (fire b e c) = slot ev c).
Proof.
  intros He Hev. destruct b; simpl; [|by rewrite andb_true_r].
  unfold cleared. rewrite slot_set_context by done. split.
  - assert (forall x y, c_events (set_context e x y) = c_events y) as -> by (intros; by destruct He as [-> | ->]).
    cbn [c_events set_events]. rewrite has_without by done. case_decide as E.
    + by rewrite bool_decide_eq_true_2, andb_false_r.
    + by rewrite bool_decide_eq_false_2, andb_true_r.
  - intros E. rewrite decide_False by (by intros ->; rewrite bool_decide_eq_true_2 in E). by destruct Hev as [-> | ->].
Qed.

Lemma fired_slot br bw c ev :
  is_event ev ->
  has (c_events (fire bw WRITE (fire br READ c))) ev
    = has (c_events c) ev && negb (if decide (ev = READ) then br else bw)
  /\ (has (c_events (fire bw WRITE (fire br READ c))) ev = true ->
      slot ev (fire bw WRITE (fire br READ c)) = slot ev c).
Proof.
  intros Hev. destruct (fire_slot br READ c ev ltac:(by left) Hev) as [H1 H2].
  destruct (fire_slot bw WRITE (fire br READ c) ev ltac:(by right) Hev) as [H3 H4].
  rewrite H3, H1. destruct Hev as [-> | ->]; cbn in *.
  - rewrite !andb_false_r, !andb_true_r in *. cbn. rewrite ?andb_true_r. split; [done|].
    intros [_ E]%andb_true_iff. apply negb_true_iff in E. by rewrite H4, H2.
  - rewrite !andb_false_r, !andb_true_r in *. cbn. rewrite ?andb_true_r. split; [done|].
    intros [_ E]%andb_true_iff. apply negb_true_iff in E. by rewrite H4, H2.
Qed.

Lemma table_put io io' p c c' :
  table_ok io -> contexts io !! p = Some c -> replaced p c' io io' -> io_ok io' ->
  (forall ev, is_event ev -> has (c_events c') ev = true -> exists f, slot ev c' = EC (Some iom) (Some f) None) ->
  table_ok io'.
Proof.
  intros [Hio Hid Hlen Hsl] Hp [Ec Em] Hok Hc'. constructor; rewrite ?Ec, ?Em, ?length_insert; try done.
  intros q x ev. destruct (decide (q = p)) as [->|Hne].
  - rewrite list_lookup_insert_eq by (by eapply lookup_lt_Some). intros [= <-]. apply Hc'.
  - rewrite list_lookup_insert_ne by done. apply Hsl.
Qed.

(** The fibers of a context's events. *)
Definition fired_fibers (b : bool) (ev : Z) (c : FdContext) : list nat :=
  if b then match e_fiber (slot ev c) with Some f => [f] | None => [] end else [].

Lemma fired_jobs io p c b ev :
  table_ok io -> contexts io !! p = Some c -> is_event ev -> (b = true -> has (c_events c) ev = true) ->
  jobs_of (fired_tasks b ev c) = map JFiber (fired_fibers b ev c).
Proof.
  intros Ht Hp Hev Hb. unfold fired_tasks, fired_fibers. destruct b; [|done].
  destruct (tb_slots io Ht p c ev Hp Hev (Hb eq_refl)) as [f ->]. done.
Qed.

Lemma table_fire io io' p c br bw :
  table_ok io -> contexts io !! p = Some c ->
  (br = true -> has (c_events c) READ = true) -> (bw = true -> has (c_events c) WRITE = true) ->
  replaced p (fire bw WRITE (fire br READ c)) io io' -> io_ok io' ->
  table_ok io' /\ handed_out (reg_at io) (reg_at io') (fired_fibers br READ c ++ fired_fibers bw WRITE c)
  /\ (forall fd ev, is_event ev -> reg_at io' fd ev =
       if decide (fd = Z.of_nat p /\ (if decide (ev = READ) then br else bw) = true) then None else reg_at io fd ev).
Proof.
  intros Ht Hp Hr Hw Hrep Hok.
  assert (forall ev, is_event ev -> has (c_events c) ev = true -> exists f, slot ev c = EC (Some iom) (Some f) None) as Hsl
    by (intros ev; by eapply tb_slots).
  assert (forall fd ev, is_event ev -> reg_at io' fd ev =
    if decide (fd = Z.of_nat p /\ (if decide (ev = READ) then br else bw) = true) then None else reg_at io fd ev) as Hreg.
  { intros fd ev Hev. rewrite (reg_at_put io io' p c _ _ _ Hev Hp Hrep).
    destruct (fired_slot br bw c ev Hev) as [H1 H2].
    destruct (decide (fd = Z.of_nat p)) as [->|Hne]; [|by rewrite decide_False by naive_solver].
    rewrite (reg_at_context io p c) by done. rewrite H1. rewrite H1 in H2.
    destruct (if decide (ev = READ) then br else bw); cbn [negb] in *.
    - by rewrite andb_false_r, decide_True.
    - rewrite andb_true_r in *. rewrite decide_False by naive_solver. destruct (has (c_events c) ev) eqn:E; [|done].
      by rewrite (H2 eq_refl). }
  split_and!; [|constructor|done].
  - eapply (table_put io io' p c); try done. intros ev Hev Hh.
    destruct (fired_slot br bw c ev Hev) as [H1 H2]. rewrite H2 by done. apply Hsl; [done|].
    rewrite H1 in Hh. by apply andb_true_iff in Hh as [? _].
  - intros fd ev. destruct (decide (is_event ev)) as [Hev|Hev].
    + rewrite Hreg by done. case_decide; auto.
    + rewrite !reg_at_other by done. by left.
  - intros fd ev f H1 H2. destruct (decide (is_event ev)) as [Hev|Hev]; [|by rewrite reg_at_other in H1].
    rewrite Hreg in H2 by done. case_decide as E; [|congruence]. destruct E as [-> E].
    rewrite (reg_at_context io p c) in H1 by done. destruct (has (c_events c) ev) eqn:Hh; [|done].
    apply elem_of_app. unfold fired_fibers. destruct Hev as [-> | ->].
    + left. rewrite decide_True in E by done. rewrite E, H1. by left.
    + right. rewrite decide_False in E by done. rewrite E, H1. by left.
  - assert (forall b ev f, is_event ev -> (b = true -> has (c_events c) ev = true) ->
      (if decide (ev = READ) then br else bw) = b ->
      f ∈ fired_fibers b ev c -> exists fd ev, reg_at io fd ev = Some f /\ reg_at io' fd ev = None) as Hone.
    { intros b ev f Hev Hb Eb Hf. unfold fired_fibers in Hf. destruct b; [|by apply elem_of_nil in Hf].
      destruct (Hsl ev Hev (Hb eq_refl)) as [g Hg]. rewrite Hg in Hf. apply list_elem_of_singleton in Hf as ->.
      exists (Z.of_nat p), ev. rewrite Hreg, (reg_at_context io p c) by done.
      rewrite decide_True, (Hb eq_refl), Hg by done. done. }
    intros f [Hf|Hf]%elem_of_app; [by eapply (Hone br READ); [left|..]|by eapply (Hone bw WRITE); [right|..]].
  - intros Hinj. unfold fired_fibers.
    destruct br, bw; [|rewrite app_nil_r; destruct (e_fiber _); [apply NoDup_singleton|constructor]
      |destruct (e_fiber _); [apply NoDup_singleton|constructor]|constructor].
    destruct (Hsl READ ltac:(by left) (Hr eq_refl)) as [f Hf]. destruct (Hsl WRITE ltac:(by right) (Hw eq_refl)) as [g Hg].
    rewrite Hf, Hg. cbn. constructor; [|apply NoDup_singleton]. intros ->%list_elem_of_singleton.
    destruct (Hinj (Z.of_nat p) READ (Z.of_nat p) WRITE g) as [_ E]; [| |done];
      rewrite (reg_at_context io p c); [by rewrite (Hr eq_refl), Hf|by left|done|by rewrite (Hw eq_refl), Hg|by right|done].
Qed.

Section ops.
Context {K : Type} (epoll_ctl : epoll_op -> Z -> Z -> K -> bool * K).

Lemma table_add io f fd ev k :
  table_ok io -> 0 <= fd -> is_event ev -> reg_at io fd ev = None ->
  exists rt io' k', addEvent epoll_ctl fd ev None (Some iom) (f, EXEC) io k = Ok (rt, io', k') /\ table_ok io'
    /\ (rt = -1 /\ (forall x y, reg_at io' x y = reg_at io x y)
        \/ rt = 0 /\ forall x y, reg_at io' x y = if decide (x = fd /\ y = ev) then Some f else reg_at io x y).
Proof.
  intros Ht H0 Hev Hr.
  assert (exists io1, table_ok io1 /\ (forall x y, reg_at io1 x y = reg_at io x y)
    /\ (Z.to_nat fd < length (contexts io1))%nat
    /\ addEvent epoll_ctl fd ev None (Some iom) (f, EXEC) io k =
       addEvent_locked epoll_ctl (Z.to_nat fd) fd ev None (Some iom) (f, EXEC) io1 k) as (io1 & Ht1 & Hr1 & Hlt & ->).
  { unfold addEvent. destruct (Z.ltb_spec fd (Z.of_nat (length (contexts io)))) as [Hlt|Hge].
    - exists io. rewrite table_find by done. split_and!; [done|done|lia|done].
    - pose proof (tb_len io Ht). rewrite table_find_none by done.
      pose proof (Z.div_mod (fd * 3) 2 ltac:(lia)). pose proof (Z.mod_pos_bound (fd * 3) 2 ltac:(lia)).
      destruct (table_resize io (Z.to_nat (fd * 3 / 2)) Ht ltac:(lia)) as (Ht1 & Hl1 & Hr1).
      exists (ContextResize (Z.to_nat (fd * 3 / 2)) io). split_and!; [done|done|lia|].
      cbn [mbind outcome_bind]. unfold find_resize, ptr_at.
      rewrite (tb_id _ Ht1), (proj2 (Z.ltb_ge _ _)), Hl1 by lia.
      assert (seq 0 (Z.to_nat (fd * 3 / 2)) !! Z.to_nat fd = Some (Z.to_nat fd)) as -> by (apply lookup_seq; lia).
      done. }
  destruct (lookup_lt_is_Some_2 _ _ Hlt) as [c Hc].
  assert (has (c_events c) ev = false) as Hh.
  { rewrite <- Hr1, <- (Z2Nat.id fd), (reg_at_context io1 _ c) in Hr by done.
    destruct (has (c_events c) ev) eqn:E; [|done]. destruct (tb_slots io1 Ht1 _ _ _ Hc Hev E) as [g Hg].
    by rewrite Hg in Hr. }
  destruct (addEvent_spec epoll_ctl (Z.to_nat fd) fd ev None iom (f, EXEC) c io1 k (tb_io _ Ht1) Hc Hev Hh ltac:(by right))
    as (k' & [->|(io2 & -> & Hok2 & Hc2 & Hm2)]); [by exists (-1), io1, k'; split_and!; [| |left]|].
  exists 0, io2, k'. split; [done|]. cbn [fst] in Hc2.
  assert (c_events (set_context ev (EC (Some iom) (Some f) None) (set_events (Z.lor (c_events c) ev) c))
    = Z.lor (c_events c) ev) as Hce by (by destruct Hev as [-> | ->]).
  split.
  - eapply (table_put io1 io2); [done|done|done|done|]. intros y Hy. rewrite Hce, has_lor, slot_set_context by done.
    case_decide; [eauto|]. intros Hh2. destruct (tb_slots io1 Ht1 _ _ _ Hc Hy Hh2) as [g Hg]. exists g.
    by destruct Hy as [-> | ->].
  - right. split; [done|]. intros x y. destruct (decide (is_event y)) as [Hy|Hy].
    2: { rewrite !reg_at_other by done. by rewrite decide_False by (intros [_ ->]; done). }
    rewrite (reg_at_put io1 io2 _ c _ x y Hy Hc (conj Hc2 Hm2)), Hr1, Hce, has_lor, slot_set_context by done.
    rewrite Z2Nat.id by done. destruct (decide (x = fd)) as [->|].
    + destruct (decide (ev = y)) as [->|Hne]; [by rewrite decide_True|].
      rewrite decide_False by naive_solver. rewrite <- Hr1, <- (Z2Nat.id fd), (reg_at_context io1 _ c) by done.
      by destruct Hy as [-> | ->].
    + by rewrite decide_False by naive_solver.
Qed.

(** A descriptor beyond the table has no context. *)
Lemma table_context io fd :
  table_ok io -> 0 <= fd ->
  (find_existing fd io = Ok None /\ forall ev, reg_at io fd ev = None)
  \/ exists c, find_existing fd io = Ok (Some (Z.to_nat fd)) /\ contexts io !! Z.to_nat fd = Some c.
Proof.
  intros Ht H0. unfold find_existing. destruct (Z.ltb_spec fd (Z.of_nat (length (contexts io)))) as [Hlt|Hge].
  - right. destruct (lookup_lt_is_Some_2 (contexts io) (Z.to_nat fd)) as [c Hc]; [lia|].
    exists c. by rewrite table_find.
  - left. rewrite table_find_none by done. split; [done|]. intros ev.
    destruct (decide (is_event ev)) as [Hev|Hev]; [|by apply reg_at_other].
    rewrite reg_at_event, lookup_ge_None_2 by (done || lia). done.
Qed.

Lemma table_cancel io fd ev k :
  table_ok io -> 0 <= fd -> is_event ev ->
  exists b ds io' k' l, cancelEvent epoll_ctl fd ev io k = Ok (b, ds, io', k') /\ table_ok io'
    /\ jobs_of ds = map JFiber l /\ handed_out (reg_at io) (reg_at io') l
    /\ (forall x y, x <> fd \/ y <> ev -> reg_at io' x y = reg_at io x y)
    /\ ((forall op x y, (epoll_ctl op x y k).1 = true) -> reg_at io' fd ev = None
          /\ forall f, reg_at io fd ev = Some f -> l = [f]).
Proof.
  intros Ht H0 Hev. unfold cancelEvent, with_ctx.
  destruct (table_context io fd Ht H0) as [[-> Hn]|(c & -> & Hc)]; cbn [mbind outcome_bind].
  { exists false, [], io, k, []. split_and!; try done; [by apply handed_none|].
    intros _. split; [done|]. intros f Hf. by rewrite Hn in Hf. }
  destruct (cancelEvent_spec epoll_ctl (Z.to_nat fd) fd ev c io k (tb_io _ Ht) Hc Hev)
    as (b & ds & io' & k' & E & Hok & Hm & Hf & Htr). rewrite E.
  assert (reg_at io fd ev = if has (c_events c) ev then e_fiber (slot ev c) else None) as Hreg
    by (rewrite <- (Z2Nat.id fd) by done; by apply reg_at_context).
  destruct b.
  - destruct Htr as (Hh & -> & Hc'); [done|].
    assert (exists br bw, cleared ev c = fire bw WRITE (fire br READ c)
      /\ br = bool_decide (ev = READ) /\ bw = bool_decide (ev = WRITE)) as (br & bw & Ecl & Ebr & Ebw)
      by (exists (bool_decide (ev = READ)), (bool_decide (ev = WRITE)); by destruct Hev as [-> | ->]).
    rewrite Ecl in Hc'.
    destruct (table_fire io io' (Z.to_nat fd) c br bw Ht Hc) as (Ht' & Hho & Hr'); try done.
    { intros ->. symmetry in Ebr. apply bool_decide_eq_true in Ebr as ->. done. }
    { intros ->. symmetry in Ebw. apply bool_decide_eq_true in Ebw as ->. done. }
    destruct (tb_slots io Ht _ _ _ Hc Hev Hh) as [f Hs].
    assert (fired_fibers br READ c ++ fired_fibers bw WRITE c = [f]) as El.
    { unfold fired_fibers. destruct Hev as [-> | ->]; subst br bw; rewrite Hs; reflexivity. }
    rewrite El in Hho. exists true, (task_of (slot ev c)), io', k', [f].
    split_and!; try done; [by rewrite Hs| |].
    + intros x y Hxy. destruct (decide (is_event y)) as [Hy|Hy]; [|by rewrite !reg_at_other].
      rewrite Hr', Z2Nat.id by done. rewrite decide_False; [done|]. intros [-> Hb]. destruct Hxy as [|Hxy]; [done|].
      subst br bw. destruct Hev as [-> | ->], Hy as [-> | ->]; done.
    + intros _. rewrite Hr', Z2Nat.id by done. split.
      * rewrite decide_True; [done|]. split; [done|]. subst br bw. by destruct Hev as [-> | ->].
      * intros g. rewrite Hreg, Hh, Hs. by intros [= ->].
  - destruct Hf as [-> ->]; [done|]. exists false, [], io, k', []. split_and!; try done; [by apply handed_none|].
    intros Hok'. destruct (has (c_events c) ev) eqn:Hh; [|by rewrite Hreg].
    exfalso. unfold cancelEvent_locked, unregister, context_at in E. rewrite Hc in E.
    cbn [deref mbind outcome_bind] in E. rewrite Hh in E. cbn [negb] in E.
    specialize (Hok' (mod_or_del (without (c_events c) ev)) fd (Z.lor EPOLLET (without (c_events c) ev))).
    destruct (epoll_ctl _ _ _ k) as [o k2]. simpl in Hok'. subst o. cbn [mbind outcome_bind] in E.
    apply bind_ok in E as ([c2 ds2] & _ & E). done.
Qed.

Lemma table_cancelAll io fd k :
  table_ok io -> 0 <= fd ->
  exists b ds io' k' l, cancelAll epoll_ctl fd io k = Ok (b, ds, io', k') /\ table_ok io'
    /\ jobs_of ds = map JFiber l /\ handed_out (reg_at io) (reg_at io') l.
Proof.
  intros Ht H0. unfold cancelAll, with_ctx.
  destruct (table_context io fd Ht H0) as [[-> Hn]|(c & -> & Hc)]; cbn [mbind outcome_bind].
  { exists false, [], io, k, []. split_and!; try done. by apply handed_none. }
  destruct (cancelAll_spec epoll_ctl (Z.to_nat fd) fd c io k (tb_io _ Ht) Hc) as (io' & k' & -> & Hok & Hm & _ & Hc').
  destruct (table_fire io io' (Z.to_nat fd) c (has (c_events c) READ) (has (c_events c) WRITE) Ht Hc) as (Ht' & Hho & _);
    try done.
  eexists _, _, io', k', _. split_and!; [done|done| |exact Hho].
  unfold all_tasks, jobs_of. rewrite map_app, concat_app, map_app.
  f_equal; eapply (fired_jobs io); try done; [by left|by right].
Qed.

Lemma table_report io p c mask k :
  table_ok io -> contexts io !! p = Some c ->
  (has (real_events_of c mask) READ = true -> has (c_events c) READ = true) ->
  (has (real_events_of c mask) WRITE = true -> has (c_events c) WRITE = true) ->
  exists ds io' k' l, process_event epoll_ctl p mask io k = Ok (ds, io', k') /\ table_ok io'
    /\ jobs_of ds = map JFiber l /\ handed_out (reg_at io) (reg_at io') l.
Proof.
  intros Ht Hc Hr Hw.
  destruct (process_event_spec epoll_ctl p mask c io k (tb_io _ Ht) Hc Hr Hw)
    as (ds & io' & k' & -> & Hok & Hm & [[[-> ->] _]|[-> Hc']]).
  { exists [], io, k', []. split_and!; try done. by apply handed_none. }
  destruct (table_fire io io' p c _ _ Ht Hc Hr Hw (conj Hc' Hm) Hok) as (Ht' & Hho & _).
  eexists _, io', k', _. split_and!; [done|done| |exact Hho].
  unfold jobs_of. rewrite map_app, concat_app, map_app.
  f_equal; eapply (fired_jobs io); try done; [by left|by right].
Qed.
End ops.
End table.

(** ** Wake-ups *)

Section wakeups.
Context {K : Type}.
Implicit Type frames : gmap nat (frame K).

Definition at_place (fr : frame K) (fd ev : Z) : Prop := w_fd (fr_wait fr) = fd /\ w_event (fr_wait fr) = ev.

(** Every waiting fiber is registered where it waits or queued, not both. *)
Record wakes (r : Z -> Z -> option nat) frames (qf : list nat) : Prop := {
  wk_reg : forall fd ev f, r fd ev = Some f -> exists fr, frames !! f = Some fr /\ at_place fr fd ev;
  wk_frame : forall f fr, frames !! f = Some fr ->
    (r (w_fd (fr_wait fr)) (w_event (fr_wait fr)) = Some f /\ f ∉ qf)
    \/ (r (w_fd (fr_wait fr)) (w_event (fr_wait fr)) <> Some f /\ f ∈ qf);
  wk_once : NoDup qf;
  wk_queue : forall f, f ∈ qf -> is_Some (frames !! f);
}.

Lemma wakes_inj r frames qf :
  wakes r frames qf ->
  forall fd ev fd' ev' f, r fd ev = Some f -> r fd' ev' = Some f -> fd = fd' /\ ev = ev'.
Proof.
  intros Hw fd ev fd' ev' f H1 H2. destruct (wk_reg _ _ _ Hw _ _ _ H1) as (fr & Hf & [Hpx Hpy]); subst.
  destruct (wk_reg _ _ _ Hw _ _ _ H2) as (fr' & Hf' & [Hpx' Hpy']); subst. by simplify_eq.
Qed.

(** Fibers that leave the table enter the queue. *)
Lemma wakes_handed r r' frames qf l :
  wakes r frames qf -> handed_out r r' l -> wakes r' frames (qf ++ l).
Proof.
  intros Hw [H1 H2 H3 H4]. specialize (H4 (wakes_inj _ _ _ Hw)). constructor.
  - intros fd ev f Hf. destruct (H1 fd ev) as [E|E]; [|congruence]. rewrite E in Hf. by eapply wk_reg.
  - intros f fr Hf. set (x := w_fd (fr_wait fr)). set (y := w_event (fr_wait fr)).
    destruct (wk_frame _ _ _ Hw f fr Hf) as [[Hr Hq]|[Hr Hq]]; fold x y in Hr.
    + destruct (H1 x y) as [E|E].
      * left. split; [congruence|]. intros [?|Hl]%elem_of_app; [done|].
        destruct (H3 f Hl) as (x' & y' & Hx & Hn). destruct (wakes_inj _ _ _ Hw _ _ _ _ _ Hr Hx) as [-> ->]. congruence.
      * right. split; [by rewrite E|]. apply elem_of_app. right. by eapply H2.
    + right. split; [|apply elem_of_app; by left]. destruct (H1 x y) as [-> | ->]; done.
  - apply NoDup_app. split_and!; [apply Hw| |done]. intros f Hq Hl.
    destruct (H3 f Hl) as (x & y & Hx & _). destruct (wk_reg _ _ _ Hw _ _ _ Hx) as (fr & Hf & [Hpx Hpy]); subst.
    destruct (wk_frame _ _ _ Hw f fr Hf) as [[_ ?]|[? _]]; done.
  - intros f [?|Hl]%elem_of_app; [by eapply wk_queue|].
    destruct (H3 f Hl) as (x & y & Hx & _). destruct (wk_reg _ _ _ Hw _ _ _ Hx) as (fr & Hf & _). eauto.
Qed.

(** A queued fiber begins to run. *)
Lemma wakes_run r frames qf qf' f :
  wakes r frames qf -> f ∈ qf -> qf ≡ₚ f :: qf' ->
  wakes r (delete f frames) qf' /\ (f ∉ qf').
Proof.
  intros Hw Hf Hp. pose proof (wk_once _ _ _ Hw) as Hnd. rewrite Hp in Hnd. apply NoDup_cons in Hnd as [Hn Hnd].
  assert (forall fd ev, r fd ev <> Some f) as Hno.
  { intros fd ev H. destruct (wk_reg _ _ _ Hw _ _ _ H) as (fr & Hfr & [Hpx Hpy]); subst.
    destruct (wk_frame _ _ _ Hw f fr Hfr) as [[_ ?]|[? _]]; done. }
  assert (forall g, g <> f -> g ∈ qf <-> g ∈ qf') as Hq by (intros g Hg; rewrite Hp, elem_of_cons; naive_solver).
  split; [|done]. constructor.
  - intros fd ev g Hg. destruct (wk_reg _ _ _ Hw _ _ _ Hg) as (fr & Hfr & Hpl).
    exists fr. rewrite lookup_delete_ne; [done|]. intros <-. by eapply Hno.
  - intros g fr. destruct (decide (g = f)) as [->|Hne]; [by rewrite lookup_delete_eq|].
    rewrite lookup_delete_ne by done. intros Hg. rewrite <- Hq by done. by apply (wk_frame _ _ _ Hw).
  - done.
  - intros g Hg. destruct (decide (g = f)) as [->|Hne]; [done|]. rewrite lookup_delete_ne by done.
    apply (wk_queue _ _ _ Hw). by apply Hq.
Qed.

(** A running fiber registers. *)
Lemma wakes_wait r r' frames qf f fr :
  wakes r frames qf -> frames !! f = None -> f ∉ qf ->
  (forall x y, r' x y = if decide (x = w_fd (fr_wait fr) /\ y = w_event (fr_wait fr)) then Some f else r x y) ->
  r (w_fd (fr_wait fr)) (w_event (fr_wait fr)) = None ->
  wakes r' (<[f := fr]> frames) qf.
Proof.
  intros Hw Hn Hq Hr' Hr. constructor.
  - intros x y g. rewrite Hr'. case_decide as E.
    + intros [= <-]. exists fr. rewrite lookup_insert_eq. destruct E as [-> ->]. done.
    + intros Hg. destruct (wk_reg _ _ _ Hw _ _ _ Hg) as (fr' & Hfr & Hpl). exists fr'.
      rewrite lookup_insert_ne; [done|]. congruence.
  - intros g fr'. destruct (decide (g = f)) as [->|Hne].
    + rewrite lookup_insert_eq. intros [= <-]. left. rewrite Hr', decide_True by done. done.
    + rewrite lookup_insert_ne by done. intros Hg. rewrite Hr'.
      destruct (wk_frame _ _ _ Hw g fr' Hg) as [[H1 H2]|[H1 H2]].
      * left. split; [|done]. rewrite decide_False; [done|]. intros [E1 E2]. congruence.
      * right. split; [|done]. case_decide; [congruence|done].
  - apply Hw.
  - intros g Hg. apply lookup_insert_is_Some'. right. by apply (wk_queue _ _ _ Hw).
Qed.

Lemma wakes_ext r r' frames qf : wakes r frames qf -> (forall x y, r' x y = r x y) -> wakes r' frames qf.
Proof.
  intros Hw E. replace qf with (qf ++ []) by apply app_nil_r. eapply wakes_handed; [done|]. by apply handed_none.
Qed.
End wakeups.
