(* ===== verification/HookTheorems.v ===== *)
(** * What the hooked calls guarantee

    On a worker with one thread: every waiting call is woken exactly once, no
    assertion fails, and a call with a timeout comes back. *)

From stdpp Require Import base list gmap relations.
From Stdlib Require Import ZArith Lia.
From S2P Require Import Prelude Timer TimerTheorems FdManager Fiber Scheduler SchedulerTheorems IOManager IOManagerTheorems Hook HookSystem HookWakeups.

Local Open Scope Z_scope.

Section invariant.
Context {K : Type} (epoll_ctl : epoll_op -> Z -> Z -> K -> bool * K).
Context (so_error : Z -> K -> Z * Z * Z * K).
Context (iom fuel : nat).

Notation frames := (gmap nat (frame K)).
Notation place fr := (w_fd (fr_wait fr), w_event (fr_wait fr)).
Notation info fr := (w_info (fr_wait fr)).

(** The function of the timer at [a]. *)
Definition timeout_cb (a : nat) (fn : timeout_fn) : Timer.callback := OnTimer (f_winfo fn) (Some (Fn a)).

(** Every timer is a timeout, every timeout belongs to one call, and the timer
    of a call that has not timed out is armed or about to run. *)
Record armed (s : hooks) (fs : frames) (q : list job) : Prop := {
  ar_wf : timers_wf (h_timers s);
  ar_heap : forall a t, heap (h_timers s) !! a = Some t -> m_recurring t = false
    /\ forall cb, Timer.m_cb t = Some cb -> exists fn, h_fns s !! a = Some fn /\ cb = timeout_cb a fn;
  ar_jobs : forall cb, JFn cb ∈ q -> exists a fn, h_fns s !! a = Some fn /\ cb = timeout_cb a fn;
  ar_fns : forall a fn, h_fns s !! a = Some fn -> is_Some (heap (h_timers s) !! a)
    /\ is_Some (h_infos s !! f_winfo fn) /\ 0 <= f_fd fn /\ is_event (f_event fn);
  ar_own : forall a fn f fr, h_fns s !! a = Some fn -> fs !! f = Some fr -> info fr = f_winfo fn ->
    at_place fr (f_fd fn) (f_event fn);
  ar_info : forall f fr, fs !! f = Some fr -> (exists c, h_infos s !! info fr = Some (Info true c))
    /\ 0 <= w_fd (fr_wait fr) /\ is_event (w_event (fr_wait fr));
  ar_once : forall f g fr fr', fs !! f = Some fr -> fs !! g = Some fr' ->
    info fr = info fr' \/ place fr = place fr' -> f = g;
  ar_timer : forall f fr a, fs !! f = Some fr -> w_timer (fr_wait fr) = Some a ->
    h_fns s !! a = Some (TFn (info fr) (w_fd (fr_wait fr)) (w_event (fr_wait fr)))
    /\ (cancelled (info fr) s = 0 ->
        (exists t, heap (h_timers s) !! a = Some t /\ Timer.m_cb t <> None)
        \/ JFn (OnTimer (info fr) (Some (Fn a))) ∈ q);
  ar_never : forall f fr, fs !! f = Some fr -> w_timer (fr_wait fr) = None -> w_to (fr_wait fr) = NEVER;
  ar_fds : forall i p, m_datas (h_fds s) !! i = Some (Some p) -> is_Some (ctxs (h_fds s) !! p);
}.

(** With an [epoll_ctl] that works, a call that has timed out is not left in
    the table. *)
Definition works : Prop := forall op fd ev k, (epoll_ctl op fd ev k).1 = true.
Definition prompt (s : hooks) (fs : frames) : Prop :=
  works -> forall f fr, fs !! f = Some fr ->
    reg_at (h_io s) (w_fd (fr_wait fr)) (w_event (fr_wait fr)) = Some f -> cancelled (info fr) s = 0.

Record inv (y : worker K) : Prop := {
  v_table : table_ok iom (h_io (y_hooks y));
  v_wakes : wakes (reg_at (h_io (y_hooks y))) (y_frames y) (fibers_in (y_queue y));
  v_armed : armed (y_hooks y) (y_frames y) (y_queue y);
  v_prompt : prompt (y_hooks y) (y_frames y);
}.

(** ** Queues *)

Lemma fibers_in_app q q' : fibers_in (q ++ q') = fibers_in q ++ fibers_in q'.
Proof. apply omap_app. Qed.
Lemma fibers_in_fibers l : fibers_in (map JFiber l) = l.
Proof.
  induction l as [|f l IH]; [done|].
  change (fibers_in (map JFiber (f :: l))) with (f :: fibers_in (map JFiber l)). by rewrite IH.
Qed.
Lemma fn_in_fibers cb l : JFn cb ∉ map JFiber l.
Proof. intros (f & ? & _)%list_elem_of_fmap. done. Qed.

Lemma armed_queue s fs q q' :
  armed s fs q -> (forall cb, JFn cb ∈ q' <-> JFn cb ∈ q) -> armed s fs q'.
Proof.
  intros [] Hq. constructor; try done.
  - intros cb Hcb. apply ar_jobs0, Hq, Hcb.
  - intros f fr a Hf Ha. destruct (ar_timer0 f fr a Hf Ha) as [H1 H2]. split; [done|]. intros H.
    destruct (H2 H) as [?|?]; [by left|right]. by apply Hq.
Qed.

Lemma queue_app_fibers q l cb : JFn cb ∈ q ++ map JFiber l <-> JFn cb ∈ q.
Proof. rewrite elem_of_app. pose proof (fn_in_fibers cb l). naive_solver. Qed.

(** A step in which the table hands fibers to the queue. *)
Lemma inv_handed s s' k k' y l :
  inv y -> y_hooks y = s -> table_ok iom (h_io s') -> handed_out (reg_at (h_io s)) (reg_at (h_io s')) l ->
  armed s' (y_frames y) (y_queue y) ->
  (works -> forall f fr, y_frames y !! f = Some fr ->
    reg_at (h_io s') (w_fd (fr_wait fr)) (w_event (fr_wait fr)) = Some f -> cancelled (info fr) s' = 0) ->
  inv (enqueue (map JFiber l) s' k' (Worker s (y_frames y) (y_queue y) (y_done y) k)).
Proof.
  intros [Ht Hw Ha Hp] <- Ht' Hho Ha' Hp'. constructor; cbn.
  - done.
  - rewrite fibers_in_app, fibers_in_fibers. by eapply wakes_handed.
  - eapply armed_queue; [done|]. intros cb. apply queue_app_fibers.
  - done.
Qed.

Lemma prompt_less s s' fs :
  prompt s fs -> (forall x y, reg_at (h_io s') x y = reg_at (h_io s) x y \/ reg_at (h_io s') x y = None) ->
  h_infos s' = h_infos s -> prompt s' fs.
Proof.
  intros Hp Hr Hi Hw f fr Hf Hreg. unfold cancelled. rewrite Hi.
  destruct (Hr (w_fd (fr_wait fr)) (w_event (fr_wait fr))) as [E|E]; [|congruence].
  rewrite E in Hreg. by apply (Hp Hw f).
Qed.

(** ** Timers *)

(** Expiry: the timers that are due move to the queue. *)
Lemma listExpiredCb_heap a now tm :
  timers_wf tm -> exists tm', listExpiredCb a now tm = Ok (map (cb_of (heap tm)) (expired_at now tm), tm') /\ timers_wf tm'
    /\ forall b, heap tm' !! b = if decide (b ∈ expired_at now tm) then fired now <$> heap tm !! b else heap tm !! b.
Proof.
  intros Hwf. unfold listExpiredCb, hasTimer. destruct (m_timers tm) as [|x l] eqn:E.
  - exists tm. assert (expired_at now tm = []) as -> by (unfold expired_at; rewrite E; by destruct (rollover now tm)).
    done.
  - destruct (listExpiredCb_body_spec a now tm Hwf) as (tm' & ? & ? & _ & ?); [by rewrite E|]. eauto.
Qed.

Lemma armed_expire s fs q a now :
  armed s fs q ->
  exists cbs tm', listExpiredCb a now (h_timers s) = Ok (cbs, tm') /\ fibers_in (omap (fmap JFn) cbs) = []
    /\ armed (set_tm tm' s) fs (q ++ omap (fmap JFn) cbs)
    /\ (forall b t, heap (h_timers s) !! b = Some t -> Timer.m_cb t <> None -> b ∈ expired_at now (h_timers s) ->
        exists fn, h_fns s !! b = Some fn /\ JFn (timeout_cb b fn) ∈ omap (fmap JFn) cbs)
    /\ (forall b, is_Some (heap tm' !! b) <-> is_Some (heap (h_timers s) !! b)).
Proof.
  intros Ha. pose proof (ar_wf _ _ _ Ha) as Hwf.
  destruct (listExpiredCb_heap a now (h_timers s) Hwf) as (tm' & -> & Hwf' & Hh).
  set (E := expired_at now (h_timers s)) in *. set (cbs := map (cb_of (heap (h_timers s))) E).
  assert (forall j, j ∈ omap (fmap JFn) cbs -> exists b cb, b ∈ E /\ cb_of (heap (h_timers s)) b = Some cb /\ j = JFn cb) as Hin.
  { intros j (o & Ho & Hj)%list_elem_of_omap. apply list_elem_of_fmap in Ho as (b & -> & Hb).
    destruct (cb_of _ b) as [cb|] eqn:Ecb; [|done]. simpl in Hj. simplify_eq. eauto. }
  assert (forall b t, heap (h_timers s) !! b = Some t -> Timer.m_cb t <> None -> b ∈ E ->
        exists fn, h_fns s !! b = Some fn /\ JFn (timeout_cb b fn) ∈ omap (fmap JFn) cbs) as Hput.
  { intros b t Hb Hcb HE. destruct (ar_heap _ _ _ Ha b t Hb) as [_ Hf].
    destruct (Timer.m_cb t) as [cb|] eqn:Ecb; [|done]. destruct (Hf cb eq_refl) as (fn & Hfn & ->).
    exists fn. split; [done|]. apply list_elem_of_omap. exists (Some (timeout_cb b fn)). split; [|done].
    apply list_elem_of_fmap. exists b. split; [|done]. unfold cb_of. rewrite Hb. simpl. by rewrite Ecb. }
  exists cbs, tm'. split_and!; [done| | |done|].
  - apply elem_of_nil_inv. intros f (j & Hj & Hf)%list_elem_of_omap.
    destruct (Hin j Hj) as (b & cb & _ & _ & ->). done.
  - destruct Ha as [A1 A2 A3 A4 A5 A6 A7 A8 A9 A10]. constructor; try done; cbn.
    + intros b t. rewrite Hh. case_decide; [|apply A2].
      destruct (heap (h_timers s) !! b) as [t0|] eqn:Eb; [|done]. intros [= <-].
      destruct (A2 b t0 Eb) as [Hr _]. unfold fired. rewrite Hr. by split.
    + intros cb [H|H]%elem_of_app; [by apply A3|]. destruct (Hin _ H) as (b & cb' & _ & Hcb & [= <-]).
      unfold cb_of in Hcb. destruct (heap (h_timers s) !! b) as [t|] eqn:Eb; [|done].
      destruct (A2 b t Eb) as [_ Hf]. destruct (Hf cb Hcb) as (fn & ? & ?). eauto.
    + intros b fn Hb. destruct (A4 b fn Hb) as (H1 & ?). split; [|done]. rewrite Hh.
      case_decide; [|done]. destruct H1 as [t ->]. by eexists.
    + intros f fr b Hf Hb. destruct (A8 f fr b Hf Hb) as [H1 H2]. split; [done|]. intros Hc.
      destruct (H2 Hc) as [(t & Ht & Hcb)|Hq]; [|right; apply elem_of_app; by left].
      destruct (decide (b ∈ E)) as [HE|HE]; [right|left].
      * destruct (Hput b t Ht Hcb HE) as (fn & Hfn & Hj). rewrite H1 in Hfn. injection Hfn as <-.
        apply elem_of_app. by right.
      * exists t. rewrite Hh. by rewrite decide_False.
  - intros b. rewrite Hh. case_decide; [|done]. destruct (heap (h_timers s) !! b); simpl; split; intros []; eauto.
Qed.

Lemma armed_arm s fs q a now to ti fd ev :
  armed s fs q -> heap (h_timers s) !! a = None -> is_Some (h_infos s !! ti) -> 0 <= fd -> is_event ev ->
  (forall f fr, fs !! f = Some fr -> info fr <> ti) ->
  let x := arm a now to ti fd ev s in
  x.1 = (if to =? NEVER then None else Some a) /\ armed x.2 fs q
  /\ h_io x.2 = h_io s /\ h_infos x.2 = h_infos s /\ h_fds x.2 = h_fds s
  /\ (forall t, x.1 = Some t -> t = a /\ h_fns x.2 !! a = Some (TFn ti fd ev)
       /\ exists t, heap (h_timers x.2) !! a = Some t /\ Timer.m_cb t <> None)
  /\ (forall b fn, b <> a -> h_fns x.2 !! b = Some fn -> h_fns s !! b = Some fn)
  /\ (forall b, b <> a -> heap (h_timers x.2) !! b = heap (h_timers s) !! b)
  /\ (x.1 = None -> x.2 = s).
Proof.
  intros Ha Hn Hti Hfd Hev Hno. unfold arm. destruct (to =? NEVER); [by split_and!|].
  assert (h_fns s !! a = None) as Hfa.
  { destruct (h_fns s !! a) as [fn|] eqn:E; [|done]. destruct (ar_fns _ _ _ Ha a fn E) as ([t Ht] & _). congruence. }
  unfold addConditionTimer. pose proof (addTimer_wf a now to (Some (OnTimer ti (Some (Fn a)))) false _ (ar_wf _ _ _ Ha) Hn) as Hwf.
  unfold addTimer in *. set (t := Timer.Timer false to (u64 (now + to)) (Some (OnTimer ti (Some (Fn a))))) in *.
  rewrite (surjective_pairing (addTimer_locked a _)). rewrite addTimer_locked_state in Hwf |- *.
  set (tm := TM _ _ _ _) in *. assert (heap tm = <[a := t]> (heap (h_timers s))) as Eh by done.
  clearbody tm. cbn.
  destruct Ha as [A1 A2 A3 A4 A5 A6 A7 A8 A9 A10]. split_and!; try done.
  - constructor; try done; cbn; rewrite ?Eh.
    + intros b u. destruct (decide (b = a)) as [->|Hne].
      * rewrite lookup_insert_eq. intros [= <-]. split; [done|]. intros cb [= <-].
        exists (TFn ti fd ev). by rewrite lookup_insert_eq.
      * rewrite !lookup_insert_ne by done. apply A2.
    + intros cb Hcb. destruct (A3 cb Hcb) as (b & fn & Hb & ->). exists b, fn.
      rewrite lookup_insert_ne by congruence. done.
    + intros b fn. destruct (decide (b = a)) as [->|Hne].
      * rewrite !lookup_insert_eq. intros [= <-]. by split_and!.
      * rewrite !lookup_insert_ne by done. apply A4.
    + intros b fn f fr. destruct (decide (b = a)) as [->|Hne].
      * rewrite lookup_insert_eq. intros [= <-] Hf Hi. by apply Hno in Hf.
      * rewrite lookup_insert_ne by done. apply A5.
    + intros f fr b Hf Hb. destruct (A8 f fr b Hf Hb) as [H1 H2].
      assert (b <> a) by congruence. rewrite !lookup_insert_ne by done. done.
  - intros b [= <-]. split; [done|]. rewrite Eh, !lookup_insert_eq. split; [done|]. by exists t.
  - intros b fn Hb. by rewrite lookup_insert_ne.
  - intros b Hb. by rewrite Eh, lookup_insert_ne.
Qed.

Lemma armed_disarm s fs q o :
  armed s fs q -> (forall a, o = Some a -> is_Some (heap (h_timers s) !! a)) ->
  (forall f fr a, fs !! f = Some fr -> o = Some a -> w_timer (fr_wait fr) <> Some a) ->
  exists s', disarm o s = Ok s' /\ armed s' fs q
    /\ h_io s' = h_io s /\ h_infos s' = h_infos s /\ h_fns s' = h_fns s /\ h_fds s' = h_fds s
    /\ (forall b, heap (h_timers s) !! b = None -> heap (h_timers s') !! b = None).
Proof.
  intros Ha Hh Hno. destruct o as [a|]; [|by exists s]. destruct (Hh a eq_refl) as [t Ht]. unfold disarm.
  destruct (cancel_spec a t (h_timers s) (ar_wf _ _ _ Ha) Ht) as (tm & -> & Hwf & Hs & Hd). cbn [mbind outcome_bind].
  exists (set_tm tm s). split; [done|].
  assert (forall b, b <> a -> heap tm !! b = heap (h_timers s) !! b) as Hb.
  { intros b Hne. destruct (decide (Timer.m_cb t = None)) as [E|E]; [by rewrite Hs|].
    destruct (Hd E) as [-> _]. by rewrite lookup_insert_ne. }
  assert (exists t', heap tm !! a = Some t' /\ m_recurring t' = m_recurring t /\ Timer.m_cb t' = None) as (t' & Ht' & Hr & Hn).
  { destruct (decide (Timer.m_cb t = None)) as [E|E]; [rewrite Hs by done; eauto|].
    destruct (Hd E) as [-> _]. rewrite lookup_insert_eq. eauto. }
  split_and!; try done.
  - destruct Ha as [A1 A2 A3 A4 A5 A6 A7 A8 A9 A10]. constructor; try done; cbn.
    + intros b u. destruct (decide (b = a)) as [->|Hne]; [|rewrite Hb by done; apply A2].
      rewrite Ht'. intros [= <-]. rewrite Hr, Hn. split; [apply (A2 a t Ht)|done].
    + intros b fn Hfn. destruct (A4 b fn Hfn) as (H1 & ?). split; [|done].
      destruct (decide (b = a)) as [->|Hne]; [by rewrite Ht'|by rewrite Hb].
    + intros f fr b Hf Htm. destruct (A8 f fr b Hf Htm) as [H1 H2]. split; [done|].
      assert (b <> a) by (intros ->; by eapply Hno). by rewrite Hb.
  - intros b Hbn. cbn. destruct (decide (b = a)) as [->|Hne]; [congruence|by rewrite Hb].
Qed.

Lemma armed_release s fs q ti :
  armed s fs q -> (forall f fr, fs !! f = Some fr -> info fr <> ti) -> armed (release ti s) fs q.
Proof.
  intros Ha Hno. unfold release. destruct (h_infos s !! ti) as [i|] eqn:E; [|done].
  destruct Ha as [A1 A2 A3 A4 A5 A6 A7 A8 A9 A10]. constructor; try done; cbn.
  - intros a fn Hfn. destruct (A4 a fn Hfn) as (H1 & H2 & H3). split; [exact H1|]. split; [|exact H3].
    apply lookup_insert_is_Some'. by right.
  - intros f fr Hf. rewrite lookup_insert_ne by (pose proof (Hno f fr Hf); congruence). by apply (A6 f).
  - intros f fr a Hf Htm. destruct (A8 f fr a Hf Htm) as [H1 H2]. split; [done|].
    unfold cancelled in *. cbn. rewrite lookup_insert_ne by (pose proof (Hno f fr Hf); congruence). done.
Qed.

(** ** A call that runs *)

(** The worker while fiber [f] runs a call with [timer_info] [ti] that may wait
    for [ev] of [fd]. *)
Record running_call (f : nat) (fd ev : Z) (ti : nat) (y : worker K) : Prop := {
  rn_inv : inv y;
  rn_free : free f y;
  rn_fd : 0 <= fd;
  rn_ev : is_event ev;
  rn_info : h_infos (y_hooks y) !! ti = Some (Info true 0);
  rn_other : forall g fr, y_frames y !! g = Some fr -> info fr <> ti /\ place fr <> (fd, ev);
  rn_fns : forall a fn, h_fns (y_hooks y) !! a = Some fn -> f_winfo fn = ti -> f_fd fn = fd /\ f_event fn = ev;
}.

Lemma running_unregistered f fd ev ti y :
  running_call f fd ev ti y -> reg_at (h_io (y_hooks y)) fd ev = None.
Proof.
  intros [Hi _ _ _ _ Ho _]. destruct (reg_at _ fd ev) as [g|] eqn:E; [|done].
  destruct (wk_reg _ _ _ (v_wakes _ Hi) _ _ _ E) as (fr & Hg & H1 & H2).
  destruct (Ho g fr Hg) as [_ H]. congruence.
Qed.

(** The call returns. *)
Lemma inv_returned f fd ev ti fn y n e s k :
  running_call f fd ev ti y -> table_ok iom (h_io s) ->
  (forall x y', reg_at (h_io s) x y' = reg_at (h_io (y_hooks y)) x y') ->
  armed s (y_frames y) (y_queue y) -> h_infos s = h_infos (y_hooks y) ->
  inv (called f fn y (Returned n e, release ti s, k)).
Proof.
  intros [Hi [Hf Hq] _ _ _ Ho _] Ht Hr Ha Hinf.
  assert (h_io (release ti s) = h_io s) as Eio by (unfold release; by destruct (h_infos s !! ti)).
  constructor; cbn; rewrite ?Eio, ?delete_id by done.
  - done.
  - eapply wakes_ext; [apply Hi|]. done.
  - apply armed_release; [done|]. intros g fr Hg. by apply (Ho g fr).
  - intros Hw g fr Hg. rewrite Eio. intros Hreg. destruct (Ho g fr Hg) as [Hne _].
    assert (cancelled (info fr) (release ti s) = cancelled (info fr) (y_hooks y)) as ->.
    { unfold release, cancelled. rewrite Hinf. destruct (h_infos (y_hooks y) !! ti); cbn; [|by rewrite Hinf].
      by rewrite Hinf, lookup_insert_ne. }
    rewrite Hr in Hreg. by apply (v_prompt _ Hi Hw g).
Qed.

(** Arming the timer and registering: the fiber waits, or the timer goes. *)
Lemma register_inv f fd ev ti fn y a now to :
  running_call f fd ev ti y -> fresh a y ->
  let x := arm a now to ti fd ev (y_hooks y) in
  exists rt io k, addEvent epoll_ctl fd ev None (Some iom) (f, EXEC) (h_io x.2) (y_kern y) = Ok (rt, io, k)
    /\ x.1 = (if to =? NEVER then None else Some a)
    /\ (rt = 0 /\ inv (called f fn y (Waits (Wait fd ev to ti x.1), set_io io x.2, k))
        \/ rt = -1 /\ exists s, disarm x.1 (set_io io x.2) = Ok s
             /\ forall n e k', inv (called f fn y (Returned n e, release ti s, k'))).
Proof.
  intros Hrun Hfr x. pose proof Hrun as [Hi [Hf Hq] Hfd Hev Hinf Ho Hfns].
  destruct (armed_arm (y_hooks y) (y_frames y) (y_queue y) a now to ti fd ev (v_armed _ Hi) Hfr
    (mk_is_Some _ _ Hinf) Hfd Hev (fun g fr Hg => proj1 (Ho g fr Hg)))
    as (Hx1 & Ha & Eio & Einf & Efds & Htm & Hfn2 & Hh2 & _).
  fold x in Hx1, Ha, Eio, Einf, Efds, Htm, Hfn2, Hh2.
  pose proof (running_unregistered _ _ _ _ _ Hrun) as Hnr.
  destruct (table_add iom epoll_ctl (h_io x.2) f fd ev (y_kern y)) as (rt & io & k & E & Ht & Hcase);
    [rewrite Eio; apply Hi|done|done|by rewrite Eio|].
  exists rt, io, k. split; [exact E|]. split; [done|]. rewrite Eio in Hcase.
  destruct Hcase as [[-> Hsame]|[-> Hreg]]; [right|left]; (split; [done|]).
  - destruct (armed_disarm (set_io io x.2) (y_frames y) (y_queue y) x.1) as (s & -> & Ha' & E1 & E2 & _).
    + by destruct Ha.
    + intros t Et. destruct (Htm t Et) as (-> & _ & t0 & H & _). cbn. by rewrite H.
    + intros g fr t Hg Et Hwt. destruct (Htm t Et) as (-> & _ & _).
      destruct (ar_timer _ _ _ (v_armed _ Hi) g fr a Hg Hwt) as [Hfa _].
      destruct (ar_fns _ _ _ (v_armed _ Hi) a _ Hfa) as ([? H] & _). unfold fresh in Hfr. congruence.
    + exists s. split; [done|]. intros n e k'. eapply inv_returned; try done.
      * by rewrite E1.
      * intros. rewrite E1. apply Hsame.
      * rewrite E2. cbn. done.
  - set (fr := Frame fn (Wait fd ev to ti x.1)). constructor; cbn.
    + done.
    + eapply (wakes_wait _ _ _ _ f fr); [apply Hi|done|done|exact Hreg|done].
    + destruct Ha as [A1 A2 A3 A4 A5 A6 A7 A8 A9 A10]. constructor; try done; cbn.
      * intros b fn' g fr' Hb. destruct (decide (g = f)) as [->|Hne].
        -- rewrite lookup_insert_eq. intros [= <-]. cbn. intros Hti.
           destruct (decide (b = a)) as [->|Hba].
           ++ destruct (x.1) as [t|] eqn:Ex.
              ** destruct (Htm t eq_refl) as (_ & Hfa & _). cbn in Hb. rewrite Hfa in Hb. by injection Hb as <-.
              ** exfalso. destruct (A4 a fn' Hb) as ([? Hha] & _). cbn in Hha.
                 unfold fresh in Hfr. assert (x.2 = y_hooks y) as Ex2; [|rewrite Ex2 in Hha; congruence].
                 unfold x in Ex |- *. unfold arm in Ex |- *. destruct (to =? NEVER); [done|].
                 by destruct (addConditionTimer _ _ _ _ _ _ _).
           ++ destruct (Hfns b fn' (Hfn2 b fn' Hba Hb) (eq_sym Hti)) as [<- <-]. done.
        -- rewrite lookup_insert_ne by done. by eapply A5.
      * intros g fr'. destruct (decide (g = f)) as [->|Hne].
        -- rewrite lookup_insert_eq. intros [= <-]. cbn. rewrite Einf, Hinf. split; [eauto|done].
        -- rewrite lookup_insert_ne by done. apply A6.
      * intros g h fr1 fr2. destruct (decide (g = f)) as [->|Hgf], (decide (h = f)) as [->|Hhf]; try done;
          rewrite ?lookup_insert_eq, ?lookup_insert_ne by done.
        -- intros [= <-] Hh Hor. destruct (Ho h fr2 Hh) as [H1 H2]. cbn in Hor. destruct Hor; congruence.
        -- intros Hg [= <-] Hor. destruct (Ho g fr1 Hg) as [H1 H2]. cbn in Hor. destruct Hor; congruence.
        -- by apply A7.
      * intros g fr' b. destruct (decide (g = f)) as [->|Hne].
        -- rewrite lookup_insert_eq. intros [= <-]. cbn. intros Hb.
           destruct (Htm b Hb) as (-> & Hfa & Ht'). split; [done|]. intros _. by left.
        -- rewrite lookup_insert_ne by done. apply A8.
      * intros g fr'. destruct (decide (g = f)) as [->|Hne].
        -- rewrite lookup_insert_eq. intros [= <-]. cbn. rewrite Hx1. by destruct (Z.eqb_spec to NEVER).
        -- rewrite lookup_insert_ne by done. apply A9.
    + intros Hw g fr'. destruct (decide (g = f)) as [->|Hne].
      * rewrite lookup_insert_eq. intros [= <-] _. unfold cancelled. cbn. by rewrite Einf, Hinf.
      * rewrite lookup_insert_ne by done. cbn. rewrite Hreg. intros Hg. destruct (Ho g fr' Hg) as [_ Hpl].
        rewrite decide_False by (intros [E1 E2]; congruence). intros Hr. unfold cancelled. cbn. rewrite Einf.
        by apply (v_prompt _ Hi Hw g).
Qed.

(** [do_io] from [retry] on: it is interrupted for ever, returns, or waits. *)
Lemma retry_inv f fd ev ti fn y a now to :
  running_call f fd ev ti y -> fresh a y ->
  do_io_retry epoll_ctl fuel a now (on_worker iom f) fn fd ev to ti (y_hooks y) (y_kern y) = Err NoFuel
    /\ call_io fuel fn (y_kern y) = Err NoFuel
  \/ exists x, do_io_retry epoll_ctl fuel a now (on_worker iom f) fn fd ev to ti (y_hooks y) (y_kern y) = Ok x
    /\ inv (called f (Some fn) y x)
    /\ match x.1.1 with
       | Returned _ _ => True
       | Waits w => w = Wait fd ev to ti (if to =? NEVER then None else Some a)
       end.
Proof.
  intros Hrun Hfr. unfold do_io_retry. destruct (call_io fuel fn (y_kern y)) as [[[n errno] k]|e] eqn:Ec.
  2: { left. assert (e = NoFuel) as ->; [|done]. clear -Ec. revert Ec. generalize (y_kern y) as k.
       induction fuel as [|m IH]; intros k; cbn [call_io]; destruct (fn k) as [[n errno] k'];
         destruct (_ && _); try done; [by intros [= <-]|apply IH]. }
  right. cbn [mbind outcome_bind]. pose proof Hrun as [Hi _ _ _ _ _ _]. destruct ((n =? -1) && (errno =? EAGAIN)).
  - cbn [on_worker t_iom t_fiber deref mbind outcome_bind].
    set (y' := Worker (y_hooks y) (y_frames y) (y_queue y) (y_done y) k).
    assert (running_call f fd ev ti y') as Hrun' by (destruct Hrun as [[] ? ? ? ? ? ?]; by constructor).
    destruct (register_inv f fd ev ti (Some fn) y' a now to Hrun' Hfr) as (rt & io & k' & E & Ex & Hcase).
    cbn [y_hooks y_kern y'] in E, Ex, Hcase. subst y'. cbn [y_hooks y_kern] in *.
    destruct (arm a now to ti fd ev (y_hooks y)) as [timer s] eqn:Earm. cbn [fst snd] in *. rewrite E.
    cbn [mbind outcome_bind]. destruct Hcase as [[-> Hinv]|[-> (s' & Hd & Hinv)]]; cbn [Z.eqb negb].
    + eexists. split; [reflexivity|]. split; [exact Hinv|]. cbn. by rewrite Ex.
    + change (-1 =? 0) with false. cbn [negb]. rewrite Hd. cbn [mbind outcome_bind].
      eexists. split; [reflexivity|]. split; [apply Hinv|done].
  - eexists. split; [reflexivity|]. split; [|done]. cbn [fst].
    eapply (inv_returned f fd ev ti (Some fn)); try done; apply Hi.
Qed.

(** ** The steps *)

Lemma fibers_in_delete q i f :
  q !! i = Some (JFiber f) -> fibers_in q ≡ₚ f :: fibers_in (delete i q).
Proof. intros Hi. unfold fibers_in at 1. rewrite (delete_Permutation q i (JFiber f) Hi) at 1. done. Qed.

Lemma fibers_in_delete_fn q i cb :
  q !! i = Some (JFn cb) -> fibers_in q ≡ₚ fibers_in (delete i q).
Proof. intros Hi. unfold fibers_in at 1. rewrite (delete_Permutation q i (JFn cb) Hi) at 1. done. Qed.

Lemma wakes_perm r (fs : frames) qf qf' : wakes r fs qf -> qf ≡ₚ qf' -> wakes r fs qf'.
Proof.
  intros [H1 H2 H3 H4] Hp. constructor; [done| |by rewrite <- Hp|].
  - intros f fr Hf. rewrite <- Hp. by apply H2.
  - intros f. rewrite <- Hp. apply H4.
Qed.

Lemma called_delete f fn (y : worker K) s fs q x :
  called f fn (Worker s fs q (y_done y) (y_kern y)) x =
  called f fn (Worker s (delete f fs) q (y_done y) (y_kern y)) x.
Proof.
  destruct x as [[[n e|w] s'] k]; cbn; [by rewrite delete_delete_eq|by rewrite insert_delete_eq].
Qed.

(** A waiting fiber is taken from the queue and gives up its timer. *)
Lemma inv_woken y i f fr :
  inv y -> y_queue y !! i = Some (JFiber f) -> y_frames y !! f = Some fr ->
  exists s', disarm (w_timer (fr_wait fr)) (y_hooks y) = Ok s' /\ h_infos s' = h_infos (y_hooks y)
    /\ (forall b, heap (h_timers (y_hooks y)) !! b = None -> heap (h_timers s') !! b = None)
    /\ let y' := Worker s' (delete f (y_frames y)) (delete i (y_queue y)) (y_done y) (y_kern y) in
       inv y' /\ free f y'
       /\ (forall g fr', y_frames y' !! g = Some fr' -> info fr' <> info fr /\ place fr' <> place fr)
       /\ (forall a fn, h_fns s' !! a = Some fn -> f_winfo fn = info fr ->
            f_fd fn = w_fd (fr_wait fr) /\ f_event fn = w_event (fr_wait fr)).
Proof.
  intros Hi Hq Hf. pose proof Hi as [Ht Hw Ha Hp].
  destruct (wakes_run _ _ _ (fibers_in (delete i (y_queue y))) f Hw) as [Hw' Hn'].
  { rewrite fibers_in_delete by done. by left. } { by apply fibers_in_delete. }
  assert (forall g fr', delete f (y_frames y) !! g = Some fr' -> g <> f /\ y_frames y !! g = Some fr') as Hdel.
  { intros g fr' Hg. apply lookup_delete_Some in Hg as [? ?]. done. }
  assert (forall cb, JFn cb ∈ delete i (y_queue y) <-> JFn cb ∈ y_queue y) as Hfn.
  { intros cb. rewrite (delete_Permutation (y_queue y) i _ Hq) at 2. rewrite elem_of_cons. naive_solver. }
  assert (armed (y_hooks y) (delete f (y_frames y)) (delete i (y_queue y))) as Ha'.
  { eapply armed_queue; [|done]. destruct Ha as [A1 A2 A3 A4 A5 A6 A7 A8 A9 A10]. constructor; try done.
    - intros a fn g fr' H1 [_ H2]%Hdel. by eapply A5.
    - intros g fr' [_ H]%Hdel. by eapply A6.
    - intros g h fr1 fr2 [_ H1]%Hdel [_ H2]%Hdel. by eapply A7.
    - intros g fr' a [_ H]%Hdel. by apply (A8 g).
    - intros g fr' [_ H]%Hdel. by apply (A9 g). }
  assert (forall g fr', delete f (y_frames y) !! g = Some fr' -> info fr' <> info fr /\ place fr' <> place fr) as Hother.
  { intros g fr' [Hne Hg]%Hdel. split; intros E; apply Hne; eapply (ar_once _ _ _ Ha g f fr' fr); eauto. }
  destruct (armed_disarm (y_hooks y) (delete f (y_frames y)) (delete i (y_queue y)) (w_timer (fr_wait fr)) Ha')
    as (s' & Hd & Ha2 & E1 & E2 & E3 & E4 & E5).
  { intros a Hwt. destruct (ar_timer _ _ _ Ha f fr a Hf Hwt) as [Hfa _].
    by destruct (ar_fns _ _ _ Ha a _ Hfa) as (? & _). }
  { intros g fr' a Hg Hwt Hwt'. pose proof (Hother g fr' Hg) as [Hne _]. apply Hdel in Hg as [_ Hg].
    destruct (ar_timer _ _ _ Ha f fr a Hf Hwt) as [H1 _]. destruct (ar_timer _ _ _ Ha g fr' a Hg Hwt') as [H2 _].
    congruence. }
  exists s'. split; [done|]. split; [done|]. split; [done|]. cbn. split_and!.
  - constructor; cbn; rewrite ?E1; try done.
    intros Hwk g fr' [_ Hg]%Hdel Hr. unfold cancelled. rewrite E2. rewrite E1 in Hr. by apply (Hp Hwk g).
  - split; [cbn; by rewrite lookup_delete_eq|done].
  - done.
  - intros a fn Hfa Hti. rewrite E3 in Hfa. by destruct (ar_own _ _ _ Ha a fn f fr Hfa Hf (eq_sym Hti)) as [-> ->].
Qed.

(** A queued fiber runs: its call returns, waits again, or is interrupted for
    ever. *)
Lemma run_fiber_inv y i f fr a now :
  inv y -> fresh a y -> y_queue y !! i = Some (JFiber f) -> y_frames y !! f = Some fr ->
  exec epoll_ctl so_error iom fuel (LRun i a now) y = Err NoFuel
    /\ (exists fn, fr_fun fr = Some fn /\ call_io fuel fn (y_kern y) = Err NoFuel)
  \/ exists y', exec epoll_ctl so_error iom fuel (LRun i a now) y = Ok y' /\ inv y'
    /\ ((exists n e, y_frames y' !! f = None /\ y_done y' = y_done y ++ [(f, n, e)])
        \/ cancelled (info fr) (y_hooks y) = 0 /\ y_done y' = y_done y /\ f ∉ fibers_in (y_queue y')
           /\ y_frames y' !! f = Some (Frame (fr_fun fr)
             (Wait (w_fd (fr_wait fr)) (w_event (fr_wait fr)) (w_to (fr_wait fr)) (info fr)
               (if w_to (fr_wait fr) =? NEVER then None else Some a)))).
Proof.
  intros Hi Hfr Hq Hf. destruct (inv_woken y i f fr Hi Hq Hf) as (s' & Hd & Einf & Hheap & Hinv & Hfree & Ho & Hfns).
  set (y' := Worker s' _ _ _ _) in *. pose proof (v_armed _ Hi) as Ha.
  destruct (ar_info _ _ _ Ha f fr Hf) as ((c & Hc) & Hfd & Hev).
  assert (cancelled (info fr) s' = c) as Ecs by (unfold cancelled; by rewrite Einf, Hc).
  assert (cancelled (info fr) (y_hooks y) = c) as Ecy by (unfold cancelled; by rewrite Hc).
  assert (forall n e k fn, inv (called f fn y' (Returned n e, release (info fr) s', k))) as Hret.
  { intros n e k fn.
    assert (h_io (release (info fr) s') = h_io s') as Eio by (unfold release; by destruct (h_infos s' !! info fr)).
    constructor; cbn; rewrite ?Eio, ?delete_delete_eq; try apply Hinv.
    - apply armed_release; [apply Hinv|]. intros g fr' Hg. by apply (Ho g).
    - intros Hwk g fr' Hg. rewrite Eio. intros Hr. destruct (Ho g fr' Hg) as [Hne _].
      assert (cancelled (info fr') (release (info fr) s') = cancelled (info fr') s') as ->;
        [|by apply (v_prompt _ Hinv Hwk g)].
      unfold release, cancelled. destruct (h_infos s' !! info fr) as [j|] eqn:Ej; [|done]. cbn.
      by rewrite lookup_insert_ne by done. }
  unfold exec. rewrite Hq. cbn [deref mbind outcome_bind]. unfold run_job. cbn [y_hooks y_frames y_kern]. rewrite Hf.
  destruct fr as [[fn|] w]; cbn [fr_fun fr_wait] in *.
  - unfold do_io_resume. rewrite Hd. cbn [mbind outcome_bind]. rewrite Ecs.
    destruct (Z.eqb_spec c 0) as [->|Hne]; cbn [negb].
    + assert (running_call f (w_fd w) (w_event w) (w_info w) y') as Hrun
        by (constructor; try done; cbn; by rewrite Einf).
      destruct (retry_inv f (w_fd w) (w_event w) (w_info w) fn y' a now (w_to w) Hrun (Hheap a Hfr))
        as [[E1 E2]|(x & E & Hx & Hshape)]; cbn [y_hooks y_kern y'] in *; subst y'; cbn [y_hooks y_kern] in *.
      * left. rewrite E1. eauto.
      * right. rewrite E. cbn [mbind outcome_bind]. rewrite (called_delete f (Some fn) y).
        rewrite (called_delete f (Some fn) y) in Hx. rewrite delete_delete_eq in Hx.
        eexists. split; [reflexivity|]. destruct x as [[[n e|w'] s2] k2]; cbn in Hx, Hshape |- *.
        -- split; [exact Hx|]. left. exists n, e. rewrite lookup_delete_eq. done.
        -- split; [exact Hx|]. right. rewrite Ecy, lookup_insert_eq, Hshape. split_and!; try done. apply Hfree.
    + right. eexists. split; [reflexivity|]. rewrite (called_delete f (Some fn) y). split; [exact (Hret _ _ _ (Some fn))|].
      left. exists (-1), (Some c). cbn. by rewrite lookup_delete_eq.
  - right. unfold connect_resume. rewrite Hd. cbn [mbind outcome_bind]. rewrite Ecs.
    destruct (Z.eqb_spec c 0) as [->|Hne]; cbn [negb].
    + unfold connect_result. destruct (so_error (w_fd w) (y_kern y)) as [[[rt errno] error] k'].
      destruct (rt =? -1); [|destruct (error =? 0)]; cbn [mbind outcome_bind]; (eexists; split; [reflexivity|]);
        rewrite (called_delete f None y); (split; [exact (Hret _ _ _ None)|]); left; eexists _, _; cbn; by rewrite lookup_delete_eq.
    + cbn [mbind outcome_bind]. eexists. split; [reflexivity|]. rewrite (called_delete f None y). split; [exact (Hret _ _ _ None)|].
      left. exists (-1), (Some c). cbn. by rewrite lookup_delete_eq.
Qed.

(** A timer's function runs: the call it belongs to, if it still waits, is
    marked and, unless [epoll_ctl] fails, woken. *)
Lemma run_fn_inv y i cb a now :
  inv y -> y_queue y !! i = Some (JFn cb) ->
  exists y' b fn, exec epoll_ctl so_error iom fuel (LRun i a now) y = Ok y' /\ inv y'
    /\ h_fns (y_hooks y) !! b = Some fn /\ cb = timeout_cb b fn
    /\ y_frames y' = y_frames y /\ y_done y' = y_done y
    /\ (forall x, heap (h_timers (y_hooks y')) !! x = heap (h_timers (y_hooks y)) !! x)
    /\ (works -> forall f fr, y_frames y !! f = Some fr -> info fr = f_winfo fn ->
        cancelled (info fr) (y_hooks y) = 0 ->
        reg_at (h_io (y_hooks y)) (w_fd (fr_wait fr)) (w_event (fr_wait fr)) = Some f ->
        f ∈ fibers_in (y_queue y') /\ cancelled (info fr) (y_hooks y') = ETIMEDOUT).
Proof.
  intros Hi Hq. pose proof Hi as [Ht Hw Ha Hp].
  destruct (ar_jobs _ _ _ Ha cb) as (b & fn & Hfn & Ecb); [by eapply list_elem_of_lookup_2|].
  destruct (ar_fns _ _ _ Ha b fn Hfn) as (_ & [inf Hinf] & Hfd & Hev).
  set (q := delete i (y_queue y)).
  assert (wakes (reg_at (h_io (y_hooks y))) (y_frames y) (fibers_in q)) as Hw'
    by (eapply wakes_perm; [done|by eapply fibers_in_delete_fn]).
  assert (forall c', JFn c' ∈ y_queue y -> c' <> cb -> JFn c' ∈ q) as Hkeep.
  { intros c' Hc Hne. unfold q. rewrite (delete_Permutation (y_queue y) i _ Hq) in Hc.
    apply elem_of_cons in Hc as [[= ->]|Hc]; done. }
  (* the invariant of the timers, when the call's mark is set or the function is stale *)
  assert (forall s', h_timers s' = h_timers (y_hooks y) -> h_fns s' = h_fns (y_hooks y) -> h_fds s' = h_fds (y_hooks y) ->
    (forall ti, is_Some (h_infos (y_hooks y) !! ti) -> is_Some (h_infos s' !! ti)) ->
    (forall f fr, y_frames y !! f = Some fr -> exists c, h_infos s' !! info fr = Some (Info true c)) ->
    (forall f fr, y_frames y !! f = Some fr -> info fr = f_winfo fn -> cancelled (info fr) s' <> 0) ->
    (forall f fr, y_frames y !! f = Some fr -> info fr <> f_winfo fn ->
       cancelled (info fr) s' = cancelled (info fr) (y_hooks y)) ->
    armed s' (y_frames y) q) as Harm.
  { intros s' E1 E2 E3 Hd Hal Hset Hoth. destruct Ha as [A1 A2 A3 A4 A5 A6 A7 A8 A9 A10].
    constructor; rewrite ?E1, ?E2, ?E3; try done.
    - intros c' Hc. apply A3. unfold q in Hc. rewrite (delete_Permutation (y_queue y) i _ Hq). by right.
    - intros x fn' Hx. destruct (A4 x fn' Hx) as (H1 & H2 & H3). split; [exact H1|]. split; [by apply Hd|exact H3].
    - intros f fr Hf. split; [by eapply Hal|]. by destruct (A6 f fr Hf) as (_ & ?).
    - intros f fr x Hf Hx. destruct (A8 f fr x Hf Hx) as [H1 H2]. split; [done|]. intros Hc.
      destruct (decide (info fr = f_winfo fn)) as [E|E]; [by apply (Hset f fr Hf) in E|].
      rewrite (Hoth f fr Hf E) in Hc. destruct (H2 Hc) as [?|Hj]; [by left|right].
      apply Hkeep; [done|]. rewrite Ecb. unfold timeout_cb. congruence. }
  unfold exec. rewrite Hq. cbn [deref mbind outcome_bind]. unfold run_job. cbn [y_hooks y_frames y_kern].
  rewrite Ecb. unfold timeout_cb. cbn [invoke].
  assert (alive (y_hooks y) (f_winfo fn) = i_alive inf) as Eal by (unfold alive; by rewrite Hinf).
  rewrite Eal.
  (* nothing happens when the call is gone or marked already *)
  assert ((i_alive inf = false \/ i_cancelled inf <> 0) ->
    let y' := enqueue (jobs_of []) (y_hooks y) (y_kern y)
      (Worker (y_hooks y) (y_frames y) q (y_done y) (y_kern y)) in
    inv y' /\ (forall f fr, y_frames y !! f = Some fr -> info fr = f_winfo fn ->
        cancelled (info fr) (y_hooks y) <> 0)) as Hidle.
  { intros Hdead y'.
    assert (forall f fr, y_frames y !! f = Some fr -> info fr = f_winfo fn -> cancelled (info fr) (y_hooks y) <> 0) as Hset.
    { intros f fr Hf E. destruct (ar_info _ _ _ Ha f fr Hf) as ((c & Hc) & _). rewrite E, Hinf in Hc.
      injection Hc as ->. cbn in Hdead. destruct Hdead as [?|?]; [done|]. unfold cancelled. by rewrite E, Hinf. }
    split; [|exact Hset]. constructor; cbn; rewrite ?app_nil_r; try done.
    apply Harm; try done. intros f fr Hf. by destruct (ar_info _ _ _ Ha f fr Hf) as (? & _). }
  destruct (i_alive inf) eqn:Ealive; cbn [mbind outcome_bind].
  2: { destruct (Hidle ltac:(by left)) as [Hinv Hno]. eexists _, b, fn. split; [reflexivity|].
       split_and!; try done. intros _ f fr Hf E Hc _. by destruct (Hno f fr Hf E). }
  cbn [run_fns]. rewrite Hfn. cbn [deref mbind outcome_bind]. unfold on_timeout. rewrite Hinf.
  destruct inf as [al c]. cbn in Ealive. subst al. destruct (Z.eqb_spec c 0) as [->|Hne]; cbn [negb].
  2: { destruct (Hidle ltac:(by right)) as [Hinv Hno]. eexists _, b, fn. split; [reflexivity|].
       split_and!; try done. intros _ f fr Hf E Hc _. by destruct (Hno f fr Hf E). }
  clear Hidle. set (s1 := set_info (f_winfo fn) (Info true ETIMEDOUT) (y_hooks y)).
  destruct (table_cancel iom epoll_ctl (h_io s1) (f_fd fn) (f_event fn) (y_kern y) Ht Hfd Hev)
    as (rb & ds & io & k & fl & E & Ht' & Hjobs & Hho & Hsame & Hworks).
  rewrite E. cbn [mbind outcome_bind]. rewrite app_nil_r, Hjobs.
  assert (forall ti, ti <> f_winfo fn -> cancelled ti (set_io io s1) = cancelled ti (y_hooks y)) as Hcne
    by (intros ti Hne; unfold cancelled; cbn; by rewrite lookup_insert_ne).
  assert (cancelled (f_winfo fn) (set_io io s1) = ETIMEDOUT) as Hceq
    by (unfold cancelled; cbn; by rewrite lookup_insert_eq).
  eexists _, b, fn. split; [reflexivity|]. split; [constructor; cbn|].
  - done.
  - rewrite fibers_in_app, fibers_in_fibers. eapply wakes_handed; [exact Hw'|exact Hho].
  - eapply armed_queue; [|intros; apply queue_app_fibers]. apply Harm; try done.
    + intros ti Hti. cbn. apply lookup_insert_is_Some'. by right.
    + intros f fr Hf. cbn. destruct (decide (info fr = f_winfo fn)) as [->|Hne].
      * rewrite lookup_insert_eq. eauto.
      * rewrite lookup_insert_ne by done. by destruct (ar_info _ _ _ Ha f fr Hf) as (? & _).
    + intros f fr Hf ->. by rewrite Hceq.
    + intros f fr Hf Hne. by apply Hcne.
  - intros Hwk f fr Hf. cbn. intros Hr. destruct (decide (info fr = f_winfo fn)) as [Ei|Hne].
    + destruct (ar_own _ _ _ Ha b fn f fr Hfn Hf Ei) as [E1 E2]. rewrite E1, E2 in Hr.
      destruct (Hworks (fun op x y => Hwk op x y _)) as [H _]. congruence.
    + rewrite Hcne by done. apply (Hp Hwk f fr Hf).
      destruct (ho_less _ _ _ Hho (w_fd (fr_wait fr)) (w_event (fr_wait fr))) as [E'|E']; [|congruence]. cbn in E'. congruence.
  - split_and!; try done. intros Hwk f fr Hf Ei Hc Hr.
    destruct (ar_own _ _ _ Ha b fn f fr Hfn Hf Ei) as [E1 E2]. rewrite E1, E2 in Hr.
    destruct (Hworks (fun op x y => Hwk op x y _)) as [_ H]. cbn. rewrite fibers_in_app, fibers_in_fibers, (H f Hr).
    split; [apply elem_of_app; right; by left|]. by rewrite Ei.
Qed.

Lemma fd_ctx_ok s fs q fd : armed s fs q -> 0 <= fd -> exists o, fd_ctx fd s = Ok o.
Proof.
  intros Ha H0. unfold fd_ctx, get_read, data_at.
  destruct (Z.eqb_spec fd (-1)); [lia|]. destruct (Z.leb_spec (Z.of_nat (length (m_datas (h_fds s)))) fd); [cbn; eauto|].
  rewrite (proj2 (Z.ltb_ge _ _)) by lia.
  destruct (lookup_lt_is_Some_2 (m_datas (h_fds s)) (Z.to_nat fd)) as [[p|] Hp]; [lia| |rewrite Hp; cbn; eauto].
  rewrite Hp. cbn [deref mbind outcome_bind]. destruct (ar_fds _ _ _ Ha _ _ Hp) as [c ->]. cbn. eauto.
Qed.

Lemma inv_kern y k : inv y -> inv (Worker (y_hooks y) (y_frames y) (y_queue y) (y_done y) k).
Proof. intros []. by constructor. Qed.

(** A call that does not wait. *)
Lemma inv_direct y f fn n e k : inv y -> y_frames y !! f = None -> inv (called f fn y (Returned n e, y_hooks y, k)).
Proof. intros [] Hf. constructor; cbn; by rewrite ?delete_id. Qed.

(** The new [timer_info] of a call. *)
Lemma running_start y f fd ev ti :
  inv y -> free f y -> 0 <= fd -> is_event ev -> nobody_waits fd ev y -> h_infos (y_hooks y) !! ti = None ->
  running_call f fd ev ti
    (Worker (set_info ti (Info true 0) (y_hooks y)) (y_frames y) (y_queue y) (y_done y) (y_kern y)).
Proof.
  intros Hi Hf Hfd Hev Hno Hti. pose proof Hi as [Ht Hw Ha Hp].
  assert (forall g fr, y_frames y !! g = Some fr -> info fr <> ti) as Hne.
  { intros g fr Hg E. destruct (ar_info _ _ _ Ha g fr Hg) as ((c & Hc) & _). congruence. }
  assert (forall g fr, y_frames y !! g = Some fr ->
    cancelled (info fr) (set_info ti (Info true 0) (y_hooks y)) = cancelled (info fr) (y_hooks y)) as Hc.
  { intros g fr Hg. unfold cancelled. cbn. rewrite lookup_insert_ne; [done|]. pose proof (Hne g fr Hg). congruence. }
  constructor; cbn; try done.
  - constructor; cbn; try done.
    + destruct Ha as [A1 A2 A3 A4 A5 A6 A7 A8 A9 A10]. constructor; try done; cbn.
      * intros a fn Hfn. destruct (A4 a fn Hfn) as (H1 & H2 & H3). split; [exact H1|]. split; [|exact H3].
        apply lookup_insert_is_Some'. by right.
      * intros g fr Hg. rewrite lookup_insert_ne by (pose proof (Hne g fr Hg); congruence). by apply (A6 g).
      * intros g fr a Hg Hx. destruct (A8 g fr a Hg Hx) as [H1 H2]. split; [done|]. by rewrite (Hc g fr Hg).
    + intros Hwk g fr Hg Hr. rewrite (Hc g fr Hg). by apply (Hp Hwk g).
  - by rewrite lookup_insert_eq.
  - intros g fr Hg. split; [by eapply Hne|]. destruct (Hno g fr Hg); congruence.
  - intros a fn Hfn Hw'. destruct (ar_fns _ _ _ Ha a fn Hfn) as (_ & [i Hinf] & _). congruence.
Qed.

(** A step keeps the invariant, unless its call is interrupted for ever. *)
Definition keeps (lb : label) (y : worker K) : Prop :=
  exec epoll_ctl so_error iom fuel lb y = Err NoFuel
  \/ exists y', exec epoll_ctl so_error iom fuel lb y = Ok y' /\ inv y'.

Lemma armed_set_io io s fs q : armed s fs q -> armed (set_io io s) fs q.
Proof. intros []. by constructor. Qed.

Lemma step_call f a ti now fn fd ev so y : inv y -> enabled (LCall f a ti now fn fd ev so) y -> keeps (LCall f a ti now fn fd ev so) y.
Proof.
  intros Hi He. pose proof Hi as [Ht Hw Ha Hp]. unfold keeps.
  destruct He as (Hfd & Hev & Hf & Hno & Hfr & Hti). unfold exec, do_io. cbn [on_worker t_hook_enable negb].
  destruct (fd_ctx_ok _ _ _ fd Ha Hfd) as [o ->]. cbn [mbind outcome_bind].
  assert (exists x, direct fn (y_hooks y) (y_kern y) = Ok x /\ inv (called f (Some fn) y x)) as (x & Hx & Hinv).
  { unfold direct. destruct (fn (y_kern y)) as [[n e] k]. eexists. split; [reflexivity|]. apply inv_direct; [done|apply Hf]. }
  destruct o as [[cp ctx]|]; [|rewrite Hx; cbn [mbind outcome_bind]; eauto].
  destruct (m_isClosed ctx); [right; cbn [mbind outcome_bind]; eexists; split; [reflexivity|]; apply inv_direct; [done|apply Hf]|].
  destruct (_ || _); [rewrite Hx; cbn [mbind outcome_bind]; eauto|].
  pose proof (running_start y f fd ev ti Hi Hf Hfd Hev Hno Hti) as Hrun.
  destruct (retry_inv f fd ev ti fn _ a now (getTimeout so ctx) Hrun Hfr) as [[E _]|(x' & E & Hx' & _)];
    cbn [y_hooks y_kern] in E; rewrite E; cbn [mbind outcome_bind]; [by left|].
  right. eexists. split; [reflexivity|]. destruct x' as [[[n e|w] s] k]; exact Hx'.
Qed.

Lemma step_connect f a ti now fn fd to y : inv y -> enabled (LConnect f a ti now fn fd to) y -> keeps (LConnect f a ti now fn fd to) y.
Proof.
  intros Hi He. pose proof Hi as [Ht Hw Ha Hp]. unfold keeps.
  destruct He as (Hfd & Hf & Hno & Hfr & Hti). right. unfold exec, connect_with_timeout. cbn [on_worker t_hook_enable negb].
  destruct (fd_ctx_ok _ _ _ fd Ha Hfd) as [o ->]. cbn [mbind outcome_bind].
  assert (forall n e k, inv (called f None y (Returned n e, y_hooks y, k))) as Hd
    by (intros; apply inv_direct; [done|apply Hf]).
  assert (exists x, direct fn (y_hooks y) (y_kern y) = Ok x /\ inv (called f None y x)) as (x & Hx & Hinv).
  { unfold direct. destruct (fn (y_kern y)) as [[n e] k]. eexists. split; [reflexivity|]. apply Hd. }
  destruct o as [[cp ctx]|]; [|cbn [mbind outcome_bind]; eauto].
  destruct (m_isClosed ctx); [cbn [mbind outcome_bind]; eauto|].
  destruct (negb (m_isSocket ctx)); [rewrite Hx; cbn [mbind outcome_bind]; eauto|].
  destruct (m_userNonblock ctx); [rewrite Hx; cbn [mbind outcome_bind]; eauto|].
  destruct (fn (y_kern y)) as [[n errno] k]. destruct (n =? 0); [cbn [mbind outcome_bind]; eauto|].
  destruct (_ || _); [cbn [mbind outcome_bind]; eauto|].
  cbn [on_worker t_iom t_fiber deref mbind outcome_bind].
  pose proof (running_start (Worker (y_hooks y) (y_frames y) (y_queue y) (y_done y) k) f fd WRITE ti
    (inv_kern y k Hi) Hf Hfd ltac:(by right) Hno Hti) as Hrun.
  destruct (register_inv f fd WRITE ti None _ a now to Hrun Hfr) as (rt & io & k' & E & Ex & Hcase).
  cbn [y_hooks y_kern y_frames y_queue y_done] in *. destruct (arm _ _ _ _ _ _ _) as [timer s].
  cbn [fst snd] in *. rewrite E. cbn [mbind outcome_bind].
  destruct Hcase as [[-> Hx1]|[-> (s' & Hdis & Hx1)]]; cbn [Z.eqb].
  + eexists. split; [reflexivity|]. exact Hx1.
  + rewrite Hdis. cbn [mbind outcome_bind]. unfold connect_result.
    destruct (so_error fd k') as [[[r errno'] error] k2].
    destruct (r =? -1); [|destruct (error =? 0)]; cbn [mbind outcome_bind]; (eexists; split; [reflexivity|]); apply Hx1.
Qed.

Lemma step_run i a now y : inv y -> enabled (LRun i a now) y -> keeps (LRun i a now) y.
Proof.
  intros Hi He. pose proof Hi as [Ht Hw Ha Hp]. unfold keeps.
  destruct He as [Hlt Hfr]. destruct (lookup_lt_is_Some_2 _ _ Hlt) as [[f|cb] Hq].
  + destruct (wk_queue _ _ _ Hw f) as [fr Hf].
    { rewrite fibers_in_delete by done. by left. }
    destruct (run_fiber_inv y i f fr a now Hi Hfr Hq Hf) as [[? _]|(y' & ? & ? & _)]; eauto.
  + destruct (run_fn_inv y i cb a now Hi Hq) as (y' & b & fn & ? & ? & _). eauto.
Qed.

Lemma step_expire a now y : inv y -> enabled (LExpire a now) y -> keeps (LExpire a now) y.
Proof.
  intros Hi He. pose proof Hi as [Ht Hw Ha Hp]. unfold keeps.
  right. unfold exec. destruct (armed_expire _ _ _ a now Ha) as (cbs & tm & -> & Hn & Ha' & _).
  cbn [mbind outcome_bind]. eexists. split; [reflexivity|]. constructor; cbn; try done.
  by rewrite fibers_in_app, Hn, app_nil_r.
Qed.

Lemma step_report p mask y : inv y -> enabled (LReport p mask) y -> keeps (LReport p mask) y.
Proof.
  intros Hi He. pose proof Hi as [Ht Hw Ha Hp]. unfold keeps.
  right. destruct He as (c & Hc & Hr & Hw'). unfold exec.
  destruct (table_report iom epoll_ctl _ p c mask (y_kern y) Ht Hc Hr Hw') as (ds & io & k & fl & -> & Ht' & Hj & Hho).
  cbn [mbind outcome_bind]. rewrite Hj. eexists. split; [reflexivity|].
  assert (inv (enqueue (map JFiber fl) (set_io io (y_hooks y)) k (Worker (y_hooks y) (y_frames y) (y_queue y) (y_done y) (y_kern y)))) as Hres.
  { apply inv_handed; try done; [by apply armed_set_io|].
    eapply (prompt_less (y_hooks y)); [done|apply Hho|done]. }
  exact Hres.
Qed.

Lemma step_close fd fn y : inv y -> enabled (LClose fd fn) y -> keeps (LClose fd fn) y.
Proof.
  intros Hi He. pose proof Hi as [Ht Hw Ha Hp]. cbn [enabled] in He. unfold keeps.
  right. unfold exec, close. cbn [on_worker t_hook_enable negb t_iom].
  destruct (fd_ctx_ok _ _ _ fd Ha He) as [o ->]. cbn [mbind outcome_bind]. unfold direct.
  destruct o as [x|]; cbn [mbind outcome_bind].
  2: { destruct (fn (y_kern y)) as [[n e] k]. cbn [mbind outcome_bind]. eexists. split; [reflexivity|].
       constructor; cbn; rewrite ?app_nil_r; done. }
  destruct (table_cancelAll iom epoll_ctl (h_io (y_hooks y)) fd (y_kern y) Ht He)
    as (b & ds & io & k & fl & -> & Ht' & Hj & Hho). cbn [mbind outcome_bind].
  assert (exists d, delFd fd (h_fds (set_io io (y_hooks y))) = Ok d
    /\ forall i p, m_datas d !! i = Some (Some p) -> is_Some (ctxs d !! p)) as (d & -> & Hd).
  { unfold delFd, data_at. cbn. destruct (Z.leb_spec (Z.of_nat (length (m_datas (h_fds (y_hooks y))))) fd).
    { eexists. split; [reflexivity|]. apply Ha. }
    rewrite (proj2 (Z.ltb_ge _ _)) by lia.
    destruct (lookup_lt_is_Some_2 (m_datas (h_fds (y_hooks y))) (Z.to_nat fd)) as [x' Hx']; [lia|].
    rewrite Hx'. cbn. eexists. split; [reflexivity|]. cbn. intros i p.
    intros [[_ ?]|[_ Hl]]%list_lookup_insert_Some; [naive_solver|]. by eapply (ar_fds _ _ _ Ha). }
  cbn [mbind outcome_bind]. destruct (fn k) as [[n e] k2]. cbn [mbind outcome_bind]. rewrite Hj.
  eexists. split; [reflexivity|].
  assert (inv (enqueue (map JFiber fl) (set_fds d (set_io io (y_hooks y))) k2
    (Worker (y_hooks y) (y_frames y) (y_queue y) (y_done y) (y_kern y)))) as Hres.
  { apply inv_handed; try done.
    - destruct Ha as [A1 A2 A3 A4 A5 A6 A7 A8 A9 A10]. by constructor.
    - eapply (prompt_less (y_hooks y)); [done|apply Hho|done]. }
  exact Hres.
Qed.

Lemma step_inv lb y : inv y -> enabled lb y -> keeps lb y.
Proof.
  destruct lb; eauto using step_call, step_connect, step_run, step_expire, step_report, step_close.
Qed.

(** ** Runs of a worker *)

Definition step (y y' : worker K) : Prop :=
  exists lb, enabled lb y /\ exec epoll_ctl so_error iom fuel lb y = Ok y'.

(** A worker that begins, with the descriptors [d]. *)
Definition idle_worker (d : fds) (now : Z) (k : K) : worker K :=
  Worker (Hooks d (mkTimerManager now) mkIOManager ∅ ∅) ∅ [] [] k.

Definition fds_ok (d : fds) : Prop := forall i p, m_datas d !! i = Some (Some p) -> is_Some (ctxs d !! p).

Inductive worker_reachable : worker K -> Prop :=
  | wr_start d now k : fds_ok d -> worker_reachable (idle_worker d now k)
  | wr_step y y' : worker_reachable y -> step y y' -> worker_reachable y'.

Lemma inv_started d now k : fds_ok d -> inv (idle_worker d now k).
Proof.
  intros Hd. constructor; cbn.
  - constructor; [apply io_ok_init|done|done|].
    intros p c ev Hp Hev Hh. exfalso. cbn in Hp.
    do 32 (destruct p as [|p]; [cbn in Hp; injection Hp as <-; by destruct Hev as [-> | ->]|]). done.
  - assert (forall fd ev, reg_at mkIOManager fd ev = None) as Hn.
    { intros fd ev. destruct (decide (is_event ev)) as [Hev|Hev]; [|by apply reg_at_other].
      destruct (Z.ltb_spec fd 0); [by apply reg_at_negative|]. rewrite reg_at_event by done.
      generalize (Z.to_nat fd) as p. intros p. cbn.
      do 32 (destruct p as [|p]; [cbn; by destruct Hev as [-> | ->]|]). done. }
    constructor; try done; [intros fd ev f; by rewrite Hn|constructor|by intros f ?%elem_of_nil].
  - constructor; try done; [apply timers_wf_init|by intros cb ?%elem_of_nil].
  - done.
Qed.

Lemma worker_inv y : worker_reachable y -> inv y.
Proof.
  induction 1 as [d now k Hd|y y' _ IH (lb & He & E)]; [by apply inv_started|].
  destruct (step_inv lb y IH He) as [E'|(y2 & E' & Hi)]; congruence.
Qed.



End invariant.

(** ** Properties *)

(** C7: In every run of a worker on non-negative descriptors in which no two
    fibers wait for the same descriptor and event, a call is made by a fiber
    that neither waits nor is queued, and only registered events are reported: a
    fiber waiting in a hooked call is registered for its event in the epoll
    table or queued, never both and never twice, only waiting fibers are
    registered, and every next step allowed by these rules (a call, a task of
    the queue, an expiry, a report, a close) runs without a failed assertion or
    undefined behaviour, or the system call it makes is interrupted for longer
    than any given fuel. *)
Theorem hook_wakeups {K} epoll_ctl so_error iom fuel (y : worker K) :
  worker_reachable epoll_ctl so_error iom fuel y ->
  let r := reg_at (h_io (y_hooks y)) in
  let qf := fibers_in (y_queue y) in
  (forall f fr, y_frames y !! f = Some fr ->
    (r (w_fd (fr_wait fr)) (w_event (fr_wait fr)) = Some f /\ f ∉ qf)
    \/ (r (w_fd (fr_wait fr)) (w_event (fr_wait fr)) <> Some f /\ f ∈ qf))
  /\ (forall fd ev f, r fd ev = Some f -> exists fr, y_frames y !! f = Some fr /\ at_place fr fd ev)
  /\ NoDup qf /\ (forall f, f ∈ qf -> is_Some (y_frames y !! f))
  /\ (forall lb, enabled lb y ->
       exec epoll_ctl so_error iom fuel lb y = Err NoFuel
       \/ exists y', exec epoll_ctl so_error iom fuel lb y = Ok y').
Proof.
  intros Hi%worker_inv r qf. destruct (v_wakes _ _ _ Hi) as [H1 H2 H3 H4]. split_and!; try done.
  intros lb He. destruct (step_inv _ so_error iom fuel lb y Hi He) as [?|(y' & ? & _)]; eauto.
Qed.


(** A socket with receive timeout 100 that never gets ready. *)
Definition demo_fds (timeout : Z) : fds :=
  FDS {[7%nat := mkFdCtx true true true false false 5 timeout NEVER]}
    [None; None; None; None; None; Some 7%nat].
Definition demo_epoll (_ : epoll_op) (_ _ : Z) (k : unit) : bool * unit := (true, k).
Definition demo_so (_ : Z) (k : unit) : Z * Z * Z * unit := (0, 0, 0, k).
Definition never_ready (k : unit) : Z * Z * unit := (-1, EAGAIN, k).

Definition demo_worker (ls : list (label (K:=unit))) : outcome (worker unit) :=
  foldl (fun o l => y ← o; exec demo_epoll demo_so 3 0 l y) (Ok (idle_worker (demo_fds 100) 1000 tt)) ls.
Definition demo_call : label (K:=unit) := LCall 1 10 20 1000 never_ready 5 READ SO_RCVTIMEO.

Definition demo_waiting : worker unit :=
  match demo_worker [demo_call] with Ok y => y | Err _ => idle_worker (demo_fds 100) 1000 tt end.

Lemma demo_waiting_reachable : worker_reachable demo_epoll demo_so 3 0 demo_waiting.
Proof.
  eapply wr_step; [apply (wr_start _ _ _ _ (demo_fds 100) 1000 tt)|exists demo_call; split].
  - intros i p. do 6 (destruct i as [|i]; [cbn; try done|]); [|done]. intros [= <-]. by eexists.
  - cbn. split_and!; try done; [by left|]. split; [done|]. apply not_elem_of_nil.
  - vm_compute. reflexivity.
Qed.

Lemma hook_wakeups_witness :
  reg_at (h_io (y_hooks demo_waiting)) 5 READ = Some 1%nat
  /\ NoDup (fibers_in (y_queue demo_waiting)).
Proof.
  split; [vm_compute; reflexivity|].
  destruct (hook_wakeups demo_epoll demo_so 3 0 demo_waiting demo_waiting_reachable) as (_ & _ & H & _). exact H.
Defined.


(** The whole way of the call, by evaluation. *)
Lemma demo_timeout :
  y_done <$> (match demo_worker [demo_call; LExpire 11 1100; LRun 0 12 1100; LRun 0 12 1100] with
              | Ok y => Some y | Err _ => None end) = Some [(1%nat, -1, Some ETIMEDOUT)].
Proof. vm_compute. reflexivity. Qed.

(** ** Where the code does not keep its promise *)

(** With more than one thread the timer can fire between being armed and the
    registration: its function finds nothing to cancel, and the call then waits
    with its mark set and no timer left. *)
Lemma timer_before_registration :
  let s := (Hooks (demo_fds 0) (mkTimerManager 1000) mkIOManager {[20%nat := Info true 0]} ∅) in
  let '(timer, s1) := arm 10 1000 0 20 5 READ s in
  exists cbs tm s2 io s3 k,
    listExpiredCb 11 1000 (h_timers s1) = Ok (cbs, tm) /\ cbs = [Some (OnTimer 20 (Some (Fn 10)))]
    /\ on_timeout demo_epoll (TFn 20 5 READ) (set_tm tm s1) tt = Ok ([], s2, tt)
    /\ addEvent demo_epoll 5 READ None (Some 3%nat) (1%nat, EXEC) (h_io s2) tt = Ok (0, io, k)
    /\ s3 = set_io io s2 /\ reg_at (h_io s3) 5 READ = Some 1%nat
    /\ m_timers (h_timers s3) = [] /\ cancelled 20 s3 = ETIMEDOUT.
Proof. cbn zeta. vm_compute. do 6 eexists. repeat split; reflexivity. Qed.

(** [setsockopt] with a zero [timeval], which means no timeout, makes every
    call that has to wait time out at once. *)
Lemma zero_timeval_times_out {K} (setsockopt_f : K -> Z * Z * K) fd s p ctx k th :
  t_hook_enable th = true -> fd_ctx fd s = Ok (Some (p, ctx)) ->
  exists r s' k', setsockopt th fd SOL_SOCKET SO_RCVTIMEO 0 0 setsockopt_f s k = Ok (r, s', k')
    /\ ctxs (h_fds s') !! p = Some (setTimeout SO_RCVTIMEO 0 ctx)
    /\ getTimeout SO_RCVTIMEO (setTimeout SO_RCVTIMEO 0 ctx) = 0.
Proof.
  intros Hth Hc. unfold setsockopt. rewrite Hth, Hc. cbn. unfold direct.
  destruct (setsockopt_f k) as [[n e] k']. do 3 eexists. split; [reflexivity|].
  cbn. rewrite lookup_insert_eq. done.
Qed.

(** When the registration fails, [connect] reports success as long as the
    socket has no error yet: it is still connecting. *)
Lemma connect_unregistered_succeeds :
  let failing := fun (_ : epoll_op) (_ _ : Z) (k : unit) => (false, k) in
  exists s k, connect_with_timeout failing demo_so 10 20 1000 (Caller true (Some 3%nat) (1%nat, EXEC))
    (fun k => (-1, EINPROGRESS, k)) 5 5000
    (Hooks (demo_fds 100) (mkTimerManager 1000) mkIOManager ∅ ∅) tt = Ok (Returned 0 (Some 0), s, k).
Proof. vm_compute. do 2 eexists. reflexivity. Qed.

(** [sleep] computes its milliseconds in 32 bits: 4294968 seconds sleep 704 ms;
    [nanosleep] in an [int]: 25 days become a timer in the far future. *)
Lemma sleep_wraps : sleep_ms 4294968 = 704 /\ nanosleep_ms 2147484 0 = Ok (2 ^ 64 - 2147483296).
Proof. split; reflexivity. Qed.

(** The user sees the flag as he set it, the kernel always sees it set. *)
Lemma fcntl_user_view {K} getfl setfl fd arg s (k : K) p ctx :
  0 <= fd -> fd_ctx fd s = Ok (Some (p, ctx)) -> m_isClosed ctx = false -> m_isSocket ctx = true ->
  m_sysNonblock ctx = true -> (forall fl, getfl (setfl fd fl k) fd = fl) ->
  exists s' k', fcntl_setfl setfl fd arg s k = Ok (s', k') /\ has (getfl k' fd) O_NONBLOCK = true
    /\ exists fl, fcntl_getfl getfl fd s' k' = Ok fl /\ has fl O_NONBLOCK = has arg O_NONBLOCK
       /\ without fl O_NONBLOCK = without arg O_NONBLOCK.
Proof.
  intros Hfd Hc Hcl Hs Hn Hk. unfold fcntl_setfl, managed. rewrite Hc. cbn [mbind outcome_bind]. rewrite Hcl, Hs.
  cbn [orb negb mbind outcome_bind]. rewrite Hn. do 2 eexists. split; [reflexivity|]. rewrite Hk.
  assert (forall x, has (Z.lor x O_NONBLOCK) O_NONBLOCK = true) as Hset.
  { intros x. unfold has. rewrite Z.land_lor_distr_l, Z.land_diag.
    destruct (Z.eqb_spec (Z.lor (Z.land x O_NONBLOCK) O_NONBLOCK) 0) as [E|]; [|done].
    by apply Z.lor_eq_0_iff in E as [_ E]. }
  assert (forall x, without (Z.lor x O_NONBLOCK) O_NONBLOCK = without x O_NONBLOCK) as Hw.
  { intros x. unfold without. rewrite Z.land_lor_distr_l. change (Z.land O_NONBLOCK (Z.lnot O_NONBLOCK)) with 0.
    apply Z.lor_0_r. }
  assert (forall x, has (without x O_NONBLOCK) O_NONBLOCK = false) as Hu.
  { intros x. unfold has, without. rewrite <- Z.land_assoc. change (Z.land (Z.lnot O_NONBLOCK) O_NONBLOCK) with 0.
    by rewrite Z.land_0_r. }
  assert (forall x, without (without x O_NONBLOCK) O_NONBLOCK = without x O_NONBLOCK) as Hww
    by (intros x; unfold without; by rewrite <- Z.land_assoc, Z.land_diag).
  split; [apply Hset|]. unfold fcntl_getfl, managed, fd_ctx in *.
  destruct (get_read fd false (h_fds s)) as [[[q|]|]|] eqn:Eg; cbn [mbind outcome_bind] in Hc; try done.
  assert (get_read fd false (h_fds (update_ctx p (setUserNonblock (has arg O_NONBLOCK) ctx) s)) = Ok (Some (Some q))) as ->
    by exact Eg.
  cbn [mbind outcome_bind]. destruct (ctxs (h_fds s) !! q) as [c|] eqn:Eq; [|done]. cbn in Hc. injection Hc as -> ->.
  cbn. rewrite lookup_insert_eq. cbn. rewrite Hcl, Hs, Hk. cbn. eexists. split; [reflexivity|].
  destruct (has arg O_NONBLOCK) eqn:Ea.
  - by rewrite Hset, !Hw.
  - by rewrite Hu, Hww, Hw.
Qed.
