(* ===== verification/Socket.v ===== *)
(** * [sylar/socket.h], [sylar/socket.cc]

    A [Socket] object over the (hooked) system calls, which are the class
    [Net]: [W] is the process outside the object, and a call gives its result
    once it returns, whether its fiber had to wait or not.  [HookNet.v] is the
    instance made of the calls of [hook.cc].  The text of log entries is left
    out. *)

From stdpp Require Import base list gmap strings.
From Stdlib Require Import ZArith Lia Ascii String.
From S2P Require Import Prelude Endian Http HttpParser Uri Address Lookup FdManager IOManager Hook.

Local Open Scope Z_scope.

Definition SOCK_STREAM : Z := 1.
Definition SOCK_DGRAM : Z := 2.
Definition SO_REUSEADDR : Z := 2.
Definition SO_ERROR : Z := 4.
Definition IPPROTO_TCP : Z := 6.
Definition TCP_NODELAY : Z := 1.
Definition SOMAXCONN : Z := 4096.

(** [Socket::Type], [Socket::Family] *)
Definition TCP : Z := SOCK_STREAM.
Definition UDP : Z := SOCK_DGRAM.
Definition IPv4 : Z := AF_INET.
Definition IPv6 : Z := AF_INET6.
Definition UNIX : Z := AF_UNIX.

(** The values passed to [setsockopt]. *)
Inductive optval := IntVal (v : Z) | TimeVal (tv_sec tv_usec : Z).

(** ** The calls *)

Class Net (W : Type) := {
  net_socket : Z -> Z -> Z -> W -> outcome (Z * W);
  net_bind : Z -> sockaddr -> W -> outcome (Z * W);
  net_listen : Z -> Z -> W -> outcome (Z * W);
  (** [connect], or [connect_with_timeout] *)
  net_connect : Z -> sockaddr -> option Z -> W -> outcome (Z * W);
  net_accept : Z -> W -> outcome (Z * W);
  net_close : Z -> W -> outcome (Z * W);
  net_setsockopt : Z -> Z -> Z -> optval -> W -> outcome (Z * W);
  (** the result and an [int] option's value *)
  net_getsockopt : Z -> Z -> Z -> W -> outcome (Z * Z * W);
  (** the address, unless the call fails *)
  net_getpeername : Z -> W -> outcome (option sockaddr * W);
  net_getsockname : Z -> W -> outcome (option sockaddr * W);
  (** data, with the receiver, and the bytes and the sender *)
  net_send : Z -> list Z -> option sockaddr -> Z -> W -> outcome (Z * W);
  net_recv : Z -> nat -> Z -> W -> outcome (Z * list Z * sockaddr * W);
  (** [FdMgr::GetInstance()->get(fd)], [IOManager::GetThis()->cancel...] *)
  net_fdctx : Z -> W -> outcome (option FdCtx);
  net_cancelEvent : Z -> Z -> W -> outcome (bool * W);
  net_cancelAll : Z -> W -> outcome (bool * W);
}.

Record Socket := mkSocket {
  m_sock : Z;
  m_family : Z;
  m_type : Z;
  m_protocol : Z;
  m_isConnected : bool;
  m_remoteAddress : option Address;
  m_localAddress : option Address;
}.

Definition newSocket (family type protocol : Z) : Socket :=
  mkSocket (-1) family type protocol false None None.

Definition set_sock (v : Z) (s : Socket) : Socket :=
  mkSocket v (m_family s) (m_type s) (m_protocol s) (m_isConnected s) (m_remoteAddress s) (m_localAddress s).
Definition set_connected (v : bool) (s : Socket) : Socket :=
  mkSocket (m_sock s) (m_family s) (m_type s) (m_protocol s) v (m_remoteAddress s) (m_localAddress s).
Definition set_remote (a : Address) (s : Socket) : Socket :=
  mkSocket (m_sock s) (m_family s) (m_type s) (m_protocol s) (m_isConnected s) (Some a) (m_localAddress s).
Definition set_local (a : Address) (s : Socket) : Socket :=
  mkSocket (m_sock s) (m_family s) (m_type s) (m_protocol s) (m_isConnected s) (m_remoteAddress s) (Some a).

Definition CreateTCP (address : Address) : Socket := newSocket (getFamily address) TCP 0.
Definition CreateUDP (address : Address) : Socket := newSocket (getFamily address) UDP 0.
Definition CreateTCPSocket : Socket := newSocket IPv4 TCP 0.
Definition CreateUDPSocket : Socket := newSocket IPv4 UDP 0.
Definition CreateTCPSocket6 : Socket := newSocket IPv6 TCP 0.
Definition CreateUDPSocket6 : Socket := newSocket IPv6 UDP 0.
Definition CreateUnixTCPSocket : Socket := newSocket UNIX TCP 0.
Definition CreateUnixUDPSocket : Socket := newSocket UNIX UDP 0.

(** [isInvaild]: whether there is a descriptor. *)
Definition isInvaild (s : Socket) : bool := negb (m_sock s =? -1).

(** ** Addresses *)

(** The object a name is stored to: the case of [AF_UNIX] runs on into the
    default. *)
Definition blank_address (host : endian) (family : Z) : Address :=
  if family =? AF_INET then IPv4Address (newIPv4Address host 0 0)
  else if family =? AF_INET6 then IPv6Address newIPv6Address_default
  else UnknownAddress (u16 family) (replicate 14 0).

(** The kernel stores an address over the structure, as much as fits. *)
Definition store_address (host : endian) (k : sockaddr) (a : Address) : outcome Address :=
  let old := addr_bytes host a in
  let l := splice 0 (take (List.length old) k) old in
  match a with
  | IPv4Address _ => r ← copy_in host l; Ok (IPv4Address r)
  | IPv6Address _ => r ← copy_in6 host l; Ok (IPv6Address r)
  | UnixAddr a =>
      f ← field_at host uint16_t 0 l;
      Ok (UnixAddr (UA f (splice 0 (drop 2 l) (sun_path a)) (m_length a)))
  | UnknownAddress _ _ => f ← field_at host uint16_t 0 l; Ok (UnknownAddress f (drop 2 l))
  end.

(** [dynamic_pointer_cast<UnixAddress>(result)->setAddrLen(addrlen)] *)
Definition fix_unix_length (family : Z) (k : sockaddr) (a : Address) : outcome Address :=
  if family =? AF_UNIX then
    match a with
    | UnixAddr u => Ok (UnixAddr (setAddrLen (Z.of_nat (List.length k)) u))
    | _ => Err (UB null_deref)
    end
  else Ok a.

(** [toString] of an address. *)
Definition address_text (host : endian) (a : Address) : string :=
  match a with
  | IPv4Address a => v4_insert host a
  | IPv6Address a => v6_insert host a
  | UnixAddr a => Address.getPath a
  | UnknownAddress f _ => ("[UnknownAddress family=" ++ decimal f ++ "]")%string
  end.

Section socket.
Context (host : endian) {W : Type} `{!Net W}.

Definition getRemoteAddress (s : Socket) (w : W) : outcome (Address * Socket * W) :=
  match m_remoteAddress s with
  | Some a => Ok (a, s, w)
  | None =>
      '(o, w) ← net_getpeername (m_sock s) w;
      match o with
      | None => Ok (UnknownAddress (u16 (m_family s)) (replicate 14 0), s, w)
      | Some k =>
          a ← store_address host k (blank_address host (m_family s));
          a ← fix_unix_length (m_family s) k a;
          Ok (a, set_remote a s, w)
      end
  end.

Definition getLocalAddress (s : Socket) (w : W) : outcome (Address * Socket * W) :=
  match m_localAddress s with
  | Some a => Ok (a, s, w)
  | None =>
      '(o, w) ← net_getsockname (m_sock s) w;
      match o with
      | None => Ok (UnknownAddress (u16 (m_family s)) (replicate 14 0), s, w)
      | Some k =>
          a ← store_address host k (blank_address host (m_family s));
          a ← fix_unix_length (m_family s) k a;
          Ok (a, set_local a s, w)
      end
  end.

(** ** Options *)

Definition setOption (level option : Z) (v : optval) (s : Socket) (w : W) : outcome (bool * W) :=
  '(rt, w) ← net_setsockopt (m_sock s) level option v w; Ok (rt =? 0, w).

Definition getOption (level option : Z) (s : Socket) (w : W) : outcome (bool * Z * W) :=
  '(rt, v, w) ← net_getsockopt (m_sock s) level option w; Ok (rt =? 0, v, w).

Definition getError (s : Socket) (w : W) : outcome (Z * W) :=
  '(b, error, w) ← getOption SOL_SOCKET SO_ERROR s w;
  Ok (if b : bool then error else -1, w).

(** [timeval{int(v / 1000), int(v % 1000 * 1000)}] *)
Definition timeval_of (v : Z) : optval := TimeVal (i32 (v ÷ 1000)) (i32 (Z.rem v 1000 * 1000)).

Definition setSendTimeout (v : Z) (s : Socket) (w : W) : outcome W :=
  '(_, w) ← setOption SOL_SOCKET SO_SNDTIMEO (timeval_of v) s w; Ok w.
Definition setRecvTimeout (v : Z) (s : Socket) (w : W) : outcome W :=
  '(_, w) ← setOption SOL_SOCKET SO_RCVTIMEO (timeval_of v) s w; Ok w.

Definition getSendTimeout (s : Socket) (w : W) : outcome Z :=
  o ← net_fdctx (m_sock s) w;
  Ok match o with Some ctx => i32 (getTimeout SO_SNDTIMEO ctx) | None => -1 end.
Definition getRecvTimeout (s : Socket) (w : W) : outcome Z :=
  o ← net_fdctx (m_sock s) w;
  Ok match o with Some ctx => i32 (getTimeout SO_RCVTIMEO ctx) | None => -1 end.

(** ** Life cycle *)

Definition initSock (s : Socket) (w : W) : outcome W :=
  '(_, w) ← setOption SOL_SOCKET SO_REUSEADDR (IntVal 1) s w;
  if m_type s =? SOCK_STREAM then
    '(_, w) ← setOption IPPROTO_TCP TCP_NODELAY (IntVal 1) s w; Ok w
  else Ok w.

Definition newSock (s : Socket) (w : W) : outcome (Socket * W) :=
  '(fd, w) ← net_socket (m_family s) (m_type s) (m_protocol s) w;
  let s := set_sock fd s in
  if negb (fd =? -1) then w ← initSock s w; Ok (s, w) else Ok (s, w).

Definition init (sock : Z) (s : Socket) (w : W) : outcome (bool * Socket * W) :=
  o ← net_fdctx sock w;
  match o with
  | Some ctx =>
      if m_isSocket ctx && negb (m_isClosed ctx) then
        let s := set_connected true (set_sock sock s) in
        w ← initSock s w;
        '(_, s, w) ← getLocalAddress s w;
        '(_, s, w) ← getRemoteAddress s w;
        Ok (true, s, w)
      else Ok (false, s, w)
  | None => Ok (false, s, w)
  end.

(** [close], which is also the destructor: false if there was something to
    close. *)
Definition close (s : Socket) (w : W) : outcome (bool * Socket * W) :=
  if negb (m_isConnected s) && (m_sock s =? -1) then Ok (true, s, w) else
  let s := set_connected false s in
  if negb (m_sock s =? -1) then
    '(_, w) ← net_close (m_sock s) w; Ok (false, set_sock (-1) s, w)
  else Ok (false, s, w).

(** The object [accept] returns, or the null pointer. *)
Definition accept (s : Socket) (w : W) : outcome (option Socket * W) :=
  let sock := newSocket (m_family s) (m_type s) (m_protocol s) in
  '(newSock, w) ← net_accept (m_sock s) w;
  if newSock =? -1 then Ok (None, w) else
  '(b, sock, w) ← init newSock sock w;
  if b : bool then Ok (Some sock, w)
  else '(_, _, w) ← close sock w; Ok (None, w).

(** A descriptor, made if there is none; then the same family. *)
Definition prepare (addr : Address) (s : Socket) (w : W) : outcome (bool * Socket * W) :=
  '(s, w) ← (if negb (isInvaild s) then newSock s w else Ok (s, w));
  if negb (isInvaild s) then Ok (false, s, w)
  else Ok (getFamily addr =? m_family s, s, w).

Definition bind (addr : Address) (s : Socket) (w : W) : outcome (bool * Socket * W) :=
  '(b, s, w) ← prepare addr s w;
  if negb b then Ok (false, s, w) else
  '(rt, w) ← net_bind (m_sock s) (addr_bytes host addr) w;
  if negb (rt =? 0) then Ok (false, s, w) else
  '(_, s, w) ← getLocalAddress s w;
  Ok (true, s, w).

Definition connect (addr : Address) (timeout_ms : Z) (s : Socket) (w : W)
    : outcome (bool * Socket * W) :=
  '(b, s, w) ← prepare addr s w;
  if negb b then Ok (false, s, w) else
  '(rt, w) ← net_connect (m_sock s) (addr_bytes host addr)
               (if timeout_ms =? NEVER then None else Some timeout_ms) w;
  if negb (rt =? 0) then
    '(_, s, w) ← close s w; Ok (false, s, w)
  else
    let s := set_connected true s in
    '(_, s, w) ← getLocalAddress s w;
    '(_, s, w) ← getRemoteAddress s w;
    Ok (true, s, w).

Definition listen (backlog : Z) (s : Socket) (w : W) : outcome (bool * W) :=
  if negb (isInvaild s) then Ok (false, w) else
  '(rt, w) ← net_listen (m_sock s) backlog w; Ok (rt =? 0, w).

(** ** Data; the vectored calls pass on the buffers' bytes in order *)

Definition send (buffer : list Z) (flags : Z) (s : Socket) (w : W) : outcome (Z * W) :=
  if m_isConnected s then net_send (m_sock s) buffer None flags w else Ok (-1, w).
Definition send_iov (buffers : list (list Z)) (flags : Z) (s : Socket) (w : W) : outcome (Z * W) :=
  if m_isConnected s then net_send (m_sock s) (List.concat buffers) None flags w else Ok (-1, w).
Definition sendTo (buffer : list Z) (to : Address) (flags : Z) (s : Socket) (w : W) : outcome (Z * W) :=
  if m_isConnected s then net_send (m_sock s) buffer (Some (addr_bytes host to)) flags w
  else Ok (-1, w).
Definition sendTo_iov (buffers : list (list Z)) (to : Address) (flags : Z) (s : Socket) (w : W)
    : outcome (Z * W) :=
  if m_isConnected s then net_send (m_sock s) (List.concat buffers) (Some (addr_bytes host to)) flags w
  else Ok (-1, w).

(** Its result and the bytes received; [lens] are the sizes of the buffers. *)
Definition recv (length : nat) (flags : Z) (s : Socket) (w : W) : outcome (Z * list Z * W) :=
  if m_isConnected s then '(r, b, _, w) ← net_recv (m_sock s) length flags w; Ok (r, b, w)
  else Ok (-1, [], w).
Definition recv_iov (lens : list nat) (flags : Z) (s : Socket) (w : W) : outcome (Z * list Z * W) :=
  if m_isConnected s then '(r, b, _, w) ← net_recv (m_sock s) (sum_list lens) flags w; Ok (r, b, w)
  else Ok (-1, [], w).

(** [recvFrom] stores the sender into [from], as much as fits. *)
Definition recvFrom (length : nat) (from : Address) (flags : Z) (s : Socket) (w : W)
    : outcome (Z * list Z * Address * W) :=
  if m_isConnected s then
    '(r, b, k, w) ← net_recv (m_sock s) length flags w;
    from ← store_address host k from;
    Ok (r, b, from, w)
  else Ok (-1, [], from, w).
Definition recvFrom_iov (lens : list nat) (from : Address) (flags : Z) (s : Socket) (w : W)
    : outcome (Z * list Z * Address * W) :=
  if m_isConnected s then
    '(r, b, k, w) ← net_recv (m_sock s) (sum_list lens) flags w;
    from ← store_address host k from;
    Ok (r, b, from, w)
  else Ok (-1, [], from, w).

Definition CancelRead (s : Socket) (w : W) : outcome (bool * W) := net_cancelEvent (m_sock s) READ w.
Definition CancelWrite (s : Socket) (w : W) : outcome (bool * W) := net_cancelEvent (m_sock s) WRITE w.
Definition CancelAccept (s : Socket) (w : W) : outcome (bool * W) := net_cancelEvent (m_sock s) READ w.
Definition CancelAll (s : Socket) (w : W) : outcome (bool * W) := net_cancelAll (m_sock s) w.

Local Open Scope string_scope.

Definition dump (s : Socket) : string :=
  "[socket sock=" ++ to_string (m_sock s)
  ++ " is_connected=" ++ (if m_isConnected s then "1" else "0")
  ++ " family=" ++ to_string (m_family s)
  ++ " type=" ++ to_string (m_type s)
  ++ " protocol=" ++ to_string (m_protocol s)
  ++ match m_localAddress s with Some a => " localAddress=" ++ address_text host a | None => "" end
  ++ match m_remoteAddress s with Some a => " remoteAddress=" ++ address_text host a | None => "" end
  ++ "]".
End socket.
