(* ===== verification/SocketTheorems.v ===== *)
(** * Sockets own their descriptors

    Over any sequence of operations on any number of [Socket] objects the
    descriptors opened are exactly those the objects hold: each operation is
    shown to act on the descriptors its object owns and on nothing else
    ([frames]), which composes.  Then the addresses of a socket, and what
    cannot work on one. *)

From stdpp Require Import base list gmap sets strings.
From Stdlib Require Import ZArith Lia.
From S2P Require Import Prelude Endian Address AddressTheorems Lookup FdManager IOManager Hook Socket.

Local Open Scope Z_scope.

(** Taking apart a sequence of calls that has returned. *)
Ltac returned :=
  repeat first
    [ progress outcomes
    | match goal with
      | H : (let '(_, _) := ?x in _) = Ok _ |- _ => destruct x
      | H : match ?o with Some _ => _ | None => _ end = Ok _ |- _ => destruct o eqn:?
      end
    | progress simplify_eq/= ].

(** What the calls do to the set of open descriptors. *)
Class NetLaws (W : Type) `{!Net W} (opened : W -> gset Z) := {
  socket_law fam ty pr w fd w' : net_socket fam ty pr w = Ok (fd, w') ->
    (fd = -1 /\ opened w' = opened w) \/ (fd <> -1 /\ fd ∉ opened w /\ opened w' = {[fd]} ∪ opened w);
  accept_law fd w fd' w' : net_accept fd w = Ok (fd', w') ->
    (fd' = -1 /\ opened w' = opened w) \/ (fd' <> -1 /\ fd' ∉ opened w /\ opened w' = {[fd']} ∪ opened w);
  close_law fd w r w' : net_close fd w = Ok (r, w') -> opened w' = opened w ∖ {[fd]};
  bind_law fd a w r w' : net_bind fd a w = Ok (r, w') -> opened w' = opened w;
  listen_law fd n w r w' : net_listen fd n w = Ok (r, w') -> opened w' = opened w;
  connect_law fd a t w r w' : net_connect fd a t w = Ok (r, w') -> opened w' = opened w;
  setsockopt_law fd l o v w r w' : net_setsockopt fd l o v w = Ok (r, w') -> opened w' = opened w;
  getsockopt_law fd l o w r v w' : net_getsockopt fd l o w = Ok (r, v, w') -> opened w' = opened w;
  getpeername_law fd w o w' : net_getpeername fd w = Ok (o, w') -> opened w' = opened w;
  getsockname_law fd w o w' : net_getsockname fd w = Ok (o, w') -> opened w' = opened w;
  send_law fd b a fl w r w' : net_send fd b a fl w = Ok (r, w') -> opened w' = opened w;
  recv_law fd n fl w r b a w' : net_recv fd n fl w = Ok (r, b, a, w') -> opened w' = opened w;
  cancelEvent_law fd e w r w' : net_cancelEvent fd e w = Ok (r, w') -> opened w' = opened w;
  cancelAll_law fd w r w' : net_cancelAll fd w = Ok (r, w') -> opened w' = opened w;
}.

(** The descriptor an object holds. *)
Definition owned (s : Socket) : gset Z := if m_sock s =? -1 then ∅ else {[m_sock s]}.
Definition sock_wf (s : Socket) : Prop := m_isConnected s = true -> m_sock s <> -1.

Section ownership.
Context (host : endian) {W : Type} `{!Net W} (opened : W -> gset Z) `{!NetLaws W opened}.

(** The operations of an object as transitions; reading operations of the
    object alone do nothing here. *)
Inductive acts (s : Socket) (w : W) : Socket -> W -> Prop :=
  | acts_bind a b s' w' : bind host a s w = Ok (b, s', w') -> acts s w s' w'
  | acts_connect a t b s' w' : connect host a t s w = Ok (b, s', w') -> acts s w s' w'
  | acts_listen n b w' : listen n s w = Ok (b, w') -> acts s w s w'
  | acts_close b s' w' : close s w = Ok (b, s', w') -> acts s w s' w'
  | acts_remote a s' w' : getRemoteAddress host s w = Ok (a, s', w') -> acts s w s' w'
  | acts_local a s' w' : getLocalAddress host s w = Ok (a, s', w') -> acts s w s' w'
  | acts_setOption l o v b w' : setOption l o v s w = Ok (b, w') -> acts s w s w'
  | acts_getOption l o b v w' : getOption l o s w = Ok (b, v, w') -> acts s w s w'
  | acts_send b fl r w' : send b fl s w = Ok (r, w') -> acts s w s w'
  | acts_send_iov b fl r w' : send_iov b fl s w = Ok (r, w') -> acts s w s w'
  | acts_sendTo b a fl r w' : sendTo host b a fl s w = Ok (r, w') -> acts s w s w'
  | acts_sendTo_iov b a fl r w' : sendTo_iov host b a fl s w = Ok (r, w') -> acts s w s w'
  | acts_recv n fl r b w' : recv n fl s w = Ok (r, b, w') -> acts s w s w'
  | acts_recv_iov n fl r b w' : recv_iov n fl s w = Ok (r, b, w') -> acts s w s w'
  | acts_recvFrom n a fl r b a' w' : recvFrom host n a fl s w = Ok (r, b, a', w') -> acts s w s w'
  | acts_recvFrom_iov n a fl r b a' w' : recvFrom_iov host n a fl s w = Ok (r, b, a', w') -> acts s w s w'
  | acts_cancel e b w' : net_cancelEvent (m_sock s) e w = Ok (b, w') -> acts s w s w'
  | acts_cancelAll b w' : CancelAll s w = Ok (b, w') -> acts s w s w'.

(** A program on a heap of sockets: [new], the operations, [accept] with the
    object it may return, and [delete], which runs the destructor. *)
Inductive sock_step : gmap nat Socket * W -> gmap nat Socket * W -> Prop :=
  | step_new h w p fam ty pr :
      h !! p = None -> sock_step (h, w) (<[p := newSocket fam ty pr]> h, w)
  | step_acts h w p s s' w' :
      h !! p = Some s -> acts s w s' w' -> sock_step (h, w) (<[p := s']> h, w')
  | step_accept h w p s q o w' :
      h !! p = Some s -> h !! q = None -> accept host s w = Ok (o, w') ->
      sock_step (h, w) (match o with Some c => <[q := c]> h | None => h end, w')
  | step_delete h w p s b s' w' :
      h !! p = Some s -> close s w = Ok (b, s', w') -> sock_step (h, w) (delete p h, w').

(** Only the descriptors an object owns change hands. *)
Definition frames (s : Socket) (w : W) (s' : Socket) (w' : W) : Prop :=
  forall F, F ## owned s -> opened w = F ∪ owned s -> F ## owned s' /\ opened w' = F ∪ owned s'.

Lemma frames_trans s1 w1 s2 w2 s3 w3 :
  frames s1 w1 s2 w2 -> frames s2 w2 s3 w3 -> frames s1 w1 s3 w3.
Proof. intros H1 H2 F Hd Ho. destruct (H1 F Hd Ho). by apply H2. Qed.

Lemma frames_keep s w s' w' : m_sock s' = m_sock s -> opened w' = opened w -> frames s w s' w'.
Proof. intros Hs Hw F Hd Ho. unfold owned in *. by rewrite Hs, Hw. Qed.

Lemma frames_same s w w' : opened w' = opened w -> frames s w s w'.
Proof. by apply frames_keep. Qed.

Lemma setOption_keeps l o v s w b w' : setOption l o v s w = Ok (b, w') -> opened w' = opened w.
Proof using NetLaws0. unfold setOption. intros H. returned. by eapply setsockopt_law. Qed.

Lemma initSock_keeps s w w' : initSock s w = Ok w' -> opened w' = opened w.
Proof using NetLaws0.
  unfold initSock. intros H. returned; repeat match goal with
    | H : setOption _ _ _ _ _ = _ |- _ => apply setOption_keeps in H end; congruence.
Qed.

Lemma remote_keeps s w a s' w' :
  getRemoteAddress host s w = Ok (a, s', w') ->
  m_sock s' = m_sock s /\ m_isConnected s' = m_isConnected s /\ opened w' = opened w.
Proof using NetLaws0.
  unfold getRemoteAddress. intros H. returned; split_and!; try done; by eapply getpeername_law.
Qed.

Lemma local_keeps s w a s' w' :
  getLocalAddress host s w = Ok (a, s', w') ->
  m_sock s' = m_sock s /\ m_isConnected s' = m_isConnected s /\ opened w' = opened w.
Proof using NetLaws0.
  unfold getLocalAddress. intros H. returned; split_and!; try done; by eapply getsockname_law.
Qed.

Lemma names_keep s w a s1 w1 b s' w' :
  getLocalAddress host s w = Ok (a, s1, w1) -> getRemoteAddress host s1 w1 = Ok (b, s', w') ->
  m_sock s' = m_sock s /\ m_isConnected s' = m_isConnected s /\ opened w' = opened w.
Proof using NetLaws0. intros (?&?&?)%local_keeps (?&?&?)%remote_keeps. split_and!; congruence. Qed.

Lemma close_frames s w b s' w' :
  close s w = Ok (b, s', w') -> frames s w s' w' /\ m_sock s' = -1 /\ m_isConnected s' = false.
Proof using NetLaws0.
  unfold close. intros H. returned.
  - apply andb_true_iff in Heqb0 as [E%negb_true_iff ?%Z.eqb_eq].
    split_and!; [by apply frames_same|done|done].
  - split_and!; [|done|done]. intros F Hd Ho. apply close_law in H0. simpl in *.
    unfold owned in *. simpl in *. destruct (Z.eqb_spec (m_sock s) (-1)); [done|].
    rewrite H0, Ho. set_solver.
  - apply negb_false_iff, Z.eqb_eq in Heqb1. simpl in *.
    split_and!; [by apply frames_keep|done|done].
Qed.

Lemma newSock_frames s w s' w' :
  newSock s w = Ok (s', w') -> m_sock s = -1 ->
  frames s w s' w' /\ m_isConnected s' = m_isConnected s.
Proof using NetLaws0.
  unfold newSock. intros H Hs. returned.
  all: match goal with H : net_socket _ _ _ _ = _ |- _ => apply socket_law in H end.
  all: try match goal with H : initSock _ _ = _ |- _ => apply initSock_keeps in H end.
  all: split; [|done]; intros F Hd Ho; unfold owned in *; rewrite Hs in *; cbn in *.
  all: rewrite (right_id_L ∅ (∪)) in Ho; subst F.
  all: destruct (Z.eqb_spec z (-1)); try done; destruct H0 as [[? E]|(? & ? & E)]; try done; clear Hd.
  all: split; [set_solver|]; rewrite ?(right_id_L ∅ (∪)); try congruence.
  by rewrite H1, E, (comm_L (∪)).
Qed.

Lemma prepare_frames a s w b s' w' :
  prepare a s w = Ok (b, s', w') ->
  frames s w s' w' /\ m_isConnected s' = m_isConnected s /\ (b = true -> m_sock s' <> -1)
  /\ (m_sock s <> -1 -> m_sock s' = m_sock s).
Proof using NetLaws0.
  unfold prepare. intros H. apply bind_ok in H as ([s1 w1] & H1 & H2).
  assert (frames s w s1 w1 /\ m_isConnected s1 = m_isConnected s
          /\ (m_sock s <> -1 -> m_sock s1 = m_sock s)) as (Hf & Hc & Hk).
  { unfold isInvaild in H1. destruct (Z.eqb_spec (m_sock s) (-1)); simpl in H1.
    - apply newSock_frames in H1 as [??]; [|done]. by split_and!.
    - simplify_eq. split_and!; [by apply frames_same|done..]. }
  unfold isInvaild in H2. destruct (Z.eqb_spec (m_sock s1) (-1)); simpl in H2; simplify_eq; by split_and!.
Qed.

Lemma bind_frames a s w b s' w' :
  bind host a s w = Ok (b, s', w') -> frames s w s' w' /\ (sock_wf s -> sock_wf s').
Proof using NetLaws0.
  unfold bind. intros H. apply bind_ok in H as ([[b1 s1] w1] & (Hf & Hc & Hb & Hk)%prepare_frames & H).
  assert (sock_wf s -> sock_wf s1) as Hwf by (unfold sock_wf; rewrite Hc; intros Hs Ht; rewrite Hk; auto).
  destruct b1; cbn [negb] in H; returned; [| |by split].
  all: match goal with H : net_bind _ _ _ = _ |- _ => apply bind_law in H end.
  - split; [|done]. eapply frames_trans; [exact Hf|]. by apply frames_same.
  - match goal with H : getLocalAddress _ _ _ = _ |- _ => apply local_keeps in H as (E1 & E2 & E3) end. split.
    + eapply frames_trans; [exact Hf|]. apply frames_keep; congruence.
    + unfold sock_wf in *. by rewrite E1, E2.
Qed.

Lemma connect_frames a t s w b s' w' :
  connect host a t s w = Ok (b, s', w') ->
  frames s w s' w' /\ (sock_wf s -> sock_wf s') /\ (b = true -> m_isConnected s' = true).
Proof using NetLaws0.
  unfold connect. intros H. apply bind_ok in H as ([[b1 s1] w1] & (Hf & Hc & Hb & Hk)%prepare_frames & H).
  destruct b1; cbn [negb] in H; returned;
    try match goal with H : net_connect _ _ _ _ = _ |- _ => apply connect_law in H as Hw end.
  - match goal with H : close _ _ = _ |- _ => apply close_frames in H as (Hf' & E & E') end. split_and!; [|unfold sock_wf; by rewrite E'|done].
    eapply frames_trans; [exact Hf|]. eapply frames_trans; [|exact Hf']. by apply frames_same.
  - match goal with
    | H : getLocalAddress _ _ _ = _, H' : getRemoteAddress _ _ _ = _ |- _ =>
        destruct (names_keep _ _ _ _ _ _ _ _ H H') as (E1 & E2 & E3)
    end.
    split_and!; [|intros _ _; rewrite E1; by apply Hb|by rewrite E2].
    eapply frames_trans; [exact Hf|]. apply frames_keep; [done|congruence].
  - split_and!; [done| |done]. unfold sock_wf. rewrite Hc. intros Hs Ht. rewrite Hk; auto.
Qed.

Lemma acts_frames s w s' w' : acts s w s' w' -> frames s w s' w' /\ (sock_wf s -> sock_wf s').
Proof using NetLaws0.
  destruct 1 as [? ? ? ? H|? ? ? ? ? H|? ? ? H|? ? ? H|? ? ? H|? ? ? H|? ? ? ? ? H|? ? ? ? ? H
    |? ? ? ? H|? ? ? ? H|? ? ? ? ? H|? ? ? ? ? H|? ? ? ? ? H|? ? ? ? ? H|? ? ? ? ? ? ? H|? ? ? ? ? ? ? H
    |? ? ? H|? ? H].
  - by apply bind_frames in H.
  - by apply connect_frames in H as (? & ? & _).
  - split; [|done]. apply frames_same. unfold listen in H. returned; [done|by eapply listen_law].
  - apply close_frames in H as (? & E & E'). split; [done|]. unfold sock_wf. by rewrite E'.
  - apply remote_keeps in H as (E & E' & ?). split; [by apply frames_keep|]. unfold sock_wf. by rewrite E, E'.
  - apply local_keeps in H as (E & E' & ?). split; [by apply frames_keep|]. unfold sock_wf. by rewrite E, E'.
  - split; [|done]. apply frames_same. by eapply setOption_keeps.
  - split; [|done]. apply frames_same. unfold getOption in H. returned. by eapply getsockopt_law.
  - split; [|done]. apply frames_same. unfold send in H. returned; [by eapply send_law|done].
  - split; [|done]. apply frames_same. unfold send_iov in H. returned; [by eapply send_law|done].
  - split; [|done]. apply frames_same. unfold sendTo in H. returned; [by eapply send_law|done].
  - split; [|done]. apply frames_same. unfold sendTo_iov in H. returned; [by eapply send_law|done].
  - split; [|done]. apply frames_same. unfold recv in H. returned; [by eapply recv_law|done].
  - split; [|done]. apply frames_same. unfold recv_iov in H. returned; [by eapply recv_law|done].
  - split; [|done]. apply frames_same. unfold recvFrom in H. returned; [by eapply recv_law|done].
  - split; [|done]. apply frames_same. unfold recvFrom_iov in H. returned; [by eapply recv_law|done].
  - split; [|done]. apply frames_same. by eapply cancelEvent_law.
  - split; [|done]. apply frames_same. by eapply cancelAll_law.
Qed.

(** A descriptor that [accept] returns has a context: hooks are enabled. *)
Definition accepts_managed : Prop := forall fd w fd' w',
  net_accept fd w = Ok (fd', w') -> fd' <> -1 ->
  exists ctx, net_fdctx fd' w' = Ok (Some ctx) /\ m_isSocket ctx = true /\ m_isClosed ctx = false.

Lemma accept_owns s w o w' :
  accepts_managed -> accept host s w = Ok (o, w') ->
  match o with
  | None => opened w' = opened w
  | Some c => m_isConnected c = true /\ m_sock c <> -1 /\ m_sock c ∉ opened w
              /\ opened w' = {[m_sock c]} ∪ opened w
  end.
Proof using NetLaws0.
  intros Hm H. unfold accept in H. apply bind_ok in H as ([fd w1] & Ha & H).
  destruct (Z.eqb_spec fd (-1)) as [->|Hn].
  { simplify_eq. by apply accept_law in Ha as [[_ ?]|(? & _)]. }
  destruct (Hm _ _ _ _ Ha Hn) as (ctx & Hc & Hs & Hcl).
  apply accept_law in Ha as [[? _]|(_ & Hfd & Ho)]; [done|].
  unfold init in H. rewrite Hc, bind_Ok, Hs, Hcl in H. cbn [negb andb] in H. returned.
  match goal with
  | H : getLocalAddress _ _ _ = _, H' : getRemoteAddress _ _ _ = _, Hi : initSock _ _ = _ |- _ =>
      destruct (names_keep _ _ _ _ _ _ _ _ H H') as (E1 & E2 & E3); apply initSock_keeps in Hi
  end.
  cbn in E1, E2. split_and!; congruence.
Qed.

(** [base]: the descriptors opened by others. *)
Record owns_all (base : gset Z) (h : gmap nat Socket) (w : W) : Prop := {
  oa_wf p s : h !! p = Some s -> sock_wf s;
  oa_base p s : h !! p = Some s -> base ## owned s;
  oa_disjoint p q s t : p <> q -> h !! p = Some s -> h !! q = Some t -> owned s ## owned t;
  oa_opened fd : fd ∈ opened w <-> fd ∈ base \/ exists p s, h !! p = Some s /\ fd ∈ owned s;
}.

(** An operation that frames keeps the ownership of all. *)
Lemma owns_all_frames base h w p s s' w' :
  owns_all base h w -> h !! p = Some s -> frames s w s' w' -> sock_wf s' ->
  owns_all base (<[p := s']> h) w'.
Proof.
  intros [Hwf Hb Hd Ho] Hp Hf Hs'.
  destruct (Hf (opened w ∖ owned s)) as [Hd' Ho']; [set_solver| |].
  { rewrite (comm_L (∪)). apply union_difference_L. intros fd Hfd. apply Ho. right. eauto. }
  assert (forall q t, q <> p -> h !! q = Some t -> owned t ⊆ opened w ∖ owned s) as Hsub.
  { intros q t Hq Ht fd Hfd. apply elem_of_difference. split; [apply Ho; right; by eauto|].
    intros Hfd'. by apply (Hd q p t s Hq Ht Hp fd). }
  split.
  - intros q t [[<- <-]|[? Ht]]%lookup_insert_Some; [done|by eapply Hwf].
  - intros q t [[<- <-]|[? Ht]]%lookup_insert_Some; [|by eapply Hb].
    intros fd Hfd Hfd'. apply (Hd' fd); [|done]. apply elem_of_difference.
    split; [apply Ho; by left|]. intros Hfd2. by apply (Hb p s Hp fd).
  - intros q r t u Hqr [[<- <-]|[? Ht]]%lookup_insert_Some [[<- <-]|[? Hu]]%lookup_insert_Some.
    + done.
    + specialize (Hsub r u ltac:(done) Hu). set_solver.
    + specialize (Hsub q t ltac:(done) Ht). set_solver.
    + by apply (Hd q r).
  - intros fd. rewrite Ho', elem_of_union, elem_of_difference, Ho. split.
    + intros [[[?|(q & t & Ht & Hfd)] Hn]|Hfd]; [by left| |].
      * right. exists q, t. split; [|done]. apply lookup_insert_Some. right. split; [|done].
        intros <-. by simplify_eq.
      * right. exists p, s'. split; [|done]. apply lookup_insert_Some. by left.
    + intros [Hfd|(q & t & [[<- <-]|[Hq Ht]]%lookup_insert_Some & Hfd)]; [|by right|].
      * left. split; [by left|]. intros Hfd2. by apply (Hb p s Hp fd).
      * left. split; [right; by eauto|]. intros Hfd2. by apply (Hd p q s t Hq Hp Ht fd).
Qed.

Lemma owns_all_new base h w p s :
  owns_all base h w -> h !! p = None -> m_sock s = -1 -> m_isConnected s = false ->
  owns_all base (<[p := s]> h) w.
Proof.
  intros [Hwf Hb Hd Ho] Hp Hs Hc.
  assert (owned s = ∅) as Hown by (unfold owned; by rewrite Hs).
  split.
  - intros q t [[<- <-]|[? Ht]]%lookup_insert_Some; [unfold sock_wf; by rewrite Hc|by eapply Hwf].
  - intros q t [[<- <-]|[? Ht]]%lookup_insert_Some; [rewrite Hown; set_solver|by eapply Hb].
  - intros q r t u Hqr [[<- <-]|[? Ht]]%lookup_insert_Some [[<- <-]|[? Hu]]%lookup_insert_Some;
      rewrite ?Hown; [done|set_solver..|by apply (Hd q r)].
  - intros fd. rewrite Ho. split; (intros [?|(q & t & Ht & Hfd)]; [by left|right]).
    + exists q, t. rewrite lookup_insert_ne by (by intros <-; rewrite Hp in Ht). done.
    + apply lookup_insert_Some in Ht as [[<- <-]|[? Ht]]; [|by eauto]. rewrite Hown in Hfd. set_solver.
Qed.

Lemma owns_all_delete base h w p s :
  owns_all base h w -> h !! p = Some s -> m_sock s = -1 -> owns_all base (delete p h) w.
Proof.
  intros [Hwf Hb Hd Ho] Hp Hs.
  assert (owned s = ∅) as Hown by (unfold owned; by rewrite Hs).
  split.
  - intros q t [? Ht]%lookup_delete_Some. by eapply Hwf.
  - intros q t [? Ht]%lookup_delete_Some. by eapply Hb.
  - intros q r t u Hqr [? Ht]%lookup_delete_Some [? Hu]%lookup_delete_Some. by apply (Hd q r).
  - intros fd. rewrite Ho. split; (intros [?|(q & t & Ht & Hfd)]; [by left|right]).
    + exists q, t. rewrite lookup_delete_ne; [done|]. intros <-. simplify_eq. rewrite Hown in Hfd. set_solver.
    + apply lookup_delete_Some in Ht as [? Ht]. eauto.
Qed.

Lemma owns_all_step base h w h' w' :
  accepts_managed -> owns_all base h w -> sock_step (h, w) (h', w') -> owns_all base h' w'.
Proof using NetLaws0.
  intros Hm Hi Hs. inversion Hs; subst.
  - by apply owns_all_new.
  - match goal with H : acts _ _ _ _ |- _ => apply acts_frames in H as [Hf Hwf] end.
    eapply owns_all_frames; [done..|]. apply Hwf. by eapply oa_wf.
  - match goal with H : accept _ _ _ = _ |- _ => apply accept_owns in H as Ha; [|done] end.
    destruct o as [c|].
    + destruct Ha as (Hc & Hn & Hnew & Ho).
      assert (owns_all base (<[q := newSocket 0 0 0]> h) w) as Hi' by by apply owns_all_new.
      rewrite <- (insert_insert_eq h q c (newSocket 0 0 0)).
      eapply owns_all_frames; [exact Hi'|apply lookup_insert_eq| |by intros _].
      intros F Hd HF. unfold owned in *. cbn in HF. rewrite (right_id_L ∅ (∪)) in HF. subst F.
      destruct (Z.eqb_spec (m_sock c) (-1)); [done|]. split; [set_solver|]. by rewrite Ho, (comm_L (∪)).
    + destruct Hi as [I1 I2 I3 I4]. split; [done..|]. by rewrite Ha.
  - match goal with H : close _ _ = _ |- _ => apply close_frames in H as (Hf & E & E') end.
    rewrite <- (delete_insert_eq h p s').
    eapply owns_all_delete; [|apply lookup_insert_eq|done].
    eapply owns_all_frames; [done..|]. unfold sock_wf. by rewrite E'.
Qed.

Lemma owns_all_reachable h w0 w :
  accepts_managed -> rtc sock_step (∅, w0) (h, w) -> owns_all (opened w0) h w.
Proof using NetLaws0.
  intros Hm Hr. remember (∅, w0) as x eqn:Ex. remember (h, w) as y eqn:Ey. revert h w Ey.
  apply rtc_ind_r with (P := fun y => forall h w, y = (h, w) -> owns_all (opened w0) h w) in Hr;
    [intros h w ->; by apply Hr|..]; subst x.
  - intros h' w' [= <- <-]. split; [done..|]. intros fd. split; [by left|]. by intros [?|(p & s & ? & _)].
  - intros [h1 w1] y' _ Hs IH h2 w2 ->. by eapply owns_all_step; [..|apply IH|].
Qed.

(** The open descriptors, as those the objects hold. *)
Lemma owns_all_opened base h w fd :
  owns_all base h w ->
  fd ∈ opened w <-> fd ∈ base \/ fd <> -1 /\ exists p s, h !! p = Some s /\ m_sock s = fd.
Proof.
  intros [_ _ _ Ho]. rewrite Ho. unfold owned. split; (intros [?|H]; [by left|right]).
  - destruct H as (p & s & Hp & Hfd). destruct (Z.eqb_spec (m_sock s) (-1)); [set_solver|].
    apply elem_of_singleton in Hfd as ->. eauto.
  - destruct H as (Hn & p & s & Hp & <-). exists p, s. rewrite (proj2 (Z.eqb_neq _ _) Hn). set_solver.
Qed.
End ownership.

(** ** A small network

    It opens the descriptor above all those open; every descriptor has a
    context if hooks are on. *)

Record net1 := Net1 { n_open : list Z; n_peer : sockaddr; n_up : bool }.

Definition n_next (w : net1) : Z := foldr Z.max 2 (n_open w) + 1.
Definition n_make (w : net1) : Z * net1 :=
  (n_next w, Net1 (n_next w :: n_open w) (n_peer w) (n_up w)).

Definition net1_Net (hook : bool) : Net net1 := {|
  net_socket _ _ _ w := Ok (n_make w);
  net_bind _ _ w := Ok (0, w);
  net_listen _ _ w := Ok (0, w);
  net_connect _ _ _ w := Ok (if n_up w then 0 else -1, w);
  net_accept _ w := Ok (if n_up w then n_make w else (-1, w));
  net_close fd w := Ok (0, Net1 (filter (fun x => x <> fd) (n_open w)) (n_peer w) (n_up w));
  net_setsockopt _ _ _ _ w := Ok (0, w);
  net_getsockopt _ _ _ w := Ok (0, 0, w);
  net_getpeername _ w := Ok (Some (n_peer w), w);
  net_getsockname _ w := Ok (Some (n_peer w), w);
  net_send _ b _ _ w := Ok (Z.of_nat (Nat.min (length b) 1000), w);
  net_recv _ _ _ w := Ok (0, [], [], w);
  net_fdctx fd w := Ok (if hook then Some (mkFdCtx true true true false false fd NEVER NEVER) else None);
  net_cancelEvent _ _ w := Ok (false, w);
  net_cancelAll _ w := Ok (false, w);
|}.

Definition n_opened (w : net1) : gset Z := list_to_set (n_open w).

Lemma foldr_max_bound l x : x ∈ l -> x <= foldr Z.max 2 l.
Proof. induction l as [|y l IH]; simpl; [set_solver|]. intros [->|H]%elem_of_cons; [lia|]. specialize (IH H). lia. Qed.

Lemma n_make_fresh w : fst (n_make w) <> -1 /\ fst (n_make w) ∉ n_opened w
  /\ n_opened (snd (n_make w)) = {[fst (n_make w)]} ∪ n_opened w.
Proof.
  assert (2 <= foldr Z.max 2 (n_open w)) by (induction (n_open w); simpl; lia).
  unfold n_make, n_next. cbn [fst snd]. split_and!; [lia| |done].
  unfold n_opened. rewrite elem_of_list_to_set. intros H1%foldr_max_bound. lia.
Qed.

Lemma net1_laws hook : NetLaws net1 (Net0 := net1_Net hook) n_opened.
Proof.
  constructor; intros; cbn in *; simplify_eq; try done.
  - right. apply (n_make_fresh w).
  - destruct (n_up w); simplify_eq; [|by left].
    right. pose proof (n_make_fresh w) as Hf. by rewrite H in Hf.
  - unfold n_opened. cbn. apply set_eq. intros x.
    rewrite elem_of_difference, !elem_of_list_to_set, list_elem_of_filter. set_solver.
Qed.

Lemma net1_managed : accepts_managed (Net0 := net1_Net true).
Proof. intros fd w fd' w' _ _. cbn. by eexists. Qed.

(** ** Properties *)

(** C9: In every run of operations on any number of sockets, beginning with no
    object, the open descriptors are those open at the start and exactly those
    the objects hold, no two objects hold the same one, none holds one opened
    by others, and a connected object holds one: nothing leaks, nothing is
    closed twice, nobody's descriptor is closed, if an accepted descriptor has
    a context. *)
Theorem sockets_own_descriptors host {W} `{!Net W} opened `{!NetLaws W opened} h (w0 w : W) :
  accepts_managed -> rtc (sock_step host) (∅, w0) (h, w) ->
  (forall p s, h !! p = Some s -> (m_isConnected s = true -> m_sock s <> -1)
     /\ (m_sock s <> -1 -> m_sock s ∈ opened w /\ m_sock s ∉ opened w0))
  /\ (forall p q s t, h !! p = Some s -> h !! q = Some t -> m_sock s <> -1 ->
       m_sock s = m_sock t -> p = q)
  /\ (forall fd, fd ∈ opened w <->
       fd ∈ opened w0 \/ fd <> -1 /\ exists p s, h !! p = Some s /\ m_sock s = fd).
Proof.
  intros Hm Hr.
  pose proof (owns_all_reachable host opened h w0 w Hm Hr) as Ha. destruct (Ha) as [Hwf Hb Hd Ho].
  unfold owned in *. split_and!.
  - intros p s Hp. split; [by apply (Hwf p)|]. specialize (Hb p s Hp). intros Hn.
    rewrite (proj2 (Z.eqb_neq _ _) Hn) in Hb. split; [|set_solver].
    apply Ho. right. exists p, s. rewrite (proj2 (Z.eqb_neq _ _) Hn). set_solver.
  - intros p q s t Hp Hq Hn E. destruct (decide (p = q)); [done|exfalso].
    specialize (Hd p q s t ltac:(done) Hp Hq). rewrite <- E, (proj2 (Z.eqb_neq _ _) Hn) in Hd. set_solver.
  - intros fd. by apply owns_all_opened.
Qed.

(** A server and a client it has accepted. *)
Definition any4 : Address := IPv4Address (newIPv4Address SYLAR_BIG_ENDIAN 0 80).
Definition peer4 : sockaddr := addr_bytes SYLAR_BIG_ENDIAN (IPv4Address (newIPv4Address SYLAR_BIG_ENDIAN 7 80)).
Definition start1 : net1 := Net1 [0] peer4 true.

#[local] Notation hooked1 := (net1_Net true).

Definition serve_one : outcome (Socket * Socket * net1) :=
  '(_, s, w) ← bind SYLAR_BIG_ENDIAN (Net0 := hooked1) any4 (newSocket AF_INET TCP 0) start1;
  '(_, w) ← listen (Net0 := hooked1) SOMAXCONN s w;
  '(o, w) ← accept SYLAR_BIG_ENDIAN (Net0 := hooked1) s w;
  c ← deref null_deref o;
  Ok (s, c, w).

Lemma serve_one_reachable s c w :
  serve_one = Ok (s, c, w) ->
  rtc (sock_step SYLAR_BIG_ENDIAN (Net0 := hooked1)) (∅, start1) (<[1%nat := c]> (<[0%nat := s]> ∅), w).
Proof.
  unfold serve_one. intros H. apply bind_ok in H as ([[b s1] w1] & Hb & H).
  apply bind_ok in H as ([b2 w2] & Hl & H). apply bind_ok in H as ([o w3] & Ha & H).
  apply bind_ok in H as (c' & Hc & [= <- <- <-]). destruct o as [x|]; [injection Hc as ->|done].
  eapply rtc_l; [by apply (step_new _ ∅ start1 0%nat AF_INET TCP 0)|].
  eapply rtc_l; [eapply (step_acts _ _ _ 0%nat); [apply lookup_insert_eq|eapply acts_bind, Hb]|].
  rewrite insert_insert_eq.
  eapply rtc_l; [eapply (step_acts _ _ _ 0%nat); [apply lookup_insert_eq|eapply acts_listen, Hl]|].
  rewrite insert_insert_eq. apply rtc_once.
  eapply (step_accept _ _ _ 0%nat _ 1%nat (Some c')); [apply lookup_insert_eq|done|exact Ha].
Qed.

Lemma sockets_own_descriptors_witness : exists s c w, serve_one = Ok (s, c, w)
  /\ m_sock c = 4 /\ (m_sock c ∈ n_opened w /\ m_sock c ∉ n_opened start1).
Proof.
  eexists _, _, _. split; [vm_compute; reflexivity|]. split; [reflexivity|].
  eapply (proj1 (sockets_own_descriptors SYLAR_BIG_ENDIAN (Net0 := hooked1) n_opened
      (NetLaws0 := net1_laws true) _ _ _ net1_managed (serve_one_reachable _ _ _ ltac:(vm_compute; reflexivity))) 1%nat);
    [by apply lookup_insert_eq|discriminate].
Defined.

(** Without a context (the [accept] of [hook.cc] makes one) the accepted
    descriptor is dropped and stays open. *)
Lemma unhooked_accept_leaks :
  exists w', accept SYLAR_BIG_ENDIAN (Net0 := net1_Net false) (set_sock 3 CreateTCPSocket) start1 = Ok (None, w')
    /\ n_open w' = [3; 0].
Proof. eexists. split; vm_compute; reflexivity. Qed.

Section names.
Context (host : endian) {W : Type} `{!Net W}.

(** The object for a Unix name is an [UnknownAddress]. *)
Lemma unix_name_faults k :
  (a ← store_address host k (blank_address host AF_UNIX); fix_unix_length AF_UNIX k a) = Err (UB null_deref).
Proof.
  unfold blank_address, store_address. cbn [Z.eqb AF_UNIX AF_INET AF_INET6 Pos.eqb].
  set (l := splice _ _ _). unfold field_at, field_bytes.
  assert (16 <= length l)%nat as Hl.
  { subst l. rewrite length_splice; [|rewrite length_take]; unfold addr_bytes;
      rewrite length_app, length_obj_bytes, length_replicate; cbn [ct_size uint16_t]; lia. }
  rewrite (proj2 (Nat.leb_le _ _)) by (cbn [ct_size uint16_t]; lia). done.
Qed.

Lemma unix_local_faults s w k w' :
  m_family s = AF_UNIX -> m_localAddress s = None -> net_getsockname (m_sock s) w = Ok (Some k, w') ->
  getLocalAddress host s w = Err (UB null_deref).
Proof.
  intros Hf Hl Hk. unfold getLocalAddress. rewrite Hl, Hk, bind_Ok, Hf.
  pose proof (unix_name_faults k) as Hn.
  destruct (store_address _ _ _) as [a|e]; [|by injection Hn as ->].
  cbn [mbind outcome_bind] in Hn |- *. by rewrite Hn.
Qed.

(** A Unix socket cannot be bound, connected or accepted: when the system
    call has succeeded and the name of the socket can be read, [getLocalAddress]
    has made an [UnknownAddress] (a missing break) and dereferences the null
    pointer its cast to [UnixAddress] gives. *)
Theorem unix_sockets_fault addr timeout_ms s (w w1 w2 : W) k ctx fd :
  m_family s = AF_UNIX -> m_sock s <> -1 -> getFamily addr = AF_UNIX -> m_localAddress s = None ->
  (forall sk, net_getsockname sk w1 = Ok (Some k, w2)) ->
  (net_bind (m_sock s) (addr_bytes host addr) w = Ok (0, w1) ->
     bind host addr s w = Err (UB null_deref))
  /\ (net_connect (m_sock s) (addr_bytes host addr) (if timeout_ms =? NEVER then None else Some timeout_ms) w
        = Ok (0, w1) ->
     connect host addr timeout_ms s w = Err (UB null_deref))
  /\ (net_accept (m_sock s) w = Ok (fd, w1) -> fd <> -1 ->
      net_fdctx fd w1 = Ok (Some ctx) -> m_isSocket ctx = true -> m_isClosed ctx = false ->
      (forall l o v, net_setsockopt fd l o v w1 = Ok (0, w1)) ->
     accept host s w = Err (UB null_deref)).
Proof.
  intros Hf Hs Ha Hl Hk.
  assert (prepare addr s w = Ok (true, s, w)) as Hp.
  { unfold prepare, isInvaild. rewrite (proj2 (Z.eqb_neq _ _) Hs). cbn [negb mbind outcome_bind].
    rewrite (proj2 (Z.eqb_neq _ _) Hs). by rewrite Ha, Hf. }
  split_and!.
  - intros Hb. unfold bind. rewrite Hp, bind_Ok. cbn [negb]. rewrite Hb, bind_Ok. cbn [Z.eqb negb].
    by rewrite (unix_local_faults _ _ k w2).
  - intros Hc. unfold connect. rewrite Hp, bind_Ok. cbn [negb]. rewrite Hc, bind_Ok. cbn [Z.eqb negb].
    by rewrite (unix_local_faults _ _ k w2).
  - intros Hac Hfd Hctx Hso Hcl Hset. unfold accept. rewrite Hac, bind_Ok, (proj2 (Z.eqb_neq _ _) Hfd).
    unfold init. rewrite Hctx, bind_Ok, Hso, Hcl. cbn [negb andb].
    assert (forall s', m_sock s' = fd -> initSock s' w1 = Ok w1) as Hi.
    { intros s' Hs'. unfold initSock, setOption. rewrite Hs', Hset, !bind_Ok.
      destruct (_ =? _); [|done]. by rewrite Hset, !bind_Ok. }
    rewrite Hi, bind_Ok by done. by rewrite (unix_local_faults _ _ k w2).
Qed.

(** The name of the peer is read once in the life of the object: connecting it
    again, to another peer, leaves the old name. *)
Lemma remote_address_stays s w s' w' a :
  acts host s w s' w' -> m_remoteAddress s = Some a -> m_remoteAddress s' = Some a.
Proof.
  assert (forall s w b s' w', close s w = Ok (b, s', w') -> m_remoteAddress s' = m_remoteAddress s) as Hclose.
  { clear. intros s w b s' w' H. unfold close in H. destruct (_ && _); [by simplify_eq|].
    destruct (negb _); [|by simplify_eq]. by apply bind_ok in H as ([] & _ & [= _ <- _]). }
  assert (forall s w b s' w', getRemoteAddress host s w = Ok (b, s', w') ->
    m_remoteAddress s = Some a -> m_remoteAddress s' = Some a) as Hrem.
  { clear. intros s w b s' w' H Ha. unfold getRemoteAddress in H. rewrite Ha in H. by simplify_eq. }
  assert (forall s w b s' w', getLocalAddress host s w = Ok (b, s', w') ->
    m_remoteAddress s' = m_remoteAddress s) as Hloc.
  { clear. intros s w b s' w' H. unfold getLocalAddress in H. destruct (m_localAddress s); [by simplify_eq|].
    apply bind_ok in H as ([[k|] w1] & _ & H); [|by simplify_eq].
    apply bind_ok in H as (? & _ & H). by apply bind_ok in H as (? & _ & [= _ <- _]). }
  assert (forall x s w b s' w', prepare x s w = Ok (b, s', w') -> m_remoteAddress s' = m_remoteAddress s) as Hprep.
  { clear. intros x s w b s' w' H. unfold prepare in H. apply bind_ok in H as ([s1 w1] & H1 & H).
    assert (m_remoteAddress s1 = m_remoteAddress s) as <-.
    { destruct (negb (isInvaild s)); [|by simplify_eq]. unfold newSock in H1.
      apply bind_ok in H1 as ([fd w2] & _ & H1). destruct (negb _); [|by simplify_eq].
      by apply bind_ok in H1 as (? & _ & [= <- _]). }
    by destruct (isInvaild s1); simplify_eq/=. }
  intros Hact Ha. destruct Hact as [? ? ? ? H|? ? ? ? ? H| |? ? ? H|? ? ? H|? ? ? H| | | | | | | | | | | |]; try done.
  - unfold bind in H. apply bind_ok in H as ([[b1 s1] w1] & Hp%Hprep & H).
    destruct (negb b1); [by simplify_eq; rewrite Hp|]. apply bind_ok in H as ([] & _ & H).
    destruct (negb _); [by simplify_eq; rewrite Hp|].
    apply bind_ok in H as ([[? s2] ?] & Hl%Hloc & [= _ <- _]). by rewrite Hl, Hp.
  - unfold connect in H. apply bind_ok in H as ([[b1 s1] w1] & Hp%Hprep & H).
    destruct (negb b1); [by simplify_eq; rewrite Hp|]. apply bind_ok in H as ([] & _ & H).
    destruct (negb _).
    { apply bind_ok in H as ([[? s2] ?] & Hl%Hclose & [= _ <- _]). by rewrite Hl, Hp. }
    apply bind_ok in H as ([[? s2] ?] & Hl%Hloc & H). cbn in Hl.
    apply bind_ok in H as ([[? s3] ?] & Hr & [= _ <- _]). eapply Hrem; [exact Hr|]. by rewrite Hl, Hp.
  - by rewrite (Hclose _ _ _ _ _ H).
  - by eapply Hrem.
  - by rewrite (Hloc _ _ _ _ _ H).
Qed.

(** A socket is connected by [connect] and [accept] only, so one that is only
    bound can neither send nor receive: no call is made. *)
Lemma bound_is_not_connected addr s w b s' w' :
  bind host addr s w = Ok (b, s', w') -> m_isConnected s = false ->
  forall buf to from n fl w2, sendTo host buf to fl s' w2 = Ok (-1, w2)
    /\ recvFrom host n from fl s' w2 = Ok (-1, [], from, w2).
Proof.
  intros H Hc. assert (m_isConnected s' = false) as Hc'.
  2: { intros. unfold sendTo, recvFrom. by rewrite Hc'. }
  unfold bind in H. apply bind_ok in H as ([[b1 s1] w1] & Hp & H).
  assert (m_isConnected s1 = false) as Hc1.
  { unfold prepare in Hp. apply bind_ok in Hp as ([s2 w2] & H1 & Hp).
    assert (m_isConnected s2 = false).
    { destruct (negb (isInvaild s)); [|by simplify_eq]. unfold newSock in H1.
      apply bind_ok in H1 as ([fd w3] & _ & H1). destruct (negb _); [|by simplify_eq].
      by apply bind_ok in H1 as (? & _ & [= <- _]). }
    by destruct (isInvaild s2); simplify_eq/=. }
  destruct (negb b1); [by simplify_eq|]. apply bind_ok in H as ([] & _ & H).
  destruct (negb _); [by simplify_eq|]. apply bind_ok in H as ([[? s2] ?] & Hl & [= _ <- _]).
  unfold getLocalAddress in Hl. destruct (m_localAddress s1); [by simplify_eq|].
  apply bind_ok in Hl as ([[k|] w3] & _ & Hl); [|by simplify_eq].
  apply bind_ok in Hl as (? & _ & Hl). by apply bind_ok in Hl as (? & _ & [= _ <- _]).
Qed.
End names.

(** The only object a Unix address can be compared with here. *)
Definition unix1 : Address := UnixAddr newUnixAddress_default.

Lemma unix_sockets_fault_witness :
  bind SYLAR_BIG_ENDIAN (Net0 := net1_Net true) unix1 (set_sock 3 CreateUnixTCPSocket) start1 = Err (UB null_deref).
Proof.
  apply (unix_sockets_fault SYLAR_BIG_ENDIAN (Net0 := net1_Net true) unix1 0 _ start1 start1 start1 peer4
    (mkFdCtx true true true false false 3 NEVER NEVER) 3); vm_compute; (reflexivity || discriminate).
Defined.
