(* ===== verification/HookNet.v ===== *)
(** * Sockets over the hooked calls

    The instance of [Net] made of the calls of [Hook.v] run to their end: where
    a call yields, [others] is what the rest of the process does until the
    fiber is scheduled again.  [connect] and [accept] wait, [close] hands out
    the fibers that waited, [setsockopt] keeps timeouts in the contexts. *)

From stdpp Require Import base list gmap sets.
From Stdlib Require Import ZArith Lia.
From S2P Require Import Prelude Endian Timer Address Lookup FdManager Fiber Scheduler IOManager Hook Socket SocketTheorems.

Local Open Scope Z_scope.

(** The original functions: a result and [errno]. *)
Class Kernel (K : Type) := {
  k_epoll_ctl : epoll_op -> Z -> Z -> K -> bool * K;
  k_fstat : K -> Z -> option bool;
  k_getfl : K -> Z -> Z;
  k_setfl : Z -> Z -> K -> K;
  k_socket : Z -> Z -> Z -> K -> Z * Z * K;
  k_bind : Z -> sockaddr -> K -> Z * K;
  k_listen : Z -> Z -> K -> Z * K;
  k_connect : Z -> sockaddr -> K -> Z * Z * K;
  k_accept : Z -> K -> Z * Z * K;
  k_close : Z -> K -> Z * Z * K;
  k_setsockopt : Z -> Z -> Z -> optval -> K -> Z * Z * K;
  k_getsockopt : Z -> Z -> Z -> K -> Z * Z * Z * K;
  k_getpeername : Z -> K -> option sockaddr * K;
  k_getsockname : Z -> K -> option sockaddr * K;
  k_send : Z -> list Z -> option sockaddr -> Z -> K -> Z * Z * K;
  (** data arrives in the caller's memory *)
  k_recv : Z -> nat -> Z -> K -> Z * Z * K;
  k_memory : K -> list Z * sockaddr;
}.

(** The process: the state of the hooks, the tasks handed to the scheduler. *)
Record proc (K : Type) := Proc { p_hooks : hooks; p_ready : list dispatch; p_kern : K }.
Arguments Proc {K} p_hooks p_ready p_kern.
Arguments p_hooks {K} _.
Arguments p_ready {K} _.
Arguments p_kern {K} _.

(** An address not in use. *)
Definition fresh_ptr (s : hooks) : nat :=
  fresh (dom (h_infos s) ∪ dom (h_fns s) ∪ dom (heap (h_timers s)) ∪ dom (ctxs (h_fds s)) : gset nat).

Section hook_net.
Context {K : Type} `{!Kernel K}.
Context (others : proc K -> proc K).
Context (th : caller) (now : K -> Z) (fuel : nat).
(** [s_connect_timeout] *)
Context (connect_timeout : Z).

(** A call of [do_io], and its fiber running again until the call returns. *)
Fixpoint finish_io (rounds : nat) (f : K -> Z * Z * K) (r : result) (w : proc K) : outcome (Z * proc K) :=
  match r with
  | Returned n _ => Ok (n, w)
  | Waits wt =>
      match rounds with
      | O => Err NoFuel
      | S rounds =>
          let w := others w in
          '(r, s, k) ← do_io_resume k_epoll_ctl fuel (fresh_ptr (p_hooks w)) (now (p_kern w)) th f wt
                         (p_hooks w) (p_kern w);
          finish_io rounds f r (Proc s (p_ready w) k)
      end
  end.
Definition run_io (f : K -> Z * Z * K) (fd event timeout_so : Z) (w : proc K) : outcome (Z * proc K) :=
  let a := fresh_ptr (p_hooks w) in
  '(r, s, k) ← do_io k_epoll_ctl fuel a a (now (p_kern w)) th f fd event timeout_so (p_hooks w) (p_kern w);
  finish_io fuel f r (Proc s (p_ready w) k).

Definition so_error_of (fd : Z) (k : K) : Z * Z * Z * K := k_getsockopt fd SOL_SOCKET SO_ERROR k.

Definition run_connect (fd : Z) (a : sockaddr) (timeout_ms : Z) (w : proc K) : outcome (Z * proc K) :=
  let p := fresh_ptr (p_hooks w) in
  '(r, s, k) ← connect_with_timeout k_epoll_ctl so_error_of p p (now (p_kern w)) th (k_connect fd a) fd
                 timeout_ms (p_hooks w) (p_kern w);
  match r with
  | Returned n _ => Ok (n, Proc s (p_ready w) k)
  | Waits wt =>
      let w := others (Proc s (p_ready w) k) in
      '(r, s, k) ← connect_resume so_error_of wt (p_hooks w) (p_kern w);
      match r with
      | Returned n _ => Ok (n, Proc s (p_ready w) k)
      | Waits _ => Err NoFuel
      end
  end.

(** [accept] *)
Definition run_accept (fd : Z) (w : proc K) : outcome (Z * proc K) :=
  '(n, w) ← run_io (k_accept fd) fd READ SO_RCVTIMEO w;
  '(_, s, k) ← accept_result k_fstat k_getfl k_setfl (fresh_ptr (p_hooks w)) (Returned n None)
                 (p_hooks w) (p_kern w);
  Ok (n, Proc s (p_ready w) k).

(** A call that does not wait. *)
Definition at_once (w : proc K) (m : outcome (result * hooks * K)) : outcome (Z * proc K) :=
  '(r, s, k) ← m;
  match r with Returned n _ => Ok (n, Proc s (p_ready w) k) | Waits _ => Err NoFuel end.

Definition in_kernel {A} (f : K -> A * K) (w : proc K) : outcome (A * proc K) :=
  let '(x, k) := f (p_kern w) in Ok (x, Proc (p_hooks w) (p_ready w) k).

#[global] Instance HookNet : Net (proc K) := {|
  net_socket fam ty pr w :=
    at_once w (socket k_fstat k_getfl k_setfl (fresh_ptr (p_hooks w)) th (k_socket fam ty pr)
                 (p_hooks w) (p_kern w));
  net_bind fd a := in_kernel (k_bind fd a);
  net_listen fd n := in_kernel (k_listen fd n);
  net_connect fd a t := run_connect fd a (default connect_timeout t);
  net_accept := run_accept;
  net_close fd w :=
    '(ds, r, s, k) ← Hook.close k_epoll_ctl th fd (k_close fd) (p_hooks w) (p_kern w);
    match r with
    | Returned n _ => Ok (n, Proc s (p_ready w ++ ds) k)
    | Waits _ => Err NoFuel
    end;
  net_setsockopt fd level o v w :=
    let '(tv_sec, tv_usec) := match v with TimeVal s us => (s, us) | IntVal _ => (0, 0) end in
    at_once w (setsockopt th fd level o tv_sec tv_usec (k_setsockopt fd level o v) (p_hooks w) (p_kern w));
  net_getsockopt fd level o w :=
    let '(r, _, v, k) := k_getsockopt fd level o (p_kern w) in
    Ok (r, v, Proc (p_hooks w) (p_ready w) k);
  net_getpeername fd := in_kernel (k_getpeername fd);
  net_getsockname fd := in_kernel (k_getsockname fd);
  net_send fd b a fl := run_io (k_send fd b a fl) fd WRITE SO_SNDTIMEO;
  net_recv fd n fl w :=
    '(r, w) ← run_io (k_recv fd n fl) fd READ SO_RCVTIMEO w;
    let '(b, a) := k_memory (p_kern w) in
    Ok (r, if 0 <? r then take (Z.to_nat r) b else [], if r <? 0 then [] else a, w);
  net_fdctx fd w := o ← fd_ctx fd (p_hooks w); Ok (option_map snd o);
  net_cancelEvent fd event w :=
    _ ← deref null_deref (t_iom th);
    '(b, ds, io, k) ← cancelEvent k_epoll_ctl fd event (h_io (p_hooks w)) (p_kern w);
    Ok (b, Proc (set_io io (p_hooks w)) (p_ready w ++ ds) k);
  net_cancelAll fd w :=
    _ ← deref null_deref (t_iom th);
    '(b, ds, io, k) ← cancelAll k_epoll_ctl fd (h_io (p_hooks w)) (p_kern w);
    Ok (b, Proc (set_io io (p_hooks w)) (p_ready w ++ ds) k);
|}.
End hook_net.

(** ** The laws of [Net] *)

(** What the original functions do to the open descriptors. *)
Definition still {K} (opened : K -> gset Z) (f : K -> Z * Z * K) : Prop :=
  forall k n e k', f k = (n, e, k') -> opened k' = opened k.
(** [-1], or a new descriptor *)
Definition opens (n : Z) (X Y : gset Z) : Prop :=
  (n = -1 /\ Y = X) \/ (n <> -1 /\ n ∉ X /\ Y = {[n]} ∪ X).

Class KernelLaws (K : Type) `{!Kernel K} (opened : K -> gset Z) := {
  k_epoll_law op fd ev k : opened (snd (k_epoll_ctl op fd ev k)) = opened k;
  k_setfl_law fd v k : opened (k_setfl fd v k) = opened k;
  k_socket_law fam ty pr k n e k' : k_socket fam ty pr k = (n, e, k') -> opens n (opened k) (opened k');
  k_accept_law fd k n e k' : k_accept fd k = (n, e, k') -> opens n (opened k) (opened k');
  k_close_law fd k n e k' : k_close fd k = (n, e, k') -> opened k' = opened k ∖ {[fd]};
  k_bind_law fd a k : opened (snd (k_bind fd a k)) = opened k;
  k_listen_law fd n k : opened (snd (k_listen fd n k)) = opened k;
  k_connect_law fd a : still opened (k_connect fd a);
  k_setsockopt_law fd l o v : still opened (k_setsockopt fd l o v);
  k_getsockopt_law fd l o k r e v k' : k_getsockopt fd l o k = (r, e, v, k') -> opened k' = opened k;
  k_getpeername_law fd k : opened (snd (k_getpeername fd k)) = opened k;
  k_getsockname_law fd k : opened (snd (k_getsockname fd k)) = opened k;
  k_send_law fd b a fl : still opened (k_send fd b a fl);
  k_recv_law fd n fl : still opened (k_recv fd n fl);
}.

Section laws.
Context {K : Type} `{!Kernel K} (opened : K -> gset Z) `{!KernelLaws K opened}.
Context (others : proc K -> proc K).
Context (Hothers : forall w, opened (p_kern (others w)) = opened (p_kern w)).
Context (th : caller) (now : K -> Z) (fuel : nat) (connect_timeout : Z).

Lemma addEvent_kernel fd ev cb self cur s k r s' k' :
  addEvent k_epoll_ctl fd ev cb self cur s k = Ok (r, s', k') -> opened k' = opened k.
Proof using KernelLaws0.
  unfold addEvent, addEvent_locked. intros H. apply bind_ok in H as (o & _ & H).
  apply bind_ok in H as ([p s1] & _ & H). apply bind_ok in H as (c & _ & H).
  apply bind_ok in H as (_ & _ & H).
  pose proof (k_epoll_law (if c_events c =? 0 then EPOLL_CTL_ADD else EPOLL_CTL_MOD) fd
    (Z.lor (Z.lor EPOLLET (c_events c)) ev) k) as Hk.
  destruct (k_epoll_ctl _ _ _ k) as [ok k1]. destruct ok; cbn in H, Hk; [|by simplify_eq].
  do 3 apply bind_ok in H as (? & _ & H). by simplify_eq.
Qed.

Lemma cancelEvent_kernel fd ev s k b ds s' k' :
  cancelEvent k_epoll_ctl fd ev s k = Ok (b, ds, s', k') -> opened k' = opened k.
Proof using KernelLaws0.
  unfold cancelEvent, with_ctx, cancelEvent_locked, unregister. intros H.
  apply bind_ok in H as ([p|] & _ & H); [|by simplify_eq].
  apply bind_ok in H as ([o k1] & H1 & H). apply bind_ok in H1 as (c & _ & H1).
  assert (opened k1 = opened k) as Hk.
  { destruct (negb _); [by simplify_eq|].
    pose proof (k_epoll_law (mod_or_del (without (c_events c) ev)) fd
      (Z.lor EPOLLET (without (c_events c) ev)) k) as Hk.
    destruct (k_epoll_ctl _ _ _ k). by simplify_eq. }
  destruct o; [|by simplify_eq]. apply bind_ok in H as ([] & _ & H). by simplify_eq.
Qed.

Lemma cancelAll_kernel fd s k b ds s' k' :
  cancelAll k_epoll_ctl fd s k = Ok (b, ds, s', k') -> opened k' = opened k.
Proof using KernelLaws0.
  unfold cancelAll, with_ctx, cancelAll_locked. intros H.
  apply bind_ok in H as ([p|] & _ & H); [|by simplify_eq].
  apply bind_ok in H as (c & _ & H). destruct (_ =? _); [by simplify_eq|].
  pose proof (k_epoll_law EPOLL_CTL_DEL fd 0 k) as Hk. destruct (k_epoll_ctl _ _ _ k).
  do 2 apply bind_ok in H as ([[] ?] & _ & H). apply bind_ok in H as (_ & _ & H). by simplify_eq.
Qed.

(** An effect on the descriptors that is none when a call fails. *)
Section effect.
Context (E : Z -> gset Z -> gset Z -> Prop).
Hypothesis E_fails : forall X Y, E (-1) X Y <-> Y = X.
Context (f : K -> Z * Z * K).
Hypothesis f_effect : forall k n e k', f k = (n, e, k') -> E n (opened k) (opened k').

Lemma call_io_effect m k n e k' : call_io m f k = Ok (n, e, k') -> E n (opened k) (opened k').
Proof using E_fails f_effect.
  revert k. induction m as [|m IH]; intros k; cbn [call_io]; destruct (f k) as [[n1 e1] k1] eqn:Ef;
    (destruct (_ && _) eqn:Eb; [|intros [= <- <- <-]; by eapply f_effect]); [done|].
  apply andb_true_iff in Eb as [->%Z.eqb_eq _]. apply f_effect in Ef. apply E_fails in Ef.
  intros H%IH. by rewrite Ef in H.
Qed.

(** What a result says about the descriptors. *)
Definition effect_of (r : result) (X Y : gset Z) : Prop :=
  match r with Returned n _ => E n X Y | Waits _ => Y = X end.

Lemma do_io_retry_effect m a t fd ev to ti s k r s' k' :
  do_io_retry k_epoll_ctl m a t th f fd ev to ti s k = Ok (r, s', k') ->
  effect_of r (opened k) (opened k').
Proof using E_fails f_effect KernelLaws0.
  unfold do_io_retry. intros H. apply bind_ok in H as ([[n e] k1] & H1%call_io_effect & H).
  destruct (_ && _) eqn:Eb; [|by simplify_eq].
  apply andb_true_iff in Eb as [->%Z.eqb_eq _]. apply E_fails in H1.
  apply bind_ok in H as (iom & _ & H). destruct (arm _ _ _ _ _ _ _) as [timer s1].
  apply bind_ok in H as ([[rt io] k2] & H2%addEvent_kernel & H).
  destruct (negb _); [apply bind_ok in H as (? & _ & H)|]; simplify_eq/=; rewrite ?E_fails; congruence.
Qed.

Lemma finish_io_effect rounds X r w n w' :
  effect_of r X (opened (p_kern w)) ->
  finish_io others th now fuel rounds f r w = Ok (n, w') -> E n X (opened (p_kern w')).
Proof using E_fails f_effect KernelLaws0 Hothers.
  induction rounds as [|rounds IH] in r, w |- *; intros Hr H; destruct r as [n1 e1|wt];
    cbn in H, Hr; simplify_eq; try done.
  apply bind_ok in H as ([[r s2] k2] & H2 & H). eapply IH; [|exact H]. cbn.
  unfold do_io_resume in H2. apply bind_ok in H2 as (s3 & _ & H2). rewrite <- Hothers.
  destruct (negb _); [simplify_eq; by apply E_fails|]. by eapply do_io_retry_effect.
Qed.

Lemma run_io_effect fd ev to w n w' :
  run_io others th now fuel f fd ev to w = Ok (n, w') -> E n (opened (p_kern w)) (opened (p_kern w')).
Proof using E_fails f_effect KernelLaws0 Hothers.
  unfold run_io. intros H. apply bind_ok in H as ([[r s1] k1] & H1 & H).
  eapply finish_io_effect; [|exact H]. clear H. cbn.
  unfold do_io, direct in H1. destruct (f (p_kern w)) as [[n1 e1] k2] eqn:Ef. apply f_effect in Ef.
  destruct (negb _); [by simplify_eq|]. apply bind_ok in H1 as ([[p ctx]|] & _ & H1); [|by simplify_eq].
  destruct (m_isClosed ctx); [simplify_eq; by apply E_fails|].
  destruct (_ || _); [by simplify_eq|]. by eapply do_io_retry_effect.
Qed.
End effect.

Lemma still_effect f : still opened f -> forall k n e k', f k = (n, e, k') -> opened k' = opened k.
Proof. done. Qed.

Lemma opens_fails X Y : opens (-1) X Y <-> Y = X.
Proof. unfold opens. naive_solver. Qed.

Lemma get_kernel a fd b d k o d' k' :
  FdManager.get k_fstat k_getfl k_setfl a fd b d k = Ok (o, d', k') -> opened k' = opened k.
Proof using KernelLaws0.
  unfold FdManager.get. intros H. apply bind_ok in H as ([r|] & _ & H); [by simplify_eq|].
  apply bind_ok in H as ([[p d1] k1] & H1 & H). simplify_eq.
  unfold get_write, newFdCtx in H1.
  destruct (FdManager.init _ _ _ _ k) as [[b1 c] k2] eqn:Ei.
  apply bind_ok in H1 as (_ & _ & H1). simplify_eq.
  unfold FdManager.init in Ei. cbn in Ei. destruct (k_fstat k fd) as [[]|]; simplify_eq; try done.
  destruct (_ =? _); [apply k_setfl_law|done].
Qed.

Lemma manage_kernel p fd s k s' k' :
  manage k_fstat k_getfl k_setfl p fd s k = Ok (s', k') -> opened k' = opened k.
Proof using KernelLaws0.
  unfold manage. intros H. apply bind_ok in H as ([[o d] k1] & H1%get_kernel & H). by simplify_eq.
Qed.

Lemma connect_kernel fd a t w n w' :
  run_connect others th now fd a t w = Ok (n, w') -> opened (p_kern w') = opened (p_kern w).
Proof using KernelLaws0 Hothers.
  assert (forall ti s k r s' k', connect_result so_error_of fd ti s k = Ok (r, s', k') ->
    opened k' = opened k) as Hres.
  { intros ti s k r s' k' H. unfold connect_result, so_error_of in H.
    destruct (k_getsockopt _ _ _ k) as [[[r1 e] v] k1] eqn:Eg. apply k_getsockopt_law in Eg.
    destruct (_ =? _); [by simplify_eq|]. by destruct (_ =? _); simplify_eq. }
  assert (forall wt s k r s' k', w_fd wt = fd -> connect_resume so_error_of wt s k = Ok (r, s', k') ->
    opened k' = opened k) as Hresume.
  { intros wt s k r s' k' Hw H. unfold connect_resume in H. apply bind_ok in H as (s1 & _ & H).
    destruct (negb _); [by simplify_eq|]. rewrite Hw in H. by eapply Hres. }
  unfold run_connect. intros H. apply bind_ok in H as ([[r s1] k1] & H1 & H).
  assert (opened k1 = opened (p_kern w) /\ (forall wt, r = Waits wt -> w_fd wt = fd)) as [Hk1 Hwt].
  { unfold connect_with_timeout, direct in H1.
    destruct (k_connect fd a (p_kern w)) as [[n1 e1] k2] eqn:Ef. apply k_connect_law in Ef.
    destruct (negb _); [by simplify_eq|]. apply bind_ok in H1 as ([[p ctx]|] & _ & H1); [|by simplify_eq].
    destruct (m_isClosed ctx); [by simplify_eq|]. destruct (negb _); [by simplify_eq|].
    destruct (m_userNonblock ctx); [by simplify_eq|]. destruct (n1 =? 0); [by simplify_eq|].
    destruct (_ || _); [by simplify_eq|]. apply bind_ok in H1 as (iom & _ & H1).
    destruct (arm _ _ _ _ _ _ _) as [timer s2].
    apply bind_ok in H1 as ([[rt io] k3] & Ha%addEvent_kernel & H1).
    destruct (rt =? 0); [simplify_eq; split; [congruence|by intros wt [= <-]]|].
    apply bind_ok in H1 as (s3 & _ & H1). pose proof (Hres _ _ _ _ _ _ H1) as Hk.
    split; [congruence|]. unfold connect_result in H1.
    destruct (so_error_of _ _) as [[[] ?] ?]. intros wt ->.
    destruct (_ =? _); [done|]. by destruct (_ =? _). }
  destruct r as [n1 e1|wt]; [by simplify_eq|].
  apply bind_ok in H as ([[r s2] k2] & H2%Hresume & H); [|by apply Hwt].
  destruct r; simplify_eq/=. rewrite H2, Hothers. done.
Qed.

Lemma accept_kernel fd w n w' :
  run_accept others th now fuel fd w = Ok (n, w') -> opens n (opened (p_kern w)) (opened (p_kern w')).
Proof using KernelLaws0 Hothers.
  unfold run_accept. intros H. apply bind_ok in H as ([n1 w1] & H1 & H).
  eapply (run_io_effect opens) in H1; [|by apply opens_fails|intros; by eapply k_accept_law].
  apply bind_ok in H as ([[r s] k] & H2 & H). simplify_eq/=.
  replace (opened k) with (opened (p_kern w1)); [done|]. destruct (0 <=? n); [|by simplify_eq].
  apply bind_ok in H2 as ([s1 k1] & H2%manage_kernel & H3). by simplify_eq.
Qed.

Lemma hook_close_kernel fd w n w' :
  net_close (Net := HookNet others th now fuel connect_timeout) fd w = Ok (n, w') ->
  opened (p_kern w') = opened (p_kern w) ∖ {[fd]}.
Proof using KernelLaws0.
  cbn. intros H. apply bind_ok in H as ([[[ds r] s] k] & H1 & H). destruct r; simplify_eq/=.
  unfold Hook.close in H1. apply bind_ok in H1 as ([[ds1 s1] k1] & H2 & H1).
  assert (opened k1 = opened (p_kern w)) as <-.
  { destruct (negb _); [by simplify_eq|]. apply bind_ok in H2 as ([?|] & _ & H2); [|by simplify_eq].
    apply bind_ok in H2 as ([[ds2 s2] k2] & H3 & H2). apply bind_ok in H2 as (d & _ & H2). simplify_eq.
    destruct (t_iom th); [|by simplify_eq].
    apply bind_ok in H3 as ([[[b ds2] io] k2] & H4%cancelAll_kernel & H3). by simplify_eq. }
  unfold direct in H1. apply bind_ok in H1 as ([[r s2] k2] & H2' & H1). simplify_eq.
  destruct (k_close fd k1) as [[n1 e1] k3] eqn:Ec. simplify_eq. by eapply k_close_law.
Qed.

Lemma in_kernel_keeps {A} (g : K -> A * K) w x w' :
  (forall k, opened (snd (g k)) = opened k) -> in_kernel g w = Ok (x, w') ->
  opened (p_kern w') = opened (p_kern w).
Proof.
  intros Hg H. unfold in_kernel in H. specialize (Hg (p_kern w)). destruct (g (p_kern w)). by simplify_eq.
Qed.

(** The hooked calls are a [Net] that keeps its laws, if the kernel does and
    the rest of the process leaves the descriptors alone. *)
#[global] Instance hook_net_laws :
  NetLaws (proc K) (Net0 := HookNet others th now fuel connect_timeout) (fun w => opened (p_kern w)).
Proof using KernelLaws0 Hothers.
  constructor.
  - intros fam ty pr w fd w' H. cbn in H. unfold at_once in H.
    apply bind_ok in H as ([[r s] k] & H1 & H). destruct r; simplify_eq/=.
    unfold socket in H1. destruct (k_socket fam ty pr (p_kern w)) as [[n1 e1] k1] eqn:Es.
    apply k_socket_law in Es. destruct (_ || _); [by simplify_eq|].
    apply bind_ok in H1 as ([s1 k2] & H2%manage_kernel & H1). simplify_eq. by rewrite H2.
  - intros fd w fd' w' H. by apply accept_kernel in H.
  - intros fd w r w' H. by apply hook_close_kernel in H.
  - intros fd a w r w'. apply in_kernel_keeps, k_bind_law.
  - intros fd n w r w'. apply in_kernel_keeps, k_listen_law.
  - intros fd a t w r w' H. by apply connect_kernel in H.
  - intros fd l o v w r w' H. cbn in H.
    destruct (match v with TimeVal _ _ => _ | _ => _ end) as [sec usec]. unfold at_once in H.
    apply bind_ok in H as ([[r1 s] k] & H1 & H). destruct r1; simplify_eq/=. unfold setsockopt, direct in H1.
    destruct (k_setsockopt _ _ _ _ _) as [[n1 e1] k1] eqn:Es. apply k_setsockopt_law in Es.
    destruct (negb _); [by simplify_eq|]. destruct (_ && _); [|by simplify_eq].
    apply bind_ok in H1 as ([[p ctx]|] & _ & H1); [|by simplify_eq].
    do 2 apply bind_ok in H1 as (? & _ & H1). by simplify_eq.
  - intros fd l o w r v w' H. cbn in H. destruct (k_getsockopt _ _ _ _) as [[[r1 e1] v1] k1] eqn:Eg.
    apply k_getsockopt_law in Eg. by simplify_eq.
  - intros fd w o w'. apply in_kernel_keeps, k_getpeername_law.
  - intros fd w o w'. apply in_kernel_keeps, k_getsockname_law.
  - intros fd b a fl w r w' H. cbn in H.
    by eapply (run_io_effect (fun _ X Y => Y = X)) in H; [|done|apply still_effect, k_send_law].
  - intros fd n fl w r b a w' H. cbn in H. apply bind_ok in H as ([r1 w1] & H1 & H).
    eapply (run_io_effect (fun _ X Y => Y = X)) in H1; [|done|apply still_effect, k_recv_law].
    destruct (k_memory _). by simplify_eq.
  - intros fd e w r w' H. cbn in H. apply bind_ok in H as (_ & _ & H).
    apply bind_ok in H as ([[[b ds] io] k] & H1%cancelEvent_kernel & H). by simplify_eq.
  - intros fd w r w' H. cbn in H. apply bind_ok in H as (_ & _ & H).
    apply bind_ok in H as ([[[b ds] io] k] & H1%cancelAll_kernel & H). by simplify_eq.
Qed.
End laws.

(** ** Timeouts *)

Section timeouts.
Context {K : Type} `{!Kernel K} (others : proc K -> proc K).
Context (th : caller) (now : K -> Z) (fuel : nat) (connect_timeout : Z).
#[local] Existing Instance HookNet.
#[local] Notation hooked := (HookNet others th now fuel connect_timeout).

Lemma fd_ctx_update fd s p ctx ctx' :
  fd_ctx fd s = Ok (Some (p, ctx)) -> fd_ctx fd (update_ctx p ctx' s) = Ok (Some (p, ctx')).
Proof.
  unfold fd_ctx. intros H. apply bind_ok in H as (o & Ho & H).
  change (get_read fd false (h_fds (update_ctx p ctx' s))) with (get_read fd false (h_fds s)).
  rewrite Ho, bind_Ok. destruct o as [[q|]|]; try done.
  apply bind_ok in H as (c & _ & H). simplify_eq. cbn. by rewrite lookup_insert_eq.
Qed.

(** The timeout a [timeval] made from [v] milliseconds stands for. *)
Definition kept_timeout (v : Z) : Z := i32 (v ÷ 1000) * 1000 + i32 (Z.rem v 1000 * 1000) ÷ 1000.

Lemma timeval_kept v : kept_timeout v = i32 (v ÷ 1000) * 1000 + Z.rem v 1000.
Proof.
  unfold kept_timeout. pose proof (Z.rem_bound_abs v 1000 ltac:(lia)).
  rewrite (i32_small (Z.rem v 1000 * 1000)) by (unfold in_s; lia). by rewrite Z.quot_mul by lia.
Qed.

Lemma setTimeout_hooked o v s w p ctx :
  t_hook_enable th = true -> o = SO_RCVTIMEO \/ o = SO_SNDTIMEO ->
  fd_ctx (m_sock s) (p_hooks w) = Ok (Some (p, ctx)) ->
  exists b w', setOption (Net0 := hooked) SOL_SOCKET o (timeval_of v) s w = Ok (b, w')
    /\ fd_ctx (m_sock s) (p_hooks w') = Ok (Some (p, setTimeout o (kept_timeout v) ctx)).
Proof.
  intros Hh Ho Hc. unfold setOption, timeval_of. cbn [net_setsockopt hooked].
  unfold at_once, setsockopt. rewrite Hh. cbn [negb].
  replace ((SOL_SOCKET =? SOL_SOCKET) && ((o =? SO_RCVTIMEO) || (o =? SO_SNDTIMEO))) with true
    by (destruct Ho as [-> | ->]; reflexivity).
  rewrite Hc, bind_Ok.
  pose proof (wraps_range 32 (v ÷ 1000) ltac:(lia)) as Hr1.
  pose proof (Z.rem_bound_abs v 1000 ltac:(lia)).
  assert (sarith 64 (i32 (v ÷ 1000) * 1000) = Ok (i32 (v ÷ 1000) * 1000)) as ->
    by (apply sarith_small; unfold in_s, i32 in *; lia).
  rewrite bind_Ok. fold (kept_timeout v). rewrite timeval_kept.
  assert (sarith 64 (i32 (v ÷ 1000) * 1000 + Z.rem v 1000) = Ok (kept_timeout v)) as ->
    by (rewrite timeval_kept; apply sarith_small; unfold in_s, i32 in *; lia).
  rewrite bind_Ok. unfold direct. destruct (k_setsockopt _ _ _ _ _) as [[n e] k].
  cbn. eexists _, _. split; [done|]. cbn. rewrite <- timeval_kept. by apply (fd_ctx_update _ _ _ ctx).
Qed.
End timeouts.

Lemma i32_u64 z : i32 (u64 z) = i32 z.
Proof.
  unfold i32, u64, wraps, wrapu. f_equal.
  rewrite <- (Z.add_mod_idemp_l (z mod 2 ^ 64)), Z.mod_mod_divide, Z.add_mod_idemp_l by (lia || by exists (2 ^ 32)).
  done.
Qed.

(** A kernel where nothing fails. *)
Definition unit_kernel : Kernel unit := {|
  k_epoll_ctl _ _ _ k := (true, k);
  k_fstat _ _ := Some true;
  k_getfl _ _ := 0;
  k_setfl _ _ k := k;
  k_socket _ _ _ k := (3, 0, k);
  k_bind _ _ k := (0, k);
  k_listen _ _ k := (0, k);
  k_connect _ _ k := (0, 0, k);
  k_accept _ k := (4, 0, k);
  k_close _ k := (0, 0, k);
  k_setsockopt _ _ _ _ k := (0, 0, k);
  k_getsockopt _ _ _ k := (0, 0, 0, k);
  k_getpeername _ k := (None, k);
  k_getsockname _ k := (None, k);
  k_send _ _ _ _ k := (0, 0, k);
  k_recv _ _ _ k := (0, 0, k);
  k_memory _ := ([], []);
|}.

(** With hooks enabled, a receive or send timeout set on a socket is, for
    every time a [timeval] can hold, the time its hooked calls wait ([-1]
    meaning for ever), and the time read back as an [int]; the other timeout is
    left alone. *)
Theorem socket_timeout_roundtrip {K} `{!Kernel K} others th now fuel ct v s (w : proc K) p ctx :
  t_hook_enable th = true -> fd_ctx (m_sock s) (p_hooks w) = Ok (Some (p, ctx)) ->
  - 2 ^ 31 * 1000 <= v < 2 ^ 31 * 1000 ->
  let N := HookNet others th now fuel ct in
  (exists w' ctx', setRecvTimeout (Net0 := N) v s w = Ok w'
     /\ fd_ctx (m_sock s) (p_hooks w') = Ok (Some (p, ctx'))
     /\ getTimeout SO_RCVTIMEO ctx' = u64 v /\ getTimeout SO_SNDTIMEO ctx' = getTimeout SO_SNDTIMEO ctx
     /\ getRecvTimeout (Net0 := N) s w' = Ok (i32 v))
  /\ (exists w' ctx', setSendTimeout (Net0 := N) v s w = Ok w'
     /\ fd_ctx (m_sock s) (p_hooks w') = Ok (Some (p, ctx'))
     /\ getTimeout SO_SNDTIMEO ctx' = u64 v /\ getTimeout SO_RCVTIMEO ctx' = getTimeout SO_RCVTIMEO ctx
     /\ getSendTimeout (Net0 := N) s w' = Ok (i32 v)).
Proof.
  intros Hh Hc Hv N.
  assert (kept_timeout v = v) as Hk.
  { rewrite timeval_kept, i32_small; [pose proof (Z.quot_rem' v 1000); lia|].
    unfold in_s. Z.to_euclidean_division_equations; lia. }
  split.
  - destruct (setTimeout_hooked others th now fuel ct SO_RCVTIMEO v s w p ctx Hh ltac:(by left) Hc)
      as (b & w' & H1 & H2). rewrite Hk in H2. exists w'. eexists.
    unfold setRecvTimeout, getRecvTimeout, N. rewrite H1. cbn. rewrite H2. cbn.
    split_and!; try done. by rewrite i32_u64.
  - destruct (setTimeout_hooked others th now fuel ct SO_SNDTIMEO v s w p ctx Hh ltac:(by right) Hc)
      as (b & w' & H1 & H2). rewrite Hk in H2. exists w'. eexists.
    unfold setSendTimeout, getSendTimeout, N. rewrite H1. cbn. rewrite H2. cbn.
    split_and!; try done. by rewrite i32_u64.
Qed.

(** Larger times wrap: about 49.7 days more than a multiple of them is no time
    at all. *)
Lemma timeout_wraps : kept_timeout (2 ^ 32 * 1000) = 0.
Proof. reflexivity. Qed.

Definition hooked_proc : proc unit :=
  Proc (Hooks (FDS {[0%nat := mkFdCtx true true true false false 3 NEVER NEVER]} [None; None; None; Some 0%nat])
          (mkTimerManager 0) mkIOManager ∅ ∅) [] tt.

Lemma socket_timeout_roundtrip_witness :
  exists w', setRecvTimeout (Net0 := HookNet (Kernel0 := unit_kernel) id (Caller true (Some 0%nat) (0%nat, EXEC))
      (fun _ => 0) 9 5000) 2500 (set_sock 3 CreateTCPSocket) hooked_proc = Ok w'
    /\ getRecvTimeout (Net0 := HookNet (Kernel0 := unit_kernel) id (Caller true (Some 0%nat) (0%nat, EXEC))
      (fun _ => 0) 9 5000) (set_sock 3 CreateTCPSocket) w' = Ok 2500.
Proof.
  destruct (proj1 (socket_timeout_roundtrip (Kernel0 := unit_kernel) id (Caller true (Some 0%nat) (0%nat, EXEC))
    (fun _ => 0) 9 5000 2500 (set_sock 3 CreateTCPSocket) hooked_proc 0%nat
    (mkFdCtx true true true false false 3 NEVER NEVER) eq_refl ltac:(vm_compute; reflexivity) ltac:(lia)))
    as (w' & ctx' & H1 & _ & _ & _ & H2).
  exists w'. exact (conj H1 H2).
Defined.
