(* ===== verification/TcpServer.v ===== *)
(** * [sylar/tcp_server.h], [sylar/tcp_server.cc]

    A server with its listening sockets, and the tasks it has scheduled on its
    workers: accept loops, the closing of the sockets by [stop], and
    [handleClient] for each connection.  Socket objects live in a heap, since
    [m_socks] and the tasks share them; an object that nothing refers to is
    destroyed.  A round of an accept loop, and each other task, is a step. *)

From stdpp Require Import base list gmap sets strings.
From Stdlib Require Import ZArith Lia.
From S2P Require Import Prelude Endian Address Lookup FdManager Hook Socket SocketTheorems.

Local Open Scope Z_scope.

Record TcpServer := mkTcpServer {
  m_socks : list nat;
  m_recvTimeout : Z;
  m_name : string;
  m_isStop : bool;
  m_ssl : bool;
}.

Definition set_socks (v : list nat) (t : TcpServer) : TcpServer :=
  mkTcpServer v (m_recvTimeout t) (m_name t) (m_isStop t) (m_ssl t).
Definition set_stop (v : bool) (t : TcpServer) : TcpServer :=
  mkTcpServer (m_socks t) (m_recvTimeout t) (m_name t) v (m_ssl t).
Definition set_ssl (v : bool) (t : TcpServer) : TcpServer :=
  mkTcpServer (m_socks t) (m_recvTimeout t) (m_name t) (m_isStop t) v.
Definition setRecvTimeout (v : Z) (t : TcpServer) : TcpServer :=
  mkTcpServer (m_socks t) v (m_name t) (m_isStop t) (m_ssl t).
Definition setName (v : string) (t : TcpServer) : TcpServer :=
  mkTcpServer (m_socks t) (m_recvTimeout t) v (m_isStop t) (m_ssl t).

(** [read_timeout] is the value of the configuration variable
    "tcp_server.read_timeout", two minutes by default. *)
Definition newTcpServer (read_timeout : Z) : TcpServer :=
  mkTcpServer [] read_timeout "sylar/1.0.0" true false.

(** The tasks, with the sockets they hold. *)
Record world (W : Type) := World {
  t_server : TcpServer;
  t_loops : list nat;
  t_stops : nat;
  t_clients : list nat;
  t_heap : gmap nat Socket;
  t_sys : W;
}.
Arguments World {W} t_server t_loops t_stops t_clients t_heap t_sys.
Arguments t_server {W} _.
Arguments t_loops {W} _.
Arguments t_stops {W} _.
Arguments t_clients {W} _.
Arguments t_heap {W} _.
Arguments t_sys {W} _.

Section server.
Context (host : endian) {W : Type} `{!Net W}.
Implicit Type x : world W.

Definition with_server (t : TcpServer) x : world W :=
  World t (t_loops x) (t_stops x) (t_clients x) (t_heap x) (t_sys x).
Definition with_sockets (h : gmap nat Socket) (w : W) x : world W :=
  World (t_server x) (t_loops x) (t_stops x) (t_clients x) h w.

(** Who refers to an object. *)
Definition referred x : list nat := m_socks (t_server x) ++ t_loops x ++ t_clients x.

(** The destructor of an object that is referred to no more. *)
Definition release (p : nat) x : outcome (world W) :=
  if decide (p ∈ referred x) then Ok x else
  match t_heap x !! p with
  | None => Ok x
  | Some s => '(_, _, w) ← close s (t_sys x); Ok (with_sockets (delete p (t_heap x)) w x)
  end.
Fixpoint release_all (ps : list nat) x : outcome (world W) :=
  match ps with
  | [] => Ok x
  | p :: ps => x ← release p x; release_all ps x
  end.

(** [m_socks.clear()] *)
Definition clear_socks x : outcome (world W) :=
  release_all (m_socks (t_server x)) (with_server (set_socks [] (t_server x)) x).

(** ** [bind] *)

(** One address: whether it is bound; a socket that is not is destroyed. *)
Definition bind_one (addr : Address) x : outcome (bool * world W) :=
  let p := fresh (dom (t_heap x)) in
  let drop s w :=
    '(_, _, w) ← close s w; Ok (false, with_sockets (t_heap x) w x) in
  '(b, s, w) ← Socket.bind host addr (CreateTCP addr) (t_sys x);
  if negb b then drop s w else
  '(b, w) ← listen SOMAXCONN s w;
  if negb b then drop s w else
  Ok (true, with_server (set_socks (m_socks (t_server x) ++ [p]) (t_server x))
              (with_sockets (<[p := s]> (t_heap x)) w x)).

Fixpoint bind_loop (addrs : list Address) (fails : list Address) x : outcome (list Address * world W) :=
  match addrs with
  | [] => Ok (fails, x)
  | addr :: addrs =>
      '(b, x) ← bind_one addr x;
      bind_loop addrs (if b : bool then fails else fails ++ [addr]) x
  end.

Definition bind_all (addrs fails : list Address) (ssl : bool) x : outcome (bool * list Address * world W) :=
  let x := with_server (set_ssl ssl (t_server x)) x in
  '(fails, x) ← bind_loop addrs fails x;
  match fails with
  | [] => Ok (true, fails, x)
  | _ => x ← clear_socks x; Ok (false, fails, x)
  end.

Definition bind (addr : Address) (ssl : bool) x : outcome (bool * world W) :=
  '(b, _, x) ← bind_all [addr] [] ssl x; Ok (b, x).

(** ** [start], [stop] *)

Definition start x : bool * world W :=
  if negb (m_isStop (t_server x)) then (true, x) else
  (true, World (set_stop false (t_server x)) (t_loops x ++ m_socks (t_server x)) (t_stops x) (t_clients x)
           (t_heap x) (t_sys x)).

Definition stop x : world W :=
  World (set_stop true (t_server x)) (t_loops x) (S (t_stops x)) (t_clients x) (t_heap x) (t_sys x).

(** The task of [stop]. *)
Fixpoint close_socks (ps : list nat) x : outcome (world W) :=
  match ps with
  | [] => Ok x
  | p :: ps =>
      s ← deref null_deref (t_heap x !! p);
      '(_, w) ← CancelAll s (t_sys x);
      '(_, s, w) ← close s w;
      close_socks ps (with_sockets (<[p := s]> (t_heap x)) w x)
  end.
Definition stop_task x : outcome (world W) :=
  x ← close_socks (m_socks (t_server x)) x;
  x ← clear_socks x;
  Ok (World (t_server x) (t_loops x) (pred (t_stops x)) (t_clients x) (t_heap x) (t_sys x)).

(** The destructor, which runs when no task is left. *)
Fixpoint close_each (ps : list nat) x : outcome (world W) :=
  match ps with
  | [] => Ok x
  | p :: ps =>
      s ← deref null_deref (t_heap x !! p);
      '(_, s, w) ← close s (t_sys x);
      close_each ps (with_sockets (<[p := s]> (t_heap x)) w x)
  end.
Definition destroy x : outcome (world W) :=
  x ← close_each (m_socks (t_server x)) x; clear_socks x.

(** ** [startAccept]: a round of the [i]-th loop, or its end *)

Definition end_loop (i p : nat) x : outcome (world W) :=
  release p (World (t_server x) (delete i (t_loops x)) (t_stops x) (t_clients x) (t_heap x) (t_sys x)).

Definition accept_round (i : nat) x : outcome (world W) :=
  p ← deref null_deref (t_loops x !! i);
  if m_isStop (t_server x) then end_loop i p x else
  s ← deref null_deref (t_heap x !! p);
  '(client, w) ← accept host s (t_sys x);
  match client with
  | Some c =>
      w ← Socket.setRecvTimeout (i64 (m_recvTimeout (t_server x))) c w;
      let q := fresh (dom (t_heap x)) in
      Ok (World (t_server x) (t_loops x) (t_stops x) (t_clients x ++ [q]) (<[q := c]> (t_heap x)) w)
  | None => Ok (with_sockets (t_heap x) w x)
  end.

(** [handleClient], which only logs; a derived server does the work.  The
    task's end gives up the connection. *)
Definition client_task x : outcome (world W) :=
  match t_clients x with
  | [] => Ok x
  | q :: qs => release q (World (t_server x) (t_loops x) (t_stops x) qs (t_heap x) (t_sys x))
  end.

(** What can happen: calls of the owner, and the tasks. *)
Inductive tcp_step x : world W -> Prop :=
  | tcp_bind addrs fails ssl b fails' x' :
      bind_all addrs fails ssl x = Ok (b, fails', x') -> tcp_step x x'
  | tcp_start : tcp_step x (start x).2
  | tcp_stop : tcp_step x (stop x)
  | tcp_set v n : tcp_step x (with_server (setName n (setRecvTimeout v (t_server x))) x)
  | tcp_stop_task x' : (0 < t_stops x)%nat -> stop_task x = Ok x' -> tcp_step x x'
  | tcp_accept i x' : (i < length (t_loops x))%nat -> accept_round i x = Ok x' -> tcp_step x x'
  | tcp_client x' : client_task x = Ok x' -> tcp_step x x'.

(** ** The objects *)

(** [m_socks] has no object twice, what is referred to exists, and what exists
    is referred to. *)
Record refs_ok x : Prop := {
  ro_nodup : NoDup (m_socks (t_server x));
  ro_live p : p ∈ referred x -> is_Some (t_heap x !! p);
  ro_used p : is_Some (t_heap x !! p) -> p ∈ referred x;
}.

Notation socks x := (t_heap x, t_sys x).
Notation runs := (rtc (sock_step host)).

Lemma acts_run h w p s s' w' : h !! p = Some s -> acts host s w s' w' -> runs (h, w) (<[p := s']> h, w').
Proof. intros. apply rtc_once. by eapply step_acts. Qed.

(** Objects that go are closed. *)
Lemma release_run p x x' :
  release p x = Ok x' ->
  t_server x' = t_server x /\ t_loops x' = t_loops x /\ t_stops x' = t_stops x /\ t_clients x' = t_clients x
  /\ runs (socks x) (socks x')
  /\ (forall q, is_Some (t_heap x' !! q) <-> is_Some (t_heap x !! q) /\ (q = p -> p ∈ referred x)).
Proof.
  unfold release. destruct (decide _) as [Hp|Hp]; [intros [= <-]; split_and!; naive_solver|].
  destruct (t_heap x !! p) as [s|] eqn:Hs.
  2: { intros [= <-]. split_and!; try done. intros q. split; [|naive_solver].
       intros Hq. split; [done|]. intros ->. by rewrite Hs in Hq; destruct Hq. }
  intros H. apply bind_ok in H as ([[b s'] w] & Hc & [= <-]). cbn. split_and!; try done.
  - apply rtc_once. by eapply step_delete.
  - intros q. destruct (decide (q = p)) as [->|Hn].
    + rewrite lookup_delete_eq. split; [intros []; done|naive_solver].
    + rewrite lookup_delete_ne by done. naive_solver.
Qed.

Lemma release_all_run ps x x' :
  release_all ps x = Ok x' ->
  t_server x' = t_server x /\ t_loops x' = t_loops x /\ t_stops x' = t_stops x /\ t_clients x' = t_clients x
  /\ runs (socks x) (socks x')
  /\ (forall q, is_Some (t_heap x' !! q) <-> is_Some (t_heap x !! q) /\ (q ∈ ps -> q ∈ referred x)).
Proof.
  induction ps as [|p ps IH] in x |- *; cbn [release_all].
  { intros [= <-]. split_and!; try done. intros q. split; [intros ?; split; [done|set_solver]|naive_solver]. }
  intros H. apply bind_ok in H as (x1 & H1 & H2). apply release_run in H1 as (E1 & E2 & E3 & E4 & R1 & Q1).
  apply IH in H2 as (F1 & F2 & F3 & F4 & R2 & Q2).
  assert (referred x1 = referred x) as Er by (unfold referred; congruence).
  split_and!; try congruence; [by etrans|].
  intros q. rewrite Q2, Q1, Er, elem_of_cons. naive_solver.
Qed.

(** The end of a reference: the rest is as it was. *)
Lemma release_refs ps x x' :
  release_all ps x = Ok x' -> NoDup (m_socks (t_server x)) ->
  (forall p, p ∈ referred x -> is_Some (t_heap x !! p)) ->
  (forall p, is_Some (t_heap x !! p) -> p ∈ referred x \/ p ∈ ps) ->
  refs_ok x'.
Proof.
  intros (E1 & E2 & E3 & E4 & _ & Q)%release_all_run Hn Hl Hu.
  assert (referred x' = referred x) as Er by (unfold referred; congruence).
  split; [by rewrite E1|..]; intros p; rewrite Er, Q; naive_solver.
Qed.

Lemma release_one p x : release p x = release_all [p] x.
Proof. cbn. by destruct (release p x). Qed.

Lemma clear_run x x' :
  clear_socks x = Ok x' ->
  t_server x' = set_socks [] (t_server x) /\ t_loops x' = t_loops x /\ t_stops x' = t_stops x
  /\ t_clients x' = t_clients x /\ runs (socks x) (socks x') /\ (refs_ok x -> refs_ok x').
Proof.
  intros H. pose proof (release_all_run _ _ _ H) as (E1 & E2 & E3 & E4 & R & _). split_and!; try done.
  intros [Hn Hl Hu]. eapply release_refs; [exact H|constructor|..]; unfold referred in *; cbn in *.
  - intros p Hp. apply Hl. set_solver.
  - intros p Hp%Hu. set_solver.
Qed.

Lemma refs_ok_sys x w : refs_ok x -> refs_ok (with_sockets (t_heap x) w x).
Proof. by intros [Hn Hl Hu]; split. Qed.

Lemma bind_one_run addr x b x' :
  bind_one addr x = Ok (b, x') ->
  t_loops x' = t_loops x /\ t_stops x' = t_stops x /\ t_clients x' = t_clients x
  /\ m_isStop (t_server x') = m_isStop (t_server x)
  /\ runs (socks x) (socks x') /\ (refs_ok x -> refs_ok x')
  /\ exists ps, length ps = (if b then 1 else 0)%nat
       /\ m_socks (t_server x') = m_socks (t_server x) ++ ps.
Proof.
  unfold bind_one. set (p := fresh _). intros H.
  assert (t_heap x !! p = None) as Hp by apply not_elem_of_dom, is_fresh.
  apply bind_ok in H as ([[b1 s] w] & Hb & H).
  assert (runs (socks x) (<[p := s]> (t_heap x), w)) as Hr.
  { eapply rtc_l; [by apply (step_new _ _ _ p (getFamily addr) TCP 0)|].
    rewrite <- (insert_insert_eq _ p s (CreateTCP addr)). eapply acts_run; [apply lookup_insert_eq|]. by eapply acts_bind. }
  assert (forall s w b2 s2 w2, runs (socks x) (<[p := s]> (t_heap x), w) -> close s w = Ok (b2, s2, w2) ->
    runs (socks x) (t_heap x, w2)) as Hdrop.
  { intros s1 w1 b2 s2 w2 Hr1 Hc. etrans; [exact Hr1|]. apply rtc_once.
    rewrite <- (delete_insert_id (t_heap x) p s1 Hp) at 2. eapply step_delete; [apply lookup_insert_eq|done]. }
  destruct b1; cbn [negb] in H.
  2: { apply bind_ok in H as ([[b2 s2] w2] & Hc & [= <- <-]). split_and!; try done; [by eapply Hdrop|by apply refs_ok_sys|].
       exists []. by rewrite app_nil_r. }
  apply bind_ok in H as ([b1 w1] & Hl & H).
  assert (runs (socks x) (<[p := s]> (t_heap x), w1)) as Hr1.
  { etrans; [exact Hr|]. rewrite <- (insert_insert_eq _ p s s) at 2.
    eapply acts_run; [apply lookup_insert_eq|]. by eapply acts_listen. }
  destruct b1; cbn [negb] in H.
  2: { apply bind_ok in H as ([[b2 s2] w2] & Hc & [= <- <-]). split_and!; try done; [by eapply Hdrop|by apply refs_ok_sys|].
       exists []. by rewrite app_nil_r. }
  injection H as <- <-. cbn. split_and!; try done; [|by exists [p]].
  intros [Hn Hlv Hu]. unfold referred in *. cbn.
  assert (p ∉ referred x) as Hnp by (intros Hin%Hlv; rewrite Hp in Hin; by destruct Hin).
  unfold referred in Hnp. split; cbn.
  - apply NoDup_app. split_and!; [done|set_solver|apply NoDup_singleton].
  - intros q Hq. destruct (decide (q = p)) as [->|]; [by rewrite lookup_insert_eq|].
    rewrite lookup_insert_ne by done. apply Hlv. set_solver.
  - intros q Hq. destruct (decide (q = p)) as [->|]; [set_solver|].
    rewrite lookup_insert_ne in Hq by done. apply Hu in Hq. set_solver.
Qed.

Lemma bind_loop_run addrs fails x fails' x' :
  bind_loop addrs fails x = Ok (fails', x') ->
  t_loops x' = t_loops x /\ t_stops x' = t_stops x /\ t_clients x' = t_clients x
  /\ m_isStop (t_server x') = m_isStop (t_server x)
  /\ runs (socks x) (socks x') /\ (refs_ok x -> refs_ok x')
  /\ exists ps fl, m_socks (t_server x') = m_socks (t_server x) ++ ps /\ fails' = fails ++ fl
      /\ (length ps + length fl = length addrs)%nat.
Proof.
  induction addrs as [|addr addrs IH] in fails, x |- *; cbn [bind_loop].
  { intros [= <- <-]. split_and!; try done. exists [], []. by rewrite !app_nil_r. }
  intros H. apply bind_ok in H as ([b x1] & (E1 & E2 & E3 & E4 & R1 & I1 & ps1 & L1 & M1)%bind_one_run & H).
  apply IH in H as (F1 & F2 & F3 & F4 & R2 & I2 & ps2 & fl2 & M2 & -> & L2).
  split_and!; try congruence; [by etrans|auto|].
  exists (ps1 ++ ps2), ((if b then [] else [addr]) ++ fl2).
  rewrite M2, M1, app_assoc, !length_app, L1. destruct b; rewrite <- ?app_assoc; cbn; split_and!; try done; lia.
Qed.

Lemma bind_all_run addrs fails ssl x b fails' x' :
  bind_all addrs fails ssl x = Ok (b, fails', x') ->
  t_loops x' = t_loops x /\ t_stops x' = t_stops x /\ t_clients x' = t_clients x
  /\ m_isStop (t_server x') = m_isStop (t_server x)
  /\ runs (socks x) (socks x') /\ (refs_ok x -> refs_ok x')
  /\ if b then fails' = [] /\ exists ps, length ps = length addrs
              /\ m_socks (t_server x') = m_socks (t_server x) ++ ps
     else fails' <> [] /\ m_socks (t_server x') = [].
Proof.
  unfold bind_all. intros H. apply bind_ok in H as ([fl x1] & Hl & H).
  apply bind_loop_run in Hl as (E1 & E2 & E3 & E4 & R1 & I1 & ps & fl1 & M1 & Hfl & L1). cbn in *.
  assert (refs_ok x -> refs_ok x1) as I1'.
  { intros [Hn Hv Hu]. apply I1. by split. }
  destruct fl as [|f fl].
  - injection H as <- <- <-. split_and!; try done. exists ps. split; [|done].
    symmetry in Hfl. apply app_nil in Hfl as [_ ->]. cbn in L1. lia.
  - apply bind_ok in H as (x2 & (F0 & F1 & F2 & F3 & R2 & I2)%clear_run & [= <- <- <-]).
    rewrite F0. cbn. split_and!; try congruence; [by etrans|auto].
Qed.

Lemma close_socks_run ps x x' :
  close_socks ps x = Ok x' ->
  t_server x' = t_server x /\ t_loops x' = t_loops x /\ t_stops x' = t_stops x /\ t_clients x' = t_clients x
  /\ runs (socks x) (socks x') /\ (forall q, is_Some (t_heap x' !! q) <-> is_Some (t_heap x !! q)).
Proof.
  induction ps as [|p ps IH] in x |- *; cbn [close_socks]; [by intros [= <-]|].
  intros H. apply bind_ok in H as (s & Hs & H). destruct (t_heap x !! p) as [s'|] eqn:Hp; [|done].
  injection Hs as ->. apply bind_ok in H as ([b1 w1] & Hc & H).
  apply bind_ok in H as ([[b2 s2] w2] & Hcl & H). apply IH in H as (E1 & E2 & E3 & E4 & R & Q).
  cbn in *. split_and!; try done.
  - etrans; [|exact R]. etrans.
    + eapply acts_run; [exact Hp|]. by eapply acts_cancelAll.
    + rewrite <- (insert_insert_eq _ p s2 s). eapply acts_run; [apply lookup_insert_eq|]. by eapply acts_close.
  - intros q. rewrite Q. destruct (decide (q = p)) as [->|]; [rewrite lookup_insert_eq, Hp; done|].
    by rewrite lookup_insert_ne.
Qed.

Lemma stop_task_run x x' :
  stop_task x = Ok x' ->
  t_server x' = set_socks [] (t_server x) /\ t_loops x' = t_loops x /\ t_clients x' = t_clients x
  /\ runs (socks x) (socks x') /\ (refs_ok x -> refs_ok x').
Proof.
  unfold stop_task. intros H.
  apply bind_ok in H as (x1 & (E1 & E2 & E3 & E4 & R1 & Q)%close_socks_run & H).
  apply bind_ok in H as (x2 & (F1 & F2 & F3 & F4 & R2 & I2)%clear_run & [= <-]). cbn.
  split_and!; try congruence; [by etrans|].
  intros [Hn Hl Hu]. destruct I2 as [Gn Gl Gu]; [|by split].
  assert (referred x1 = referred x) as Er by (unfold referred; congruence).
  split; [by rewrite E1|..]; intros p; rewrite Er, Q; auto.
Qed.

Lemma accept_round_run i x x' :
  accept_round i x = Ok x' ->
  m_socks (t_server x') = m_socks (t_server x)
  /\ runs (socks x) (socks x') /\ (refs_ok x -> refs_ok x').
Proof.
  unfold accept_round. intros H. apply bind_ok in H as (p & Hp & H).
  destruct (t_loops x !! i) as [p'|] eqn:Hi; [injection Hp as ->|done].
  destruct (m_isStop (t_server x)).
  { unfold end_loop in H. rewrite release_one in H.
    pose proof (release_all_run _ _ _ H) as (E1 & _ & _ & _ & R & _). cbn in E1, R.
    split_and!; [by rewrite E1|done|]. intros [Hn Hl Hu].
    assert (t_loops x ≡ₚ p :: delete i (t_loops x)) as Hperm by by apply delete_Permutation.
    eapply release_refs; [exact H|done|..]; unfold referred in *; cbn.
    - intros q Hq. apply Hl. rewrite Hperm. set_solver.
    - intros q Hq%Hu. rewrite Hperm in Hq. set_solver. }
  apply bind_ok in H as (s & Hs & H). destruct (t_heap x !! p) as [s'|] eqn:Hsp; [injection Hs as ->|done].
  apply bind_ok in H as ([[c|] w] & Ha & H).
  2: { injection H as <-. split_and!; [done| |by apply refs_ok_sys].
       apply rtc_once.
       apply (step_accept _ _ _ p s (fresh (dom (t_heap x))) None); [done| |done].
       apply not_elem_of_dom, is_fresh. }
  apply bind_ok in H as (w1 & Ht & [= <-]). set (q := fresh (dom (t_heap x))).
  assert (t_heap x !! q = None) as Hq by apply not_elem_of_dom, is_fresh. cbn. split_and!; [done|..].
  - eapply rtc_l; [by apply (step_accept _ _ _ p s q (Some c))|].
    rewrite <- (insert_insert_eq _ q c c) at 2. eapply acts_run; [apply lookup_insert_eq|].
    unfold Socket.setRecvTimeout in Ht. apply bind_ok in Ht as ([b w2] & Ht & [= <-]).
    by eapply acts_setOption.
  - intros [Hn Hl Hu]. unfold referred in *. split; [done|..]; unfold referred; cbn.
    + intros r Hr. destruct (decide (r = q)) as [->|]; [by rewrite lookup_insert_eq|].
      rewrite lookup_insert_ne by done. apply Hl. set_solver.
    + intros r Hr. destruct (decide (r = q)) as [->|]; [set_solver|].
      rewrite lookup_insert_ne in Hr by done. apply Hu in Hr. set_solver.
Qed.

Lemma client_task_run x x' :
  client_task x = Ok x' -> t_server x' = t_server x /\ runs (socks x) (socks x') /\ (refs_ok x -> refs_ok x').
Proof.
  unfold client_task. destruct (t_clients x) as [|q qs] eqn:Hc; [by intros [= <-]|].
  rewrite release_one. intros H. pose proof (release_all_run _ _ _ H) as (E1 & _ & _ & _ & R & _).
  split_and!; [done|done|]. intros [Hn Hl Hu].
  eapply release_refs; [exact H|done|..]; unfold referred in *; cbn; rewrite Hc in *.
  - intros p Hp. apply Hl. set_solver.
  - intros p Hp%Hu. set_solver.
Qed.

(** A step of the server is a run of its sockets, and keeps track of them. *)
Lemma tcp_step_run x x' :
  tcp_step x x' -> runs (socks x) (socks x') /\ (refs_ok x -> refs_ok x').
Proof.
  destruct 1 as [? ? ? ? ? ? H| | | |? _ H|? ? _ H|? H].
  - by apply bind_all_run in H as (_ & _ & _ & _ & ? & ? & _).
  - unfold start. destruct (negb _); [done|]. split; [done|]. intros [Hn Hl Hu].
    split; unfold referred in *; cbn in *; [done|..]; intros p Hp; [apply Hl|apply Hu in Hp]; set_solver.
  - split; [done|]. by intros [Hn Hl Hu]; split.
  - split; [done|]. by intros [Hn Hl Hu]; split.
  - by apply stop_task_run in H as (_ & _ & _ & ? & ?).
  - by apply accept_round_run in H as (_ & ? & ?).
  - by apply client_task_run in H as (_ & ? & ?).
Qed.

Lemma tcp_steps_run x x' :
  rtc tcp_step x x' -> runs (socks x) (socks x') /\ (refs_ok x -> refs_ok x').
Proof.
  induction 1 as [x|x y z [R1 I1]%tcp_step_run _ [R2 I2]]; [done|]. split; [by etrans|auto].
Qed.

(** ** Stopping *)

(** Calls that return. *)
Definition calls_return : Prop :=
  (forall fd (w : W), exists r w', net_close fd w = Ok (r, w'))
  /\ (forall fd (w : W), exists b w', net_cancelAll fd w = Ok (b, w')).

Lemma close_returns s w : calls_return -> exists b s' w', close s w = Ok (b, s', w').
Proof.
  intros [Hc _]. unfold close. destruct (_ && _); [eauto|]. destruct (negb _); [|eauto].
  destruct (Hc (m_sock (set_connected false s)) w) as (r & w' & ->). cbn. eauto.
Qed.

Lemma release_returns p x : calls_return -> exists x', release p x = Ok x'.
Proof.
  intros Hr. unfold release. destruct (decide _); [eauto|]. destruct (t_heap x !! p) as [s|]; [|eauto].
  destruct (close_returns s (t_sys x) Hr) as (b & s' & w' & ->). cbn. eauto.
Qed.

Lemma release_all_returns ps x : calls_return -> exists x', release_all ps x = Ok x'.
Proof.
  intros Hr. induction ps as [|p ps IH] in x |- *; cbn; [eauto|].
  destruct (release_returns p x Hr) as (x1 & ->). cbn. apply IH.
Qed.

Lemma close_socks_returns ps x :
  calls_return -> (forall p, p ∈ ps -> is_Some (t_heap x !! p)) -> exists x', close_socks ps x = Ok x'.
Proof.
  intros Hr. induction ps as [|p ps IH] in x |- *; intros Hl; cbn [close_socks]; [eauto|].
  destruct (Hl p) as [s Hs]; [set_solver|]. rewrite Hs, deref_Some, bind_Ok. unfold CancelAll.
  destruct (proj2 Hr (m_sock s) (t_sys x)) as (b1 & w1 & ->). rewrite bind_Ok.
  destruct (close_returns s w1 Hr) as (b2 & s2 & w2 & ->). rewrite bind_Ok.
  apply IH. intros q Hq. cbn. destruct (decide (q = p)) as [->|]; [by rewrite lookup_insert_eq|].
  rewrite lookup_insert_ne by done. apply Hl. set_solver.
Qed.

Lemma stop_task_returns x : calls_return -> refs_ok x -> exists x', stop_task x = Ok x'.
Proof.
  intros Hr [Hn Hl Hu]. unfold stop_task.
  destruct (close_socks_returns (m_socks (t_server x)) x Hr) as (x1 & ->).
  { intros p Hp. apply Hl. unfold referred. set_solver. }
  rewrite bind_Ok. unfold clear_socks.
  destruct (release_all_returns (m_socks (t_server x1)) (with_server (set_socks [] (t_server x1)) x1) Hr)
    as (x2 & ->). cbn. eauto.
Qed.

(** The accept loops, each run once. *)
Fixpoint run_loops (n : nat) x : outcome (world W) :=
  match n with O => Ok x | S n => x ← accept_round 0 x; run_loops n x end.

Lemma run_loops_end n x :
  calls_return -> m_isStop (t_server x) = true -> length (t_loops x) = n -> refs_ok x ->
  exists x', run_loops n x = Ok x' /\ t_loops x' = [] /\ t_server x' = t_server x
    /\ t_clients x' = t_clients x /\ runs (socks x) (socks x') /\ refs_ok x'.
Proof.
  intros Hr. induction n as [|n IH] in x |- *; intros Hs Hn Hi; cbn [run_loops].
  { exists x. split_and!; try done. by apply nil_length_inv. }
  destruct (t_loops x) as [|p ps] eqn:Hl; [done|].
  assert (accept_round 0 x = end_loop 0 p x) as Ha by (unfold accept_round; by rewrite Hl, Hs).
  destruct (release_returns p (World (t_server x) (delete 0%nat (t_loops x)) (t_stops x) (t_clients x)
    (t_heap x) (t_sys x)) Hr) as (x1 & H1).
  assert (accept_round 0 x = Ok x1) as H1' by by rewrite Ha.
  pose proof (accept_round_run _ _ _ H1') as (_ & R1 & I1).
  apply release_run in H1 as (E1 & E2 & _ & E4 & _). cbn in E1, E2, E4. rewrite Hl in E2. cbn in E2.
  destruct (IH x1) as (x2 & H2 & L2 & S2 & C2 & R2 & I2); [by rewrite E1|rewrite E2; by injection Hn|auto|].
  exists x2. rewrite H1', bind_Ok. split_and!; try done; [congruence..|by etrans].
Qed.
End server.

(** A server before its first call. *)
Definition boot {W} (read_timeout : Z) (w : W) : world W := World (newTcpServer read_timeout) [] 0 [] ∅ w.

Lemma boot_ok {W} t (w : W) : refs_ok (boot t w).
Proof. split; [constructor|..]; intros p; cbn; [set_solver|by intros []]. Qed.

(** ** Properties *)

(** C10: In every run of a server (any calls of [bind], [start] and [stop], any
    rounds of its accept loops, any ends of connections) every socket object is
    referred to by [m_socks], an accept loop or a client's task and by nothing
    else, and the open descriptors are exactly those of these objects and those
    from before, if the descriptor of every accepted connection has a context in
    [FdManager], as the hooked [accept] makes it: one without a context is left
    open. *)
Theorem tcp_server_owns host {W} `{!Net W} opened `{!NetLaws W opened} t (w0 : W) x :
  accepts_managed -> rtc (tcp_step host) (boot t w0) x ->
  NoDup (m_socks (t_server x))
  /\ (forall p, p ∈ referred x <-> is_Some (t_heap x !! p))
  /\ (forall fd, fd ∈ opened (t_sys x) <->
       fd ∈ opened w0 \/ fd <> -1 /\ exists p s, t_heap x !! p = Some s /\ m_sock s = fd).
Proof.
  intros Hm [R I]%tcp_steps_run. destruct (I (boot_ok t w0)) as [Hn Hl Hu]. split_and!; [done|naive_solver|].
  intros fd. by apply owns_all_opened, (owns_all_reachable host).
Qed.

(** C11: After [stop], once its task has run and every accept loop has come
    round once, no loop and no listening socket is left and the only descriptors
    the server has open are those of connections handed to [handleClient], if
    the system calls return and the descriptor of every accepted connection has
    a context in [FdManager], as the hooked [accept] makes it. *)
Theorem tcp_stop_closes host {W} `{!Net W} opened `{!NetLaws W opened} t (w0 : W) x :
  accepts_managed -> calls_return -> rtc (tcp_step host) (boot t w0) x ->
  m_isStop (t_server x) = true ->
  exists x1 x2, stop_task x = Ok x1 /\ run_loops host (length (t_loops x)) x1 = Ok x2
    /\ t_loops x2 = [] /\ m_socks (t_server x2) = [] /\ t_clients x2 = t_clients x
    /\ (forall fd, fd ∈ opened (t_sys x2) <->
          fd ∈ opened w0 \/ fd <> -1 /\ exists p s, p ∈ t_clients x /\ t_heap x2 !! p = Some s /\ m_sock s = fd).
Proof.
  intros Hm Hr [R I]%tcp_steps_run Hs. pose proof (I (boot_ok t w0)) as Hx.
  destruct (stop_task_returns x Hr Hx) as (x1 & H1).
  pose proof (stop_task_run host _ _ H1) as (E1 & E2 & E3 & R1 & I1).
  destruct (run_loops_end host (length (t_loops x)) x1 Hr ltac:(by rewrite E1) ltac:(by rewrite E2) (I1 Hx))
    as (x2 & H2 & L2 & S2 & C2 & R2 & [Gn Gl Gu]).
  exists x1, x2. split_and!; try done; [by rewrite S2, E1|congruence|].
  assert (owns_all opened (opened w0) (t_heap x2) (t_sys x2)) as Ho.
  { apply (owns_all_reachable host opened _ _ _ Hm). etrans; [exact R|]. by etrans. }
  intros fd. rewrite (owns_all_opened opened _ _ _ fd Ho). split; (intros [?|(Hn & H)]; [by left|right]).
  - destruct H as (p & s & Hp & Hfd). split; [done|]. exists p, s. split_and!; try done.
    assert (p ∈ referred x2) as Hin by (apply Gu; by rewrite Hp). unfold referred in Hin.
    rewrite L2, S2, E1, C2, E3 in Hin. set_solver.
  - destruct H as (p & s & _ & Hp & Hfd). eauto 6.
Qed.

(** A server that has accepted a connection and was told to stop. *)
Definition served_and_stopped : outcome (world net1) :=
  '(_, _, x) ← bind_all SYLAR_BIG_ENDIAN (Net0 := net1_Net true) [any4] [] false (boot 120000 start1);
  x ← accept_round SYLAR_BIG_ENDIAN (Net0 := net1_Net true) 0 (start x).2;
  Ok (stop x).

Lemma served_reachable x :
  served_and_stopped = Ok x ->
  rtc (tcp_step SYLAR_BIG_ENDIAN (Net0 := net1_Net true)) (boot 120000 start1) x.
Proof.
  unfold served_and_stopped. intros H. apply bind_ok in H as ([[b fs] x1] & Hb & H).
  apply bind_ok in H as (x2 & Ha & [= <-]).
  eapply rtc_l; [by eapply tcp_bind|]. eapply rtc_l; [apply tcp_start|].
  eapply rtc_l; [|apply rtc_once, tcp_stop]. eapply (tcp_accept _ _ 0); [|exact Ha].
  destruct (t_loops (start x1).2) eqn:E; [|cbn; lia]. unfold accept_round in Ha. by rewrite E in Ha.
Qed.

Lemma tcp_server_owns_witness : exists x, served_and_stopped = Ok x
  /\ (4 ∈ n_opened (t_sys x) <->
       4 ∈ n_opened start1 \/ 4 <> -1 /\ exists p s, t_heap x !! p = Some s /\ m_sock s = 4).
Proof.
  eexists. split; [vm_compute; reflexivity|].
  apply (tcp_server_owns SYLAR_BIG_ENDIAN (Net0 := net1_Net true) n_opened (NetLaws0 := net1_laws true)
    120000 start1 _ net1_managed (served_reachable _ ltac:(vm_compute; reflexivity))).
Defined.

Lemma net1_calls_return hook : calls_return (Net0 := net1_Net hook).
Proof. split; intros; cbn; eauto. Qed.

Lemma tcp_stop_closes_witness : exists x x1 x2, served_and_stopped = Ok x
  /\ stop_task (Net0 := net1_Net true) x = Ok x1
  /\ run_loops SYLAR_BIG_ENDIAN (Net0 := net1_Net true) (length (t_loops x)) x1 = Ok x2
  /\ m_socks (t_server x2) = [] /\ t_clients x2 = [1%nat].
Proof.
  eexists. destruct (tcp_stop_closes SYLAR_BIG_ENDIAN (Net0 := net1_Net true) n_opened (NetLaws0 := net1_laws true)
    120000 start1 _ net1_managed (net1_calls_return true)
    (served_reachable _ ltac:(vm_compute; reflexivity)) ltac:(reflexivity))
    as (x1 & x2 & H1 & H2 & _ & H4 & H5 & _).
  exists x1, x2. split; [vm_compute; reflexivity|]. exact (conj H1 (conj H2 (conj H4 H5))).
Defined.

(** [start] between [stop] and its task: the task closes the sockets of the
    restarted server, whose loops go on. *)
Lemma restart_loses_sockets : exists x p s,
  (x ← served_and_stopped; stop_task (Net0 := net1_Net true) (start x).2) = Ok x
  /\ m_isStop (t_server x) = false /\ m_socks (t_server x) = []
  /\ head (t_loops x) = Some p /\ t_heap x !! p = Some s /\ m_sock s = -1.
Proof. eexists _, _, _. split_and!; vm_compute; reflexivity. Qed.

(** Such a loop spins: a failed [accept] leaves everything as it is. *)
Lemma closed_loop_spins host {W} `{!Net W} i p s (x : world W) :
  m_isStop (t_server x) = false -> t_loops x !! i = Some p -> t_heap x !! p = Some s ->
  net_accept (m_sock s) (t_sys x) = Ok (-1, t_sys x) -> accept_round host i x = Ok x.
Proof.
  intros Hs Hi Hp Ha. unfold accept_round. rewrite Hi, deref_Some, bind_Ok, Hs, Hp, deref_Some, bind_Ok.
  unfold accept. rewrite Ha, bind_Ok. cbn. unfold with_sockets. by destruct x.
Qed.
