(* ===== verification/HttpClient.v ===== *)
(** * [sylar/http/http_connection.h], [http_connection.cc]: requests

    [HttpConnection::DoGet], [DoPost] and [DoRequest]: a URL is parsed and its
    host looked up, a socket connected, the request sent and the response
    received.  The connection is a stream on its socket; a fault of a system
    call stays in it and becomes the fault of the whole. *)

From stdpp Require Import base list gmap strings.
From Stdlib Require Import ZArith Lia Ascii String.
From S2P Require Import Prelude Endian Http HttpTheorems Stream HttpParser HttpClientParser HttpSession HttpConnection.
From S2P Require Import Uri Address Lookup FdManager Hook Socket SocketTheorems.

Local Open Scope string_scope.
Local Open Scope Z_scope.

(** [HttpResult::Error] *)
Inductive Error :=
  | E_OK | INVALID_URL | INVALID_HOST | CONNECT_FAIL | SEND_CLOSE_BY_PEER | SEND_SOCKET_ERROR
  | TIMEOUT | CREATE_SOCKET_ERROR | POOL_GET_CONNECTION | POOL_INVALID_CONNECTION.

Definition error_code (e : Error) : Z :=
  match e with
  | E_OK => 0 | INVALID_URL => 1 | INVALID_HOST => 2 | CONNECT_FAIL => 3 | SEND_CLOSE_BY_PEER => 4
  | SEND_SOCKET_ERROR => 5 | TIMEOUT => 6 | CREATE_SOCKET_ERROR => 7 | POOL_GET_CONNECTION => 8
  | POOL_INVALID_CONNECTION => 9
  end.

Record HttpResult := mkResult { result : Z; response : option HttpResponse; error : string }.

Definition failed (e : Error) (msg : string) : HttpResult := mkResult (error_code e) None msg.

Definition result_toString (r : HttpResult) : string :=
  "[HttpResult result=" ++ to_string (result r) ++ " error=" ++ error r
  ++ " response=" ++ match response r with Some rsp => dump_response rsp | None => "nullptr" end ++ "]".

(** ** The connection as a stream *)

(** The socket of an [HttpConnection], and the process, or its fault. *)
Record conn (W : Type) := Conn { c_sock : Socket; c_sys : outcome W }.
Arguments Conn {W} c_sock c_sys.
Arguments c_sock {W} _.
Arguments c_sys {W} _.

Section stream.
Context {W : Type} `{!Net W}.

(** [SocketStream::read], [SocketStream::write] *)
Definition conn_read (n : nat) (c : conn W) : Z * list Z * conn W :=
  if negb (m_isConnected (c_sock c)) then (-1, [], c) else
  match (w ← c_sys c; Socket.recv n 0 (c_sock c) w) with
  | Ok (r, b, w) => (r, b, Conn (c_sock c) (Ok w))
  | Err e => (-1, [], Conn (c_sock c) (Err e))
  end.
Definition conn_write (b : list Z) (c : conn W) : Z * conn W :=
  if negb (m_isConnected (c_sock c)) then (-1, c) else
  match (w ← c_sys c; Socket.send b 0 (c_sock c) w) with
  | Ok (r, w) => (r, Conn (c_sock c) (Ok w))
  | Err e => (-1, Conn (c_sock c) (Err e))
  end.

#[global] Instance conn_stream : Stream (conn W) := {| sread := conn_read; swrite := conn_write |}.

(** [SocketStream::close] *)
Definition conn_close (c : conn W) : conn W :=
  match (w ← c_sys c; Socket.close (c_sock c) w) with
  | Ok (_, s, w) => Conn s (Ok w)
  | Err e => Conn (c_sock c) (Err e)
  end.
End stream.

(** The documented results of [recv] and [send]. *)
Class NetData (W : Type) `{!Net W} := {
  recv_data fd n fl w r b a w' : net_recv fd n fl w = Ok (r, b, a, w') ->
    r <= Z.of_nat n /\ List.length b = Z.to_nat r /\ in_s 32 r;
  send_data fd b a fl w r w' : net_send fd b a fl w = Ok (r, w') ->
    r <= Z.of_nat (List.length b) /\ in_s 32 r;
}.

#[global] Instance conn_stream_laws {W} `{!Net W} `{!NetData W} : StreamLaws (conn W).
Proof.
  constructor.
  - intros n c. cbn. unfold conn_read, Socket.recv.
    destruct (m_isConnected (c_sock c)); cbn; [|split_and!; unfold in_s; lia || done].
    destruct (c_sys c) as [w|e]; cbn; [|split_and!; unfold in_s; lia || done].
    destruct (net_recv _ _ _ w) as [[[[r b] a] w']|e] eqn:E; cbn; [by eapply recv_data|].
    split_and!; unfold in_s; lia || done.
  - intros b c. cbn. unfold conn_write, Socket.send.
    destruct (m_isConnected (c_sock c)); cbn; [|split_and!; unfold in_s; lia].
    destruct (c_sys c) as [w|e]; cbn; [|split_and!; unfold in_s; lia].
    destruct (net_send _ _ _ _ w) as [[r w']|e] eqn:E; cbn; [by eapply send_data|].
    split_and!; unfold in_s; lia.
Qed.

(** ** The request *)

Definition with_target (method : HttpMethod) (path query fragment : string) (r : HttpRequest) : HttpRequest :=
  mkReq method (m_version r) (m_close r) path query (m_body r) fragment (m_headers r) (m_params r) (m_cookies r).
Definition with_body (body : string) (r : HttpRequest) : HttpRequest :=
  mkReq (m_method r) (m_version r) (m_close r) (Http.m_path r) (Http.m_query r) body (Http.m_fragment r)
    (m_headers r) (m_params r) (m_cookies r).

(** The loop over the caller's headers, a [std::map]: [has_host] and the
    request so far. *)
Fixpoint add_headers (headers : list (string * string)) (has_host : bool) (req : HttpRequest)
    : bool * HttpRequest :=
  match headers with
  | [] => (has_host, req)
  | (k, v) :: headers =>
      if strcasecmp (c_str k) "connection" =? 0 then
        add_headers headers has_host
          (if strcasecmp (c_str v) "keep-alive" =? 0 then with_close false req else req)
      else
        let has_host :=
          if negb has_host && (strcasecmp (c_str k) "host" =? 0) then negb (String.eqb v "") else has_host in
        add_headers headers has_host (setHeader k v req)
  end.

Definition HTTP11 : Z := 17.

(** The request [DoRequest(method, uri, ...)] makes. *)
Definition make_request (method : HttpMethod) (uri : Uri) (headers : list (string * string)) (body : string)
    : HttpRequest :=
  let req := with_target method (Uri.getPath uri) (Uri.m_query uri) (Uri.m_fragment uri)
               (newHttpRequest HTTP11 true) in
  let '(has_host, req) := add_headers headers false req in
  with_body body (if has_host then req else setHeader "Host" (m_host uri) req).

(** The request [HttpConnectionPool::doRequest(method, url, ...)] makes. *)
Definition make_pool_request (host vhost : string) (method : HttpMethod) (url : string)
    (headers : list (string * string)) (body : string) : HttpRequest :=
  let req := with_close false (with_target method url "" "" (newHttpRequest HTTP11 true)) in
  let '(has_host, req) := add_headers headers false req in
  with_body body (if has_host then req
                  else if String.eqb vhost "" then setHeader "Host" host req else setHeader "Host" vhost req).

(** The text [HttpConnectionPool]'s overloads make of a [Uri]. *)
Definition pool_url (uri : Uri) : string :=
  Uri.getPath uri ++ (if String.eqb (Uri.m_query uri) "" then "" else "?") ++ Uri.m_query uri
  ++ (if String.eqb (Uri.m_fragment uri) "" then "" else "#") ++ Uri.m_fragment uri.

(** ** Sending it *)

Section client.
Context (host : endian) (getaddrinfo : string -> option string -> hints -> option (list sockaddr)).
Context {W : Type} `{!Net W}.
Context (errno : W -> Z) (strerror : Z -> string) (lexical_cast : string -> option Z).
Context {MM : Memory}.
(** The fuel of [recvResponse] and what its memory holds. *)
Context (fuel : nat) (raw : httpclient_parser) (buffer : list Z).

Definition errno_text (c : conn W) : string :=
  match c_sys c with
  | Ok w => "errno=" ++ to_string (errno w) ++ " errstr=" ++ strerror (errno w)
  | Err _ => ""
  end.

(** [sendRequest] and [recvResponse] on a connection; [peer] gives the text of
    the address in the messages. *)
Definition exchange (req : HttpRequest) (peer : conn W -> outcome (string * conn W)) (timeout_ms : Z)
    (c : conn W) : outcome (HttpResult * conn W) :=
  '(rt, c) ← sendRequest req c;
  if rt =? 0 then
    '(a, c) ← peer c; Ok (failed SEND_CLOSE_BY_PEER ("send request closed by peer: " ++ a), c)
  else if rt <? 0 then Ok (failed SEND_SOCKET_ERROR ("send request socket error " ++ errno_text c), c)
  else
    '(rsp, c) ← recvResponse conn_close lexical_cast fuel raw buffer c;
    match rsp with
    | None =>
        '(a, c) ← peer c;
        Ok (failed TIMEOUT ("recv response timeout: " ++ a ++ " timeout_ms:" ++ decimal timeout_ms), c)
    | Some rsp => Ok (mkResult (error_code E_OK) (Some rsp) "ok", c)
    end.

(** The end of a connection's life: the destructors close the socket. *)
Definition finish (c : conn W) : outcome W := c_sys (conn_close c).

(** [DoRequest(req, uri, timeout_ms)] *)
Definition DoRequest_uri (req : HttpRequest) (uri : Uri) (timeout_ms : Z) (w : W) : outcome (HttpResult * W) :=
  o ← createAddress host getaddrinfo uri;
  match o with
  | None => Ok (failed INVALID_HOST ("invalid host: " ++ m_host uri), w)
  | Some addr =>
      '(b, sock, w) ← Socket.connect host addr NEVER (CreateTCP addr) w;
      if negb b then
        w ← finish (Conn sock (Ok w));
        Ok (failed CONNECT_FAIL ("connect fail: " ++ address_text host addr), w)
      else
        w ← Socket.setRecvTimeout (i64 timeout_ms) sock w;
        '(r, c) ← exchange req (fun c => Ok (address_text host addr, c)) timeout_ms (Conn sock (Ok w));
        w ← finish c;
        Ok (r, w)
  end.

(** [DoRequest(method, uri, ...)], which [DoGet(uri)] and [DoPost(uri)] call *)
Definition DoRequest_method (method : HttpMethod) (uri : Uri) (timeout_ms : Z)
    (headers : list (string * string)) (body : string) (w : W) : outcome (HttpResult * W) :=
  DoRequest_uri (make_request method uri headers body) uri timeout_ms w.
Definition DoGet_uri := DoRequest_method GET.
Definition DoPost_uri := DoRequest_method POST.

(** The functions on a URL. *)
Definition with_url (url : string) (f : Uri -> W -> outcome (HttpResult * W)) (w : W) : outcome (HttpResult * W) :=
  o ← Uri.Create url;
  match o with
  | None => Ok (failed INVALID_URL ("invalid url: " ++ url), w)
  | Some uri => f uri w
  end.
Definition DoRequest method url timeout_ms headers body :=
  with_url url (fun uri => DoRequest_method method uri timeout_ms headers body).
Definition DoGet url timeout_ms headers body := with_url url (fun uri => DoGet_uri uri timeout_ms headers body).
Definition DoPost url timeout_ms headers body := with_url url (fun uri => DoPost_uri uri timeout_ms headers body).
End client.

(** ** Descriptors of a connection *)

Section ownership.
Context {W : Type} `{!Net W} (opened : W -> gset Z) `{!NetLaws W opened}.

(** The same descriptor, in a process that has the same descriptors open. *)
Definition conn_keeps (c c' : conn W) : Prop :=
  m_sock (c_sock c') = m_sock (c_sock c) /\ m_isConnected (c_sock c') = m_isConnected (c_sock c)
  /\ forall w', c_sys c' = Ok w' -> exists w, c_sys c = Ok w /\ opened w' = opened w.

Lemma conn_keeps_refl c : conn_keeps c c.
Proof. split_and!; [done..|]. eauto. Qed.

Lemma conn_keeps_trans c1 c2 c3 : conn_keeps c1 c2 -> conn_keeps c2 c3 -> conn_keeps c1 c3.
Proof.
  intros (E1 & F1 & H1) (E2 & F2 & H2). split_and!; [congruence..|]. intros w3 (w2 & Hw2 & E)%H2.
  destruct (H1 w2 Hw2) as (w1 & ? & ?). exists w1. split; [done|congruence].
Qed.

Lemma conn_write_keeps b c r c' : conn_write b c = (r, c') -> conn_keeps c c'.
Proof using NetLaws0.
  unfold conn_write, Socket.send. destruct (m_isConnected (c_sock c)) eqn:Hc; cbn.
  2: { intros [= _ <-]. apply conn_keeps_refl. }
  destruct (c_sys c) as [w|e] eqn:Hw; cbn; [|by intros [= _ <-]].
  destruct (net_send _ _ _ _ w) as [[n w1]|e] eqn:Hs; intros [= _ <-]; [|done].
  split_and!; [done..|]. intros w' [= <-]. exists w. split; [done|]. by eapply send_law.
Qed.

Lemma write_loop_keeps n buf off len left c r c' :
  writeFixSize_loop n buf off len left c = Ok (r, c') -> conn_keeps c c'.
Proof using NetLaws0.
  induction n as [|n IH] in off, c |- *; cbn [writeFixSize_loop];
    (destruct (left =? 0)%nat; [intros [= _ <-]; apply conn_keeps_refl|]); [done|].
  destruct (_ <? _)%nat; [done|]. change (@swrite (conn W) _) with (@conn_write W _).
  destruct (conn_write _ c) as [l c1] eqn:Hw. apply conn_write_keeps in Hw.
  destruct (l <=? 0); [by intros [= _ <-]|]. intros H%IH. by eapply conn_keeps_trans.
Qed.

(** Closing gives up exactly what the socket owned. *)
Lemma finish_frames c w' F :
  finish c = Ok w' -> exists w, c_sys c = Ok w
    /\ (F ## owned (c_sock c) -> opened w = F ∪ owned (c_sock c) -> opened w' = F).
Proof using NetLaws0.
  unfold finish, conn_close. destruct (c_sys c) as [w|e]; [|done]. cbn.
  destruct (close (c_sock c) w) as [[[b s] w1]|e] eqn:Hc; [|done]. intros [= <-].
  exists w. split; [done|]. intros Hd Ho.
  apply (close_frames opened) in Hc as (Hf & Hs & _). destruct (Hf F Hd Ho) as [_ E].
  unfold owned in E. rewrite Hs in E. cbn in E. set_solver.
Qed.
End ownership.

Section client_facts.
Context (host : endian) (getaddrinfo : string -> option string -> hints -> option (list sockaddr)).
Context {W : Type} `{!Net W} `{!NetData W} (opened : W -> gset Z) `{!NetLaws W opened}.
Context (errno : W -> Z) (strerror : Z -> string) (lexical_cast : string -> option Z).
Context {MM : Memory}.
Context (fuel : nat) (raw : httpclient_parser) (buffer : list Z).

Lemma dump_request_nonempty req : bytes_of (dump_request req) <> [].
Proof.
  unfold dump_request. destruct (HttpMethodToString (m_method req)) as [|a s]; done.
Qed.

(** What an exchange comes to, as [writeFixSize] is. *)
Lemma exchange_fails req peer t c r c' :
  (forall c1 a c2, peer c1 = Ok (a, c2) -> conn_keeps opened c1 c2) ->
  exchange errno strerror lexical_cast fuel raw buffer req peer t c = Ok (r, c') ->
  conn_keeps opened c c' /\ response r = None
  /\ (result r = error_code SEND_CLOSE_BY_PEER \/ result r = error_code SEND_SOCKET_ERROR).
Proof using NetLaws0 NetData0.
  intros Hp. unfold exchange. intros H. apply bind_ok in H as ([rt c1] & Hs & H).
  unfold sendRequest, writeFixSize in Hs.
  assert (rt <= 0) as Hle.
  { refine (writeFixSize_loop_never _ _ _ _ _ _ _ _ _ Hs). pose proof (dump_request_nonempty req).
    destruct (bytes_of _); [done|cbn; lia]. }
  apply (write_loop_keeps opened) in Hs. destruct (Z.eqb_spec rt 0).
  - apply bind_ok in H as ([a c2] & Ha%Hp & [= <- <-]).
    split_and!; [by eapply conn_keeps_trans|done|by left].
  - destruct (Z.ltb_spec rt 0); [|lia]. injection H as <- <-. split_and!; [done|done|by right].
Qed.

Lemma DoRequest_uri_fails req uri t w r w' :
  DoRequest_uri host getaddrinfo errno strerror lexical_cast fuel raw buffer req uri t w = Ok (r, w') ->
  opened w' = opened w /\ response r = None
  /\ result r ∈ map error_code [INVALID_HOST; CONNECT_FAIL; SEND_CLOSE_BY_PEER; SEND_SOCKET_ERROR].
Proof using NetLaws0 NetData0.
  unfold DoRequest_uri. intros H. apply bind_ok in H as ([addr|] & _ & H).
  2: { injection H as <- <-. split_and!; [done|done|cbn; set_solver]. }
  apply bind_ok in H as ([[b sock] w1] & Hc & H).
  apply (connect_frames host opened) in Hc as (Hf & _ & _).
  destruct (Hf (opened w)) as [Hd Ho]; [cbn; set_solver|cbn; set_solver|].
  destruct b; cbn [negb] in H.
  - apply bind_ok in H as (w2 & Ht & H). apply bind_ok in H as ([r' c] & Hx & H).
    apply exchange_fails in Hx as ((Es & _ & Hk) & Hr & Hcode);
      [|intros c1 a c2 [= _ <-]; apply conn_keeps_refl].
    apply bind_ok in H as (w3 & Hfin & [= <- <-]).
    destruct (finish_frames opened c w3 (opened w) Hfin) as (w4 & Hw4 & Hfr).
    destruct (Hk w4 Hw4) as (w5 & [= <-] & E5). unfold owned in Hfr. rewrite Es in Hfr. cbn in Hfr.
    unfold Socket.setRecvTimeout in Ht. apply bind_ok in Ht as ([b w6] & Ht%(setOption_keeps opened) & [= ->]).
    split_and!; [apply Hfr; [done|by rewrite E5, Ht]|done|]. cbn. destruct Hcode as [-> | ->]; cbn; set_solver.
  - apply bind_ok in H as (w3 & Hfin & [= <- <-]).
    destruct (finish_frames opened _ w3 (opened w) Hfin) as (w4 & [= <-] & Hfr).
    split_and!; [by apply Hfr|done|cbn; set_solver].
Qed.

(** A request that begins to be sent ends in a read beyond its text. *)
Lemma DoRequest_uri_overruns req uri t w addr s w1 w2 :
  createAddress host getaddrinfo uri = Ok (Some addr) ->
  Socket.connect host addr NEVER (CreateTCP addr) w = Ok (true, s, w1) ->
  Socket.setRecvTimeout (i64 t) s w1 = Ok w2 ->
  0 < (conn_write (bytes_of (dump_request req)) (Conn s (Ok w2))).1 ->
  DoRequest_uri host getaddrinfo errno strerror lexical_cast fuel raw buffer req uri t w = Err (UB index_oob).
Proof.
  intros Ha Hc Ht Hpos. unfold DoRequest_uri. rewrite Ha, bind_Ok, Hc, bind_Ok. cbn [negb].
  rewrite Ht, bind_Ok. unfold exchange, sendRequest.
  pose proof (writeFixSize_overrun (bytes_of (dump_request req)) (Conn s (Ok w2))) as Ho.
  change (@swrite (conn W) _) with (@conn_write W _) in Ho.
  destruct (conn_write _ _) as [n c]. rewrite Ho; [done|apply dump_request_nonempty|done].
Qed.
End client_facts.

(** ** Properties *)

(** C13: The client never gets a response. A call of [DoRequest] that returns
    reports an invalid URL or host, a failed connection or a failed send,
    carries no response, and has closed what it opened; and when the URL parses,
    the host resolves, the connection is made, its timeout is set and the first
    send takes something, the process reads beyond the text of the request.
    Other ends without a result, such as the undefined behaviour of an empty
    port in [Uri::Create], are not excluded. *)
Theorem client_never_answered host getaddrinfo {W} `{!Net W} `{!NetData W} opened `{!NetLaws W opened} {MM : Memory}
    errno strerror lexical_cast fuel raw buffer method url t headers body (w : W) :
  let run := DoRequest host getaddrinfo errno strerror lexical_cast fuel raw buffer method url t headers body w in
  (forall r w', run = Ok (r, w') ->
     opened w' = opened w /\ response r = None
     /\ result r ∈ map error_code [INVALID_URL; INVALID_HOST; CONNECT_FAIL; SEND_CLOSE_BY_PEER; SEND_SOCKET_ERROR])
  /\ (forall uri addr s w1 w2,
     Uri.Create url = Ok (Some uri) -> createAddress host getaddrinfo uri = Ok (Some addr) ->
     Socket.connect host addr NEVER (CreateTCP addr) w = Ok (true, s, w1) ->
     Socket.setRecvTimeout (i64 t) s w1 = Ok w2 ->
     0 < (conn_write (bytes_of (dump_request (make_request method uri headers body))) (Conn s (Ok w2))).1 ->
     run = Err (UB index_oob)).
Proof.
  intros run. subst run. unfold DoRequest, with_url. split.
  - intros r w' H. apply bind_ok in H as ([uri|] & _ & H).
    + apply (DoRequest_uri_fails host getaddrinfo opened) in H as (? & ? & Hc). split_and!; [done|done|].
      cbn [map] in *. set_solver.
    + injection H as <- <-. split_and!; [done|done|cbn; set_solver].
  - intros uri addr s w1 w2 Hu Ha Hc Ht Hpos. rewrite Hu, bind_Ok. by eapply DoRequest_uri_overruns.
Qed.

#[global] Instance net1_data hook : NetData net1 (Net0 := net1_Net hook).
Proof.
  constructor; cbn; intros; simplify_eq; [split_and!; [lia|done|unfold in_s; lia]|].
  split; [lia|]. unfold in_s. lia.
Qed.

Definition resolve4 (_ : string) (_ : option string) (_ : hints) : option (list sockaddr) := Some [peer4].

(** A host that refuses the connection. *)
Lemma client_never_answered_witness :
  let run := DoRequest SYLAR_BIG_ENDIAN resolve4 (MM := plenty) (Net0 := net1_Net true) (fun _ => 111) (fun _ => "refused")
               (fun _ => None) 9 raw0 [] GET "http://sylar.top/a" 500 [] "" (Net1 [0] peer4 false) in
  exists r w', run = Ok (r, w') /\ result r = 3 /\ n_opened w' = n_opened (Net1 [0] peer4 false).
Proof.
  intros run.
  pose proof (client_never_answered SYLAR_BIG_ENDIAN resolve4 (MM := plenty) (Net0 := net1_Net true) n_opened
    (NetLaws0 := net1_laws true) (fun _ => 111) (fun _ => "refused")
    (fun _ => None) 9 raw0 [] GET "http://sylar.top/a" 500 [] "" (Net1 [0] peer4 false)) as [H _].
  fold run in H. destruct run as [[r w']|e] eqn:E; [|vm_compute in E; discriminate].
  exists r, w'. split; [done|]. split; [|by apply (H r w')].
  vm_compute in E. by injection E as <- _.
Defined.

(** *** Requests *)

Definition is_connection (e : string * string) : bool := strcasecmp (c_str e.1) "connection" =? 0.
Definition keeps_alive (e : string * string) : bool := is_connection e && (strcasecmp (c_str e.2) "keep-alive" =? 0).
Definition names_host (e : string * string) : bool :=
  (strcasecmp (c_str e.1) "host" =? 0) && negb (String.eqb e.2 "").

(** The caller's headers, later spellings of a name over earlier ones. *)
Definition given (headers : list (string * string)) (m : MapType) : MapType :=
  foldl (fun m e => map_set e.1 e.2 m) m (List.filter (fun e => negb (is_connection e)) headers).

Lemma strcasecmp_eq a b : (strcasecmp a b =? 0) = true <-> ckey a = ckey b.
Proof. rewrite Z.eqb_eq. apply strcasecmp_spec. Qed.

Lemma ckey_c_str s : ckey (c_str s) = ckey s.
Proof.
  induction s as [|c s IH]; [done|]. cbn [c_str ckey]. unfold NUL.
  destruct (Ascii.eqb_spec c "000"%char) as [->|Hn]; [done|]. cbn [ckey]. by rewrite IH.
Qed.

Lemma names_host_not_connection e : is_connection e = true -> names_host e = false.
Proof.
  unfold is_connection, names_host. intros H%strcasecmp_eq. apply andb_false_iff. left.
  apply not_true_iff_false. rewrite strcasecmp_eq, H. intros E. vm_compute in E. discriminate.
Qed.

(** The loop over the headers in one formula. *)
Lemma add_headers_eq headers b req :
  add_headers headers b req =
  (b || existsb names_host headers,
   with_close (m_close req && negb (existsb keeps_alive headers))
     (with_maps (given headers (m_headers req)) (m_params req) (m_cookies req) req)).
Proof.
  induction headers as [|[k v] headers IH] in b, req |- *; cbn [add_headers existsb].
  { rewrite orb_false_r, andb_true_r. by destruct req. }
  unfold given, keeps_alive. cbn [List.filter].
  pose proof (names_host_not_connection (k, v)) as Hh. unfold is_connection in *. cbn [fst snd] in *.
  destruct (strcasecmp (c_str k) "connection" =? 0); cbn [negb andb].
  - rewrite Hh by done. cbn [orb]. rewrite IH. f_equal. unfold given, is_connection.
    destruct (strcasecmp (c_str v) "keep-alive" =? 0); cbn; [|done]. by rewrite andb_false_r.
  - rewrite IH. unfold names_host at 2. cbn [fst snd orb]. f_equal.
    destruct b; cbn; [done|]. by destruct (strcasecmp (c_str k) "host" =? 0).
Qed.

Lemma given_not_connection headers m :
  to_map m !! ckey "connection" = None -> to_map (given headers m) !! ckey "connection" = None.
Proof.
  unfold given. induction headers as [|e headers IH] in m |- *; intros Hm; cbn [List.filter]; [done|].
  destruct (is_connection e) eqn:He; cbn [negb foldl]; apply IH; [done|].
  rewrite map_set_spec, lookup_insert_ne; [done|]. intros E. apply not_true_iff_false in He.
  apply He. unfold is_connection. by rewrite strcasecmp_eq, ckey_c_str.
Qed.

(** The request the client makes of a URI and the caller's headers has the
    URI's path, query and fragment, the caller's headers but those named
    connection, which only say whether the connection is kept, and the host of
    the URI unless the caller names one; and the request the pool makes of the
    same URI as one text is the same text, but that it always keeps the
    connection. *)
Theorem client_request_text method uri headers body :
  let r := make_request method uri headers body in
  (m_method r, Http.m_path r, Http.m_query r, Http.m_fragment r, m_body r)
    = (method, Uri.getPath uri, Uri.m_query uri, Uri.m_fragment uri, body)
  /\ m_close r = negb (existsb keeps_alive headers)
  /\ to_map (m_headers r) =
      (if existsb names_host headers then to_map (given headers [])
       else <[ckey "host" := m_host uri]> (to_map (given headers [])))
  /\ to_map (m_headers r) !! ckey "connection" = None
  /\ dump_request (make_pool_request (m_host uri) "" method (pool_url uri) headers body)
      = dump_request (with_close false r).
Proof.
  cbn zeta. unfold make_request, make_pool_request. rewrite !add_headers_eq. cbn [orb].
  pose proof (given_not_connection headers [] eq_refl) as Hc.
  split_and!.
  - by destruct (existsb names_host headers).
  - by destruct (existsb names_host headers).
  - destruct (existsb names_host headers); [done|]. apply (map_set_spec "Host").
  - destruct (existsb names_host headers); [done|].
    transitivity (to_map (map_set "Host" (m_host uri) (given headers [])) !! ckey "connection"); [done|].
    by rewrite map_set_spec, lookup_insert_ne.
  - unfold dump_request, pool_url. destruct (existsb names_host headers); cbn; by rewrite !string_app_assoc.
Qed.
