(* ===== verification/HttpPool.v ===== *)
(** * [HttpConnectionPool] of [sylar/http/http_connection.cc]

    Connections are objects on the heap: [m_conns] holds the idle ones, users
    hold those handed out, and a call of [getConnection] holds the ones it has
    taken out to delete.  Each locked section or access to the counter, with
    what a thread does alone after it, is a step. *)

From stdpp Require Import base list gmap sets strings.
From Stdlib Require Import ZArith Lia Ascii String.
From S2P Require Import Prelude Endian Http HttpTheorems Stream HttpParser HttpClientParser HttpSession HttpConnection.
From S2P Require Import Uri Address Lookup FdManager Hook Socket SocketTheorems HttpClient.

Local Open Scope string_scope.
Local Open Scope Z_scope.

(** What the pool uses of an [HttpConnection]; [m_createTime] stays zero. *)
Record HttpConn := mkConn { h_sock : Socket; m_createTime : Z; m_request : Z }.

Definition newHttpConnection (sock : Socket) : HttpConn := mkConn sock 0 0.
Definition with_sock (s : Socket) (c : HttpConn) : HttpConn := mkConn s (m_createTime c) (m_request c).
Definition isConnected (c : HttpConn) : bool := m_isConnected (h_sock c).

Record HttpConnectionPool := mkPool {
  m_host : string;
  m_vhost : string;
  m_port : Z;
  m_maxSize : Z;
  m_maxAliveTime : Z;
  m_maxRequest : Z;
  m_isHttps : bool;
  m_conns : list nat;
  m_total : Z;
}.

Definition newPool (host vhost : string) (port : Z) (is_https : bool) (max_size max_alive_time max_request : Z)
    : HttpConnectionPool :=
  mkPool host vhost (if port =? 0 then (if is_https then 443 else 80) else port)
    max_size max_alive_time max_request is_https [] 0.

(** [HttpConnectionPool::Create]: an invalid URI is logged, then used. *)
Definition Pool_Create (uri vhost : string) (max_size max_alive_time max_request : Z)
    : outcome HttpConnectionPool :=
  o ← Uri.Create uri;
  turi ← deref null_deref o;
  Ok (newPool (Uri.m_host turi) vhost (u32 (getPort turi)) (String.eqb (m_scheme turi) "https")
        max_size max_alive_time max_request).

Definition set_conns (v : list nat) (p : HttpConnectionPool) : HttpConnectionPool :=
  mkPool (m_host p) (m_vhost p) (m_port p) (m_maxSize p) (m_maxAliveTime p) (m_maxRequest p) (m_isHttps p)
    v (m_total p).
(** [m_total += n], an [atomic<int32_t>] *)
Definition add_total (n : Z) (p : HttpConnectionPool) : HttpConnectionPool :=
  mkPool (m_host p) (m_vhost p) (m_port p) (m_maxSize p) (m_maxAliveTime p) (m_maxRequest p) (m_isHttps p)
    (m_conns p) (i32 (m_total p + n)).

(** [p_out]: held by users; [p_dying]: taken out to be deleted, by thread. *)
Record pstate (W : Type) := PState {
  p_pool : HttpConnectionPool;
  p_heap : gmap nat HttpConn;
  p_out : list nat;
  p_dying : list (list nat);
  p_sys : W;
}.
Arguments PState {W} p_pool p_heap p_out p_dying p_sys.
Arguments p_pool {W} _.
Arguments p_heap {W} _.
Arguments p_out {W} _.
Arguments p_dying {W} _.
Arguments p_sys {W} _.

Section pool.
Context (host : endian) (getaddrinfo : string -> option string -> hints -> option (list sockaddr)).
Context {W : Type} `{!Net W}.
Context (errno : W -> Z) (strerror : Z -> string) (lexical_cast : string -> option Z).
Context {MM : Memory}.
Context (fuel : nat) (raw : httpclient_parser) (buffer : list Z).
Implicit Type s : pstate W.

(** The loop under the lock: the connections taken out as invalid, the one
    found, and those left. *)
Fixpoint pop_conns (now_ms : Z) (pool : HttpConnectionPool) (h : gmap nat HttpConn) (conns : list nat)
    : outcome (list nat * option nat * list nat) :=
  match conns with
  | [] => Ok ([], None, [])
  | c :: conns =>
      conn ← deref null_deref (h !! c);
      if negb (isConnected conn) || (now_ms <? u64 (m_createTime conn + m_maxAliveTime pool)) then
        '(invalid, ptr, rest) ← pop_conns now_ms pool h conns;
        Ok (c :: invalid, ptr, rest)
      else Ok ([], Some c, conns)
  end.

Definition take_conn (now_ms : Z) s : outcome (option nat * pstate W) :=
  '(invalid, ptr, rest) ← pop_conns now_ms (p_pool s) (p_heap s) (m_conns (p_pool s));
  Ok (ptr, PState (set_conns rest (p_pool s)) (p_heap s)
             (p_out s ++ match ptr with Some c => [c] | None => [] end) (p_dying s ++ [invalid]) (p_sys s)).

(** [delete i] closes the socket. *)
Definition delete_conn (c : nat) (x : gmap nat HttpConn * W) : outcome (gmap nat HttpConn * W) :=
  conn ← deref null_deref (x.1 !! c);
  '(_, _, w) ← Socket.close (h_sock conn) x.2;
  Ok (delete c x.1, w).
Fixpoint delete_all (cs : list nat) (x : gmap nat HttpConn * W) : outcome (gmap nat HttpConn * W) :=
  match cs with
  | [] => Ok x
  | c :: cs => x ← delete_conn c x; delete_all cs x
  end.

(** The deletion of the [i]-th batch, and the counter. *)
Definition drop_invalid (i : nat) s : outcome (pstate W) :=
  invalid ← deref null_deref (p_dying s !! i);
  '(h, w) ← delete_all invalid (p_heap s, p_sys s);
  Ok (PState (add_total (- Z.of_nat (List.length invalid)) (p_pool s)) h (p_out s) (delete i (p_dying s)) w).

(** A new connection, or none. *)
Definition open_conn s : outcome (option nat * pstate W) :=
  o ← LookupAnyIPAddress host getaddrinfo (m_host (p_pool s)) AF_INET 0 0;
  match o with
  | None => Ok (None, s)
  | Some addr =>
      let addr := ip_setPort host (m_port (p_pool s)) addr in
      '(b, sock, w) ← Socket.connect host addr NEVER (CreateTCP addr) (p_sys s);
      if negb b then
        '(_, _, w) ← Socket.close sock w;
        Ok (None, PState (p_pool s) (p_heap s) (p_out s) (p_dying s) w)
      else
        let c := fresh (dom (p_heap s)) in
        Ok (Some c, PState (add_total 1 (p_pool s)) (<[c := newHttpConnection sock]> (p_heap s))
                      (p_out s ++ [c]) (p_dying s) w)
  end.

(** [getConnection] with no other thread between its steps. *)
Definition getConnection (now_ms : Z) s : outcome (option nat * pstate W) :=
  '(ptr, s) ← take_conn now_ms s;
  s ← drop_invalid (pred (List.length (p_dying s))) s;
  match ptr with
  | Some c => Ok (Some c, s)
  | None => open_conn s
  end.

(** [ReleasePtr] *)
Definition ReleasePtr (c : nat) (now_ms : Z) s : outcome (pstate W) :=
  conn ← deref null_deref (p_heap s !! c);
  let conn := mkConn (h_sock conn) (m_createTime conn) (u64 (m_request conn + 1)) in
  let h := <[c := conn]> (p_heap s) in
  let out := List.filter (fun d => negb (d =? c)%nat) (p_out s) in
  if negb (isConnected conn) || (now_ms <=? u64 (m_createTime conn + m_maxAliveTime (p_pool s)))
     || (m_maxRequest (p_pool s) <=? m_request conn) then
    '(h, w) ← delete_conn c (h, p_sys s);
    Ok (PState (add_total (-1) (p_pool s)) h out (p_dying s) w)
  else
    Ok (PState (set_conns (m_conns (p_pool s) ++ [c]) (p_pool s)) h out (p_dying s) (p_sys s)).

(** [sock->getRemoteAddress()->toString()] *)
Definition remote_text (c : conn W) : outcome (string * conn W) :=
  w ← c_sys c;
  '(a, sock, w) ← getRemoteAddress host (c_sock c) w;
  Ok (address_text host a, Conn sock (Ok w)).

(** A use of a connection in [doRequest]. *)
Definition use_conn (req : HttpRequest) (timeout_ms : Z) (c : nat) s : outcome (HttpResult * pstate W) :=
  conn ← deref null_deref (p_heap s !! c);
  w ← Socket.setRecvTimeout (i64 timeout_ms) (h_sock conn) (p_sys s);
  '(r, x) ← exchange errno strerror lexical_cast fuel raw buffer req remote_text timeout_ms
              (Conn (h_sock conn) (Ok w));
  w ← c_sys x;
  Ok (r, PState (p_pool s) (<[c := with_sock (c_sock x) conn]> (p_heap s)) (p_out s) (p_dying s) w).

(** [doRequest(req, timeout_ms)]; the clock is read twice. *)
Definition doRequest (req : HttpRequest) (timeout_ms now1 now2 : Z) s : outcome (HttpResult * pstate W) :=
  '(o, s) ← getConnection now1 s;
  match o with
  | None =>
      Ok (failed POOL_GET_CONNECTION
            ("pool host:" ++ m_host (p_pool s) ++ " port:" ++ decimal (m_port (p_pool s))), s)
  | Some c =>
      '(r, s) ← use_conn req timeout_ms c s;
      s ← ReleasePtr c now2 s;
      Ok (r, s)
  end.

Definition doRequest_url (method : HttpMethod) (url : string) (timeout_ms : Z)
    (headers : list (string * string)) (body : string) (now1 now2 : Z) s :=
  doRequest (make_pool_request (m_host (p_pool s)) (m_vhost (p_pool s)) method url headers body)
    timeout_ms now1 now2 s.
Definition doGet := doRequest_url GET.
Definition doPost := doRequest_url POST.
Definition doRequest_uri (method : HttpMethod) (uri : Uri) := doRequest_url method (pool_url uri).
Definition doGet_uri := doRequest_uri GET.
Definition doPost_uri := doRequest_uri POST.

(** ** Steps of concurrent users *)

Inductive pool_step s : pstate W -> Prop :=
  | pool_take now o s' : take_conn now s = Ok (o, s') -> pool_step s s'
  | pool_drop i s' : (i < List.length (p_dying s))%nat -> drop_invalid i s = Ok s' -> pool_step s s'
  | pool_open o s' : open_conn s = Ok (o, s') -> pool_step s s'
  | pool_use req t c r s' : c ∈ p_out s -> use_conn req t c s = Ok (r, s') -> pool_step s s'
  | pool_release c now s' : c ∈ p_out s -> ReleasePtr c now s = Ok s' -> pool_step s s'.
End pool.

(** ** The pool accounts for its connections *)

Section accounts.
Context (host : endian) (getaddrinfo : string -> option string -> hints -> option (list sockaddr)).
Context {W : Type} `{!Net W} `{!NetData W} (opened : W -> gset Z) `{!NetLaws W opened}.
Context (errno : W -> Z) (strerror : Z -> string) (lexical_cast : string -> option Z).
Context {MM : Memory}.
Context (fuel : nat) (raw : httpclient_parser) (buffer : list Z).
Implicit Type s : pstate W.

(** Every connection in existence, by who holds it. *)
Definition live s : list nat := (m_conns (p_pool s) ++ p_out s ++ List.concat (p_dying s))%list.

Record pool_ok (base : gset Z) s : Prop := {
  po_nodup : NoDup (live s);
  po_heap c : c ∈ live s <-> is_Some (p_heap s !! c);
  po_total : m_total (p_pool s) = i32 (Z.of_nat (List.length (live s)));
  po_idle c conn : c ∈ m_conns (p_pool s) -> p_heap s !! c = Some conn ->
    isConnected conn = true /\ m_request conn < m_maxRequest (p_pool s);
  po_time c conn : p_heap s !! c = Some conn -> m_createTime conn = 0;
  po_owns : owns_all opened base (h_sock <$> p_heap s) (p_sys s);
}.

(** The counter after a change, modulo its width. *)
Lemma i32_add a b : i32 (i32 a + b) = i32 (a + b).
Proof.
  unfold i32, wraps. f_equal. rewrite <- Z.add_assoc, (Z.add_comm b).
  set (m := 2 ^ (32 - 1)). replace ((a + m) mod 2 ^ 32 - m + (m + b)) with ((a + m) mod 2 ^ 32 + b) by lia.
  rewrite Z.add_mod_idemp_l by lia. f_equal. lia.
Qed.

Lemma pop_conns_spec now pool h conns inv ptr rest :
  pop_conns now pool h conns = Ok (inv, ptr, rest) ->
  conns = (inv ++ match ptr with Some c => [c] | None => [] end ++ rest)%list.
Proof.
  induction conns as [|c conns IH] in inv, ptr, rest |- *; cbn [pop_conns]; [by intros [= <- <- <-]|].
  intros H. apply bind_ok in H as (conn & _ & H). destruct (_ || _); [|by injection H as <- <- <-].
  apply bind_ok in H as ([[i p] r] & ->%IH & [= <- <- <-]). done.
Qed.

Lemma take_conn_ok base now s o s' : pool_ok base s -> take_conn now s = Ok (o, s') -> pool_ok base s'.
Proof.
  intros [Hn Hh Ht Hi Hc Ho] H. unfold take_conn in H.
  apply bind_ok in H as ([[inv ptr] rest] & Hp%pop_conns_spec & [= <- <-]).
  assert (live s ≡ₚ live (PState (set_conns rest (p_pool s)) (p_heap s)
    (p_out s ++ match ptr with Some c => [c] | None => [] end) (p_dying s ++ [inv]) (p_sys s))) as Hperm.
  { unfold live. cbn. rewrite Hp, concat_app, <- !app_assoc. cbn. rewrite app_nil_r. solve_Permutation. }
  split; cbn in *; [by rewrite <- Hperm|intros c; by rewrite <- Hperm|by rewrite <- Hperm| |done|done].
  intros c conn Hin. apply Hi. rewrite Hp. set_solver.
Qed.

Lemma delete_all_ok base cs h w h' w' :
  NoDup cs -> owns_all opened base (h_sock <$> h) w -> delete_all cs (h, w) = Ok (h', w') ->
  owns_all opened base (h_sock <$> h') w'
  /\ (forall c, c ∈ cs -> is_Some (h !! c)) /\ (forall c, h' !! c = if decide (c ∈ cs) then None else h !! c).
Proof.
  intros Hn. revert h w. induction Hn as [|c cs Hc Hn IH]; intros h w Ho H; cbn [delete_all] in H.
  { injection H as <- <-. split_and!; [done|set_solver|done]. }
  apply bind_ok in H as ([h1 w1] & H1 & H). unfold delete_conn in H1. cbn in H1.
  apply bind_ok in H1 as (conn & Hd & H1). destruct (h !! c) as [conn'|] eqn:Hc'; [injection Hd as ->|done].
  apply bind_ok in H1 as ([[b s] w2] & (Hf & Es & Ec)%(close_frames opened) & [= <- <-]).
  destruct (IH (delete c h) w2) as (I1 & I2 & I3); [|done|].
  { rewrite fmap_delete. rewrite <- (delete_insert_eq _ c s).
    eapply (owns_all_delete opened); [|apply lookup_insert_eq|done].
    eapply (owns_all_frames opened); [exact Ho|by rewrite lookup_fmap, Hc'|done|]. unfold sock_wf. by rewrite Ec. }
  split_and!; [done| |].
  - intros d [->|Hd']%elem_of_cons; [by rewrite Hc'|]. apply I2 in Hd'.
    destruct (decide (d = c)) as [->|]; [by rewrite Hc'|]. by rewrite lookup_delete_ne in Hd'.
  - intros d. rewrite I3. destruct (decide (d = c)) as [->|Hne].
    + rewrite decide_False by done. rewrite decide_True by set_solver. by rewrite lookup_delete_eq.
    + rewrite lookup_delete_ne by done. destruct (decide (d ∈ cs)); [rewrite decide_True; set_solver|].
      rewrite decide_False; set_solver.
Qed.

Lemma drop_invalid_ok base i s s' : pool_ok base s -> drop_invalid i s = Ok s' -> pool_ok base s'.
Proof.
  intros [Hn Hh Ht Hi Hc Ho] H. unfold drop_invalid in H. apply bind_ok in H as (inv & Hd & H).
  destruct (p_dying s !! i) as [inv'|] eqn:Hinv; [injection Hd as ->|done].
  apply bind_ok in H as ([h w] & H1 & [= <-]).
  assert (live s ≡ₚ (inv ++ live (PState (p_pool s) h (p_out s) (delete i (p_dying s)) w))%list) as Hperm.
  { unfold live. cbn. rewrite (delete_Permutation _ _ _ Hinv) at 1. cbn. solve_Permutation. }
  rewrite Hperm in Hn. apply NoDup_app in Hn as (Hn1 & Hdis & Hn2).
  destruct (delete_all_ok base inv _ _ _ _ Hn1 Ho H1) as (Ho' & _ & Hh').
  split; cbn in *; [done| | |intros c conn Hin|intros c conn|done].
  - intros c. rewrite Hh'. specialize (Hh c). rewrite Hperm, elem_of_app in Hh.
    destruct (decide (c ∈ inv)) as [Hin|Hin]; [|unfold live in *; cbn in *; naive_solver].
    split; [|by intros []]. intros Hl. exfalso. by apply (Hdis c).
  - rewrite Ht, i32_add, Hperm, length_app. f_equal. unfold live. cbn. lia.
  - rewrite Hh'. destruct (decide _); [done|]. by apply Hi.
  - rewrite Hh'. destruct (decide _); [done|]. apply Hc.
Qed.

Lemma open_conn_ok base s o s' : pool_ok base s -> open_conn host getaddrinfo s = Ok (o, s') -> pool_ok base s'.
Proof.
  intros [Hn Hh Ht Hi Hc Ho] H. unfold open_conn in H.
  apply bind_ok in H as ([addr|] & _ & H); [|by injection H as <- <-].
  apply bind_ok in H as ([[b sock] w] & Hcn & H).
  set (a := ip_setPort _ _ _) in *. set (q := fresh (dom (p_heap s))) in *.
  assert (p_heap s !! q = None) as Hq by apply not_elem_of_dom, is_fresh.
  apply (connect_frames host opened) in Hcn as (Hf & Hwf & _).
  assert (owns_all opened base (<[q := sock]> (h_sock <$> p_heap s)) w) as Ho1.
  { rewrite <- (insert_insert_eq _ q sock (CreateTCP a)).
    eapply (owns_all_frames opened); [|apply lookup_insert_eq|exact Hf|by apply Hwf].
    apply (owns_all_new opened); [done|by rewrite lookup_fmap, Hq|done|done]. }
  destruct b; cbn [negb] in H.
  - injection H as <- <-.
    assert (live s ++ [q] ≡ₚ live (PState (add_total 1 (p_pool s)) (<[q := newHttpConnection sock]> (p_heap s))
      (p_out s ++ [q]) (p_dying s) w))%list as Hperm by (unfold live; cbn; solve_Permutation).
    assert (q ∉ live s) as Hql by (rewrite Hh, Hq; by intros []).
    split; cbn.
    + rewrite <- Hperm. apply NoDup_app. split_and!; [done|set_solver|apply NoDup_singleton].
    + intros c. rewrite <- Hperm, elem_of_app, Hh, list_elem_of_singleton, lookup_insert_is_Some'. naive_solver.
    + rewrite Ht, i32_add, <- Hperm, length_app. f_equal. cbn. lia.
    + intros c conn Hin. rewrite lookup_insert_ne; [by apply Hi|]. intros <-. apply Hql. unfold live. set_solver.
    + intros c conn [[<- <-]|[_ ?]]%lookup_insert_Some; [done|by eapply Hc].
    + by rewrite fmap_insert.
  - apply bind_ok in H as ([[b2 s2] w2] & (Hf2 & E2 & E2')%(close_frames opened) & [= <- <-]).
    split; cbn; try done.
    rewrite <- (delete_insert_id (h_sock <$> p_heap s) q s2) by by rewrite lookup_fmap, Hq.
    eapply (owns_all_delete opened); [|apply lookup_insert_eq|done].
    rewrite <- (insert_insert_eq _ q s2 sock).
    eapply (owns_all_frames opened); [exact Ho1|apply lookup_insert_eq|done|]. unfold sock_wf. by rewrite E2'.
Qed.

Lemma remote_text_keeps c1 a c2 : remote_text host c1 = Ok (a, c2) -> conn_keeps opened c1 c2.
Proof.
  unfold remote_text. intros H. apply bind_ok in H as (w & Hw & H).
  apply bind_ok in H as ([[b sk] w1] & (E1 & E2 & E3)%(remote_keeps host opened) & [= _ <-]).
  split_and!; [done..|]. intros w' [= <-]. eauto.
Qed.

Lemma use_conn_ok base req t c s r s' :
  pool_ok base s -> c ∈ p_out s ->
  use_conn host errno strerror lexical_cast fuel raw buffer req t c s = Ok (r, s') -> pool_ok base s'.
Proof.
  intros [Hn Hh Ht Hi Hc Ho] Hin H. unfold use_conn in H. apply bind_ok in H as (conn & Hd & H).
  destruct (p_heap s !! c) as [conn'|] eqn:Hcc; [injection Hd as ->|done].
  apply bind_ok in H as (w & Hset & H). apply bind_ok in H as ([r' x] & Hx & H).
  apply (exchange_fails opened) in Hx as ((E1 & E2 & Hk) & _); [|apply remote_text_keeps].
  apply bind_ok in H as (w1 & Hw1 & [= <- <-]). destruct (Hk w1 Hw1) as (w2 & [= <-] & E3).
  unfold Socket.setRecvTimeout in Hset.
  apply bind_ok in Hset as ([b w3] & Hset%(setOption_keeps opened) & [= ->]).
  assert (c ∉ m_conns (p_pool s)) as Hidle.
  { unfold live in Hn. apply NoDup_app in Hn as (_ & Hdis & _). intros Hm. apply (Hdis c Hm). set_solver. }
  split; cbn; [done| |done| | |].
  - intros d. unfold live. cbn. rewrite lookup_insert_is_Some'. unfold live in Hh. rewrite Hh.
    split; [naive_solver|]. intros [<-|?]; [by rewrite Hcc|done].
  - intros d conn2 Hd. rewrite lookup_insert_ne by (intros <-; done). by apply Hi.
  - intros d conn2 [[<- <-]|[_ ?]]%lookup_insert_Some; [exact (Hc c conn Hcc)|by eapply Hc].
  - rewrite fmap_insert. cbn. eapply (owns_all_frames opened); [exact Ho|by rewrite lookup_fmap, Hcc| |].
    + apply frames_keep; [done|congruence].
    + pose proof (oa_wf _ _ _ _ Ho c (h_sock conn) ltac:(by rewrite lookup_fmap, Hcc)) as Hwf.
      unfold sock_wf in *. by rewrite E1, E2.
Qed.

Lemma filter_out_perm (c : nat) l :
  NoDup l -> c ∈ l -> l ≡ₚ c :: List.filter (fun d => negb (d =? c)%nat) l.
Proof.
  induction 1 as [|d l Hd Hn IH]; [set_solver|]. intros [->|Hc]%elem_of_cons; cbn [List.filter].
  - rewrite Nat.eqb_refl. cbn. constructor. clear IH. induction l as [|e l IHl]; [done|]. cbn [List.filter].
    destruct (Nat.eqb_spec e d) as [->|]; [set_solver|]. cbn. constructor. apply IHl; [set_solver|].
    by inversion Hn.
  - destruct (Nat.eqb_spec d c) as [->|]; [done|]. cbn. rewrite (IH Hc) at 1. constructor.
Qed.

Lemma release_ok base c now s s' :
  pool_ok base s -> c ∈ p_out s -> ReleasePtr c now s = Ok s' -> pool_ok base s'.
Proof.
  intros [Hn Hh Ht Hi Hc Ho] Hin H. unfold ReleasePtr in H. apply bind_ok in H as (conn & Hd & H).
  destruct (p_heap s !! c) as [conn'|] eqn:Hcc; [injection Hd as ->|done].
  set (conn2 := mkConn _ _ _) in H. set (out := List.filter _ _) in H.
  assert (p_out s ≡ₚ c :: out) as Hout.
  { apply filter_out_perm; [|done]. unfold live in Hn. by apply NoDup_app in Hn as (_ & _ & [? _]%NoDup_app). }
  assert (h_sock <$> <[c := conn2]> (p_heap s) = h_sock <$> p_heap s) as Hsame.
  { rewrite fmap_insert. apply insert_id. by rewrite lookup_fmap, Hcc. }
  assert (live s ≡ₚ c :: (m_conns (p_pool s) ++ out ++ List.concat (p_dying s)))%list as Hlive.
  { unfold live. rewrite Hout. solve_Permutation. }
  destruct (_ || _) eqn:Htest.
  - unfold delete_conn in H. cbn in H. rewrite lookup_insert_eq in H. cbn in H.
    apply bind_ok in H as ([h w] & H1 & [= <-]).
    apply bind_ok in H1 as ([[b sk] w1] & (Hf & Es & Ec)%(close_frames opened) & [= <- <-]).
    rewrite delete_insert_eq. rewrite Hlive in Hn. apply NoDup_cons in Hn as [Hnc Hn].
    split; cbn; [done| | |intros d conn3 Hd|intros d conn3|].
    + intros d. specialize (Hh d). rewrite Hlive, elem_of_cons in Hh. unfold live. cbn.
      destruct (decide (d = c)) as [->|Hne]; [rewrite lookup_delete_eq|rewrite lookup_delete_ne by done; naive_solver].
      split; [done|by intros []].
    + rewrite Ht, i32_add, Hlive. f_equal. unfold live. cbn [List.length p_pool add_total m_conns p_out p_dying]. lia.
    + intros [_ ?]%lookup_delete_Some. by apply (Hi d).
    + intros [_ ?]%lookup_delete_Some. by eapply Hc.
    + rewrite fmap_delete, <- (delete_insert_eq _ c sk).
      eapply (owns_all_delete opened); [|apply lookup_insert_eq|done].
      eapply (owns_all_frames opened); [exact Ho|by rewrite lookup_fmap, Hcc|exact Hf|]. unfold sock_wf. by rewrite Ec.
  - injection H as <-. apply orb_false_iff in Htest as [[Hcn _]%orb_false_iff Hreq].
    assert (live s ≡ₚ live (PState (set_conns (m_conns (p_pool s) ++ [c]) (p_pool s)) (<[c := conn2]> (p_heap s))
      out (p_dying s) (p_sys s))) as Hperm by (rewrite Hlive; unfold live; cbn; solve_Permutation).
    split; cbn; [by rewrite <- Hperm| |by rewrite <- Hperm| | |by rewrite Hsame].
    + intros d. rewrite <- Hperm, Hh, lookup_insert_is_Some'.
      split; [naive_solver|]. intros [<-|?]; [by rewrite Hcc|done].
    + intros d conn3 Hd [[<- <-]|[Hne Hd']]%lookup_insert_Some.
      * split; [by apply negb_false_iff|]. apply Z.leb_gt in Hreq. exact Hreq.
      * apply (Hi d); [|done]. set_solver.
    + intros d conn3 [[<- <-]|[_ ?]]%lookup_insert_Some; [exact (Hc c conn Hcc)|by eapply Hc].
Qed.

Notation pstep := (pool_step host getaddrinfo errno strerror lexical_cast fuel raw buffer).

Lemma pool_step_ok base s s' : pool_ok base s -> pstep s s' -> pool_ok base s'.
Proof.
  intros Hi Hs. destruct Hs as [? ? ? H|? ? _ H|? ? H|? ? ? ? ? Hc H|? ? ? Hc H].
  - by eapply take_conn_ok.
  - by eapply drop_invalid_ok.
  - by eapply open_conn_ok.
  - by eapply use_conn_ok.
  - by eapply release_ok.
Qed.

Lemma pool_reachable_ok h v port https sz alive req w0 s :
  rtc pstep (PState (newPool h v port https sz alive req) ∅ [] [] w0) s -> pool_ok (opened w0) s.
Proof.
  intros Hr. remember (PState _ _ _ _ _) as s0 eqn:Es.
  assert (pool_ok (opened w0) s0) as H0.
  { subst s0. split; cbn; try done; [constructor|intros c; split; [set_solver|by intros []]|].
    rewrite fmap_empty. split; [done..|]. intros fd. split; [by left|]. by intros [?|(p & x & ? & _)]. }
  clear Es. induction Hr as [|? ? ? Hs _ IH]; [done|]. apply IH. by eapply pool_step_ok.
Qed.

Lemma i32_idem z : i32 (i32 z + 0) = i32 z.
Proof. by rewrite i32_add, Z.add_0_r. Qed.

(** A released connection whose flag is set goes back, whatever came of it. *)
Lemma release_returns_conn c conn now s :
  p_heap s !! c = Some conn -> m_createTime conn = 0 -> isConnected conn = true ->
  in_u 32 (m_maxAliveTime (p_pool s)) -> 2 ^ 32 <= now ->
  0 <= m_request conn < m_maxRequest (p_pool s) - 1 -> in_u 32 (m_maxRequest (p_pool s)) ->
  exists s', ReleasePtr c now s = Ok s' /\ m_conns (p_pool s') = (m_conns (p_pool s) ++ [c])%list.
Proof.
  intros Hc Ht Hcn Ha Hnow Hr Hm. unfold ReleasePtr, in_u in *. rewrite Hc, deref_Some, bind_Ok.
  unfold isConnected in *. cbn [h_sock m_createTime m_request]. rewrite Hcn, Ht. cbn [negb orb].
  unfold u64. rewrite !wrapu_small by (unfold in_u; lia).
  destruct (Z.leb_spec now (0 + m_maxAliveTime (p_pool s))); [lia|].
  destruct (Z.leb_spec (m_maxRequest (p_pool s)) (m_request conn + 1)); [lia|]. cbn [orb]. eauto.
Qed.
End accounts.

(** ** Properties *)

(** C12: In every interleaving of users taking, using and giving back
    connections of a pool, each connection in existence is idle, held by one
    user, or about to be deleted by one thread, never two of these; [m_total]
    counts them (modulo its 32 bits); an idle one is connected and has served
    fewer than the allowed requests; and the open descriptors are those of the
    connections: none leaks and none is closed twice. *)
Theorem pool_accounts host getaddrinfo {W} `{!Net W} `{!NetData W} opened `{!NetLaws W opened} {MM : Memory}
    errno strerror lexical_cast fuel raw buffer h v port https sz alive req (w0 : W) s :
  rtc (pool_step host getaddrinfo errno strerror lexical_cast fuel raw buffer)
    (PState (newPool h v port https sz alive req) ∅ [] [] w0) s ->
  NoDup (live s) /\ (forall c, c ∈ live s <-> is_Some (p_heap s !! c))
  /\ m_total (p_pool s) = i32 (Z.of_nat (List.length (live s)))
  /\ (forall c conn, c ∈ m_conns (p_pool s) -> p_heap s !! c = Some conn ->
        isConnected conn = true /\ m_request conn < m_maxRequest (p_pool s))
  /\ (forall fd, fd ∈ opened (p_sys s) <->
        fd ∈ opened w0 \/ fd <> -1 /\ exists c conn, p_heap s !! c = Some conn /\ m_sock (h_sock conn) = fd).
Proof.
  intros Hr%(pool_reachable_ok host getaddrinfo opened). destruct Hr as [Hn Hh Ht Hi Hc Ho].
  split_and!; [done..|]. intros fd. rewrite (owns_all_opened opened _ _ _ fd Ho).
  split; (intros [?|(? & H)]; [by left|right; split; [done|]]).
  - destruct H as (p & sk & Hp & <-). rewrite lookup_fmap in Hp.
    apply fmap_Some in Hp as (conn & Hp & ->). eauto.
  - destruct H as (c & conn & Hp & <-). exists c, (h_sock conn). by rewrite lookup_fmap, Hp.
Qed.

(** From 1970-02-20 on (the clock past 32 bits of milliseconds) a pool
    hands out the connection idle for longest, however old it is, and opens a
    new one exactly when none is idle, however many there are: neither the
    maximal age nor the maximal number has any effect. *)
Theorem pool_reuses host getaddrinfo {W} `{!Net W} `{!NetData W} opened `{!NetLaws W opened} {MM : Memory}
    errno strerror lexical_cast fuel raw buffer h v port https sz alive req (w0 : W) s now :
  rtc (pool_step host getaddrinfo errno strerror lexical_cast fuel raw buffer)
    (PState (newPool h v port https sz alive req) ∅ [] [] w0) s ->
  in_u 32 (m_maxAliveTime (p_pool s)) -> 2 ^ 32 <= now ->
  getConnection host getaddrinfo now s =
  match m_conns (p_pool s) with
  | c :: rest => Ok (Some c, PState (set_conns rest (p_pool s)) (p_heap s) (p_out s ++ [c]) (p_dying s) (p_sys s))
  | [] => open_conn host getaddrinfo s
  end.
Proof.
  intros Hr%(pool_reachable_ok host getaddrinfo opened) Ha Hnow. destruct Hr as [Hn Hh Ht Hi Hc _].
  assert (forall q out, drop_invalid (pred (List.length (p_dying s ++ [[]])))
      (PState (set_conns q (p_pool s)) (p_heap s) out (p_dying s ++ [[]]) (p_sys s))
    = Ok (PState (set_conns q (p_pool s)) (p_heap s) out (p_dying s) (p_sys s))) as Hdrop.
  { intros q out. unfold drop_invalid. cbn [p_dying].
    replace (pred (List.length (p_dying s ++ [[]]))) with (List.length (p_dying s)) by (rewrite length_app; cbn; lia).
    rewrite list_lookup_middle, deref_Some, bind_Ok by done. cbn [delete_all]. rewrite bind_Ok.
    rewrite delete_middle, app_nil_r. cbn. unfold add_total, set_conns. cbn.
    by rewrite Ht, i32_idem. }
  unfold getConnection, take_conn. destruct (m_conns (p_pool s)) as [|c rest] eqn:Hm.
  - cbn [pop_conns]. rewrite !bind_Ok, app_nil_r, Hdrop, bind_Ok. f_equal.
    unfold set_conns. rewrite <- Hm. by destruct s as [[] ? ? ? ?].
  - destruct (proj1 (Hh c)) as [conn Hcc]; [unfold live; rewrite Hm; set_solver|].
    destruct (Hi c conn ltac:(set_solver) Hcc) as [Hcn _].
    cbn [pop_conns]. rewrite Hcc, deref_Some, !bind_Ok, Hcn, (Hc c conn Hcc). cbn [negb orb].
    unfold u64. rewrite wrapu_small by (unfold in_u in *; lia).
    destruct (Z.ltb_spec now (0 + m_maxAliveTime (p_pool s))); [unfold in_u in *; lia|].
    by rewrite !bind_Ok, Hdrop, bind_Ok.
Qed.

(** A pool with one connection, used and given back. *)
Definition pool_step1 := pool_step SYLAR_BIG_ENDIAN resolve4 (MM := plenty) (Net0 := net1_Net true) (fun _ => 0) (fun _ => "")
  (fun _ => None) 9 raw0 [].
Definition pool0 : pstate net1 := PState (newPool "sylar.top" "" 0 false 10 30000 5) ∅ [] [] start1.
Definition one_idle : outcome (pstate net1) :=
  '(o, s) ← open_conn SYLAR_BIG_ENDIAN resolve4 (Net0 := net1_Net true) pool0;
  c ← deref null_deref o;
  ReleasePtr (Net0 := net1_Net true) c 1700000000000 s.

Lemma one_idle_reachable s : one_idle = Ok s -> rtc pool_step1 pool0 s.
Proof.
  unfold one_idle. intros H. apply bind_ok in H as ([o s1] & Ho & H).
  apply bind_ok in H as (c & Hc & Hr). destruct o as [c'|]; [injection Hc as ->|done].
  eapply rtc_l; [by eapply pool_open|]. apply rtc_once. eapply pool_release; [|exact Hr].
  vm_compute in Ho. injection Ho as <- <-. cbn. set_solver.
Qed.

Lemma pool_accounts_witness : exists s, one_idle = Ok s
  /\ m_total (p_pool s) = i32 (Z.of_nat (List.length (live s))) /\ live s = [0%nat].
Proof.
  eexists. split; [vm_compute; reflexivity|]. split; [|vm_compute; reflexivity].
  apply (pool_accounts SYLAR_BIG_ENDIAN resolve4 (Net0 := net1_Net true) n_opened (NetLaws0 := net1_laws true) (MM := plenty)
    (fun _ => 0) (fun _ => "") (fun _ => None) 9 raw0 [] "sylar.top" "" 0 false 10 30000 5 start1 _
    (one_idle_reachable _ ltac:(vm_compute; reflexivity))).
Defined.

Lemma pool_reuses_witness : exists s s', one_idle = Ok s
  /\ getConnection SYLAR_BIG_ENDIAN resolve4 (Net0 := net1_Net true) 1700009000000 s = Ok (Some 0%nat, s')
  /\ p_out s' = [0%nat].
Proof.
  eexists _, _. split; [vm_compute; reflexivity|]. split.
  - rewrite (pool_reuses SYLAR_BIG_ENDIAN resolve4 (Net0 := net1_Net true) n_opened (NetLaws0 := net1_laws true) (MM := plenty)
      (fun _ => 0) (fun _ => "") (fun _ => None) 9 raw0 [] "sylar.top" "" 0 false 10 30000 5 start1 _ 1700009000000
      (one_idle_reachable _ ltac:(vm_compute; reflexivity)) ltac:(vm_compute; split; [discriminate|reflexivity]) ltac:(lia)).
    reflexivity.
  - reflexivity.
Defined.

(** A pool made of an invalid URI dereferences the null pointer it has logged. *)
Lemma pool_of_invalid_uri vhost sz alive req :
  Pool_Create "http://a b/" vhost sz alive req = Err (UB null_deref).
Proof. unfold Pool_Create. replace (Uri.Create "http://a b/") with (Ok (@None Uri)) by (vm_compute; reflexivity). done. Qed.
