(* ===== verification/Config.v ===== *)
(** * [sylar/config.h], [sylar/config.cc]

    Configuration variables with their listeners, the registry that finds them
    by name, and loading values from YAML.  Reading and printing YAML is
    yaml-cpp's: [load] and [emit] are parameters, and so is the conversion of
    base types by [boost::lexical_cast]; a conversion that throws gives [None].
    The types a program uses are codes [ty], so that the registry can hold
    variables of several types as [ConfigVarBase::ptr] does. *)

From stdpp Require Import base list gmap sets strings.
From Stdlib Require Import ZArith Lia Ascii String.
From S2P Require Import Prelude Http.

Local Open Scope string_scope.

(** ** YAML documents *)

(** [YAML::Node], by its [NodeType]. *)
Inductive Node :=
  | Null
  | Scalar (s : string)
  | Sequence (l : list Node)
  | Map (l : list (Node * Node)).

Fixpoint Node_nested_ind (P : Node -> Prop) (Hn : P Null) (Hs : forall s, P (Scalar s))
    (Hq : forall l, Forall P l -> P (Sequence l))
    (Hm : forall l, Forall (fun e => P e.1 /\ P e.2) l -> P (Map l)) (n : Node) : P n :=
  match n with
  | Null => Hn
  | Scalar s => Hs s
  | Sequence l => Hq l ((fix go l : Forall P l := match l with
                         | [] => Forall_nil_2 _
                         | x :: l => Forall_cons_2 _ _ _ (Node_nested_ind P Hn Hs Hq Hm x) (go l)
                         end) l)
  | Map l => Hm l ((fix go l : Forall (fun e => P e.1 /\ P e.2) l := match l with
                    | [] => Forall_nil_2 _
                    | (k, v) :: l => Forall_cons_2 _ (k, v) _
                        (conj (Node_nested_ind P Hn Hs Hq Hm k) (Node_nested_ind P Hn Hs Hq Hm v)) (go l)
                    end) l)
  end.

(** [Scalar()] of a node that is none is the empty string. *)
Definition scalar (n : Node) : string := match n with Scalar s => s | _ => "" end.
Definition IsMap (n : Node) : bool := match n with Map _ => true | _ => false end.
Definition IsScalar (n : Node) : bool := match n with Scalar _ => true | _ => false end.
(** What iterating over a node as a map finds: an element of a sequence has no
    [first] and no [second], and using them throws [InvalidNode]. *)
Definition entries (n : Node) : option (list (Node * Node)) :=
  match n with Map l => Some l | Sequence (_ :: _) => None | _ => Some [] end.
Definition node_size (n : Node) : nat :=
  match n with Sequence l => List.length l | Map l => List.length l | _ => 0 end.

(** [YAML::Load], [operator<<], and [node[i]]. *)
Class Yaml := {
  load : string -> option Node;
  emit : Node -> string;
  index : Node -> nat -> Node;
}.

(** ** [LexicalCast] *)

Record LexicalCast (T : Type) := Cast { from_str : string -> option T; to_str : T -> option string }.
Arguments Cast {T} from_str to_str.
Arguments from_str {T} _ _.
Arguments to_str {T} _ _.

Section casts.
Context `{!Yaml} {T : Type} (c : LexicalCast T).

Fixpoint map_option {A B} (f : A -> option B) (l : list A) : option (list B) :=
  match l with
  | [] => Some []
  | x :: l => y ← f x; ys ← map_option f l; Some (y :: ys)
  end.

(** The node [push_back] has made: the empty one stays null. *)
Definition seq_node (l : list Node) : Node := match l with [] => Null | _ => Sequence l end.
Definition map_node (l : list (Node * Node)) : Node := match l with [] => Null | _ => Map l end.

(** The elements of a node as values, each through its own text. *)
Definition read_elems (v : string) : option (list T) :=
  node ← load v;
  map_option (fun i => from_str c (emit (index node i))) (seq 0 (node_size node)).
Definition elem_node (x : T) : option Node := s ← to_str c x; load s.
Definition print_elems (l : list T) : option string :=
  ns ← map_option elem_node l; Some (emit (seq_node ns)).

(** [std::vector<T>], [std::list<T>] *)
Definition cast_vector : LexicalCast (list T) := Cast read_elems print_elems.

(** [std::set<T>] and [std::unordered_set<T>]: [enum] is the order in which
    the container is traversed. *)
Definition cast_set `{Countable T} (enum : gset T -> list T) : LexicalCast (gset T) :=
  Cast (fun v => l ← read_elems v; Some (foldl (fun X x => {[x]} ∪ X) ∅ l))
       (fun X => print_elems (enum X)).

(** [std::map<std::string, T>] and [std::unordered_map]; [insert] keeps the
    first value of a key. *)
Definition insert_first (m : gmap string T) (e : string * T) : gmap string T :=
  match m !! e.1 with Some _ => m | None => <[e.1 := e.2]> m end.
Definition cast_map (enum : gmap string T -> list (string * T)) : LexicalCast (gmap string T) :=
  Cast (fun v =>
          node ← load v;
          es ← entries node;
          l ← map_option (fun e => x ← from_str c (emit e.2); Some (scalar e.1, x)) es;
          Some (foldl insert_first ∅ l))
       (fun m =>
          ns ← map_option (fun e => n ← elem_node e.2; Some (Scalar e.1, n)) (enum m);
          Some (emit (map_node ns))).
End casts.

(** ** [ConfigVar] *)

(** A listener acts on the rest of the program, [S]. *)
Definition on_change_cb (T S : Type) : Type := T -> T -> S -> S.

Record ConfigVar (T S : Type) := mkVar {
  m_name : string;
  m_description : string;
  m_val : T;
  m_cbs : list (Z * on_change_cb T S);
}.
Arguments mkVar {T S} m_name m_description m_val m_cbs.
Arguments m_name {T S} _.
Arguments m_description {T S} _.
Arguments m_val {T S} _.
Arguments m_cbs {T S} _.

(** [::tolower] on a character. *)
Definition lower_char (a : ascii) : ascii := ascii_of_nat (Z.to_nat (tolower a)).
Fixpoint lower (s : string) : string :=
  match s with "" => "" | String a s => String (lower_char a) (lower s) end.

Section var.
Context {T S : Type} (eqb : T -> T -> bool) (c : LexicalCast T).
Implicit Type v : ConfigVar T S.

Definition newConfigVar (name : string) (default_value : T) (description : string) : ConfigVar T S :=
  mkVar (lower name) description default_value [].

Definition set_val (x : T) v : ConfigVar T S := mkVar (m_name v) (m_description v) x (m_cbs v).
Definition set_cbs cbs v : ConfigVar T S := mkVar (m_name v) (m_description v) (m_val v) cbs.

(** The part of [setValue] under the read lock: [None] when the value is the
    same already, or the program after the listeners. *)
Definition setValue_notify (x : T) v (st : S) : option S :=
  if eqb x (m_val v) then None
  else Some (foldl (fun st e => e.2 (m_val v) x st) st (m_cbs v)).

(** [setValue] with no other thread between its locks. *)
Definition setValue (x : T) v (st : S) : ConfigVar T S * S :=
  match setValue_notify x v st with
  | None => (v, st)
  | Some st => (set_val x v, st)
  end.

(** [toString], [fromString]: an exception is logged; [fromString] always
    returns false. *)
Definition toString v : string := default "" (to_str c (m_val v)).
Definition fromString (s : string) v (st : S) : bool * ConfigVar T S * S :=
  match from_str c s with
  | Some x => let '(v, st) := setValue x v st in (false, v, st)
  | None => (false, v, st)
  end.

(** [addListener]: [s_fun_id] is shared by the variables of one type; a key
    already there is assigned. *)
Definition addListener (cb : on_change_cb T S) (s_fun_id : Z) v : Z * Z * ConfigVar T S :=
  let id := u64 (s_fun_id + 1) in
  (id, id, set_cbs (List.filter (fun e => (e.1 <? id)%Z) (m_cbs v) ++ (id, cb)
                    :: List.filter (fun e => (id <? e.1)%Z) (m_cbs v))%list v).
Definition delListener (key : Z) v : ConfigVar T S :=
  set_cbs (List.filter (fun e => negb (e.1 =? key)%Z) (m_cbs v)) v.
Definition getListener (key : Z) v : option (on_change_cb T S) :=
  option_map snd (List.find (fun e => (e.1 =? key)%Z) (m_cbs v)).
Definition clearListener v : ConfigVar T S := set_cbs [] v.
End var.

(** ** [Config] *)

(** The characters of a name: the digit 9 is missing. *)
Definition name_chars : string := "abcdefghijklmnopqrstuvwxyz._012345678".
Fixpoint has_char (a : ascii) (s : string) : bool :=
  match s with "" => false | String b s => Ascii.eqb a b || has_char a s end.
(** [find_first_not_of(...) == npos] *)
Fixpoint valid_name (s : string) : bool :=
  match s with "" => true | String a s => has_char a name_chars && valid_name s end.

(** [ListAllMember]; [None] for an invalid name ends only that branch. *)
Definition child_name (prefix key : string) : string :=
  if String.eqb prefix "" then key else prefix ++ "." ++ key.
Fixpoint ListAllMember (prefix : string) (node : Node) : list (string * Node) :=
  if negb (valid_name prefix) then [] else
  (prefix, node) :: match node with
                    | Map l => (fix go l := match l with
                                | [] => []
                                | (k, n) :: l => ListAllMember (child_name prefix (scalar k)) n ++ go l
                                end) l
                    | _ => []
                    end%list.

Section registry.
Context `{!Yaml} {ty : Type} `{!EqDecision ty} (den : ty -> Type) (S : Type).
Context (eqb : forall t, den t -> den t -> bool) (cast : forall t, LexicalCast (den t)).

(** [ConfigVarBase::ptr]: the object, of whatever type. *)
Definition var : Type := {t : ty & ConfigVar (den t) S}.

Record config := Cfg { c_vars : gmap nat var; c_datas : gmap string nat; c_prog : S }.

Definition set_var (p : nat) (v : var) (st : S) (g : config) : config :=
  Cfg (<[p := v]> (c_vars g)) (c_datas g) st.

(** [LookupBase] *)
Definition LookupBase (name : string) (g : config) : option nat := c_datas g !! name.

(** [dynamic_pointer_cast<ConfigVar<T>>] *)
Definition cast_to (t : ty) (p : nat) (g : config) : option nat :=
  match c_vars g !! p with
  | Some (existT t' _) => if decide (t = t') then Some p else None
  | None => None
  end.

(** [Lookup<T>(name)] *)
Definition Lookup (t : ty) (name : string) (g : config) : option nat :=
  p ← LookupBase name g; cast_to t p g.

(** [Lookup<T>(name, default_value, desc)]; [p] is the address of a new
    variable. *)
Definition Lookup_or_create (t : ty) (name : string) (default_value : den t) (desc : string) (p : nat)
    (g : config) : outcome (option nat * config) :=
  match LookupBase name g with
  | Some q => Ok (cast_to t q g, g)
  | None =>
      if negb (valid_name name) then Err (Throws invalid_argument) else
      let v := existT t (newConfigVar name default_value desc) in
      Ok (Some p, Cfg (<[p := v]> (c_vars g)) (<[name := p]> (c_datas g)) (c_prog g))
  end.

(** The virtual [fromString]. *)
Definition var_fromString (s : string) (v : var) (st : S) : var * S :=
  let '(existT t v) := v in
  let '(_, v, st) := fromString (eqb t) (cast t) s v st in
  (existT t v, st).

(** The text of a node: what [fromString] is given. *)
Definition node_text (n : Node) : string := if IsScalar n then scalar n else emit n.

Definition load_one (g : config) (e : string * Node) : config :=
  if String.eqb e.1 "" then g else
  match LookupBase (lower e.1) g with
  | None => g
  | Some p =>
      match c_vars g !! p with
      | None => g
      | Some v => let '(v, st) := var_fromString (node_text e.2) v (c_prog g) in set_var p v st g
      end
  end.
Definition LoadFromYaml (root : Node) (g : config) : config := foldl load_one g (ListAllMember "" root).

(** A file of [LoadFromConfDir]: its name, [st_mtime] and what
    [YAML::LoadFile] makes of it. *)
Record file := File { f_name : string; f_mtime : Z; f_root : option Node }.

Definition load_file (force : bool) (x : gmap string Z * config) (f : file) : gmap string Z * config :=
  let '(seen, g) := x in
  let known := default 0%Z (seen !! f_name f) in
  if negb force && (known =? u64 (f_mtime f))%Z then (<[f_name f := known]> seen, g)
  else (<[f_name f := u64 (f_mtime f)]> seen,
        match f_root f with Some root => LoadFromYaml root g | None => g end).
Definition LoadFromConfDir (files : list file) (force : bool) (x : gmap string Z * config)
    : gmap string Z * config := foldl (load_file force) x files.

(** [Visit]: the callback on every variable; [order] is the order of the
    hash map. *)
Definition Visit (order : gmap string nat -> list (string * nat)) (cb : var -> S -> S) (g : config) : S :=
  foldl (fun st e => match c_vars g !! e.2 with Some v => cb v st | None => st end) (c_prog g) (order (c_datas g)).
End registry.
