(* ===== verification/ConfigTheorems.v ===== *)
(** * Configuration: values survive printing, documents set what they name,
    listeners follow the value *)

From stdpp Require Import base list gmap sets strings.
From Stdlib Require Import ZArith Lia Ascii String.
From S2P Require Import Prelude Http Config.

Local Open Scope string_scope.

(** What the code relies on in yaml-cpp: a printed document reads back as it
    was, and a sequence is indexed from zero. *)
Class YamlLaws `{!Yaml} : Prop := {
  load_emit n : load (emit n) = Some n;
  index_sequence l i n : l !! i = Some n -> index (Sequence l) i = n;
}.

(** ** Conversions *)

Lemma map_option_Forall2 {A B} (f : A -> option B) l l' :
  map_option f l = Some l' <-> Forall2 (fun x y => f x = Some y) l l'.
Proof.
  revert l'. induction l as [|x l IH]; intros l'; cbn [map_option].
  - split; [intros [= <-]; constructor|by inversion 1].
  - split.
    + intros H. apply bind_Some in H as (y & Hy & H). apply bind_Some in H as (ys & Hys & [= <-]).
      constructor; [done|]. by apply IH.
    + inversion 1 as [|? y ? ys Hy Hys]; subst. rewrite Hy. cbn. by rewrite (proj2 (IH ys)).
Qed.

Section roundtrip.
Context {Y : Yaml} {YL : YamlLaws} {T : Type} (c : LexicalCast T).

(** The value survives being printed, read as a node, printed and converted. *)
Definition survives {A} (c : LexicalCast A) (x : A) : Prop :=
  exists n, elem_node c x = Some n /\ from_str c (emit n) = Some x.

(** A container whose text is that of a node survives if the node converts. *)
Lemma survives_emit {A} (d : LexicalCast A) x n :
  to_str d x = Some (emit n) -> from_str d (emit n) = Some x -> survives d x.
Proof using YL. intros H1 H2. exists n. unfold elem_node. rewrite H1. cbn. by rewrite load_emit. Qed.

Lemma nodes_of l : Forall (survives c) l ->
  exists ns, map_option (elem_node c) l = Some ns
    /\ Forall2 (fun n x => from_str c (emit n) = Some x) ns l.
Proof.
  induction 1 as [|x l (n & Hn & Hx) _ (ns & Hns & Hl)]; [by exists []|].
  exists (n :: ns). split; [cbn; by rewrite Hn, Hns|by constructor].
Qed.

Lemma read_seq ns l :
  Forall2 (fun n x => from_str c (emit n) = Some x) ns l -> read_elems c (emit (seq_node ns)) = Some l.
Proof using YL.
  intros H. unfold read_elems. rewrite load_emit. cbn [mbind option_bind].
  apply map_option_Forall2. destruct ns as [|n ns]; [by inversion H|].
  unfold seq_node. cbn [node_size]. apply Forall2_same_length_lookup. split.
  { rewrite length_seq. exact (Forall2_length _ _ _ H). }
  intros i j x Hi Hx. apply lookup_seq in Hi as [-> Hi]. cbn.
  destruct (lookup_lt_is_Some_2 (n :: ns) i Hi) as [m Hm].
  rewrite (index_sequence _ _ _ Hm). exact (Forall2_lookup_lr _ _ _ _ _ _ H Hm Hx).
Qed.

Lemma vector_survives l : Forall (survives c) l -> survives (cast_vector c) l.
Proof using YL.
  intros (ns & Hns & Hl)%nodes_of. apply (survives_emit _ _ (seq_node ns)).
  - cbn. unfold print_elems. by rewrite Hns.
  - by apply read_seq.
Qed.

Lemma foldl_union `{Countable T} (l : list T) (X : gset T) :
  foldl (fun X x => {[x]} ∪ X) X l = list_to_set l ∪ X.
Proof. revert X. induction l as [|x l IH]; intros X; cbn; [set_solver|]. rewrite IH. set_solver. Qed.

Lemma set_survives `{Countable T} enum (X : gset T) :
  enum X ≡ₚ elements X -> set_Forall (survives c) X -> survives (cast_set c enum) X.
Proof using YL.
  intros He HX. assert (Forall (survives c) (enum X)) as (ns & Hns & Hl)%nodes_of.
  { rewrite He. by apply set_Forall_elements. }
  apply (survives_emit _ _ (seq_node ns)); cbn.
  - unfold print_elems. by rewrite Hns.
  - rewrite (read_seq ns (enum X)) by done. cbn. f_equal. rewrite foldl_union, He.
    rewrite list_to_set_elements_L. set_solver.
Qed.

Lemma foldl_insert_first (l : list (string * T)) m :
  NoDup l.*1 -> (forall k, k ∈ l.*1 -> m !! k = None) -> foldl insert_first m l = list_to_map l ∪ m.
Proof.
  revert m. induction l as [|[k x] l IH]; intros m Hn Hm; cbn; [by rewrite (left_id_L ∅ (∪))|].
  inversion Hn as [|? ? Hk Hn']; subst. unfold insert_first at 2. cbn. rewrite (Hm k) by (cbn; set_solver).
  rewrite IH; [|done|].
  - rewrite <- insert_union_r, insert_union_l; [done|]. by apply not_elem_of_list_to_map_1.
  - intros j Hj. rewrite lookup_insert_ne by (intros ->; done). apply Hm. cbn. set_solver.
Qed.

Lemma map_survives enum (m : gmap string T) :
  enum m ≡ₚ map_to_list m -> map_Forall (fun _ x => survives c x) m -> survives (cast_map c enum) m.
Proof using YL.
  intros He Hm.
  assert (exists ns, map_option (fun e => n ← elem_node c e.2; Some (Scalar e.1, n)) (enum m) = Some ns
    /\ map_option (fun e => x ← from_str c (emit e.2); Some (scalar e.1, x)) ns = Some (enum m)) as (ns & H1 & H2).
  { assert (Forall (fun e : string * T => survives c e.2) (enum m)) as Hl.
    { rewrite He. apply map_Forall_to_list in Hm. eapply Forall_impl; [exact Hm|]. by intros []. }
    clear He. induction Hl as [|[k x] l (n & Hn & Hx) _ (ns & Hns & Hl)]; [by exists []|].
    exists ((Scalar k, n) :: ns). cbn in *. by rewrite Hn, Hns, Hx, Hl. }
  apply (survives_emit _ _ (map_node ns)); cbn.
  - by rewrite H1.
  - rewrite load_emit. cbn. replace (entries (map_node ns)) with (Some ns) by (by destruct ns). cbn. rewrite H2. cbn. f_equal.
    rewrite foldl_insert_first; [|rewrite He; apply NoDup_fst_map_to_list|intros; apply lookup_empty].
    rewrite (right_id_L ∅ (∪)). rewrite (list_to_map_proper (enum m) (map_to_list m)); [apply list_to_map_to_list| |done].
    rewrite He. apply NoDup_fst_map_to_list.
Qed.
End roundtrip.

(** ** Documents *)

Lemma name_chars_lower a : has_char a name_chars = true -> lower_char a = a.
Proof. destruct a as [[] [] [] [] [] [] [] []]; vm_compute; (reflexivity || discriminate). Qed.

Lemma valid_name_lower s : valid_name s = true -> lower s = s.
Proof.
  induction s as [|a s IH]; [done|]. cbn. intros [Ha Hs]%andb_true_iff. by rewrite name_chars_lower, IH.
Qed.

(** A node found under a dotted name, every prefix of which is valid. *)
Inductive named : string -> Node -> string -> Node -> Prop :=
  | named_here p n : valid_name p = true -> named p n p n
  | named_child p l k c q m :
      valid_name p = true -> (k, c) ∈ l -> named (child_name p (scalar k)) c q m -> named p (Map l) q m.

Lemma ListAllMember_map prefix l :
  ListAllMember prefix (Map l) =
  if negb (valid_name prefix) then [] else
  (prefix, Map l) :: List.concat (map (fun e => ListAllMember (child_name prefix (scalar e.1)) e.2) l).
Proof.
  cbn [ListAllMember]. destruct (negb _); [done|]. f_equal. induction l as [|[k n] l IH]; [done|]. cbn. by rewrite IH.
Qed.

Lemma ListAllMember_named prefix n q m : (q, m) ∈ ListAllMember prefix n <-> named prefix n q m.
Proof.
  revert prefix. induction n as [|s|l _|l IH] using Node_nested_ind; intros prefix.
  4: { rewrite ListAllMember_map. destruct (valid_name prefix) eqn:Hv; cbn [negb].
    - rewrite elem_of_cons. split.
      + intros [[= -> ->]|Hin]; [by constructor|].
        apply list_elem_of_In, in_concat in Hin as (x & Hx & Hin). apply in_map_iff in Hx as ([k c] & <- & Hkc).
        apply list_elem_of_In in Hin, Hkc. rewrite Forall_forall in IH.
        econstructor; [done|exact Hkc|]. by apply (IH (k, c)).
      + inversion 1 as [? ? _|? ? k c ? ? _ Hkc Hn]; subst; [by left|]. right.
        apply list_elem_of_In, in_concat. eexists. split; [apply in_map, list_elem_of_In, Hkc|].
        rewrite Forall_forall in IH. apply list_elem_of_In. by apply (IH (k, c)).
    - split; [set_solver|]. inversion 1; congruence. }
  all: cbn; destruct (valid_name prefix) eqn:Hv; cbn [negb]; rewrite ?list_elem_of_singleton.
  all: split; [|inversion 1; subst; congruence || done || set_solver].
  all: first [intros [= -> ->]; by constructor|set_solver].
Qed.

Lemma named_valid p n q m : named p n q m -> valid_name q = true.
Proof. by induction 1. Qed.

Section load.
Context {Y : Yaml} {ty : Type} {ED : EqDecision ty} (den : ty -> Type) (S : Type).
Context (eqb : forall t, den t -> den t -> bool) (cast : forall t, LexicalCast (den t)).
Hypothesis eqb_eq : forall t x y, eqb t x y = true <-> x = y.
Notation config := (config den S).
Notation load_one := (load_one den S eqb cast).

(** No two names share a variable, and a name's variable exists. *)
Definition registry_ok (g : config) : Prop :=
  (forall a b p, c_datas den S g !! a = Some p -> c_datas den S g !! b = Some p -> a = b)
  /\ (forall a p, c_datas den S g !! a = Some p -> is_Some (c_vars den S g !! p)).

Definition has_value (g : config) (p : nat) (t : ty) (x : den t) : Prop :=
  exists v, c_vars den S g !! p = Some (existT t v : var den S) /\ m_val v = x.

(** The value after one more entry of the document. *)
Definition given (t : ty) (name : string) (x : den t) (e : string * Node) : den t :=
  if negb (String.eqb e.1 "") && String.eqb e.1 name then default x (from_str (cast t) (node_text e.2)) else x.

Lemma Lookup_or_create_ok t name x desc p g o g' :
  registry_ok g -> c_vars den S g !! p = None -> Lookup_or_create den S t name x desc p g = Ok (o, g') ->
  registry_ok g'.
Proof.
  intros [Hi Hv] Hp H. unfold Lookup_or_create in H. destruct (LookupBase den S name g) as [q|] eqn:Hq;
    [by injection H as <- <-|]. destruct (negb _); [done|]. injection H as <- <-.
  assert (forall a, c_datas den S g !! a <> Some p) as Hnp.
  { intros a Ha. destruct (Hv a p Ha) as [? Hx]. by rewrite Hp in Hx. }
  split; cbn.
  - intros a b r [[<- <-]|[? Ha]]%lookup_insert_Some [[<- Hr]|[? Hb]]%lookup_insert_Some;
      [done|by destruct (Hnp b)|subst; by destruct (Hnp a)|by eapply Hi].
  - intros a r [[<- <-]|[? Ha]]%lookup_insert_Some; [by rewrite lookup_insert_eq|].
    rewrite lookup_insert_ne by (intros ->; by apply (Hnp a)). by eapply Hv.
Qed.

Lemma load_one_datas g e : c_datas den S (load_one g e) = c_datas den S g.
Proof.
  unfold load_one. destruct (String.eqb _ _); [done|]. destruct (LookupBase _ _ _ _) as [q|]; [|done].
  destruct (c_vars den S g !! q) as [v|]; [|done]. by destruct (var_fromString _ _ _ _ _ _ _).
Qed.

Lemma load_one_ok g e : registry_ok g -> registry_ok (load_one g e).
Proof.
  intros [Hi Hv]. split; rewrite load_one_datas; [done|]. intros a p Ha. specialize (Hv a p Ha).
  unfold load_one. destruct (String.eqb _ _); [done|]. destruct (LookupBase _ _ _ _) as [q|]; [|done].
  destruct (c_vars den S g !! q) as [v|]; [|done]. destruct (var_fromString _ _ _ _ _ _ _) as [v' st]. cbn.
  apply lookup_insert_is_Some'. by right.
Qed.

Lemma fromString_val t s v (st : S) :
  m_val (fromString (eqb t) (cast t) s v st).1.2 = default (m_val v) (from_str (cast t) s).
Proof using eqb_eq.
  unfold fromString. destruct (from_str (cast t) s) as [x|]; [|done]. cbn.
  unfold setValue, setValue_notify. destruct (eqb t x (m_val v)) eqn:E; [|done]. cbn. symmetry. by apply eqb_eq.
Qed.

Lemma load_one_value g e name p t x :
  registry_ok g -> valid_name e.1 = true -> c_datas den S g !! name = Some p -> has_value g p t x ->
  has_value (load_one g e) p t (given t name x e).
Proof using eqb_eq.
  intros [Hi Hv] Hval Hp (v & Hpv & Hx). unfold load_one, given, LookupBase. rewrite valid_name_lower by done.
  destruct (String.eqb_spec e.1 "") as [E|E]; cbn [negb andb]; [by exists v|].
  destruct (String.eqb_spec e.1 name) as [->|En].
  - rewrite Hp. cbn beta iota. rewrite Hpv. unfold var_fromString.
    pose proof (fromString_val t (node_text e.2) v (c_prog den S g)) as Hf.
    destruct (fromString _ _ _ v _) as [[b v'] st]. exists v'. cbn in *. by rewrite lookup_insert_eq, Hf, Hx.
  - destruct (c_datas den S g !! e.1) as [q|] eqn:Hq; [|by exists v].
    assert (q <> p) as Hne by (intros ->; apply En; by eapply Hi).
    destruct (c_vars den S g !! q) as [vq|]; [|by exists v].
    destruct (var_fromString _ _ _ _ _ vq _) as [vq' st]. exists v. cbn. by rewrite lookup_insert_ne.
Qed.
End load.

(** ** Listeners *)

(** Calls of a listener that take the value from [a] to [b] step by step. *)
Fixpoint linked {T} (a : T) (l : list (T * T)) (b : T) : Prop :=
  match l with
  | [] => a = b
  | (o, n) :: l => o = a /\ n <> a /\ linked n l b
  end.

Lemma linked_snoc {T} (a : T) l b c : linked a l b -> c <> b -> linked a (l ++ [(b, c)]) c.
Proof.
  revert a. induction l as [|[o n] l IH]; intros a; cbn; [by intros ->|].
  intros (-> & Hn & Hl) Hc. auto.
Qed.

Section listeners.
Context {T R : Type} (eqb : T -> T -> bool).
Hypothesis eqb_eq : forall x y, eqb x y = true <-> x = y.

(** The program: what one listener was told, and the rest. *)
Notation prog := (list (T * T) * R)%type.
Definition note : on_change_cb T prog := fun old new st => (st.1 ++ [(old, new)], st.2)%list.

(** [note] is a listener, and the others leave its notes alone. *)
Definition notes (v : ConfigVar T prog) : Prop :=
  exists id pre post, m_cbs v = (pre ++ (id, note) :: post)%list
    /\ forall e, e ∈ (pre ++ post)%list -> forall o n st, (e.2 o n st).1 = st.1.

Lemma others_leave l o n (st : prog) :
  (forall e : Z * on_change_cb T prog, e ∈ l -> forall o n st, (e.2 o n st).1 = st.1) ->
  (foldl (fun st e => e.2 o n st) st l).1 = st.1.
Proof.
  revert st. induction l as [|e l IH]; intros st Hl; [done|]. cbn. rewrite IH by (intros; apply Hl; set_solver).
  apply Hl. set_solver.
Qed.

Lemma setValue_notes v x st :
  notes v -> let '(v', st') := setValue eqb x v st in
  notes v' /\ m_val v' = x
  /\ st'.1 = (st.1 ++ if eqb x (m_val v) then [] else [(m_val v, x)])%list.
Proof using eqb_eq.
  intros (id & pre & post & Hc & Ho). unfold setValue, setValue_notify.
  destruct (eqb x (m_val v)) eqn:E.
  - apply eqb_eq in E as ->. rewrite app_nil_r. split_and!; [by exists id, pre, post|done|done].
  - split_and!; [by exists id, pre, post|done|]. rewrite Hc, foldl_app. cbn [foldl].
    rewrite others_leave by (intros; apply Ho; set_solver). cbn.
    by rewrite others_leave by (intros; apply Ho; set_solver).
Qed.

Definition setValues (xs : list T) (v : ConfigVar T prog) (st : prog) : ConfigVar T prog * prog :=
  foldl (fun s x => setValue eqb x s.1 s.2) (v, st) xs.
End listeners.

(** ** A small YAML library, for examples *)

Fixpoint tree_of (n : Node) : gen_tree string :=
  match n with
  | Null => GenNode 0 []
  | Scalar s => GenLeaf s
  | Sequence l => GenNode 1 (map tree_of l)
  | Map l => GenNode 2 (flat_map (fun e => [tree_of e.1; tree_of e.2]) l)
  end.
Fixpoint pair_up (l : list Node) : list (Node * Node) :=
  match l with k :: v :: l => (k, v) :: pair_up l | _ => [] end.
Fixpoint node_of (t : gen_tree string) : Node :=
  match t with
  | GenLeaf s => Scalar s
  | GenNode 1 l => Sequence (map node_of l)
  | GenNode 2 l => Map (pair_up (map node_of l))
  | GenNode _ _ => Null
  end.

Lemma node_of_tree n : node_of (tree_of n) = n.
Proof.
  induction n as [|s|l IH|l IH] using Node_nested_ind; cbn; [done|done| |]; f_equal.
  - induction IH as [|n l Hn _ IH]; [done|]. cbn. by rewrite Hn, IH.
  - induction IH as [|[k v] l [Hk Hv] _ IH]; [done|]. cbn in *. by rewrite Hk, Hv, IH.
Qed.

Fixpoint pos_text (p : positive) : string :=
  match p with xH => "" | xO p => String "0" (pos_text p) | xI p => String "1" (pos_text p) end.
Fixpoint text_pos (s : string) : positive :=
  match s with "" => xH | String a s => if Ascii.eqb a "0" then xO (text_pos s) else xI (text_pos s) end.

Lemma text_pos_text p : text_pos (pos_text p) = p.
Proof. induction p as [p IH|p IH|]; cbn; by rewrite ?IH. Qed.

#[local] Instance bit_yaml : Yaml := {|
  load s := option_map node_of (decode (text_pos s));
  emit n := pos_text (encode (tree_of n));
  index n i := match n with Sequence l => nth i l Null | _ => Null end;
|}.

#[local] Instance bit_yaml_laws : YamlLaws.
Proof.
  constructor.
  - intros n. cbn. rewrite text_pos_text, decode_encode. cbn. by rewrite node_of_tree.
  - intros l i n Hl. cbn. by apply nth_lookup_Some.
Qed.

(** ** Properties *)

(** C21: A configuration value survives being printed by [toString] and read
    back by [fromString] in a container if it does alone: vectors, lists, sets
    and maps of such values, in whatever order a hash container is traversed,
    and so, since they survive in the same sense, containers of containers. *)
Theorem config_value_roundtrip {Y : Yaml} {YL : YamlLaws} {T} `{Countable T} (c : LexicalCast T)
    (enum_set : gset T -> list T) (enum_map : gmap string T -> list (string * T))
    (l : list T) (X : gset T) (m : gmap string T) :
  enum_set X ≡ₚ elements X -> enum_map m ≡ₚ map_to_list m ->
  (forall x, x ∈ l \/ x ∈ X \/ (exists k, m !! k = Some x) -> survives c x) ->
  (exists s, to_str (cast_vector c) l = Some s /\ from_str (cast_vector c) s = Some l)
  /\ (exists s, to_str (cast_set c enum_set) X = Some s /\ from_str (cast_set c enum_set) s = Some X)
  /\ (exists s, to_str (cast_map c enum_map) m = Some s /\ from_str (cast_map c enum_map) s = Some m)
  /\ survives (cast_vector c) l /\ survives (cast_set c enum_set) X /\ survives (cast_map c enum_map) m.
Proof.
  intros HX Hm Hs.
  assert (Forall (survives c) l) as H1 by (apply Forall_forall; eauto).
  assert (set_Forall (survives c) X) as H2 by (intros x Hx; eauto).
  assert (map_Forall (fun _ x => survives c x) m) as H3 by (intros k x Hx; eauto).
  split_and!.
  - destruct (nodes_of c l H1) as (ns & Hns & Hl). exists (emit (seq_node ns)). split.
    + cbn. unfold print_elems. by rewrite Hns.
    + by apply read_seq.
  - destruct (nodes_of c (enum_set X)) as (ns & Hns & Hl); [rewrite HX; by apply set_Forall_elements|].
    exists (emit (seq_node ns)). cbn. unfold print_elems. rewrite Hns. split; [done|].
    rewrite (read_seq c ns (enum_set X)) by done. cbn. f_equal. rewrite foldl_union, HX, list_to_set_elements_L.
    set_solver.
  - destruct (map_survives c enum_map m Hm H3) as (n & Hn & Hf). unfold elem_node in Hn.
    apply bind_Some in Hn as (s & Hs' & Hl). exists s. split; [done|].
    cbn in Hs', Hf |- *. apply bind_Some in Hs' as (ns & _ & [= <-]). rewrite load_emit in Hl.
    injection Hl as <-. exact Hf.
  - by apply vector_survives.
  - by apply set_survives.
  - by apply map_survives.
Qed.

(** Texts as values, whose conversion is the identity. *)
Definition cast_string : LexicalCast string := Cast Some Some.

Lemma config_value_roundtrip_witness :
  let c := Cast (fun s => Some s) (fun s => Some s) : LexicalCast string in
  let x := emit (Scalar "a") in
  survives c x /\ survives (cast_vector c) [x; x].
Proof.
  assert (survives cast_string (emit (Scalar "a"))) as Hs by (exists (Scalar "a"); split; vm_compute; reflexivity).
  split; [exact Hs|].
  apply (config_value_roundtrip cast_string elements map_to_list [emit (Scalar "a"); emit (Scalar "a")] ∅ ∅);
    [done|done|].
  intros x [Hx|[Hx|[k Hx]]]; [|set_solver|by rewrite lookup_empty in Hx].
  assert (x = emit (Scalar "a")) as -> by set_solver. exact Hs.
Defined.

(** C20: Loading a document gives a registered variable the last value the
    document has under the variable's name, at a path of valid names, that
    converts to its type, and leaves it alone if there is none; no variable is
    registered or renamed. *)
Theorem config_load {Y : Yaml} {ty} {ED : EqDecision ty} (den : ty -> Type) S eqb cast root
    (g : config den S) name p t x :
  (forall t x y, eqb t x y = true <-> x = y) -> registry_ok den S g ->
  c_datas den S g !! name = Some p -> has_value den S g p t x ->
  let g' := LoadFromYaml den S eqb cast root g in
  c_datas den S g' = c_datas den S g /\ registry_ok den S g'
  /\ has_value den S g' p t (foldl (given den cast t name) x (ListAllMember "" root))
  /\ (forall k n, (k, n) ∈ ListAllMember "" root <-> named "" root k n).
Proof.
  intros He Hg Hp Hx g'. subst g'. unfold LoadFromYaml.
  assert (forall l, (forall e, e ∈ l -> valid_name e.1 = true) ->
    c_datas den S (foldl (load_one den S eqb cast) g l) = c_datas den S g
    /\ registry_ok den S (foldl (load_one den S eqb cast) g l)
    /\ has_value den S (foldl (load_one den S eqb cast) g l) p t (foldl (given den cast t name) x l)) as H.
  { intros l. revert g x Hg Hp Hx. induction l as [|e l IH]; intros g x Hg Hp Hx Hl; [done|]. cbn [foldl].
    destruct (IH (load_one den S eqb cast g e) (given den cast t name x e)) as (H1 & H2 & H3).
    - by apply load_one_ok.
    - by rewrite load_one_datas.
    - apply load_one_value; [done|done|apply Hl; set_solver|done|done].
    - intros e' He'. apply Hl. set_solver.
    - split_and!; [|done|done]. by rewrite H1, load_one_datas. }
  destruct (H (ListAllMember "" root)) as (H1 & H2 & H3).
  { intros [k n] [_ Hv]%ListAllMember_named%(fun h => conj h (named_valid _ _ _ _ h)). done. }
  split_and!; [done|done|done|]. intros k n. apply ListAllMember_named.
Qed.

(** One type, texts. *)
Definition demo_config : config (fun _ : unit => string) unit :=
  Cfg (fun _ : unit => string) unit {[0%nat := existT tt (newConfigVar "tcp.port" "80" "")]} {["tcp.port" := 0%nat]} tt.
Definition demo_root : Node :=
  Map [(Scalar "tcp", Map [(Scalar "port", Scalar "8080"); (Scalar "Port", Scalar "9")]); (Scalar "x9", Scalar "1")].

Lemma config_load_witness :
  has_value (fun _ : unit => string) unit
    (LoadFromYaml (fun _ : unit => string) unit (fun _ => String.eqb) (fun _ => cast_string) demo_root demo_config)
    0 tt "8080".
Proof.
  apply (config_load (fun _ : unit => string) unit (fun _ => String.eqb) (fun _ => cast_string) demo_root demo_config
    "tcp.port" 0 tt "80").
  - intros _. apply String.eqb_eq.
  - split.
    + intros a b p Ha Hb. cbn in Ha, Hb. apply lookup_singleton_Some in Ha as [<- _], Hb as [<- _]. done.
    + intros a p Ha. cbn in Ha. apply lookup_singleton_Some in Ha as [_ <-]. cbn. rewrite lookup_singleton_eq. eauto.
  - reflexivity.
  - eexists. split; reflexivity.
Defined.

(** Set from one thread at a time, whatever values are assigned, a listener
    is told of every change and of nothing else, in order: the calls lead from
    the value at the start, each from where the one before ended, to the value
    the variable has now. *)
Theorem config_listener_follows {T R} (eqb : T -> T -> bool) xs (v : ConfigVar T (list (T * T) * R)) st :
  (forall x y, eqb x y = true <-> x = y) -> notes v ->
  let '(v', st') := setValues eqb xs v st in
  m_val v' = List.last xs (m_val v)
  /\ exists l, st'.1 = (st.1 ++ l)%list /\ linked (m_val v) l (m_val v').
Proof.
  intros He Hn. unfold setValues.
  induction xs as [|x xs IH] using rev_ind; [cbn; split; [done|]; exists []; by rewrite app_nil_r|].
  rewrite foldl_snoc. revert IH. assert (notes (foldl (fun s x => setValue eqb x s.1 s.2) (v, st) xs).1) as Hn'.
  { induction xs as [|y ys IH] using rev_ind; [done|]. rewrite foldl_snoc.
    pose proof (setValue_notes eqb He _ y (foldl (fun s x => setValue eqb x s.1 s.2) (v, st) ys).2 IH) as H.
    destruct (setValue _ _ _ _). by destruct H. }
  destruct (foldl _ (v, st) xs) as [v1 st1]. cbn in *. intros (Hv & l & Hl & Hk).
  pose proof (setValue_notes eqb He v1 x st1 Hn') as H. destruct (setValue eqb x v1 st1) as [v2 st2].
  destruct H as (_ & Hv2 & Hst2). rewrite last_last. split; [done|].
  rewrite Hst2, Hl, <- List.app_assoc. eexists. split; [reflexivity|]. rewrite Hv2.
  destruct (eqb x (m_val v1)) eqn:E.
  - rewrite app_nil_r. by apply He in E as ->.
  - apply linked_snoc; [done|]. intros ->. by rewrite (proj2 (He _ _) eq_refl) in E.
Qed.

Definition watched : ConfigVar Z (list (Z * Z) * unit) := mkVar "n" "" 0%Z [(1%Z, note)].

Lemma config_listener_follows_witness :
  let '(v', st') := setValues Z.eqb [5; 5; 7]%Z watched ([], tt) in
  m_val v' = 7%Z /\ exists l, st'.1 = l /\ linked 0%Z l (m_val v').
Proof.
  apply (config_listener_follows Z.eqb [5; 5; 7]%Z watched ([], tt) Z.eqb_eq).
  exists 1%Z, [], []. split; [reflexivity|]. intros e He. set_solver.
Defined.

(** Two threads between the locks of [setValue]: the listener is told of 5,
    then of 7, but the variable ends as 5. *)
Lemma concurrent_setValue_diverges :
  exists st1 st2, setValue_notify Z.eqb 5%Z watched ([], tt) = Some st1
    /\ setValue_notify Z.eqb 7%Z watched st1 = Some st2
    /\ st2.1 = [(0, 5); (0, 7)]%Z /\ m_val (set_val 5%Z (set_val 7%Z watched)) = 5%Z.
Proof. eexists _, _. split_and!; reflexivity. Qed.

(** A name with the digit 9 cannot be registered, and one with a capital is
    dropped with all that is under it. *)
Lemma names_refused :
  (forall p, Lookup_or_create (fun _ : unit => string) unit tt "tcp.port9" "" "" p demo_config = Err (Throws invalid_argument))
  /\ ListAllMember "" (Map [(Scalar "Tcp", Map [(Scalar "port", Scalar "1")])]) = [("", Map [(Scalar "Tcp", Map [(Scalar "port", Scalar "1")])])].
Proof. split; [intros p|]; vm_compute; reflexivity. Qed.

(** [fromString] reports failure also when it has set the value. *)
Lemma fromString_returns_false {T S} (eqb : T -> T -> bool) c s (v : ConfigVar T S) st :
  (fromString eqb c s v st).1.1 = false.
Proof. unfold fromString. destruct (from_str c s); [|done]. by destruct (setValue _ _ _ _). Qed.
