(* ===== verification/LogFormat.v ===== *)
(** * [sylar/log.h], [sylar/log.cc]: levels, events and patterns

    The levels and their names, log events, and [LogFormatter] with the loop of
    [init] that cuts a pattern into items.  [LogPattern.v] reads that loop as a
    grammar; [Log.v] has the loggers and appenders that use it. *)

From stdpp Require Import base list strings.
From Stdlib Require Import ZArith Lia Ascii String.
From S2P Require Import Prelude Http.

Local Open Scope string_scope.

(** ** [LogLevel] *)

(** [LogLevel::Level] is an integer: a removed logger has level 100. *)
Definition UNKNOW : Z := 0.
Definition DEBUG : Z := 1.
Definition INFO : Z := 2.
Definition WARN : Z := 3.
Definition ERROR : Z := 4.
Definition FATAL : Z := 5.

Definition level_ToString (level : Z) : string :=
  if (level =? DEBUG)%Z then "DEBUG"
  else if (level =? INFO)%Z then "INFO"
  else if (level =? WARN)%Z then "WARN"
  else if (level =? ERROR)%Z then "ERROR"
  else if (level =? FATAL)%Z then "FATAL"
  else "UNKNOW".

Definition level_FromString (str : string) : Z :=
  if String.eqb str "debug" then DEBUG
  else if String.eqb str "info" then INFO
  else if String.eqb str "warn" then WARN
  else if String.eqb str "error" then ERROR
  else if String.eqb str "fatal" then FATAL
  else if String.eqb str "DEBUG" then DEBUG
  else if String.eqb str "INFO" then INFO
  else if String.eqb str "WARN" then WARN
  else if String.eqb str "ERROR" then ERROR
  else if String.eqb str "FATAL" then FATAL
  else UNKNOW.

(** ** [LogEvent] *)

(** [e_logger] is the address of the logger, [e_content] the text of [m_ss]. *)
Record LogEvent := mkEvent {
  e_file : string;
  e_line : Z;
  e_elapse : Z;
  e_threadId : Z;
  e_fiberId : Z;
  e_time : Z;
  e_threadName : string;
  e_content : string;
  e_logger : nat;
  e_level : Z;
}.

(** The thread's id is passed as [uint32_t] and kept as [int32_t]. *)
Definition newLogEvent (logger : nat) (level : Z) (file : string) (line elapse threadId fiberId time : Z)
    (thread_name : string) : LogEvent :=
  mkEvent file (i32 line) (u32 elapse) (i32 (u32 threadId)) (u32 fiberId) (u64 time) thread_name "" logger level.

(** [format(fmt, ...)]: [printed] is the result of [vasprintf], [None] when it
    fails. *)
Definition event_format (printed : option string) (e : LogEvent) : LogEvent :=
  match printed with
  | Some t => mkEvent (e_file e) (e_line e) (e_elapse e) (e_threadId e) (e_fiberId e) (e_time e)
                (e_threadName e) (e_content e ++ t) (e_logger e) (e_level e)
  | None => e
  end.

(** ** Format items *)

Inductive FormatItem :=
  | MessageFormatItem
  | LevelFormatItem
  | ElapseFormatItem
  | NameFormatItem
  | ThreadIdFormatItem
  | FiberIdFormatItem
  | ThreadNameFormatItem
  | DateTimeFormatItem (m_format : string)
  | FileNameFormatItem
  | LineFormatItem
  | NewLineFormatItem
  | StringFormatItem (m_string : string)
  | TabFormatItem.

#[export] Instance FormatItem_eq_dec : EqDecision FormatItem.
Proof. solve_decision. Defined.

Definition newDateTimeFormatItem (format : string) : FormatItem :=
  DateTimeFormatItem (if String.eqb format "" then "%Y-%m-%d %H:%M:%S" else format).

Definition s_format_items (str : string) : option (string -> FormatItem) :=
  if String.eqb str "m" then Some (fun _ => MessageFormatItem)
  else if String.eqb str "p" then Some (fun _ => LevelFormatItem)
  else if String.eqb str "r" then Some (fun _ => ElapseFormatItem)
  else if String.eqb str "c" then Some (fun _ => NameFormatItem)
  else if String.eqb str "t" then Some (fun _ => ThreadIdFormatItem)
  else if String.eqb str "n" then Some (fun _ => NewLineFormatItem)
  else if String.eqb str "d" then Some newDateTimeFormatItem
  else if String.eqb str "f" then Some (fun _ => FileNameFormatItem)
  else if String.eqb str "l" then Some (fun _ => LineFormatItem)
  else if String.eqb str "F" then Some (fun _ => FiberIdFormatItem)
  else if String.eqb str "T" then Some (fun _ => TabFormatItem)
  else if String.eqb str "N" then Some (fun _ => ThreadNameFormatItem)
  else None.

(** [os << n] for a signed number. *)
Definition signed_decimal (n : Z) : string := if (n <? 0)%Z then "-" ++ decimal (- n) else decimal n.
Definition endl : string := String (ascii_of_nat 10) "".
Definition tab : string := String (ascii_of_nat 9) "".

Section format.
(** [localtime_r] and [strftime] into a buffer of 64 bytes; [None] when the
    result does not fit and the buffer, which is then printed, holds nothing
    defined.  [name_of] is the name of the logger at an address. *)
Context (strftime : string -> Z -> option string) (name_of : nat -> string).

Definition item_format (item : FormatItem) (level : Z) (event : LogEvent) : outcome string :=
  match item with
  | MessageFormatItem => Ok (e_content event)
  | LevelFormatItem => Ok (level_ToString level)
  | ElapseFormatItem => Ok (decimal (e_elapse event))
  | NameFormatItem => Ok (name_of (e_logger event))
  | ThreadIdFormatItem => Ok (signed_decimal (e_threadId event))
  | FiberIdFormatItem => Ok (decimal (e_fiberId event))
  | ThreadNameFormatItem => Ok (e_threadName event)
  | DateTimeFormatItem m_format =>
      match strftime m_format (i64 (e_time event)) with
      | Some s => Ok s
      | None => Err (UB index_oob)
      end
  | FileNameFormatItem => Ok (e_file event)
  | LineFormatItem => Ok (signed_decimal (e_line event))
  | NewLineFormatItem => Ok endl
  | StringFormatItem m_string => Ok m_string
  | TabFormatItem => Ok tab
  end.

Fixpoint items_format (items : list FormatItem) (level : Z) (event : LogEvent) : outcome string :=
  match items with
  | [] => Ok ""
  | i :: items => s ← item_format i level event; t ← items_format items level event; Ok (s ++ t)
  end.
End format.

(** ** [LogFormatter::init] *)

Definition is_c (c : ascii) (n : nat) : bool := (nat_of_ascii c =? n)%nat.
Definition percent : ascii := "%".
Definition is_percent (c : ascii) : bool := is_c c 37.
Definition is_open (c : ascii) : bool := is_c c 123.
Definition is_close (c : ascii) : bool := is_c c 125.
(** [isalpha] in the C locale. *)
Definition isalpha (c : ascii) : bool :=
  let n := nat_of_ascii c in
  ((65 <=? n) && (n <=? 90) || (97 <=? n) && (n <=? 122))%nat.

(** [substr(pos, len)], [pos] within the text. *)
Definition substr (s : list ascii) (pos len : nat) : list ascii := take len (drop pos s).

(** The variables of the inner loop. *)
Record scan := Scan {
  sc_n : nat;
  fmt_status : nat;
  fmt_begin : nat;
  sc_str : list ascii;
  sc_fmt : list ascii;
}.

Definition empty (s : list ascii) : bool := match s with [] => true | _ => false end.

(** The inner loop: from the [%] at [i] to the end of the item. *)
Fixpoint item_loop (fuel : nat) (m_pattern : list ascii) (i : nat) (s : scan) : outcome scan :=
  match fuel with
  | O => Err NoFuel
  | S fuel =>
      let n := sc_n s in
      match m_pattern !! n with
      | None => Ok s
      | Some c =>
          if (fmt_status s =? 0)%nat && (negb (isalpha c) && negb (is_open c) && negb (is_close c)) then
            Ok (Scan n (fmt_status s) (fmt_begin s) (substr m_pattern (i + 1) (n - i - 1)) (sc_fmt s))
          else if (fmt_status s =? 0)%nat && is_open c then
            item_loop fuel m_pattern i (Scan (n + 1) 1 n (substr m_pattern (i + 1) (n - i - 1)) (sc_fmt s))
          else if (fmt_status s =? 1)%nat && is_close c then
            Ok (Scan (n + 1) 0 (fmt_begin s) (sc_str s)
                  (substr m_pattern (fmt_begin s + 1) (n - fmt_begin s - 1)))
          else
            let str := if (n + 1 =? List.length m_pattern)%nat && empty (sc_str s)
                       then drop (i + 1) m_pattern else sc_str s in
            item_loop fuel m_pattern i (Scan (n + 1) (fmt_status s) (fmt_begin s) str (sc_fmt s))
      end
  end.

(** A tuple of [vec]: text, format, and whether it is an item. *)
Definition tuple : Type := list ascii * list ascii * bool.

Definition flush (nstr : list ascii) : list tuple := if empty nstr then [] else [(nstr, [], false)].
Definition pattern_error : list ascii := list_ascii_of_string "<<pattern_error>>".

(** The outer loop, at [i], with [m_error] as [error]. *)
Fixpoint init_loop (fuel : nat) (m_pattern : list ascii) (i : nat) (nstr : list ascii)
    (vec : list tuple) (error : bool) : outcome (list tuple * bool) :=
  match fuel with
  | O => Err NoFuel
  | S fuel =>
      match m_pattern !! i with
      | None => Ok ((vec ++ flush nstr)%list, error)
      | Some c =>
          if negb (is_percent c) then init_loop fuel m_pattern (i + 1) (nstr ++ [c])%list vec error
          else if match m_pattern !! (i + 1)%nat with Some c' => is_percent c' | None => false end then
            init_loop fuel m_pattern (i + 1) (nstr ++ [percent])%list vec error
          else
            s ← item_loop (S (List.length m_pattern)) m_pattern i (Scan (i + 1) 0 0 [] []);
            if (fmt_status s =? 0)%nat then
              init_loop fuel m_pattern (sc_n s) []
                (vec ++ flush nstr ++ [(sc_str s, sc_fmt s, true)])%list error
            else
              init_loop fuel m_pattern (i + 1) nstr (vec ++ [(pattern_error, sc_fmt s, false)])%list true
      end
  end.

(** The second loop: the item of a tuple, and whether it is an error. *)
Definition make_item (t : tuple) : FormatItem * bool :=
  let '(str, fmt, item) := t in
  let str := string_of_list_ascii str in
  if negb item then (StringFormatItem str, false)
  else match s_format_items str with
       | None => (StringFormatItem ("<<error_format %" ++ str ++ ">>"), true)
       | Some make => (make (string_of_list_ascii fmt), false)
       end.

Record LogFormatter := mkFormatter {
  m_pattern : string;
  m_items : list FormatItem;
  m_error : bool;
}.

#[export] Instance LogFormatter_eq_dec : EqDecision LogFormatter.
Proof. solve_decision. Defined.

(** The constructor, which calls [init]. *)
Definition newLogFormatter (pattern : string) : outcome LogFormatter :=
  let p := list_ascii_of_string pattern in
  '(vec, error) ← init_loop (S (List.length p)) p 0 [] [] false;
  Ok (mkFormatter pattern (map (fun t => (make_item t).1) vec) (error || existsb (fun t => (make_item t).2) vec)).

(** [LogFormatter::format] *)
Definition formatter_format strftime name_of (f : LogFormatter) (level : Z) (event : LogEvent) : outcome string :=
  items_format strftime name_of (m_items f) level event.

(** The pattern of every new [Logger]. *)
Definition default_pattern : string := "%d{%Y-%m-%d %H:%M:%S}%T%t%T%N%T%F%T[%p]%T[%c]%T%f:%l%T%m%n".
