(* ===== verification/LogPattern.v ===== *)
(** * The patterns of [LogFormatter]

    The index loops of [LogFormatter::init] as a grammar of patterns, and the
    items of a pattern that is written by its rules. *)

From stdpp Require Import base list strings.
From Stdlib Require Import ZArith Lia Ascii String.
From S2P Require Import Prelude Http LogFormat.

Local Open Scope list_scope.

(** ** One item *)

Fixpoint letters (s : list ascii) : list ascii * list ascii :=
  match s with
  | [] => ([], [])
  | c :: r => if isalpha c || is_close c then let '(a, q) := letters r in (c :: a, q) else ([], s)
  end.

Fixpoint until_brace (s : list ascii) : option (list ascii * list ascii) :=
  match s with
  | [] => None
  | c :: s => if is_close c then Some ([], s) else '(f, q) ← until_brace s; Some (c :: f, q)
  end.

(** Name, format and rest behind a [%]; [None] when a brace is not closed. *)
Definition next_item (s : list ascii) : option (list ascii * list ascii * list ascii) :=
  let '(a, r) := letters s in
  match r with
  | c :: r' => if is_open c then '(f, q) ← until_brace r'; Some (a, f, q) else Some (a, [], r)
  | [] => Some (a, [], [])
  end.

Definition scanned (pat : list ascii) (x : option (list ascii * list ascii * list ascii)) (s : scan) : Prop :=
  match x with
  | Some (a, f, q) =>
      fmt_status s = 0 /\ sc_str s = a /\ sc_fmt s = f
      /\ exists pre, pat = pre ++ q /\ sc_n s = List.length pre
  | None => fmt_status s = 1 /\ sc_fmt s = []
  end.

Section item.
Context (pat : list ascii) (i : nat).

Lemma pat_at pre c r : pat = pre ++ c :: r -> pat !! List.length pre = Some c.
Proof. intros ->. rewrite lookup_app_r, Nat.sub_diag by lia. done. Qed.

Lemma pat_end : pat !! List.length pat = None.
Proof. apply lookup_ge_None_2. lia. Qed.

(** From an open brace on. *)
Lemma item_loop_brace r : forall pre f fuel str,
  pat = pre ++ f ++ r -> List.length r < fuel -> Forall (fun c => is_close c = false) f ->
  exists s, item_loop fuel pat i (Scan (List.length (pre ++ f)) 1 (List.length pre - 1) str []) = Ok s
    /\ (1 <= List.length pre -> scanned pat ('(g, q) ← until_brace r; Some (str, f ++ g, q)) s).
Proof.
  induction r as [|c r IH]; intros pre f fuel str Hp Hf Hc; (destruct fuel as [|fuel]; [cbn in Hf; lia|]); cbn [item_loop].
  - cbn [sc_n]. rewrite app_nil_r in Hp. rewrite <- Hp, pat_end. eexists. by split; [|intros _; cbn].
  - cbn [sc_n]. rewrite app_assoc in Hp. rewrite (pat_at _ _ _ Hp). cbn [fmt_status Nat.eqb andb fmt_begin sc_str sc_fmt].
    cbn [until_brace]. destruct (is_close c) eqn:Ec.
    + eexists. split; [done|]. intros Hl. cbn [mbind option_bind scanned fmt_status sc_str sc_fmt sc_n].
      split_and!; try done.
      * unfold substr. rewrite length_app. replace (List.length pre - 1 + 1) with (List.length pre) by lia.
        replace (List.length pre + List.length f - (List.length pre - 1) - 1) with (List.length f) by lia.
        rewrite Hp, <- app_assoc, drop_app_length, take_app_length. by rewrite app_nil_r.
      * exists ((pre ++ f) ++ [c]). split; [by rewrite <- app_assoc|]. by rewrite (length_app (pre ++ f)).
    + destruct (IH pre (f ++ [c]) fuel
        (if (List.length (pre ++ f) + 1 =? List.length pat)%nat && empty str then drop (i + 1) pat else str)) as (s & Hs & Hr).
      * rewrite Hp. by rewrite <- !app_assoc.
      * cbn in Hf. lia.
      * apply Forall_app. by split; [|constructor].
      * exists s. rewrite app_assoc, (length_app (pre ++ f)) in Hs. cbn [List.length] in Hs. split; [exact Hs|].
        intros Hl. specialize (Hr Hl). destruct (until_brace r) as [[g q]|] eqn:Eu; [|exact Hr].
        cbn [mbind option_bind] in Hr |- *. assert (r <> []) as Hn by (by intros ->).
        assert ((List.length (pre ++ f) + 1 =? List.length pat)%nat = false) as E.
        { apply Nat.eqb_neq. rewrite Hp, (length_app (pre ++ f)). cbn. destruct r; [done|cbn; lia]. }
        rewrite E in Hr. cbn [andb] in Hr. by rewrite <- (app_assoc f [c] g) in Hr.
Qed.

(** The name of an item. *)
Lemma item_loop_name r : forall pre a fuel,
  pat = pre ++ percent :: a ++ r -> i = List.length pre -> List.length r < fuel ->
  exists s, item_loop fuel pat i (Scan (i + 1 + List.length a) 0 0 (if empty r then a else []) []) = Ok s
    /\ scanned pat (match letters r with
                    | (b, c :: r') => if is_open c then '(f, q) ← until_brace r'; Some (a ++ b, f, q)
                                      else Some (a ++ b, [], c :: r')
                    | (b, []) => Some (a ++ b, [], [])
                    end) s.
Proof.
  induction r as [|c r IH]; intros pre a fuel Hp Hi Hf; (destruct fuel as [|fuel]; [cbn in Hf; lia|]); cbn [item_loop sc_n].
  - assert (i + 1 + List.length a = List.length pat) as Hn.
    { rewrite Hp, length_app. cbn. rewrite app_nil_r. lia. }
    rewrite Hn, pat_end. eexists. split; [done|]. cbn. rewrite app_nil_r. split_and!; try done.
    exists pat. by rewrite app_nil_r.
  - assert (pat = (pre ++ percent :: a) ++ c :: r) as Hp' by (by rewrite Hp, <- app_assoc).
    assert (i + 1 + List.length a = List.length (pre ++ percent :: a)) as Hn by (rewrite length_app; cbn; lia).
    assert (substr pat (i + 1) (i + 1 + List.length a - i - 1) = a) as Hs.
    { unfold substr. rewrite Hp, Hi. replace (List.length pre + 1 + List.length a - List.length pre - 1) with (List.length a) by lia.
      replace (pre ++ percent :: a ++ c :: r) with ((pre ++ [percent]) ++ a ++ c :: r) by (by rewrite <- app_assoc).
      replace (List.length pre + 1) with (List.length (pre ++ [percent])) by (rewrite length_app; cbn; lia).
      by rewrite drop_app_length, take_app_length. }
    assert (pat !! (i + 1 + List.length a) = Some c) as -> by (rewrite Hn; exact (pat_at _ _ _ Hp')). cbn [fmt_status Nat.eqb andb letters empty sc_str].
    destruct (isalpha c || is_close c) eqn:Ea.
    + replace (negb (isalpha c) && negb (is_open c) && negb (is_close c)) with false by
        (destruct (isalpha c), (is_open c), (is_close c); done).
      assert (is_open c = false) as Eo.
      { unfold isalpha, is_close, is_open, is_c in *. destruct (Nat.eqb_spec (nat_of_ascii c) 123) as [E|]; [|done].
        by rewrite E in Ea. }
      rewrite Eo. cbn [andb].
      destruct (IH pre (a ++ [c]) fuel) as (s & Hs1 & Hs2); [by rewrite Hp, <- app_assoc|done|cbn in Hf; lia|].
      exists s. split.
      * rewrite <- Hs1. rewrite length_app. cbn [List.length fmt_begin sc_fmt]. f_equal. f_equal; [lia|].
        assert ((i + 1 + List.length a + 1 =? List.length pat)%nat = empty r) as ->.
        { rewrite Hp', length_app, Hn. cbn. destruct r; cbn; [apply Nat.eqb_eq; lia|apply Nat.eqb_neq; lia]. }
        destruct r; cbn; [|done].
        transitivity (drop (i + 1) ((pre ++ [percent]) ++ a ++ [c])); [by rewrite Hp, <- app_assoc|].
        replace (i + 1) with (List.length (pre ++ [percent])) by (rewrite length_app; cbn; lia). by rewrite drop_app_length.
      * destruct (letters r) as [b q]. rewrite <- (app_assoc a [c] b) in Hs2. done.
    + destruct (is_open c) eqn:Eo.
      * replace (negb (isalpha c) && negb true && negb (is_close c)) with false by (by destruct (isalpha c)).
        cbn [andb]. rewrite Hs, Hn.
        destruct (item_loop_brace r ((pre ++ percent :: a) ++ [c]) [] fuel a) as (s & Hs1 & Hs2);
          [by rewrite Hp', <- !app_assoc|cbn in Hf; lia|constructor|].
        exists s. cbn [sc_fmt]. rewrite app_nil_r, (length_app (pre ++ percent :: a)) in Hs1. cbn [List.length] in Hs1.
        rewrite Nat.add_sub in Hs1. split; [exact Hs1|].
        rewrite app_nil_r. apply Hs2. rewrite length_app. cbn. lia.
      * apply orb_false_iff in Ea as [E1 E2]. rewrite E1, E2. cbn [negb andb]. eexists. split; [done|].
        cbn [scanned fmt_status sc_str sc_fmt sc_n]. rewrite Hs, app_nil_r. split_and!; try done.
        by exists (pre ++ percent :: a).
Qed.

Lemma item_loop_spec pre s fuel :
  pat = pre ++ percent :: s -> i = List.length pre -> List.length s < fuel ->
  exists sc, item_loop fuel pat i (Scan (i + 1) 0 0 [] []) = Ok sc /\ scanned pat (next_item s) sc.
Proof.
  intros Hp Hi Hf. destruct (item_loop_name s pre [] fuel) as (sc & H1 & H2); [done..|].
  exists sc. cbn [List.length] in H1. rewrite Nat.add_0_r in H1. replace (if empty s then [] else []) with (@nil ascii) in H1 by (by destruct s).
  split; [exact H1|]. unfold next_item. destruct (letters s) as [b [|c r]]; exact H2.
Qed.
End item.

Lemma is_percent_eq c : is_percent c = true -> c = percent.
Proof. destruct c as [[] [] [] [] [] [] [] []]; vm_compute; (reflexivity || discriminate). Qed.

(** ** The whole pattern *)

Definition starts_percent (s : list ascii) : bool := match s with c :: _ => is_percent c | [] => false end.

(** [reads nstr s vec e]: with the text [nstr] pending, the rest [s] of a
    pattern adds the tuples [vec]; [e] says whether a brace was left open, and
    then the error comes before the text it was found in. *)
Inductive reads : list ascii -> list ascii -> list tuple -> bool -> Prop :=
  | reads_end nstr : reads nstr [] (flush nstr) false
  | reads_text nstr c s vec e :
      is_percent c = false -> reads (nstr ++ [c]) s vec e -> reads nstr (c :: s) vec e
  | reads_percent nstr s vec e :
      starts_percent s = true -> reads (nstr ++ [percent]) s vec e -> reads nstr (percent :: s) vec e
  | reads_item nstr s a f r vec e :
      starts_percent s = false -> next_item s = Some (a, f, r) -> reads [] r vec e ->
      reads nstr (percent :: s) (flush nstr ++ (a, f, true) :: vec) e
  | reads_open nstr s vec e :
      starts_percent s = false -> next_item s = None -> reads nstr s vec e ->
      reads nstr (percent :: s) ((pattern_error, [], false) :: vec) true.

Lemma letters_app s : let '(a, r) := letters s in s = a ++ r.
Proof. induction s as [|c s IH]; [done|]. cbn. destruct (_ || _); [|done]. destruct (letters s). cbn. by f_equal. Qed.

Lemma until_brace_length s f q : until_brace s = Some (f, q) -> List.length q < List.length s.
Proof.
  revert f. induction s as [|c s IH]; intros f; [done|]. cbn. destruct (is_close c); [intros [= <- <-]; lia|].
  destruct (until_brace s) as [[g q']|]; [|done]. cbn. intros [= _ <-]. specialize (IH _ eq_refl). lia.
Qed.

Lemma next_item_length s a f r : next_item s = Some (a, f, r) -> List.length r <= List.length s.
Proof.
  unfold next_item. pose proof (letters_app s) as Hs. destruct (letters s) as [b [|c q]]; [intros [= _ _ <-]; cbn; lia|].
  apply (f_equal List.length) in Hs. rewrite length_app in Hs. cbn in Hs. destruct (is_open c).
  - destruct (until_brace q) as [[g q']|] eqn:E; [|done]. intros [= _ _ <-]. apply until_brace_length in E. lia.
  - intros [= _ _ <-]. cbn. lia.
Qed.

Lemma init_loop_reads pat : forall fuel pre s nstr vec error,
  pat = pre ++ s -> List.length s < fuel ->
  exists v e, init_loop fuel pat (List.length pre) nstr vec error = Ok (vec ++ v, error || e) /\ reads nstr s v e.
Proof.
  induction fuel as [|fuel IH]; intros pre s nstr vec error Hp Hf; [lia|]. cbn [init_loop].
  destruct s as [|c s]; cbn [List.length] in Hf.
  { rewrite app_nil_r in Hp. rewrite <- Hp, pat_end. exists (flush nstr), false. rewrite orb_false_r. by split; [|constructor]. }
  assert (pat = (pre ++ [c]) ++ s) as Hp' by (by rewrite Hp, <- app_assoc).
  assert (List.length pre + 1 = List.length (pre ++ [c])) as Hl by (rewrite length_app; cbn; lia).
  rewrite (pat_at _ _ _ _ Hp). destruct (is_percent c) eqn:Ec; cbn [negb].
  2: { rewrite Hl. destruct (IH (pre ++ [c]) s (nstr ++ [c]) vec error) as (v & e & H1 & H2); [done|lia|].
       exists v, e. by split; [|constructor]. }
  apply is_percent_eq in Ec as ->.
  assert (match pat !! (List.length pre + 1)%nat with Some c' => is_percent c' | None => false end = starts_percent s) as ->.
  { rewrite Hl. destruct s as [|c s]; [rewrite app_nil_r in Hp'; by rewrite <- Hp', pat_end|].
    by rewrite (pat_at _ _ _ _ Hp'). }
  destruct (starts_percent s) eqn:Es.
  { rewrite Hl. destruct (IH (pre ++ [percent]) s (nstr ++ [percent]) vec error) as (v & e & H1 & H2); [done|lia|].
    exists v, e. by split; [|constructor]. }
  destruct (item_loop_spec pat (List.length pre) pre s (S (List.length pat))) as (sc & -> & Hsc); [done|done| |].
  { rewrite Hp, length_app. cbn. lia. }
  cbn [mbind outcome_bind]. unfold scanned in Hsc. destruct (next_item s) as [[[a f] r]|] eqn:En.
  - destruct Hsc as (-> & -> & -> & pre' & Hq & ->). cbn [Nat.eqb].
    destruct (IH pre' r [] (vec ++ flush nstr ++ [(a, f, true)]) error) as (v & e & H1 & H2); [done| |].
    { apply next_item_length in En. lia. }
    exists (flush nstr ++ (a, f, true) :: v), e. rewrite <- !app_assoc in H1. split; [exact H1|]. by econstructor.
  - destruct Hsc as (-> & ->). cbn [Nat.eqb]. rewrite Hl.
    destruct (IH (pre ++ [percent]) s nstr (vec ++ [(pattern_error, [], false)]) true) as (v & e & H1 & H2); [done|lia|].
    exists ((pattern_error, [], false) :: v), true. rewrite <- app_assoc in H1. rewrite orb_true_r. split; [exact H1|].
    by econstructor.
Qed.

Lemma reads_functional nstr s v e : reads nstr s v e -> forall v' e', reads nstr s v' e' -> v = v' /\ e = e'.
Proof.
  induction 1 as [nstr|nstr c s v e Hc _ IH|nstr s v e Hs _ IH|nstr s a f r v e Hs Hn _ IH|nstr s v e Hs Hn _ IH];
    intros v' e' H; inversion H; subst; try done; try congruence; auto.
  - rewrite Hn in *. simplify_eq. by destruct (IH _ _ ltac:(eassumption)) as [-> ->].
  - by destruct (IH _ _ ltac:(eassumption)) as [-> _].
Qed.

(** [init] ends on every pattern, and with what the grammar says. *)
Lemma init_reads pattern :
  exists v e, reads [] (list_ascii_of_string pattern) v e
    /\ newLogFormatter pattern = Ok (mkFormatter pattern (map (fun t => (make_item t).1) v)
                                       (e || existsb (fun t => (make_item t).2) v)).
Proof.
  unfold newLogFormatter. set (p := list_ascii_of_string pattern).
  destruct (init_loop_reads p (S (List.length p)) [] p [] [] false) as (v & e & H & Hr); [done|lia|].
  exists v, e. split; [done|]. cbn [List.length] in H. by rewrite H.
Qed.

(** ** Patterns that are written by the rules *)

(** A text with the percent signs at its end, or an item with its format. *)
Inductive piece :=
  | PText (s : list ascii) (percents : nat)
  | PItem (c : ascii) (fmt : option (list ascii)).

Definition print_piece (p : piece) : list ascii :=
  match p with
  | PText s n => s ++ replicate n percent
  | PItem c None => [percent; c]
  | PItem c (Some f) => percent :: c :: "{"%char :: f ++ ["}"%char]
  end.
Definition print_pieces (ps : list piece) : list ascii := List.concat (map print_piece ps).

Definition name_char (c : ascii) : bool := isalpha c || is_open c || is_close c.
Definition known (a : list ascii) : bool :=
  match s_format_items (string_of_list_ascii a) with Some _ => true | None => false end.
Definition unnamed (s : list ascii) : bool := match s with c :: _ => negb (name_char c) | [] => true end.

(** [named] says that a bare item comes before: the text behind it must not
    look like more of its name.  Percent signs stand only before an item. *)
Fixpoint written (named : bool) (ps : list piece) : Prop :=
  match ps with
  | [] => True
  | PItem c f :: ps =>
      known [c] = true
      /\ match f with Some f => Forall (fun c => is_close c = false) f | None => True end
      /\ written (match f with None => true | _ => false end) ps
  | PText s n :: ps =>
      Forall (fun c => is_percent c = false) s /\ (s <> [] \/ n <> 0) /\ (named = true -> unnamed s = true)
      /\ match ps with
         | [] => n = 0
         | PItem _ _ :: _ => written false ps
         | PText _ _ :: _ => False
         end
  end.

Definition piece_tuple (p : piece) : tuple :=
  match p with
  | PText s n => (s ++ replicate n percent, [], false)
  | PItem c f => ([c], default [] f, true)
  end.
Definition piece_item (p : piece) : FormatItem := (make_item (piece_tuple p)).1.

(** *** They are read as they are written *)

Lemma reads_texts s : forall nstr r v e,
  Forall (fun c => is_percent c = false) s -> reads (nstr ++ s) r v e -> reads nstr (s ++ r) v e.
Proof.
  induction s as [|c s IH]; intros nstr r v e Hs H; [by rewrite app_nil_r in H|].
  inversion Hs; subst. cbn. constructor; [done|]. apply IH; [done|]. by rewrite <- app_assoc.
Qed.

Lemma reads_percents n : forall nstr r v e,
  starts_percent r = true -> reads (nstr ++ replicate n percent) r v e -> reads nstr (replicate n percent ++ r) v e.
Proof.
  induction n as [|n IH]; intros nstr r v e Hr H; [by rewrite app_nil_r in H|].
  cbn. apply reads_percent; [by destruct n|]. apply IH; [done|]. by rewrite <- app_assoc.
Qed.

(** The name of a known item is one letter. *)
Lemma known_letter a : known a = true -> exists c, a = [c] /\ isalpha c = true.
Proof.
  unfold known, s_format_items. intros H.
  repeat match type of H with
  | context [String.eqb ?x ?y] => destruct (String.eqb_spec x y) as [E|_];
      [exists (match y with String c _ => c | _ => percent end);
       apply (f_equal list_ascii_of_string) in E; rewrite list_ascii_of_string_of_list_ascii in E; by rewrite E|]
  end.
  done.
Qed.

Lemma until_brace_print f r :
  Forall (fun c => is_close c = false) f -> until_brace (f ++ "}"%char :: r) = Some (f, r).
Proof. induction 1 as [|c f Hc _ IH]; [done|]. cbn. by rewrite Hc, IH. Qed.

Lemma letters_unnamed r : unnamed r = true -> letters r = ([], r).
Proof.
  destruct r as [|c r]; [done|]. cbn. unfold name_char. intros H.
  destruct (isalpha c), (is_close c), (is_open c); try done.
Qed.

Lemma next_item_print c f r :
  known [c] = true -> match f with Some f => Forall (fun c => is_close c = false) f | None => unnamed r = true end ->
  next_item (tail (print_piece (PItem c f)) ++ r) = Some ([c], default [] f, r).
Proof.
  intros (d & [= <-] & Hc)%known_letter Hf. unfold next_item. destruct f as [f|]; cbn [tail print_piece app letters].
  - rewrite Hc. cbn [orb]. rewrite <- app_assoc.
    change (isalpha "{" || is_close "{") with false. cbn [app]. change (is_open "{") with true. cbn iota.
    by rewrite until_brace_print.
  - rewrite Hc. cbn -[is_open]. rewrite letters_unnamed by done. destruct r as [|d r]; [done|]. cbn in Hf.
    unfold name_char in Hf. destruct (is_open d); [|done]. by destruct (isalpha d).
Qed.

Lemma written_unnamed ps : written true ps -> unnamed (print_pieces ps) = true.
Proof.
  destruct ps as [|[s n|c f] ps]; [done| |by destruct f].
  intros (_ & Hs & Hu & _). specialize (Hu eq_refl). cbn. destruct s as [|c s]; [|done].
  destruct n; [by destruct Hs|done].
Qed.

Lemma not_percent c : known [c] = true -> is_percent c = false.
Proof.
  intros (d & [= <-] & Hc)%known_letter. revert Hc. unfold isalpha, is_percent, is_c.
  destruct (Nat.eqb_spec (nat_of_ascii c) 37) as [->|]; done.
Qed.

Lemma reads_item_print nstr c f ps v e :
  written false (PItem c f :: ps) -> reads [] (print_pieces ps) v e ->
  reads nstr (print_pieces (PItem c f :: ps)) (flush nstr ++ ([c], default [] f, true) :: v) e.
Proof.
  intros (Hk & Hf & Hw) H. change (print_pieces (PItem c f :: ps)) with (print_piece (PItem c f) ++ print_pieces ps).
  replace (print_piece (PItem c f)) with (percent :: tail (print_piece (PItem c f))) by (by destruct f).
  cbn [app]. apply reads_item with (r := print_pieces ps); [|apply next_item_print|done]; try done.
  - destruct f; cbn; by apply not_percent.
  - destruct f; [done|]. by apply written_unnamed.
Qed.

Lemma written_weaken named ps : written named ps -> written false ps.
Proof. destruct ps as [|[s n|c f] ps]; [done| |done]. intros (H1 & H2 & _ & H3). by split_and!. Qed.

Definition is_item (ps : list piece) : bool := match ps with PItem _ _ :: _ => true | _ => false end.

Lemma written_reads ps : forall nstr, written false ps -> is_item ps = true \/ nstr = [] ->
  reads nstr (print_pieces ps) (flush nstr ++ map piece_tuple ps) false.
Proof.
  induction ps as [|[s n|c f] ps IH]; intros nstr; [intros _ [H | ->]; [done|constructor]| |].
  - intros (Hs & Hn & _ & Hp) [H | ->]; [done|]. cbn [print_pieces map List.concat print_piece]. rewrite <- app_assoc.
    apply reads_texts; [done|]. cbn [app].
    assert (flush (s ++ replicate n percent) = [piece_tuple (PText s n)]) as Hf.
    { unfold flush. destruct s, n; cbn; try done. by destruct Hn. }
    destruct ps as [|[|c f] ps]; [subst n|done|].
    + cbn. cbn in Hf. rewrite app_nil_r in Hf |- *. rewrite <- Hf. constructor.
    + apply reads_percents; [by destruct f|]. specialize (IH (s ++ replicate n percent) Hp (or_introl eq_refl)).
      rewrite Hf in IH. exact IH.
  - intros H _. apply reads_item_print; [done|]. apply (IH []); [|by right].
    destruct H as (_ & _ & H). by eapply written_weaken.
Qed.

(** *** And whatever is read without an error is so written *)

Lemma written_strengthen ps : written false ps -> unnamed (print_pieces ps) = true -> written true ps.
Proof.
  destruct ps as [|[s n|c f] ps]; [done| |done]. intros (H1 & H2 & _ & H3) Hu. split_and!; try done. intros _.
  destruct s as [|c s]; [done|]. exact Hu.
Qed.

Lemma until_brace_inv s f q : until_brace s = Some (f, q) ->
  s = f ++ "}"%char :: q /\ Forall (fun c => is_close c = false) f.
Proof.
  revert f. induction s as [|c s IH]; intros f; [done|]. cbn. destruct (is_close c) eqn:E.
  - intros [= <- <-]. split; [|constructor]. f_equal. revert E. clear. 
    destruct c as [[] [] [] [] [] [] [] []]; vm_compute; (reflexivity || discriminate).
  - destruct (until_brace s) as [[g q']|]; [|done]. cbn. intros [= <- <-]. destruct (IH g eq_refl) as [-> Hg].
    by split; [|constructor].
Qed.

Lemma letters_rest s : match (letters s).2 with c :: _ => isalpha c || is_close c = false | [] => True end.
Proof.
  induction s as [|c s IH]; [done|]. cbn. destruct (isalpha c || is_close c) eqn:E; [|exact E].
  by destruct (letters s).
Qed.

Lemma next_item_inv s a f r : next_item s = Some (a, f, r) -> known a = true ->
  exists c g, a = [c] /\ f = default [] g /\ percent :: s = print_piece (PItem c g) ++ r
    /\ match g with Some g => Forall (fun c => is_close c = false) g | None => unnamed r = true end.
Proof.
  intros H Hk. destruct (known_letter _ Hk) as (c & -> & _). unfold next_item in H.
  pose proof (letters_app s) as Hs. pose proof (letters_rest s) as Hr. destruct (letters s) as [b [|d q]]; subst s.
  { injection H as -> <- <-. exists c, None. by split_and!. }
  cbn in Hr. destruct (is_open d) eqn:Ed.
  - destruct (until_brace q) as [[g q']|] eqn:E; [|done]. injection H as -> <- <-.
    apply until_brace_inv in E as [-> Hg]. exists c, (Some g). split_and!; try done. cbn.
    rewrite <- app_assoc. cbn. do 3 f_equal. revert Ed. clear.
    destruct d as [[] [] [] [] [] [] [] []]; vm_compute; (reflexivity || discriminate).
  - injection H as -> <- <-. exists c, None. split_and!; try done. cbn. unfold name_char. rewrite Ed.
    by destruct (isalpha d), (is_close d).
Qed.

Definition all_known (v : list tuple) : Prop := Forall (fun t : tuple => t.2 = true -> known t.1.1 = true) v.

Lemma reads_written nstr s v e : reads nstr s v e -> e = false -> all_known v ->
  forall s0 n, nstr = s0 ++ replicate n percent -> Forall (fun c => is_percent c = false) s0 ->
  (n <> 0 -> starts_percent s = true) ->
  exists ps, written false ps /\ print_pieces ps = nstr ++ s /\ map piece_tuple ps = v.
Proof.
  unfold all_known.
  induction 1 as [nstr|nstr c s v e Hc _ IH|nstr s v e Hs _ IH|nstr s a f r v e Hs Hn _ IH|nstr s v e Hs Hn _ IH];
    intros He Hk s0 n Hnstr Hs0 Hstart; [| | | |done].
  - assert (n = 0) as -> by (destruct n; [done|]; by specialize (Hstart ltac:(done))).
    rewrite app_nil_r in Hnstr |- *. subst nstr. destruct s0 as [|c s0]; [by exists []|].
    exists [PText (c :: s0) 0]. cbn. rewrite !app_nil_r. split_and!; try done. by left.
  - assert (n = 0) as -> by (destruct n; [done|]; specialize (Hstart ltac:(done)); cbn in Hstart; congruence).
    destruct (IH He Hk (s0 ++ [c]) 0) as (ps & H1 & H2 & H3); [by rewrite Hnstr, !app_nil_r|by apply Forall_app; split; [|constructor]|done|].
    exists ps. split_and!; [done|by rewrite H2, <- app_assoc|done].
  - destruct (IH He Hk s0 (n + 1)) as (ps & H1 & H2 & H3); [by rewrite Hnstr, <- app_assoc, replicate_add|done|done|].
    exists ps. split_and!; [done|by rewrite H2, <- app_assoc|done].
  - apply Forall_app in Hk as [_ Hk]. inversion Hk as [|? ? Hka Hkv]; subst. specialize (Hka eq_refl).
    destruct (IH eq_refl Hkv [] 0) as (ps & H1 & H2 & H3); [done|constructor|done|].
    destruct (next_item_inv _ _ _ _ Hn Hka) as (c & g & -> & -> & Hp & Hg).
    assert (written false (PItem c g :: ps)) as Hw.
    { split_and!; [done|by destruct g|]. destruct g; [done|]. apply written_strengthen; [done|]. by rewrite H2. }
    assert (print_pieces (PItem c g :: ps) = percent :: s) as Hpp by (rewrite Hp; cbn in H2; by rewrite <- H2).
    destruct (empty (s0 ++ replicate n percent)) eqn:Ee.
    + exists (PItem c g :: ps). assert (s0 ++ replicate n percent = []) as -> by (by destruct (s0 ++ replicate n percent)).
      split_and!; [done|done|]. cbn. by rewrite H3.
    + exists (PText s0 n :: PItem c g :: ps). split_and!.
      * split; [done|]. split; [|by split]. destruct s0; [right|by left]. by destruct n.
      * change (print_piece (PText s0 n) ++ print_pieces (PItem c g :: ps) = (s0 ++ replicate n percent) ++ percent :: s).
        by rewrite Hpp.
      * unfold flush. rewrite Ee. cbn. by rewrite H3.
Qed.

(** ** The result *)

Lemma make_items_known v : existsb (fun t => (make_item t).2) v = false <-> all_known v.
Proof.
  unfold all_known. induction v as [|[[a f] b] v IH]; [by split|]. cbn [existsb]. rewrite orb_false_iff, Forall_cons, IH.
  apply and_iff_compat_r. unfold make_item, known. destruct b; cbn; [|by split].
  destruct (s_format_items (string_of_list_ascii a)); cbn; naive_solver.
Qed.

Lemma written_known named ps : written named ps -> all_known (map piece_tuple ps).
Proof.
  unfold all_known. revert named. induction ps as [|[s n|c f] ps IH]; intros named; [constructor| |].
  - intros (_ & _ & _ & H). constructor; [done|]. destruct ps as [|[|c f] ps]; [constructor|done|]. by eapply IH.
  - intros (H1 & _ & H2). constructor; [done|]. by eapply IH.
Qed.

(** C24: A pattern is accepted exactly when it is written by the rules: texts
    whose percent signs stand before an item, and items of one known letter
    with an optional format in braces, a bare item not followed by more letters
    or braces; its items are then those texts and items in order.  [init] ends
    on every pattern. *)
Theorem log_pattern pattern :
  exists f, newLogFormatter pattern = Ok f /\ m_pattern f = pattern
    /\ (m_error f = false <->
        exists ps, written false ps /\ string_of_list_ascii (print_pieces ps) = pattern)
    /\ forall ps, written false ps -> string_of_list_ascii (print_pieces ps) = pattern ->
        m_items f = map piece_item ps.
Proof.
  destruct (init_reads pattern) as (v & e & Hr & Hf). eexists. split; [exact Hf|].
  assert (forall ps, written false ps -> string_of_list_ascii (print_pieces ps) = pattern ->
    v = map piece_tuple ps /\ e = false) as Hps.
  { intros ps Hw <-. rewrite list_ascii_of_string_of_list_ascii in Hr. eapply reads_functional; [exact Hr|].
    apply (written_reads ps []); [done|by right]. }
  split_and!; [done| |].
  - cbn. rewrite orb_false_iff, make_items_known. split.
    + intros [-> Hk]. destruct (reads_written _ _ _ _ Hr eq_refl Hk [] 0) as (ps & H1 & H2 & H3); [done|constructor|done|].
      exists ps. split; [done|]. rewrite H2. apply string_of_list_ascii_of_string.
    + intros (ps & Hw & Hp). destruct (Hps ps Hw Hp) as [-> ->]. split; [done|]. by eapply written_known.
  - intros ps Hw Hp. destruct (Hps ps Hw Hp) as [-> _]. cbn. by rewrite map_map.
Qed.

(** A doubled percent sign does not stand for one: the second begins an item.
    Text before an open brace moves behind the error it is in. *)
Lemma doubled_percent_refused :
  (exists f, newLogFormatter "100%% of" = Ok f /\ m_error f = true)
  /\ (exists f, newLogFormatter "a%%m" = Ok f /\ m_items f = [StringFormatItem "a%"; MessageFormatItem]).
Proof. split; eexists; split; vm_compute; reflexivity. Qed.

Lemma open_brace_reordered :
  exists f, newLogFormatter "at %d{%Y" = Ok f
    /\ m_items f = [StringFormatItem "<<pattern_error>>"; StringFormatItem "at d{"; StringFormatItem "<<error_format %Y>>"].
Proof. eexists. split; vm_compute; reflexivity. Qed.

Lemma default_pattern_ok : exists f, newLogFormatter default_pattern = Ok f /\ m_error f = false.
Proof. eexists. split; vm_compute; reflexivity. Qed.
