(* ===== verification/Log.v ===== *)
(** * [sylar/log.h], [sylar/log.cc]: appenders, loggers and their manager

    Loggers and appenders are shared objects, so they live in heaps; a
    [LogFormatter] never changes once it is made and is a value.  The sections
    under the spin locks do not overlap, so an operation is one step.  The
    messages that [init] and [setFormatter] print about bad patterns are left
    out of the console's text. *)

From stdpp Require Import base list gmap strings sorting.
From Stdlib Require Import ZArith Lia Ascii String.
From S2P Require Import Prelude Http Config LogFormat.

Local Open Scope string_scope.

(** ** Appenders *)

Inductive appender_kind := StdLogAppender | FileLogAppender (m_filename : string).

#[export] Instance appender_kind_eq_dec : EqDecision appender_kind.
Proof. solve_decision. Defined.

(** [std::ofstream]: whether a file is open, the fail bit, what was written
    since the file was opened, and how often an opening was tried. *)
Record ofstream := OFStream { s_open : bool; s_fail : bool; s_text : string; s_tries : nat }.

Record LogAppender := mkAppender {
  a_kind : appender_kind;
  a_level : Z;
  hasFormatter : bool;
  a_formatter : option LogFormatter;
  m_filestream : ofstream;
  m_lastTime : Z;
}.

Definition set_a_level (x : Z) (a : LogAppender) : LogAppender :=
  mkAppender (a_kind a) x (hasFormatter a) (a_formatter a) (m_filestream a) (m_lastTime a).
Definition set_a_formatter (own : bool) (f : option LogFormatter) (a : LogAppender) : LogAppender :=
  mkAppender (a_kind a) (a_level a) own f (m_filestream a) (m_lastTime a).
Definition set_stream (s : ofstream) (last : Z) (a : LogAppender) : LogAppender :=
  mkAppender (a_kind a) (a_level a) (hasFormatter a) (a_formatter a) s last.

(** [LogAppender::setFormatter] *)
Definition appender_setFormatter (f : option LogFormatter) (a : LogAppender) : LogAppender :=
  set_a_formatter (match f with Some _ => true | None => false end) f a.

Section streams.
(** Whether the [k]th opening of the file of the appender at [p] succeeds. *)
Context (can_open : nat -> nat -> bool) (p : nat).

(** [close]: on a stream that is not open it sets the fail bit. *)
Definition stream_close (s : ofstream) : ofstream :=
  OFStream false (s_fail s || negb (s_open s)) (s_text s) (s_tries s).
(** [open] with the default mode empties the file; it fails on a stream that is
    open and clears the fail bit when it succeeds. *)
Definition stream_open (s : ofstream) : ofstream :=
  if s_open s then OFStream true true (s_text s) (s_tries s)
  else if can_open p (s_tries s) then OFStream true false "" (S (s_tries s))
  else OFStream false true (s_text s) (S (s_tries s)).
Definition stream_write (t : string) (s : ofstream) : ofstream :=
  if s_fail s then s
  else if s_open s then OFStream true false (s_text s ++ t) (s_tries s)
  else OFStream false true (s_text s) (s_tries s).

(** [FileLogAppender::reopen] *)
Definition reopen_stream (s : ofstream) : ofstream :=
  stream_open (if s_fail s then s else stream_close s).
Definition reopen (a : LogAppender) : bool * LogAppender :=
  let s := reopen_stream (m_filestream a) in (s_open s, set_stream s (m_lastTime a) a).
End streams.

Definition newStdLogAppender : LogAppender :=
  mkAppender StdLogAppender DEBUG false None (OFStream false false "" 0) 0.
Definition newFileLogAppender can_open (p : nat) (filename : string) : LogAppender :=
  (reopen can_open p (mkAppender (FileLogAppender filename) DEBUG false None (OFStream false false "" 0) 0)).2.

(** The lines [std::getline] finds. *)
Fixpoint lines_of (s : string) : list string :=
  match s with
  | "" => []
  | String c r =>
      if is_c c 10 then "" :: lines_of r
      else match lines_of r with
           | l :: ls => String c l :: ls
           | [] => [String c ""]
           end
  end.

Definition esc (s : string) : string := String (ascii_of_nat 27) s.
Definition RESET : string := esc "[0m".
Definition LOG_COLOR (level : Z) : string :=
  if (level =? DEBUG)%Z then esc "[34m"
  else if (level =? INFO)%Z then esc "[32m"
  else if (level =? WARN)%Z then esc "[33m"
  else if (level =? ERROR)%Z then esc "[31m"
  else if (level =? FATAL)%Z then esc "[35m"
  else RESET.
Definition joined (l : list string) : string := foldr String.append "" l.
Definition color_lines (level : Z) (t : string) : string :=
  joined (map (fun l => LOG_COLOR level ++ l ++ RESET ++ endl) (lines_of t)).

Section log.
Context (can_open : nat -> nat -> bool) (strftime : string -> Z -> option string).

Section appender.
Context (name_of : nat -> string) (p : nat).

(** [m_formatter->format(...)] *)
Definition appender_text (a : LogAppender) (level : Z) (event : LogEvent) : outcome string :=
  match a_formatter a with
  | None => Err (UB null_deref)
  | Some f => formatter_format strftime name_of f level event
  end.

(** [StdLogAppender::log]: what is printed. *)
Definition std_log (a : LogAppender) (level : Z) (event : LogEvent) : outcome (LogAppender * string) :=
  if (a_level a <=? level)%Z then t ← appender_text a level event; Ok (a, color_lines level t)
  else Ok (a, "").

(** [FileLogAppender::log] *)
Definition file_log (a : LogAppender) (level : Z) (event : LogEvent) : outcome (LogAppender * string) :=
  if (a_level a <=? level)%Z then
    let now := e_time event in
    let a := if (u64 (m_lastTime a + 3) <=? now)%Z
             then let a' := (reopen can_open p a).2 in set_stream (m_filestream a') now a' else a in
    t ← appender_text a level event;
    let s := stream_write t (m_filestream a) in
    Ok (set_stream s (m_lastTime a) a, if s_fail s then "error" ++ endl else "")
  else Ok (a, "").

Definition appender_log (a : LogAppender) (level : Z) (event : LogEvent) : outcome (LogAppender * string) :=
  match a_kind a with
  | StdLogAppender => std_log a level event
  | FileLogAppender _ => file_log a level event
  end.
End appender.

(** ** Loggers *)

Record Logger := mkLogger {
  l_name : string;
  l_level : Z;
  l_appenders : list nat;
  l_formatter : option LogFormatter;
  l_root : option nat;
}.

Definition set_l_level (x : Z) (l : Logger) : Logger :=
  mkLogger (l_name l) x (l_appenders l) (l_formatter l) (l_root l).
Definition set_l_appenders (x : list nat) (l : Logger) : Logger :=
  mkLogger (l_name l) (l_level l) x (l_formatter l) (l_root l).
Definition set_l_formatter (x : option LogFormatter) (l : Logger) : Logger :=
  mkLogger (l_name l) (l_level l) (l_appenders l) x (l_root l).
Definition set_l_root (x : option nat) (l : Logger) : Logger :=
  mkLogger (l_name l) (l_level l) (l_appenders l) (l_formatter l) x.

(** The constructor. *)
Definition newLogger (name : string) : outcome Logger :=
  f ← newLogFormatter default_pattern; Ok (mkLogger name DEBUG [] (Some f) None).

(** The objects of the module: loggers, appenders, [LoggerManager] and what
    the console shows; [g_next] is a fresh address. *)
Record logs := Logs {
  g_loggers : gmap nat Logger;
  g_appenders : gmap nat LogAppender;
  m_loggers : gmap string nat;
  m_root : nat;
  g_cout : string;
  g_next : nat;
}.

Definition put_logger (p : nat) (l : Logger) (g : logs) : logs :=
  Logs (<[p := l]> (g_loggers g)) (g_appenders g) (m_loggers g) (m_root g) (g_cout g) (g_next g).
Definition put_appender (p : nat) (a : LogAppender) (g : logs) : logs :=
  Logs (g_loggers g) (<[p := a]> (g_appenders g)) (m_loggers g) (m_root g) (g_cout g) (g_next g).
Definition print (t : string) (g : logs) : logs :=
  Logs (g_loggers g) (g_appenders g) (m_loggers g) (m_root g) (g_cout g ++ t) (g_next g).
Definition put_name (name : string) (p : nat) (g : logs) : logs :=
  Logs (g_loggers g) (g_appenders g) (<[name := p]> (m_loggers g)) (m_root g) (g_cout g) (g_next g).
Definition bump (g : logs) : logs :=
  Logs (g_loggers g) (g_appenders g) (m_loggers g) (m_root g) (g_cout g) (S (g_next g)).

Definition the_logger (p : nat) (g : logs) : outcome Logger :=
  match g_loggers g !! p with Some l => Ok l | None => Err (UB null_deref) end.
Definition the_appender (p : nat) (g : logs) : outcome LogAppender :=
  match g_appenders g !! p with Some a => Ok a | None => Err (UB null_deref) end.
Definition logger_name (g : logs) (p : nat) : string :=
  match g_loggers g !! p with Some l => l_name l | None => "" end.

(** [new] of an appender: its address. *)
Definition new_appender (a : LogAppender) (g : logs) : nat * logs :=
  (g_next g, bump (put_appender (g_next g) a g)).

(** [Logger::setLevel] and [LogAppender::setLevel] *)
Definition setLevel (p : nat) (x : Z) (g : logs) : outcome logs :=
  l ← the_logger p g; Ok (put_logger p (set_l_level x l) g).
Definition appender_setLevel (p : nat) (x : Z) (g : logs) : outcome logs :=
  a ← the_appender p g; Ok (put_appender p (set_a_level x a) g).

(** [Logger::addAppender]: an appender with no formatter gets the logger's. *)
Definition addAppender (p ap : nat) (g : logs) : outcome logs :=
  l ← the_logger p g;
  a ← the_appender ap g;
  let g := match a_formatter a with
           | None => put_appender ap (set_a_formatter (hasFormatter a) (l_formatter l) a) g
           | Some _ => g
           end in
  Ok (put_logger p (set_l_appenders (l_appenders l ++ [ap])%list l) g).

(** The first occurrence is erased. *)
Fixpoint erase_first (x : nat) (l : list nat) : list nat :=
  match l with
  | [] => []
  | y :: l => if (y =? x)%nat then l else y :: erase_first x l
  end.
Definition delAppender (p ap : nat) (g : logs) : outcome logs :=
  l ← the_logger p g; Ok (put_logger p (set_l_appenders (erase_first ap (l_appenders l)) l) g).
Definition clearAppenders (p : nat) (g : logs) : outcome logs :=
  l ← the_logger p g; Ok (put_logger p (set_l_appenders [] l) g).

(** The loop of [setFormatter] over the appenders. *)
Fixpoint inherit_each (f : option LogFormatter) (aps : list nat) (g : logs) : outcome logs :=
  match aps with
  | [] => Ok g
  | ap :: aps =>
      a ← the_appender ap g;
      inherit_each f aps (if hasFormatter a then g else put_appender ap (set_a_formatter false f a) g)
  end.
Definition setFormatter (p : nat) (f : option LogFormatter) (g : logs) : outcome logs :=
  l ← the_logger p g;
  inherit_each f (l_appenders l) (put_logger p (set_l_formatter f l) g).
(** [setFormatter(const std::string&)]: a pattern with an error is refused. *)
Definition setFormatter_pattern (p : nat) (val : string) (g : logs) : outcome logs :=
  f ← newLogFormatter val;
  if m_error f then Ok g else setFormatter p (Some f) g.

(** ** [Logger::log] *)

Fixpoint log_each (aps : list nat) (level : Z) (event : LogEvent) (g : logs) : outcome logs :=
  match aps with
  | [] => Ok g
  | ap :: aps =>
      a ← the_appender ap g;
      '(a, t) ← appender_log (logger_name g) ap a level event;
      log_each aps level event (print t (put_appender ap a g))
  end.

(** [fuel] bounds the chain of [m_root]; two are enough. *)
Fixpoint log_chain (fuel : nat) (p : nat) (level : Z) (event : LogEvent) (g : logs) : outcome logs :=
  match fuel with
  | O => Err NoFuel
  | S fuel =>
      l ← the_logger p g;
      if (l_level l <=? level)%Z then
        match l_appenders l with
        | _ :: _ => log_each (l_appenders l) level event g
        | [] => match l_root l with
                | Some r => log_chain fuel r level event g
                | None => Ok g
                end
        end
      else Ok g
  end.
Definition log (p : nat) (level : Z) (event : LogEvent) (g : logs) : outcome logs :=
  log_chain 2 p level event g.

(** [info] and the others. *)
Definition info p := log p INFO.
Definition debug p := log p DEBUG.
Definition warn p := log p WARN.
Definition error p := log p ERROR.
Definition fatal p := log p FATAL.

(** [SYLAR_LOG_LEVEL(logger, level) << content]: the event is made when the
    logger's level allows it, and logged when its [LogEventWrap] is destroyed. *)
Definition LOG_LEVEL (p : nat) (level : Z) (file : string) (line tid fid time : Z) (thread_name content : string)
    (g : logs) : outcome logs :=
  l ← the_logger p g;
  if (l_level l <=? level)%Z then
    let e := event_format (Some content) (newLogEvent p level file line 0 tid fid time thread_name) in
    log (e_logger e) (e_level e) e g
  else Ok g.

(** ** [LoggerManager] *)

(** [getLogger] *)
Definition getLogger (name : string) (g : logs) : outcome (nat * logs) :=
  match m_loggers g !! name with
  | Some p => Ok (p, g)
  | None =>
      l ← newLogger name;
      let p := g_next g in
      Ok (p, bump (put_name name p (put_logger p (set_l_root (Some (m_root g)) l) g)))
  end.

(** The constructor: the root logger with a console appender. *)
Definition newLoggerManager : outcome logs :=
  l ← newLogger "root";
  let '(ap, g) := new_appender newStdLogAppender (Logs {[0 := l]} ∅ ∅ 0 "" 1) in
  g ← addAppender 0 ap g;
  Ok (put_name (l_name l) 0 g).
End log.
