(* ===== verification/LogConfig.v ===== *)
(** * [sylar/log.cc]: the configuration of the loggers

    [LogDefine] and its YAML text, the listener that applies a change of the
    variable [logs], and the YAML text of loggers.  A [std::set<LogDefine>] is
    the list of its elements in the order of their names. *)

From stdpp Require Import base list gmap strings sorting.
From Stdlib Require Import ZArith Lia Ascii String.
From S2P Require Import Prelude Http Config LogFormat Log.

Local Open Scope string_scope.

Record LogAppenderDefine := mkAppenderDefine { ad_type : Z; ad_level : Z; ad_formatter : string; ad_file : string }.
Record LogDefine := mkLogDefine {
  d_name : string;
  d_level : Z;
  d_formatter : string;
  d_appenders : list LogAppenderDefine;
}.

(** [operator==] *)
#[export] Instance LogAppenderDefine_eq_dec : EqDecision LogAppenderDefine.
Proof. solve_decision. Defined.
#[export] Instance LogDefine_eq_dec : EqDecision LogDefine.
Proof. solve_decision. Defined.

(** [insert]: an element with the name of one that is there is dropped. *)
Fixpoint set_insert (d : LogDefine) (s : list LogDefine) : list LogDefine :=
  match s with
  | [] => [d]
  | x :: r => match String.compare (d_name d) (d_name x) with
              | Lt => d :: s
              | Eq => s
              | Gt => x :: set_insert d r
              end
  end.
(** [find]: by name. *)
Definition set_find (d : LogDefine) (s : list LogDefine) : option LogDefine :=
  List.find (fun x => String.eqb (d_name x) (d_name d)) s.

(** ** YAML *)

(** [node[key]], with [None] inside for a key that is not defined, and
    [as<std::string>()]; [None] when they throw. *)
Class YamlRead := {
  subscript : Node -> string -> option (option Node);
  as_string : Node -> option string;
}.

Section yaml.
Context `{!Yaml, !YamlRead}.

(** [n[key].IsDefined()], and then [n[key].as<std::string>()]. *)
Definition string_at (n : Node) (key : string) : option (option string) :=
  o ← subscript n key;
  match o with
  | None => Some None
  | Some m => s ← as_string m; Some (Some s)
  end.

(** One appender; the inner [None] is a [continue]. *)
Definition read_appender (a : Node) : option (option LogAppenderDefine) :=
  t ← string_at a "type";
  match t with
  | None => Some None
  | Some type =>
      if String.eqb type "FileLogAppender" then
        f ← string_at a "file";
        match f with
        | None => Some None
        | Some file =>
            fmt ← string_at a "formatter";
            Some (Some (mkAppenderDefine 1 UNKNOW (default "" fmt) file))
        end
      else if String.eqb type "StdoutLogAppender" then Some (Some (mkAppenderDefine 2 UNKNOW "" ""))
      else Some None
  end.

(** The elements that are not skipped. *)
Definition kept {A} (l : list (option A)) : list A := omap id l.

Definition read_appenders (n : Node) : option (list LogAppenderDefine) :=
  o ← subscript n "appenders";
  match o with
  | None => Some []
  | Some aps =>
      l ← map_option (fun k => read_appender (index aps k)) (seq 0 (node_size aps));
      Some (kept l)
  end.

Definition read_define (n : Node) : option (option LogDefine) :=
  o ← string_at n "name";
  match o with
  | None => Some None
  | Some name =>
      level ← string_at n "level";
      fmt ← string_at n "formatter";
      aps ← read_appenders n;
      Some (Some (mkLogDefine name (level_FromString (default "" level)) (default "" fmt) aps))
  end.

(** [LexicalCast<std::string, std::set<LogDefine>>] *)
Definition read_defines (v : string) : option (list LogDefine) :=
  node ← load v;
  l ← map_option (fun i => read_define (index node i)) (seq 0 (node_size node));
  Some (foldl (fun s d => set_insert d s) [] (kept l)).

(** [LexicalCast<std::set<LogDefine>, std::string>]: an assignment to a key
    adds an entry. *)
Definition entry (key text : string) : Node * Node := (Scalar key, Scalar text).
Definition entry_if (b : bool) (key text : string) : list (Node * Node) := if b then [entry key text] else [].

Definition appender_node (a : LogAppenderDefine) : Node :=
  map_node ((if (ad_type a =? 1)%Z then [entry "type" "FileLogAppender"; entry "file" (ad_file a)]
             else if (ad_type a =? 2)%Z then [entry "type" "StdoutLogAppender"] else [])
            ++ entry_if (negb (ad_level a =? UNKNOW)%Z) "level" (level_ToString (ad_level a))
            ++ entry_if (negb (String.eqb (ad_formatter a) "")) "formatter" (ad_formatter a))%list.
Definition define_node (d : LogDefine) : Node :=
  Map (entry "name" (d_name d)
       :: entry_if (negb (d_level d =? UNKNOW)%Z) "level" (level_ToString (d_level d))
       ++ entry_if (negb (String.eqb (d_formatter d) "")) "formatter" (d_formatter d)
       ++ match d_appenders d with
          | [] => []
          | l => [(Scalar "appenders", Sequence (map appender_node l))]
          end)%list.
Definition print_defines (s : list LogDefine) : string := emit (seq_node (map define_node s)).

Definition cast_log_defines : LexicalCast (list LogDefine) := Cast read_defines (fun s => Some (print_defines s)).

(** [toYamlString] of the appenders, [Logger] and [LoggerManager] *)
Definition appender_toYaml (a : LogAppender) : string :=
  emit (Map (match a_kind a with
             | StdLogAppender => [entry "type" "StdoutLogAppender"]
             | FileLogAppender file => [entry "type" "FileLogAppender"; entry "file" file]
             end
             ++ entry_if (negb (a_level a =? UNKNOW)%Z) "level" (level_ToString (a_level a))
             ++ match a_formatter a with
                | Some f => entry_if (hasFormatter a) "formatter" (m_pattern f)
                | None => []
                end)%list).

(** [YAML::Load] throws [ParserException]: [None]. *)
Definition logger_toYaml (g : logs) (l : Logger) : option string :=
  aps ← map_option (fun ap => a ← g_appenders g !! ap; load (appender_toYaml a)) (l_appenders l);
  Some (emit (Map (entry "name" (l_name l)
       :: entry_if (negb (l_level l =? UNKNOW)%Z) "level" (level_ToString (l_level l))
       ++ match l_formatter l with Some f => [entry "formatter" (m_pattern f)] | None => [] end
       ++ match aps with [] => [] | _ => [(Scalar "appenders", Sequence aps)] end)%list)).

(** The loggers in the order of [std::map]. *)
Definition in_order (m : gmap string nat) : list (string * nat) :=
  merge_sort (fun x y => Is_true (String.leb x.1 y.1)) (map_to_list m).
Definition manager_toYaml (g : logs) : option string :=
  ns ← map_option (fun e => l ← g_loggers g !! e.2; s ← logger_toYaml g l; load s) (in_order (m_loggers g));
  Some (emit (seq_node ns)).
End yaml.

(** ** The listener of [LogIniter] *)

Section listener.
Context (can_open : nat -> nat -> bool) (strftime : string -> Z -> option string).

(** An appender of a definition; a type that is neither gives a null pointer. *)
Definition define_appender (a : LogAppenderDefine) (p : nat) (g : logs) : outcome logs :=
  let ap := g_next g in
  x ← (if (ad_type a =? 1)%Z then Ok (newFileLogAppender can_open ap (ad_file a))
       else if (ad_type a =? 2)%Z then Ok newStdLogAppender
       else Err (UB null_deref));
  let x := set_a_level (ad_level a) x in
  x ← (if String.eqb (ad_formatter a) "" then Ok x
       else f ← newLogFormatter (ad_formatter a);
            Ok (if m_error f then x else appender_setFormatter (Some f) x));
  let '(ap, g) := new_appender x g in
  addAppender p ap g.

Fixpoint define_appenders (l : list LogAppenderDefine) (p : nat) (g : logs) : outcome logs :=
  match l with
  | [] => Ok g
  | a :: l => g ← define_appender a p g; define_appenders l p g
  end.

(** A new or changed logger. *)
Definition apply_define (d : LogDefine) (g : logs) : outcome logs :=
  '(p, g) ← getLogger (d_name d) g;
  g ← setLevel p (d_level d) g;
  g ← (if String.eqb (d_formatter d) "" then Ok g else setFormatter_pattern p (d_formatter d) g);
  g ← clearAppenders p g;
  define_appenders (d_appenders d) p g.

Fixpoint apply_new (old new : list LogDefine) (g : logs) : outcome logs :=
  match new with
  | [] => Ok g
  | d :: new =>
      g ← (if decide (set_find d old = Some d) then Ok g else apply_define d g);
      apply_new old new g
  end.

(** A logger that is gone: level 100 and no appenders. *)
Definition disable (d : LogDefine) (g : logs) : outcome logs :=
  '(p, g) ← getLogger (d_name d) g;
  g ← setLevel p 100 g;
  clearAppenders p g.
Fixpoint disable_old (new old : list LogDefine) (g : logs) : outcome logs :=
  match old with
  | [] => Ok g
  | d :: old =>
      g ← (match set_find d new with Some _ => Ok g | None => disable d g end);
      disable_old new old g
  end.

(** The listener; where and when it runs are in the line it logs first. *)
Definition on_logs_changed (file : string) (tid fid time : Z) (thread_name : string)
    (old new : list LogDefine) (g : logs) : outcome logs :=
  g ← LOG_LEVEL can_open strftime (m_root g) INFO file 881 tid fid time thread_name "on_logger_conf_changed" g;
  g ← apply_new old new g;
  disable_old new old g.
End listener.
