(* ===== verification/LogTheorems.v ===== *)
(** * Loggers: delivery, formatters, configuration

    The invariant of loggers and appenders under every sequence of calls; who
    receives an event; what a change of the configuration makes of the loggers;
    what a log file holds. *)

From stdpp Require Import base list gmap strings sorting.
From Stdlib Require Import ZArith Lia Ascii String.
From S2P Require Import Prelude Http Config ConfigTheorems LogFormat LogPattern Log LogConfig.

Local Open Scope string_scope.

(** ** The invariant *)

(** The appenders of a logger exist, once each, and have a formatter: their own
    or the logger's. *)
Definition attached (g : logs) (l : Logger) : Prop :=
  NoDup (l_appenders l)
  /\ exists f, l_formatter l = Some f
     /\ forall ap, ap ∈ l_appenders l -> exists a fa, g_appenders g !! ap = Some a
          /\ a_formatter a = Some fa /\ (hasFormatter a = false -> fa = f).

Record logs_ok (g : logs) : Prop := {
  ok_fresh : forall p, g_next g <= p -> g_loggers g !! p = None /\ g_appenders g !! p = None;
  ok_names : forall n p, m_loggers g !! n = Some p -> exists l, g_loggers g !! p = Some l /\ l_name l = n;
  ok_listed : forall p l, g_loggers g !! p = Some l -> m_loggers g !! l_name l = Some p;
  ok_root : is_Some (g_loggers g !! m_root g);
  ok_roots : forall p l, g_loggers g !! p = Some l -> l_root l = if decide (p = m_root g) then None else Some (m_root g);
  ok_attached : forall p l, g_loggers g !! p = Some l -> attached g l;
  ok_owner : forall p q l m ap, g_loggers g !! p = Some l -> g_loggers g !! q = Some m ->
    ap ∈ l_appenders l -> ap ∈ l_appenders m -> p = q;
}.

(** *** Changing one logger or one appender *)

Lemma put_logger_ok g p l l' :
  logs_ok g -> g_loggers g !! p = Some l -> l_name l' = l_name l -> l_root l' = l_root l -> attached g l' ->
  (forall q m ap, q <> p -> g_loggers g !! q = Some m -> ap ∈ l_appenders l' -> ap ∉ l_appenders m) ->
  logs_ok (put_logger p l' g).
Proof.
  intros [Hf Hn Hl Hr Hrs Ha Ho] Hp Hname Hroot Hat Hown. split; cbn.
  - intros q Hq. destruct (Hf q Hq) as [H1 H2]. rewrite lookup_insert_ne by congruence. done.
  - intros n q Hq. destruct (Hn n q Hq) as (m & Hm & Hmn). destruct (decide (p = q)) as [<-|Hpq].
    + rewrite lookup_insert_eq. simplify_eq. eauto.
    + rewrite lookup_insert_ne by done. eauto.
  - intros q m Hq. apply lookup_insert_Some in Hq as [[<- <-]|[_ Hq]]; [rewrite Hname|]; eauto.
  - apply lookup_insert_is_Some'. by right.
  - intros q m Hq. apply lookup_insert_Some in Hq as [[<- <-]|[_ Hq]]; [rewrite Hroot|]; eauto.
  - intros q m Hq. apply lookup_insert_Some in Hq as [[<- <-]|[_ Hq]]; [exact Hat|exact (Ha q m Hq)].
  - intros q r m m' ap Hq Hr'. apply lookup_insert_Some in Hq as [[<- <-]|[Hne Hq]];
      apply lookup_insert_Some in Hr' as [[<- <-]|[Hne' Hr']]; intros H1 H2; [done| | |eauto].
    + exfalso. by eapply (Hown r m' ap).
    + exfalso. by eapply (Hown q m ap).
Qed.

Lemma put_appender_ok g ap a a' :
  logs_ok g -> g_appenders g !! ap = Some a ->
  (forall p l f, g_loggers g !! p = Some l -> ap ∈ l_appenders l -> l_formatter l = Some f ->
     exists fa, a_formatter a' = Some fa /\ (hasFormatter a' = false -> fa = f)) ->
  logs_ok (put_appender ap a' g).
Proof.
  intros [Hf Hn Hl Hr Hrs Ha Ho] Hp Hat. split; cbn; try done.
  - intros q Hq. destruct (Hf q Hq) as [H1 H2]. rewrite lookup_insert_ne by congruence. done.
  - intros p l Hl'. destruct (Ha p l Hl') as (Hd & f & Hlf & Hall). split; [done|]. exists f. split; [done|].
    intros ap' Hap. cbn. destruct (decide (ap = ap')) as [<-|Hne].
    + destruct (Hat p l f Hl' Hap Hlf) as (fa & H1 & H2). rewrite lookup_insert_eq. eauto.
    + rewrite lookup_insert_ne by done. exact (Hall ap' Hap).
Qed.

Lemma put_appender_id ap a g : g_appenders g !! ap = Some a -> put_appender ap a g = g.
Proof. intros H. destruct g. unfold put_appender. cbn in *. by rewrite insert_id. Qed.

Lemma print_ok t g : logs_ok g -> logs_ok (print t g).
Proof. intros []. by split. Qed.

(** A new object at a fresh address. *)
Lemma new_appender_ok a g : logs_ok g -> logs_ok (new_appender a g).2.
Proof.
  intros [Hf Hn Hl Hr Hrs Ha Ho]. split; cbn; try done.
  - intros q Hq. destruct (Hf q ltac:(lia)) as [H1 H2]. rewrite lookup_insert_ne by lia. done.
  - intros p l Hl'. destruct (Ha p l Hl') as (Hd & f & Hlf & Hall). split; [done|]. exists f. split; [done|].
    intros ap Hap. destruct (Hall ap Hap) as (b & fa & Hb & Hrest). exists b, fa. cbn.
    rewrite lookup_insert_ne; [done|]. intros <-. destruct (Hf (g_next g) ltac:(lia)). congruence.
Qed.

(** *** The calls *)

Lemma newLogFormatter_total s : exists f, newLogFormatter s = Ok f.
Proof. destruct (init_reads s) as (v & e & _ & H). eauto. Qed.

Lemma log_pattern_kept s f : newLogFormatter s = Ok f -> m_pattern f = s.
Proof. destruct (init_reads s) as (v & e & _ & ->). by intros [= <-]. Qed.

Lemma newLogger_total n : exists f, newLogger n = Ok (mkLogger n DEBUG [] (Some f) None).
Proof. unfold newLogger. destruct (newLogFormatter_total default_pattern) as [f ->]. by exists f. Qed.

Lemma getLogger_ok n g : logs_ok g -> exists p g', getLogger n g = Ok (p, g') /\ logs_ok g'
  /\ m_loggers g' !! n = Some p /\ g_appenders g' = g_appenders g /\ m_root g' = m_root g
  /\ g_cout g' = g_cout g
  /\ (forall q l, g_loggers g !! q = Some l -> g_loggers g' !! q = Some l)
  /\ (forall m q, m_loggers g !! m = Some q -> m_loggers g' !! m = Some q)
  /\ (forall m, m <> n -> m_loggers g' !! m = m_loggers g !! m).
Proof.
  intros H. unfold getLogger. destruct (m_loggers g !! n) as [p|] eqn:E; [by exists p, g|].
  destruct (newLogger_total n) as [f ->]. cbn. eexists _, _. split; [done|].
  pose proof H as [Hf Hn Hl Hr Hrs Ha Ho]. destruct (Hf (g_next g) ltac:(lia)) as [Hfl Hfa].
  assert (forall q l, g_loggers g !! q = Some l -> q <> g_next g) as Hne by (intros q l Hq ->; congruence).
  split; [split; cbn|split_and!; cbn; try done].
  - intros q Hq. rewrite lookup_insert_ne by lia. apply Hf. lia.
  - intros m q Hq. apply lookup_insert_Some in Hq as [[<- <-]|[_ Hq]].
    + rewrite lookup_insert_eq. eauto.
    + destruct (Hn m q Hq) as (l & Hq' & Hm). rewrite lookup_insert_ne; [eauto|]. symmetry. by eapply Hne.
  - intros q l Hq. apply lookup_insert_Some in Hq as [[<- <-]|[_ Hq]]; [by rewrite lookup_insert_eq|].
    cbn. specialize (Hl q l Hq). rewrite lookup_insert_ne by congruence. done.
  - apply lookup_insert_is_Some'. by right.
  - intros q l Hq. apply lookup_insert_Some in Hq as [[<- <-]|[_ Hq]]; [|eauto]. cbn.
    destruct Hr as [r Hr]. rewrite decide_False; [done|]. intros E'. rewrite E' in Hfl. congruence.
  - intros q l Hq. apply lookup_insert_Some in Hq as [[<- <-]|[_ Hq]]; [|exact (Ha q l Hq)].
    split; [constructor|]. exists f. split; [done|]. intros ap Hap. by apply elem_of_nil in Hap.
  - intros q r l m ap Hq Hr'. apply lookup_insert_Some in Hq as [[<- <-]|[Hn1 Hq]];
      apply lookup_insert_Some in Hr' as [[<- <-]|[Hn2 Hr']]; intros H1 H2; try done; try (by apply elem_of_nil in H1).
    + by apply elem_of_nil in H2.
    + eauto.
  - by rewrite lookup_insert_eq.
  - intros q l Hq. rewrite lookup_insert_ne; [done|]. symmetry. by eapply Hne.
  - intros m q Hq. rewrite lookup_insert_ne by congruence. done.
  - intros m Hm. by rewrite lookup_insert_ne.
Qed.

Lemma setLevel_ok p l x g : logs_ok g -> g_loggers g !! p = Some l ->
  setLevel p x g = Ok (put_logger p (set_l_level x l) g) /\ logs_ok (put_logger p (set_l_level x l) g).
Proof.
  intros H Hp. unfold setLevel, the_logger. rewrite Hp. split; [done|].
  eapply put_logger_ok; try done; [exact (ok_attached g H p l Hp)|].
  intros q m ap Hq Hm H1 H2. apply Hq. by eapply (ok_owner g H q p m l ap).
Qed.

Lemma shrink_ok p l aps g : logs_ok g -> g_loggers g !! p = Some l -> NoDup aps -> (forall ap, ap ∈ aps -> ap ∈ l_appenders l) ->
  logs_ok (put_logger p (set_l_appenders aps l) g).
Proof.
  intros H Hp Hd Hs. eapply put_logger_ok; try done.
  - destruct (ok_attached g H p l Hp) as (_ & f & Hf & Ha). split; [done|]. exists f. split; [done|]. cbn. eauto.
  - intros q m ap Hq Hm H1 H2. apply Hq. eapply (ok_owner g H q p m l ap); eauto.
Qed.

Lemma erase_first_NoDup ap l : NoDup l -> NoDup (erase_first ap l) /\ forall x, x ∈ erase_first ap l -> x ∈ l.
Proof.
  induction 1 as [|x l Hx Hd [IH1 IH2]]; cbn; [by split; [constructor|]|].
  destruct (x =? ap)%nat; [split; [done|set_solver]|]. split; [constructor; [|done]|]; set_solver.
Qed.

Lemma addAppender_ok p l ap a g : logs_ok g -> g_loggers g !! p = Some l -> g_appenders g !! ap = Some a ->
  (forall q m, g_loggers g !! q = Some m -> ap ∉ l_appenders m) ->
  (hasFormatter a = false -> a_formatter a = None) ->
  exists f, l_formatter l = Some f /\
  let a' := match a_formatter a with None => set_a_formatter (hasFormatter a) (Some f) a | Some _ => a end in
  exists g', addAppender p ap g = Ok g' /\ logs_ok g'
    /\ g_loggers g' = <[p := set_l_appenders (l_appenders l ++ [ap])%list l]> (g_loggers g)
    /\ g_appenders g' = <[ap := a']> (g_appenders g)
    /\ m_loggers g' = m_loggers g /\ m_root g' = m_root g /\ g_cout g' = g_cout g /\ g_next g' = g_next g.
Proof.
  intros H Hp Hap Hfree Hown. destruct (ok_attached g H p l Hp) as (Hd & f & Hf & Hat). exists f. split; [done|].
  intros a'. set (g1 := put_appender ap a' g).
  exists (put_logger p (set_l_appenders (l_appenders l ++ [ap])%list l) g1). split_and!; try done.
  - unfold addAppender, the_logger, the_appender. rewrite Hp. cbn. rewrite Hap. cbn. subst g1 a'.
    destruct (a_formatter a) eqn:Ea; [by rewrite put_appender_id|by rewrite Hf].
  - assert (logs_ok g1) as H1.
    { eapply put_appender_ok; try done. intros q m f' Hq Hin _. by destruct (Hfree q m Hq). }
    eapply put_logger_ok; try done.
    + split; cbn.
      * apply NoDup_app. split_and!; [done| |by apply NoDup_singleton]. intros x Hx ->%list_elem_of_singleton.
        by apply (Hfree p l Hp).
      * exists f. split; [done|]. intros x [Hx|Hx%list_elem_of_singleton]%elem_of_app.
        -- destruct (Hat x Hx) as (b & fb & Hb & Hr). exists b, fb. rewrite lookup_insert_ne; [done|].
           intros <-. by apply (Hfree p l Hp).
        -- subst x. exists a'. subst a'. rewrite lookup_insert_eq. destruct (a_formatter a) as [fa|] eqn:Ea.
           ++ exists fa. split_and!; [done|done|]. intros E. by specialize (Hown E).
           ++ exists f. by split_and!.
    + intros q m x Hq Hm. cbn. intros [Hx|Hx%list_elem_of_singleton]%elem_of_app.
      * intros Hx'. apply Hq. by eapply (ok_owner g H q p m l x).
      * subst x. exact (Hfree q m Hm).
Qed.

(** All but the appenders and the console stay. *)
Definition frame (g g' : logs) : Prop :=
  g_loggers g' = g_loggers g /\ m_loggers g' = m_loggers g /\ m_root g' = m_root g /\ g_next g' = g_next g.

Definition inherit (f : option LogFormatter) (a : LogAppender) : LogAppender :=
  if hasFormatter a then a else set_a_formatter false f a.

Lemma inherit_each_spec f aps : forall g, (forall ap, ap ∈ aps -> is_Some (g_appenders g !! ap)) ->
  exists g', inherit_each f aps g = Ok g' /\ frame g g' /\ g_cout g' = g_cout g
    /\ forall ap, g_appenders g' !! ap
       = if decide (ap ∈ aps) then inherit f <$> (g_appenders g !! ap) else g_appenders g !! ap.
Proof.
  induction aps as [|x aps IH]; intros g Hall.
  { exists g. split_and!; try done. }
  cbn [inherit_each]. destruct (Hall x ltac:(set_solver)) as [a Ha]. unfold the_appender. rewrite Ha. cbn [mbind outcome_bind].
  set (g1 := if hasFormatter a then g else put_appender x (set_a_formatter false f a) g).
  assert (g1 = put_appender x (inherit f a) g) as Hg1.
  { subst g1. unfold inherit. destruct (hasFormatter a); [by rewrite put_appender_id|done]. }
  destruct (IH g1) as (g' & H1 & (F1 & F2 & F3 & F4) & H2 & H3).
  { intros ap Hap. rewrite Hg1. cbn. apply lookup_insert_is_Some'. right. apply Hall. set_solver. }
  exists g'. rewrite Hg1 in *. split_and!; try done. intros ap. rewrite H3. cbn.
  destruct (decide (x = ap)) as [<-|Hne].
  - rewrite lookup_insert_eq, Ha. rewrite (decide_True (P := x ∈ x :: aps)) by set_solver.
    destruct (decide (x ∈ aps)); [|done]. cbn. unfold inherit. destruct (hasFormatter a) eqn:E; [by rewrite E|done].
  - rewrite lookup_insert_ne by done. destruct (decide (ap ∈ aps)), (decide (ap ∈ x :: aps)); set_solver.
Qed.

Lemma setFormatter_ok p l f g : logs_ok g -> g_loggers g !! p = Some l ->
  exists g', setFormatter p (Some f) g = Ok g' /\ logs_ok g'
    /\ g_loggers g' = <[p := set_l_formatter (Some f) l]> (g_loggers g)
    /\ m_loggers g' = m_loggers g /\ m_root g' = m_root g /\ g_next g' = g_next g /\ g_cout g' = g_cout g
    /\ forall ap, g_appenders g' !! ap
       = if decide (ap ∈ l_appenders l) then inherit (Some f) <$> (g_appenders g !! ap) else g_appenders g !! ap.
Proof.
  intros H Hp. destruct (ok_attached g H p l Hp) as (Hd & f0 & Hf0 & Hat). unfold setFormatter, the_logger. rewrite Hp.
  cbn [mbind outcome_bind]. set (g1 := put_logger p (set_l_formatter (Some f) l) g).
  destruct (inherit_each_spec (Some f) (l_appenders l) g1) as (g' & H1 & (F1 & F2 & F3 & F4) & Hc & H2).
  { intros ap Hap. destruct (Hat ap Hap) as (a & _ & Ha & _). cbn. eauto. }
  exists g'. split_and!; try done. pose proof H as [Hf Hn Hl Hr Hrs Ha Ho].
  assert (logs_ok (put_logger p (set_l_formatter (Some f) l) g) \/ True) as _ by (by right).
  split.
  - intros q Hq. rewrite F4 in Hq. cbn in Hq. destruct (Hf q Hq) as [Q1 Q2]. rewrite F1, H2. cbn.
    rewrite lookup_insert_ne, Q2 by congruence. destruct (decide _); done.
  - intros n q Hq. rewrite F2 in Hq. destruct (Hn n q Hq) as (m & Hm & Hmn). rewrite F1. cbn.
    destruct (decide (p = q)) as [<-|Hpq]; [rewrite lookup_insert_eq; simplify_eq; eauto|].
    rewrite lookup_insert_ne by done. eauto.
  - intros q m Hq. rewrite F1 in Hq. rewrite F2. cbn in *. apply lookup_insert_Some in Hq as [[<- <-]|[_ Hq]]; cbn; eauto.
  - rewrite F1, F3. cbn. apply lookup_insert_is_Some'. by right.
  - intros q m Hq. rewrite F1 in Hq. rewrite F3. cbn in *. apply lookup_insert_Some in Hq as [[<- <-]|[_ Hq]]; cbn; eauto.
  - intros q m Hq. rewrite F1 in Hq. cbn in Hq. apply lookup_insert_Some in Hq as [[<- <-]|[Hne Hq]].
    + split; [done|]. exists f. split; [done|]. intros ap Hap. destruct (Hat ap Hap) as (a & fa & Ea & Efa & _).
      rewrite H2, decide_True by done. cbn. rewrite Ea. cbn. unfold inherit. destruct (hasFormatter a) eqn:Eh.
      * exists a, fa. split_and!; try done. intros. congruence.
      * eexists _, f. by split_and!.
    + destruct (Ha q m Hq) as (Hd' & f' & Hf' & Hat'). split; [done|]. exists f'. split; [done|]. intros ap Hap.
      rewrite H2, decide_False; [exact (Hat' ap Hap)|]. intros Hin. apply Hne. by eapply (Ho p q l m ap).
  - intros q r m m' ap Hq Hr' H3 H4. rewrite F1 in Hq, Hr'. cbn in Hq, Hr'.
    apply lookup_insert_Some in Hq as [[<- <-]|[Hne Hq]]; apply lookup_insert_Some in Hr' as [[<- <-]|[Hne' Hr']];
      cbn in *; eauto.
Qed.

Lemma setFormatter_pattern_ok p l s g : logs_ok g -> g_loggers g !! p = Some l ->
  exists g' fo, setFormatter_pattern p s g = Ok g' /\ logs_ok g'
    /\ g_loggers g' = <[p := set_l_formatter fo l]> (g_loggers g)
    /\ m_loggers g' = m_loggers g /\ m_root g' = m_root g /\ g_next g' = g_next g /\ g_cout g' = g_cout g
    /\ (forall f, newLogFormatter s = Ok f -> fo = if m_error f then l_formatter l else Some f)
    /\ forall ap, ap ∉ l_appenders l -> g_appenders g' !! ap = g_appenders g !! ap.
Proof.
  intros H Hp. unfold setFormatter_pattern. destruct (newLogFormatter_total s) as [f Hf]. rewrite Hf. cbn [mbind outcome_bind].
  destruct (m_error f) eqn:E.
  - exists g, (l_formatter l). split_and!; try done.
    + rewrite insert_id; [done|]. rewrite Hp. by destruct l.
    + intros f' [= <-]. by rewrite E.
  - destruct (setFormatter_ok p l f g H Hp) as (g' & H1 & H2 & H3 & H4 & H5 & H6 & H7 & H8). exists g', (Some f).
    split_and!; try done; [intros f' [= <-]; by rewrite E|]. intros ap Hap. by rewrite H8, decide_False.
Qed.

(** ** Delivery *)

Lemma text_app_nil_r s : s ++ "" = s.
Proof. induction s as [|c s IH]; [done|]. change (String c (s ++ "") = String c s). by rewrite IH. Qed.
Lemma text_app_assoc s t u : (s ++ t) ++ u = s ++ (t ++ u).
Proof. induction s as [|c s IH]; [done|]. change (String c ((s ++ t) ++ u) = String c (s ++ t ++ u)). by rewrite IH. Qed.

Lemma Forall2_impl_l {A B} (P Q : A -> B -> Prop) l k :
  Forall2 P l k -> (forall x y, x ∈ l -> P x y -> Q x y) -> Forall2 Q l k.
Proof. induction 1 as [|x y l k H _ IH]; intros HQ; constructor; [|apply IH; intros]; apply HQ; set_solver. Qed.

Lemma logger_name_frame g g' : frame g g' -> logger_name g' = logger_name g.
Proof. intros (H & _). unfold logger_name. by rewrite H. Qed.

Section log.
Context (can_open : nat -> nat -> bool) (strftime : string -> Z -> option string).

(** The dates a formatter prints at a time fit in their buffers. *)
Definition item_fits (t : Z) (i : FormatItem) : Prop :=
  match i with DateTimeFormatItem m_format => is_Some (strftime m_format (i64 t)) | _ => True end.
Definition fits (t : Z) (f : LogFormatter) : Prop := Forall (item_fits t) (m_items f).

Lemma items_format_total name_of items level event : Forall (item_fits (e_time event)) items ->
  exists t, items_format strftime name_of items level event = Ok t.
Proof.
  induction 1 as [|i items Hi _ [t IH]]; [by exists ""|]. cbn. rewrite IH.
  destruct i; cbn; eauto. destruct Hi as [u ->]. cbn. eauto.
Qed.

(** What logging leaves of an appender. *)
Definition same_but_stream (a a' : LogAppender) : Prop :=
  a_kind a' = a_kind a /\ a_level a' = a_level a /\ hasFormatter a' = hasFormatter a /\ a_formatter a' = a_formatter a.

Lemma appender_log_total name_of p a fa level event :
  a_formatter a = Some fa -> ((a_level a <= level)%Z -> fits (e_time event) fa) ->
  exists a' t, appender_log can_open strftime name_of p a level event = Ok (a', t) /\ same_but_stream a a'.
Proof.
  intros Hf Hs. unfold appender_log, std_log, file_log, appender_text, formatter_format.
  destruct (Z.leb_spec (a_level a) level) as [Hl|Hl]; [|destruct (a_kind a); by eexists _, _].
  destruct (items_format_total name_of (m_items fa) level event (Hs Hl)) as [t Ht]. destruct (a_kind a) eqn:Ek.
  - rewrite Hf, Ht. cbn. by eexists _, _.
  - destruct (u64 (m_lastTime a + 3) <=? e_time event)%Z; cbn; rewrite Hf, Ht; cbn; by eexists _, _.
Qed.

(** Every receiver handles the event once. *)
Lemma log_each_spec level event aps : forall g,
  NoDup aps ->
  (forall ap, ap ∈ aps -> exists a fa, g_appenders g !! ap = Some a /\ a_formatter a = Some fa
     /\ ((a_level a <= level)%Z -> fits (e_time event) fa)) ->
  exists g' outs, log_each can_open strftime aps level event g = Ok g' /\ frame g g'
    /\ Forall2 (fun ap out => exists a, g_appenders g !! ap = Some a
         /\ appender_log can_open strftime (logger_name g) ap a level event = Ok out
         /\ same_but_stream a out.1 /\ g_appenders g' !! ap = Some out.1) aps outs
    /\ (forall ap, ap ∉ aps -> g_appenders g' !! ap = g_appenders g !! ap)
    /\ g_cout g' = g_cout g ++ joined (map snd outs).
Proof.
  induction aps as [|x aps IH]; intros g Hd Hall.
  { exists g, []. split_and!; try done. cbn [joined foldr map]. by rewrite text_app_nil_r. }
  inversion Hd as [|? ? Hx Hd']; subst. destruct (Hall x ltac:(set_solver)) as (a & fa & Ha & Hfa & Hs).
  destruct (appender_log_total (logger_name g) x a fa level event Hfa Hs) as (a' & t & Hlog & Hsame).
  cbn [log_each]. unfold the_appender. rewrite Ha. cbn [mbind outcome_bind]. rewrite Hlog. cbn [mbind outcome_bind].
  set (g1 := print t (put_appender x a' g)).
  destruct (IH g1 Hd') as (g' & outs & H1 & HF & H2 & H3 & H4).
  { intros ap Hap. destruct (Hall ap ltac:(set_solver)) as (b & fb & Hb & Hfb). exists b, fb. cbn.
    rewrite lookup_insert_ne; [done|]. by intros <-. }
  exists g', ((a', t) :: outs). split_and!; try done.
  - constructor.
    + exists a. split_and!; try done. rewrite (H3 x Hx). cbn. by rewrite lookup_insert_eq.
    + eapply Forall2_impl_l; [exact H2|]. intros ap out Hin (b & Hb & Hrest). exists b. cbn in Hb.
      rewrite lookup_insert_ne in Hb by (by intros <-). split; [done|].
      by rewrite <- (logger_name_frame g g1).
  - intros ap Hap. rewrite H3 by set_solver. cbn. apply lookup_insert_ne. set_solver.
  - rewrite H4. cbn [map snd]. subst g1. cbn [g_cout print put_appender]. by rewrite text_app_assoc.
Qed.

(** Logging changes streams only. *)
Definition streams_only (g g' : logs) : Prop :=
  frame g g' /\ forall ap, match g_appenders g !! ap, g_appenders g' !! ap with
    | Some a, Some a' => same_but_stream a a'
    | None, None => True
    | _, _ => False
    end.

Lemma streams_only_refl g : streams_only g g.
Proof. split; [done|]. intros ap. by destruct (g_appenders g !! ap). Qed.

Lemma streams_only_ok g g' : streams_only g g' -> logs_ok g -> logs_ok g'.
Proof.
  intros [(F1 & F2 & F3 & F4) Hs] [Hf Hn Hl Hr Hrs Ha Ho]. split; rewrite ?F1, ?F2, ?F3, ?F4; try done.
  - intros p Hp. destruct (Hf p Hp) as [H1 H2]. split; [done|]. specialize (Hs p). rewrite H2 in Hs.
    by destruct (g_appenders g' !! p).
  - intros p l Hp. destruct (Ha p l Hp) as (Hd & f & Hlf & Hat). split; [done|]. exists f. split; [done|].
    intros ap Hap. destruct (Hat ap Hap) as (a & fa & Ea & Efa & Hi). specialize (Hs ap). rewrite Ea in Hs.
    destruct (g_appenders g' !! ap) as [a'|]; [|done]. destruct Hs as (_ & _ & E1 & E2). exists a', fa.
    by rewrite E1, E2.
Qed.

Lemma log_each_streams level event aps g g' outs :
  frame g g' ->
  Forall2 (fun ap out => exists a, g_appenders g !! ap = Some a
         /\ appender_log can_open strftime (logger_name g) ap a level event = Ok out
         /\ same_but_stream a out.1 /\ g_appenders g' !! ap = Some out.1) aps outs ->
  (forall ap, ap ∉ aps -> g_appenders g' !! ap = g_appenders g !! ap) -> streams_only g g'.
Proof.
  intros HF H2 H3. split; [done|]. intros ap. destruct (decide (ap ∈ aps)) as [Hin|Hin].
  - apply list_elem_of_lookup in Hin as [i Hi]. destruct (Forall2_lookup_l _ _ _ _ _ H2 Hi) as (out & _ & a & -> & _ & Hs & ->).
    done.
  - rewrite H3 by done. by destruct (g_appenders g !! ap).
Qed.

(** Who gets an event logged at a logger. *)
Definition receivers (p : nat) (level : Z) (g : logs) : list nat :=
  let own q := match g_loggers g !! q with
               | Some l => if (l_level l <=? level)%Z then l_appenders l else []
               | None => []
               end in
  match g_loggers g !! p with
  | Some l => match own p, l_root l with
              | [], Some r => if (l_level l <=? level)%Z then own r else []
              | aps, _ => aps
              end
  | None => []
  end.

(** The appenders that print an event at a level and a time have room for its dates. *)
Definition dates_fit (p : nat) (level t : Z) (g : logs) : Prop :=
  forall ap a f, ap ∈ receivers p level g -> g_appenders g !! ap = Some a -> a_formatter a = Some f ->
    (a_level a <= level)%Z -> fits t f.

Definition item_fitsb (t : Z) (i : FormatItem) : bool :=
  match i with DateTimeFormatItem m_format => bool_decide (is_Some (strftime m_format (i64 t))) | _ => true end.
Definition dates_fitb (p : nat) (level t : Z) (g : logs) : bool :=
  forallb (fun ap => match g_appenders g !! ap with
    | Some a => match a_formatter a with Some f => forallb (item_fitsb t) (m_items f) | None => true end
    | None => true
    end) (receivers p level g).

Lemma dates_fitb_sound p level t g : dates_fitb p level t g = true -> dates_fit p level t g.
Proof.
  unfold dates_fitb. rewrite forallb_forall. intros H ap a f Hap Ha Hf _. specialize (H ap ltac:(by apply list_elem_of_In)).
  rewrite Ha, Hf, forallb_forall in H. apply Forall_forall. intros i Hi. specialize (H i ltac:(by apply list_elem_of_In)).
  destruct i; try done. by apply bool_decide_eq_true in H.
Qed.

Lemma log_receivers p l level event g : logs_ok g -> g_loggers g !! p = Some l ->
  log can_open strftime p level event g = log_each can_open strftime (receivers p level g) level event g.
Proof.
  intros H Hp. unfold log, log_chain, receivers, the_logger. rewrite Hp. cbn [mbind outcome_bind].
  destruct (l_level l <=? level)%Z eqn:El.
  2: { by destruct (l_root l). }
  destruct (l_appenders l) as [|ap aps] eqn:Ea; [|done]. rewrite (ok_roots g H p l Hp). destruct (decide (p = m_root g)); [done|].
  destruct (ok_root g H) as [lr Hr]. rewrite Hr. cbn [mbind outcome_bind]. destruct (l_level lr <=? level)%Z; [|done].
  destruct (l_appenders lr) as [|ap aps]; [|done]. by rewrite (ok_roots g H _ _ Hr), decide_True.
Qed.

Lemma receivers_attached p level g : logs_ok g ->
  NoDup (receivers p level g)
  /\ forall ap, ap ∈ receivers p level g -> exists a fa, g_appenders g !! ap = Some a /\ a_formatter a = Some fa.
Proof.
  intros H. set (P := fun aps : list nat => NoDup aps /\ forall ap, ap ∈ aps ->
    exists a fa, g_appenders g !! ap = Some a /\ a_formatter a = Some fa). change (P (receivers p level g)).
  assert (P []) as Hnil by (split; [constructor|]; intros ap Hap; by apply elem_of_nil in Hap).
  assert (forall q, P (match g_loggers g !! q with
    | Some l => if (l_level l <=? level)%Z then l_appenders l else [] | None => [] end)) as Hown.
  { intros q. destruct (g_loggers g !! q) as [l|] eqn:E; [|done]. destruct (l_level l <=? level)%Z; [|done].
    destruct (ok_attached g H q l E) as (Hd & f & _ & Ha). split; [done|]. intros ap Hap.
    destruct (Ha ap Hap) as (a & fa & H1 & H2 & _). eauto. }
  unfold receivers. specialize (Hown p) as Hp. destruct (g_loggers g !! p) as [l|]; [|done].
  destruct (if (l_level l <=? level)%Z then l_appenders l else []); [|by destruct (l_root l)].
  destruct (l_root l) as [r|]; [|done]. by destruct (l_level l <=? level)%Z.
Qed.

Lemma log_spec p l level event g :
  logs_ok g -> g_loggers g !! p = Some l -> dates_fit p level (e_time event) g ->
  exists g' outs, log can_open strftime p level event g = Ok g' /\ streams_only g g'
    /\ Forall2 (fun ap out => exists a, g_appenders g !! ap = Some a
         /\ appender_log can_open strftime (logger_name g) ap a level event = Ok out
         /\ g_appenders g' !! ap = Some out.1) (receivers p level g) outs
    /\ (forall ap, ap ∉ receivers p level g -> g_appenders g' !! ap = g_appenders g !! ap)
    /\ g_cout g' = g_cout g ++ joined (map snd outs).
Proof.
  intros H Hp Hs. rewrite (log_receivers p l level event g H Hp). destruct (receivers_attached p level g H) as [Hd Ha].
  destruct (log_each_spec level event _ g Hd) as (g' & outs & H1 & H2 & H3 & H4 & H5).
  { intros ap Hap. destruct (Ha ap Hap) as (a & fa & E1 & E2). exists a, fa. split_and!; [done..|]. by eapply Hs. }
  exists g', outs.
  split_and!; try done; [by eapply log_each_streams|]. eapply Forall2_impl; [exact H3|]. naive_solver.
Qed.

Lemma LOG_LEVEL_ok p l level file line tid fid time tn content g :
  logs_ok g -> g_loggers g !! p = Some l -> dates_fit p level (u64 time) g ->
  exists g', LOG_LEVEL can_open strftime p level file line tid fid time tn content g = Ok g' /\ streams_only g g'.
Proof.
  intros H Hp Hs. unfold LOG_LEVEL, the_logger. rewrite Hp. cbn [mbind outcome_bind].
  destruct (l_level l <=? level)%Z; [|exists g; split; [done|apply streams_only_refl]].
  destruct (log_spec p l level (event_format (Some content) (newLogEvent p level file line 0 tid fid time tn)) g H Hp Hs)
    as (g' & outs & H1 & H2 & _). eauto.
Qed.
End log.

(** ** The configuration *)

Definition accepted (pattern : string) : bool :=
  match newLogFormatter pattern with Ok f => negb (m_error f) | Err _ => false end.
(** The pattern a definition asks for, when it can be used. *)
Definition wanted (pattern : string) : option string :=
  if negb (String.eqb pattern "") && accepted pattern then Some pattern else None.

Definition spec_appender (d : LogAppenderDefine) : appender_kind * Z * option string :=
  (if (ad_type d =? 1)%Z then FileLogAppender (ad_file d) else StdLogAppender, ad_level d, wanted (ad_formatter d)).
Definition appender_view (a : LogAppender) : appender_kind * Z * option string :=
  (a_kind a, a_level a, if hasFormatter a then m_pattern <$> a_formatter a else None).

(** A logger as its definition says. *)
Definition follows (d : LogDefine) (g : logs) : Prop :=
  exists p l, m_loggers g !! d_name d = Some p /\ g_loggers g !! p = Some l /\ l_level l = d_level d
    /\ Forall2 (fun ap x => exists a, g_appenders g !! ap = Some a /\ appender_view a = spec_appender x)
         (l_appenders l) (d_appenders d)
    /\ forall s, wanted (d_formatter d) = Some s -> m_pattern <$> l_formatter l = Some s.

(** The loggers of other names stay, with their appenders. *)
Definition keeps (n : string) (g g' : logs) : Prop :=
  m_root g' = m_root g /\
  forall m q l, m <> n -> m_loggers g !! m = Some q -> g_loggers g !! q = Some l ->
    m_loggers g' !! m = Some q /\ g_loggers g' !! q = Some l
    /\ forall ap, ap ∈ l_appenders l -> g_appenders g' !! ap = g_appenders g !! ap.

Lemma keeps_refl n g : keeps n g g.
Proof. by split. Qed.

Lemma keeps_trans n g1 g2 g3 : keeps n g1 g2 -> keeps n g2 g3 -> keeps n g1 g3.
Proof.
  intros [R1 H1] [R2 H2]. split; [congruence|]. intros m q l Hm Hq Hl. destruct (H1 m q l Hm Hq Hl) as (A & B & C).
  destruct (H2 m q l Hm A B) as (A' & B' & C'). split_and!; try done. intros ap Hap. by rewrite C', C.
Qed.

Lemma follows_keeps n g g' d : keeps n g g' -> d_name d <> n -> follows d g -> follows d g'.
Proof.
  intros [_ H] Hn (p & l & Hp & Hl & Hlev & Happ & Hfmt). destruct (H _ _ _ Hn Hp Hl) as (A & B & C).
  exists p, l. split_and!; try done. eapply Forall2_impl_l; [exact Happ|]. intros ap x Hap. cbn. by rewrite C.
Qed.

Lemma follows_streams g g' d : streams_only g g' -> follows d g -> follows d g'.
Proof.
  intros [(F1 & F2 & _) Hs] (p & l & Hp & Hl & Hlev & Happ & Hfmt). exists p, l. rewrite F1, F2. split_and!; try done.
  eapply Forall2_impl; [exact Happ|]. intros ap x (a & Ha & Hv). specialize (Hs ap). rewrite Ha in Hs.
  destruct (g_appenders g' !! ap) as [a'|]; [|done]. exists a'. split; [done|]. destruct Hs as (E1 & E2 & E3 & E4).
  rewrite <- Hv. unfold appender_view. by rewrite E1, E2, E3, E4.
Qed.

(** Changes to the logger at [p] and to appenders no other logger has. *)
Lemma keeps_put n p l g g' : logs_ok g -> m_loggers g !! n = Some p -> g_loggers g !! p = Some l ->
  m_loggers g' = m_loggers g -> m_root g' = m_root g ->
  (forall q, q <> p -> g_loggers g' !! q = g_loggers g !! q) ->
  (forall ap, ap ∉ l_appenders l -> is_Some (g_appenders g !! ap) -> g_appenders g' !! ap = g_appenders g !! ap) ->
  keeps n g g'.
Proof.
  intros H Hn Hp Hm Hr Hl Ha. split; [done|]. intros m q l' Hne Hq Hl'.
  assert (q <> p) as Hqp.
  { intros ->. destruct (ok_names g H m p Hq) as (x & Hx & <-). destruct (ok_names g H n p Hn) as (y & Hy & <-). congruence. }
  split_and!; [by rewrite Hm|by rewrite Hl|]. intros ap Hap. apply Ha.
  - intros Hin. apply Hqp. by eapply (ok_owner g H q p l' l ap).
  - destruct (ok_attached g H q l' Hl') as (_ & f & _ & Hat). destruct (Hat ap Hap) as (a & _ & E & _). eauto.
Qed.

Definition good_type (d : LogAppenderDefine) : Prop := ad_type d = 1%Z \/ ad_type d = 2%Z.

Section listener.
Context (can_open : nat -> nat -> bool) (strftime : string -> Z -> option string).

(** The appender of a definition before it is added. *)
Lemma defined_appender d ap : good_type d -> exists x x',
  (if (ad_type d =? 1)%Z then Ok (newFileLogAppender can_open ap (ad_file d))
   else if (ad_type d =? 2)%Z then Ok newStdLogAppender else Err (UB null_deref)) = Ok x
  /\ (if String.eqb (ad_formatter d) "" then Ok (set_a_level (ad_level d) x)
      else f ← newLogFormatter (ad_formatter d);
           Ok (if m_error f then set_a_level (ad_level d) x else appender_setFormatter (Some f) (set_a_level (ad_level d) x)))
     = Ok x'
  /\ hasFormatter x' = (match a_formatter x' with Some _ => true | None => false end)
  /\ appender_view x' = spec_appender d.
Proof.
  intros Ht. set (x := if (ad_type d =? 1)%Z then newFileLogAppender can_open ap (ad_file d) else newStdLogAppender).
  assert (a_kind x = (if (ad_type d =? 1)%Z then FileLogAppender (ad_file d) else StdLogAppender)
    /\ hasFormatter x = false /\ a_formatter x = None) as (K1 & K2 & K3).
  { subst x. by destruct (ad_type d =? 1)%Z. }
  exists x. unfold spec_appender, wanted, accepted. destruct (newLogFormatter_total (ad_formatter d)) as [f Hf]. rewrite Hf.
  pose proof (log_pattern_kept _ _ Hf) as Hpat.
  exists (if String.eqb (ad_formatter d) "" || m_error f then set_a_level (ad_level d) x
          else appender_setFormatter (Some f) (set_a_level (ad_level d) x)).
  split; [subst x; by destruct Ht as [-> | ->]|]. split.
  { destruct (String.eqb (ad_formatter d) ""); [done|]. cbn [mbind outcome_bind orb]. by destruct (m_error f). }
  destruct (String.eqb (ad_formatter d) ""); cbn [negb andb orb].
  - unfold appender_view. cbn. rewrite K1, K2, K3. by split.
  - destruct (m_error f); cbn; unfold appender_view; cbn; rewrite ?K1, ?K2, ?K3; cbn; by rewrite ?Hpat.
Qed.

Lemma define_appender_ok d n p l g :
  good_type d -> logs_ok g -> m_loggers g !! n = Some p -> g_loggers g !! p = Some l ->
  exists g' a, define_appender can_open d p g = Ok g' /\ logs_ok g' /\ keeps n g g'
    /\ m_loggers g' = m_loggers g
    /\ g_loggers g' !! p = Some (set_l_appenders (l_appenders l ++ [g_next g])%list l)
    /\ g_appenders g' = <[g_next g := a]> (g_appenders g) /\ g_next g' = S (g_next g)
    /\ appender_view a = spec_appender d.
Proof.
  intros Ht H Hn Hp. destruct (defined_appender d (g_next g) Ht) as (x & x' & H1 & H2 & H3 & H4).
  unfold define_appender. rewrite H1. cbn [mbind outcome_bind]. rewrite H2. cbn [mbind outcome_bind new_appender].
  set (g1 := bump (put_appender (g_next g) x' g)).
  assert (logs_ok g1) as Hg1 by exact (new_appender_ok x' g H).
  destruct (ok_fresh g H (g_next g) ltac:(lia)) as [_ Hfresh].
  destruct (addAppender_ok p l (g_next g) x' g1 Hg1 Hp) as (f & Hf & g' & E1 & E2 & E3 & E4 & E5 & E6 & E7 & E8).
  { cbn. apply lookup_insert_eq. }
  { intros q m Hq Hin. destruct (ok_attached g H q m Hq) as (_ & f & _ & Ha). destruct (Ha _ Hin) as (b & _ & Hb & _). congruence. }
  { rewrite H3. by destruct (a_formatter x'). }
  eexists g', _. split; [done|]. split; [done|]. split; [|split_and!].
  - eapply keeps_put; try done.
    + intros q Hq. rewrite E3. by rewrite lookup_insert_ne.
    + intros ap _ [b Hb]. rewrite E4. cbn. rewrite !lookup_insert_ne; congruence.
  - done.
  - rewrite E3. by rewrite lookup_insert_eq.
  - rewrite E4. cbn. by rewrite insert_insert_eq.
  - done.
  - rewrite <- H4. unfold appender_view. destruct (a_formatter x') eqn:E; [by rewrite E|]. cbn. by rewrite H3.
Qed.

Lemma define_appenders_ok n p ds : forall l g,
  Forall good_type ds -> logs_ok g -> m_loggers g !! n = Some p -> g_loggers g !! p = Some l ->
  exists g' aps, define_appenders can_open ds p g = Ok g' /\ logs_ok g' /\ keeps n g g'
    /\ m_loggers g' = m_loggers g
    /\ g_loggers g' !! p = Some (set_l_appenders (l_appenders l ++ aps)%list l)
    /\ (forall ap, ap < g_next g -> g_appenders g' !! ap = g_appenders g !! ap)
    /\ Forall2 (fun ap x => exists a, g_appenders g' !! ap = Some a /\ appender_view a = spec_appender x) aps ds.
Proof.
  induction ds as [|d ds IH]; intros l g Ht H Hn Hp.
  { exists g, []. rewrite app_nil_r. split_and!; try done. by destruct l. }
  apply Forall_cons in Ht as [Htd Ht]. cbn [define_appenders].
  destruct (define_appender_ok d n p l g Htd H Hn Hp) as (g1 & a & -> & H1 & H2 & H3 & H4 & H5 & H6 & H7).
  cbn [mbind outcome_bind]. rewrite <- H3 in Hn.
  destruct (IH _ g1 Ht H1 Hn H4) as (g' & aps & -> & K1 & K2 & K3 & K4 & K5 & K6).
  exists g', (g_next g :: aps). split_and!; try done; [by eapply keeps_trans|congruence|..].
  - rewrite K4. cbn. by rewrite <- app_assoc.
  - intros ap Hap. rewrite K5 by lia. rewrite H5. apply lookup_insert_ne. lia.
  - constructor; [|done]. exists a. rewrite K5 by lia. rewrite H5. by rewrite lookup_insert_eq.
Qed.

Lemma clearAppenders_ok n p l g : logs_ok g -> m_loggers g !! n = Some p -> g_loggers g !! p = Some l ->
  clearAppenders p g = Ok (put_logger p (set_l_appenders [] l) g) /\ logs_ok (put_logger p (set_l_appenders [] l) g)
  /\ keeps n g (put_logger p (set_l_appenders [] l) g).
Proof.
  intros H Hn Hp. unfold clearAppenders, the_logger. rewrite Hp. split; [done|]. split.
  - apply shrink_ok; [done..|constructor|]. intros ap Hap. by apply elem_of_nil in Hap.
  - eapply keeps_put; try done. intros q Hq. cbn. by rewrite lookup_insert_ne.
Qed.

Lemma getLogger_keeps n g p g' : logs_ok g -> getLogger n g = Ok (p, g') -> keeps n g g'.
Proof.
  intros H E. destruct (getLogger_ok n g H) as (p' & g'' & E' & _ & _ & Ha & Hr & _ & Hl & _ & Hm).
  rewrite E in E'. injection E' as <- <-. split; [done|]. intros m q l Hne Hq Hl'. rewrite Hm, Ha by done. split_and!; eauto.
Qed.

Lemma apply_define_ok d g : Forall good_type (d_appenders d) -> logs_ok g ->
  exists g', apply_define can_open d g = Ok g' /\ logs_ok g' /\ keeps (d_name d) g g' /\ follows d g'.
Proof.
  intros Ht H. unfold apply_define. destruct (getLogger_ok (d_name d) g H) as (p & g1 & E1 & H1 & Hp & _).
  pose proof (getLogger_keeps _ _ _ _ H E1) as K1. rewrite E1. cbn [mbind outcome_bind].
  destruct (ok_names g1 H1 _ _ Hp) as (l & Hl & Hname). destruct (setLevel_ok p l (d_level d) g1 H1 Hl) as [E2 H2].
  rewrite E2. cbn [mbind outcome_bind]. set (g2 := put_logger p (set_l_level (d_level d) l) g1) in *.
  assert (keeps (d_name d) g1 g2) as K2.
  { eapply keeps_put; try done. intros q Hq. cbn. by rewrite lookup_insert_ne. }
  assert (g_loggers g2 !! p = Some (set_l_level (d_level d) l)) as Hl2 by apply lookup_insert_eq.
  assert (exists g3 fo, (if String.eqb (d_formatter d) "" then Ok g2 else setFormatter_pattern p (d_formatter d) g2) = Ok g3
    /\ logs_ok g3 /\ keeps (d_name d) g2 g3 /\ m_loggers g3 !! d_name d = Some p
    /\ g_loggers g3 !! p = Some (set_l_formatter fo (set_l_level (d_level d) l))
    /\ forall s, wanted (d_formatter d) = Some s -> m_pattern <$> fo = Some s) as (g3 & fo & -> & H3 & K3 & Hp3 & Hl3 & Hfo).
  { unfold wanted, accepted. destruct (String.eqb (d_formatter d) "").
    - exists g2, (l_formatter l). by split_and!.
    - destruct (setFormatter_pattern_ok p _ (d_formatter d) g2 H2 Hl2) as (g3 & fo & E & A & B & C & D & _ & _ & F & G).
      exists g3, fo. split_and!; try done.
      + eapply keeps_put; try done; [|intros; by apply G]. intros q Hq. rewrite B. by rewrite lookup_insert_ne.
      + rewrite C. exact Hp.
      + rewrite B. by rewrite lookup_insert_eq.
      + intros s. destruct (newLogFormatter_total (d_formatter d)) as [f Hf]. rewrite Hf, (F f Hf). cbn.
        destruct (m_error f); [done|]. intros [= <-]. cbn. by rewrite (log_pattern_kept _ _ Hf). }
  cbn [mbind outcome_bind]. destruct (clearAppenders_ok _ _ _ g3 H3 Hp3 Hl3) as (E4 & H4 & K4). rewrite E4. cbn [mbind outcome_bind].
  set (g4 := put_logger _ _ g3) in *. set (l4 := set_l_appenders [] _) in *.
  assert (g_loggers g4 !! p = Some l4) as Hl4 by apply lookup_insert_eq.
  destruct (define_appenders_ok (d_name d) p (d_appenders d) l4 g4 Ht H4 Hp3 Hl4) as (g' & aps & E5 & H5 & K5 & M5 & L5 & _ & V5).
  exists g'. split_and!; try done.
  - eauto using keeps_trans.
  - exists p. eexists. split_and!; [by rewrite M5|exact L5|done|exact V5|exact Hfo].
Qed.

(** A definition that is gone leaves the logger as this one says. *)
Definition gone (d : LogDefine) : LogDefine := mkLogDefine (d_name d) 100 "" [].

Lemma disable_ok d g : logs_ok g ->
  exists g', disable d g = Ok g' /\ logs_ok g' /\ keeps (d_name d) g g' /\ follows (gone d) g'.
Proof.
  intros H. unfold disable. destruct (getLogger_ok (d_name d) g H) as (p & g1 & E1 & H1 & Hp & _).
  pose proof (getLogger_keeps _ _ _ _ H E1) as K1. rewrite E1. cbn [mbind outcome_bind].
  destruct (ok_names g1 H1 _ _ Hp) as (l & Hl & Hname). destruct (setLevel_ok p l 100 g1 H1 Hl) as [E2 H2].
  rewrite E2. cbn [mbind outcome_bind]. set (g2 := put_logger p (set_l_level 100 l) g1) in *.
  assert (keeps (d_name d) g1 g2) as K2.
  { eapply keeps_put; try done. intros q Hq. cbn. by rewrite lookup_insert_ne. }
  assert (g_loggers g2 !! p = Some (set_l_level 100 l)) as Hl2 by apply lookup_insert_eq.
  destruct (clearAppenders_ok _ _ _ g2 H2 Hp Hl2) as (E4 & H4 & K4). eexists. split; [exact E4|].
  split_and!; [done|eauto using keeps_trans|]. exists p. eexists. split_and!; [exact Hp|apply lookup_insert_eq|done|constructor|].
  by intros s.
Qed.

Lemma set_find_name d s x : set_find d s = Some x -> x ∈ s /\ d_name x = d_name d.
Proof. intros H%List.find_some. destruct H as [H1 H2]. split; [by apply list_elem_of_In|by apply String.eqb_eq]. Qed.

Lemma set_find_none d s : set_find d s = None -> d_name d ∉ map d_name s.
Proof.
  intros H Hin. apply list_elem_of_fmap in Hin as (x & Hx & Hin). apply list_elem_of_In in Hin.
  apply (List.find_none _ _ H) in Hin. rewrite <- Hx in Hin. by rewrite String.eqb_refl in Hin.
Qed.

Definition valid_defines (s : list LogDefine) : Prop :=
  NoDup (map d_name s) /\ Forall (fun d => Forall good_type (d_appenders d)) s.

Lemma apply_new_ok old new : forall g,
  valid_defines new -> logs_ok g -> (forall d, d ∈ new -> set_find d old = Some d -> follows d g) ->
  exists g', apply_new can_open old new g = Ok g' /\ logs_ok g' /\ m_root g' = m_root g
    /\ (forall d, d ∈ new -> follows d g')
    /\ (forall d, d_name d ∉ map d_name new -> follows d g -> follows d g').
Proof.
  induction new as [|d new IH]; intros g [Hd Ht] H Hold.
  { exists g. split_and!; try done. intros d Hin. by apply elem_of_nil in Hin. }
  inversion Hd as [|? ? Hnd Hd']; subst. inversion Ht as [|? ? Htd Ht']; subst. cbn [apply_new].
  assert (exists g1, (if decide (set_find d old = Some d) then Ok g else apply_define can_open d g) = Ok g1
    /\ logs_ok g1 /\ keeps (d_name d) g g1 /\ follows d g1) as (g1 & -> & H1 & K1 & F1).
  { destruct (decide (set_find d old = Some d)); [|by apply apply_define_ok].
    exists g. split_and!; try done. apply Hold; [set_solver|done]. }
  cbn [mbind outcome_bind]. destruct (IH g1) as (g' & E & A & R & B & C); [done|done| |].
  { intros x Hx Hf. eapply follows_keeps; [exact K1| |apply Hold; [set_solver|done]]. intros En. apply Hnd. rewrite <- En.
    by apply list_elem_of_fmap_2. }
  exists g'. split_and!; try done; [destruct K1; congruence|..].
  - intros x [-> | Hx]%elem_of_cons; [by apply C|by apply B].
  - intros x Hx Hf. cbn in Hx. apply not_elem_of_cons in Hx as [Hx1 Hx2]. apply C; [done|]. by eapply follows_keeps.
Qed.

Lemma disable_old_ok new old : forall g, logs_ok g ->
  exists g', disable_old new old g = Ok g' /\ logs_ok g'
    /\ (forall d, d_name d ∈ map d_name new -> follows d g -> follows d g')
    /\ (forall d, follows (gone d) g -> follows (gone d) g')
    /\ (forall d, d ∈ old -> set_find d new = None -> follows (gone d) g').
Proof.
  induction old as [|d old IH]; intros g H.
  { exists g. split_and!; try done. intros d Hin. by apply elem_of_nil in Hin. }
  cbn [disable_old].
  assert (exists g1, (match set_find d new with Some _ => Ok g | None => disable d g end) = Ok g1 /\ logs_ok g1
    /\ (forall x, d_name x ∈ map d_name new -> follows x g -> follows x g1)
    /\ (forall x, follows (gone x) g -> follows (gone x) g1)
    /\ (set_find d new = None -> follows (gone d) g1)) as (g1 & -> & H1 & K1 & G1 & F1).
  { destruct (set_find d new) as [x|] eqn:E; [by exists g|]. destruct (disable_ok d g H) as (g1 & A & B & C & D).
    exists g1. split_and!; try done.
    - intros x Hx. eapply follows_keeps; [exact C|]. intros En. rewrite En in Hx. by apply (set_find_none d new E).
    - intros x Hx. destruct (decide (d_name x = d_name d)) as [En|En]; [unfold gone in *; by rewrite En|].
      by eapply follows_keeps. }
  cbn [mbind outcome_bind]. destruct (IH g1 H1) as (g' & E & A & B & C & D). exists g'. split_and!; try done; [auto..|].
  intros x [-> | Hx]%elem_of_cons; auto.
Qed.
End listener.

(** *** Runs of the program *)

Section runs.
Context (can_open : nat -> nat -> bool) (strftime : string -> Z -> option string).

Lemma on_logs_changed_ok file tid fid time tn old new g :
  logs_ok g -> dates_fit strftime (m_root g) INFO (u64 time) g -> valid_defines new -> (forall d, d ∈ old -> follows d g) ->
  exists g', on_logs_changed can_open strftime file tid fid time tn old new g = Ok g' /\ logs_ok g'
    /\ (forall d, d ∈ new -> follows d g')
    /\ (forall d, d ∈ old -> set_find d new = None -> follows (gone d) g').
Proof.
  intros H Hd Hv Hold. unfold on_logs_changed. destruct (ok_root g H) as [l Hl].
  destruct (LOG_LEVEL_ok can_open strftime (m_root g) l INFO file 881 tid fid time tn "on_logger_conf_changed" g H Hl Hd)
    as (g1 & -> & S1). cbn [mbind outcome_bind]. pose proof (streams_only_ok _ _ S1 H) as H1.
  destruct (apply_new_ok can_open old new g1 Hv H1) as (g2 & -> & H2 & _ & F2 & _).
  { intros d _ Hf. eapply follows_streams; [exact S1|]. apply Hold. by apply set_find_name in Hf as [Hf _]. }
  cbn [mbind outcome_bind]. destruct (disable_old_ok new old g2 H2) as (g' & -> & H' & K & _ & G).
  exists g'. split_and!; try done. intros d Hin. apply K; [by apply list_elem_of_fmap_2|by apply F2].
Qed.

(** The start of the manager. *)
Lemma newLoggerManager_ok : exists g, newLoggerManager = Ok g /\ logs_ok g.
Proof.
  destruct (newLogger_total "root") as [f Hf]. set (l := mkLogger "root" DEBUG [1] (Some f) None).
  set (a := set_a_formatter false (Some f) newStdLogAppender).
  assert (newLoggerManager = Ok (Logs {[0 := l]} {[1 := a]} {["root" := 0]} 0 "" 2)) as ->.
  { unfold newLoggerManager. rewrite Hf. cbn [mbind outcome_bind new_appender]. unfold addAppender, the_logger, the_appender.
    cbn [g_loggers bump put_appender g_next g_appenders]. rewrite lookup_singleton_eq. cbn [mbind outcome_bind].
    rewrite lookup_insert_eq. unfold put_logger, put_appender, put_name, bump.
    cbn [mbind outcome_bind a_formatter newStdLogAppender hasFormatter g_loggers g_appenders m_loggers m_root g_cout g_next l_name
      l_appenders l_formatter app].
    by rewrite insert_insert_eq, insert_singleton_eq, !insert_empty. }
  clear Hf. eexists. split; [done|]. split; cbn [g_loggers g_appenders m_loggers m_root g_next].
  - intros p Hp. split; apply lookup_singleton_ne; lia.
  - intros n p [<- <-]%lookup_singleton_Some. exists l. by rewrite lookup_singleton_eq.
  - intros p m [<- <-]%lookup_singleton_Some. apply lookup_singleton_eq.
  - rewrite lookup_singleton_eq. eauto.
  - intros p m [<- <-]%lookup_singleton_Some. done.
  - intros p m [<- <-]%lookup_singleton_Some. split; [apply NoDup_singleton|]. exists f. split; [done|].
    intros ap ->%list_elem_of_singleton. exists a, f. split; [apply lookup_singleton_eq|done].
  - intros p q m m' ap [<- <-]%lookup_singleton_Some [<- <-]%lookup_singleton_Some. done.
Qed.

(** A program whose loggers are only configured: the value of [logs] and the
    objects after any changes of it, look-ups of loggers and events whose dates
    have room. *)
Inductive configured : list LogDefine -> logs -> Prop :=
  | conf_start g : newLoggerManager = Ok g -> configured [] g
  | conf_change file tid fid time tn old new g g' :
      configured old g -> dates_fit strftime (m_root g) INFO (u64 time) g -> valid_defines new ->
      on_logs_changed can_open strftime file tid fid time tn old new g = Ok g' -> configured new g'
  | conf_get s n p g g' : configured s g -> getLogger n g = Ok (p, g') -> configured s g'
  | conf_log s p level event g g' :
      configured s g -> is_Some (g_loggers g !! p) -> dates_fit strftime p level (e_time event) g -> log can_open strftime p level event g = Ok g' -> configured s g'.

Lemma getLogger_follows n g p g' d : logs_ok g -> getLogger n g = Ok (p, g') -> follows d g -> follows d g'.
Proof using.
  intros H E (q & l & Hq & Hl & Hlev & Happ & Hfmt). destruct (getLogger_ok n g H) as (p' & g'' & E' & _ & _ & Ha & _ & _ & Hk & Hm & _).
  rewrite E in E'. injection E' as <- <-. exists q, l. rewrite Ha. split_and!; auto.
Qed.

Lemma configured_ok s g : configured s g -> logs_ok g /\ forall d, d ∈ s -> follows d g.
Proof.
  induction 1 as [g Hg|file tid fid time tn old new g g' _ [IH1 IH2] Hd Hv E|s n p g g' _ [IH1 IH2] E|s p level event g g' _ [IH1 IH2] [l Hl] Hfit E].
  - destruct newLoggerManager_ok as (g' & E & H). rewrite Hg in E. injection E as <-. clear Hg. split; [done|].
    intros d Hd. by apply elem_of_nil in Hd.
  - destruct (on_logs_changed_ok file tid fid time tn old new g IH1 Hd Hv IH2) as (g'' & E' & H & F & _).
    rewrite E in E'. injection E' as <-. done.
  - destruct (getLogger_ok n g IH1) as (p' & g'' & E' & H & _). rewrite E in E'. injection E' as <- <-. split; [done|].
    intros d Hd. exact (getLogger_follows n g _ _ d IH1 E (IH2 d Hd)).
  - destruct (log_spec can_open strftime p l level event g IH1 Hl Hfit) as (g'' & outs & E' & S & _).
    rewrite E in E'. injection E' as <-. split; [by eapply streams_only_ok|]. intros d Hd. exact (follows_streams _ _ d S (IH2 d Hd)).
Qed.
End runs.
