(* ===== verification/LogResults.v ===== *)
(** * What the loggers guarantee

    The theorems on [log.cc]: every use of the interface keeps its objects well
    formed, an event reaches its appenders once, the loggers follow the
    configuration, definitions survive their YAML text but for what is not read,
    and a log file holds the last three seconds. *)

From stdpp Require Import base list gmap strings sorting.
From Stdlib Require Import ZArith Lia Ascii String.
From S2P Require Import Prelude Http Config ConfigTheorems LogFormat LogPattern Log LogConfig LogTheorems.

Local Open Scope string_scope.

(** ** Clients *)

(** The calls of a program; an appender is made, given a formatter of its own or
    none, and added. *)
Inductive call :=
  | CGet (name : string)
  | CLevel (p : nat) (level : Z)
  | CAppenderLevel (ap : nat) (level : Z)
  | CAdd (p : nat) (kind : appender_kind) (own : option LogFormatter)
  | CDel (p ap : nat)
  | CClear (p : nat)
  | CFormatter (p : nat) (f : LogFormatter)
  | CPattern (p : nat) (pattern : string)
  | CAppenderFormatter (ap : nat) (f : LogFormatter)
  | CLog (p : nat) (level : Z) (event : LogEvent).

Section clients.
Context (can_open : nat -> nat -> bool) (strftime : string -> Z -> option string).

Definition new_of_kind (p : nat) (kind : appender_kind) : LogAppender :=
  match kind with StdLogAppender => newStdLogAppender | FileLogAppender f => newFileLogAppender can_open p f end.

Definition do_call (c : call) (g : logs) : outcome logs :=
  match c with
  | CGet name => '(_, g) ← getLogger name g; Ok g
  | CLevel p x => setLevel p x g
  | CAppenderLevel ap x => appender_setLevel ap x g
  | CAdd p kind own =>
      let a := new_of_kind (g_next g) kind in
      let '(ap, g) := new_appender (match own with Some f => appender_setFormatter (Some f) a | None => a end) g in
      addAppender p ap g
  | CDel p ap => delAppender p ap g
  | CClear p => clearAppenders p g
  | CFormatter p f => setFormatter p (Some f) g
  | CPattern p s => setFormatter_pattern p s g
  | CAppenderFormatter ap f => a ← the_appender ap g; Ok (put_appender ap (appender_setFormatter (Some f) a) g)
  | CLog p level event => log can_open strftime p level event g
  end.

(** A call on objects that exist, an event with dates that have room. *)
Definition allowed (c : call) (g : logs) : Prop :=
  match c with
  | CGet _ => True
  | CLevel p _ | CAdd p _ _ | CDel p _ | CClear p | CFormatter p _ | CPattern p _ => is_Some (g_loggers g !! p)
  | CAppenderLevel ap _ | CAppenderFormatter ap _ => is_Some (g_appenders g !! ap)
  | CLog p level event => is_Some (g_loggers g !! p) /\ dates_fit strftime p level (e_time event) g
  end.

Inductive used : logs -> Prop :=
  | used_start g : newLoggerManager = Ok g -> used g
  | used_call c g g' : used g -> allowed c g -> do_call c g = Ok g' -> used g'.

Lemma new_of_kind_bare p kind : hasFormatter (new_of_kind p kind) = false /\ a_formatter (new_of_kind p kind) = None.
Proof. by destruct kind. Qed.

Lemma appender_put_ok g ap a x : logs_ok g -> g_appenders g !! ap = Some a ->
  (x = set_a_level (a_level x) a \/ exists f, x = appender_setFormatter (Some f) a) -> logs_ok (put_appender ap x g).
Proof.
  intros H Ha Hx. eapply put_appender_ok; [done|exact Ha|]. intros p l f Hl Hin Hf.
  destruct (ok_attached g H p l Hl) as (_ & f' & Hf' & Hat). destruct (Hat ap Hin) as (b & fb & Hb & Hfb & Hi). simplify_eq.
  destruct Hx as [-> | [f2 ->]]; [by exists fb|by exists f2].
Qed.

Lemma do_call_ok c g : logs_ok g -> allowed c g ->
  exists g', do_call c g = Ok g' /\ logs_ok g'.
Proof.
  intros H Hc. destruct c as [n|p x|ap x|p kind own|p ap|p|p f|p s|ap f|p level event]; cbn [allowed] in Hc; cbn [do_call];
    try (match type of Hc with _ /\ _ => destruct Hc as [Hc Hfit] end); try destruct Hc as [l Hl].
  - destruct (getLogger_ok n g H) as (p & g' & -> & H' & _). by exists g'.
  - destruct (setLevel_ok p l x g H Hl) as [-> H']. eauto.
  - unfold appender_setLevel, the_appender. rewrite Hl. eexists. split; [done|]. eapply appender_put_ok; [done|done|by left].
  - set (a := match own with Some f => _ | None => _ end). destruct (new_of_kind_bare (g_next g) kind) as [B1 B2].
    cbn [new_appender]. destruct (ok_fresh g H (g_next g) ltac:(lia)) as [_ Hfresh].
    destruct (addAppender_ok p l (g_next g) a (bump (put_appender (g_next g) a g)) (new_appender_ok a g H) Hl)
      as (f & _ & g' & -> & H' & _); [apply lookup_insert_eq| | |by exists g'].
    + intros q m Hq Hin. destruct (ok_attached g H q m Hq) as (_ & f & _ & Ha). destruct (Ha _ Hin) as (b & _ & Hb & _). congruence.
    + subst a. by destruct own.
  - unfold delAppender, the_logger. rewrite Hl. eexists. split; [done|]. destruct (ok_attached g H p l Hl) as [Hd _].
    destruct (erase_first_NoDup ap _ Hd). by apply shrink_ok.
  - unfold clearAppenders, the_logger. rewrite Hl. eexists. split; [done|]. apply shrink_ok; [done..|constructor|].
    intros ap Hap. by apply elem_of_nil in Hap.
  - destruct (setFormatter_ok p l f g H Hl) as (g' & -> & H' & _). eauto.
  - destruct (setFormatter_pattern_ok p l s g H Hl) as (g' & _ & -> & H' & _). eauto.
  - unfold the_appender. rewrite Hl. eexists. split; [done|]. eapply appender_put_ok; [done|done|]. right. by exists f.
  - destruct (log_spec can_open strftime p l level event g H Hl Hfit) as (g' & outs & -> & S & _).
    exists g'. split; [done|]. by eapply streams_only_ok.
Qed.

Lemma used_ok g : used g -> logs_ok g.
Proof.
  induction 1 as [g Hg|c g g' _ IH Hc E].
  - destruct newLoggerManager_ok as (g' & E & H). rewrite Hg in E. by injection E as <-.
  - destruct (do_call_ok c g IH Hc) as (g'' & E' & H). rewrite E in E'. by injection E' as <-.
Qed.
End clients.

(** ** Files *)

Section files.
Context (can_open : nat -> nat -> bool) (strftime : string -> Z -> option string) (name_of : nat -> string) (p : nat).

(** A file appender alone, from one event to the next. *)
Fixpoint file_logs (es : list LogEvent) (a : LogAppender) : outcome LogAppender :=
  match es with
  | [] => Ok a
  | e :: es => '(a, _) ← file_log can_open strftime name_of p a (e_level e) e; file_logs es a
  end.

Lemma file_logs_snoc es e a :
  file_logs (es ++ [e]) a = (a ← file_logs es a; '(a, _) ← file_log can_open strftime name_of p a (e_level e) e; Ok a).
Proof.
  revert a. induction es as [|x es IH]; intros a; cbn [app file_logs mbind outcome_bind].
  - by destruct (file_log _ _ _ _ _ _ _) as [[]|].
  - destruct (file_log _ _ _ _ _ _ _) as [[a' t]|]; [|done]. cbn [mbind outcome_bind]. apply IH.
Qed.

(** The text of an event. *)
Definition event_text (f : LogFormatter) (e : LogEvent) : string :=
  match formatter_format strftime name_of f (e_level e) e with Ok t => t | Err _ => "" end.

(** The events since a time. *)
Definition since (t : Z) (es : list LogEvent) : list LogEvent := List.filter (fun e => (t <=? e_time e)%Z) es.

Definition in_time (es : list LogEvent) : Prop :=
  Forall (fun e => (0 <= e_time e < 2 ^ 64 - 3)%Z) es /\ StronglySorted (fun x y => (e_time x <= e_time y)%Z) es.

Record file_holds (f : LogFormatter) (es : list LogEvent) (a : LogAppender) : Prop := {
  fh_open : s_open (m_filestream a) = true /\ s_fail (m_filestream a) = false;
  fh_formatter : a_formatter a = Some f;
  fh_text : s_text (m_filestream a) = joined (map (event_text f) (since (m_lastTime a) es));
  fh_recent : Forall (fun e => (e_time e < m_lastTime a + 3)%Z) es;
  fh_last : m_lastTime a = 0%Z \/ exists e, e ∈ es /\ e_time e = m_lastTime a;
}.

Lemma joined_snoc l t : joined (l ++ [t]) = joined l ++ t.
Proof.
  unfold joined. induction l as [|x l IH]; cbn [app foldr]; [by rewrite text_app_nil_r|]. by rewrite IH, text_app_assoc.
Qed.

Lemma since_snoc t es e : since t (es ++ [e]) = (since t es ++ if (t <=? e_time e)%Z then [e] else [])%list.
Proof. unfold since. rewrite List.filter_app. cbn. by destruct (t <=? e_time e)%Z. Qed.

Lemma since_none t es : Forall (fun e => (e_time e < t)%Z) es -> since t es = [].
Proof.
  induction 1 as [|e es He _ IH]; [done|]. unfold since in *. cbn. destruct (Z.leb_spec t (e_time e)); [lia|done].
Qed.

Lemma file_log_holds f es e a :
  fits strftime (e_time e) f -> (forall k, can_open p k = true) ->
  (a_level a <= e_level e)%Z -> (0 <= e_time e < 2 ^ 64 - 3)%Z -> Forall (fun x => (e_time x <= e_time e)%Z) es ->
  Forall (fun x => (0 <= e_time x)%Z) es -> file_holds f es a ->
  exists a', file_log can_open strftime name_of p a (e_level e) e = Ok (a', "")
    /\ file_holds f (es ++ [e]) a' /\ a_level a' = a_level a.
Proof.
  intros Hfit Hopen Hlev Ht Hes Hpos [[Ho Hf] Hfmt Htext Hrec Hlast].
  destruct (items_format_total strftime name_of (m_items f) (e_level e) e Hfit) as [t Et].
  assert (event_text f e = t) as Htxt by (unfold event_text, formatter_format; by rewrite Et).
  assert (0 <= m_lastTime a <= e_time e)%Z as Hl.
  { destruct Hlast as [-> | (x & Hx & <-)]; [lia|]. rewrite Forall_forall in Hes, Hpos. specialize (Hes x Hx).
    specialize (Hpos x Hx). cbn in *. lia. }
  unfold file_log. destruct (Z.leb_spec (a_level a) (e_level e)); [|lia].
  assert (u64 (m_lastTime a + 3) = (m_lastTime a + 3)%Z) as -> by (apply Z.mod_small; lia).
  destruct (Z.leb_spec (m_lastTime a + 3) (e_time e)).
  - assert (reopen_stream can_open p (m_filestream a) = OFStream true false "" (S (s_tries (m_filestream a)))) as Hr.
    { unfold reopen_stream, stream_open. rewrite Hf. cbn. by rewrite Hopen. }
    unfold appender_text, formatter_format. cbn [reopen snd]. rewrite Hr. cbn. rewrite Hfmt, Et. cbn.
    eexists. split; [done|]. split; [|done]. split; cbn -[joined]; try done.
    + rewrite since_snoc, since_none, Z.leb_refl; [cbn; by rewrite Htxt, text_app_nil_r|].
      eapply Forall_impl; [exact Hrec|]. cbn. lia.
    + apply Forall_app. split; [|constructor; [lia|constructor]]. eapply Forall_impl; [exact Hrec|]. cbn. lia.
    + right. exists e. split; [set_solver|done].
  - unfold appender_text, formatter_format. rewrite Hfmt, Et. cbn. unfold stream_write. rewrite Hf, Ho. cbn.
    eexists. split; [done|]. split; [|done]. split; cbn -[joined]; try done.
    + rewrite since_snoc. destruct (Z.leb_spec (m_lastTime a) (e_time e)); [|lia].
      rewrite map_app. cbn [map]. by rewrite joined_snoc, Htext, Htxt.
    + apply Forall_app. split; [done|]. constructor; [lia|constructor].
    + destruct Hlast as [Hlast|(x & Hx & Hx')]; [by left|]. right. exists x. split; [set_solver|done].
Qed.

Lemma file_logs_hold f es a :
  Forall (fun e => fits strftime (e_time e) f) es -> (forall k, can_open p k = true) ->
  in_time es -> Forall (fun e => (a_level a <= e_level e)%Z) es -> file_holds f [] a ->
  exists a', file_logs es a = Ok a' /\ file_holds f es a' /\ a_level a' = a_level a.
Proof.
  intros Hfit Hopen. induction es as [|e es IH] using rev_ind; intros [Ht Hs] Hlev Ha; [by exists a|].
  apply Forall_app in Hfit as [Hf1 Hf2]. apply Forall_cons in Hf2 as [Hf2 _].
  apply Forall_app in Ht as [Ht1 Ht2]. apply Forall_app in Hlev as [Hl1 Hl2].
  apply StronglySorted_app in Hs as (Hle & Hs & _). apply Forall_cons in Ht2 as [Ht2 _], Hl2 as [Hl2 _].
  destruct (IH Hf1 (conj Ht1 Hs) Hl1 Ha) as (a1 & E1 & H1 & L1).
  destruct (file_log_holds f es e a1 Hf2 Hopen) as (a' & E2 & H2 & L2); [rewrite L1; exact Hl2|exact Ht2| | |done|].
  - apply Forall_forall. intros x Hx. apply (Hle x e); set_solver.
  - eapply Forall_impl; [exact Ht1|]. cbn. lia.
  - exists a'. rewrite file_logs_snoc, E1. cbn. rewrite E2. split_and!; [done|done|congruence].
Qed.
End files.

(** ** Definitions as YAML *)

(** What the code relies on in yaml-cpp: a key of a map finds its first value,
    and a scalar converts to its text. *)
Class YamlReadLaws `{!YamlRead} : Prop := {
  subscript_map l k : subscript (Map l) k
    = Some (snd <$> List.find (fun e => match e.1 with Scalar s => String.eqb s k | _ => false end) l);
  as_string_scalar s : as_string (Scalar s) = Some s;
}.

(** What is read of a printed definition: the level of an appender and the
    formatter of a console appender are lost. *)
Definition forget_appender (a : LogAppenderDefine) : LogAppenderDefine :=
  if (ad_type a =? 1)%Z then mkAppenderDefine 1 UNKNOW (ad_formatter a) (ad_file a) else mkAppenderDefine 2 UNKNOW "" "".
Definition forget_define (d : LogDefine) : LogDefine :=
  mkLogDefine (d_name d) (d_level d) (d_formatter d) (map forget_appender (d_appenders d)).

Definition in_set_order (s : list LogDefine) : Prop :=
  StronglySorted (fun x y => String.compare (d_name y) (d_name x) = Gt) s.

Lemma level_name_roundtrip x : (UNKNOW <= x <= FATAL)%Z -> level_FromString (level_ToString x) = x.
Proof.
  unfold UNKNOW, FATAL. intros H. assert (x = 0 \/ x = 1 \/ x = 2 \/ x = 3 \/ x = 4 \/ x = 5)%Z as Hx by lia.
  by destruct Hx as [-> | [-> | [-> | [-> | [-> | ->]]]]].
Qed.

Lemma kept_some {A} (l : list A) : kept (map Some l) = l.
Proof. unfold kept. induction l as [|x l IH]; [done|]. exact (f_equal (cons x) IH). Qed.

Lemma map_option_map {A B C} (f : B -> option C) (g : A -> B) (h : A -> C) l :
  Forall (fun x => f (g x) = Some (h x)) l -> map_option f (map g l) = Some (map h l).
Proof. induction 1 as [|x l Hx _ IH]; [done|]. cbn. by rewrite Hx, IH. Qed.

Lemma defines_insert_last d s : Forall (fun x => String.compare (d_name d) (d_name x) = Gt) s -> set_insert d s = (s ++ [d])%list.
Proof. induction 1 as [|x s Hx _ IH]; [done|]. cbn. by rewrite Hx, IH. Qed.

Lemma set_of_sorted s : in_set_order s -> foldl (fun s d => set_insert d s) [] s = s.
Proof.
  induction s as [|d s IH] using rev_ind; [done|]. intros (Hle & Hs & _)%StronglySorted_app.
  rewrite foldl_app, IH by done. cbn. apply defines_insert_last, Forall_forall. intros x Hx. apply Hle; set_solver.
Qed.

Lemma in_set_order_forget s : in_set_order s -> in_set_order (map forget_define s).
Proof.
  induction 1 as [|d s Hs IH Hd]; [constructor|]. constructor; [exact IH|]. by apply Forall_map.
Qed.

Section yaml.
Context {Y : Yaml} {YL : YamlLaws} {YR : YamlRead} {YRL : YamlReadLaws}.

Lemma map_option_index {B} (f : Node -> option B) l :
  map_option (fun i => f (index (Sequence l) i)) (seq 0 (List.length l)) = map_option f l.
Proof using YL.
  enough (forall pre, map_option (fun i => f (index (Sequence (pre ++ l)%list) i)) (seq (List.length pre) (List.length l))
    = map_option f l) as H by exact (H []).
  induction l as [|n l IH]; intros pre; [done|]. cbn [List.length seq map_option].
  rewrite (index_sequence (pre ++ n :: l) (List.length pre) n) by (rewrite lookup_app_r, Nat.sub_diag by lia; done).
  destruct (f n); [|done]. cbn. specialize (IH (pre ++ [n])%list). rewrite length_app, <- app_assoc in IH. cbn [app List.length] in IH.
  rewrite Nat.add_comm in IH. cbn in IH. by rewrite IH.
Qed.

Lemma string_at_map l k : Forall (fun e => exists s, e.2 = Scalar s) l -> string_at (Map l) k
  = Some (scalar <$> (snd <$> List.find (fun e => match e.1 with Scalar s => String.eqb s k | _ => false end) l)).
Proof using YRL.
  intros H. unfold string_at. rewrite subscript_map. cbn [mbind option_bind].
  destruct (List.find _ l) as [[x n]|] eqn:E; [|done]. apply List.find_some in E as [E _].
  rewrite Forall_forall in H. destruct (H _ ltac:(by apply list_elem_of_In)) as [s Hs]. cbn in *. subst n.
  by rewrite as_string_scalar.
Qed.

Lemma entries_scalar b k s : Forall (fun e : Node * Node => exists s, e.2 = Scalar s) (entry_if b k s).
Proof using. destruct b; repeat constructor. by exists s. Qed.

Lemma read_appender_node a : good_type a -> read_appender (appender_node a) = Some (Some (forget_appender a)).
Proof using YRL.
  intros Ht. unfold appender_node, forget_appender, read_appender.
  set (lv := entry_if (negb (ad_level a =? UNKNOW)%Z) _ _). set (fm := entry_if _ "formatter" _).
  pose proof (entries_scalar (negb (ad_level a =? UNKNOW)%Z) "level" (level_ToString (ad_level a))) as Hlv.
  pose proof (entries_scalar (negb (String.eqb (ad_formatter a) "")) "formatter" (ad_formatter a)) as Hfm.
  destruct Ht as [-> | ->]; cbn [Z.eqb Pos.eqb app map_node].
  - assert (Forall (fun e : Node * Node => exists s, e.2 = Scalar s)
      (entry "type" "FileLogAppender" :: entry "file" (ad_file a) :: lv ++ fm)%list) as Hall.
    { constructor; [by eexists|]. constructor; [by eexists|]. by apply Forall_app. }
    rewrite !string_at_map by done. cbn. subst lv fm. unfold entry_if.
    destruct (ad_level a =? UNKNOW)%Z; cbn; destruct (String.eqb_spec (ad_formatter a) "") as [->|]; done.
  - assert (Forall (fun e : Node * Node => exists s, e.2 = Scalar s) (entry "type" "StdoutLogAppender" :: lv ++ fm)%list) as Hall.
    { constructor; [by eexists|]. by apply Forall_app. }
    rewrite !string_at_map by done. done.
Qed.

Lemma read_define_node d : Forall good_type (d_appenders d) -> (UNKNOW <= d_level d <= FATAL)%Z ->
  read_define (define_node d) = Some (Some (forget_define d)).
Proof using YL YRL.
  intros Ht Hl.
  assert (read_appenders (define_node d) = Some (map forget_appender (d_appenders d))) as Ha.
  { unfold read_appenders, define_node. rewrite subscript_map. unfold entry_if.
    destruct (d_appenders d) as [|a l]; [by destruct (d_level d =? UNKNOW)%Z, (String.eqb (d_formatter d) "")|].
    remember (map appender_node (a :: l)) as ns eqn:Hns.
    transitivity (ms ← map_option (fun k => read_appender (index (Sequence ns) k)) (seq 0 (List.length ns)); Some (kept ms));
      [by destruct (d_level d =? UNKNOW)%Z, (String.eqb (d_formatter d) "")|].
    rewrite map_option_index, Hns, (map_option_map _ _ (fun a => Some (forget_appender a))).
    - cbn [mbind option_bind]. by rewrite <- (map_map forget_appender Some), kept_some.
    - eapply Forall_impl; [exact Ht|]. intros x. apply read_appender_node. }
  assert (forall k, k <> "appenders" -> string_at (define_node d) k
    = Some (if String.eqb k "name" then Some (d_name d)
            else if String.eqb k "level" then if (d_level d =? UNKNOW)%Z then None else Some (level_ToString (d_level d))
            else if String.eqb k "formatter" then if String.eqb (d_formatter d) "" then None else Some (d_formatter d)
            else None)) as Hs.
  { intros k Hk. unfold string_at, define_node, entry_if. rewrite subscript_map. cbn [mbind option_bind List.find entry fst].
    rewrite (String.eqb_sym "name" k). destruct (String.eqb k "name"); [cbn; by rewrite as_string_scalar|].
    destruct (d_level d =? UNKNOW)%Z, (String.eqb (d_formatter d) ""), (d_appenders d); cbn [negb app List.find entry fst];
      rewrite ?(String.eqb_sym "level" k), ?(String.eqb_sym "formatter" k), ?(String.eqb_sym "appenders" k);
      (destruct (String.eqb_spec k "level") as [-> |]; [cbn; rewrite ?as_string_scalar; done|]);
      (destruct (String.eqb_spec k "formatter") as [-> |]; [cbn; rewrite ?as_string_scalar; done|]);
      (destruct (String.eqb_spec k "appenders"); done). }
  unfold read_define. rewrite !Hs by done. cbn. rewrite Ha. cbn. unfold forget_define. do 3 f_equal.
  - destruct (d_level d =? UNKNOW)%Z eqn:E; cbn; [by apply Z.eqb_eq in E as ->|by apply level_name_roundtrip].
  - destruct (String.eqb_spec (d_formatter d) "") as [->|]; done.
Qed.

Lemma defines_roundtrip s : in_set_order s ->
  Forall (fun d => Forall good_type (d_appenders d) /\ (UNKNOW <= d_level d <= FATAL)%Z) s ->
  read_defines (print_defines s) = Some (map forget_define s).
Proof using YL YRL.
  intros Ho Hs. unfold read_defines, print_defines. rewrite load_emit. cbn [mbind option_bind].
  assert (map_option (fun i => read_define (index (seq_node (map define_node s)) i)) (seq 0 (node_size (seq_node (map define_node s))))
    = Some (map Some (map forget_define s))) as ->.
  { rewrite map_map. destruct s as [|d s]; [done|]. unfold seq_node. cbn [map]. cbn [node_size].
    change (define_node d :: map define_node s) with (map define_node (d :: s)). rewrite map_option_index.
    apply (map_option_map read_define define_node (fun d => Some (forget_define d)) (d :: s)).
    eapply Forall_impl; [exact Hs|]. intros x []. by apply read_define_node. }
  cbn [mbind option_bind]. rewrite kept_some, set_of_sorted; [done|]. by apply in_set_order_forget.
Qed.
End yaml.

(** ** Every set that is read can be applied *)

Lemma kept_elem {A} (x : A) l : x ∈ kept l -> Some x ∈ l.
Proof.
  unfold kept. induction l as [|[y|] l IH]; cbn; [by intros ?%elem_of_nil|..].
  - intros [-> | H]%elem_of_cons; [by left|right; auto].
  - intros H. right. auto.
Qed.

Lemma map_option_elem {A B} (f : A -> option B) l l' y :
  map_option f l = Some l' -> y ∈ l' -> exists x, x ∈ l /\ f x = Some y.
Proof.
  intros H%map_option_Forall2 Hy. apply list_elem_of_lookup in Hy as [i Hi].
  destruct (Forall2_lookup_r _ _ _ _ _ H Hi) as (x & Hx & E). exists x. split; [by eapply list_elem_of_lookup_2|done].
Qed.

Lemma read_appender_type {Y : YamlRead} n a : read_appender n = Some (Some a) -> good_type a.
Proof.
  unfold read_appender. intros (t & _ & H)%bind_Some. destruct t as [t|]; [|done]. destruct (String.eqb t _).
  - apply bind_Some in H as (f & _ & H). destruct f; [|done]. apply bind_Some in H as (fm & _ & [= <-]). by left.
  - destruct (String.eqb t _); [|done]. injection H as <-. by right.
Qed.

Lemma read_define_types {Y : Yaml} {YR : YamlRead} n d : read_define n = Some (Some d) -> Forall good_type (d_appenders d).
Proof.
  unfold read_define. intros (o & _ & H)%bind_Some. destruct o as [name|]; [|done].
  apply bind_Some in H as (lv & _ & H). apply bind_Some in H as (fm & _ & H). apply bind_Some in H as (aps & Ha & [= <-]).
  cbn. unfold read_appenders in Ha. apply bind_Some in Ha as (o & _ & Ha). destruct o as [m|]; [|injection Ha as <-; constructor].
  apply bind_Some in Ha as (l & Hl & [= <-]). apply Forall_forall. intros a Hin%kept_elem.
  destruct (map_option_elem _ _ _ _ Hl Hin) as (k & _ & Hk). by eapply read_appender_type.
Qed.

Lemma defines_insert_elem d s x : x ∈ set_insert d s -> x = d \/ x ∈ s.
Proof.
  induction s as [|y s IH]; cbn; [by intros ->%list_elem_of_singleton; left|].
  destruct (String.compare _ _); set_solver.
Qed.

Lemma name_lt_trans a b c : String.compare b a = Gt -> String.compare c b = Gt -> String.compare c a = Gt.
Proof.
  revert b c. induction a as [|x a IH]; intros [|y b] [|z c]; cbn; try done. unfold Ascii.compare.
  destruct (N.compare_spec (N_of_ascii y) (N_of_ascii x)) as [E1|E1|E1]; try done;
    destruct (N.compare_spec (N_of_ascii z) (N_of_ascii y)) as [E2|E2|E2]; try done; intros H1 H2;
    destruct (N.compare_spec (N_of_ascii z) (N_of_ascii x)) as [E3|E3|E3]; try done; try lia.
  exact (IH b c H1 H2).
Qed.

Lemma defines_insert_sorted d s : in_set_order s -> in_set_order (set_insert d s).
Proof.
  unfold in_set_order. induction 1 as [|x s Hs IH Hx]; cbn [set_insert]; [constructor; constructor|].
  destruct (String.compare (d_name d) (d_name x)) eqn:E.
  - by constructor.
  - constructor; [by constructor|]. assert (String.compare (d_name x) (d_name d) = Gt) as E'
      by (rewrite String.compare_antisym, E; done).
    constructor; [done|]. eapply Forall_impl; [exact Hx|]. cbn. intros y Hy. by eapply name_lt_trans.
  - constructor; [done|]. apply Forall_forall. intros y [-> | Hy]%defines_insert_elem; [done|]. rewrite Forall_forall in Hx. auto.
Qed.

Lemma in_set_order_NoDup s : in_set_order s -> NoDup (map d_name s).
Proof.
  induction 1 as [|d s Hs IH Hd]; cbn; constructor; [|done]. intros (x & Hx & Hin)%list_elem_of_fmap.
  rewrite Forall_forall in Hd. specialize (Hd x Hin). rewrite <- Hx in Hd. cbn in Hd.
  pose proof (String.compare_antisym (d_name d) (d_name d)) as Ha. by rewrite Hd in Ha.
Qed.

Lemma read_defines_valid {Y : Yaml} {YR : YamlRead} v s : read_defines v = Some s -> valid_defines s /\ in_set_order s.
Proof.
  unfold read_defines. intros (node & _ & H)%bind_Some. apply bind_Some in H as (l & Hl & [= <-]).
  assert (forall ds s, in_set_order s -> Forall (fun d => Forall good_type (d_appenders d)) s ->
    Forall (fun d => Forall good_type (d_appenders d)) ds ->
    in_set_order (foldl (fun s d => set_insert d s) s ds)
    /\ Forall (fun d => Forall good_type (d_appenders d)) (foldl (fun s d => set_insert d s) s ds)) as Hfold.
  { induction ds as [|d ds IH]; intros s Ho Hg Hds; [done|]. cbn. apply Forall_cons in Hds as [Hd Hds]. apply IH; [..|done].
    - by apply defines_insert_sorted.
    - apply Forall_forall. intros x [-> | Hx]%defines_insert_elem; [done|]. rewrite Forall_forall in Hg. auto. }
  destruct (Hfold (kept l) []) as [Ho Hg]; [constructor|constructor| |].
  - apply Forall_forall. intros d Hin%kept_elem. destruct (map_option_elem _ _ _ _ Hl Hin) as (k & _ & Hk).
    by eapply read_define_types.
  - split; [split; [by apply in_set_order_NoDup|done]|done].
Qed.

(** ** Properties *)

(** C22: In every sequence of calls on loggers and appenders, in which an
    appender is made for one logger and is given no null formatter, an object
    that is used exists and an event is logged only when the dates it prints fit
    in their buffers of 64 bytes, the objects stay well formed: names and
    loggers correspond, only the root has no root, an appender belongs to one
    logger and has its own formatter or the one its logger has now. Every such
    call returns. *)
Theorem logging_safe can_open strftime g :
  used can_open strftime g ->
  logs_ok g /\ forall c, allowed strftime c g -> exists g', do_call can_open strftime c g = Ok g' /\ logs_ok g'.
Proof. intros Hg. pose proof (used_ok _ _ g Hg) as H. split; [done|]. intros c. by apply do_call_ok. Qed.

(** Dates of up to twenty characters have room. *)
Definition short_date (fmt : string) (t : Z) : option string := if (String.length fmt <=? 20)%nat then Some fmt else None.
Definition opens (p k : nat) : bool := true.
Definition first_logs : logs :=
  match newLoggerManager with Ok g => g | Err _ => Logs ∅ ∅ ∅ 0 "" 0 end.

Definition hello : LogEvent := event_format (Some "hello") (newLogEvent 0 INFO "a.cc" 7 0 1 0 100 "main").

Lemma logging_safe_witness : logs_ok first_logs
  /\ (exists g', do_call opens short_date (CPattern 0 "%m%n") first_logs = Ok g' /\ logs_ok g')
  /\ exists g', do_call opens short_date (CLog 0 INFO hello) first_logs = Ok g' /\ logs_ok g'.
Proof.
  assert (used opens short_date first_logs) as Hu by (apply used_start; vm_compute; reflexivity).
  destruct (logging_safe opens short_date first_logs Hu) as [H Hc].
  split; [exact H|]. split; apply Hc; [|split; [|apply dates_fitb_sound; vm_compute; reflexivity]];
    eexists; vm_compute; reflexivity.
Defined.

(** C25: In every use of loggers and appenders in which an appender is made for
    one logger and is given no null formatter, an event whose dates fit in the
    buffers of 64 bytes of the appenders that print it is handled once by each
    appender of its logger, or of the root when it has none, in their order, if
    the levels of the loggers on the way allow it, and by no other; each decides
    by its own level. Nothing but the streams of those appenders and the console
    changes. *)
Theorem log_delivered can_open strftime p l level event g :
  used can_open strftime g -> g_loggers g !! p = Some l -> dates_fit strftime p level (e_time event) g ->
  let to := if (l_level l <=? level)%Z then
              match l_appenders l, g_loggers g !! m_root g with
              | [], Some r => if (l_level r <=? level)%Z then l_appenders r else []
              | aps, _ => aps
              end
            else [] in
  exists g' outs, log can_open strftime p level event g = Ok g' /\ streams_only g g'
    /\ Forall2 (fun ap out => exists a, g_appenders g !! ap = Some a
         /\ appender_log can_open strftime (logger_name g) ap a level event = Ok out
         /\ g_appenders g' !! ap = Some out.1) to outs
    /\ (forall ap, ap ∉ to -> g_appenders g' !! ap = g_appenders g !! ap)
    /\ g_cout g' = g_cout g ++ joined (map snd outs).
Proof.
  intros Hg Hp Hfit to. pose proof (used_ok _ _ g Hg) as H.
  assert (to = receivers p level g) as ->; [|by eapply log_spec].
  subst to. unfold receivers. rewrite Hp, (ok_roots g H p l Hp). destruct (l_level l <=? level)%Z; [|by destruct (decide (p = m_root g))].
  destruct (l_appenders l) as [|x xs] eqn:Ea; [|done].
  destruct (decide (p = m_root g)) as [<-|]; [|by destruct (ok_root g H) as [r ->]]. rewrite Hp, Ea. by destruct (l_level l <=? level)%Z.
Qed.

Lemma log_delivered_witness : exists g' (outs : list (LogAppender * string)), log opens short_date 0 INFO hello first_logs = Ok g'
  /\ List.length outs = 1 /\ g_cout g' = "" ++ joined (map snd outs).
Proof.
  destruct (g_loggers first_logs !! 0) as [l|] eqn:E; [|vm_compute in E; discriminate E].
  destruct (log_delivered opens short_date 0 l INFO hello first_logs
    ltac:(apply used_start; vm_compute; reflexivity) E ltac:(apply dates_fitb_sound; vm_compute; reflexivity)) as (g' & outs & H1 & _ & H2 & _ & H3).
  exists g', outs. split; [exact H1|]. split; [|exact H3]. apply Forall2_length in H2.
  vm_compute in E. injection E as <-. vm_compute in H2. symmetry. exact H2.
Defined.

(** C23: Over any sequence of configuration changes, look-ups of loggers and
    events whose dates fit in their buffers of 64 bytes, the loggers are as the
    definitions last loaded say: level, appenders with their kinds, levels and
    own patterns, and the pattern if it is one. Whatever text is loaded next,
    the listener returns, if the date of its own log line fits, with the loggers
    as the definitions in it say, and a logger it no longer names hands out no
    event up to level FATAL. *)
Theorem log_config_followed {Y : Yaml} {YR : YamlRead} can_open strftime file tid fid time tn v old new g :
  configured can_open strftime old g -> dates_fit strftime (m_root g) INFO (u64 time) g -> read_defines v = Some new ->
  (forall d, d ∈ old -> follows d g)
  /\ exists g', on_logs_changed can_open strftime file tid fid time tn old new g = Ok g'
     /\ configured can_open strftime new g' /\ (forall d, d ∈ new -> follows d g')
     /\ forall d, d ∈ old -> set_find d new = None -> exists p, m_loggers g' !! d_name d = Some p
          /\ forall level, (level <= FATAL)%Z -> receivers p level g' = [].
Proof.
  intros Hg Hd [Hv _]%read_defines_valid. destruct (configured_ok _ _ _ _ Hg) as [H Hf]. split; [done|].
  destruct (on_logs_changed_ok can_open strftime file tid fid time tn old new g H Hd Hv Hf) as (g' & E & H' & Hn & Hgone).
  exists g'. split_and!; [done|by eapply conf_change|done|]. intros d Hin Hnone.
  destruct (Hgone d Hin Hnone) as (p & l & Hp & Hl & Hlev & _). exists p. split; [done|]. intros level Hle.
  unfold receivers. rewrite Hl, Hlev. cbn. unfold FATAL in Hle. destruct (Z.leb_spec 100 level); [lia|]. by destruct (l_root l).
Qed.

Definition demo_read : YamlRead := {|
  subscript n k := match n with
    | Map l => Some (snd <$> List.find (fun e => match e.1 with Scalar s => String.eqb s k | _ => false end) l)
    | _ => Some None
    end;
  as_string n := match n with Scalar s => Some s | _ => None end;
|}.

Lemma demo_read_laws : @YamlReadLaws demo_read.
Proof. split; reflexivity. Qed.

Definition old_defines : list LogDefine :=
  [mkLogDefine "root" INFO "%m%n" [mkAppenderDefine 2 UNKNOW "" ""];
   mkLogDefine "system" DEBUG "%d%m%n" [mkAppenderDefine 1 UNKNOW "%p" "/tmp/a"]].
Definition new_defines : list LogDefine :=
  [mkLogDefine "root" WARN "%d{%H}%m%n" [mkAppenderDefine 1 UNKNOW "" "/tmp/r"; mkAppenderDefine 2 UNKNOW "" ""];
   mkLogDefine "web" ERROR "" []].
Definition old_logs : logs :=
  match on_logs_changed opens short_date "log.cc" 1 0 90 "main" [] old_defines first_logs with
  | Ok g => g
  | Err _ => first_logs
  end.

Lemma log_config_followed_witness :
  @read_defines bit_yaml demo_read (@print_defines bit_yaml new_defines) = Some new_defines
  /\ follows (mkLogDefine "system" DEBUG "%d%m%n" [mkAppenderDefine 1 UNKNOW "%p" "/tmp/a"]) old_logs
  /\ exists g', on_logs_changed opens short_date "log.cc" 1 0 100 "main" old_defines new_defines old_logs = Ok g'
     /\ follows (mkLogDefine "web" ERROR "" []) g'
     /\ exists p, m_loggers g' !! "system" = Some p /\ receivers p FATAL g' = [].
Proof.
  assert (Hread : @read_defines bit_yaml demo_read (@print_defines bit_yaml new_defines) = Some new_defines).
  { apply (@defines_roundtrip bit_yaml bit_yaml_laws demo_read demo_read_laws new_defines);
      repeat constructor; cbn; unfold good_type; cbn; try (left; reflexivity); try (right; reflexivity); discriminate. }
  destruct (@log_config_followed bit_yaml demo_read opens short_date "log.cc" 1 0 100 "main"
    (@print_defines bit_yaml new_defines) old_defines new_defines old_logs) as (H1 & g' & H2 & _ & H3 & H4).
  - eapply (conf_change opens short_date "log.cc" 1 0 90 "main" [] old_defines first_logs).
    + apply conf_start. vm_compute. reflexivity.
    + apply dates_fitb_sound. vm_compute. reflexivity.
    + split; [repeat constructor; vm_compute; intros H; inversion H; subst; try discriminate; inversion H2|].
      repeat constructor; unfold good_type; cbn; try (left; reflexivity); right; reflexivity.
    + vm_compute. reflexivity.
  - apply dates_fitb_sound. vm_compute. reflexivity.
  - exact Hread.
  - split; [exact Hread|]. split; [apply H1; right; left|]. exists g'. split; [exact H2|]. split; [apply H3; right; left|].
    destruct (H4 (mkLogDefine "system" DEBUG "%d%m%n" [mkAppenderDefine 1 UNKNOW "%p" "/tmp/a"])) as (p & Hp & Hr).
    + right. left.
    + vm_compute. reflexivity.
    + exists p. split; [exact Hp|]. apply Hr. discriminate.
Defined.

(** A set of definitions printed as YAML reads back with every name, level,
    pattern and appender in order, but without the levels of the appenders and
    the patterns of console appenders. *)
Theorem log_defines_roundtrip {Y : Yaml} {YL : YamlLaws} {YR : YamlRead} {YRL : YamlReadLaws} s :
  in_set_order s -> Forall (fun d => Forall good_type (d_appenders d) /\ (UNKNOW <= d_level d <= FATAL)%Z) s ->
  to_str cast_log_defines s = Some (print_defines s)
  /\ from_str cast_log_defines (print_defines s) = Some (map forget_define s).
Proof. intros Ho Hs. split; [done|]. by apply defines_roundtrip. Qed.

Definition demo_defines : list LogDefine :=
  [mkLogDefine "root" INFO "%m%n" [mkAppenderDefine 1 ERROR "%d" "/tmp/a"; mkAppenderDefine 2 WARN "%m" ""];
   mkLogDefine "system" UNKNOW "" []].

Lemma log_defines_roundtrip_witness :
  from_str (@cast_log_defines bit_yaml demo_read) (@print_defines bit_yaml demo_defines)
  = Some [mkLogDefine "root" INFO "%m%n" [mkAppenderDefine 1 UNKNOW "%d" "/tmp/a"; mkAppenderDefine 2 UNKNOW "" ""];
          mkLogDefine "system" UNKNOW "" []].
Proof.
  apply (@log_defines_roundtrip bit_yaml bit_yaml_laws demo_read).
  - constructor; reflexivity.
  - repeat constructor.
  - repeat constructor; cbn; unfold good_type; cbn; try (left; reflexivity); try (right; reflexivity); discriminate.
Defined.

(** C26: A log file holds exactly the events since it was last opened, which
    empties it, and so covers less than three seconds: for a file appender with
    a formatter, events in the order of their times, at level DEBUG or above,
    below 2^64 - 3 seconds and with dates that fit in their buffers of 64 bytes,
    and a file that can be opened every time. *)
Theorem log_file_recent can_open strftime name_of p file f es :
  Forall (fun e => fits strftime (e_time e) f) es -> (forall k, can_open p k = true) ->
  in_time es -> Forall (fun e => (DEBUG <= e_level e)%Z) es ->
  exists a, file_logs can_open strftime name_of p es
      (appender_setFormatter (Some f) (newFileLogAppender can_open p file)) = Ok a
    /\ s_text (m_filestream a) = joined (map (event_text strftime name_of f) (since (m_lastTime a) es))
    /\ Forall (fun e => (e_time e < m_lastTime a + 3)%Z) es.
Proof.
  intros Hfit Hopen Ht Hl.
  destruct (file_logs_hold can_open strftime name_of p f es
    (appender_setFormatter (Some f) (newFileLogAppender can_open p file)) Hfit Hopen Ht) as (a & E & [_ _ H1 H2 _] & _).
  - done.
  - unfold newFileLogAppender, reopen, reopen_stream, stream_open. cbn. rewrite Hopen. split; cbn; try done. by left.
  - by exists a.
Qed.

Definition at_time (t : Z) : LogEvent := newLogEvent 0 INFO "a.cc" 7 0 1 0 t "main".

Lemma log_file_recent_witness : exists a, file_logs opens short_date (fun _ => "root") 0 [at_time 10; at_time 11; at_time 20]
    (appender_setFormatter (Some (mkFormatter "%p" [LevelFormatItem] false)) (newFileLogAppender opens 0 "f")) = Ok a
  /\ s_text (m_filestream a) = "INFO".
Proof.
  destruct (log_file_recent opens short_date (fun _ => "root") 0 "f" (mkFormatter "%p" [LevelFormatItem] false)
    [at_time 10; at_time 11; at_time 20]) as (a & E & H & _).
  - repeat constructor.
  - intros; reflexivity.
  - split; repeat constructor; cbn; discriminate.
  - repeat constructor; cbn; discriminate.
  - exists a. split; [exact E|]. rewrite H. vm_compute in E. injection E as <-. vm_compute. reflexivity.
Defined.

(** ** What goes wrong *)

(** An appender that moves to another logger keeps the formatter it inherited. *)
Lemma moved_appender_keeps_formatter : exists g p q a l,
  (g ← newLoggerManager; '(p, g) ← getLogger "a" g; '(q, g) ← getLogger "b" g;
   g ← setFormatter_pattern p "%m" g; let '(ap, g) := new_appender newStdLogAppender g in
   g ← addAppender p ap g; g ← delAppender p ap g; g ← addAppender q ap g; Ok (p, q, ap, g)) = Ok (p, q, a, g)
  /\ g_loggers g !! q = Some l
  /\ (exists x, g_appenders g !! a = Some x /\ hasFormatter x = false /\ a_formatter x <> l_formatter l).
Proof.
  eexists _, _, _, _, _. split; [vm_compute; reflexivity|]. split; [vm_compute; reflexivity|].
  eexists. split; [vm_compute; reflexivity|]. split; [reflexivity|]. vm_compute. discriminate.
Qed.

(** A null formatter given to an attached appender makes the next event
    undefined. *)
Lemma null_formatter_undefined : exists a, g_appenders first_logs !! 1 = Some a
  /\ log opens short_date 0 INFO hello (put_appender 1 (appender_setFormatter None a) first_logs) = Err (UB null_deref).
Proof. eexists. split; [vm_compute; reflexivity|]. vm_compute. reflexivity. Qed.
