(* ===== verification/Mutex.v ===== *)
(** * [sylar/mutex.h], [sylar/mutex.cc]: locks and their scopes

    The scoped locks over an interface of locks; the lock made of an
    [std::atomic_flag] and the empty lock implement it, the pthread locks are a
    parameter.  What the scopes promise is what the rest of the development
    uses: a section under a lock is one step. *)

From stdpp Require Import base list gmap.
From Stdlib Require Import ZArith Lia.
From S2P Require Import Prelude.

(** ** Locks *)

(** [lock] and [unlock]; [None] while the caller has to wait. *)
Class Lockable (M : Type) := {
  lk_init : M;
  lk_lock : M -> option M;
  lk_unlock : M -> M;
}.

(** What a lock promises: it is taken when it is free and only then. *)
Class LockLaws (M : Type) `{!Lockable M} := {
  held : M -> bool;
  held_init : held lk_init = false;
  lock_free m : held m = false -> exists m', lk_lock m = Some m' /\ held m' = true;
  lock_held m : held m = true -> lk_lock m = None;
  unlock_held m : held m = true -> held (lk_unlock m) = false;
}.

(** [CASLock]: an [std::atomic_flag] *)
Definition CASLock : Type := bool.
(** [test_and_set]: the old value and the new flag. *)
Definition test_and_set (m_mutex : CASLock) : bool * CASLock := (m_mutex, true).
(** One turn of the loop of [lock]. *)
Definition cas_lock (m_mutex : CASLock) : option CASLock :=
  let '(old, m_mutex) := test_and_set m_mutex in if old then None else Some m_mutex.
Definition cas_unlock (m_mutex : CASLock) : CASLock := false.
#[export] Instance CASLock_lockable : Lockable CASLock := {| lk_init := false; lk_lock := cas_lock; lk_unlock := cas_unlock |}.
#[export] Instance CASLock_laws : LockLaws CASLock.
Proof. by refine {| held := fun m => m |}; [|intros [] ?; [|eexists]|intros []|]. Defined.

(** [NullMutex] keeps nobody out. *)
Definition NullMutex : Type := unit.
Definition NullMutex_lockable : Lockable NullMutex := {| lk_init := tt; lk_lock m := Some m; lk_unlock m := m |}.

(** [pthread_mutex_t] and [pthread_spinlock_t]: [Mutex] and [SpinLock] call them
    and do nothing else. *)
Class Pthread := {
  pthread_mutex_t : Type;
  pthread_mutex_init : pthread_mutex_t;
  pthread_mutex_lock : pthread_mutex_t -> option pthread_mutex_t;
  pthread_mutex_unlock : pthread_mutex_t -> pthread_mutex_t;
}.
Definition Mutex_lockable `{!Pthread} : Lockable pthread_mutex_t :=
  {| lk_init := pthread_mutex_init; lk_lock := pthread_mutex_lock; lk_unlock := pthread_mutex_unlock |}.

(** ** [ScopedLockImpl] *)

Section scoped.
Context {M : Type} `{!Lockable M}.

(** The mutex a scope refers to, and its [m_locked]. *)
Definition scope : Type := M * bool.

Definition scoped_new (m : M) : option scope := m ← lk_lock m; Some (m, true).
Definition scoped_lock (s : scope) : option scope :=
  if negb s.2 then m ← lk_lock s.1; Some (m, true) else Some s.
Definition scoped_unlock (s : scope) : scope :=
  if s.2 then (lk_unlock s.1, false) else s.
(** The destructor. *)
Definition scoped_delete (s : scope) : M := (scoped_unlock s).1.
End scoped.

(** ** Threads with scopes *)

Section sections.
Context {M : Type} {L : Lockable M} {D : Type}.

(** A thread is outside, or in a scope whose [m_locked] is given, with the
    updates of the shared data it has still to make under the lock. *)
Record state := State {
  st_mutex : M;
  st_scopes : gmap nat (bool * list (D -> D));
  st_data : D;
}.

Inductive label :=
  | Construct (t : nat) (us : list (D -> D))
  | Lock (t : nat) (us : list (D -> D))
  | Update (t : nat)
  | Unlock (t : nat)
  | Delete (t : nat).

(** A step of a thread; [None] when it is not possible.  The updates of a
    section are made before it unlocks. *)
Definition step (x : label) (s : state) : option state :=
  match x with
  | Construct t us =>
      match st_scopes s !! t with
      | Some _ => None
      | None => '(m, b) ← scoped_new (st_mutex s); Some (State m (<[t := (b, us)]> (st_scopes s)) (st_data s))
      end
  | Lock t us =>
      match st_scopes s !! t with
      | Some (false, _) => '(m, b) ← scoped_lock (st_mutex s, false); Some (State m (<[t := (b, us)]> (st_scopes s)) (st_data s))
      | Some (true, vs) => '(m, b) ← scoped_lock (st_mutex s, true); Some (State m (<[t := (b, vs)]> (st_scopes s)) (st_data s))
      | None => None
      end
  | Update t =>
      match st_scopes s !! t with
      | Some (true, u :: us) => Some (State (st_mutex s) (<[t := (true, us)]> (st_scopes s)) (u (st_data s)))
      | _ => None
      end
  | Unlock t =>
      match st_scopes s !! t with
      | Some (b, []) => let '(m, b) := scoped_unlock (st_mutex s, b) in
                        Some (State m (<[t := (b, [])]> (st_scopes s)) (st_data s))
      | _ => None
      end
  | Delete t =>
      match st_scopes s !! t with
      | Some (b, []) => Some (State (scoped_delete (st_mutex s, b)) (delete t (st_scopes s)) (st_data s))
      | _ => None
      end
  end.

Fixpoint steps (xs : list label) (s : state) : option state :=
  match xs with
  | [] => Some s
  | x :: xs => s ← step x s; steps xs s
  end.

(** The section a step begins: [lock] on a scope that has the lock begins
    none. *)
Definition begins (x : label) (s : state) : list (list (D -> D)) :=
  match x with
  | Construct _ us => [us]
  | Lock t us => match st_scopes s !! t with Some (true, _) => [] | _ => [us] end
  | _ => []
  end.
Fixpoint entered (xs : list label) (s : state) : list (list (D -> D)) :=
  match xs with
  | [] => []
  | x :: xs => begins x s ++ match step x s with Some s' => entered xs s' | None => [] end
  end.

(** A section in one step. *)
Definition run_section (d : D) (us : list (D -> D)) : D := foldl (fun d u => u d) d us.

Definition mutex_start (d : D) : state := State lk_init ∅ d.

Context {LL : LockLaws M}.

(** Nobody is in, or one thread is and the lock is held. *)
Record excl (s : state) (d : D) : Prop := {
  ex_one : forall t t' us us', st_scopes s !! t = Some (true, us) -> st_scopes s !! t' = Some (true, us') -> t = t';
  ex_held : held (st_mutex s) = true <-> exists t us, st_scopes s !! t = Some (true, us);
  ex_idle : forall t us, st_scopes s !! t = Some (false, us) -> us = [];
  (** [d] is the data once the thread inside has finished. *)
  ex_in : forall t us, st_scopes s !! t = Some (true, us) -> run_section (st_data s) us = d;
  ex_out : held (st_mutex s) = false -> st_data s = d;
}.

Lemma excl_start d : excl (mutex_start d) d.
Proof.
  split; cbn; try (intros; by rewrite lookup_empty in *); [|done].
  rewrite held_init. split; [done|]. intros (t & us & H). by rewrite lookup_empty in H.
Qed.

Lemma excl_take s d t us m o :
  excl s d -> held (st_mutex s) = false -> held m = true -> st_scopes s !! t = o -> match o with Some (b, _) => b = false | None => True end ->
  excl (State m (<[t := (true, us)]> (st_scopes s)) (st_data s)) (run_section d us).
Proof.
  intros [H1 H2 H3 H4 H5] Hf Hm Ho Hb.
  assert (forall t' vs, st_scopes s !! t' <> Some (true, vs)) as Hno.
  { intros t' vs Ht. assert (held (st_mutex s) = true) by (apply H2; eauto). congruence. }
  split; cbn.
  - intros t1 t2 u1 u2 [[<- _]|[_ A]]%lookup_insert_Some [[<- _]|[_ B]]%lookup_insert_Some; try done; exfalso; by eapply Hno.
  - rewrite Hm. split; [|done]. intros _. exists t, us. apply lookup_insert_eq.
  - intros t1 u1 [[_ [=]]|[_ A]]%lookup_insert_Some. eauto.
  - intros t1 u1 [[<- [= <-]]|[_ A]]%lookup_insert_Some; [by rewrite H5|exfalso; by eapply Hno].
  - congruence.
Qed.

Lemma excl_release s d t sc : excl s d -> st_scopes s !! t = Some (true, []) ->
  (forall t' b us, sc !! t' = Some (b, us) -> (b = false /\ us = []) \/ (t' <> t /\ st_scopes s !! t' = Some (b, us))) ->
  excl (State (lk_unlock (st_mutex s)) sc (st_data s)) d.
Proof.
  intros [H1 H2 H3 H4 H5] Ht Hsc.
  assert (held (st_mutex s) = true) as Hh by (apply H2; eauto). pose proof (unlock_held _ Hh) as Hu.
  assert (forall t' vs, sc !! t' <> Some (true, vs)) as Hno.
  { intros t' vs A. destruct (Hsc _ _ _ A) as [[? _]|[Hne B]]; [done|]. apply Hne. by eapply H1. }
  split; cbn.
  - intros t1 t2 u1 u2 A. exfalso. by eapply Hno.
  - rewrite Hu. split; [done|]. intros (t' & us & A). exfalso. by eapply Hno.
  - intros t1 u1 A. destruct (Hsc _ _ _ A) as [[_ ?]|[_ B]]; [done|eauto].
  - intros t1 u1 A. exfalso. by eapply Hno.
  - intros _. exact (H4 t [] Ht).
Qed.

Lemma excl_step x s s' d : excl s d -> step x s = Some s' -> excl s' (foldl run_section d (begins x s)).
Proof.
  intros H E. pose proof H as [H1 H2 H3 H4 H5]. destruct x as [t us|t us|t|t|t]; cbn [step begins foldl] in *.
  - destruct (st_scopes s !! t) eqn:Et; [done|]. unfold scoped_new in E.
    destruct (held (st_mutex s)) eqn:Eh; [by rewrite lock_held in E|].
    destruct (lock_free _ Eh) as (m & Em & Hm). rewrite Em in E. cbn in E. injection E as <-. by eapply excl_take.
  - destruct (st_scopes s !! t) as [[[] vs]|] eqn:Et; [| |done]; unfold scoped_lock in E; cbn in E.
    + injection E as <-. rewrite insert_id by done. by destruct s.
    + destruct (held (st_mutex s)) eqn:Eh; [by rewrite lock_held in E|].
      destruct (lock_free _ Eh) as (m & Em & Hm). rewrite Em in E. cbn in E. injection E as <-. by eapply excl_take.
  - destruct (st_scopes s !! t) as [[[] [|u us]]|] eqn:Et; try done. injection E as <-.
    assert (held (st_mutex s) = true) as Hh by (apply H2; eauto).
    split; cbn.
    + intros t1 t2 u1 u2 [[<- _]|[N1 A]]%lookup_insert_Some [[<- _]|[N2 B]]%lookup_insert_Some; eauto.
    + split; [|done]. intros _. exists t, us. apply lookup_insert_eq.
    + intros t1 u1 [[_ [=]]|[_ A]]%lookup_insert_Some. eauto.
    + intros t1 u1 [[<- [= <-]]|[N1 A]]%lookup_insert_Some; [exact (H4 t (u :: us) Et)|]. exfalso. apply N1. by eapply H1.
    + congruence.
  - destruct (st_scopes s !! t) as [[b [|]]|] eqn:Et; try done. destruct b; cbn in E; injection E as <-.
    + eapply excl_release; [done|exact Et|]. intros t' b us [[<- [= <- <-]]|[N A]]%lookup_insert_Some; [by left|right; auto].
    + rewrite insert_id by done. by destruct s.
  - destruct (st_scopes s !! t) as [[b [|]]|] eqn:Et; try done. injection E as <-. destruct b; cbn.
    + eapply excl_release; [done|exact Et|]. intros t' b us [N A]%lookup_delete_Some. right. auto.
    + unfold scoped_delete, scoped_unlock. cbn. split; cbn.
      * intros t1 t2 u1 u2 [_ A]%lookup_delete_Some [_ B]%lookup_delete_Some. eauto.
      * rewrite H2. split; intros (t' & us & A).
        -- exists t', us. apply lookup_delete_Some. split; [|done]. intros <-. congruence.
        -- apply lookup_delete_Some in A as [_ A]. eauto.
      * intros t1 u1 [_ A]%lookup_delete_Some. eauto.
      * intros t1 u1 [_ A]%lookup_delete_Some. eauto.
      * done.
Qed.

Lemma excl_steps xs : forall s s' d, excl s d -> steps xs s = Some s' -> excl s' (foldl run_section d (entered xs s)).
Proof.
  induction xs as [|x xs IH]; intros s s' d H E; [by injection E as <-|]. cbn in E |- *.
  destruct (step x s) as [s1|] eqn:E1; [|done]. rewrite foldl_app. apply (IH s1); [|done]. by eapply excl_step.
Qed.

(** Who waits waits for a thread that can go on. *)
Lemma waits_for s d t us : excl s d -> st_scopes s !! t = None -> step (Construct t us) s = None ->
  exists t' vs, st_scopes s !! t' = Some (true, vs) /\ is_Some (step (match vs with [] => Unlock t' | _ => Update t' end) s).
Proof.
  intros [H1 H2 H3 H4 H5] Ht E. cbn in E. rewrite Ht in E. unfold scoped_new in E.
  destruct (held (st_mutex s)) eqn:Eh.
  - destruct (proj1 H2 eq_refl) as (t' & vs & A). exists t', vs. split; [done|]. destruct vs; cbn; rewrite A; eauto.
  - destruct (lock_free _ Eh) as (m & Em & _). by rewrite Em in E.
Qed.
End sections.
Arguments label D : clear implicits.
Arguments state M D : clear implicits.

(** ** Properties *)

(** C27: Threads that work on shared data inside scoped locks of one mutex, in
    any interleaving of constructors, [lock], [unlock], destructors and single
    updates: at most one scope has the lock, and once all are out the data is
    what the sections give when each runs in one step, in the order in which
    they were entered; who waits waits for a thread that can take a step. *)
Theorem sections_atomic {M D : Type} {L : Lockable M} {LL : LockLaws M} (d : D) (xs : list (label D)) (s : state M D) :
  steps xs (mutex_start d) = Some s ->
  (forall t t' us us', st_scopes s !! t = Some (true, us) -> st_scopes s !! t' = Some (true, us') -> t = t')
  /\ ((forall t b us, st_scopes s !! t = Some (b, us) -> b = false) ->
      st_data s = foldl run_section d (entered xs (mutex_start d)))
  /\ (forall t us, st_scopes s !! t = None -> step (Construct t us) s = None ->
      exists t' vs, st_scopes s !! t' = Some (true, vs)
        /\ is_Some (step (match vs with [] => Unlock t' | _ => Update t' end) s)).
Proof.
  intros E. pose proof (excl_steps xs _ _ d (excl_start d) E) as H. split_and!.
  - exact (ex_one _ _ H).
  - intros Hout. apply (ex_out _ _ H). destruct (held (st_mutex s)) eqn:Eh; [|done].
    destruct (proj1 (ex_held _ _ H) Eh) as (t & us & A). by specialize (Hout _ _ _ A).
  - intros t us. by eapply waits_for.
Qed.

Definition two_sections : list (label Z) :=
  [Construct 1 [Z.add 1; Z.mul 2]%Z; Update 1; Update 1; Unlock 1; Construct 2 [Z.add 5]%Z; Update 2; Delete 2; Delete 1].

Lemma sections_atomic_witness : exists s : state CASLock Z, steps two_sections (mutex_start 3%Z) = Some s /\ st_data s = 13%Z.
Proof.
  eexists. split; [vm_compute; reflexivity|].
  refine (proj1 (proj2 (sections_atomic (M := CASLock) 3%Z two_sections _ _)) _); [vm_compute; reflexivity|].
  intros t b us H. vm_compute in H. discriminate H.
Defined.

(** The empty lock lets two threads in at once. *)
Lemma null_mutex_excludes_nobody : exists s : state NullMutex Z,
  @steps _ NullMutex_lockable _ [Construct 1 []; Construct 2 []] (@mutex_start _ NullMutex_lockable _ 0%Z) = Some s
  /\ st_scopes s !! 1 = Some (true, []) /\ st_scopes s !! 2 = Some (true, []).
Proof. eexists. split; [vm_compute; reflexivity|]. split; vm_compute; reflexivity. Qed.

(** ** Read and write locks *)

(** [rdlock], [wrlock] and [unlock]; [None] while the caller has to wait. *)
Class RWLockable (M : Type) := {
  rw_init : M;
  rw_rdlock : M -> option M;
  rw_wrlock : M -> option M;
  rw_unlock : M -> M;
}.

(** What a [pthread_rwlock_t] promises to [RWMutex], which only calls it: how
    many have it for reading, whether one has it for writing.  A reader may have
    to wait also when nobody writes. *)
Class RWLaws (M : Type) `{!RWLockable M} := {
  readers : M -> nat;
  writing : M -> bool;
  rw_fresh : readers rw_init = 0 /\ writing rw_init = false;
  rdlock_got m m' : rw_rdlock m = Some m' -> writing m = false /\ writing m' = false /\ readers m' = S (readers m);
  wrlock_got m m' : rw_wrlock m = Some m' ->
    writing m = false /\ readers m = 0 /\ writing m' = true /\ readers m' = 0;
  unlock_writer m : writing m = true -> writing (rw_unlock m) = false /\ readers (rw_unlock m) = 0;
  unlock_reader m n : writing m = false -> readers m = S n ->
    writing (rw_unlock m) = false /\ readers (rw_unlock m) = n;
}.

(** [ReadScopedLockImpl] and [WriteScopedLockImpl] *)
Inductive mode := Reading | Writing.
#[export] Instance mode_eq_dec : EqDecision mode.
Proof. solve_decision. Defined.

Section rwscoped.
Context {M : Type} `{!RWLockable M}.

Definition rw_take (k : mode) (m : M) : option M := match k with Reading => rw_rdlock m | Writing => rw_wrlock m end.
Definition rw_scoped_new (k : mode) (m : M) : option (M * bool) := m ← rw_take k m; Some (m, true).
Definition rw_scoped_lock (k : mode) (s : M * bool) : option (M * bool) :=
  if negb s.2 then m ← rw_take k s.1; Some (m, true) else Some s.
Definition rw_scoped_unlock (s : M * bool) : M * bool := if s.2 then (rw_unlock s.1, false) else s.
End rwscoped.

Section rwsections.
Context {M : Type} {L : RWLockable M} {D : Type}.

Record rw_state := RWState { rw_mutex : M; rw_scopes : gmap nat (mode * bool); rw_data : D }.

Inductive rw_label :=
  | RWConstruct (t : nat) (k : mode)
  | RWLock (t : nat)
  | RWUpdate (t : nat) (u : D -> D)
  | RWUnlock (t : nat)
  | RWDelete (t : nat).

(** A step; only a scope that has the lock for writing updates the data. *)
Definition rw_step (x : rw_label) (s : rw_state) : option rw_state :=
  match x with
  | RWConstruct t k =>
      match rw_scopes s !! t with
      | Some _ => None
      | None => '(m, b) ← rw_scoped_new k (rw_mutex s); Some (RWState m (<[t := (k, b)]> (rw_scopes s)) (rw_data s))
      end
  | RWLock t =>
      '(k, b) ← rw_scopes s !! t;
      '(m, b) ← rw_scoped_lock k (rw_mutex s, b);
      Some (RWState m (<[t := (k, b)]> (rw_scopes s)) (rw_data s))
  | RWUpdate t u =>
      match rw_scopes s !! t with
      | Some (Writing, true) => Some (RWState (rw_mutex s) (rw_scopes s) (u (rw_data s)))
      | _ => None
      end
  | RWUnlock t =>
      '(k, b) ← rw_scopes s !! t;
      let '(m, b) := rw_scoped_unlock (rw_mutex s, b) in
      Some (RWState m (<[t := (k, b)]> (rw_scopes s)) (rw_data s))
  | RWDelete t =>
      '(k, b) ← rw_scopes s !! t;
      Some (RWState (rw_scoped_unlock (rw_mutex s, b)).1 (delete t (rw_scopes s)) (rw_data s))
  end.

Fixpoint rw_steps (xs : list rw_label) (s : rw_state) : option rw_state :=
  match xs with
  | [] => Some s
  | x :: xs => s ← rw_step x s; rw_steps xs s
  end.
Definition rw_start (d : D) : rw_state := RWState rw_init ∅ d.

(** *** Counting the scopes that have the lock *)

Definition has (k : mode) (x : nat * (mode * bool)) : Prop := x.2 = (k, true).
#[local] Instance has_dec k x : Decision (has k x).
Proof. unfold has. apply _. Defined.
Definition count (k : mode) (sc : gmap nat (mode * bool)) : nat := size (filter (has k) sc).
Definition weight (k : mode) (o : option (mode * bool)) : nat := if decide (o = Some (k, true)) then 1 else 0.

Lemma weight_kept k k' : weight k (Some (k', true)) = match k, k' with Reading, Reading | Writing, Writing => 1 | _, _ => 0 end.
Proof. unfold weight. case_decide; destruct k, k'; congruence. Qed.
Lemma weight_free k k' : weight k (Some (k', false)) = 0.
Proof. unfold weight. rewrite decide_False by congruence. done. Qed.

Lemma weight_none k : weight k None = 0.
Proof. unfold weight. rewrite decide_False by congruence. done. Qed.

Lemma scopes_insert k t x sc : count k (<[t := x]> sc) = weight k (Some x) + count k (delete t sc).
Proof.
  unfold count, weight. rewrite map_filter_insert. destruct (decide (has k (t, x))) as [H|H]; unfold has in H; cbn in H.
  - subst x. rewrite decide_True by done. rewrite map_filter_delete, <- insert_delete_eq.
    rewrite map_size_insert_None by apply lookup_delete_eq. done.
  - rewrite decide_False by congruence. done.
Qed.

Lemma scopes_delete k t sc : count k sc = weight k (sc !! t) + count k (delete t sc).
Proof.
  destruct (sc !! t) as [x|] eqn:E; [|by rewrite delete_id].
  rewrite <- (insert_id sc t x E) at 1. apply scopes_insert.
Qed.

Lemma count_pos k sc : 0 < count k sc <-> exists t, sc !! t = Some (k, true).
Proof.
  split.
  - intros H. destruct (map_choose (filter (has k) sc)) as (t & x & Hx).
    { intros E. unfold count in H. rewrite E, map_size_empty in H. lia. }
    apply map_lookup_filter_Some in Hx as [Hx Hp]. exists t. unfold has in Hp. cbn in Hp. by subst x.
  - intros [t Ht]. rewrite (scopes_delete k t), Ht. unfold weight. rewrite decide_True by done. lia.
Qed.

Context {LL : RWLaws M}.

Definition rw_ok (s : rw_state) : Prop :=
  readers (rw_mutex s) = count Reading (rw_scopes s)
  /\ (if writing (rw_mutex s) then 1 else 0) = count Writing (rw_scopes s)
  /\ (writing (rw_mutex s) = true -> readers (rw_mutex s) = 0).

Lemma rw_start_ok d : rw_ok (rw_start d).
Proof. destruct rw_fresh as [H1 H2]. unfold rw_ok, count. cbn. rewrite H1, H2, !map_filter_empty. by split_and!. Qed.

(** Taking the lock, releasing it. *)
Lemma rw_take_ok k t m m' sc d : rw_ok (RWState m sc d) -> weight Reading (sc !! t) = 0 -> weight Writing (sc !! t) = 0 ->
  rw_take k m = Some m' -> rw_ok (RWState m' (<[t := (k, true)]> sc) d).
Proof.
  intros (H1 & H2 & H3) W1 W2 E. unfold rw_ok in *. cbn [rw_mutex rw_scopes] in *. rewrite !scopes_insert, !weight_kept.
  rewrite (scopes_delete Reading t) in H1. rewrite (scopes_delete Writing t) in H2. destruct k; cbn in E.
  - apply rdlock_got in E as (A & B & C). rewrite A in H2. cbn in H2. rewrite B, C. cbn. split_and!; [lia|lia|done].
  - apply wrlock_got in E as (A & B & C & F). rewrite A in H2. cbn in H2. rewrite C, F. cbn. split_and!; [lia|lia|done].
Qed.

Lemma rw_release_ok k t m sc d : rw_ok (RWState m sc d) -> sc !! t = Some (k, true) ->
  rw_ok (RWState (rw_unlock m) (delete t sc) d).
Proof.
  intros (H1 & H2 & H3) Ht. unfold rw_ok in *. cbn [rw_mutex rw_scopes] in *.
  rewrite (scopes_delete Reading t), Ht, weight_kept in H1. rewrite (scopes_delete Writing t), Ht, weight_kept in H2.
  destruct k; cbn in H1, H2.
  - destruct (writing m) eqn:W; [specialize (H3 eq_refl); lia|]. destruct (unlock_reader m _ W H1) as [A B].
    rewrite A, B. split_and!; [done|lia|done].
  - destruct (writing m) eqn:W; [|lia]. destruct (unlock_writer m W) as [A B]. rewrite A, B.
    specialize (H3 eq_refl). split_and!; [lia|lia|done].
Qed.

Lemma rw_unlocked_ok k t m sc d : rw_ok (RWState m (delete t sc) d) -> rw_ok (RWState m (<[t := (k, false)]> sc) d).
Proof. unfold rw_ok. cbn. by rewrite !scopes_insert, !weight_free. Qed.

Lemma rw_step_ok x s s' : rw_ok s -> rw_step x s = Some s' -> rw_ok s'.
Proof.
  intros H E. destruct s as [m sc d]. destruct x as [t k|t|t u|t|t]; cbn in E.
  - destruct (sc !! t) eqn:Et; [done|]. unfold rw_scoped_new in E. destruct (rw_take k m) as [m'|] eqn:Ek; [|done].
    injection E as <-. eapply rw_take_ok; [done|by rewrite Et, ?weight_none, ?weight_free..|done].
  - destruct (sc !! t) as [[k b]|] eqn:Et; [|done]. cbn in E. unfold rw_scoped_lock in E. destruct b; cbn in E.
    + injection E as <-. by rewrite insert_id.
    + destruct (rw_take k m) as [m'|] eqn:Ek; [|done]. injection E as <-. eapply rw_take_ok; [done|by rewrite Et, ?weight_none, ?weight_free..|done].
  - destruct (sc !! t) as [[[] []]|]; try done. by injection E as <-.
  - destruct (sc !! t) as [[k b]|] eqn:Et; [|done]. destruct b; cbn in E; injection E as <-.
    + apply rw_unlocked_ok. by eapply rw_release_ok.
    + by rewrite insert_id.
  - destruct (sc !! t) as [[k b]|] eqn:Et; [|done]. destruct b; cbn in E; injection E as <-; [by eapply rw_release_ok|].
    destruct H as (H1 & H2 & H3). unfold rw_ok. cbn in *. rewrite (scopes_delete Reading t), Et, weight_free in H1.
    by rewrite (scopes_delete Writing t), Et, weight_free in H2.
Qed.

Lemma rw_steps_ok xs : forall s s', rw_ok s -> rw_steps xs s = Some s' -> rw_ok s'.
Proof.
  induction xs as [|x xs IH]; intros s s' H E; [by injection E as <-|]. cbn in E.
  destruct (rw_step x s) as [s1|] eqn:E1; [|done]. eapply IH; [by eapply rw_step_ok|done].
Qed.

Lemma count_two k sc t t' : sc !! t = Some (k, true) -> sc !! t' = Some (k, true) -> t <> t' -> 2 <= count k sc.
Proof.
  intros H H' Hne. rewrite (scopes_delete k t), H. unfold weight at 1. rewrite decide_True by done.
  assert (0 < count k (delete t sc)); [|lia]. apply count_pos. exists t'. by rewrite lookup_delete_ne.
Qed.

Lemma rw_alone s t t' k : rw_ok s -> rw_scopes s !! t = Some (Writing, true) -> rw_scopes s !! t' = Some (k, true) -> t = t'.
Proof.
  intros (H1 & H2 & H3) Ht Ht'. destruct (decide (t = t')) as [|Hne]; [done|]. exfalso.
  pose proof (proj2 (count_pos Writing (rw_scopes s)) (ex_intro _ t Ht)) as Hw.
  destruct (writing (rw_mutex s)) eqn:W; [|lia]. specialize (H3 eq_refl). destruct k.
  - pose proof (proj2 (count_pos Reading (rw_scopes s)) (ex_intro _ t' Ht')). lia.
  - pose proof (count_two Writing _ t t' Ht Ht' Hne). lia.
Qed.
End rwsections.
Arguments rw_label D : clear implicits.
Arguments rw_state M D : clear implicits.

(** C28: Threads with read and write scopes of one [RWMutex], in any
    interleaving: a scope that has the lock for writing is the only one that has
    it, so the data does not change while some scope has it for reading. *)
Theorem rw_exclusion {M D : Type} {L : RWLockable M} {LL : RWLaws M} (d : D) (xs : list (rw_label D)) (s : rw_state M D) :
  rw_steps xs (rw_start d) = Some s ->
  (forall t t' k, rw_scopes s !! t = Some (Writing, true) -> rw_scopes s !! t' = Some (k, true) -> t = t')
  /\ forall t x s', rw_scopes s !! t = Some (Reading, true) -> rw_step x s = Some s' -> rw_data s' = rw_data s.
Proof.
  intros E. pose proof (rw_steps_ok xs _ _ (rw_start_ok d) E) as H. split; [intros t t' k; by apply rw_alone|].
  intros t x s' Ht Ex. destruct s as [m sc d']. destruct x as [u k|u|u f|u|u]; cbn in Ex.
  - destruct (sc !! u); [done|]. destruct (rw_scoped_new k m) as [[]|]; [|done]. by injection Ex as <-.
  - destruct (sc !! u) as [[k b]|]; [|done]. cbn in Ex. destruct (rw_scoped_lock k (m, b)) as [[]|]; [|done]. by injection Ex as <-.
  - destruct (sc !! u) as [[[] []]|] eqn:Eu; try done. pose proof (rw_alone _ u t Reading H Eu Ht) as ->. cbn in Ht. congruence.
  - destruct (sc !! u) as [[k b]|]; [|done]. cbn in Ex. destruct (rw_scoped_unlock (m, b)). by injection Ex as <-.
  - destruct (sc !! u) as [[k b]|]; [|done]. by injection Ex as <-.
Qed.

(** A lock that keeps the two numbers. *)
#[local] Instance count_lock : RWLockable (nat * bool) := {|
  rw_init := (0, false);
  rw_rdlock m := if m.2 then None else Some (S m.1, false);
  rw_wrlock m := if m.2 || negb (m.1 =? 0)%nat then None else Some (0, true);
  rw_unlock m := if m.2 then (0, false) else (pred m.1, false);
|}.
#[local] Instance count_lock_laws : RWLaws (nat * bool).
Proof.
  refine {| readers := fst; writing := snd |}.
  - done.
  - intros [n []] m'; cbn; [done|]. by intros [= <-].
  - intros [[|n] []] m'; cbn; try done. by intros [= <-].
  - intros [n []]; cbn; done.
  - intros [n []] k; cbn; [done|]. by intros _ ->.
Defined.

Lemma rw_exclusion_witness : exists s : rw_state (nat * bool) Z,
  rw_steps [RWConstruct 1 Writing; RWUpdate 1 (Z.add 4); RWDelete 1; RWConstruct 2 Reading; RWConstruct 3 Reading]
    (rw_start 0%Z) = Some s
  /\ rw_data s = 4%Z /\ forall x s', rw_step x s = Some s' -> rw_data s' = rw_data s.
Proof.
  eexists. split; [vm_compute; reflexivity|]. split; [reflexivity|]. intros x s'.
  refine (proj2 (rw_exclusion 0%Z [RWConstruct 1 Writing; RWUpdate 1 (Z.add 4); RWDelete 1; RWConstruct 2 Reading; RWConstruct 3 Reading] _ _) 2 x s' _);
    vm_compute; reflexivity.
Defined.
