(* ===== verification/Thread.v ===== *)
(** * [sylar/thread.h], [sylar/thread.cc], [Semaphore]

    A [Thread] object, the thread that makes it and the thread it runs.  The two
    take steps in any order; a step that uses the object after it was destroyed
    is undefined. *)

From stdpp Require Import base list strings.
From Stdlib Require Import ZArith Lia String.
From S2P Require Import Prelude.

(** ** [Semaphore] *)

Definition Semaphore : Type := nat.
(** [wait]: [None] while the count is zero. *)
Definition sem_take (s : Semaphore) : option Semaphore := match s with O => None | S n => Some n end.
(** [notify] *)
Definition sem_give (s : Semaphore) : Semaphore := S s.

(** ** [Thread] *)

(** [m_cb] names the callback; [m_thread] says whether the handle is non-zero. *)
Record Thread := mkThread {
  m_id : Z;
  m_thread : bool;
  m_cb : option nat;
  m_name : string;
  m_semaphore : Semaphore;
}.

(** Where the maker is: in the constructor before [pthread_create], in
    [m_semaphore.wait()], behind the constructor, behind an exception, or behind
    the destructor. *)
Inductive maker := Creating | Waiting | Made | Threw | Destroyed.
(** Where [run] is. *)
Inductive runner := Unborn | Begin | Registered | Swapped (cb : option nat) | Calling (cb : option nat) | Ended.

#[export] Instance maker_eq_dec : EqDecision maker.
Proof. solve_decision. Defined.
#[export] Instance runner_eq_dec : EqDecision runner.
Proof. solve_decision. Defined.

(** [sys_obj] is [None] once the object is gone; [t_thread] says whether the
    running thread's pointer is set, [t_thread_name] is its name. *)
Record sys := Sys {
  sys_obj : option Thread;
  sys_maker : maker;
  sys_runner : runner;
  t_thread : bool;
  t_thread_name : string;
}.

(** The start of the constructor. *)
Definition newThread (cb : nat) (name : string) : Thread :=
  mkThread (-1) false (Some cb) (if String.eqb name "" then "unknow" else name) 0.
Definition begin (cb : nat) (name : string) : sys := Sys (Some (newThread cb name)) Creating Unborn false "UNKNOWN".

Inductive act :=
  | Create (ret : Z)
  | WaitReturns
  | WaitFails
  | Join (ret : Z)
  | Destroy
  | RunBegin
  | RunSwap
  | RunNotify
  | SetName (name : string)
  | RunEnd.

Section steps.
(** The id of the running thread. *)
Context (tid : Z).

Definition with_obj (s : sys) (f : Thread -> sys) : outcome sys :=
  match sys_obj s with Some th => Ok (f th) | None => Err (UB null_deref) end.

(** [Thread::setName] in the running thread. *)
Definition setName (name : string) (s : sys) : outcome sys :=
  if String.eqb name "" then Ok s
  else if t_thread s then
    with_obj s (fun th => Sys (Some (mkThread (m_id th) (m_thread th) (m_cb th) name (m_semaphore th)))
                            (sys_maker s) (sys_runner s) true name)
  else Ok (Sys (sys_obj s) (sys_maker s) (sys_runner s) false name).

(** [Thread::join]: with no handle nothing is done. *)
Definition join (ret : Z) (s : sys) : option (outcome sys) :=
  match sys_obj s with
  | None => None
  | Some th =>
      if negb (m_thread th) then Some (Ok s)
      else if negb (ret =? 0)%Z then Some (Err (Throws logic_error))
      else match sys_runner s with
           | Ended => Some (Ok (Sys (Some (mkThread (m_id th) false (m_cb th) (m_name th) (m_semaphore th)))
                                  (sys_maker s) Ended (t_thread s) (t_thread_name s)))
           | _ => None
           end
  end.

(** A step, [None] when it cannot be taken. *)
Definition act_step (x : act) (s : sys) : option (outcome sys) :=
  match x, sys_maker s, sys_runner s with
  | Create ret, Creating, Unborn =>
      if (ret =? 0)%Z then
        Some (with_obj s (fun th => Sys (Some (mkThread (m_id th) true (m_cb th) (m_name th) (m_semaphore th)))
                                      Waiting Begin (t_thread s) (t_thread_name s)))
      else Some (Ok (Sys None Threw Unborn (t_thread s) (t_thread_name s)))
  | WaitReturns, Waiting, r =>
      th ← sys_obj s; n ← sem_take (m_semaphore th);
      Some (Ok (Sys (Some (mkThread (m_id th) (m_thread th) (m_cb th) (m_name th) n)) Made r (t_thread s) (t_thread_name s)))
  | WaitFails, Waiting, r => Some (Ok (Sys None Threw r (t_thread s) (t_thread_name s)))
  | Join ret, Made, _ => join ret s
  | Destroy, Made, r => Some (Ok (Sys None Destroyed r (t_thread s) (t_thread_name s)))
  | RunBegin, k, Begin =>
      Some (with_obj s (fun th => Sys (Some (mkThread tid (m_thread th) (m_cb th) (m_name th) (m_semaphore th)))
                                    k Registered true (m_name th)))
  | RunSwap, k, Registered =>
      Some (with_obj s (fun th => Sys (Some (mkThread (m_id th) (m_thread th) None (m_name th) (m_semaphore th)))
                                    k (Swapped (m_cb th)) (t_thread s) (t_thread_name s)))
  | RunNotify, k, Swapped cb =>
      Some (with_obj s (fun th => Sys (Some (mkThread (m_id th) (m_thread th) (m_cb th) (m_name th) (sem_give (m_semaphore th))))
                                    k (Calling cb) (t_thread s) (t_thread_name s)))
  | SetName name, _, Calling _ => Some (setName name s)
  | RunEnd, k, Calling _ => Some (Ok (Sys (sys_obj s) k Ended (t_thread s) (t_thread_name s)))
  | _, _, _ => None
  end.

Fixpoint act_steps (xs : list act) (s : sys) : option (outcome sys) :=
  match xs with
  | [] => Some (Ok s)
  | x :: xs => match act_step x s with
               | Some (Ok s) => act_steps xs s
               | o => o
               end
  end.

(** ** The hand-over *)

(** The callback and name a thread was made with. *)
Definition handed (cb : nat) (s : sys) : Prop :=
  match sys_maker s, sys_runner s, sys_obj s with
  | Creating, Unborn, Some th => m_cb th = Some cb /\ m_semaphore th = 0
  | Waiting, Begin, Some th => m_cb th = Some cb /\ m_semaphore th = 0
  | Waiting, Registered, Some th => m_cb th = Some cb /\ m_semaphore th = 0 /\ m_id th = tid
  | Waiting, Swapped c, Some th => c = Some cb /\ m_cb th = None /\ m_semaphore th = 0 /\ m_id th = tid
  | Waiting, Calling c, Some th => c = Some cb /\ m_cb th = None /\ m_semaphore th = 1 /\ m_id th = tid
  | Waiting, Ended, Some th => m_cb th = None /\ m_semaphore th = 1 /\ m_id th = tid
  | Made, Calling c, Some th => c = Some cb /\ m_cb th = None /\ m_id th = tid
  | Made, Ended, Some th => m_cb th = None /\ m_id th = tid
  | Destroyed, Calling c, None => c = Some cb
  | Destroyed, Ended, None => True
  | Threw, Unborn, None => True
  | _, _, _ => False
  end.

Lemma handed_step cb x s o : x <> WaitFails -> handed cb s -> act_step x s = Some o ->
  (exists s', o = Ok s' /\ handed cb s') \/ (exists ret, x = Join ret /\ o = Err (Throws logic_error))
  \/ (exists n, x = SetName n /\ sys_maker s = Destroyed /\ o = Err (UB null_deref)).
Proof.
  intros Hx H E. destruct s as [[th|] k r tt tn]; destruct k; destruct r; cbn in H; try done; destruct x; cbn in E; try done;
    unfold setName, join, with_obj in E; cbn in E;
    repeat match type of E with
           | context [if ?b then _ else _] => destruct b; cbn in E
           end;
    destruct_and?; repeat match goal with Hs : m_semaphore th = _ |- _ => rewrite Hs in E; revert Hs end; intros; cbn in E;
    try done; injection E as <-;
    first [left; eexists; split; [reflexivity|]; cbn; split_and?; first [done|congruence]
          |right; left; eexists; split; reflexivity
          |right; right; eexists; split_and!; reflexivity].
Qed.

End steps.

(** All states of a thread whose wait for the semaphore is not interrupted. *)
Inductive reached (tid : Z) (cb : nat) (name : string) : sys -> Prop :=
  | reached_begin : reached tid cb name (begin cb name)
  | reached_step x s s' : reached tid cb name s -> x <> WaitFails -> act_step tid x s = Some (Ok s') -> reached tid cb name s'.

Lemma reached_handed tid cb name s : reached tid cb name s -> handed tid cb s.
Proof.
  induction 1 as [|x s s' _ IH Hx E]; [done|].
  destruct (handed_step tid cb x s _ Hx IH E) as [(s1 & [= <-] & H)|[(ret & _ & [=])|(n & _ & _ & [=])]]. done.
Qed.

Lemma reached_run tid cb name xs : forall s s', reached tid cb name s -> Forall (fun x => x <> WaitFails) xs ->
  act_steps tid xs s = Some (Ok s') -> reached tid cb name s'.
Proof.
  induction xs as [|x xs IH]; intros s s' H Hx E; cbn in E; [by injection E as <-|]. apply Forall_cons in Hx as [Hx Hxs].
  destruct (act_step tid x s) as [[s1|e]|] eqn:E1; try done. eapply IH; [by eapply reached_step|done|done].
Qed.

(** ** Properties *)

(** C29: If the maker's wait on the semaphore is not interrupted: when the
    constructor of a [Thread] has returned, the object has the id of the running
    thread and has given up its callback, which that thread calls; while it
    waits some step of the running thread or its own return can be taken; and no
    step touches a destroyed object but [setName] in a thread that outlives it.
    An interrupted wait makes [run] touch a destroyed object:
    [interrupted_wait_undefined]. *)
Theorem thread_hand_over tid cb name s :
  reached tid cb name s ->
  (sys_maker s = Made -> exists th, sys_obj s = Some th /\ m_id th = tid /\ m_cb th = None
     /\ (sys_runner s = Calling (Some cb) \/ sys_runner s = Ended))
  /\ (sys_maker s = Waiting -> exists x s', act_step tid x s = Some (Ok s')
        /\ (x = WaitReturns \/ x = RunBegin \/ x = RunSwap \/ x = RunNotify))
  /\ (forall x u, x <> WaitFails -> act_step tid x s = Some (Err (UB u)) -> exists n, x = SetName n /\ sys_maker s = Destroyed).
Proof.
  intros H%reached_handed. split_and!.
  - intros Hm. destruct s as [o k r tt tn]. cbn in Hm. subst k. destruct r, o as [th|]; cbn in H; try done;
      destruct_and?; subst; eexists; split_and!; eauto.
  - intros Hm. destruct s as [o k r tt tn]. cbn in Hm. subst k. destruct r, o as [th|]; cbn in H; try done; destruct_and?;
      [exists RunBegin|exists RunSwap|exists RunNotify|exists WaitReturns|exists WaitReturns]; cbn;
      repeat match goal with Hs : m_semaphore th = _ |- _ => rewrite Hs; clear Hs end; eexists; (split; [reflexivity|tauto]).
  - intros x u Hx E. destruct (handed_step tid cb x s _ Hx H E) as [(s1 & [=] & _)|[(ret & _ & [=])|(n & -> & Hm & _)]]. eauto.
Qed.

Definition whole_life : list act := [Create 0; RunBegin; RunSwap; RunNotify; WaitReturns; RunEnd].

Lemma thread_hand_over_witness : exists s, act_steps 42 whole_life (begin 7 "io") = Some (Ok s)
  /\ exists th, sys_obj s = Some th /\ m_id th = 42%Z /\ m_cb th = None.
Proof.
  eexists. split; [vm_compute; reflexivity|].
  edestruct (thread_hand_over 42 7 "io") as [H _].
  - apply (reached_run 42 7 "io" whole_life (begin 7 "io")); [apply reached_begin|repeat constructor; discriminate|vm_compute; reflexivity].
  - destruct (H eq_refl) as (th & H1 & H2 & H3 & _). exists th. split; [exact H1|]. split; [exact H2|exact H3].
Defined.

(** When the wait is interrupted by a signal the constructor throws while the
    thread goes on with the destroyed object. *)
Lemma interrupted_wait_undefined tid cb name :
  act_steps tid [Create 0; WaitFails; RunBegin] (begin cb name) = Some (Err (UB null_deref)).
Proof. reflexivity. Qed.

(** A detached thread that sets its name writes to the destroyed object. *)
Lemma detached_setName_undefined tid cb name n : n <> ""%string ->
  act_steps tid [Create 0; RunBegin; RunSwap; RunNotify; WaitReturns; Destroy; SetName n] (begin cb name)
  = Some (Err (UB null_deref)).
Proof. intros Hn. cbn. unfold setName. destruct (String.eqb_spec n ""); done. Qed.
