(* ===== verification/Util.v ===== *)
(** * [sylar/util.cc]

    Times, case, paths, and the file functions.  A directory is the tree
    [readdir] finds; which removals the system allows, and the calls that make
    directories, are parameters. *)

From stdpp Require Import base list strings.
From Stdlib Require Import ZArith Lia Ascii String.
From S2P Require Import Prelude Http HttpParser Config LogFormat Log.

Local Open Scope string_scope.

(** ** Times and text *)

(** [GetCurrentMS], [GetCurrentUS] of what [gettimeofday] gives. *)
Definition GetCurrentMS (tv_sec tv_usec : Z) : Z := u64 (tv_sec * 1000 + tv_usec / 1000).
Definition GetCurrentUS (tv_sec tv_usec : Z) : Z := u64 (i64 (tv_sec * 1000) * 1000 + tv_usec).

(** [Time2Str]: a date that does not fit leaves the buffer undefined. *)
Definition Time2Str (strftime : string -> Z -> option string) (ts : Z) (format : string) : outcome string :=
  match strftime format ts with Some s => Ok s | None => Err (UB index_oob) end.
(** [Str2Time]: [strptime] and [mktime]. *)
Definition Str2Time {tm : Type} (strptime : string -> string -> option tm) (mktime : tm -> Z) (str format : string) : Z :=
  match strptime str format with Some t => mktime t | None => 0 end.

(** [ToLower] is [Config.lower]; [::toupper]. *)
Definition upper_char (a : ascii) : ascii :=
  let n := nat_of_ascii a in if ((97 <=? n) && (n <=? 122))%nat then ascii_of_nat (n - 32) else a.
Fixpoint ToUpper (s : string) : string :=
  match s with "" => "" | String a s => String (upper_char a) (ToUpper s) end.
Definition ToLower (s : string) : string := lower s.

(** [BackTrace]: the frames but the first [skip]; [None] when
    [backtrace_symbols] fails. *)
Definition BackTrace (strings : option (list string)) (skip : nat) : list string :=
  match strings with Some l => drop skip l | None => [] end.
Definition BackTraceToString (strings : option (list string)) (skip : nat) (prefix : string) : string :=
  joined (map (fun s => prefix ++ s ++ endl) (BackTrace strings skip)).

(** ** Paths *)

Definition slash : ascii := "/".

(** [rfind('/')] *)
Fixpoint rfind (s : string) : option nat :=
  match s with
  | "" => None
  | String a s => match rfind s with
                  | Some n => Some (S n)
                  | None => if Ascii.eqb a slash then Some O else None
                  end
  end.

Definition Dirname (filename : string) : string :=
  if String.eqb filename "" then "."
  else match rfind filename with
       | Some O => "/"
       | None => "."
       | Some pos => String.substring 0 pos filename
       end.
Definition Basename (filename : string) : string :=
  if String.eqb filename "" then filename
  else match rfind filename with
       | None => filename
       | Some pos => String.substring (pos + 1) (String.length filename - (pos + 1)) filename
       end.

Lemma substring_all s n : String.length s <= n -> String.substring 0 n s = s.
Proof. revert n. induction s as [|a s IH]; intros [|n] H; cbn in *; [done|done|lia|]. f_equal. apply IH. lia. Qed.

Lemma rfind_split s n : rfind s = Some n ->
  s = String.substring 0 n s ++ String slash (String.substring (n + 1) (String.length s - (n + 1)) s)
  /\ rfind (String.substring (n + 1) (String.length s - (n + 1)) s) = None /\ n < String.length s.
Proof.
  revert n. induction s as [|a s IH]; intros n; cbn [rfind]; [done|]. destruct (rfind s) as [k|] eqn:E.
  - intros [= <-]. destruct (IH k eq_refl) as (H1 & H2 & H3). split_and!; [|exact H2|cbn; lia].
    change (String a s = String a (String.substring 0 k s ++ String slash (String.substring (k + 1) (String.length s - (k + 1)) s))).
    by f_equal.
  - destruct (Ascii.eqb_spec a slash) as [->|]; [|done]. intros [= <-].
    replace (String.substring (0 + 1) (String.length (String slash s) - (0 + 1)) (String slash s)) with s.
    + split_and!; [done|done|cbn; lia].
    + cbn. rewrite Nat.sub_0_r. symmetry. by apply substring_all.
Qed.

(** Directory, slash and name are the path again. *)
Lemma path_split p n : rfind p = Some (S n) ->
  p = Dirname p ++ "/" ++ Basename p /\ rfind (Basename p) = None.
Proof.
  intros H. destruct (rfind_split p (S n) H) as (H1 & H2 & _). unfold Dirname, Basename.
  destruct (String.eqb_spec p "") as [->|]; [done|]. rewrite H. by split.
Qed.

(** ** Directories *)

(** What [lstat] and [readdir] find: the kinds of a file by [st_mode], a
    directory with its entries and whether [opendir] succeeds on it. *)
Inductive inode :=
  | Reg
  | Special (st_mode : Z)
  | Dir (readable : bool) (entries : list (string * inode)).

Definition S_IFDIR : Z := 16384.
Definition S_IFREG : Z := 32768.
Definition S_IFSOCK : Z := 49152.
Definition S_IFBLK : Z := 24576.
Definition S_IFLNK : Z := 40960.
Definition st_mode (e : inode) : Z := match e with Reg => S_IFREG | Special m => m | Dir _ _ => S_IFDIR end.

Definition child (path n : string) : string := path ++ "/" ++ n.
Definition dot (n : string) : bool := String.eqb n "." || String.eqb n "..".

(** The test on the end of a file name. *)
Definition has_subfix (filename subfix : string) : bool :=
  if String.eqb subfix "" then true
  else if (String.length filename <? String.length subfix)%nat then false
  else String.eqb (String.substring (String.length filename - String.length subfix) (String.length subfix) filename) subfix.

(** [ListAllFile] on an entry; [None] is a path that does not exist.  [typed]
    says of a path whether [readdir] reports the type of the entry ([d_type] is
    [DT_UNKNOWN] on some file systems). *)
Section list.
Context (typed : string -> bool).

Fixpoint list_entries (subfix path : string) (e : inode) : list string :=
  match e with
  | Dir true l =>
      (fix go l := match l with
       | [] => []
       | (n, x) :: l =>
           ((if negb (typed (child path n)) then []
             else match x with
                  | Dir _ _ => if dot n then [] else list_entries subfix (child path n) x
                  | Reg => if has_subfix n subfix then [child path n] else []
                  | Special _ => []
                  end) ++ go l)%list
       end) l
  | _ => []
  end.
Definition ListAllFile (path subfix : string) (o : option inode) : list string :=
  match o with Some e => list_entries subfix path e | None => [] end.
End list.

(** [Rm]: whether it reports success, and what is left.  [lstat], [unlink] and
    [rmdir] say on which paths that exist the calls succeed ([lstat] fails for
    instance in a directory that cannot be searched); [rmdir] fails on a
    directory that is not empty. *)
Section rm.
Context (lstat unlink rmdir : string -> bool).

Fixpoint rm_inode (path : string) (e : inode) : bool * option inode :=
  if negb (lstat path) then (true, Some e)
  else if (Z.land (st_mode e) S_IFDIR =? 0)%Z then
    if unlink path then (true, None) else (false, Some e)
  else match e with
  | Dir true l =>
      let '(ret, kids) :=
        (fix go ret l := match l with
         | [] => (ret, [])
         | (n, x) :: l =>
             if dot n then go ret l
             else let '(r, o) := rm_inode (child path n) x in
                  let '(ret, kids) := go r l in
                  (ret, match o with Some x => (n, x) :: kids | None => kids end)
         end) true l in
      match kids with
      | [] => if rmdir path then (ret, None) else (false, Some (Dir true []))
      | _ => (false, Some (Dir true kids))
      end
  | _ => (false, Some e)
  end.
Definition Rm (path : string) (o : option inode) : bool * option inode :=
  match o with Some e => rm_inode path e | None => (true, None) end.

(** [Unlink]: without [exist] it is a success when [lstat] fails. *)
Definition Unlink (filename : string) (exist : bool) (o : option inode) : bool * option inode :=
  match o with
  | None => (negb exist, None)
  | Some e =>
      if negb exist && negb (lstat filename) then (true, Some e)
      else if unlink filename then (true, None) else (false, Some e)
  end.

(** [Mv], [Symlink]: the target is removed first; [ok] is the result of
    [rename] or [symlink]. *)
Definition replace_at (ok : bool) (path : string) (o : option inode) (new : inode) : bool * option inode :=
  let '(b, o) := Rm path o in
  if negb b then (false, o) else if ok then (true, Some new) else (false, o).
End rm.

(** *** [Mkdir] *)

(** The system calls [Mkdir] makes. *)
Class Dirs (W : Type) := {
  lstat_ok : string -> W -> bool;
  access_ok : string -> W -> bool;
  sys_mkdir : string -> W -> bool * W;
}.

Section mkdir.
Context {W : Type} {DW : Dirs W}.

(** [__mkdir] *)
Definition mkdir1 (path : string) (w : W) : bool * W :=
  if access_ok path w then (true, w) else sys_mkdir path w.

Definition snoc (s : string) (a : ascii) : string := s ++ String a "".
(** The parts of a path that end before a slash other than its first
    character. *)
Fixpoint parts (pre s : string) : list string :=
  match s with
  | "" => []
  | String a r => (if Ascii.eqb a slash && negb (String.eqb pre "") then [pre] else [])
                  ++ parts (snoc pre a) r
  end%list.

Fixpoint mkdir_parts (l : list string) (w : W) : bool * W :=
  match l with
  | [] => (true, w)
  | p :: l => let '(b, w) := mkdir1 p w in if b then mkdir_parts l w else (false, w)
  end.

(** [Mkdir]; an empty name is searched behind its end. *)
Definition Mkdir (dirname : string) (w : W) : outcome (bool * W) :=
  if lstat_ok dirname w then Ok (true, w)
  else if String.eqb dirname "" then Err (UB index_oob)
  else let '(b, w) := mkdir_parts (parts "" dirname) w in
       Ok (if b then mkdir1 dirname w else (false, w)).

(** [OpenForWrite]: [open_ok] says whether the file can be opened. *)
Definition OpenForWrite (open_ok : string -> W -> bool) (filename : string) (w : W) : outcome (bool * W) :=
  if open_ok filename w then Ok (true, w)
  else '(_, w) ← Mkdir (Dirname filename) w; Ok (open_ok filename w, w).

(** [Realpath] *)
Definition Realpath (realpath : string -> option string) (path rpath : string) (w : W) : bool * string :=
  if negb (lstat_ok path w) then (false, rpath)
  else match realpath path with Some r => (true, r) | None => (false, rpath) end.

(** [IsRunningPidfile]: [line] is the first line of the file, [None] when it
    cannot be read; [kill] says whether the process takes signal 0. *)
Definition IsRunningPidfile (line : option string) (kill : Z -> bool) (pidfile : string) (w : W) : outcome bool :=
  if negb (lstat_ok pidfile w) then Ok false
  else match line with
       | None => Ok false
       | Some l =>
           if String.eqb l "" then Ok false
           else pid ← atoi l; Ok (negb (pid <=? 1)%Z && kill pid)
       end.
End mkdir.

(** ** Properties *)

Fixpoint inode_ind' (P : inode -> Prop) (Hr : P Reg) (Hs : forall m, P (Special m))
    (Hd : forall b l, Forall (fun e => P e.2) l -> P (Dir b l)) (e : inode) : P e :=
  match e with
  | Reg => Hr
  | Special m => Hs m
  | Dir b l => Hd b l ((fix go l : Forall (fun e => P e.2) l := match l with
                        | [] => Forall_nil_2 _
                        | (n, x) :: l => Forall_cons_2 _ (n, x) _ (inode_ind' P Hr Hs Hd x) (go l)
                        end) l)
  end.

(** *** Listing *)

Section list_facts.
Context (typed : string -> bool).

(** A regular file below a directory, through directories that can be opened
    and entries whose type is reported: its path and its name. *)
Inductive file_below : string -> inode -> string -> string -> Prop :=
  | below_here path l n : (n, Reg) ∈ l -> typed (child path n) = true -> file_below path (Dir true l) (child path n) n
  | below_dir path l n b l' p f : (n, Dir b l') ∈ l -> typed (child path n) = true -> dot n = false ->
      file_below (child path n) (Dir b l') p f -> file_below path (Dir true l) p f.

Definition list_one (subfix path : string) (e : string * inode) : list string :=
  if negb (typed (child path e.1)) then []
  else match e.2 with
  | Dir _ _ => if dot e.1 then [] else list_entries typed subfix (child path e.1) e.2
  | Reg => if has_subfix e.1 subfix then [child path e.1] else []
  | Special _ => []
  end.

Lemma list_entries_dir subfix path l : list_entries typed subfix path (Dir true l) = List.concat (map (list_one subfix path) l).
Proof. cbn. induction l as [|[n x] l IH]; [done|]. cbn. rewrite IH. unfold list_one. cbn. by destruct (typed (child path n)), x. Qed.

Lemma list_entries_below subfix e : forall path p,
  p ∈ list_entries typed subfix path e <-> exists f, file_below path e p f /\ has_subfix f subfix = true.
Proof.
  induction e as [|m|b l IH] using inode_ind'; intros path p.
  - cbn. rewrite elem_of_nil. split; [done|]. intros (f & H & _). inversion H.
  - cbn. rewrite elem_of_nil. split; [done|]. intros (f & H & _). inversion H.
  - destruct b; [|cbn; rewrite elem_of_nil; split; [done|]; intros (f & H & _); inversion H].
    rewrite list_entries_dir, list_elem_of_In, in_concat. rewrite Forall_forall in IH. split.
    + intros (x & Hx & Hp). apply in_map_iff in Hx as ([n e] & <- & He). apply list_elem_of_In in He, Hp.
      unfold list_one in Hp. cbn in Hp. destruct (typed (child path n)) eqn:Et; [|by apply elem_of_nil in Hp].
      cbn in Hp. destruct e as [|m|b l'].
      * destruct (has_subfix n subfix) eqn:E; [|by apply elem_of_nil in Hp]. apply list_elem_of_singleton in Hp as ->.
        exists n. split; [by constructor|done].
      * by apply elem_of_nil in Hp.
      * destruct (dot n) eqn:Ed; [by apply elem_of_nil in Hp|]. destruct (proj1 (IH _ He _ _) Hp) as (f & Hf & Hs).
        exists f. split; [by eapply below_dir|done].
    + intros (f & Hf & Hs). inversion Hf as [? ? n Hin Ht|? ? n b l' ? ? Hin Ht Hd Hb]; subst.
      * exists (list_one subfix path (f, Reg)). split; [apply in_map; by apply list_elem_of_In|].
        unfold list_one. cbn [fst snd]. rewrite Ht, Hs. by left.
      * exists (list_one subfix path (n, Dir b l')). split; [apply in_map; by apply list_elem_of_In|].
        unfold list_one. cbn [fst snd]. rewrite Ht, Hd. apply list_elem_of_In. apply (IH (n, Dir b l') Hin). eauto.
Qed.
End list_facts.

(** *** Removing *)

Section rm_facts.
Context (lstat unlink rmdir : string -> bool).

(** The loop over the entries: [ret] is the result of the last one. *)
Fixpoint rm_loop (path : string) (ret : bool) (l : list (string * inode)) : bool * list (string * inode) :=
  match l with
  | [] => (ret, [])
  | (n, x) :: l =>
      if dot n then rm_loop path ret l
      else let '(r, o) := rm_inode lstat unlink rmdir (child path n) x in
           let '(ret, kids) := rm_loop path r l in
           (ret, match o with Some x => (n, x) :: kids | None => kids end)
  end.

Lemma rm_inode_dir path l : rm_inode lstat unlink rmdir path (Dir true l) =
  if negb (lstat path) then (true, Some (Dir true l)) else
  let '(ret, kids) := rm_loop path true l in
  match kids with
  | [] => if rmdir path then (ret, None) else (false, Some (Dir true []))
  | _ => (false, Some (Dir true kids))
  end.
Proof.
  cbn. destruct (lstat path); [cbn|done]. enough (forall ret, (fix go ret l := match l with
         | [] => (ret, [])
         | (n, x) :: l =>
             if dot n then go ret l
             else let '(r, o) := rm_inode lstat unlink rmdir (child path n) x in
                  let '(ret, kids) := go r l in
                  (ret, match o with Some x => (n, x) :: kids | None => kids end)
         end) ret l = rm_loop path ret l) as H by (by rewrite H).
  induction l as [|[n x] l IH]; intros ret; [done|]. cbn. destruct (dot n); [apply IH|].
  destruct (rm_inode lstat unlink rmdir (child path n) x) as [r o]. by rewrite IH.
Qed.

Definition agrees (path : string) (r : bool * option inode) : Prop := r.1 = true <-> r.2 = None \/ lstat path = false.

Lemma rm_loop_agrees path l : Forall (fun e => forall p, agrees p (rm_inode lstat unlink rmdir p e.2)) l ->
  forall ret, let '(r, kids) := rm_loop path ret l in kids = [] -> ret = true -> r = true.
Proof.
  induction 1 as [|[n x] l Hx _ IH]; intros ret; cbn; [done|]. destruct (dot n); [apply IH|].
  specialize (Hx (child path n)). cbn in Hx. destruct (rm_inode lstat unlink rmdir (child path n) x) as [r o]. specialize (IH r).
  destruct (rm_loop path r l) as [r' kids]. destruct o; [done|]. intros Hl _. apply IH; [done|]. apply Hx. by left.
Qed.

(** A path on which [lstat] fails is left and reported as removed. *)
Lemma rm_not_found path e : lstat path = false -> rm_inode lstat unlink rmdir path e = (true, Some e).
Proof. intros H. by destruct e; cbn; rewrite H. Qed.

Lemma rm_agrees e : forall path, agrees path (rm_inode lstat unlink rmdir path e).
Proof.
  assert (Hf : forall path e, lstat path = false -> agrees path (rm_inode lstat unlink rmdir path e)).
  { intros path e' H. rewrite rm_not_found by done. split; [by right|done]. }
  induction e as [|m|b l IH] using inode_ind'; intros path; (destruct (lstat path) eqn:El; [|by apply Hf]); unfold agrees; rewrite El.
  - cbn. rewrite El. cbn. destruct (unlink path); naive_solver.
  - cbn. rewrite El. cbn. destruct (_ =? 0)%Z; [destruct (unlink path)|]; naive_solver.
  - destruct b; [|cbn; rewrite El; naive_solver]. rewrite rm_inode_dir, El. cbn [negb]. pose proof (rm_loop_agrees path l IH true) as H.
    destruct (rm_loop path true l) as [r [|x kids]]; [|naive_solver]. destruct (rmdir path); [|naive_solver]. rewrite H by done. naive_solver.
Qed.
End rm_facts.

(** C40: [ListAllFile] returns exactly the paths of the regular files whose
    names end as asked below a directory, through directories that can be opened
    and whose names are not dots, among the entries whose type [readdir]
    reports. [Rm] reports success exactly when nothing is left of its path or
    [lstat] fails on it for whatever reason: although it keeps only the result
    of the last entry, an entry that stays keeps the directory and makes it
    fail. *)
Theorem file_utilities typed lstat unlink rmdir path subfix o :
  (forall p, p ∈ ListAllFile typed path subfix o <->
     exists e f, o = Some e /\ file_below typed path e p f /\ has_subfix f subfix = true)
  /\ ((Rm lstat unlink rmdir path o).1 = true <-> (Rm lstat unlink rmdir path o).2 = None \/ lstat path = false).
Proof.
  split.
  - intros p. destruct o as [e|]; cbn; [|rewrite elem_of_nil; naive_solver]. rewrite list_entries_below. naive_solver.
  - destruct o as [e|]; [apply rm_agrees|cbn; tauto].
Qed.

(** What [lstat] cannot reach is reported as removed. *)
Lemma unreachable_reported_removed unlink rmdir path e :
  Rm (fun _ => false) unlink rmdir path (Some e) = (true, Some e).
Proof. by apply rm_not_found. Qed.

(** A socket or a block device has the bit of a directory in its mode, so [Rm]
    tries to open it as one and fails. *)
Lemma socket_not_removed rmdir path :
  Rm (fun _ => true) (fun _ => true) rmdir path (Some (Special S_IFSOCK)) = (false, Some (Special S_IFSOCK))
  /\ Rm (fun _ => true) (fun _ => true) rmdir path (Some (Special S_IFBLK)) = (false, Some (Special S_IFBLK)).
Proof. done. Qed.

(** *** Making *)

(** What [Mkdir] relies on: a directory made is there, and the others stay. *)
Class DirsLaws (W : Type) `{!Dirs W} : Prop := {
  mkdir_there p w w' : sys_mkdir p w = (true, w') -> access_ok p w' = true;
  mkdir_others p q b w w' : sys_mkdir p w = (b, w') -> access_ok q w = true -> access_ok q w' = true;
  access_lstat p w : access_ok p w = true -> lstat_ok p w = true;
}.

Section mkdir_facts.
Context {W : Type} {DW : Dirs W} {DL : DirsLaws W}.

Lemma mkdir1_made p w w' : mkdir1 p w = (true, w') -> access_ok p w' = true.
Proof. unfold mkdir1. destruct (access_ok p w) eqn:E; [by intros [= <-]|apply mkdir_there]. Qed.
Lemma mkdir1_others p q b w w' : mkdir1 p w = (b, w') -> access_ok q w = true -> access_ok q w' = true.
Proof. unfold mkdir1. destruct (access_ok p w) eqn:E; [by intros [= _ <-]|apply mkdir_others]. Qed.

Lemma mkdir_parts_made l : forall w b w', mkdir_parts l w = (b, w') ->
  (forall q, access_ok q w = true -> access_ok q w' = true) /\ (b = true -> Forall (fun p => access_ok p w' = true) l).
Proof.
  induction l as [|p l IH]; intros w b w' E; cbn in E; [by injection E as <- <-|].
  destruct (mkdir1 p w) as [[] w1] eqn:E1.
  - destruct (IH _ _ _ E) as [H1 H2]. split; [intros q Hq; apply H1; by eapply mkdir1_others|].
    intros Hb. constructor; [apply H1; by eapply mkdir1_made|auto].
  - injection E as <- <-. split; [intros q Hq; by eapply mkdir1_others|done].
Qed.

(** A directory that [Mkdir] reports as made is there with all its parents. *)
Lemma Mkdir_made p w w' : Mkdir p w = Ok (true, w') ->
  lstat_ok p w' = true /\ (lstat_ok p w = true \/ Forall (fun q => access_ok q w' = true) (parts "" p)).
Proof.
  unfold Mkdir. destruct (lstat_ok p w) eqn:El; [intros [= <-]; auto|]. destruct (String.eqb p ""); [done|].
  destruct (mkdir_parts (parts "" p) w) as [b w1] eqn:E. intros [= H]. destruct b; [|done].
  destruct (mkdir_parts_made _ _ _ _ E) as [_ H2]. split; [by eapply access_lstat, mkdir1_made|]. right.
  eapply Forall_impl; [by apply H2|]. cbn. intros q Hq. by eapply mkdir1_others.
Qed.
End mkdir_facts.
