(* ===== verification/Env.v ===== *)
(** * [sylar/env.h], [sylar/env.cc]

    The arguments of the program, its help texts and its paths.  The process
    environment, and what [readlink] finds for the program, are given. *)

From stdpp Require Import base list gmap strings.
From Stdlib Require Import ZArith Lia Ascii String.
From S2P Require Import Prelude Http Config LogFormat Log LogTheorems Util.

Local Open Scope string_scope.

Record Env := mkEnv {
  m_args : gmap string string;
  m_helps : list (string * string);
  m_program : string;
  m_exe : string;
  m_cwd : string;
}.

Definition set_args (x : gmap string string) (e : Env) : Env := mkEnv x (m_helps e) (m_program e) (m_exe e) (m_cwd e).
Definition set_helps (x : list (string * string)) (e : Env) : Env := mkEnv (m_args e) x (m_program e) (m_exe e) (m_cwd e).

(** ** Arguments *)

Definition add (key val : string) (e : Env) : Env := set_args (<[key := val]> (m_args e)) e.
Definition has (key : string) (e : Env) : bool := match m_args e !! key with Some _ => true | None => false end.
Definition del (key : string) (e : Env) : Env := set_args (delete key (m_args e)) e.
Definition get (key default_value : string) (e : Env) : string := default default_value (m_args e !! key).

Definition is_option (a : string) : bool := match a with String c _ => Ascii.eqb c "-" | "" => false end.

(** [if (now_key) add(now_key, "")] *)
Definition flush_key (now_key : option string) (e : Env) : Env :=
  match now_key with Some k => add k "" e | None => e end.

(** The loop of [init] over [argv] from 1 on. *)
Fixpoint parse_args (args : list string) (now_key : option string) (e : Env) : bool * Env :=
  match args with
  | [] => (true, flush_key now_key e)
  | a :: args =>
      if is_option a then
        match a with
        | String _ "" => (false, e)
        | String _ key => parse_args args (Some key) (flush_key now_key e)
        | "" => (false, e)
        end
      else match now_key with
           | Some k => parse_args args None (add k a e)
           | None => (false, e)
           end
  end.

(** [init]: the link is read into 1024 bytes and used as a string; [argv[0]] is
    made a string. *)
Definition init (link : option string) (argv : list string) (e : Env) : outcome (bool * Env) :=
  exe ← match link with
        | Some p => if (String.length p <? 1024)%nat then Ok p else Err (UB index_oob)
        | None => Ok ""
        end;
  match argv with
  | [] => Err (UB null_deref)
  | program :: args =>
      let cwd := match rfind exe with Some pos => String.substring 0 pos exe | None => exe end ++ "/" in
      Ok (parse_args args None (mkEnv (m_args e) (m_helps e) program exe cwd))
  end.

(** ** Help *)

Definition removeHelp (key : string) (e : Env) : Env :=
  set_helps (List.filter (fun h => negb (String.eqb h.1 key)) (m_helps e)) e.
Definition addHelp (key desc : string) (e : Env) : Env :=
  let e := removeHelp key e in set_helps (m_helps e ++ [(key, desc)])%list e.
(** [printHelp]: the dash is right-aligned in five columns. *)
Definition printHelp (e : Env) : string :=
  "Usage: " ++ m_program e ++ " [options]" ++ endl
  ++ joined (map (fun h => "    -" ++ h.1 ++ " : " ++ h.2 ++ endl) (m_helps e)).

(** ** The environment and paths *)

Fixpoint has_equals (s : string) : bool :=
  match s with "" => false | String a s => Ascii.eqb a "=" || has_equals s end.
(** [setenv] refuses an empty name and one with an equals sign. *)
Definition setEnv (key val : string) (environ : gmap string string) : bool * gmap string string :=
  if String.eqb key "" || has_equals key then (false, environ) else (true, <[key := val]> environ).
Definition getEnv (key default_value : string) (environ : gmap string string) : string :=
  default default_value (environ !! key).

Definition is_absolute (path : string) : bool := match path with String c _ => Ascii.eqb c slash | "" => false end.

Definition getAbsolutePath (path : string) (e : Env) : string :=
  if String.eqb path "" then "/" else if is_absolute path then path else m_cwd e ++ path.

(** [work_path] is the value of the variable [server.work_path] that the static
    pointer was set to at the first call, [None] when the variable was not there
    then. *)
Definition getAbsoluteWorkPath (work_path : option string) (path : string) (e : Env) : outcome string :=
  if String.eqb path "" then Ok "/" else if is_absolute path then Ok path
  else match work_path with
       | Some w => Ok (w ++ "/" ++ path)
       | None => Err (UB null_deref)
       end.
Definition getConfigPath (e : Env) : string := getAbsolutePath (get "c" "conf" e) e.

(** ** Options as they are written *)

Definition print_option (o : string * option string) : list string :=
  ("-" ++ o.1) :: match o.2 with Some v => [v] | None => [] end.
Definition print_options (l : list (string * option string)) : list string := List.concat (map print_option l).

(** A key, and a value that does not look like one. *)
Definition good_option (o : string * option string) : Prop :=
  o.1 <> "" /\ match o.2 with Some v => is_option v = false | None => True end.

Definition add_options (l : list (string * option string)) (e : Env) : Env :=
  foldl (fun e o => add o.1 (default "" o.2) e) e l.

Lemma parse_printed l : Forall good_option l -> forall now e,
  parse_args (print_options l) now e = (true, add_options l (flush_key now e)).
Proof.
  induction 1 as [|[k v] l [Hk Hv] _ IH]; intros now e; [done|].
  change (print_options ((k, v) :: l)) with (print_option (k, v) ++ print_options l)%list. unfold print_option. cbn [fst snd] in *.
  change ("-" ++ k) with (String "-" k). destruct k as [|c k]; [done|]. cbn [app parse_args is_option Ascii.eqb Bool.eqb].
  destruct v as [v|]; cbn [app].
  - cbn [parse_args]. rewrite Hv. by rewrite IH.
  - by rewrite IH.
Qed.

Lemma is_option_key a : is_option a = true -> exists k, a = "-" ++ k.
Proof. destruct a as [|c k]; [done|]. cbn. intros ->%Ascii.eqb_eq. by exists k. Qed.

Lemma parse_accepts args : forall now e e', parse_args args now e = (true, e') ->
  match now with Some k => k <> "" | None => True end ->
  exists l, Forall good_option l /\ print_options l = match now with Some k => ("-" ++ k) :: args | None => args end.
Proof.
  induction args as [|a args IH]; intros now e e' E Hk.
  - destruct now as [k|]; [exists [(k, None)]|by exists []]. split; [by constructor|done].
  - cbn in E. destruct (is_option a) eqn:Ea.
    + destruct (is_option_key a Ea) as [k ->]. change ("-" ++ k) with (String "-" k) in E. destruct k as [|c k]; [done|].
      destruct (IH (Some (String c k)) _ e' E ltac:(done)) as (l & Hl & Hp). destruct now as [k'|]; [|by exists l].
      exists ((k', None) :: l). split; [by constructor|]. change (print_options ((k', None) :: l)) with (("-" ++ k') :: print_options l).
      by rewrite Hp.
    + destruct now as [k|]; [|done]. destruct (IH None _ e' E I) as (l & Hl & Hp).
      exists ((k, Some a) :: l). split; [by constructor|].
      change (print_options ((k, Some a) :: l)) with (("-" ++ k) :: a :: print_options l). by rewrite Hp.
Qed.

(** ** Properties *)

(** C39: If the link to the program's file is shorter than 1024 bytes, program
    arguments are accepted exactly when they are options, a dash with a key and
    at most one value that does not begin with a dash, and then each key has its
    last value, the empty one when it has none; every other list is refused. *)
Theorem env_arguments link program args e :
  match link with Some p => String.length p < 1024 | None => True end ->
  exists b e', init link (program :: args) e = Ok (b, e')
    /\ (b = true <-> exists l, Forall good_option l /\ print_options l = args)
    /\ forall l, Forall good_option l -> print_options l = args -> m_args e' = m_args (add_options l e).
Proof.
  intros Hl. unfold init.
  assert (exists exe, match link with Some p => if (String.length p <? 1024)%nat then Ok p else Err (UB index_oob) | None => Ok "" end = Ok exe)
    as [exe ->].
  { destruct link as [p|]; [|by eexists]. destruct (Nat.ltb_spec (String.length p) 1024); [by eexists|lia]. }
  cbn [mbind outcome_bind]. set (e0 := mkEnv _ _ _ _ _). destruct (parse_args args None e0) as [b e'] eqn:E.
  exists b, e'. split; [done|].
  assert (forall l, Forall good_option l -> print_options l = args -> (b, e') = (true, add_options l e0)) as Hp.
  { intros l Hg <-. by rewrite parse_printed in E. }
  split.
  - split; [intros ->; by apply (parse_accepts args None e0 e')|]. intros (l & Hg & Ha). by injection (Hp l Hg Ha).
  - intros l Hg Ha. injection (Hp l Hg Ha) as _ ->.
    assert (forall x y, m_args x = m_args y -> m_args (add_options l x) = m_args (add_options l y)) as Hsame; [|by apply Hsame].
    clear. induction l as [|o l IH]; intros x y H; [done|]. cbn. apply IH. cbn. by rewrite H.
Qed.

Lemma env_arguments_witness : exists e', init (Some "/opt/a/server") ["server"; "-d"; "-c"; "conf.d"] (mkEnv ∅ [] "" "" "") = Ok (true, e')
  /\ m_args e' = m_args (add_options [("d", None); ("c", Some "conf.d")] (mkEnv ∅ [] "" "" "")).
Proof.
  destruct (env_arguments (Some "/opt/a/server") "server" ["-d"; "-c"; "conf.d"] (mkEnv ∅ [] "" "" "")) as (b & e' & H1 & H2 & H3).
  - apply Nat.ltb_lt. vm_compute. reflexivity.
  - assert (Forall good_option [("d", None); ("c", Some "conf.d")]) as Hg by (repeat constructor; discriminate).
    exists e'. split; [|exact (H3 _ Hg eq_refl)]. rewrite H1. f_equal. f_equal. apply H2. eexists. split; [exact Hg|reflexivity].
Defined.

(** Every key has one help text. *)
Lemma addHelp_keys key desc e : NoDup (m_helps e).*1 -> NoDup (m_helps (addHelp key desc e)).*1
  /\ (key, desc) ∈ m_helps (addHelp key desc e).
Proof.
  intros H. unfold addHelp, removeHelp. cbn. rewrite fmap_app. split; [|set_solver].
  assert (key ∉ (List.filter (fun h => negb (String.eqb h.1 key)) (m_helps e)).*1) as Hk.
  { intros ([k d] & -> & Hin)%list_elem_of_fmap. apply list_elem_of_In, filter_In in Hin as [_ Hin]. cbn in Hin.
    by rewrite String.eqb_refl in Hin. }
  apply NoDup_app. split_and!; [|set_solver|apply NoDup_singleton].
  clear Hk. induction (m_helps e) as [|[k d] l IH]; [constructor|]. cbn in *. inversion H as [|? ? H1 H2]; subst.
  destruct (negb (String.eqb k key)); cbn; [|by apply IH]. constructor; [|by apply IH].
  intros Hin. apply H1. clear -Hin. induction l as [|[x y] l IHl]; cbn in *; [done|]. destruct (negb (String.eqb x key)); set_solver.
Qed.

(** A path that the program asks for before [server.work_path] is registered. *)
Lemma work_path_undefined e : getAbsoluteWorkPath None "log" e = Err (UB null_deref).
Proof. reflexivity. Qed.
