(* ===== verification/Daemon.v ===== *)
(** * [sylar/daemon.h], [sylar/daemon.cc]

    The loop that starts the program again when it crashes, from what [fork] and
    [waitpid] return. *)

From stdpp Require Import base list strings.
From Stdlib Require Import ZArith Lia String.
From S2P Require Import Prelude Http LogFormat Util.

Local Open Scope string_scope.

Record ProcessInfo := mkInfo {
  parent_id : Z;
  main_id : Z;
  parent_start_time : Z;
  main_start_time : Z;
  restart_count : Z;
}.

(** A process: the result of [getpid] and [time(0)] now. *)
Record now := Now { pid : Z; clock : Z }.

(** [real_start]: [main_cb] is its result. *)
Definition real_start (main_cb : Z) (t : now) (i : ProcessInfo) : Z * ProcessInfo :=
  (main_cb, mkInfo (parent_id i) (pid t) (parent_start_time i) (u64 (clock t)) (restart_count i)).

Definition set_parent (t : now) (i : ProcessInfo) : ProcessInfo :=
  mkInfo (pid t) (main_id i) (u64 (clock t)) (main_start_time i) (restart_count i).

(** A turn of the loop: this process is the child, [fork] fails, or it is the
    parent of a child that ends with a status. *)
Inductive turn := Child (t : now) | ForkFails | Parent (status : Z).

Definition count_restart (i : ProcessInfo) : ProcessInfo :=
  mkInfo (parent_id i) (main_id i) (parent_start_time i) (main_start_time i) (u32 (restart_count i + 1)).

(** The loop of [real_daemon], with the number of times it sleeps; [None] while
    it goes on. *)
Fixpoint daemon_loop (main_cb : Z) (turns : list turn) (i : ProcessInfo) : option (Z * ProcessInfo * nat) :=
  match turns with
  | [] => None
  | Child t :: _ => let '(r, i) := real_start main_cb t i in Some (r, i, 0)
  | ForkFails :: _ => Some ((-1)%Z, i, 0)
  | Parent status :: turns =>
      if (status =? 0)%Z || (status =? 9)%Z then Some (0%Z, i, 0)
      else '(r, i, n) ← daemon_loop main_cb turns (count_restart i); Some (r, i, S n)
  end.
Definition real_daemon (main_cb : Z) (t : now) (turns : list turn) (i : ProcessInfo) : option (Z * ProcessInfo * nat) :=
  daemon_loop main_cb turns (set_parent t i).

Definition start_daemon (main_cb : Z) (is_daemon : bool) (t : now) (turns : list turn) (i : ProcessInfo)
    : option (Z * ProcessInfo * nat) :=
  if negb is_daemon then let '(r, i) := real_start main_cb t (set_parent t i) in Some (r, i, 0)
  else real_daemon main_cb t turns i.

(** [ProcessInfo::toString] *)
Definition info_toString (strftime : string -> Z -> option string) (i : ProcessInfo) : outcome string :=
  let fmt := "%Y-%m-%d %H:%M:%S" in
  a ← Time2Str strftime (i64 (parent_start_time i)) fmt;
  b ← Time2Str strftime (i64 (main_start_time i)) fmt;
  Ok ("[ProcessInfo parent_id=" ++ signed_decimal (parent_id i) ++ " main_id=" ++ signed_decimal (main_id i)
      ++ " parent_start_time=" ++ a ++ " main_start_time=" ++ b
      ++ " restart_count=" ++ decimal (restart_count i) ++ "]").

Definition crashes (x : turn) : Prop := exists status, x = Parent status /\ status <> 0%Z /\ status <> 9%Z.

(** The loop ends at the first turn that is no crash, and counts the crashes
    before it: it starts the program again after every status but 0 and 9. *)
Lemma daemon_restarts main_cb turns last rest i :
  Forall crashes turns -> ~ crashes last -> (0 <= restart_count i < 2 ^ 32)%Z ->
  exists r j, daemon_loop main_cb (turns ++ last :: rest) i = Some (r, j, List.length turns)
    /\ restart_count j = u32 (restart_count i + Z.of_nat (List.length turns)).
Proof.
  intros Ht Hl. revert i. induction Ht as [|x turns (status & -> & H0 & H9) _ IH]; intros i Hi; cbn [app daemon_loop List.length].
  - assert (restart_count i = u32 (restart_count i + Z.of_nat 0)) as Hc by (rewrite Z.add_0_r; symmetry; apply Z.mod_small; lia).
    destruct last as [t| |status]; [by eexists _, _|by eexists _, _|].
    destruct (Z.eqb_spec status 0); [by eexists _, _|]. destruct (Z.eqb_spec status 9); [by eexists _, _|].
    exfalso. apply Hl. by exists status.
  - destruct (Z.eqb_spec status 0); [done|]. destruct (Z.eqb_spec status 9); [done|]. cbn [orb].
    destruct (IH (count_restart i)) as (r & j & E & Hj); [cbn; apply Z.mod_pos_bound; lia|]. rewrite E. cbn.
    eexists _, _. split; [done|]. rewrite Hj. cbn. unfold u32, wrapu. rewrite Zplus_mod_idemp_l. f_equal. lia.
Qed.
