(* ===== verification/FiberSwitch.v ===== *)
(** * The fibers of a process: [sylar/fiber.cc], the thread-local part of
    [sylar/scheduler.cc]

    [Fiber.v] is one fiber as its scheduler sees it.  Here are all fibers with
    their ids and stacks, the thread-local pointers of every thread and what
    [swapcontext] does with them: it saves the stack the thread runs on in one
    fiber's [m_ctx] and goes on from another's, and which fibers these are is
    up to the pointers.  Shown are that the pointers are right in every use by
    the rules, and that the switches act on each fiber as [Fiber.v] says. *)

From stdpp Require Import base list gmap fin_maps.
From Stdlib Require Import ZArith Lia.
From S2P Require Import Prelude Fiber.

(** The function at the bottom of a fiber's stack. *)
Inductive entry := AtMain | AtCaller.

#[export] Instance entry_eq_dec : EqDecision entry.
Proof. solve_decision. Defined.

(** A saved context: the start of the entry function; after the switch the
    code on fiber [a]'s stack is in; after the last switch of the entry
    function, where only an assertion that fails is left. *)
Inductive point := Enter | Resume (a : nat) | Last.

#[export] Instance point_eq_dec : EqDecision point.
Proof. solve_decision. Defined.

(** [m_ctx] is [None] when what it holds was resumed and not saved again. The
    main fiber of a thread has no entry function and no stack of its own. *)
Record Fiber := mkFiber {
  m_id : Z;
  m_stacksize : Z;
  m_state : State;
  m_cb : option nat;
  m_stack : bool;
  m_entry : option entry;
  m_ctx : option point;
}.

(** The thread-local variables: [t_fiber] and [t_threadFiber] of fiber.cc,
    [t_scheduler] and the other [t_fiber], [GetMainFiber()], of scheduler.cc;
    [on] is the fiber whose stack the thread is on. *)
Record locals := mkLocals {
  t_fiber : option nat;
  t_threadFiber : option nat;
  t_scheduler : option nat;
  t_main : option nat;
  on : option nat;
}.

Record world := World {
  objs : gmap nat Fiber;
  thr : gmap nat locals;
  s_fiber_id : Z;
  s_fiber_count : Z;
}.

Definition set_state (st : State) (f : Fiber) : Fiber :=
  mkFiber (m_id f) (m_stacksize f) st (m_cb f) (m_stack f) (m_entry f) (m_ctx f).
Definition set_ctx (c : option point) (f : Fiber) : Fiber :=
  mkFiber (m_id f) (m_stacksize f) (m_state f) (m_cb f) (m_stack f) (m_entry f) c.
Definition set_cb (cb : option nat) (f : Fiber) : Fiber :=
  mkFiber (m_id f) (m_stacksize f) (m_state f) cb (m_stack f) (m_entry f) (m_ctx f).

Definition put (a : nat) (f : Fiber) (w : world) : world :=
  World (<[a := f]> (objs w)) (thr w) (s_fiber_id w) (s_fiber_count w).
Definition put_locals (t : nat) (l : locals) (w : world) : world :=
  World (objs w) (<[t := l]> (thr w)) (s_fiber_id w) (s_fiber_count w).
Definition fiber_at (a : nat) (w : world) : outcome Fiber := deref null_deref (objs w !! a).
Definition locals_at (t : nat) (w : world) : outcome locals := deref null_deref (thr w !! t).
Definition update (a : nat) (g : Fiber -> Fiber) (w : world) : outcome world :=
  f ← fiber_at a w; Ok (put a (g f) w).

(** ** Making, finding and deleting fibers *)

(** [Fiber::setThis] *)
Definition setThis (o : option nat) (t : nat) (w : world) : outcome world :=
  l ← locals_at t w; Ok (put_locals t (mkLocals o (t_threadFiber l) (t_scheduler l) (t_main l) (on l)) w).

(** [Fiber()]: the thread's own stack becomes the new object's. *)
Definition new_main (t a : nat) (w : world) : outcome world :=
  l ← locals_at t w;
  let w := put_locals t (mkLocals (Some a) (t_threadFiber l) (t_scheduler l) (t_main l) (Some a)) w in
  Ok (World (<[a := mkFiber 0 0 EXEC None false None None]> (objs w)) (thr w) (s_fiber_id w)
        (u64 (s_fiber_count w + 1))).

(** [Fiber(cb, stacksize, use_caller)]; [dflt] is [g_fiber_stack_size]. *)
Definition new_fiber (dflt : Z) (a : nat) (cb : option nat) (stacksize : Z) (use_caller : bool) (w : world) : world :=
  let id := u64 (s_fiber_id w + 1) in
  World (<[a := mkFiber id (if (stacksize =? 0)%Z then dflt else stacksize) INIT cb true
                  (Some (if use_caller then AtCaller else AtMain)) (Some Enter)]> (objs w))
    (thr w) id (u64 (s_fiber_count w + 1)).

(** [~Fiber] in thread [t]. *)
Definition delete_fiber (t a : nat) (w : world) : outcome world :=
  f ← fiber_at a w;
  l ← locals_at t w;
  let w := World (objs w) (thr w) (s_fiber_id w) (u64 (s_fiber_count w - 1)) in
  w ← (if m_stack f then
         _ ← assert (bool_decide (m_state f = TERM) || bool_decide (m_state f = INIT)
                     || bool_decide (m_state f = EXCEPT));
         Ok w
       else
         _ ← assert (bool_decide (m_cb f = None));
         _ ← assert (bool_decide (m_state f = EXEC));
         if decide (t_fiber l = Some a) then setThis None t w else Ok w);
  Ok (World (delete a (objs w)) (thr w) (s_fiber_id w) (s_fiber_count w)).

(** [Fiber::GetThis]; [a] is where a main fiber is allocated. *)
Definition GetThis (t a : nat) (w : world) : outcome (nat * world) :=
  l ← locals_at t w;
  match t_fiber l with
  | Some f => _ ← fiber_at f w; Ok (f, w)
  | None =>
      w ← new_main t a w;
      l ← locals_at t w;
      _ ← assert (bool_decide (t_fiber l = Some a));
      Ok (a, put_locals t (mkLocals (t_fiber l) (Some a) (t_scheduler l) (t_main l) (on l)) w)
  end.


(** [Fiber::reset]: whatever the fiber was made for, it starts in [MainFunc]. *)
Definition reset (a : nat) (cb : option nat) (w : world) : outcome world :=
  f ← fiber_at a w;
  _ ← assert (m_stack f);
  _ ← assert (bool_decide (m_state f = TERM) || bool_decide (m_state f = EXCEPT)
              || bool_decide (m_state f = INIT));
  Ok (put a (mkFiber (m_id f) (m_stacksize f) INIT cb (m_stack f) (Some AtMain) (Some Enter)) w).

(** ** Switching *)

(** [swapcontext(&x->m_ctx, &y->m_ctx)]; [p r] is where the code on the stack
    of [r] goes on later. *)
Definition swapcontext (t : nat) (p : nat -> point) (x y : nat) (w : world) : outcome world :=
  l ← locals_at t w;
  r ← deref null_deref (on l);
  w ← update x (set_ctx (Some (p r))) w;
  fy ← fiber_at y w;
  let go b := Ok (put_locals t (mkLocals (t_fiber l) (t_threadFiber l) (t_scheduler l) (t_main l) (Some b))
                    (put y (set_ctx None fy) w)) in
  match m_ctx fy with
  | Some Enter => go y
  | Some (Resume b) => go b
  | Some Last => Err AssertFails
  | None => Err (UB null_deref)
  end.

Definition swapIn (t a : nat) (w : world) : outcome world :=
  w ← setThis (Some a) t w;
  f ← fiber_at a w;
  _ ← assert (bool_decide (m_state f <> EXEC));
  w ← update a (set_state EXEC) w;
  l ← locals_at t w;
  c ← deref null_deref (t_main l);
  swapcontext t Resume c a w.

Definition swapOut (t a : nat) (p : nat -> point) (w : world) : outcome world :=
  l ← locals_at t w;
  w ← setThis (t_main l) t w;
  c ← deref null_deref (t_main l);
  swapcontext t p a c w.

Definition call (t a : nat) (w : world) : outcome world :=
  w ← setThis (Some a) t w;
  w ← update a (set_state EXEC) w;
  l ← locals_at t w;
  m ← deref null_deref (t_threadFiber l);
  swapcontext t Resume m a w.

Definition back (t a : nat) (p : nat -> point) (w : world) : outcome world :=
  l ← locals_at t w;
  w ← setThis (t_threadFiber l) t w;
  m ← deref null_deref (t_threadFiber l);
  swapcontext t p a m w.

Definition YieldToReady (t a : nat) (w : world) : outcome world :=
  '(cur, w) ← GetThis t a w;
  f ← fiber_at cur w;
  _ ← assert (bool_decide (m_state f = EXEC));
  w ← update cur (set_state READY) w;
  swapOut t cur Resume w.

Definition YieldToHold (t a : nat) (w : world) : outcome world :=
  '(cur, w) ← GetThis t a w;
  f ← fiber_at cur w;
  _ ← assert (bool_decide (m_state f = EXEC));
  swapOut t cur Resume w.

(** The ends of [MainFunc] and of [CallerMainFunc]. [cur] was read when the
    stack was entered, after [setThis] of the fiber with that stack. *)
Definition finish (threw : bool) (f : Fiber) : Fiber :=
  if threw then set_state EXCEPT f else set_state TERM (set_cb None f).

Definition MainFunc_end (t : nat) (threw : bool) (w : world) : outcome world :=
  l ← locals_at t w;
  cur ← deref null_deref (on l);
  w ← update cur (finish threw) w;
  swapOut t cur (fun _ => Last) w.

Definition CallerMainFunc_end (t : nat) (threw : bool) (w : world) : outcome world :=
  l ← locals_at t w;
  cur ← deref null_deref (on l);
  w ← update cur (finish threw) w;
  back t cur (fun _ => Last) w.

(** ** What the scheduler does with the pointers *)

(** [Scheduler(threads, true)] in thread [t]: the main fiber at [a] if there is
    none yet, the root fiber at [b] with [run] as its callback. *)
Definition Scheduler_use_caller (dflt : Z) (t a b this run : nat) (w : world) : outcome world :=
  '(_, w) ← GetThis t a w;
  l ← locals_at t w;
  _ ← assert (bool_decide (t_scheduler l = None));
  let w := put_locals t (mkLocals (t_fiber l) (t_threadFiber l) (Some this) (t_main l) (on l)) w in
  let w := new_fiber dflt b (Some run) 0 true w in
  l ← locals_at t w;
  Ok (put_locals t (mkLocals (t_fiber l) (t_threadFiber l) (t_scheduler l) (Some b) (on l)) w).

(** [Scheduler::~Scheduler], up to its members. *)
Definition Scheduler_delete (t this : nat) (m_stopping : bool) (w : world) : outcome world :=
  _ ← assert m_stopping;
  l ← locals_at t w;
  if decide (t_scheduler l = Some this)
  then Ok (put_locals t (mkLocals (t_fiber l) (t_threadFiber l) None (t_main l) (on l)) w)
  else Ok w.

(** The start of [Scheduler::run]. *)
Definition run_begin (t a this : nat) (is_root : bool) (w : world) : outcome world :=
  l ← locals_at t w;
  let w := put_locals t (mkLocals (t_fiber l) (t_threadFiber l) (Some this) (t_main l) (on l)) w in
  if is_root then Ok w
  else
    '(c, w) ← GetThis t a w;
    l ← locals_at t w;
    Ok (put_locals t (mkLocals (t_fiber l) (t_threadFiber l) (t_scheduler l) (Some c) (on l)) w).

(** The end of a thread deletes its main fiber. *)
Definition thread_exit (t : nat) (w : world) : outcome world :=
  l ← locals_at t w;
  w ← match t_threadFiber l with Some m => delete_fiber t m w | None => Ok w end;
  Ok (World (objs w) (delete t (thr w)) (s_fiber_id w) (s_fiber_count w)).

(** ** Steps, and the rules of use *)

Inductive label :=
  | LThread (t : nat)
  | LGetThis (t a : nat)
  | LNew (a : nat) (cb : option nat) (stacksize : Z) (use_caller : bool)
  | LReset (a : nat) (cb : option nat)
  | LScheduler (t a b this run : nat)
  | LRun (t a this : nat) (is_root : bool)
  | LCall (t a : nat)
  | LBack (t : nat)
  | LCallerEnd (t : nat) (threw : bool)
  | LSwapIn (t a : nat)
  | LReady (t : nat)
  | LHold (t : nat)
  | LMainEnd (t : nat) (threw : bool)
  | LSetHold (a : nat)
  | LDelete (t a : nat)
  | LExit (t : nat).

Definition idle_locals : locals := mkLocals None None None None None.

(** [LBack] is [Fiber::GetThis()->back()] on the running fiber; [LSetHold] is
    what [run] does after a [swapIn]. *)
Definition exec (dflt : Z) (l : label) (w : world) : outcome world :=
  match l with
  | LThread t => Ok (put_locals t idle_locals w)
  | LGetThis t a => '(_, w) ← GetThis t a w; Ok w
  | LNew a cb stacksize use_caller => Ok (new_fiber dflt a cb stacksize use_caller w)
  | LReset a cb => reset a cb w
  | LScheduler t a b this run => Scheduler_use_caller dflt t a b this run w
  | LRun t a this is_root => run_begin t a this is_root w
  | LCall t a => call t a w
  | LBack t => '(cur, w) ← GetThis t 0 w; back t cur Resume w
  | LCallerEnd t threw => CallerMainFunc_end t threw w
  | LSwapIn t a => swapIn t a w
  | LReady t => YieldToReady t 0 w
  | LHold t => YieldToHold t 0 w
  | LMainEnd t threw => MainFunc_end t threw w
  | LSetHold a => update a (set_state HOLD) w
  | LDelete t a => delete_fiber t a w
  | LExit t => thread_exit t w
  end.

(** The thread is on a fiber that was entered at [e]; it is on its own stack. *)
Definition in_entry (e : entry) (t : nat) (w : world) : Prop :=
  exists l r f, thr w !! t = Some l /\ on l = Some r /\ objs w !! r = Some f /\ m_entry f = Some e.
Definition at_home (t : nat) (w : world) : Prop :=
  exists l, thr w !! t = Some l /\ on l = t_threadFiber l.
Definition fresh (a : nat) (w : world) : Prop := objs w !! a = None.
Definition ids_left (w : world) : Prop := (s_fiber_id w < 2 ^ 64 - 1)%Z.

(** Who may do what: a fiber is entered by [swapIn] from the fiber its thread's
    scheduler runs on, and by [call] from its thread's own stack, if it was made
    for that; it is not entered after its end or twice; a scheduler is made,
    and [run] started, on a thread that has none, and there on the thread's own
    stack; what is deleted is no scheduler's root fiber. *)
Definition enabled (l : label) (w : world) : Prop :=
  match l with
  | LThread t => thr w !! t = None
  | LGetThis t a => is_Some (thr w !! t) /\ fresh a w
  | LNew a _ _ _ => fresh a w /\ ids_left w
  | LReset a _ => exists f, objs w !! a = Some f /\ m_entry f = Some AtMain
                  /\ (m_state f = TERM \/ m_state f = EXCEPT \/ m_state f = INIT)
  | LScheduler t a b _ _ => at_home t w /\ fresh a w /\ fresh b w /\ a <> b /\ ids_left w
      /\ exists l, thr w !! t = Some l /\ t_scheduler l = None /\ t_main l = None
  | LRun t a this false => at_home t w /\ fresh a w
      /\ exists l, thr w !! t = Some l /\ t_main l = None
  | LRun t a this true => exists l, thr w !! t = Some l /\ t_scheduler l = Some this
  | LCall t a => (exists l, thr w !! t = Some l /\ on l = t_threadFiber l /\ is_Some (on l))
      /\ (exists f, objs w !! a = Some f /\ m_entry f = Some AtCaller
          /\ (m_ctx f = Some Enter \/ m_ctx f = Some (Resume a)))
      /\ (forall t' l', thr w !! t' = Some l' -> t_main l' = Some a -> t' = t)
  | LBack t | LCallerEnd t _ => in_entry AtCaller t w
  | LSwapIn t a => (exists l, thr w !! t = Some l /\ on l = t_main l /\ is_Some (on l))
      /\ (exists f, objs w !! a = Some f /\ m_entry f = Some AtMain
          /\ (m_state f = INIT \/ m_state f = HOLD \/ m_state f = READY))
  | LReady t | LHold t | LMainEnd t _ => in_entry AtMain t w
  | LSetHold a => exists f, objs w !! a = Some f /\ m_entry f = Some AtMain /\ m_state f = EXEC
      /\ m_ctx f = Some (Resume a)
  | LDelete t a => is_Some (thr w !! t) /\ (forall t' l', thr w !! t' = Some l' -> t_main l' <> Some a)
      /\ (exists f, objs w !! a = Some f /\ m_stack f = true
          /\ (m_state f = TERM \/ m_state f = EXCEPT \/ m_state f = INIT))
  | LExit t => at_home t w
  end.

Inductive reached (dflt : Z) : world -> Prop :=
  | reached_start : reached dflt (World ∅ ∅ 0 0)
  | reached_step l w w' : reached dflt w -> enabled l w -> exec dflt l w = Ok w' -> reached dflt w'.

Fixpoint execs (dflt : Z) (ls : list label) (w : world) : outcome world :=
  match ls with [] => Ok w | l :: ls => w ← exec dflt l w; execs dflt ls w end.

(** ** The invariant *)

(** The states and contexts that go together. *)
Definition fits (f : Fiber) : bool :=
  match m_entry f, m_state f, m_ctx f with
  | None, EXEC, (None | Some (Resume _)) => true
  | Some _, INIT, Some Enter => true
  | Some _, EXEC, (None | Some (Resume _)) => true
  | Some AtMain, (HOLD | READY), Some (Resume _) => true
  | Some _, (TERM | EXCEPT), Some Last => true
  | _, _, _ => false
  end.

Record obj_ok (a : nat) (f : Fiber) : Prop := {
  ok_fits : fits f = true;
  ok_stack : m_stack f = bool_decide (m_entry f <> None);
  ok_home : m_entry f = None -> m_cb f = None /\ m_id f = 0%Z;
  ok_own : forall b, m_ctx f = Some (Resume b) -> b = a;
}.

(** Where a thread can be: on its own stack, on a fiber it called, or on a
    fiber its scheduler entered, with the ones below saved. *)
Definition placed (os : gmap nat Fiber) (l : locals) (r m : nat) (fr fm : Fiber) : Prop :=
  r = m
  \/ (m_entry fr = Some AtCaller /\ m_ctx fm = Some (Resume m))
  \/ (m_entry fr = Some AtMain
      /\ exists c fc, t_main l = Some c /\ os !! c = Some fc /\ m_ctx fc = Some (Resume c)
           /\ (c = m \/ (m_entry fc = Some AtCaller /\ m_ctx fm = Some (Resume m)))).

Definition thread_ok (os : gmap nat Fiber) (l : locals) : Prop :=
  match on l with
  | None => t_fiber l = None /\ t_threadFiber l = None /\ t_main l = None
  | Some r => t_fiber l = Some r /\ exists m fr fm, t_threadFiber l = Some m
      /\ os !! r = Some fr /\ m_ctx fr = None /\ os !! m = Some fm /\ m_entry fm = None
      /\ placed os l r m fr fm
  end
  /\ (forall c, t_main l = Some c -> exists fc, os !! c = Some fc
        /\ (t_threadFiber l = Some c \/ m_entry fc = Some AtCaller)).

(** No two threads have the same fiber in [g]. *)
Definition apart (g : locals -> option nat) (ts : gmap nat locals) : Prop :=
  forall t1 t2 l1 l2 a, ts !! t1 = Some l1 -> ts !! t2 = Some l2 -> g l1 = Some a -> g l2 = Some a -> t1 = t2.

Record inv (w : world) : Prop := {
  inv_obj : forall a f, objs w !! a = Some f -> obj_ok a f;
  inv_thr : forall t l, thr w !! t = Some l -> thread_ok (objs w) l;
  inv_live : forall a f, objs w !! a = Some f -> m_ctx f = None -> exists t l, thr w !! t = Some l /\ on l = Some a;
  inv_on : apart on (thr w);
  inv_threadFiber : apart t_threadFiber (thr w);
  inv_main : apart t_main (thr w);
  inv_ids : forall a f, objs w !! a = Some f -> m_stack f = true -> (1 <= m_id f <= s_fiber_id w)%Z;
  inv_inj : forall a b fa fb, objs w !! a = Some fa -> objs w !! b = Some fb ->
    m_stack fa = true -> m_stack fb = true -> m_id fa = m_id fb -> a = b;
  inv_range : (0 <= s_fiber_id w < 2 ^ 64)%Z;
  inv_count : s_fiber_count w = u64 (Z.of_nat (size (objs w)));
}.

Lemma inv_start : inv (World ∅ ∅ 0 0).
Proof. by split. Qed.

(** ** Switches keep the invariant *)

Definition with_on (y : nat) (l : locals) : locals :=
  mkLocals (Some y) (t_threadFiber l) (t_scheduler l) (t_main l) (Some y).

(** The world after thread [t] went from [r] to [y]. *)
Definition switched (t : nat) (l : locals) (r : nat) (fr : Fiber) (y : nat) (fy : Fiber) (w : world) : world :=
  World (<[y := fy]> (<[r := fr]> (objs w))) (<[t := with_on y l]> (thr w)) (s_fiber_id w) (s_fiber_count w).

(** A fiber in another state. *)
Definition same_fiber (f f' : Fiber) : Prop :=
  m_id f' = m_id f /\ m_stack f' = m_stack f /\ m_entry f' = m_entry f.

Section switch.
Context (w : world) (t : nat) (l : locals) (r y : nat) (fr fr' fy fy' : Fiber).
Context (I : inv w) (Ht : thr w !! t = Some l) (Hon : on l = Some r).
Context (Hr : objs w !! r = Some fr) (Hy : objs w !! y = Some fy) (Hne : r <> y).
Context (Sr : same_fiber fr fr') (Sy : same_fiber fy fy').
Context (Or : obj_ok r fr') (Oy : obj_ok y fy') (Cr : is_Some (m_ctx fr')) (Cy : m_ctx fy' = None) (Cy0 : is_Some (m_ctx fy)).
Context (Hothers : forall t' l', t' <> t -> thr w !! t' = Some l' -> t_threadFiber l' <> Some y /\ t_main l' <> Some y).

Lemma switched_obj a f : objs (switched t l r fr' y fy' w) !! a = Some f ->
  (a = y /\ f = fy') \/ (a = r /\ f = fr') \/ (a <> y /\ a <> r /\ objs w !! a = Some f).
Proof.
  cbn. intros [[<- <-]|[? H]]%lookup_insert_Some; [by left|right].
  apply lookup_insert_Some in H as [[<- <-]|[? H]]; [by left|by right].
Qed.

Lemma switched_old a f : objs (switched t l r fr' y fy' w) !! a = Some f ->
  exists f0, objs w !! a = Some f0 /\ same_fiber f0 f.
Proof. intros [[-> ->]|[[-> ->]|(? & ? & H)]]%switched_obj; eauto. by exists f. Qed.

Lemma switched_other a : a <> r -> a <> y -> objs (switched t l r fr' y fy' w) !! a = objs w !! a.
Proof. intros. cbn. by rewrite !lookup_insert_ne by done. Qed.

(** A saved context that is not [y]'s stays. *)
Lemma switched_saved c fc : c <> y -> objs w !! c = Some fc -> is_Some (m_ctx fc) ->
  objs (switched t l r fr' y fy' w) !! c = Some fc.
Proof.
  intros Hc Hf [p Hp]. rewrite switched_other; [done| |done]. intros ->.
  destruct (inv_thr w I _ _ Ht) as [H _]. rewrite Hon in H. destruct H as (_ & m & f1 & fm & _ & E & Hn & _).
  rewrite E in Hf. injection Hf as ->. congruence.
Qed.

Lemma main_kept l' : l' = l \/ (exists t', thr w !! t' = Some l') ->
  forall c, t_main l' = Some c -> exists fc, objs (switched t l r fr' y fy' w) !! c = Some fc
        /\ (t_threadFiber l' = Some c \/ m_entry fc = Some AtCaller).
Proof.
  intros Hl c Hc. assert (exists t', thr w !! t' = Some l') as [t' H'] by (destruct Hl as [->|?]; eauto).
  destruct (inv_thr w I _ _ H') as [_ H]. destruct (H c Hc) as (fc & E & Hd).
  destruct (decide (c = y)) as [->|]; [|destruct (decide (c = r)) as [->|]].
  - exists fy'. cbn. rewrite lookup_insert_eq. split; [done|]. destruct Hd as [?|Hd]; [by left|right].
    destruct Sy as (_ & _ & ->). congruence.
  - exists fr'. cbn. rewrite lookup_insert_ne, lookup_insert_eq by done. split; [done|].
    destruct Hd as [?|Hd]; [by left|right]. destruct Sr as (_ & _ & ->). congruence.
  - exists fc. by rewrite switched_other.
Qed.

Lemma thread_kept t' l' : t' <> t -> thr w !! t' = Some l' -> thread_ok (objs (switched t l r fr' y fy' w)) l'.
Proof.
  intros Hn H'. split; [|by apply main_kept; eauto].
  destruct (Hothers t' l' Hn H') as [N1 N2]. pose proof (inv_thr w I _ _ H') as [H _].
  destruct (on l') as [r'|] eqn:Er; [|done]. destruct H as (-> & m & f1 & fm & Em & E1 & Hc1 & Ef & He & P).
  assert (r' <> r) by (intros ->; apply Hn; by eapply (inv_on w I)).
  assert (r' <> y) by (intros ->; destruct Cy0; congruence).
  assert (m <> y) by congruence. split; [done|].
  destruct P as [->|[[P1 P2]|(P1 & c & fc & E2 & E3 & E4 & P2)]].
  - exists m, f1, fm. rewrite !switched_other by done. split_and!; try done. by left.
  - exists m, f1, fm. rewrite (switched_other r') by done. rewrite (switched_saved m fm) by eauto.
    split_and!; try done. right; left; by split.
  - assert (Sc : objs (switched t l r fr' y fy' w) !! c = Some fc) by (apply switched_saved; [congruence|done|eauto]).
    assert (Sm : objs (switched t l r fr' y fy' w) !! m = Some fm).
    { destruct P2 as [->|[_ P2]]; [|apply switched_saved; eauto]. congruence. }
    exists m, f1, fm. rewrite (switched_other r') by done. split_and!; try done. right; right. split; [done|].
    by exists c, fc.
Qed.

Lemma apart_kept g : (g = t_threadFiber \/ g = t_main) -> apart g (thr w) -> apart g (<[t := with_on y l]> (thr w)).
Proof.
  intros Hg Ha t1 t2 l1 l2 a H1 H2 E1 E2.
  assert (Eg : g (with_on y l) = g l) by (by destruct Hg as [->| ->]).
  apply lookup_insert_Some in H1 as [[<- <-]|[? H1]]; apply lookup_insert_Some in H2 as [[<- <-]|[? H2]];
    rewrite ?Eg in *; by eauto.
Qed.

Lemma switched_inv : thread_ok (objs (switched t l r fr' y fy' w)) (with_on y l) -> inv (switched t l r fr' y fy' w).
Proof.
  intros Hok. split.
  - intros a f [[-> ->]|[[-> ->]|(? & ? & H)]]%switched_obj; eauto using inv_obj.
  - intros t' l' H'. cbn in H'. apply lookup_insert_Some in H' as [[<- <-]|[? H']]; [done|by eapply thread_kept].
  - intros a f H Hc. apply switched_obj in H as [[-> ->]|[[-> ->]|(? & ? & H)]].
    + exists t, (with_on y l). cbn. by rewrite lookup_insert_eq.
    + destruct Cr as [? Cr']. congruence.
    + destruct (inv_live w I a f H Hc) as (t' & l' & H1' & H2'). exists t', l'. cbn.
      rewrite lookup_insert_ne; [done|]. intros <-. congruence.
  - cbn. intros t1 t2 l1 l2 a H1 H2 E1 E2.
    assert (Hy' : forall t' l', thr w !! t' = Some l' -> on l' <> Some y).
    { intros t' l' H' E. destruct (inv_thr w I _ _ H') as [H _]. rewrite E in H. destruct H as (_ & m & f1 & fm & _ & E' & Hn & _).
      destruct Cy0. congruence. }
    apply lookup_insert_Some in H1 as [[<- <-]|[? H1]]; apply lookup_insert_Some in H2 as [[<- <-]|[? H2]]; [done|..].
    + cbn in E1. injection E1 as <-. by edestruct Hy'.
    + cbn in E2. injection E2 as <-. by edestruct Hy'.
    + by eapply (inv_on w I).
  - apply apart_kept; [by left|]. apply (inv_threadFiber w I).
  - apply apart_kept; [by right|]. apply (inv_main w I).
  - intros a f H Hs. destruct (switched_old a f H) as (f0 & H0 & -> & Es & _). cbn. eapply inv_ids; [done|done|congruence].
  - intros a b fa fb Ha Hb Sa Sb E. destruct (switched_old _ _ Ha) as (fa0 & Ha0 & Ea & Esa & _).
    destruct (switched_old _ _ Hb) as (fb0 & Hb0 & Eb & Esb & _). eapply (inv_inj w I); [done|done|congruence..].
  - apply (inv_range w I).
  - cbn. rewrite !map_size_insert, (inv_count w I). rewrite lookup_insert_ne, Hy by done. by rewrite Hr.
Qed.
End switch.

(** ** What the switches compute *)

Definition ready_ctx (y : nat) (f : Fiber) : Prop := m_ctx f = Some Enter \/ m_ctx f = Some (Resume y).

Lemma ready_is_Some y f : ready_ctx y f -> is_Some (m_ctx f).
Proof. intros [->| ->]; eauto. Qed.

Lemma swapcontext_eq t l p r y fr fy w :
  thr w !! t = Some l -> on l = Some r -> objs w !! r = Some fr -> objs w !! y = Some fy -> r <> y -> ready_ctx y fy ->
  t_fiber l = Some y ->
  swapcontext t p r y w = Ok (switched t l r (set_ctx (Some (p r)) fr) y (set_ctx None fy) w).
Proof.
  intros Ht Hon Hr Hy Hne Hc Hf. unfold swapcontext, locals_at, update, fiber_at. rewrite Ht. cbn. rewrite Hon. cbn. rewrite Hr. cbn.
  rewrite lookup_insert_ne, Hy by done. cbn. unfold switched, put_locals, put, with_on. cbn. rewrite Hf. by destruct Hc as [->| ->].
Qed.

Lemma locals_put a f w t : thr (put a f w) !! t = thr w !! t.
Proof. done. Qed.

(** Into a fiber: [setThis(y)], the state, the switch. *)
Lemma enter_eq t l r y fr fy w :
  thr w !! t = Some l -> on l = Some r -> objs w !! r = Some fr -> objs w !! y = Some fy -> r <> y -> ready_ctx y fy ->
  (w ← setThis (Some y) t w; w ← update y (set_state EXEC) w; swapcontext t Resume r y w)
  = Ok (switched t l r (set_ctx (Some (Resume r)) fr) y (set_ctx None (set_state EXEC fy)) w).
Proof.
  intros Ht Hon Hr Hy Hne Hc. unfold setThis, locals_at, update, fiber_at. rewrite Ht. cbn. rewrite Hy. cbn.
  rewrite (swapcontext_eq t (mkLocals (Some y) (t_threadFiber l) (t_scheduler l) (t_main l) (on l)) Resume r y fr (set_state EXEC fy)).
  - unfold switched, put, put_locals, with_on. cbn. f_equal. f_equal.
    + rewrite (insert_insert_ne (objs w) r y) by done. by rewrite insert_insert_eq.
    + by rewrite insert_insert_eq.
  - cbn. by rewrite lookup_insert_eq.
  - done.
  - cbn. by rewrite lookup_insert_ne by done.
  - cbn. by rewrite lookup_insert_eq.
  - done.
  - done.
  - done.
Qed.

(** Out of it: its state [g fr], [setThis(y)], the switch. *)
Lemma leave_eq t l p r y g fr fy w :
  thr w !! t = Some l -> on l = Some r -> objs w !! r = Some fr -> objs w !! y = Some fy -> r <> y -> m_ctx fy = Some (Resume y) ->
  (w ← update r g w; w ← setThis (Some y) t w; swapcontext t p r y w)
  = Ok (switched t l r (set_ctx (Some (p r)) (g fr)) y (set_ctx None fy) w).
Proof.
  intros Ht Hon Hr Hy Hne Hc. unfold setThis, locals_at, update, fiber_at. rewrite Hr. cbn. rewrite Ht. cbn.
  rewrite (swapcontext_eq t (mkLocals (Some y) (t_threadFiber l) (t_scheduler l) (t_main l) (on l)) p r y (g fr) fy).
  - unfold switched, put, put_locals, with_on. cbn. f_equal. f_equal; by rewrite insert_insert_eq.
  - cbn. by rewrite lookup_insert_eq.
  - done.
  - cbn. by rewrite lookup_insert_eq.
  - cbn. by rewrite lookup_insert_ne by done.
  - done.
  - by right.
  - done.
Qed.

Lemma set_state_id f : set_state (m_state f) f = f.
Proof. by destruct f. Qed.

Lemma update_id a f w : objs w !! a = Some f -> update a (fun f => f) w = Ok w.
Proof. intros H. unfold update, fiber_at. rewrite H. cbn. unfold put. rewrite insert_id by done. by destruct w. Qed.

(** [GetThis] on a thread that has a fiber. *)
Lemma GetThis_eq t l a r fr w : thr w !! t = Some l -> t_fiber l = Some r -> objs w !! r = Some fr -> GetThis t a w = Ok (r, w).
Proof. intros Ht Hf Hr. unfold GetThis, locals_at, fiber_at. rewrite Ht. cbn. rewrite Hf. cbn. by rewrite Hr. Qed.

Lemma swapIn_eq t l r y fr fy w :
  thr w !! t = Some l -> on l = Some r -> t_main l = Some r -> objs w !! r = Some fr -> objs w !! y = Some fy -> r <> y ->
  m_state fy <> EXEC -> ready_ctx y fy ->
  swapIn t y w = Ok (switched t l r (set_ctx (Some (Resume r)) fr) y (set_ctx None (set_state EXEC fy)) w).
Proof.
  intros Ht Hon Hm Hr Hy Hne Hs Hc. rewrite <- (enter_eq t l r y fr fy w) by done.
  unfold swapIn, setThis, locals_at, update, fiber_at. rewrite Ht. cbn. rewrite Hy. cbn.
  rewrite bool_decide_eq_true_2 by done. cbn. rewrite lookup_insert_eq. cbn. by rewrite Hm.
Qed.

Lemma call_eq t l r y fr fy w :
  thr w !! t = Some l -> on l = Some r -> t_threadFiber l = Some r -> objs w !! r = Some fr -> objs w !! y = Some fy -> r <> y ->
  ready_ctx y fy ->
  call t y w = Ok (switched t l r (set_ctx (Some (Resume r)) fr) y (set_ctx None (set_state EXEC fy)) w).
Proof.
  intros Ht Hon Hm Hr Hy Hne Hc. rewrite <- (enter_eq t l r y fr fy w) by done.
  unfold call, setThis, locals_at, update, fiber_at. rewrite Ht. cbn. rewrite Hy. cbn. rewrite lookup_insert_eq. cbn. by rewrite Hm.
Qed.

(** The four ways out of a fiber. *)
Lemma out_eq t l p r c g fr fc w :
  thr w !! t = Some l -> on l = Some r -> objs w !! r = Some fr -> objs w !! c = Some fc -> r <> c -> m_ctx fc = Some (Resume c) ->
  (t_main l = Some c -> (w ← update r g w; swapOut t r p w) = Ok (switched t l r (set_ctx (Some (p r)) (g fr)) c (set_ctx None fc) w))
  /\ (t_threadFiber l = Some c -> (w ← update r g w; back t r p w) = Ok (switched t l r (set_ctx (Some (p r)) (g fr)) c (set_ctx None fc) w)).
Proof.
  intros Ht Hon Hr Hy Hne Hc. pose proof (leave_eq t l p r c g fr fc w Ht Hon Hr Hy Hne Hc) as E. rewrite <- E.
  unfold swapOut, back, update, fiber_at. rewrite Hr. cbn. unfold locals_at. cbn. rewrite Ht.
  split; intros Hm; cbn; rewrite Hm; unfold setThis, locals_at; cbn; by rewrite Ht.
Qed.

Lemma MainFunc_end_eq t l threw r c fr fc w :
  thr w !! t = Some l -> on l = Some r -> t_main l = Some c -> objs w !! r = Some fr -> objs w !! c = Some fc -> r <> c ->
  m_ctx fc = Some (Resume c) ->
  MainFunc_end t threw w = Ok (switched t l r (set_ctx (Some Last) (finish threw fr)) c (set_ctx None fc) w).
Proof.
  intros Ht Hon Hm Hr Hy Hne Hc. destruct (out_eq t l (fun _ => Last) r c (finish threw) fr fc w Ht Hon Hr Hy Hne Hc) as [E _].
  rewrite <- (E Hm). unfold MainFunc_end, locals_at. rewrite Ht. cbn. by rewrite Hon.
Qed.

Lemma CallerMainFunc_end_eq t l threw r c fr fc w :
  thr w !! t = Some l -> on l = Some r -> t_threadFiber l = Some c -> objs w !! r = Some fr -> objs w !! c = Some fc -> r <> c ->
  m_ctx fc = Some (Resume c) ->
  CallerMainFunc_end t threw w = Ok (switched t l r (set_ctx (Some Last) (finish threw fr)) c (set_ctx None fc) w).
Proof.
  intros Ht Hon Hm Hr Hy Hne Hc. destruct (out_eq t l (fun _ => Last) r c (finish threw) fr fc w Ht Hon Hr Hy Hne Hc) as [_ E].
  rewrite <- (E Hm). unfold CallerMainFunc_end, locals_at. rewrite Ht. cbn. by rewrite Hon.
Qed.

Lemma YieldToReady_eq t l r c fr fc w :
  thr w !! t = Some l -> on l = Some r -> t_fiber l = Some r -> t_main l = Some c -> objs w !! r = Some fr -> objs w !! c = Some fc ->
  r <> c -> m_ctx fc = Some (Resume c) -> m_state fr = EXEC ->
  YieldToReady t 0 w = Ok (switched t l r (set_ctx (Some (Resume r)) (set_state READY fr)) c (set_ctx None fc) w).
Proof.
  intros Ht Hon Hf Hm Hr Hy Hne Hc Hs. destruct (out_eq t l Resume r c (set_state READY) fr fc w Ht Hon Hr Hy Hne Hc) as [E _].
  rewrite <- (E Hm). unfold YieldToReady. rewrite (GetThis_eq t l 0 r fr w) by done. cbn. unfold fiber_at at 1. rewrite Hr. cbn.
  by rewrite Hs.
Qed.

Lemma YieldToHold_eq t l r c fr fc w :
  thr w !! t = Some l -> on l = Some r -> t_fiber l = Some r -> t_main l = Some c -> objs w !! r = Some fr -> objs w !! c = Some fc ->
  r <> c -> m_ctx fc = Some (Resume c) -> m_state fr = EXEC ->
  YieldToHold t 0 w = Ok (switched t l r (set_ctx (Some (Resume r)) fr) c (set_ctx None fc) w).
Proof.
  intros Ht Hon Hf Hm Hr Hy Hne Hc Hs. destruct (out_eq t l Resume r c (fun f => f) fr fc w Ht Hon Hr Hy Hne Hc) as [E _].
  rewrite <- (E Hm), (update_id r fr) by done. unfold YieldToHold. rewrite (GetThis_eq t l 0 r fr w) by done. cbn. unfold fiber_at. rewrite Hr.
  cbn. by rewrite Hs.
Qed.

Lemma back_eq t l r c fr fc w :
  thr w !! t = Some l -> on l = Some r -> t_fiber l = Some r -> t_threadFiber l = Some c -> objs w !! r = Some fr -> objs w !! c = Some fc ->
  r <> c -> m_ctx fc = Some (Resume c) ->
  ('(cur, w) ← GetThis t 0 w; back t cur Resume w) = Ok (switched t l r (set_ctx (Some (Resume r)) fr) c (set_ctx None fc) w).
Proof.
  intros Ht Hon Hf Hm Hr Hy Hne Hc. destruct (out_eq t l Resume r c (fun f => f) fr fc w Ht Hon Hr Hy Hne Hc) as [_ E].
  rewrite <- (E Hm), (update_id r fr) by done. by rewrite (GetThis_eq t l 0 r fr w).
Qed.

(** ** Fibers stay well formed *)

Ltac obj_cases :=
  intros [? ? ? ?]; intros;
  repeat match goal with f : Fiber |- _ => destruct f end;
  unfold fits, ready_ctx, finish in *; cbn in *;
  repeat match goal with
         | x : option entry |- _ => destruct x as [[]|]
         | x : State |- _ => destruct x; try done
         | x : option point |- _ => destruct x as [[]|]; try done
         | b : bool |- _ => destruct b; try done
         end; try (split; cbn); naive_solver.

Lemma obj_saved a f : obj_ok a f -> m_ctx f = None -> obj_ok a (set_ctx (Some (Resume a)) f).
Proof. obj_cases. Qed.
Lemma obj_entered a f : obj_ok a f -> ready_ctx a f -> m_entry f <> None -> obj_ok a (set_ctx None (set_state EXEC f)).
Proof. obj_cases. Qed.
Lemma obj_resumed a f b : obj_ok a f -> m_ctx f = Some (Resume b) -> m_entry f <> Some AtMain -> obj_ok a (set_ctx None f).
Proof. obj_cases. Qed.
Lemma obj_ready a f : obj_ok a f -> m_ctx f = None -> m_entry f = Some AtMain -> obj_ok a (set_ctx (Some (Resume a)) (set_state READY f)).
Proof. obj_cases. Qed.
Lemma obj_finished a f threw : obj_ok a f -> m_ctx f = None -> m_entry f <> None -> obj_ok a (set_ctx (Some Last) (finish threw f)).
Proof. obj_cases. Qed.
Lemma obj_EXEC a f : obj_ok a f -> m_ctx f = None -> m_state f = EXEC.
Proof. obj_cases. Qed.
Lemma obj_runnable a f : obj_ok a f -> m_state f = INIT \/ m_state f = HOLD \/ m_state f = READY -> ready_ctx a f /\ m_state f <> EXEC.
Proof. obj_cases. Qed.
Lemma obj_over a f : obj_ok a f -> m_state f = TERM \/ m_state f = EXCEPT \/ m_state f = INIT -> m_ctx f = Some Enter \/ m_ctx f = Some Last.
Proof. obj_cases. Qed.
Lemma obj_stack a f : obj_ok a f -> m_entry f <> None -> m_stack f = true.
Proof. obj_cases. Qed.
Lemma obj_no_stack a f : obj_ok a f -> m_entry f = None -> m_stack f = false /\ m_cb f = None /\ m_state f = EXEC.
Proof. obj_cases. Qed.

(** ** Switching steps *)

(** A thread that has a fiber. *)
Lemma thread_on w t l r : inv w -> thr w !! t = Some l -> on l = Some r ->
  t_fiber l = Some r /\ exists m fr fm, t_threadFiber l = Some m
      /\ objs w !! r = Some fr /\ m_ctx fr = None /\ objs w !! m = Some fm /\ m_entry fm = None /\ placed (objs w) l r m fr fm.
Proof. intros I Ht Hon. pose proof (inv_thr w I _ _ Ht) as [H _]. by rewrite Hon in H. Qed.

(** A fiber that is no thread's own and no scheduler's is in the way of nobody. *)
Lemma nobodys w t y fy : inv w -> objs w !! y = Some fy -> m_entry fy <> None ->
  (m_entry fy = Some AtCaller -> forall t' l', thr w !! t' = Some l' -> t_main l' = Some y -> t' = t) ->
  forall t' l', t' <> t -> thr w !! t' = Some l' -> t_threadFiber l' <> Some y /\ t_main l' <> Some y.
Proof.
  intros I Hy He Hc t' l' Hn H'. pose proof (inv_thr w I _ _ H') as [P Q].
  assert (Hhome : t_threadFiber l' <> Some y).
  { intros E. destruct (on l') as [r'|]; [|destruct P as (_ & P & _); congruence].
    destruct P as (_ & m & fr & fm & E' & _ & _ & Hm & Hem & _). congruence. }
  split; [done|]. intros E. destruct (Q y E) as (fc & E1 & [E2|E2]); [done|].
  apply Hn. eapply Hc; [congruence|done|done].
Qed.

(** Its own thread's [t_threadFiber] and [t_main] are in nobody's way either. *)
Lemma own w t l y : inv w -> thr w !! t = Some l -> (t_threadFiber l = Some y \/ t_main l = Some y) ->
  (forall t' l', t' <> t -> thr w !! t' = Some l' -> t_threadFiber l' = Some y \/ t_main l' = Some y -> False).
Proof.
  intros I Ht Hy t' l' Hn H' Hy'.
  assert (home : forall t l y, thr w !! t = Some l -> t_threadFiber l = Some y -> exists f, objs w !! y = Some f /\ m_entry f = None).
  { intros t0 l0 y0 H0 E0. pose proof (inv_thr w I _ _ H0) as [P _]. destruct (on l0); [|destruct P as (_ & P & _); congruence].
    destruct P as (_ & m & fr & fm & E' & _ & _ & Hm & Hem & _). exists fm. split; [congruence|done]. }
  assert (main : forall t l y, thr w !! t = Some l -> t_main l = Some y -> t_threadFiber l = Some y \/ exists f, objs w !! y = Some f /\ m_entry f = Some AtCaller).
  { intros t0 l0 y0 H0 E0. pose proof (inv_thr w I _ _ H0) as [_ Q]. destruct (Q y0 E0) as (fc & E1 & [?|?]); eauto. }
  destruct Hy as [Hy|Hy], Hy' as [Hy'|Hy'].
  - apply Hn. by eapply (inv_threadFiber w I).
  - destruct (main _ _ _ H' Hy') as [E|(f & E & He)]; [apply Hn; by eapply (inv_threadFiber w I)|].
    destruct (home _ _ _ Ht Hy) as (f' & E' & He'). congruence.
  - destruct (main _ _ _ Ht Hy) as [E|(f & E & He)]; [apply Hn; by eapply (inv_threadFiber w I)|].
    destruct (home _ _ _ H' Hy') as (f' & E' & He'). congruence.
  - apply Hn. by eapply (inv_main w I).
Qed.

(** A thread whose [on] is not [y] did not run on it. *)
Lemma not_on w t l r y fy : inv w -> thr w !! t = Some l -> on l = Some r -> objs w !! y = Some fy -> is_Some (m_ctx fy) -> r <> y.
Proof. intros I Ht Hon Hy [p Hp] ->. destruct (thread_on w t l y I Ht Hon) as (_ & m & fr & fm & _ & E & Hn & _). congruence. Qed.

(** Entering [y] from the thread's stack, or from the fiber its scheduler is on. *)
Lemma into_inv w t l r fr y fy : inv w -> thr w !! t = Some l -> on l = Some r -> objs w !! r = Some fr ->
  objs w !! y = Some fy -> ready_ctx y fy ->
  (m_entry fy = Some AtCaller /\ t_threadFiber l = Some r
     /\ (forall t' l', thr w !! t' = Some l' -> t_main l' = Some y -> t' = t))
  \/ (m_entry fy = Some AtMain /\ t_main l = Some r) ->
  inv (switched t l r (set_ctx (Some (Resume r)) fr) y (set_ctx None (set_state EXEC fy)) w).
Proof.
  intros I Ht Hon Hr Hy Hc Hcase. pose proof (ready_is_Some y fy Hc) as Hs.
  pose proof (not_on w t l r y fy I Ht Hon Hy Hs) as Hne.
  assert (He : m_entry fy <> None) by (destruct Hcase as [(-> & _)|(-> & _)]; done).
  destruct (thread_on w t l r I Ht Hon) as (Hf & m & fr1 & fm & Hm & Hr1 & Hcr & Hfm & Hem & P).
  rewrite Hr in Hr1. injection Hr1 as <-.
  assert (Om : m <> y) by (intros ->; congruence).
  eapply (switched_inv w t l r y fr _ fy); try done.
  - apply obj_saved; [by apply (inv_obj w I)|done].
  - apply obj_entered; [by apply (inv_obj w I)|done|done].
  - intros t' l' Hn H'. eapply (nobodys w t y fy); try done. intros E.
    destruct Hcase as [(_ & _ & H)|(E' & _)]; [exact H|congruence].
  - split; [|cbn [with_on t_main t_threadFiber]; eapply (main_kept w t l r y fr _ fy); try done; by left].
    cbn. split; [done|]. rewrite lookup_insert_eq.
    destruct (decide (m = r)) as [->|Hmr].
    + exists r. eexists _, _. split_and!; [done|done|done|rewrite lookup_insert_ne, lookup_insert_eq by done; done|cbn; congruence|].
      right. destruct Hcase as [(E & _)|(E & Ec)]; [left; by split|right]. split; [done|].
      exists r. eexists. split_and!; [done|rewrite lookup_insert_ne, lookup_insert_eq by done; done|done|by left].
    + exists m. eexists _, fm. split_and!; [done|done|done|by rewrite !lookup_insert_ne by done|done|].
      destruct Hcase as [(_ & E & _)|(E & Ec)]; [congruence|]. right; right. split; [done|].
      destruct (inv_thr w I _ _ Ht) as [_ Q]. destruct (Q r Ec) as (fc & E1 & [E2|E2]); [congruence|].
      rewrite Hr in E1. injection E1 as <-.
      exists r. eexists. split_and!; [done|rewrite lookup_insert_ne, lookup_insert_eq by done; done|done|right; split; [done|]].
      destruct P as [->|[[_ P]|(P & _)]]; [done|done|congruence].
Qed.

(** Where the code of a fiber goes back to. *)
Definition below (e : entry) (l : locals) : option nat := match e with AtMain => t_main l | AtCaller => t_threadFiber l end.

Lemma below_saved w t l r fr e : inv w -> thr w !! t = Some l -> on l = Some r -> objs w !! r = Some fr -> m_entry fr = Some e ->
  exists c fc, below e l = Some c /\ objs w !! c = Some fc /\ m_ctx fc = Some (Resume c) /\ r <> c /\ m_entry fc <> Some AtMain
    /\ (c <> r -> t_threadFiber l = Some c \/ (m_entry fc = Some AtCaller
          /\ exists m fm, t_threadFiber l = Some m /\ objs w !! m = Some fm /\ m_entry fm = None /\ m_ctx fm = Some (Resume m))).
Proof.
  intros I Ht Hon Hr He. destruct (thread_on w t l r I Ht Hon) as (Hf & m & fr1 & fm & Hm & Hr1 & Hcr & Hfm & Hem & P).
  rewrite Hr in Hr1. injection Hr1 as <-.
  destruct P as [->|[[P1 P2]|(P1 & c & fc & E1 & E2 & E3 & P2)]]; [congruence|..]; rewrite He in P1; injection P1 as ->; cbn.
  - exists m, fm. split_and!; try done; [congruence|congruence|by left].
  - exists c, fc. split_and!; try done; [congruence| |].
    + destruct P2 as [->|[P2 _]]; congruence.
    + intros _. destruct P2 as [->|[P2 P3]]; [by left|right]. split; [done|]. by exists m, fm.
Qed.

(** Leaving the fiber [r] with what is left of it, [fr']. *)
Lemma out_inv w t l r fr e c fc fr' : inv w -> thr w !! t = Some l -> on l = Some r -> objs w !! r = Some fr -> m_entry fr = Some e ->
  below e l = Some c -> objs w !! c = Some fc -> same_fiber fr fr' -> obj_ok r fr' -> is_Some (m_ctx fr') ->
  inv (switched t l r fr' c (set_ctx None fc) w).
Proof.
  intros I Ht Hon Hr He Hb Hc Sr Or Cr.
  destruct (below_saved w t l r fr e I Ht Hon Hr He) as (c1 & fc1 & E1 & E2 & E3 & Hne & Hm & Hd).
  rewrite Hb in E1. injection E1 as <-. rewrite Hc in E2. injection E2 as <-. specialize (Hd (not_eq_sym Hne)).
  eapply (switched_inv w t l r c fr _ fc); try done.
  - by eapply obj_resumed; [by apply (inv_obj w I)|..].
  - intros t' l' Hn H'. assert (Hown : t_threadFiber l = Some c \/ t_main l = Some c) by (destruct e; eauto).
    pose proof (own w t l c I Ht Hown t' l' Hn H'). tauto.
  - split; [|cbn [with_on t_main t_threadFiber]; eapply (main_kept w t l r c fr _ fc); try done; by left].
    cbn. split; [done|]. rewrite lookup_insert_eq. destruct Hd as [Hd|(Hd & m & fm & D1 & D2 & D3 & D4)].
    + destruct (thread_on w t l r I Ht Hon) as (_ & m & fr1 & fm & Hm' & _ & _ & Hfm & Hem & _).
      rewrite Hd in Hm'. injection Hm' as <-. rewrite Hc in Hfm. injection Hfm as <-.
      exists c. eexists _, _. split_and!; [done|done|done|by rewrite lookup_insert_eq|done|by left].
    + exists m. eexists _, fm. split_and!; [done|done|done| |done|right; left; by split].
      rewrite lookup_insert_ne by congruence. rewrite lookup_insert_ne; [done|]. congruence.
Qed.

Lemma same_fiber_finish threw p f : same_fiber f (set_ctx p (finish threw f)).
Proof. by destruct threw. Qed.

(** Every switching step by the rules works. *)
Lemma switch_steps w : inv w ->
  (forall t a, enabled (LSwapIn t a) w -> exists w', swapIn t a w = Ok w' /\ inv w')
  /\ (forall t a, enabled (LCall t a) w -> exists w', call t a w = Ok w' /\ inv w').
Proof.
  intros I. split.
  - intros t a ((l & Ht & Hm & [r Hon]) & f & Ha & He & Hst).
    destruct (obj_runnable a f (inv_obj w I _ _ Ha) Hst) as [Hc Hs].
    destruct (thread_on w t l r I Ht Hon) as (_ & m & fr & fm & _ & Hr & _).
    pose proof (not_on w t l r a f I Ht Hon Ha (ready_is_Some a f Hc)).
    eexists. split; [apply (swapIn_eq t l r a fr f); first [done|congruence]|].
    eapply into_inv; try done. right. split; congruence.
  - intros t a ((l & Ht & Hm & [r Hon]) & (f & Ha & He & Hc) & Hu).
    destruct (thread_on w t l r I Ht Hon) as (_ & m & fr & fm & _ & Hr & _).
    pose proof (not_on w t l r a f I Ht Hon Ha (ready_is_Some a f Hc)).
    eexists. split; [apply (call_eq t l r a fr f); first [done|congruence]|].
    eapply into_inv; try done. left. split_and!; [done|congruence|done].
Qed.

Lemma out_steps w t : inv w ->
  (in_entry AtMain t w ->
     (exists w', YieldToReady t 0 w = Ok w' /\ inv w') /\ (exists w', YieldToHold t 0 w = Ok w' /\ inv w')
     /\ forall threw, exists w', MainFunc_end t threw w = Ok w' /\ inv w')
  /\ (in_entry AtCaller t w ->
     (exists w', ('(cur, w) ← GetThis t 0 w; back t cur Resume w) = Ok w' /\ inv w')
     /\ forall threw, exists w', CallerMainFunc_end t threw w = Ok w' /\ inv w').
Proof.
  intros I. split; intros (l & r & fr & Ht & Hon & Hr & He);
    destruct (below_saved w t l r fr _ I Ht Hon Hr He) as (c & fc & E1 & E2 & E3 & Hne & Hm & _); cbn in E1;
    destruct (thread_on w t l r I Ht Hon) as (Hf & m & fr1 & fm & _ & Hr1 & Hcr & _);
    rewrite Hr in Hr1; injection Hr1 as <-;
    pose proof (inv_obj w I _ _ Hr) as Or; pose proof (obj_EXEC r fr Or Hcr) as Hst.
  - split_and!; [eexists; split; [by apply (YieldToReady_eq t l r c fr fc)|]
                |eexists; split; [by apply (YieldToHold_eq t l r c fr fc)|]
                |intros threw; eexists; split; [by apply (MainFunc_end_eq t l threw r c fr fc)|]];
      eapply (out_inv w t l r fr); eauto using obj_ready, obj_saved, obj_finished, same_fiber_finish; try done.
    by apply obj_finished; [..|congruence].
  - split_and!; [eexists; split; [by apply (back_eq t l r c fr fc)|]
                |intros threw; eexists; split; [by apply (CallerMainFunc_end_eq t l threw r c fr fc)|]];
      eapply (out_inv w t l r fr); eauto using obj_saved, same_fiber_finish; try done.
    by apply obj_finished; [..|congruence].
Qed.

(** ** A fiber as its scheduler sees it *)

(** The fiber at [a] is the one of [Fiber.v]. *)
Definition views (w : world) (a : nat) (f : Fiber.Fiber) : Prop :=
  exists g, objs w !! a = Some g /\ Fiber.m_state f = m_state g /\ Fiber.m_cb f = m_cb g /\ Fiber.m_stack f = m_stack g
    /\ match Fiber.m_ctx f with
       | Fresh => m_ctx g = Some Enter
       | Saved => exists b, m_ctx g = Some (Resume b)
       | Ended => m_ctx g = Some Last
       | Live t => m_ctx g = None /\ exists l, thr w !! t = Some l /\ on l = Some a
       end.

(** What a step leaves alone. *)
Definition keeps (w w' : world) : Prop :=
  (forall a g, objs w !! a = Some g -> objs w' !! a = Some g)
  /\ (forall t l r, thr w !! t = Some l -> on l = Some r -> exists l', thr w' !! t = Some l' /\ on l' = Some r).

Lemma keep_trans w1 w2 w3 : keeps w1 w2 -> keeps w2 w3 -> keeps w1 w3.
Proof.
  intros [A1 A2] [B1 B2]. split; [eauto|]. intros t l r H1 H2. destruct (A2 t l r H1 H2) as (l' & H3 & H4). eauto.
Qed.

Lemma keeps_views w w' a f : keeps w w' -> views w a f -> views w' a f.
Proof.
  intros [K1 K2] (g & Ha & H1 & H2 & H3 & H4). exists g. split_and!; eauto. destruct (Fiber.m_ctx f); try done.
  destruct H4 as (H4 & l & H5 & H6). split; [done|]. eauto.
Qed.

Lemma keeps_locals w t l l' : thr w !! t = Some l -> on l' = on l -> keeps w (put_locals t l' w).
Proof.
  intros Ht Ho. split; [done|]. intros t1 l1 r H1 H2. cbn. destruct (decide (t1 = t)) as [->|].
  - exists l'. rewrite lookup_insert_eq. split; congruence.
  - exists l1. by rewrite lookup_insert_ne.
Qed.

Lemma keeps_new dflt a cb sz uc w : fresh a w -> keeps w (new_fiber dflt a cb sz uc w).
Proof. unfold fresh. intros Ha. split; [|eauto]. intros b g Hb. cbn. rewrite lookup_insert_ne; [done|congruence]. Qed.

(** ** The other steps *)

Definition refers (l : locals) (b : nat) : Prop := on l = Some b \/ t_threadFiber l = Some b \/ t_main l = Some b.

(** A thread stays well placed while the fibers it refers to are left alone. *)
Lemma thread_ok_ext os os' l : thread_ok os l ->
  (forall b f, os !! b = Some f -> refers l b -> os' !! b = Some f) -> thread_ok os' l.
Proof.
  unfold refers. intros [P Q] Hk. split.
  - destruct (on l) as [r|]; [|done]. destruct P as (-> & m & fr & fm & Hm & Hr & Hc & Hfm & Hem & P). split; [done|].
    exists m, fr, fm. split_and!; eauto. destruct P as [->|[P|(P1 & c & fc & E1 & E2 & P)]]; [by left|right; by left|].
    right; right. split; [done|]. exists c, fc. split_and!; naive_solver.
  - intros c Hc. destruct (Q c Hc) as (fc & E & Hd). exists fc. split; [|done]. eauto.
Qed.

(** What a thread refers to. *)
Lemma refers_kind w t l b f : inv w -> thr w !! t = Some l -> objs w !! b = Some f -> refers l b ->
  m_ctx f = None \/ m_entry f = None \/ (m_entry f = Some AtCaller /\ t_main l = Some b).
Proof.
  intros I Ht Hb. pose proof (inv_thr w I _ _ Ht) as [P Q].
  assert (home : t_threadFiber l = Some b -> m_entry f = None).
  { intros E. destruct (on l); [|destruct P as (_ & P & _); congruence]. destruct P as (_ & m & fr & fm & ? & _ & _ & ? & ? & _). congruence. }
  intros [E|[E|E]].
  - destruct (thread_on w t l b I Ht E) as (_ & m & fr & fm & _ & ? & ? & _). left. congruence.
  - right; left. auto.
  - destruct (Q b E) as (fc & E1 & [E2|E2]); [right; left; auto|right; right; split; [congruence|done]].
Qed.

(** A fiber made for [swapIn] that is not running gets another state. *)
Lemma put_inv w a f f' : inv w -> objs w !! a = Some f -> m_entry f = Some AtMain -> is_Some (m_ctx f) ->
  same_fiber f f' -> obj_ok a f' -> is_Some (m_ctx f') -> inv (put a f' w).
Proof.
  intros I Ha He [p Hp] (S1 & S2 & S3) Oa [p' Hp'].
  assert (old : forall b g, objs (put a f' w) !! b = Some g -> exists g0, objs w !! b = Some g0 /\ m_id g = m_id g0 /\ m_stack g = m_stack g0).
  { cbn. intros b g [[<- <-]|[? H]]%lookup_insert_Some; eauto. }
  split; cbn; try apply I.
  - intros b g [[<- <-]|[? H]]%lookup_insert_Some; [done|by apply (inv_obj w I)].
  - intros t l Ht. eapply thread_ok_ext; [by apply (inv_thr w I t)|]. intros b g Hb Hr. rewrite lookup_insert_ne; [done|].
    intros <-. rewrite Ha in Hb. injection Hb as <-. destruct (refers_kind w t l a f I Ht Ha Hr) as [?|[?|[? _]]]; congruence.
  - intros b g [[<- <-]|[? H]]%lookup_insert_Some Hc; [congruence|by eapply (inv_live w I)].
  - intros b g H Hs. destruct (old b g H) as (g0 & H0 & -> & E). eapply (inv_ids w I); [done|congruence].
  - intros b1 b2 g1 g2 H1 H2 Hs1 Hs2 E. destruct (old _ _ H1) as (h1 & D1 & D2 & D3), (old _ _ H2) as (h2 & D4 & D5 & D6).
    eapply (inv_inj w I); [done|done|congruence..].
  - rewrite map_size_insert, Ha. apply (inv_count w I).
Qed.

Lemma wrap_succ n m : u64 (u64 n + m) = u64 (n + m).
Proof. unfold u64, wrapu. by rewrite Zplus_mod_idemp_l. Qed.

(** A new fiber. *)
Lemma new_fiber_inv dflt a cb sz uc w : inv w -> fresh a w -> ids_left w -> inv (new_fiber dflt a cb sz uc w).
Proof.
  intros I Ha Hid. unfold fresh in Ha. pose proof (inv_range w I) as Hr. unfold ids_left in Hid.
  assert (Eid : u64 (s_fiber_id w + 1) = (s_fiber_id w + 1)%Z) by (unfold u64, wrapu; apply Z.mod_small; lia).
  unfold new_fiber. rewrite Eid. split; cbn; try apply I.
  - intros b g [[<- <-]|[? H]]%lookup_insert_Some; [|by apply (inv_obj w I)]. by destruct uc; split.
  - intros t l Ht. eapply thread_ok_ext; [by apply (inv_thr w I t)|]. intros b g Hb _.
    rewrite lookup_insert_ne; congruence.
  - intros b g [[<- <-]|[? H]]%lookup_insert_Some Hc; [done|by eapply (inv_live w I)].
  - intros b g [[<- <-]|[? H]]%lookup_insert_Some Hs; cbn; [lia|]. pose proof (inv_ids w I _ _ H Hs). lia.
  - intros b1 b2 g1 g2 H1 H2 Hs1 Hs2 E.
    apply lookup_insert_Some in H1 as [[<- <-]|[? H1]]; apply lookup_insert_Some in H2 as [[<- <-]|[? H2]]; cbn in E.
    + done.
    + pose proof (inv_ids w I _ _ H2 Hs2). lia.
    + pose proof (inv_ids w I _ _ H1 Hs1). lia.
    + by eapply (inv_inj w I).
  - lia.
  - rewrite map_size_insert, Ha, (inv_count w I), wrap_succ. f_equal. lia.
Qed.

(** Pointers of a thread that say where it is not are changed. *)
Lemma locals_inv w t l l' : inv w -> thr w !! t = Some l -> on l' = on l -> t_fiber l' = t_fiber l ->
  t_threadFiber l' = t_threadFiber l ->
  (t_main l' = t_main l \/ (t_main l = None /\ is_Some (on l) /\ exists c fc, t_main l' = Some c /\ objs w !! c = Some fc
     /\ (t_threadFiber l = Some c \/ m_entry fc = Some AtCaller)
     /\ forall t1 l1, thr w !! t1 = Some l1 -> t1 <> t -> t_main l1 <> Some c)) ->
  inv (put_locals t l' w).
Proof.
  intros I Ht Eo Ef Eh Hm.
  assert (ap : forall g, g l' = g l -> apart g (thr w) -> apart g (<[t := l']> (thr w))).
  { intros g Eg Ha t1 t2 l1 l2 a H1 H2 E1 E2.
    apply lookup_insert_Some in H1 as [[<- <-]|[? H1]]; apply lookup_insert_Some in H2 as [[<- <-]|[? H2]]; rewrite ?Eg in *; eauto. }
  split; cbn; try apply I.
  - intros t1 l1 [[<- <-]|[? H]]%lookup_insert_Some; [|by apply (inv_thr w I t1)].
    pose proof (inv_thr w I _ _ Ht) as [P Q]. unfold thread_ok, placed in *. rewrite Eo, Ef, Eh.
    destruct Hm as [->|(E & Hs & c & fc & -> & Hc & Hd & Hu)]; [done|]. rewrite E in *. split.
    + destruct (on l) as [r|] eqn:Er.
      * destruct P as (P1 & m & fr & fm & P). split; [done|]. exists m, fr, fm. naive_solver.
      * by destruct Hs.
    + intros c1 [= <-]. eauto.
  - intros a f H Hc. destruct (inv_live w I a f H Hc) as (t1 & l1 & H1 & H2). destruct (decide (t1 = t)) as [->|].
    + exists t, l'. rewrite lookup_insert_eq. split; congruence.
    + exists t1, l1. by rewrite lookup_insert_ne.
  - apply ap; [done|apply (inv_on w I)].
  - apply ap; [done|apply (inv_threadFiber w I)].
  - destruct Hm as [E|(E & Hs & c & fc & E' & Hc & Hd & Hu)]; [apply ap; [done|apply (inv_main w I)]|].
    intros t1 t2 l1 l2 a H1 H2 E1 E2.
    apply lookup_insert_Some in H1 as [[<- <-]|[? H1]]; apply lookup_insert_Some in H2 as [[<- <-]|[? H2]].
    + done.
    + exfalso. eapply Hu; [done|done|congruence].
    + exfalso. eapply Hu; [done|done|congruence].
    + by eapply (inv_main w I).
Qed.

Lemma new_thread_inv w t : inv w -> thr w !! t = None -> inv (put_locals t idle_locals w).
Proof.
  intros I Ht.
  assert (ap : forall g, g idle_locals = None -> apart g (thr w) -> apart g (<[t := idle_locals]> (thr w))).
  { intros g Eg Ha t1 t2 l1 l2 a H1 H2 E1 E2.
    apply lookup_insert_Some in H1 as [[<- <-]|[? H1]]; apply lookup_insert_Some in H2 as [[<- <-]|[? H2]]; rewrite ?Eg in *; eauto; done. }
  split; cbn; try (apply ap; [done|]); try apply I.
  - intros t1 l1 [[<- <-]|[? H]]%lookup_insert_Some; [by split|by apply (inv_thr w I t1)].
  - intros a f H Hc. destruct (inv_live w I a f H Hc) as (t1 & l1 & H1 & H2). exists t1, l1.
    rewrite lookup_insert_ne; [done|congruence].
Qed.

(** [GetThis], which keeps the thread's other pointers. *)
Lemma GetThis_inv w t a l : inv w -> thr w !! t = Some l -> fresh a w ->
  exists c w' l', GetThis t a w = Ok (c, w') /\ inv w' /\ thr w' !! t = Some l' /\ on l' = Some c
    /\ t_main l' = t_main l /\ t_scheduler l' = t_scheduler l /\ s_fiber_id w' = s_fiber_id w
    /\ (forall b, b <> a -> objs w' !! b = objs w !! b)
    /\ (on l = t_threadFiber l -> t_threadFiber l' = Some c)
    /\ keeps w w'.
Proof.
  intros I Ht Ha. unfold fresh in Ha. destruct (on l) as [r|] eqn:Er.
  { destruct (thread_on w t l r I Ht Er) as (Hf & m & fr & fm & Hm & Hr & _).
    exists r, w, l. split_and!; try done; [by apply (GetThis_eq t l a r fr)|by split; eauto]. }
  pose proof (inv_thr w I _ _ Ht) as [P Q]. rewrite Er in P. destruct P as (P1 & P2 & P3).
  set (l' := mkLocals (Some a) (Some a) (t_scheduler l) (t_main l) (Some a)).
  exists a, (World (<[a := mkFiber 0 0 EXEC None false None None]> (objs w)) (<[t := l']> (thr w)) (s_fiber_id w) (u64 (s_fiber_count w + 1))), l'.
  assert (no : forall t1 l1, thr w !! t1 = Some l1 -> ~ refers l1 a).
  { intros t1 l1 H1 Hr. pose proof (inv_thr w I _ _ H1) as [P Q1]. destruct Hr as [E|[E|E]].
    - destruct (thread_on w t1 l1 a I H1 E) as (_ & m & fr & fm & _ & ? & _). congruence.
    - destruct (on l1); [|destruct P as (_ & P & _); congruence]. destruct P as (_ & m & fr & fm & ? & _ & _ & ? & _). congruence.
    - destruct (Q1 a E) as (? & ? & _). congruence. }
  assert (ap : forall g, (forall l, g l = Some a -> refers l a) -> (g l' = Some a \/ g l' = None) -> apart g (thr w) -> apart g (<[t := l']> (thr w))).
  { intros g Hg Hl' Hap t1 t2 l1 l2 b H1 H2 E1 E2.
    apply lookup_insert_Some in H1 as [[<- <-]|[? H1]]; apply lookup_insert_Some in H2 as [[<- <-]|[? H2]].
    - done.
    - destruct Hl' as [Hl'|Hl']; [|congruence]. edestruct (no t2 l2); [done|apply Hg; congruence].
    - destruct Hl' as [Hl'|Hl']; [|congruence]. edestruct (no t1 l1); [done|apply Hg; congruence].
    - by eapply Hap. }
  split_and!; cbn; rewrite ?lookup_insert_eq; try done.
  - unfold GetThis, new_main, locals_at. rewrite Ht. cbn. rewrite P1. cbn. rewrite lookup_insert_eq. cbn.
    rewrite bool_decide_eq_true_2 by done. cbn. unfold put_locals. cbn. by rewrite insert_insert_eq.
  - split; cbn; try apply I.
    + intros b g [[<- <-]|[? H]]%lookup_insert_Some; [by split|by apply (inv_obj w I)].
    + intros t1 l1 [[<- <-]|[? H]]%lookup_insert_Some.
      * split; cbn; [|by rewrite P3]. split; [done|]. exists a. eexists _, _. rewrite lookup_insert_eq. split_and!; try done. by left.
      * eapply thread_ok_ext; [by apply (inv_thr w I t1)|]. intros b g Hb _. rewrite lookup_insert_ne; congruence.
    + intros b g [[<- <-]|[? H]]%lookup_insert_Some Hc; [exists t, l'; by rewrite lookup_insert_eq|].
      destruct (inv_live w I b g H Hc) as (t1 & l1 & H1 & H2). exists t1, l1. rewrite lookup_insert_ne; [done|congruence].
    + apply ap; [unfold refers; eauto|by left|apply (inv_on w I)].
    + apply ap; [unfold refers; eauto|by left|apply (inv_threadFiber w I)].
    + apply ap; [unfold refers; eauto|by right|apply (inv_main w I)].
    + intros b g [[<- <-]|[? H]]%lookup_insert_Some Hs; [done|by eapply (inv_ids w I)].
    + intros b1 b2 g1 g2 H1 H2 Hs1 Hs2 E.
      apply lookup_insert_Some in H1 as [[<- <-]|[? H1]]; apply lookup_insert_Some in H2 as [[<- <-]|[? H2]]; try done.
      by eapply (inv_inj w I).
    + rewrite map_size_insert, Ha, (inv_count w I), wrap_succ. f_equal. lia.
  - intros b Hb. by rewrite lookup_insert_ne.
  - split; cbn; [intros b g Hb; rewrite lookup_insert_ne; [done|congruence]|].
    intros t1 l1 r H1 H2. exists l1. rewrite lookup_insert_ne; [done|congruence].
Qed.

Lemma Scheduler_use_caller_inv dflt t a b this run w : inv w -> enabled (LScheduler t a b this run) w ->
  exists w', Scheduler_use_caller dflt t a b this run w = Ok w' /\ inv w' /\ keeps w w'.
Proof.
  intros I ((l0 & Ht0 & Hh) & Ha & Hb & Hab & Hid & l & Ht & Hs & Hm). rewrite Ht in Ht0. injection Ht0 as <-.
  destruct (GetThis_inv w t a l I Ht Ha) as (c & w1 & l1 & E1 & I1 & Ht1 & Hon1 & Hm1 & Hs1 & Hid1 & Hk1 & Hh1 & Ho1).
  unfold Scheduler_use_caller. rewrite E1. cbn. unfold locals_at. rewrite Ht1. cbn.
  rewrite bool_decide_eq_true_2 by congruence. cbn. rewrite lookup_insert_eq. cbn.
  eexists. split; [reflexivity|].
  set (l2 := mkLocals (t_fiber l1) (t_threadFiber l1) (Some this) (t_main l1) (on l1)).
  assert (I2 : inv (put_locals t l2 w1)) by (eapply (locals_inv w1 t l1); eauto).
  assert (Hb1 : objs w1 !! b = None) by (rewrite Hk1 by done; apply Hb).
  assert (I3 : inv (new_fiber dflt b (Some run) 0 true (put_locals t l2 w1))).
  { apply new_fiber_inv; [done|done|]. unfold ids_left in *. cbn. by rewrite Hid1. }
  split; [eapply (locals_inv _ t l2); [done|by cbn; rewrite lookup_insert_eq|done..|]|].
  2:{ eapply keep_trans; [done|]. eapply keep_trans; [by eapply (keeps_locals w1 t l1 l2)|].
      eapply keep_trans; [by apply (keeps_new dflt b (Some run) 0 true)|].
      by eapply (keeps_locals _ t l2); [cbn; rewrite lookup_insert_eq|]. }
  right. cbn. split; [congruence|]. split; [rewrite Hon1; eauto|]. exists b. eexists. rewrite lookup_insert_eq.
  split_and!; [done|done|by right|]. intros t1 l3 H3 Hn E3. rewrite lookup_insert_ne in H3 by done.
  pose proof (inv_thr w1 I1 _ _ H3) as [_ Q]. destruct (Q b E3) as (? & ? & _). congruence.
Qed.

Lemma run_begin_inv t a this root w : inv w -> enabled (LRun t a this root) w ->
  exists w', run_begin t a this root w = Ok w' /\ inv w' /\ keeps w w'.
Proof.
  intros I H. destruct root.
  { destruct H as (l & Ht & Hs). unfold run_begin, locals_at. rewrite Ht. cbn. eexists. split; [done|].
    split; [eapply (locals_inv w t l); eauto|by eapply keeps_locals]. }
  destruct H as ((l0 & Ht0 & Hh) & Ha & l & Ht & Hm). rewrite Ht in Ht0. injection Ht0 as <-.
  set (l1 := mkLocals (t_fiber l) (t_threadFiber l) (Some this) (t_main l) (on l)).
  assert (I1 : inv (put_locals t l1 w)) by (eapply (locals_inv w t l); eauto).
  destruct (GetThis_inv (put_locals t l1 w) t a l1 I1) as (c & w2 & l2 & E2 & I2 & Ht2 & Hon2 & Hm2 & Hs2 & Hid2 & Hk2 & Hh2 & Ho2);
    [by cbn; rewrite lookup_insert_eq|done|].
  unfold run_begin, locals_at. rewrite Ht. cbn. fold l1. rewrite E2. cbn. rewrite Ht2. cbn. eexists. split; [done|].
  destruct (thread_on w2 t l2 c I2 Ht2 Hon2) as (_ & m & fr & fm & Hm' & Hr & _).
  assert (Hc : t_threadFiber l2 = Some c) by (apply Hh2; done).
  split; [|eapply keep_trans; [by eapply (keeps_locals w t l l1)|]; eapply keep_trans; [done|]; by eapply keeps_locals].
  eapply (locals_inv _ t l2); [done|done|done..|]. right. split; [by rewrite Hm2|]. split; [eauto|].
  exists c, fr. split_and!; [done|done|by left|]. intros t1 l3 H3 Hn E3.
  eapply (own w2 t l2 c); eauto.
Qed.

Lemma wrap_pred n : u64 (u64 (Z.of_nat (S n)) - 1) = u64 (Z.of_nat n).
Proof. unfold u64, wrapu. rewrite Zminus_mod_idemp_l. f_equal. lia. Qed.

Lemma size_delete_obj (os : gmap nat Fiber) a f : os !! a = Some f -> size os = S (size (delete a os)).
Proof. intros H. rewrite map_size_delete, H. cbn. enough (size os <> 0) by lia. intros ->%map_size_empty_inv. done. Qed.

(** A fiber with a stack goes, that no thread refers to. *)
Lemma delete_fiber_inv t a w : inv w -> enabled (LDelete t a) w -> exists w', delete_fiber t a w = Ok w' /\ inv w'.
Proof.
  intros I ([l Ht] & Hm & f & Ha & Hs & Hst). pose proof (inv_obj w I _ _ Ha) as Oa.
  assert (Hn : forall t1 l1, thr w !! t1 = Some l1 -> ~ refers l1 a).
  { intros t1 l1 H1 Hr. destruct (refers_kind w t1 l1 a f I H1 Ha Hr) as [E|[E|[_ E]]].
    - destruct (obj_over a f Oa Hst); congruence.
    - destruct (obj_no_stack a f Oa E). congruence.
    - by eapply Hm. }
  eexists. split.
  { unfold delete_fiber, fiber_at, locals_at. rewrite Ha. cbn. rewrite Ht. cbn. rewrite Hs.
    rewrite (proj2 (assert_ok _)); [done|]. by destruct Hst as [->|[->| ->]]. }
  split; cbn; try apply I.
  - intros b g [? H]%lookup_delete_Some. by apply (inv_obj w I).
  - intros t1 l1 H1. eapply thread_ok_ext; [by apply (inv_thr w I t1)|]. intros b g Hb Hr.
    rewrite lookup_delete_ne; [done|]. intros <-. by eapply Hn.
  - intros b g [? H]%lookup_delete_Some Hc. by eapply (inv_live w I).
  - intros b g [? H]%lookup_delete_Some. by eapply (inv_ids w I).
  - intros b1 b2 g1 g2 [? H1]%lookup_delete_Some [? H2]%lookup_delete_Some. by eapply (inv_inj w I).
  - rewrite (inv_count w I), (size_delete_obj (objs w) a f Ha). apply wrap_pred.
Qed.

Lemma thread_exit_inv t w : inv w -> enabled (LExit t) w -> exists w', thread_exit t w = Ok w' /\ inv w'.
Proof.
  intros I (l & Ht & Hh). unfold thread_exit, locals_at. rewrite Ht. cbn.
  assert (ap : forall g, apart g (thr w) -> apart g (delete t (thr w))).
  { intros g Ha t1 t2 l1 l2 b [? H1]%lookup_delete_Some [? H2]%lookup_delete_Some. by apply Ha. }
  destruct (t_threadFiber l) as [m|] eqn:Em.
  - destruct (thread_on w t l m I Ht Hh) as (Hf & m1 & fr & fm & Hm1 & Hr & Hc & Hfm & Hem & _).
    rewrite Em in Hm1. injection Hm1 as <-. rewrite Hr in Hfm. injection Hfm as <-.
    destruct (obj_no_stack m fr (inv_obj w I _ _ Hr) Hem) as (Hs & Hcb & Hst).
    unfold delete_fiber, fiber_at, locals_at. rewrite Hr, Ht. cbn. rewrite Hs, Hcb, Hst. cbn. rewrite decide_True by done.
    unfold setThis, locals_at. cbn. rewrite Ht. cbn. eexists. split; [reflexivity|].
    split; cbn; rewrite ?delete_insert_eq; try (apply ap); try apply I.
    + intros b g [? H]%lookup_delete_Some. by apply (inv_obj w I).
    + intros t1 l1 [? H1]%lookup_delete_Some. eapply thread_ok_ext; [by apply (inv_thr w I t1)|]. intros b g Hb Hrf.
      rewrite lookup_delete_ne; [done|]. intros <-. destruct Hrf as [E|E].
      * assert (t1 = t) by (by eapply (inv_on w I)). done.
      * eapply (own w t l m I Ht); [by left|by apply not_eq_sym|done|done].
    + intros b g [? H]%lookup_delete_Some Hcx. destruct (inv_live w I b g H Hcx) as (t1 & l1 & H1 & H2). exists t1, l1.
      rewrite lookup_delete_ne; [done|]. intros <-. rewrite Ht in H1. injection H1 as <-. congruence.
    + intros b g [? H]%lookup_delete_Some. by eapply (inv_ids w I).
    + intros b1 b2 g1 g2 [? H1]%lookup_delete_Some [? H2]%lookup_delete_Some. by eapply (inv_inj w I).
    + rewrite (inv_count w I), (size_delete_obj (objs w) m fr Hr). apply wrap_pred.
  - eexists. split; [reflexivity|]. split; cbn; try (apply ap); try apply I.
    + intros t1 l1 [? H1]%lookup_delete_Some. by apply (inv_thr w I t1).
    + intros b g H Hcx. destruct (inv_live w I b g H Hcx) as (t1 & l1 & H1 & H2). exists t1, l1.
      rewrite lookup_delete_ne; [done|]. intros <-. rewrite Ht in H1. injection H1 as <-. congruence.
Qed.

Lemma reset_inv a cb w : inv w -> enabled (LReset a cb) w -> exists w', reset a cb w = Ok w' /\ inv w'.
Proof.
  intros I (f & Ha & He & Hst). pose proof (inv_obj w I _ _ Ha) as Oa.
  assert (Hs : m_stack f = true) by (eapply obj_stack; [done|congruence]).
  unfold reset, fiber_at. rewrite Ha. cbn. rewrite Hs. cbn.
  rewrite (proj2 (assert_ok _)) by (by destruct Hst as [->|[->| ->]]). cbn. eexists. split; [done|].
  eapply (put_inv w a f); try done. destruct (obj_over a f Oa Hst) as [->| ->]; eauto.
Qed.

Lemma set_hold_inv a w : inv w -> enabled (LSetHold a) w -> exists w', update a (set_state HOLD) w = Ok w' /\ inv w'.
Proof.
  intros I (f & Ha & He & Hst & Hc). pose proof (inv_obj w I _ _ Ha) as Oa.
  unfold update, fiber_at. rewrite Ha. cbn. eexists. split; [done|].
  eapply (put_inv w a f); try done; try (by cbn; rewrite Hc).
  revert Oa He Hst Hc. obj_cases.
Qed.

Lemma fiber_step_inv dflt l w : inv w -> enabled l w -> exists w', exec dflt l w = Ok w' /\ inv w'.
Proof.
  intros I H. destruct (switch_steps w I) as [Hin Hcall]. 
  destruct l; cbn [exec].
  - eauto using new_thread_inv.
  - destruct H as [[l Ht] Ha]. destruct (GetThis_inv w t a l I Ht Ha) as (c & w' & l' & -> & I' & _). cbn. eauto.
  - destruct H. eauto using new_fiber_inv.
  - by apply reset_inv.
  - edestruct Scheduler_use_caller_inv as (w' & E & I' & _); eauto.
  - edestruct run_begin_inv as (w' & E & I' & _); eauto.
  - by apply Hcall.
  - by apply out_steps.
  - by apply out_steps.
  - by apply Hin.
  - by apply out_steps.
  - by apply out_steps.
  - by apply out_steps.
  - by apply set_hold_inv.
  - by apply delete_fiber_inv.
  - by apply thread_exit_inv.
Qed.

Lemma reached_inv dflt w : reached dflt w -> inv w.
Proof.
  induction 1 as [|l w w' _ IH Hl E]; [apply inv_start|].
  destruct (fiber_step_inv dflt l w IH Hl) as (w1 & E1 & I1). rewrite E in E1. by injection E1 as ->.
Qed.

(** ** The switches are those of [Fiber.v] *)

Definition fiber_exit (l : label) : option (nat * exit) :=
  match l with
  | LReady t => Some (t, YReady)
  | LHold t => Some (t, YHold)
  | LMainEnd t threw => Some (t, if threw then Thrown else Done)
  | _ => None
  end.

(** What a step does to the fiber at [a], if it is made for [swapIn]. *)
Definition fiber_op (l : label) (w : world) (a : nat) : option (Fiber.Fiber -> outcome Fiber.Fiber) :=
  match l with
  | LSwapIn t b => if decide (a = b) then Some (Fiber.swapIn t) else None
  | LReset b cb => if decide (a = b) then Some (Fiber.reset cb) else None
  | LSetHold b => if decide (a = b) then Some (fun f => Ok (Fiber.set_state HOLD f)) else None
  | _ => match fiber_exit l with
         | Some (t, e) => if decide ((thr w !! t ≫= on) = Some a) then Some (leave e) else None
         | None => None
         end
  end.

Lemma views_same w w' a f : objs w' !! a = objs w !! a ->
  (forall t l, thr w !! t = Some l -> on l = Some a -> exists l', thr w' !! t = Some l' /\ on l' = Some a) ->
  views w a f -> views w' a f.
Proof.
  intros Ho Ht (g & Ha & H1 & H2 & H3 & H4). exists g. rewrite Ho. split_and!; try done. destruct (Fiber.m_ctx f); try done.
  destruct H4 as (H4 & l & H5 & H6). split; [done|]. eauto.
Qed.

Lemma views_switched w t l r fr y fy a f : thr w !! t = Some l -> on l = Some r -> a <> r -> a <> y -> views w a f ->
  views (switched t l r fr y fy w) a f.
Proof.
  intros Ht Hon Hr Hy. apply views_same; cbn; [by rewrite !lookup_insert_ne by done|].
  intros t1 l1 H1 E1. exists l1. rewrite lookup_insert_ne; [done|congruence].
Qed.

Lemma views_into w t l r fr y fy f : objs w !! y = Some fy -> r <> y -> m_state fy <> EXEC -> ready_ctx y fy -> views w y f ->
  exists f', Fiber.swapIn t f = Ok f' /\ views (switched t l r fr y (set_ctx None (set_state EXEC fy)) w) y f'.
Proof.
  intros Hy Hne Hs Hc (g & Ha & H1 & H2 & H3 & H4). rewrite Hy in Ha. injection Ha as <-.
  unfold Fiber.swapIn. rewrite bool_decide_eq_true_2 by congruence. cbn. unfold resume. cbn.
  exists (Fiber.mkFiber EXEC (Fiber.m_cb f) (Fiber.m_stack f) (Live t)). split.
  - destruct (Fiber.m_ctx f); try done; [destruct Hc; congruence|]. destruct Hc; naive_solver.
  - eexists. cbn. rewrite !lookup_insert_eq. split_and!; try done. eauto.
Qed.

Lemma views_out w t l r fr y fy f e g p : thr w !! t = Some l -> on l = Some r -> objs w !! r = Some fr -> m_state fr = EXEC -> m_ctx fr = None ->
  r <> y -> views w r f ->
  match e with
  | YReady => g = set_state READY fr /\ p = Resume r
  | YHold => g = fr /\ p = Resume r
  | Done => g = finish false fr /\ p = Last
  | Thrown => g = finish true fr /\ p = Last
  end ->
  exists f', leave e f = Ok f' /\ views (switched t l r (set_ctx (Some p) g) y fy w) r f'.
Proof.
  intros Ht Hon Hr Hs Hc Hne (g0 & Ha & H1 & H2 & H3 & H4) He. rewrite Hr in Ha. injection Ha as <-.
  assert (E1 : Fiber.m_state f = EXEC) by congruence.
  destruct e; destruct He as [-> ->]; cbn [leave]; unfold Fiber.YieldToReady, Fiber.YieldToHold; rewrite ?E1; cbn;
    eexists; (split; [reflexivity|]); eexists; cbn; rewrite lookup_insert_ne, lookup_insert_eq by done; cbn; split_and!; try done; eauto; congruence.
Qed.

(** The thread's own fiber and its scheduler's are not made for [swapIn]. *)
Lemma apart_from_main w t l a g c : inv w -> thr w !! t = Some l -> objs w !! a = Some g -> m_entry g = Some AtMain ->
  t_threadFiber l = Some c \/ t_main l = Some c -> a <> c.
Proof.
  intros I Ht Ha He Hc <-. pose proof (refers_kind w t l a g I Ht Ha) as H.
  pose proof (inv_thr w I _ _ Ht) as [P Q].
  assert (Hhome : t_threadFiber l <> Some a).
  { intros E. destruct (on l); [|destruct P as (_ & P & _); congruence].
    destruct P as (_ & m & fr & fm & E' & _ & _ & Hm & Hem & _). congruence. }
  destruct Hc as [Hc|Hc]; [done|]. destruct (Q a Hc) as (fc & E1 & [E2|E2]); congruence.
Qed.

(** The steps that leave a fiber of a scheduler, alike. *)
Lemma exit_eq dflt x t e w w' : inv w -> fiber_exit x = Some (t, e) -> enabled x w -> exec dflt x w = Ok w' ->
  exists l r fr c fc g p, thr w !! t = Some l /\ on l = Some r /\ objs w !! r = Some fr /\ m_state fr = EXEC /\ m_ctx fr = None
    /\ t_main l = Some c /\ r <> c /\ w' = switched t l r (set_ctx (Some p) g) c (set_ctx None fc) w
    /\ match e with
       | YReady => g = set_state READY fr /\ p = Resume r
       | YHold => g = fr /\ p = Resume r
       | Done => g = finish false fr /\ p = Last
       | Thrown => g = finish true fr /\ p = Last
       end.
Proof.
  intros I Hx Hen E.
  assert (Hin : in_entry AtMain t w) by (destruct x; try done; cbn in Hx; injection Hx as -> _; exact Hen).
  destruct Hin as (l & r & fr & Ht & Hon & Hr & He).
  destruct (below_saved w t l r fr _ I Ht Hon Hr He) as (c & fc & E1 & E2 & E3 & Hne & Hm & _); cbn in E1.
  destruct (thread_on w t l r I Ht Hon) as (Hf & m & fr1 & fm & _ & Hr1 & Hcr & _). rewrite Hr in Hr1. injection Hr1 as <-.
  pose proof (obj_EXEC r fr (inv_obj w I _ _ Hr) Hcr) as Hst.
  destruct x; try done; cbn in Hx; injection Hx as -> <-; cbn [exec] in E.
  - rewrite (YieldToReady_eq t l r c fr fc) in E by done. injection E as <-. exists l, r, fr, c, fc, (set_state READY fr), (Resume r). by split_and!.
  - rewrite (YieldToHold_eq t l r c fr fc) in E by done. injection E as <-. exists l, r, fr, c, fc, fr, (Resume r). by split_and!.
  - rewrite (MainFunc_end_eq t l threw r c fr fc) in E by done. injection E as <-. exists l, r, fr, c, fc, (finish threw fr), Last.
    split_and!; try done. by destruct threw.
Qed.

Lemma exit_refines dflt x t e w w' a g f : inv w -> fiber_exit x = Some (t, e) -> enabled x w -> exec dflt x w = Ok w' ->
  objs w !! a = Some g -> m_entry g = Some AtMain -> views w a f ->
  if decide ((thr w !! t ≫= on) = Some a) then exists f', leave e f = Ok f' /\ views w' a f' else views w' a f.
Proof.
  intros I Hx Hen E Ha He Hv.
  destruct (exit_eq dflt x t e w w' I Hx Hen E) as (l & r & fr & c & fc & g' & p & Ht & Hon & Hr & Hs & Hc & Hm & Hne & -> & Hcase).
  rewrite Ht. cbn. case_decide as D.
  - rewrite Hon in D. injection D as ->. eapply views_out; eauto.
  - apply views_switched; try done; [congruence|]. eapply apart_from_main; eauto.
Qed.

Lemma swapIn_refines t b w w' a g f : inv w -> enabled (LSwapIn t b) w -> swapIn t b w = Ok w' ->
  objs w !! a = Some g -> m_entry g = Some AtMain -> views w a f ->
  if decide (a = b) then exists f', Fiber.swapIn t f = Ok f' /\ views w' a f' else views w' a f.
Proof.
  intros I ((l & Ht & Hm & [r Hon]) & fb & Hb & Heb & Hst) E Ha He Hv.
  destruct (obj_runnable b fb (inv_obj w I _ _ Hb) Hst) as [Hc Hs].
  destruct (thread_on w t l r I Ht Hon) as (_ & m & fr & fm & _ & Hr & _).
  pose proof (not_on w t l r b fb I Ht Hon Hb (ready_is_Some b fb Hc)) as Hne.
  rewrite (swapIn_eq t l r b fr fb) in E by first [done|congruence]. injection E as <-.
  case_decide as D; [subst b; by eapply views_into|].
  apply views_switched; try done. eapply apart_from_main; eauto. right. congruence.
Qed.

(** A switch between a thread's own stack and a fiber that was called. *)
Lemma caller_keeps dflt x w w' a g f : inv w -> enabled x w -> exec dflt x w = Ok w' ->
  match x with LCall _ _ | LBack _ | LCallerEnd _ _ => True | _ => False end ->
  objs w !! a = Some g -> m_entry g = Some AtMain -> views w a f -> views w' a f.
Proof.
  intros I Hen E Hx Ha He Hv.
  assert (leaves : forall t, in_entry AtCaller t w -> exists l r fr c fc, thr w !! t = Some l /\ on l = Some r /\ t_fiber l = Some r
     /\ objs w !! r = Some fr /\ m_entry fr = Some AtCaller /\ t_threadFiber l = Some c /\ objs w !! c = Some fc /\ r <> c /\ m_ctx fc = Some (Resume c)).
  { intros t (l & r & fr & Ht & Hon & Hr & Her).
    destruct (below_saved w t l r fr _ I Ht Hon Hr Her) as (c & fc & E1 & E2 & E3 & Hne & _ & _).
    destruct (thread_on w t l r I Ht Hon) as (Hf & _). exists l, r, fr, c, fc. by split_and!. }
  destruct x; try done; cbn [exec] in E.
  - destruct Hen as ((l & Ht & Hm & [r Hon]) & (fb & Hb & Heb & Hc) & Hu).
    destruct (thread_on w t l r I Ht Hon) as (_ & m & fr & fm & _ & Hr & _).
    pose proof (not_on w t l r _ fb I Ht Hon Hb (ready_is_Some _ fb Hc)) as Hne.
    rewrite (call_eq t l r _ fr fb) in E by first [done|congruence]. injection E as <-.
    apply views_switched; try done; [|congruence]. eapply apart_from_main; eauto. left. congruence.
  - destruct (leaves t Hen) as (l & r & fr & c & fc & Ht & Hon & Hf & Hr & Her & Hm & Hcf & Hne & Hcc).
    rewrite (back_eq t l r c fr fc) in E by done. injection E as <-. apply views_switched; try done; [congruence|].
    eapply apart_from_main; eauto.
  - destruct (leaves t Hen) as (l & r & fr & c & fc & Ht & Hon & Hf & Hr & Her & Hm & Hcf & Hne & Hcc).
    rewrite (CallerMainFunc_end_eq t l threw r c fr fc) in E by done. injection E as <-. apply views_switched; try done; [congruence|].
    eapply apart_from_main; eauto.
Qed.

Lemma delete_fiber_eq t b w w' : delete_fiber t b w = Ok w' ->
  objs w' = delete b (objs w) /\ forall t1 l1, thr w !! t1 = Some l1 -> exists l2, thr w' !! t1 = Some l2 /\ on l2 = on l1.
Proof.
  unfold delete_fiber. intros E. apply bind_ok in E as (f & _ & E). apply bind_ok in E as (l & Hl & E).
  apply bind_ok in E as (w1 & E1 & E). injection E as <-. cbn.
  assert (K : objs w1 = objs w /\ forall t1 l1, thr w !! t1 = Some l1 -> exists l2, thr w1 !! t1 = Some l2 /\ on l2 = on l1).
  { destruct (m_stack f).
    - apply bind_ok in E1 as (_ & _ & E1). injection E1 as <-. eauto.
    - apply bind_ok in E1 as (_ & _ & E1). apply bind_ok in E1 as (_ & _ & E1). case_decide; [|injection E1 as <-; eauto].
      unfold setThis in E1. apply bind_ok in E1 as (l0 & Hl0 & E1). injection E1 as <-. split; [done|]. cbn.
      unfold locals_at in Hl0. cbn in Hl0. destruct (thr w !! t) as [l3|] eqn:Ht; [injection Hl0 as ->|done].
      intros t1 l1 H1. destruct (decide (t1 = t)) as [->|].
      + rewrite lookup_insert_eq. eexists. split; [done|]. cbn. congruence.
      + rewrite lookup_insert_ne by done. eauto. }
  by destruct K as [-> K].
Qed.

(** What goes away is not this fiber. *)
Lemma delete_keeps dflt x w w' a g f : inv w -> enabled x w -> exec dflt x w = Ok w' ->
  match x with LDelete _ b => b <> a | LExit _ => True | _ => False end ->
  objs w !! a = Some g -> m_entry g = Some AtMain -> views w a f -> views w' a f.
Proof.
  intros I Hen E Hx Ha He Hv. destruct x; try done; cbn [exec] in E.
  - apply delete_fiber_eq in E as [E1 E2]. eapply views_same; [|..|exact Hv].
    + rewrite E1. by apply lookup_delete_ne.
    + intros t1 l1 H1 H2. destruct (E2 t1 l1 H1) as (l2 & H3 & H4). exists l2. split; congruence.
  - destruct Hen as (l & Ht & Hh). unfold thread_exit, locals_at in E. rewrite Ht in E. cbn in E.
    apply bind_ok in E as (w1 & E1 & E). injection E as <-.
    assert (K : objs w1 !! a = objs w !! a /\ forall t1 l1, thr w !! t1 = Some l1 -> exists l2, thr w1 !! t1 = Some l2 /\ on l2 = on l1).
    { destruct (t_threadFiber l) as [m|] eqn:Em; [|injection E1 as <-; eauto].
      apply delete_fiber_eq in E1 as [E1 E2]. split; [|done]. rewrite E1. apply lookup_delete_ne. apply not_eq_sym.
      eapply apart_from_main; eauto. }
    destruct K as [K1 K2]. eapply views_same; [exact K1| |exact Hv]. intros t1 l1 H1 H2. cbn.
    destruct (K2 t1 l1 H1) as (l2 & H3 & H4). exists l2. rewrite lookup_delete_ne; [split; congruence|].
    intros <-. rewrite Ht in H1. injection H1 as <-. eapply (apart_from_main w t l a g a); eauto. left. congruence.
Qed.

(** [reset] and the scheduler's write of [HOLD]. *)
Lemma put_refines w b f' a f : a <> b -> views w a f -> views (put b f' w) a f.
Proof. intros Hn. apply views_same; [|eauto]. cbn. by rewrite lookup_insert_ne. Qed.

Lemma reset_refines b cb w w' a f : reset b cb w = Ok w' -> views w a f ->
  if decide (a = b) then exists f', Fiber.reset cb f = Ok f' /\ views w' a f' else views w' a f.
Proof.
  unfold reset. intros E Hv. apply bind_ok in E as (g & Hg & E). apply bind_ok in E as ([] & A1 & E). apply bind_ok in E as ([] & A2 & E).
  injection E as <-. destruct (decide (a = b)) as [->|D]; [|by apply put_refines].
  unfold fiber_at in Hg. destruct Hv as (g0 & Ha & H1 & H2 & H3 & H4). rewrite Ha in Hg. injection Hg as ->.
  unfold Fiber.reset. rewrite H3, H1, A1. cbn [mbind outcome_bind]. rewrite A2. cbn. eexists. split; [done|].
  eexists. cbn. by rewrite lookup_insert_eq.
Qed.

Lemma set_hold_refines b w w' a f : update b (set_state HOLD) w = Ok w' -> views w a f ->
  if decide (a = b) then views w' a (Fiber.set_state HOLD f) else views w' a f.
Proof.
  unfold update. intros E Hv. apply bind_ok in E as (g & Hg & E). injection E as <-.
  destruct (decide (a = b)) as [->|D]; [|by apply put_refines].
  unfold fiber_at in Hg. destruct Hv as (g0 & Ha & H1 & H2 & H3 & H4). rewrite Ha in Hg. injection Hg as ->.
  eexists. cbn. rewrite lookup_insert_eq. by split_and!.
Qed.

(** ** Properties *)


(** C5: Through the thread-local pointers and [swapcontext], a step taken by the
    rules (a fiber is entered by [swapIn] only from the fiber its thread's
    scheduler runs on, not twice and not after its end, a scheduler is made on a
    thread that has none, ids are left for new fibers) acts on each fiber made
    for [swapIn] that the step does not delete as the operation of the same name
    of Fiber.v, on which the scheduler's theorems rest, and leaves the view of
    each other such fiber alone. *)
Theorem fibers_refine dflt l w w' a g f : reached dflt w -> enabled l w -> exec dflt l w = Ok w' ->
  objs w !! a = Some g -> m_entry g = Some AtMain -> views w a f -> (forall t, l <> LDelete t a) ->
  match fiber_op l w a with
  | Some op => exists f', op f = Ok f' /\ views w' a f'
  | None => views w' a f
  end.
Proof.
  intros R Hen E Ha He Hv Hd. pose proof (reached_inv dflt w R) as I.
  destruct l; cbn [fiber_op fiber_exit].
  - cbn in E. injection E as <-. eapply (views_same w); [done| |done]. intros t1 l1 H1 E1. exists l1. cbn.
    rewrite lookup_insert_ne; [done|]. cbn in Hen. congruence.
  - destruct Hen as [[l Ht] Hf]. destruct (GetThis_inv w t a0 l I Ht Hf) as (c & w1 & l' & E1 & _ & _ & _ & _ & _ & _ & _ & _ & K).
    cbn [exec] in E. rewrite E1 in E. injection E as <-. by eapply keeps_views.
  - cbn in E. injection E as <-. eapply keeps_views; [|done]. apply keeps_new. apply Hen.
  - cbn [exec] in E. pose proof (reset_refines a0 cb w w' a f E Hv). by case_decide.
  - destruct (Scheduler_use_caller_inv dflt t a0 b this run w I Hen) as (w1 & E1 & _ & K). cbn [exec] in E. rewrite E1 in E.
    injection E as <-. by eapply keeps_views.
  - destruct (run_begin_inv t a0 this is_root w I Hen) as (w1 & E1 & _ & K). cbn [exec] in E. rewrite E1 in E.
    injection E as <-. by eapply keeps_views.
  - by eapply caller_keeps.
  - by eapply caller_keeps.
  - by eapply caller_keeps.
  - pose proof (swapIn_refines t a0 w w' a g f I Hen E Ha He Hv). by case_decide.
  - pose proof (exit_refines dflt (LReady t) t YReady w w' a g f I eq_refl Hen E Ha He Hv). by case_decide.
  - pose proof (exit_refines dflt (LHold t) t YHold w w' a g f I eq_refl Hen E Ha He Hv). by case_decide.
  - pose proof (exit_refines dflt (LMainEnd t threw) t (if threw then Thrown else Done) w w' a g f I eq_refl Hen E Ha He Hv). by case_decide.
  - cbn [exec] in E. pose proof (set_hold_refines a0 w w' a f E Hv). case_decide; eauto.
  - eapply delete_keeps; try done. cbn. congruence.
  - by eapply delete_keeps.
Qed.

(** A worker, its main fiber at 10 and a fiber at 11. *)
Definition worker_run : list label := [LThread 1; LRun 1 10 5 false; LNew 11 (Some 3) 0 false].
Definition world_after (n : nat) : world :=
  match execs 131072 (take n worker_run) (World ∅ ∅ 0 0) with Ok w => w | Err _ => World ∅ ∅ 0 0 end.
Definition worker_with_fiber : world := world_after 3.

Lemma worker_reached : reached 131072 worker_with_fiber.
Proof.
  apply (reached_step _ (LNew 11 (Some 3) 0 false) (world_after 2)); [|split; vm_compute; reflexivity|vm_compute; reflexivity].
  apply (reached_step _ (LRun 1 10 5 false) (world_after 1)); [| |vm_compute; reflexivity].
  - apply (reached_step _ (LThread 1) (World ∅ ∅ 0 0)); [apply reached_start|vm_compute; reflexivity|vm_compute; reflexivity].
  - split_and!; [exists idle_locals; split|vm_compute|exists idle_locals; split]; vm_compute; reflexivity.
Qed.

Lemma worker_swapIn : enabled (LSwapIn 1 11) worker_with_fiber.
Proof. split; eexists; vm_compute; split_and!; eauto. Qed.


Lemma fibers_refine_witness : exists w', exec 131072 (LSwapIn 1 11) worker_with_fiber = Ok w'
  /\ exists f', Fiber.swapIn 1 (Fiber.newFiber (Some 3)) = Ok f' /\ views w' 11 f'.
Proof.
  eexists. split; [vm_compute; reflexivity|].
  eapply (fibers_refine 131072 (LSwapIn 1 11) worker_with_fiber _ 11 _ (Fiber.newFiber (Some 3)) worker_reached worker_swapIn).
  - vm_compute. reflexivity.
  - vm_compute. reflexivity.
  - vm_compute. reflexivity.
  - eexists. split; [vm_compute; reflexivity|]. repeat split.
  - discriminate.
Defined.

(** ** Outside the rules *)

(** On a thread with no scheduler [GetMainFiber()] is null: [swapIn] is
    undefined after [GetThis] made the main fiber. *)
Lemma swapIn_no_scheduler dflt cb :
  execs dflt [LThread 1; LGetThis 1 10; LNew 11 cb 0 false; LSwapIn 1 11] (World ∅ ∅ 0 0) = Err (UB null_deref).
Proof. reflexivity. Qed.

(** [YieldToHold] leaves [EXEC]: without the scheduler's write the next
    [swapIn] fails its assertion. *)
Lemma held_swapIn_asserts dflt cb :
  execs dflt [LThread 1; LRun 1 10 5 false; LNew 11 cb 0 false; LSwapIn 1 11; LHold 1; LSwapIn 1 11] (World ∅ ∅ 0 0) = Err AssertFails.
Proof. reflexivity. Qed.

(** A fiber that enters another one overwrites the scheduler's context: when
    the second yields, the first goes on in the place of the scheduler, with
    [GetThis] the wrong fiber, and its own yield comes back to it at once. *)
Lemma nested_swapIn_lost dflt cb1 cb2 : exists w,
  execs dflt [LThread 1; LRun 1 10 5 false; LNew 11 cb1 0 false; LNew 12 cb2 0 false; LSwapIn 1 11; LSwapIn 1 12; LHold 1] (World ∅ ∅ 0 0) = Ok w
  /\ (exists l, thr w !! 1 = Some l /\ on l = Some 11 /\ t_fiber l = Some 10)
  /\ exists w', exec dflt (LHold 1) w = Ok w' /\ exists l, thr w' !! 1 = Some l /\ on l = Some 11.
Proof.
  eexists. split; [vm_compute; reflexivity|]. split; [eexists; split; [vm_compute; reflexivity|split; reflexivity]|].
  eexists. split; [vm_compute; reflexivity|]. eexists. split; [vm_compute; reflexivity|reflexivity].
Qed.

(** [reset] forgets that a fiber was made for [call]: the root fiber of a
    scheduler, reset and called, ends in a switch to itself and the assertion
    behind it. *)
Lemma reset_root_asserts dflt cb :
  execs dflt [LThread 1; LScheduler 1 10 11 5 0; LReset 11 cb; LCall 1 11; LMainEnd 1 false] (World ∅ ∅ 0 0) = Err AssertFails.
Proof. reflexivity. Qed.

(** [~Scheduler] leaves [GetMainFiber()] at its root fiber: a [swapIn] on that
    thread after the scheduler and its members are gone is undefined. *)
Lemma deleted_scheduler_dangles dflt cb :
  (w ← execs dflt [LThread 1; LScheduler 1 10 11 5 0] (World ∅ ∅ 0 0);
   w ← Scheduler_delete 1 5 true w;
   execs dflt [LDelete 1 11; LNew 12 cb 0 false; LSwapIn 1 12] w) = Err (UB null_deref).
Proof. reflexivity. Qed.

(** A scheduler's root fiber that has ended cannot be called again. *)
Lemma ended_root_asserts dflt threw :
  execs dflt [LThread 1; LScheduler 1 10 11 5 0; LCall 1 11; LCallerEnd 1 threw; LCall 1 11] (World ∅ ∅ 0 0) = Err AssertFails.
Proof. by destruct threw. Qed.
