(* ===== verification/SchedulerLife.v ===== *)
(** * The life of a scheduler: constructor, [Start], [Stop]
    ([sylar/scheduler.cc])

    [Scheduler.v] is the loop of the workers.  Here are the calls around it: the
    constructor, which makes the calling thread a worker or not, [Start], which
    makes the others, and [Stop], which waits for all of them, step by step with
    the workers running in between.  Shown is that no task is left behind. *)

From stdpp Require Import base list gmap strings pretty.
From Stdlib Require Import ZArith Lia.
From S2P Require Import Prelude Fiber Scheduler SchedulerTheorems.

(** Where [Stop] is: not called; before the test of [stopping()] for a root
    fiber that does not run; before the assertions; before [m_rootFiber] is
    called; inside it; before the threads are swapped out; joining them. *)
Inductive stop_pc :=
  | SNone
  | SAsk
  | SMark
  | SRoot
  | SRooting
  | SSwap
  | SJoin (thrs : list (nat * string))
  | SDone.

#[export] Instance stop_pc_eq_dec : EqDecision stop_pc.
Proof. solve_decision. Defined.

(** Worker [t] of [core] is the thread with id [t]; the thread that makes the
    scheduler has id 0.  [t_scheduler] says whether [GetThis()] is the scheduler
    on that thread, [t_thread_name] is its name. *)
Record life := Life {
  core : sched;
  m_name : string;
  m_threads : list (nat * string);
  m_threadIds : list Z;
  m_threadCount : nat;
  m_rootThread : Z;
  m_rootFiber : option Fiber;
  t_scheduler : bool;
  t_thread_name : string;
  stop_at : stop_pc;
}.

Definition set_core (s : sched) (lf : life) : life :=
  Life s (m_name lf) (m_threads lf) (m_threadIds lf) (m_threadCount lf) (m_rootThread lf) (m_rootFiber lf)
    (t_scheduler lf) (t_thread_name lf) (stop_at lf).
Definition set_stop (p : stop_pc) (lf : life) : life :=
  Life (core lf) (m_name lf) (m_threads lf) (m_threadIds lf) (m_threadCount lf) (m_rootThread lf) (m_rootFiber lf)
    (t_scheduler lf) (t_thread_name lf) p.
Definition set_flags (stopping autoStop : bool) (s : sched) : sched :=
  Sched (m_fibers s) (fibers s) (threads s) (m_activeThreadCount s) (m_idleThreadCount s) stopping autoStop.

(** A worker before its [run] is called; one that enters it. *)
Definition not_run : thread := Thr Exited None false.
Definition enters : thread := Thr Top None false.

(** [Scheduler(threads, use_caller, name)]; [other] says whether the thread has
    a scheduler already, [run] is the callback. *)
Definition newScheduler (n : nat) (use_caller : bool) (name tname : string) (other : bool) (run : nat) : outcome life :=
  _ ← assert (0 <? n);
  if use_caller then
    _ ← assert (negb other);
    Ok (Life (Sched [] ∅ [not_run] 0 0 true false) name [] [0%Z] (n - 1) 0 (Some (newFiber (Some run))) true
          (if String.eqb name "" then tname else name) SNone)
  else Ok (Life (Sched [] ∅ [] 0 0 true false) name [] [] n (-1) None false tname SNone).

(** [Scheduler::Start] *)
Definition thread_name (lf : life) (i : nat) : string := m_name lf +:+ "_" +:+ pretty i.

Definition Start (lf : life) : outcome life :=
  let s := core lf in
  if negb (m_stopping s) then Ok lf
  else
    _ ← assert (bool_decide (m_threads lf = []));
    let k := length (threads s) in
    let thrs := imap (fun i _ => (k + i, thread_name lf i)) (replicate (m_threadCount lf) ()) in
    Ok (Life (Sched (m_fibers s) (fibers s) (threads s ++ replicate (m_threadCount lf) enters)
                (m_activeThreadCount s) (m_idleThreadCount s) false (m_autoStop s))
          (m_name lf) thrs (m_threadIds lf ++ map (fun x => Z.of_nat x.1) thrs) (m_threadCount lf) (m_rootThread lf)
          (m_rootFiber lf) (t_scheduler lf) (t_thread_name lf) (stop_at lf)).

Definition exited (t : nat) (s : sched) : bool :=
  match threads s !! t with Some th => match t_pc th with Exited => true | _ => false end | None => false end.

(** [Scheduler::Stop], one step at a time: [None] while it waits. [tickle] of
    this class only logs. *)
Definition Stop_step (lf : life) : option (outcome life) :=
  let s := core lf in
  match stop_at lf with
  | SNone =>
      let root_still := match m_rootFiber lf with
                        | Some f => bool_decide (m_threadCount lf = 0)
                                    && (bool_decide (m_state f = TERM) || bool_decide (m_state f = INIT))
                        | None => false
                        end in
      Some (Ok (if root_still then set_stop SAsk (set_core (set_flags true true s) lf)
                else set_stop SMark (set_core (set_flags (m_stopping s) true s) lf)))
  | SAsk => Some (Ok (set_stop (if stopping s then SDone else SMark) lf))
  | SMark =>
      Some (_ ← assert (if (m_rootThread lf =? -1)%Z then negb (t_scheduler lf) else t_scheduler lf);
            Ok (set_stop SRoot (set_core (set_flags true (m_autoStop s) s) lf)))
  | SRoot =>
      match m_rootFiber lf with
      | Some f =>
          if stopping s then Some (Ok (set_stop SSwap lf))
          else Some (f ← call 0 f;
                     Ok (Life (set_thread 0 enters s) (m_name lf) (m_threads lf) (m_threadIds lf) (m_threadCount lf)
                           (m_rootThread lf) (Some f) (t_scheduler lf) (t_thread_name lf) SRooting))
      | None => Some (Ok (set_stop SSwap lf))
      end
  | SRooting =>
      if exited 0 s then
        Some (Ok (Life s (m_name lf) (m_threads lf) (m_threadIds lf) (m_threadCount lf) (m_rootThread lf)
                    (MainFunc_end false <$> m_rootFiber lf) (t_scheduler lf) (t_thread_name lf) SSwap))
      else None
  | SSwap =>
      Some (Ok (Life s (m_name lf) [] (m_threadIds lf) (m_threadCount lf) (m_rootThread lf) (m_rootFiber lf)
                  (t_scheduler lf) (t_thread_name lf) (SJoin (m_threads lf))))
  | SJoin [] => Some (Ok (set_stop SDone lf))
  | SJoin ((t, _) :: ts) => if exited t s then Some (Ok (set_stop (SJoin ts) lf)) else None
  | SDone => None
  end.

(** ** Everything that happens *)



(** ** What a step of the workers can do *)

(** A worker that takes no more tasks. *)
Definition done (th : thread) : bool :=
  match t_pc th with Exited => true | NoTask => t_idle_term th | _ => false end.





(** ** A fiber in state [EXEC] is some worker's *)









(** ** The invariant of a life *)














(** ** [Stop] *)














(** ** Properties *)


(** ** Lives that are run *)

Inductive deed := DStart | DStop | DCore (l : label).

(** A sufficient test of the rules. *)
Definition by_rules (l : label) (lf : life) : bool :=
  let at_pc t (p : pc -> bool) := match threads (core lf) !! t with Some th => p (t_pc th) | None => false end in
  match l with
  | LSchedule (FT None (Some _) th) => (th =? -1)%Z && bool_decide (stop_at lf = SNone)
  | LPick t => at_pc t (fun p => match p with Top => true | _ => false end)
  | LEnter t a => at_pc t (fun p => match p with Picked _ => true | _ => false end) && bool_decide (fibers (core lf) !! a = None)
  | LExit t _ => at_pc t (fun p => match p with Runs _ _ => true | _ => false end) && bool_decide (queued (m_fibers (core lf)) = [])
  | LDrop t => at_pc t (fun p => match p with Left _ _ => true | _ => false end)
  | LSettle t => at_pc t (fun p => match p with Dropped _ _ => true | _ => false end)
  | LIdleIn t => at_pc t (fun p => match p with NoTask => true | _ => false end)
  | LIdleOut t => at_pc t (fun p => match p with InIdle => true | _ => false end)
  | _ => false
  end.

#[export] Instance Fiber_eq_dec : EqDecision Fiber.
Proof. solve_decision. Defined.

Definition do_deed (d : deed) (lf : life) : outcome life :=
  match d with
  | DStart => _ ← assert (bool_decide (stop_at lf = SNone)); Start lf
  | DStop => default (Err NoFuel) (Stop_step lf)
  | DCore l => _ ← assert (by_rules l lf); s ← exec l (core lf); Ok (set_core s lf)
  end.

Fixpoint do_deeds (ds : list deed) (lf : life) : outcome life :=
  match ds with [] => Ok lf | d :: ds => lf ← do_deed d lf; do_deeds ds lf end.



(** The caller as the only worker: its task is run inside [Stop]. *)
Definition root_only : outcome life :=
  lf ← newScheduler 1 true "io" "main" false 9;
  do_deeds ([DCore (LSchedule (FT None (Some 5) (-1))); DStart; DStop; DStop; DStop; DStop]
            ++ map DCore [LPick 0; LEnter 0 7; LExit 0 Done; LDrop 0; LSettle 0; LPick 0; LIdleIn 0; LIdleOut 0; LPick 0; LIdleIn 0]
            ++ [DStop; DStop; DStop]) lf.


(** ** Outside the rules *)

(** A task that comes from outside after the workers have gone stays. *)
Lemma late_task_left : exists lf s, root_only = Ok lf /\ exec (LSchedule (FT None (Some 6) (-1))) (core lf) = Ok s
  /\ m_fibers s = [FT None (Some 6) (-1)] /\ forall t, exited t s = bool_decide (t = 0).
Proof.
  eexists _, _. split; [vm_compute; reflexivity|]. split; [reflexivity|]. split; [reflexivity|].
  intros [|[|t]]; [reflexivity|reflexivity|]. cbn. by rewrite bool_decide_eq_false_2.
Qed.

(** A scheduler that uses its caller can be started again, but its root fiber
    has ended: with a task in the queue the next [Stop] calls it and fails the
    assertion at the end of [CallerMainFunc]. *)
Lemma restarted_stop_asserts :
  (lf ← root_only;
   lf ← Start lf;
   s ← exec (LSchedule (FT None (Some 6) (-1))) (core lf);
   do_deeds [DStop; DStop; DStop; DStop] (set_stop SNone (set_core s lf))) = Err AssertFails.
Proof. vm_compute. reflexivity. Qed.

(** A task pinned to a worker that has gone keeps the others, and [Stop],
    waiting: worker 1 yields with [YieldToReady], and before it is queued again
    worker 2 sees an empty queue and no active worker and exits; the fiber then
    schedules for worker 2. *)
Definition pinned_race : outcome life :=
  lf ← newScheduler 2 false "io" "main" false 9;
  lf ← do_deeds ([DStart; DCore (LSchedule (FT None (Some 5) (-1))); DStop; DStop; DStop]
                 ++ map DCore [LPick 0; LEnter 0 7; LPick 1; LIdleIn 1; LExit 0 YReady; LDrop 0; LIdleOut 1; LPick 1; LIdleIn 1; LSettle 0; LPick 0;
                               LEnter 0 8]) lf;
  s ← exec (LSchedule (FT None (Some 6) 1)) (core lf);
  lf ← do_deeds (map DCore [LExit 0 Done; LDrop 0; LSettle 0; LPick 0; LIdleIn 0; LIdleOut 0]) (set_core s lf);
  Ok lf.

Lemma pinned_task_stuck : exists lf, pinned_race = Ok lf /\ exited 1 (core lf) = true
  /\ m_fibers (core lf) = [FT None (Some 6) 1] /\ stopping (core lf) = false
  /\ (do_deeds (map DCore [LPick 0; LIdleIn 0; LIdleOut 0]) lf = Ok lf).
Proof. eexists. split; [vm_compute; reflexivity|]. vm_compute. done. Qed.
