(* ===== verification/HttpLimits.v ===== *)
(** * The configured sizes of HTTP messages: [http/http_parser.cc]

    Four configuration variables, the four statics that hold their values and
    the object whose constructor copies them before [main] and registers a
    listener on each.  [HttpSession.v] and [HttpConnection.v] take the buffer
    whose length these statics are. *)

From stdpp Require Import base list.
From Stdlib Require Import ZArith Lia String.
From S2P Require Import Prelude Config.

(** The statics. *)
Record limits := mkLimits {
  s_http_request_buffer_size : Z;
  s_http_request_max_body_size : Z;
  s_http_response_buffer_size : Z;
  s_http_response_max_body_size : Z;
}.

Definition no_limits : limits := mkLimits 0 0 0 0.

Definition GetHttpRequestBufferSize (st : limits) : Z := s_http_request_buffer_size st.
Definition GetHttpRequestMaxBodySize (st : limits) : Z := s_http_request_max_body_size st.
Definition GetHttpResponseBufferSize (st : limits) : Z := s_http_response_buffer_size st.
Definition GetHttpResponseMaxBodySize (st : limits) : Z := s_http_response_max_body_size st.

(** The variables, and which one. *)
Record size_vars := mkVars {
  g_http_request_buffer_size : ConfigVar Z limits;
  g_http_request_max_body_size : ConfigVar Z limits;
  g_http_response_buffer_size : ConfigVar Z limits;
  g_http_response_max_body_size : ConfigVar Z limits;
}.

Inductive which := request_buffer | request_body | response_buffer | response_body.

Definition default_vars : size_vars :=
  mkVars (newConfigVar "http.request.buffer_size" (4 * 1024)%Z "http request buffer size")
         (newConfigVar "http.request.max_body_size" (64 * 1024 * 1024)%Z "http request max body size")
         (newConfigVar "http.response.buffer_size" (4 * 1024)%Z "http response buffer size")
         (newConfigVar "http.response.max_body_size" (64 * 1024 * 1024)%Z "http response max body size").

Definition get_var (k : which) (g : size_vars) : ConfigVar Z limits :=
  match k with
  | request_buffer => g_http_request_buffer_size g
  | request_body => g_http_request_max_body_size g
  | response_buffer => g_http_response_buffer_size g
  | response_body => g_http_response_max_body_size g
  end.
Definition put_var (k : which) (v : ConfigVar Z limits) (g : size_vars) : size_vars :=
  match g, k with
  | mkVars a b c d, request_buffer => mkVars v b c d
  | mkVars a b c d, request_body => mkVars a v c d
  | mkVars a b c d, response_buffer => mkVars a b v d
  | mkVars a b c d, response_body => mkVars a b c v
  end.
Definition get_limit (k : which) (st : limits) : Z :=
  match k with
  | request_buffer => GetHttpRequestBufferSize st
  | request_body => GetHttpRequestMaxBodySize st
  | response_buffer => GetHttpResponseBufferSize st
  | response_body => GetHttpResponseMaxBodySize st
  end.
Definition put_limit (k : which) (x : Z) (st : limits) : limits :=
  match st, k with
  | mkLimits a b c d, request_buffer => mkLimits x b c d
  | mkLimits a b c d, request_body => mkLimits a x c d
  | mkLimits a b c d, response_buffer => mkLimits a b x d
  | mkLimits a b c d, response_body => mkLimits a b c x
  end.

#[export] Instance which_eq_dec : EqDecision which.
Proof. solve_decision. Defined.

(** The listener on a variable. *)
Definition size_listener (k : which) : on_change_cb Z limits := fun _ nv st => put_limit k nv st.

(** One variable in [_RequestSizeIniter]; [s_fun_id] counts the listeners of
    variables of its type. *)
Definition init_size (k : which) (x : Z * size_vars * limits) : Z * size_vars * limits :=
  let '(fid, g, st) := x in
  let st := put_limit k (m_val (get_var k g)) st in
  let '(_, fid, v) := addListener (size_listener k) fid (get_var k g) in
  (fid, put_var k v g, st).

(** [_RequestSizeIniter()], which is run before [main]. *)
Definition RequestSizeIniter (x : Z * size_vars * limits) : Z * size_vars * limits :=
  init_size response_body (init_size response_buffer (init_size request_body (init_size request_buffer x))).

(** [setValue] on one of them. *)
Definition set_size (e : which * Z) (x : size_vars * limits) : size_vars * limits :=
  let '(v, st) := setValue Z.eqb e.2 (get_var e.1 x.1) x.2 in (put_var e.1 v x.1, st).

(** ** Facts *)

Lemma get_put_limit k x st : get_limit k (put_limit k x st) = x.
Proof. by destruct st, k. Qed.
Lemma get_put_limit_ne k k' x st : k' <> k -> get_limit k' (put_limit k x st) = get_limit k' st.
Proof. by destruct st, k, k'. Qed.
Lemma get_put_var k v g : get_var k (put_var k v g) = v.
Proof. by destruct g, k. Qed.
Lemma get_put_var_ne k k' v g : k' <> k -> get_var k' (put_var k v g) = get_var k' g.
Proof. by destruct g, k, k'. Qed.

(** A variable with its listener, and the static with its value. *)
Definition in_step (k : which) (g : size_vars) (st : limits) : Prop :=
  (exists id, m_cbs (get_var k g) = [(id, size_listener k)]) /\ get_limit k st = m_val (get_var k g).

Lemma init_size_ok k fid g st : m_cbs (get_var k g) = [] ->
  let '(_, g', st') := init_size k (fid, g, st) in
  in_step k g' st' /\ forall k', k' <> k -> get_var k' g' = get_var k' g /\ get_limit k' st' = get_limit k' st.
Proof.
  intros Hc. cbn. unfold in_step. rewrite get_put_var. cbn. rewrite Hc. cbn. split; [split; [eauto|apply get_put_limit]|].
  intros k' Hk. by rewrite get_put_var_ne, get_put_limit_ne.
Qed.

Lemma set_size_ok e k g st : in_step e.1 g st -> in_step k g st ->
  let '(g', st') := set_size e (g, st) in in_step k g' st'
    /\ m_val (get_var k g') = (if decide (k = e.1) then e.2 else m_val (get_var k g)).
Proof.
  destruct e as [k0 x]. cbn. intros ((id & Hc) & Hv) ((id' & Hc') & Hv'). unfold set_size, setValue, setValue_notify. cbn.
  destruct (Z.eqb_spec x (m_val (get_var k0 g))) as [E|E].
  - replace (put_var k0 (get_var k0 g) g) with g by (by destruct g, k0). split; [split; eauto|].
    case_decide; [by subst|done].
  - rewrite Hc. cbn. change (size_listener k0 (m_val (get_var k0 g)) x st) with (put_limit k0 x st).
    unfold in_step. case_decide as D.
    + subst k0. rewrite get_put_var. cbn. split; [split; [eauto|apply get_put_limit]|done].
    + rewrite get_put_var_ne, get_put_limit_ne by done. split; [split; eauto|done].
Qed.

Lemma set_sizes_ok es : forall g st, (forall k, in_step k g st) ->
  let '(g', st') := foldl (fun x e => set_size e x) (g, st) es in
  (forall k, in_step k g' st')
  /\ forall k, m_val (get_var k g') = foldl (fun x e => if decide (k = e.1) then e.2 else x) (m_val (get_var k g)) es.
Proof.
  induction es as [|e es IH]; intros g st H; cbn; [done|].
  assert (Hs := fun k => set_size_ok e k g st (H e.1) (H k)). destruct (set_size e (g, st)) as [g1 st1].
  specialize (IH g1 st1 (fun k => proj1 (Hs k))). destruct (foldl _ (g1, st1) es) as [g2 st2]. destruct IH as [I1 I2].
  split; [done|]. intros k. by rewrite I2, (proj2 (Hs k)).
Qed.

(** The process before [main]. *)
Lemma started_in_step fid : let '(_, g, st) := RequestSizeIniter (fid, default_vars, no_limits) in
  (forall k, in_step k g st) /\ forall k, m_val (get_var k g) = m_val (get_var k default_vars).
Proof. cbn. split; intros []; (done || (split; [eexists; reflexivity|reflexivity])). Qed.

(** After the start of the program and any assignments to the variables, the
    sizes the parsers are asked for are the values last assigned, or the
    defaults. *)
Theorem sizes_follow_config fid es :
  let '(_, g, st) := RequestSizeIniter (fid, default_vars, no_limits) in
  let '(g', st') := foldl (fun x e => set_size e x) (g, st) es in
  forall k, get_limit k st' = m_val (get_var k g')
    /\ m_val (get_var k g') = foldl (fun x e => if decide (k = e.1) then e.2 else x) (m_val (get_var k default_vars)) es.
Proof.
  pose proof (started_in_step fid) as H0. destruct (RequestSizeIniter _) as [[fid' g] st]. destruct H0 as [H1 H2].
  pose proof (set_sizes_ok es g st H1) as H. destruct (foldl _ (g, st) es) as [g' st']. destruct H as [I1 I2].
  intros k. split; [apply (I1 k)|]. by rewrite I2, H2.
Qed.
